(* ===== verification/_CoqProject ===== *)
-Q . S2P
Prelude.v
GoLib.v
GoSort.v
GoFloat.v
GoDuration.v
CircuitBreaker.v
NodeClassBreakers.v
TTLCache.v
GoRegexp.v
Errors.v
NodeClass.v
ProviderIDs.v
Webhook.v
Ownership.v
Options.v
Prog.v
GoWait.v
Kube.v
IksApi.v
IksAllocation.v
IksLaunch.v
IksLaunchSafety.v
IksCleanup.v
IksCleanupSafety.v
IksExample.v
Drift.v
CloudProvider.v
CloudProviderSafety.v
CapacityType.v
InstanceTypes.v
InstanceTypesSpec.v
Batcher.v
BatcherSpec.v
Pricing.v
PricingSpec.v
VpcApi.v
Subnets.v
Images.v
VpcLaunch.v
Bootstrap.v
VpcCreate.v
VpcVolumes.v
VpcSafety.v
VpcCleanupSafety.v
VpcDrift.v
VpcExample.v
CloudExample.v
ControllerApi.v
GarbageCollection.v
OrphanCleanup.v
PoolCleanup.v
Interruption.v
NodeClassControllers.v
AllocationControllers.v
NodeClaimControllers.v
LoadBalancer.v
VpcClient.v
NodeClassStatus.v
AutoPlacement.v
GoBase64.v
Tokens.v
Credentials.v
VpcBootstrap.v
ClusterDiscovery.v
