(* ===== verification/Prelude.v ===== *)
(** * Karpenter's provider for IBM Cloud: a verification library

    The program under src/ is the IBM Cloud side of Karpenter: it turns pending
    NodeClaims into VPC instances or IKS workers, and removes them.  This library
    models its decision logic and proves what it guarantees.

    ** Parts and files

    - Prelude: results, generic lemmas, the scope [go_scope], the tactics
      [go_cases] and [bool_to_prop], the hint databases [go_db] and [go_rw].
    - GoLib, GoSort, GoRegexp: what the program uses of Go's library: instants and
      durations, strings, [Atoi]; [sort.Slice] and the iteration of maps as classes
      that state what Go promises; the anchored regular expressions.  GoFloat: float64
      as the IEEE 754 format of the Standard Library, each operation rounded on its
      own, as on amd64; GoDuration: [time.ParseDuration]; GoBase64: encoding/base64.
    - CircuitBreaker: pkg/cloudprovider/circuitbreaker.go, the breaker that gates
      provisioning; NodeClassBreakers: nodeclasscircuitbreaker.go, one breaker per
      NodeClass and region.  The breakers are called by Create of
      pkg/cloudprovider/cloudprovider.go.
    - TTLCache: pkg/cache, the cache the providers share and the unavailable
      offerings.
    - Errors: Go error values ([GoErrors]), the IBM Cloud error of
      pkg/httpclient/client.go ([HttpClient]), the classification of
      pkg/cloudprovider/ibm/errors.go ([IBM]) and the retry of rate limited calls of
      ratelimit_retry.go ([Retry]).
    - NodeClass: the structs of pkg/apis/v1alpha1/ibmnodeclass_types.go and the
      provisioning hash of pkg/utils/nodeclass/hash.go ([Hash]).
    - Webhook: ibmnodeclass_webhook.go, the admission of a NodeClass.
    - ProviderIDs: the two provider ID formats and every function that parses them,
      from the cloud provider, the controllers and the instance providers.
    - Ownership: pkg/utils/ownership, the tags and names that mark what Karpenter
      owns.
    - Options: pkg/operator/options/options.go, the configuration the environment
      gives, its validation, and the breaker configuration made of it.
    - Prog: programs that call their environment, their runs, and a weakest
      precondition calculus for them; GoWait: wait.ExponentialBackoff as the class
      [ExponentialBackoff].
    - IksApi, IksAllocation, IksLaunch, IksCleanup: the IKS backend,
      pkg/providers/iks/workerpool/allocation.go: one isolated worker pool per
      NodeClaim.  IksLaunchSafety and IksCleanupSafety hold its theorems, IksExample
      runs it against a concrete cluster.
    - Kube: the objects of Kubernetes and Karpenter the handlers exchange, their
      errors, and the error results of handlers.
    - Drift: IsDrifted of pkg/cloudprovider/cloudprovider.go and its checks;
      CloudProvider: Create, Delete, Get, List and GetInstanceTypes of the same file,
      with the choice of the backend of pkg/providers/factory.go, as programs over the
      breaker, Kubernetes and the backends.  CloudProviderSafety holds the theorems,
      CloudExample runs them.
    - Subnets: pkg/providers/vpc/subnet/provider.go, the choice of subnets by a
      placement strategy; Images: pkg/providers/common/image/resolver.go, the
      resolution of an image by identifier, name or selector.
    - CapacityType: pkg/providers/common/capacitytype.  InstanceTypes:
      pkg/providers/common/instancetype/instancetype.go, from the profiles of VPC to
      Karpenter's instance types and their offerings, the filter and ranking of a
      NodeClass, the retried listings; InstanceTypesSpec holds its theorems.
    - Batcher: pkg/batcher/batcher.go, as a step relation of its goroutines: the
      callers, the runner, the workers; Pricing: getpricing.go, the executor the batcher
      is used with, and pkg/providers/common/pricing/ibm_provider.go, the cached prices.
      BatcherSpec and PricingSpec hold the theorems; PricingSpec runs the batcher's
      against the executor.
    - VpcApi: the data of the VPC API and the calls of the VPC backend; VpcLaunch:
      pkg/providers/vpc/instance/recovery.go, the checkpoint of a launch, its recovery
      and cleanup; VpcCreate: pkg/providers/vpc/instance/provider.go, from the
      NodeClass to the instance prototype, the submission, Delete, Get and List, with
      CapacityType; Bootstrap: InjectBootstrapEnvVars of
      cloudinit.go.  VpcVolumes, VpcSafety, VpcCleanupSafety and VpcDrift hold the
      theorems, VpcExample runs them.
    - ControllerApi: the calls of the controllers, and a world that answers them.
      GarbageCollection, OrphanCleanup, PoolCleanup, Interruption and
      NodeClassControllers: the controllers of pkg/controllers that delete things,
      each with its theorems: nodeclaim/garbagecollection, node/orphancleanup,
      iks/poolcleanup, interruption with spot/preemption, nodeclass/hash with
      nodeclass/termination.  They call the backends above through the functions
      those export: the cloud provider's List and Get, [TryDeleteEmptyPool], the hashes.
    - AllocationControllers: iks/allocation and nodeclaim/allocation of pkg/controllers,
      which hold a claim until what it launched is gone; they run the cleanups of
      IksCleanup and VpcLaunch, and their theorems compose those of the backends.
      NodeClaimControllers: nodeclaim/registration, nodeclaim/startuptaint and
      nodeclaim/tagging.  LoadBalancer: nodeclaim/loadbalancer with
      pkg/providers/loadbalancer, the members of pools and their health checks.
    - VpcClient: pkg/cloudprovider/ibm/vpc.go, the client that the calls above go
      through: its methods over the SDK, the pages of a listing, tags, regions; and
      pkg/utils/vpcclient, the cached client.
    - NodeClassStatus: nodeclass/status of pkg/controllers, which validates a class
      against the API and sets its Ready condition; AutoPlacement:
      nodeclass/autoplacement, which selects its instance types and subnets.  They run
      the programs of Subnets, Images, InstanceTypes and VpcClient.
    - Tokens: pkg/providers/common/types/token.go, the bootstrap tokens and the address
      of the API server, with controllers/bootstrap/token_controller.go.  VpcBootstrap:
      pkg/providers/vpc/bootstrap/provider.go, the options of a node's user data.
      ClusterDiscovery: types/cluster.go and pkg/providers/iks/bootstrap.
    - Credentials: credentials.go, iam.go, credential_identity.go and client.go of
      pkg/cloudprovider/ibm: the encrypted keys as steps of interleaved calls, the
      cached token of IAM, the account of a key.

    ** How the model reads

    A struct is a record with the source's fields, a pointer field an [option], a map
    a [gmap], [(T, error)] a [result] or a pair.  A method that mutates its receiver
    returns the new value.  A mutex held for a whole method makes it one atomic step;
    where the code releases a lock in between ([Cache.Get]) the parts are separate
    steps and the theorems allow any calls between them.  Clock readings are
    arguments, one per reading.  Code outside src/ (SHA-256, JSON, RFC 3339, Karpenter's
    scheduling, the IBM SDK) is an argument or the method of a class; its documented
    behaviour is a law of a class ([StdlibLaws], [SliceSorter], [MapRange],
    [CodecErrors], [LaunchLaws], [Quantities], [ExponentialBackoff], [MigrationCodec],
    [StatusConditions], [URLs], [AEADLaws], [TokenJSON], [BootstrapJSON],
    [SchedulingRequirements], [Net]).

    A handler that talks to Kubernetes or IBM Cloud is a [prog]: a tree of calls.  A
    theorem about its runs holds for every sequence of answers, so it covers errors,
    stale reads, and whatever other processes do between two calls.  A guard states
    what the history must show before a call that creates or deletes something.

    ** What the theorems show

    - IKS launch: [launch_creates_safely], [launch_returns_own_worker].  A pool is
      asked for at most once per run, under the lock, with the finalizer, the
      annotation and the reservation stored first, and only when no earlier request can
      still produce one; a node is returned only for the claim's own single worker.
    - IKS deletion: [cleanup_is_exact], [pending_cleanup_spares_nodes],
      [empty_pool_deletion_is_safe], [absence_needs_evidence].  Only the allocation's
      own pool is deleted, the reservation outlives the pool and the worker, and
      nothing is reported gone without evidence.
    - VPC launch: [create_requests_once], [discarded_launch_created_nothing].  An
      instance is requested at most once per run, after its checkpoint, a search for an
      instance of its name and the mark of the submission; a checkpoint is thrown away
      only when nothing can come of it.
    - VPC deletion and lookup: [delete_only_own_instance], [pending_cleanup_safe],
      [lookup_is_verified].  Only the claim's own instance is touched, in the account
      it was launched in, and absence is reported only on evidence.
    - VPC instances: [volumes_are_owned], [volumes_of_class], [spread_over_zones].
    - Placement: [placement_selects], exactly which subnets a strategy gives;
      [required_tags_exclude_all], a class that requires a tag gets none.
      [selector_resolves_best]: the image of a selector is usable, matching and the
      newest.
    - Instance types: [filter_exact], exactly which types a NodeClass's requirements
      leave and in which order; [offerings_exact], one offering per zone and capacity
      type with the price and availability of this run; [listing_retries].
    - Batcher and prices: [answers_are_own], in every interleaving a caller gets the
      result of its own request; [every_add_returns], the steps are bounded by [work]
      and nothing is left waiting; [stopped_never_answers], what shutdown leaves behind.
      [pricing_is_own] puts the two together with the executor of the catalog,
      [refreshed_prices_exact] says what a refresh stores.
    - Options: [environment_valid], exactly which environments are accepted;
      [negative_window_never_trips], what an unvalidated one does to the breaker.
    - NodeClass status: [ready_is_validated], a class is Ready only when the API
      confirmed everything it names; [selections_follow_spec], the selected types and
      subnets are those of its own specification.
    - VPC client: [listing_follows_pages], a listing is complete and ends;
      [not_sent_is_not_sent], which the recovery of a launch relies on;
      [tags_on_own_resource], [region_keeps_credential].
    - Bootstrap: [user_data_registers_node], a node gets what it needs to join, and the
      taint that keeps pods off; [bootstrap_token_usable], [token_cleanup_safe], which
      tokens are handed out and which are removed; [controller_token_never_expires];
      [kubeadm_endpoint_found], [discovered_config].
    - Credentials: [credentials_are_recent], in any interleaving no key is used longer
      than its time to live; [iam_token_lasts]; [account_is_verified];
      [base64_credentials_decoded].
    - Cloud provider: [create_follows_protocol], [creates_return_their_slots],
      [delete_is_verified], [absence_is_verified].  The breaker's permission and its
      record belong to each other on every path, panics included.
    - Drift: [drift_exact], and across the launch [new_claim_drifts_exactly].
    - Controllers: [gc_deletes_only_gone], [orphan_deletes_only_unknown],
      [pools_deleted_after_ttl], [interruption_deletes_only_signalled],
      [class_outlives_its_nodes]: what each controller may delete, the looks that must
      come before, and that nothing it should handle is passed over in silence;
      [pools_deleted_after_ttl] is about any sequence of passes.
      [hash_migration_keeps_verdicts]: a new version of the hash changes no verdict of
      drift.  [preemption_exact]: exactly what a pass over the spot instances does.
      [iks_finalizer_outlives_allocation], [vpc_finalizer_outlives_launch]: a claim is
      let go only when nothing of it is left.  [registration_migrates],
      [startup_taints_removed], [tags_are_asked_for], [members_follow_claims]: the
      changes the other controllers make and what they wait for;
      [health_check_patch_exact], [validated_health_check].
    - The allocation record: [restore_keeps_identity], [uncertainty_window],
      [validatePool_spec].
    - Circuit breakers: refinement of a three-state machine, exact count of the
      instances in flight, limits over whole executions, tripping and recovery;
      isolation of the keys of a manager, and what its cleanup loses.
    - Cache: the observable entries ([view]) are what a map with expirations would
      give; evictions and sweeps change nothing observable.
    - Errors: the class of an error with a response is its status, through any
      wrapping; the retry makes one to five calls and never waits above thirty seconds.
    - NodeClass and Webhook: the webhook admits exactly the declarative specification;
      the hash forgets exactly the operational fields.
    - ProviderIDs, Ownership: round trips between the formats and all their parsers;
      tags sorted and decodable, ownership tags out of users' reach.

    ** Termination, fuel and bounds

    Every recursion is structural: loops run over lists, the retry over its five
    attempts, a [prog] is a finite tree for any answers.  The exceptions are the loops over the
    pages of an instance's tags in OrphanCleanup and over the pages of a listing in
    VpcClient, which a service could feed for ever: they take fuel and are [None] when
    it runs out; [tags_listing_complete] shows that more fuel than the instance has
    tags is enough, [listing_follows_pages] that more fuel than the service has cursors is.  The loop of
    the batcher has no end; between two calls of its clients its steps are bounded by
    the work left ([work] of BatcherSpec).  Durations
    are int64 nanoseconds where an operation can overflow ([Retry], [Sub]).

    ** What is not modelled

    HTTP, the VPC SDK, the clients of IKS and of the Global Catalog, logging, metrics,
    quota and events, which the handlers see through their answers; the text of the
    template of the bootstrap script; the flags of the command line.  Case folding and
    trimming are those of ASCII text. *)
From stdpp Require Import prelude list strings.

(** ** Results

    Go's [(T, error)] pair, for the functions that return either a value or a non-nil error. *)
Inductive result (E A : Type) : Type :=
  | Ok (a : A)
  | Err (e : E).
Arguments Ok {E A} a.
Arguments Err {E A} e.

Declare Scope go_scope.
Delimit Scope go_scope with go.

Notation "'let?' x ':=' e 'in' k" :=
  (match e with Ok x => k | Err err => Err err end)
  (at level 10, x name, e at level 200, k at level 200,
   format "'[v' 'let?'  x  ':='  e  'in' '/' k ']'") : go_scope.

Definition is_ok {E A} (r : result E A) : bool :=
  match r with Ok _ => true | Err _ => false end.

Lemma is_ok_true {E A} (r : result E A) : is_ok r = true ↔ ∃ a, r = Ok a.
Proof. destruct r; naive_solver. Qed.

Lemma is_ok_false {E A} (r : result E A) : is_ok r = false ↔ ∃ e, r = Err e.
Proof. destruct r; naive_solver. Qed.

(** ** Generic lemmas on lists, options and booleans *)
Lemma filter_bool_length_le {A} (f : A → bool) (l : list A) :
  length (List.filter f l) ≤ length l.
Proof. induction l as [|a l IH]; simpl; [lia|]. destruct (f a); simpl; lia. Qed.

Lemma filter_bool_nil {A} (f : A → bool) (l : list A) :
  List.filter f l = [] ↔ Forall (λ x, f x = false) l.
Proof.
  induction l as [|a l IH]; simpl; [by split; [constructor|]|].
  rewrite Forall_cons, <-IH. destruct (f a); naive_solver.
Qed.

Lemma filter_bool_idem {A} (f : A → bool) (l : list A) :
  List.filter f (List.filter f l) = List.filter f l.
Proof.
  induction l as [|a l IH]; simpl; [done|].
  destruct (f a) eqn:E; simpl; [by rewrite E, IH|done].
Qed.

Lemma existsb_false_Forall {A} (f : A → bool) (l : list A) :
  existsb f l = false ↔ Forall (λ x, f x = false) l.
Proof.
  induction l as [|a l IH]; simpl; [by split; [constructor|]|].
  rewrite orb_false_iff, Forall_cons, IH. done.
Qed.

Lemma elem_of_concat {A} (x : A) (ls : list (list A)) : x ∈ concat ls ↔ ∃ l, l ∈ ls ∧ x ∈ l.
Proof.
  rewrite list_elem_of_In, in_concat. setoid_rewrite list_elem_of_In. done.
Qed.

Lemma foldl_invariant {A B} (f : B → A → B) (P : B → Prop) (l : list A) b :
  P b → (∀ b a, a ∈ l → P b → P (f b a)) → P (foldl f b l).
Proof.
  revert b. induction l as [|a l IH]; intros b Hb Hf; cbn [foldl]; [done|].
  apply IH; [apply Hf; [by left|done]|]. intros b' a' Ha'. apply Hf. by right.
Qed.

Lemma existsb_eqb (x : string) (l : list string) : existsb (String.eqb x) l = true ↔ x ∈ l.
Proof.
  rewrite existsb_exists. setoid_rewrite String.eqb_eq. rewrite list_elem_of_In. naive_solver.
Qed.

Lemma find_None_Forall {A} (f : A → bool) (l : list A) :
  List.find f l = None ↔ Forall (λ x, f x = false) l.
Proof.
  induction l as [|a l IH]; simpl; [by split; [constructor|]|].
  rewrite Forall_cons, <-IH. destruct (f a); naive_solver.
Qed.

(** ** Reachability

    Reflexive transitive closure of a labelled step relation, and the rule the
    components use: an invariant of the initial state that every step preserves
    holds in every reachable state. *)
Section reach.
Context {S L : Type} (step : S → L → S → Prop).

Inductive steps : S → list L → S → Prop :=
  | steps_nil s : steps s [] s
  | steps_cons s1 l s2 ls s3 :
      step s1 l s2 → steps s2 ls s3 → steps s1 (l :: ls) s3.

Lemma steps_app s1 l1 s2 l2 s3 :
  steps s1 l1 s2 → steps s2 l2 s3 → steps s1 (l1 ++ l2) s3.
Proof. induction 1; simpl; eauto using steps. Qed.

Lemma steps_invariant (I : S → Prop) s ls s' :
  (∀ s1 l s2, I s1 → step s1 l s2 → I s2) →
  steps s ls s' → I s → I s'.
Proof. intros Hstep. induction 1; eauto. Qed.

(** The same for an invariant that speaks of the labels so far. *)
Lemma steps_trace_invariant (I : list L → S → Prop) s ls s' :
  (∀ ls1 s1 l s2, I ls1 s1 → step s1 l s2 → I (ls1 ++ [l]) s2) →
  steps s ls s' → I [] s → I ls s'.
Proof.
  intros Hstep Hsteps HI. enough (∀ pre, I pre s → I (pre ++ ls) s') as H by exact (H [] HI).
  clear HI. induction Hsteps as [s|s1 l s2 ls s3 H1 Hs IH]; intros pre HI; [by rewrite (right_id_L [] (++))|].
  change (l :: ls) with ([l] ++ ls). rewrite (assoc_L (++)). apply IH. by eapply Hstep.
Qed.
End reach.

(** ** Tactics *)

(** [go_cases] splits every [if]/[match] of the goal and the hypotheses and
    closes the contradictory branches. *)
Ltac go_cases :=
  repeat (simplify_eq/=; first [case_match | progress intros]); simplify_eq/=.

(** [bool_to_prop] turns boolean arithmetic tests in the context into [Z]/[nat]
    (in)equalities that [lia] reads. *)
Ltac bool_to_prop :=
  repeat match goal with
  | H : (_ && _) = true |- _ => apply andb_true_iff in H; destruct H
  | H : (_ || _) = false |- _ => apply orb_false_iff in H; destruct H
  | H : negb _ = true |- _ => apply negb_true_iff in H
  | H : negb _ = false |- _ => apply negb_false_iff in H
  | H : bool_decide _ = true |- _ => apply bool_decide_eq_true in H
  | H : bool_decide _ = false |- _ => apply bool_decide_eq_false in H
  | H : String.eqb _ _ = true |- _ => apply String.eqb_eq in H
  | H : String.eqb _ _ = false |- _ => apply String.eqb_neq in H
  end.

(** ** Hint databases

    [go_db] carries the facts that close the routine side goals of the
    components: bounds of the counters, time arithmetic, list membership. *)
Create HintDb go_db discriminated.
Create Rewrite HintDb go_rw.
#[export] Hint Rewrite @filter_bool_idem : go_rw.
#[export] Hint Resolve filter_bool_length_le : go_db.
