(* ===== verification/GoLib.v ===== *)
(** * GoLib: the parts of Go's standard library the program uses

    [time] (instants and durations), [strings] and [strconv]. *)
From stdpp Require Import prelude list strings pretty.
From Stdlib Require Import Ascii.
From S2P Require Import Prelude.

#[global] Arguments String.append !_ _ / : simpl nomatch.

(** ** time *)
Module GoTime.
(** An instant is its distance in nanoseconds from the Unix epoch; a
    [time.Duration] is an int64 number of nanoseconds. *)
Definition min_duration : Z := (- 2 ^ 63)%Z.
Definition max_duration : Z := (2 ^ 63 - 1)%Z.

Definition Millisecond : Z := 1000000%Z.
Definition Second : Z := (1000 * Millisecond)%Z.
Definition Minute : Z := (60 * Second)%Z.
Definition Hour : Z := (60 * Minute)%Z.

(** The zero [time.Time] is January 1 of year 1. *)
Definition zero_time : Z := (- 62135596800 * Second)%Z.

(** [t.Sub(u)] saturates at the int64 bounds. *)
Definition Sub (t u : Z) : Z := Z.max min_duration (Z.min max_duration (t - u)).
Definition Add (t d : Z) : Z := (t + d)%Z.
Definition After (t u : Z) : bool := (u <? t)%Z.
Definition Before (t u : Z) : bool := (t <? u)%Z.

(** A clock gives the value of the i-th reading made by one operation. *)
Definition clock := nat → Z.
Definition monotone (c : clock) : Prop := ∀ i j, i ≤ j → (c i ≤ c j)%Z.
Definition frozen (t : Z) : clock := λ _, t.

Lemma frozen_monotone t : monotone (frozen t).
Proof. intros i j _. unfold frozen. lia. Qed.

Lemma Sub_ge d t u : (d ≤ max_duration)%Z → (d ≤ t - u)%Z → (d ≤ Sub t u)%Z.
Proof. unfold Sub, min_duration, max_duration. lia. Qed.

Lemma Sub_lt d t u : (min_duration < d)%Z → (t - u < d)%Z → (Sub t u < d)%Z.
Proof. unfold Sub, min_duration, max_duration. lia. Qed.

Lemma Sub_nonneg t u : (u ≤ t)%Z → (0 ≤ Sub t u)%Z.
Proof. unfold Sub, min_duration, max_duration. lia. Qed.

Lemma Sub_range t u : (min_duration ≤ Sub t u ≤ max_duration)%Z.
Proof. unfold Sub, min_duration, max_duration. lia. Qed.
End GoTime.
#[export] Hint Resolve GoTime.Sub_nonneg GoTime.Sub_range GoTime.frozen_monotone : go_db.

(** ** strings

    A Go string is its byte sequence, here [string] (a list of [ascii]); [len]
    counts bytes.  [ToLower] and [TrimSpace] are modelled on ASCII. *)
Module Strings.
Open Scope string_scope.

Definition len (s : string) : Z := Z.of_nat (String.length s).

Fixpoint HasPrefix (s p : string) : bool :=
  match p, s with
  | "", _ => true
  | String a p', String b s' => Ascii.eqb a b && HasPrefix s' p'
  | _, "" => false
  end.

Fixpoint drop (n : nat) (s : string) : string :=
  match n, s with
  | S n', String _ s' => drop n' s'
  | _, _ => s
  end.

Fixpoint take (n : nat) (s : string) : string :=
  match n, s with
  | S n', String c s' => String c (take n' s')
  | _, _ => ""
  end.

Definition TrimPrefix (s p : string) : string :=
  if HasPrefix s p then drop (String.length p) s else s.

Definition HasSuffix (s p : string) : bool :=
  (Nat.leb (String.length p) (String.length s)) &&
  String.eqb (drop (String.length s - String.length p) s) p.

Fixpoint Contains (s sub : string) : bool :=
  HasPrefix s sub ||
  match s with "" => false | String _ s' => Contains s' sub end.

(** [strings.Index]: the first position, [None] for -1. *)
Fixpoint Index (s sub : string) : option nat :=
  if HasPrefix s sub then Some 0
  else match s with "" => None | String _ s' => S <$> Index s' sub end.

(** [strings.Cut]: what is before and after the first separator, if there is
    one. *)
Definition Cut (s sep : string) : option (string * string) :=
  match Index s sep with
  | Some i => Some (take i s, drop (i + String.length sep) s)
  | None => None
  end.

(** [strings.Split] with a one-byte separator. *)
Fixpoint Split (s : string) (sep : ascii) : list string :=
  match s with
  | "" => [""]
  | String c s' =>
      if Ascii.eqb c sep then "" :: Split s' sep
      else match Split s' sep with
           | [] => [String c ""]
           | w :: ws => String c w :: ws
           end
  end.

Fixpoint Join (l : list string) (sep : string) : string :=
  match l with
  | [] => ""
  | [w] => w
  | w :: ws => w ++ sep ++ Join ws sep
  end.

Definition lower_ascii (c : ascii) : ascii :=
  let n := nat_of_ascii c in
  if Nat.leb 65 n && Nat.leb n 90 then ascii_of_nat (n + 32) else c.

Fixpoint ToLower (s : string) : string :=
  match s with "" => "" | String c s' => String (lower_ascii c) (ToLower s') end.

Definition is_space (c : ascii) : bool :=
  let n := nat_of_ascii c in Nat.eqb n 32 || (Nat.leb 9 n && Nat.leb n 13).

Fixpoint TrimLeft (s : string) : string :=
  match s with
  | String c s' => if is_space c then TrimLeft s' else s
  | "" => ""
  end.

Fixpoint TrimRight (s : string) : string :=
  match s with
  | "" => ""
  | String c s' =>
      match TrimRight s' with
      | "" => if is_space c then "" else String c ""
      | t => String c t
      end
  end.

Definition TrimSpace (s : string) : string := TrimRight (TrimLeft s).

(** The byte does not occur in the string. *)
Fixpoint free_of (c : ascii) (s : string) : bool :=
  match s with "" => true | String a s' => negb (Ascii.eqb a c) && free_of c s' end.

Lemma app_nil_r s : s ++ "" = s.
Proof. induction s as [|c s IH]; simpl; [done|congruence]. Qed.

Lemma app_assoc s t u : (s ++ t) ++ u = s ++ t ++ u.
Proof. induction s as [|c s IH]; simpl; [done|congruence]. Qed.

Lemma HasPrefix_app p s : HasPrefix (p ++ s) p = true.
Proof. induction p as [|c p IH]; simpl; [by destruct s|]. by rewrite Ascii.eqb_refl. Qed.

Lemma HasPrefix_true s p : HasPrefix s p = true ↔ ∃ t, s = p ++ t.
Proof.
  split; [|intros [t ->]; apply HasPrefix_app].
  revert s. induction p as [|c p IH]; intros s; simpl; [by eauto|].
  destruct s as [|d s]; [done|]. intros [E H]%andb_true_iff.
  apply Ascii.eqb_eq in E as ->. destruct (IH _ H) as [t ->]. by exists t.
Qed.

Lemma drop_app p s : drop (String.length p) (p ++ s) = s.
Proof. induction p; simpl; done. Qed.

Lemma take_app p s : take (String.length p) (p ++ s) = p.
Proof. induction p as [|c p IH]; simpl; [by destruct s|by rewrite IH]. Qed.

Lemma TrimPrefix_app p s : TrimPrefix (p ++ s) p = s.
Proof. unfold TrimPrefix. by rewrite HasPrefix_app, drop_app. Qed.

Lemma Contains_prefix s p : HasPrefix s p = true → Contains s p = true.
Proof. destruct s; cbn [Contains]; by intros ->. Qed.

Lemma Contains_true s sub : Contains s sub = true ↔ ∃ a b, s = a ++ sub ++ b.
Proof.
  split.
  - induction s as [|c s IH]; intros H; cbn [Contains] in H;
      apply orb_true_iff in H as [H|H];
      try (apply HasPrefix_true in H as [t Ht]; exists "", t; exact Ht); [done|].
    destruct (IH H) as (a & b & ->). by exists (String c a), b.
  - intros (a & b & ->). induction a as [|c a IH]; simpl.
    + apply Contains_prefix, HasPrefix_app.
    + by rewrite IH, orb_true_r.
Qed.

Lemma Split_not_nil s sep : Split s sep ≠ [].
Proof. destruct s as [|c s]; simpl; [done|]. repeat case_match; done. Qed.

(** Splitting at a separator the head does not contain cuts the head off. *)
Lemma Split_cons h t sep :
  free_of sep h = true → Split (h ++ String sep t) sep = h :: Split t sep.
Proof.
  induction h as [|c h IH]; simpl; [by rewrite Ascii.eqb_refl|].
  intros [Hc Hh]%andb_true_iff. apply negb_true_iff in Hc. rewrite Hc.
  by rewrite (IH Hh).
Qed.

(** Splitting distributes over a join with the separator. *)
Lemma Split_app s t sep : Split (s ++ String sep t) sep = (Split s sep ++ Split t sep)%list.
Proof.
  induction s as [|c s IH]; simpl; [by rewrite Ascii.eqb_refl|].
  destruct (Ascii.eqb c sep); [by rewrite IH|].
  rewrite IH. destruct (Split s sep) eqn:E; [by destruct (Split_not_nil s sep)|done].
Qed.

Lemma Split_free s sep : free_of sep s = true → Split s sep = [s].
Proof.
  induction s as [|c s IH]; simpl; [done|].
  intros [Hc Hs]%andb_true_iff. apply negb_true_iff in Hc. by rewrite Hc, (IH Hs).
Qed.

Lemma Split_free_all s sep : Forall (λ w, free_of sep w = true) (Split s sep).
Proof.
  induction s as [|c s IH]; simpl; [by repeat constructor|].
  destruct (Ascii.eqb c sep) eqn:E; [by constructor|].
  destruct (Split s sep) as [|w ws]; [by repeat constructor; simpl; rewrite E|].
  inversion IH; subst. constructor; [simpl; by rewrite E|done].
Qed.

Lemma Join_Split s sep : Join (Split s sep) (String sep "") = s.
Proof.
  induction s as [|c s IH]; simpl; [done|].
  destruct (Ascii.eqb c sep) eqn:E.
  - apply Ascii.eqb_eq in E as ->. simpl.
    destruct (Split s sep) eqn:Es; [by destruct (Split_not_nil s sep)|].
    rewrite IH. done.
  - destruct (Split s sep) as [|w ws] eqn:Es; [by destruct (Split_not_nil s sep)|].
    destruct ws; simpl in *; by rewrite <-IH.
Qed.

Lemma Split_inj s t sep : Split s sep = Split t sep → s = t.
Proof. intros E. by rewrite <-(Join_Split s sep), E, Join_Split. Qed.

Lemma length_app s t : String.length (s ++ t) = String.length s + String.length t.
Proof. induction s as [|c s IH]; simpl; [done|congruence]. Qed.

Lemma free_of_app c s t : free_of c (s ++ t) = free_of c s && free_of c t.
Proof. induction s as [|a s IH]; simpl; [done|by rewrite IH, andb_assoc]. Qed.
End Strings.
#[export] Hint Rewrite Strings.HasPrefix_app Strings.TrimPrefix_app Strings.drop_app
  Strings.take_app Strings.app_nil_r : go_rw.

(** ** strconv *)
Module Strconv.
Definition max_int : Z := (2 ^ 63 - 1)%Z.
Definition min_int : Z := (- 2 ^ 63)%Z.

Definition digit (c : ascii) : option Z :=
  let n := nat_of_ascii c in
  if Nat.leb 48 n && Nat.leb n 57 then Some (Z.of_nat n - 48)%Z else None.

Fixpoint digits (s : string) (acc : Z) : option Z :=
  match s with
  | EmptyString => Some acc
  | String c s' =>
      match digit c with
      | Some d => digits s' (acc * 10 + d)%Z
      | None => None
      end
  end.

(** [strconv.Atoi]: the value and whether the error is nil.  A syntax error
    gives 0; an out-of-range value gives the nearest int64. *)
Definition Atoi (s : string) : Z * bool :=
  let '(neg, body) :=
    match s with
    | String "-" s' => (true, s')
    | String "+" s' => (false, s')
    | _ => (false, s)
    end in
  match body with
  | EmptyString => (0%Z, false)
  | _ =>
      match digits body 0 with
      | None => (0%Z, false)
      | Some n =>
          let v := if neg then (- n)%Z else n in
          if (v <? min_int)%Z then (min_int, false)
          else if (max_int <? v)%Z then (max_int, false)
          else (v, true)
      end
  end.

(** [fmt.Sprintf("%d", n)]. *)
Definition Itoa (n : Z) : string := pretty n.

Lemma pretty_N_go_nonempty x s : s ≠ ""%string → pretty_N_go x s ≠ ""%string.
Proof.
  revert s. induction (N.lt_wf_0 x) as [x _ IH]; intros s Hs.
  destruct (decide (x = 0)%N) as [->|Hx]; [by rewrite pretty_N_go_0|].
  rewrite pretty_N_go_step by lia. apply IH; [apply N.div_lt; lia|done].
Qed.

Lemma Itoa_nonempty n : Itoa n ≠ ""%string.
Proof.
  assert (Hpos : ∀ p, pretty (Npos p) ≠ ""%string).
  { intros p. unfold pretty, pretty_N. destruct (decide _); [done|].
    rewrite pretty_N_go_step by lia. by apply pretty_N_go_nonempty. }
  unfold Itoa, pretty, pretty_Z. destruct n; [done|apply Hpos|done].
Qed.
End Strconv.
