(* ===== verification/GoSort.v ===== *)
(** * GoSort: [sort.Slice] and map iteration as interfaces

    The program orders slices with [sort.Slice] and a [less] closure.  Go promises
    a permutation of the input, sorted when [less] is a strict weak order, and no
    stability.  [SliceSorter] states that promise; the components are proved
    against it.  [insertion_sorter] is the algorithm Go runs on at most twelve
    elements ([insertionSort] of package sort), and it discharges the promise. *)
From stdpp Require Import prelude list sorting strings.
From Stdlib Require Import Ascii.
From S2P Require Import Prelude.

(** [less] orders the elements up to ties. *)
Record strict_weak_order {A} (less : A → A → bool) : Prop := {
  swo_irrefl : ∀ x, less x x = false;
  swo_asym : ∀ x y, less x y = true → less y x = false;
  swo_incomp : ∀ x y z, less y x = false → less z y = false → less z x = false;
}.
Arguments swo_irrefl {A less}.
Arguments swo_asym {A less}.
Arguments swo_incomp {A less}.

(** The same among the elements that satisfy [P]. *)
Record weak_order_on {A} (P : A → Prop) (less : A → A → bool) : Prop := {
  wo_irrefl : ∀ x, P x → less x x = false;
  wo_asym : ∀ x y, P x → P y → less x y = true → less y x = false;
  wo_incomp : ∀ x y z, P x → P y → P z → less y x = false → less z y = false → less z x = false;
}.
Arguments wo_irrefl {A P less}.
Arguments wo_asym {A P less}.
Arguments wo_incomp {A P less}.

Lemma swo_on {A} (P : A → Prop) (less : A → A → bool) : strict_weak_order less → weak_order_on P less.
Proof. intros [H1 H2 H3]. split; eauto. Qed.

Lemma weak_order_ext {A} (P : A → Prop) (less less' : A → A → bool) :
  (∀ x y, P x → P y → less x y = less' x y) → weak_order_on P less' → weak_order_on P less.
Proof. intros H [H1 H2 H3]. split; intros; rewrite ?H in *; eauto. Qed.

(** The reverse order of a key. *)
Lemma weak_order_key {A B} (f : B → A) (P : A → Prop) (less : A → A → bool) :
  weak_order_on P less → weak_order_on (λ x, P (f x)) (λ x y, less (f y) (f x)).
Proof. intros [H1 H2 H3]. split; intros; eauto. Qed.

(** The lexicographic order of lists of numbers. *)
Fixpoint lex_lt (x y : list Z) : bool :=
  match x, y with
  | a :: x', b :: y' => if (a =? b)%Z then lex_lt x' y' else (a <? b)%Z
  | _, _ => false
  end.

Lemma lex_lt_weak_order n : weak_order_on (λ l, length l = n) lex_lt.
Proof.
  induction n as [|n [H1 H2 H3]].
  { split; [by intros [|]|by intros [|] [|]|by intros [|] [|] [|]]. }
  split.
  - intros [|a x]; [done|]. cbn. intros [= Hx]. rewrite Z.eqb_refl. by apply H1.
  - intros [|a x] [|b y]; try done. cbn. intros [= Hx] [= Hy].
    rewrite (Z.eqb_sym b a). destruct (Z.eqb_spec a b); [by apply H2|lia].
  - intros [|a x] [|b y] [|c z]; try done. cbn. intros [= Hx] [= Hy] [= Hz].
    destruct (Z.eqb_spec b a), (Z.eqb_spec c b), (Z.eqb_spec c a); try lia. by apply H3.
Qed.

(** No element is less than an earlier one. *)
Definition less_sorted {A} (less : A → A → bool) : list A → Prop :=
  StronglySorted (λ x y, less y x = false).

Class SliceSorter := {
  sort_slice : ∀ {A : Type}, (A → A → bool) → list A → list A;
  sort_slice_perm : ∀ {A} (less : A → A → bool) l, sort_slice less l ≡ₚ l;
  sort_slice_sorted_on : ∀ {A} (P : A → Prop) (less : A → A → bool) l,
    Forall P l → weak_order_on P less → less_sorted less (sort_slice less l);
}.

Lemma sort_slice_sorted `{SliceSorter} {A} (less : A → A → bool) l :
  strict_weak_order less → less_sorted less (sort_slice less l).
Proof.
  intros Hswo. apply (sort_slice_sorted_on (λ _, True)); [by apply Forall_true|by apply swo_on].
Qed.

Section sorter.
Context `{SliceSorter} {A : Type} (less : A → A → bool).
Implicit Types l : list A.

Lemma sort_slice_elem_of l x : x ∈ sort_slice less l ↔ x ∈ l.
Proof. by rewrite sort_slice_perm. Qed.

Lemma sort_slice_length l : length (sort_slice less l) = length l.
Proof. by rewrite sort_slice_perm. Qed.

Lemma sort_slice_nil l : sort_slice less l = [] ↔ l = [].
Proof.
  rewrite <-!length_zero_iff_nil, sort_slice_length. done.
Qed.

(** The head of the sorted slice is minimal. *)
Lemma sort_slice_head l x xs :
  weak_order_on (.∈ l) less → sort_slice less l = x :: xs →
  x ∈ l ∧ ∀ y, y ∈ l → less y x = false.
Proof.
  intros Hwo Heq. pose proof (sort_slice_sorted_on (.∈ l) less l) as Hs.
  specialize (Hs ltac:(by apply Forall_forall) Hwo).
  rewrite Heq in Hs. inversion Hs as [|?? _ Hall]; subst.
  assert (Hx : x ∈ l) by (apply sort_slice_elem_of; rewrite Heq; by left).
  split; [done|]. intros y Hy. apply sort_slice_elem_of in Hy. rewrite Heq in Hy.
  apply elem_of_cons in Hy as [->|Hy]; [by apply (wo_irrefl Hwo)|].
  rewrite Forall_forall in Hall. by apply Hall.
Qed.
End sorter.
#[export] Hint Rewrite @sort_slice_length : go_rw.

(** ** Insertion sort *)
Section insertion.
Context {A : Type} (less : A → A → bool).

(** The inner loop: [x] moves left past the elements it is less than.  The sorted
    prefix is held in reverse. *)
Fixpoint insert_left (x : A) (rp : list A) : list A :=
  match rp with
  | [] => [x]
  | y :: rp' => if less x y then y :: insert_left x rp' else x :: rp
  end.

Fixpoint insertion_loop (rp l : list A) : list A :=
  match l with
  | [] => reverse rp
  | x :: l' => insertion_loop (insert_left x rp) l'
  end.

Definition insertion_sort (l : list A) : list A := insertion_loop [] l.

Lemma insert_left_perm x rp : insert_left x rp ≡ₚ x :: rp.
Proof.
  induction rp as [|y rp IH]; simpl; [done|].
  destruct (less x y); [|done]. rewrite IH. by apply perm_swap.
Qed.

Lemma insertion_loop_perm rp l : insertion_loop rp l ≡ₚ rp ++ l.
Proof.
  revert rp. induction l as [|x l IH]; intros rp; simpl.
  - by rewrite reverse_Permutation, (right_id_L [] (++)).
  - rewrite IH, insert_left_perm. simpl. by rewrite Permutation_middle.
Qed.

(** The reversed prefix is sorted downwards. *)
Definition rsorted : list A → Prop := StronglySorted (λ x y, less x y = false).

Lemma insert_left_sorted P x rp :
  weak_order_on P less → P x → Forall P rp → rsorted rp → rsorted (insert_left x rp).
Proof.
  intros Hwo Hx HP. induction 1 as [|y rp Hs IH Hall]; simpl; [by repeat constructor|].
  apply Forall_cons in HP as [Hy HP].
  destruct (less x y) eqn:E; constructor.
  - by apply IH.
  - apply Forall_forall. intros z Hz.
    rewrite insert_left_perm in Hz. apply elem_of_cons in Hz as [->|Hz].
    + by apply (wo_asym Hwo).
    + rewrite Forall_forall in Hall. auto.
  - by constructor.
  - constructor; [done|]. rewrite Forall_forall in Hall, HP |- *.
    intros z Hz. eapply (wo_incomp Hwo z y x); eauto.
Qed.

Lemma rsorted_reverse rp : rsorted rp → less_sorted less (reverse rp).
Proof.
  unfold less_sorted. induction 1 as [|y rp Hs IH Hall]; [by constructor|].
  rewrite reverse_cons. apply StronglySorted_app_2; [|done|by repeat constructor].
  intros u v Hu Hv. apply list_elem_of_singleton in Hv as ->.
  rewrite Forall_forall in Hall. apply Hall. by apply elem_of_reverse.
Qed.

Lemma insertion_loop_sorted P rp l :
  weak_order_on P less → Forall P rp → Forall P l → rsorted rp → less_sorted less (insertion_loop rp l).
Proof.
  intros Hwo. revert rp. induction l as [|x l IH]; intros rp HPr HPl Hrp; simpl.
  - by apply rsorted_reverse.
  - apply Forall_cons in HPl as [Hx HPl]. apply IH; [|done|by eapply insert_left_sorted].
    rewrite insert_left_perm. by constructor.
Qed.
End insertion.

#[export, refine] Instance insertion_sorter : SliceSorter :=
  {| sort_slice := @insertion_sort |}.
Proof.
  - intros A less l. unfold insertion_sort. by rewrite insertion_loop_perm.
  - intros A P less l HP Hwo. by apply (insertion_loop_sorted less P); [|constructor| |constructor].
Defined.

(** A [less] that compares keys in a decidable total preorder is a strict weak order. *)
Lemma swo_by_key {A} (key : A → Z) : strict_weak_order (λ x y, (key x <? key y)%Z).
Proof. split; intros; lia. Qed.

(** Two strict weak orders compose lexicographically: ties of the first are broken by
    the second. *)
Lemma swo_lex {A} (key : A → Z) (less : A → A → bool) :
  strict_weak_order less →
  strict_weak_order (λ x y, if (key x =? key y)%Z then less x y else (key x <? key y)%Z).
Proof.
  intros H. split.
  - intros x. rewrite Z.eqb_refl. apply (swo_irrefl H).
  - intros x y. destruct (key x =? key y)%Z eqn:E.
    + apply Z.eqb_eq in E. rewrite E, Z.eqb_refl. apply (swo_asym H).
    + rewrite Z.eqb_sym, E. lia.
  - intros x y z. destruct (key y =? key x)%Z eqn:E1, (key z =? key y)%Z eqn:E2,
      (key z =? key x)%Z eqn:E3; try lia. apply (swo_incomp H).
Qed.

(** ** Map iteration

    [for k, v := range m] visits the entries of [m] once each, in an order the
    language leaves open. *)
Class MapRange := {
  map_range : ∀ {A : Type}, list A → list A;
  map_range_perm : ∀ {A} (l : list A), map_range l ≡ₚ l;
}.

#[export, refine] Instance in_order_range : MapRange := {| map_range := λ A l, l |}.
Proof. done. Defined.

Lemma map_range_elem_of `{MapRange} {A} (l : list A) x : x ∈ map_range l ↔ x ∈ l.
Proof. by rewrite map_range_perm. Qed.

Lemma map_range_length `{MapRange} {A} (l : list A) : length (map_range l) = length l.
Proof. by rewrite map_range_perm. Qed.
#[export] Hint Rewrite @map_range_length : go_rw.

(** ** [sort.Strings] *)

(** Go's [<] on strings: bytewise lexicographic. *)
Fixpoint string_less (s t : string) : bool :=
  match s, t with
  | _, EmptyString => false
  | EmptyString, String _ _ => true
  | String c s', String d t' =>
      if Nat.ltb (nat_of_ascii c) (nat_of_ascii d) then true
      else if Nat.ltb (nat_of_ascii d) (nat_of_ascii c) then false
      else string_less s' t'
  end.

Ltac ltb_cases :=
  repeat match goal with
  | |- context [Nat.ltb ?a ?b] => destruct (Nat.ltb_spec a b)
  | H : context [Nat.ltb ?a ?b] |- _ => destruct (Nat.ltb_spec a b)
  end.

Lemma swo_string : strict_weak_order string_less.
Proof.
  split.
  - intros s. induction s as [|c s IH]; [done|]. cbn [string_less]. ltb_cases; (lia || done).
  - intros s. induction s as [|c s IH]; intros [|d t] H; try done.
    cbn [string_less] in *. ltb_cases; try done; try lia. by apply IH.
  - intros s. induction s as [|c s IH]; intros [|d t] [|e u] H1 H2; try done.
    cbn [string_less] in *. ltb_cases; try done; try lia. exact (IH t u H1 H2).
Qed.

Lemma string_less_total s t : string_less s t = false → string_less t s = false → s = t.
Proof.
  revert t. induction s as [|c s IH]; intros [|d t]; try done. cbn [string_less]. ltb_cases; try done.
  intros H1 H2. f_equal; [|by apply IH].
  rewrite <-(ascii_nat_embedding c), <-(ascii_nat_embedding d). f_equal. lia.
Qed.

(** Two sorted permutations of the same strings are the same list. *)
Lemma sorted_strings_unique l k :
  less_sorted string_less l → less_sorted string_less k → l ≡ₚ k → l = k.
Proof.
  intros Hl. revert k. induction Hl as [|x l Hl IH Hx]; intros k Hk Hp.
  { by apply Permutation_nil_l in Hp as ->. }
  destruct Hk as [|y k Hk Hy]; [by apply Permutation_nil_r in Hp|].
  assert (x = y) as ->.
  { assert (x ∈ y :: k) as Hxk by (rewrite <-Hp; by left).
    assert (y ∈ x :: l) as Hyl by (rewrite Hp; by left).
    apply elem_of_cons in Hxk as [->|Hxk]; [done|].
    apply elem_of_cons in Hyl as [->|Hyl]; [done|].
    rewrite Forall_forall in Hx, Hy. apply string_less_total; [by apply Hy|by apply Hx]. }
  f_equal. apply IH; [done|]. by apply Permutation_cons_inv in Hp.
Qed.
