(* ===== verification/GoFloat.v ===== *)
(** * GoFloat: float64

    Go's float64 as [spec_float] at precision 53 and exponent bound 1024, the
    operations the program uses, and what the program relies on: the comparison
    orders everything but NaN, arithmetic on numbers of bounded magnitude gives
    neither NaN nor an infinity, numbers without a sign stay numbers, and small
    integers and their quotients by powers of two are exact. *)
From stdpp Require Import prelude.
From Stdlib Require Import SpecFloat.
From S2P Require Import Prelude GoSort.

Local Open Scope Z_scope.

Module Float.

Definition add : spec_float → spec_float → spec_float := SFadd 53 1024.
Definition sub : spec_float → spec_float → spec_float := SFsub 53 1024.
Definition mul : spec_float → spec_float → spec_float := SFmul 53 1024.
Definition div : spec_float → spec_float → spec_float := SFdiv 53 1024.
(** [float64(z)] of an integer. *)
Definition of_int (z : Z) : spec_float := binary_normalize 53 1024 z 0 false.

Definition is_nan (f : spec_float) : bool := match f with S754_nan => true | _ => false end.
Definition is_inf (f : spec_float) : bool := match f with S754_infinity _ => true | _ => false end.
Definition zero : spec_float := S754_zero false.
Definition infinity : spec_float := S754_infinity false.

(** [math.Min] *)
Definition Min (x y : spec_float) : spec_float :=
  match x, y with
  | S754_infinity true, _ | _, S754_infinity true => S754_infinity true
  | S754_nan, _ | _, S754_nan => S754_nan
  | S754_zero s, S754_zero s' => S754_zero (s || s')
  | _, _ => if SFltb x y then x else y
  end.

(** ** The order *)
Lemma ltb_finite s m e s' m' e' :
  SFltb (S754_finite s m e) (S754_finite s' m' e') =
  match s, s' with
  | true, false => true
  | false, true => false
  | false, false => (e <? e') || (e =? e') && (Zpos m <? Zpos m')
  | true, true => (e' <? e) || (e' =? e) && (Zpos m' <? Zpos m)
  end.
Proof.
  unfold SFltb. cbn. destruct s, s'; try done.
  - change (PosDef.Pos.compare_cont Eq m m') with (Z.compare (Zpos m) (Zpos m')).
    destruct (Z.compare_spec e e'), (Z.compare_spec (Zpos m) (Zpos m')); cbn; lia.
  - change (PosDef.Pos.compare_cont Eq m m') with (Z.compare (Zpos m) (Zpos m')).
    destruct (Z.compare_spec e e'), (Z.compare_spec (Zpos m) (Zpos m')); cbn; lia.
Qed.

Lemma weak_order : weak_order_on (λ f, is_nan f = false) SFltb.
Proof.
  split.
  - intros [s|s| |s m e] H; try done; [by destruct s|]. rewrite ltb_finite. destruct s; lia.
  - intros [s|s| |s m e] [s'|s'| |s' m' e'] H H'; try done; try (by destruct s, s').
    rewrite !ltb_finite. destruct s, s'; lia.
  - intros [s|s| |s m e] [s'|s'| |s' m' e'] [s''|s''| |s'' m'' e''] H H' H''; try done;
      try (by destruct s, s', s''); rewrite ?ltb_finite; destruct s, s', s''; try done; lia.
Qed.

(** ** Magnitude *)

(** The number of bits of a number before the binary point. *)
Definition mag (m : positive) (e : Z) : Z := Z.log2 (Zpos m) + 1 + e.

(** A float of at most [k] bits before the point. *)
Definition within (k : Z) (f : spec_float) : Prop :=
  match f with S754_zero _ => True | S754_finite _ m e => mag m e ≤ k | _ => False end.

Lemma within_not_nan k f : within k f → is_nan f = false.
Proof. by destruct f. Qed.

Lemma within_mono k k' f : within k f → k ≤ k' → within k' f.
Proof. destruct f; cbn; try done; lia. Qed.

Lemma digits_log2 p : Zpos (digits2_pos p) = Z.log2 (Zpos p) + 1.
Proof.
  induction p as [p IH|p IH|]; cbn [digits2_pos]; [| |done].
  - rewrite Pos2Z.inj_succ, IH, (Pos2Z.inj_xI p), Z.log2_succ_double; lia.
  - rewrite Pos2Z.inj_succ, IH, (Pos2Z.inj_xO p), Z.log2_double; lia.
Qed.

Lemma shr_1_m mrs : 0 ≤ shr_m mrs → shr_m (shr_1 mrs) = Z.shiftr (shr_m mrs) 1.
Proof. destruct mrs as [[|[p|p|]|p] r s]; cbn; try done; lia. Qed.

Lemma shr_iter_m p mrs : 0 ≤ shr_m mrs →
  shr_m (iter_pos shr_1 p mrs) = Z.shiftr (shr_m mrs) (Zpos p).
Proof.
  revert mrs. induction p as [p IH|p IH|]; intros mrs Hm; cbn [iter_pos].
  - rewrite IH, IH, shr_1_m, !Z.shiftr_shiftr by
      (rewrite ?shr_1_m, ?IH, ?Z.shiftr_nonneg; rewrite ?shr_1_m, ?Z.shiftr_nonneg; lia).
    f_equal. lia.
  - rewrite IH, IH, Z.shiftr_shiftr by (rewrite ?IH, ?Z.shiftr_nonneg; lia). f_equal. lia.
  - by apply shr_1_m.
Qed.

Definition digits (m : Z) : Z := Zdigits2 m.
Lemma digits_spec m : 0 ≤ m → digits m = if m =? 0 then 0 else Z.log2 m + 1.
Proof. destruct m as [|p|p]; cbn; try lia. intros _. by rewrite digits_log2. Qed.

(** One truncation: the exponent grows to the format's, the number is cut. *)
Lemma shr_fexp_spec m e l : 0 ≤ m →
  let e' := Z.max e (fexp 53 1024 (digits m + e)) in
  ∃ mrs, shr_fexp 53 1024 m e l = (mrs, e') ∧ shr_m mrs = Z.shiftr m (e' - e).
Proof.
  intros Hm. unfold shr_fexp, shr. change (Zdigits2 m) with (digits m).
  set (n := fexp 53 1024 (digits m + e) - e).
  assert (Hl : shr_m (shr_record_of_loc m l) = m) by (by destruct l as [|[]]).
  destruct n as [|p|p] eqn:En; eexists; (split; [f_equal; lia|]).
  - rewrite Hl. replace (Z.max _ _ - e) with 0 by lia. by rewrite Z.shiftr_0_r.
  - rewrite shr_iter_m by lia. rewrite Hl. f_equal. lia.
  - rewrite Hl. replace (Z.max _ _ - e) with 0 by lia. by rewrite Z.shiftr_0_r.
Qed.

(** A cut number keeps its magnitude unless it vanishes. *)
Lemma shiftr_mag m d : 0 ≤ m → 0 ≤ d → 0 < Z.shiftr m d → Z.log2 (Z.shiftr m d) + d = Z.log2 m.
Proof.
  intros Hm Hd Hp.
  assert (0 < m) by (destruct (Z.eq_dec m 0) as [->|]; [rewrite Z.shiftr_0_l in Hp|]; lia).
  rewrite Z.log2_shiftr by lia. destruct (Z.le_gt_cases d (Z.log2 m)); [lia|].
  rewrite Z.shiftr_eq_0 in Hp; lia.
Qed.

Lemma round_even_cases mx lx : round_nearest_even mx lx = mx ∨ round_nearest_even mx lx = mx + 1.
Proof. destruct lx as [|[]]; cbn; auto. case_match; auto. Qed.

(** Truncation to the format. *)
Lemma shr_fexp_within k m e l : 0 ≤ m → e < k → (0 < m → Z.log2 m + 1 + e ≤ k) → -1074 < k →
  ∃ mrs e', shr_fexp 53 1024 m e l = (mrs, e') ∧ e ≤ e' < k ∧ 0 ≤ shr_m mrs ∧
    (0 < shr_m mrs → 0 < m ∧ Z.log2 (shr_m mrs) + 1 + e' = Z.log2 m + 1 + e) ∧
    (0 < m → -1022 < Z.log2 m + 1 + e → 0 < shr_m mrs).
Proof.
  intros Hm He Hk Hmin. destruct (shr_fexp_spec m e l Hm) as (mrs & Hs & Hv).
  eexists mrs, _. split; [exact Hs|]. rewrite Hv. clear Hs Hv.
  unfold fexp, emin. rewrite digits_spec by done.
  pose proof (Z.log2_nonneg m). destruct (Z.eqb_spec m 0) as [->|Hne].
  { rewrite Z.shiftr_0_l. split_and!; lia. }
  assert (Hle : 0 < m) by lia. specialize (Hk Hle). set (e' := Z.max e _).
  assert (Hnn : 0 ≤ Z.shiftr m (e' - e)) by (by apply Z.shiftr_nonneg).
  split_and!; [lia|lia|done| |].
  - intros Hp. pose proof (shiftr_mag m (e' - e) Hm ltac:(lia) Hp). lia.
  - intros _ Hlow. enough (Z.shiftr m (e' - e) ≠ 0) by lia. rewrite Z.shiftr_div_pow2 by lia.
    assert (2 ^ (e' - e) ≤ m).
    { transitivity (2 ^ Z.log2 m); [apply Z.pow_le_mono_r; lia|]. by apply Z.log2_spec. }
    pose proof (Z.div_str_pos m (2 ^ (e' - e)) ltac:(pose proof (Z.pow_pos_nonneg 2 (e' - e)); lia)). lia.
Qed.

Lemma round_aux_within k sx m e l :
  0 ≤ m → e < k → (0 < m → Z.log2 m + 1 + e ≤ k) → -1074 < k ≤ 970 →
  within (k + 1) (binary_round_aux 53 1024 sx m e l) ∧
  (0 < m → -1022 < Z.log2 m + 1 + e → ∃ m' e',
    binary_round_aux 53 1024 sx m e l = S754_finite sx m' e' ∧ Z.log2 m + 1 + e ≤ mag m' e').
Proof.
  intros Hm He Hk Hr. unfold binary_round_aux.
  destruct (shr_fexp_within k m e l) as (mrs & e1 & -> & He1 & Hm1 & Hl1 & Hp1); [done..|lia|].
  set (m1 := round_nearest_even (shr_m mrs) (loc_of_shr_record mrs)).
  assert (Hm1' : m1 = shr_m mrs ∨ m1 = shr_m mrs + 1) by apply round_even_cases.
  assert (Hlog : 0 < m1 → Z.log2 m1 + 1 + e1 ≤ k + 1 ∧
    (0 < shr_m mrs → Z.log2 m + 1 + e ≤ Z.log2 m1 + 1 + e1)).
  { intros Hp. pose proof (Z.log2_succ_le (shr_m mrs)) as Hs. rewrite <-Z.add_1_r in Hs. destruct Hm1' as [-> | ->].
    - destruct (Hl1 Hp). lia.
    - pose proof (Z.log2_le_mono (shr_m mrs) (shr_m mrs + 1)).
      destruct (Z.eq_dec (shr_m mrs) 0) as [E|]; [rewrite E; change (Z.log2 (0 + 1)) with 0; split; lia|].
      destruct (Hl1 ltac:(lia)). lia. }
  destruct (shr_fexp_within (k + 1) m1 e1 loc_Exact) as (mrs2 & e2 & -> & He2 & Hm2 & Hl2 & Hp2);
    [lia|lia|naive_solver|lia|].
  destruct (shr_m mrs2) as [|m2|m2] eqn:E2; [|rewrite (proj2 (Z.leb_le _ _)) by lia|lia].
  - split; [done|]. intros Hp Hlow. exfalso. assert (0 < shr_m mrs) by auto.
    assert (0 < m1) by lia. destruct (Hlog ltac:(lia)) as [_ Hge]. specialize (Hge ltac:(lia)).
    specialize (Hp2 ltac:(lia)). lia.
  - destruct (Hl2 ltac:(lia)) as [Hm1p Hl2'].
    destruct Hlog as [Hup Hge]; [done|]. cbn [within]. unfold mag. split; [lia|].
    intros Hp Hlow. specialize (Hge (Hp1 Hp Hlow)). eexists _, _. split; [done|]. unfold mag. lia.
Qed.

(** ** Operations *)
Lemma iter_xO m d : Zpos (Pos.iter xO m d) = Z.shiftl (Zpos m) (Zpos d).
Proof.
  rewrite Z.shiftl_mul_pow2 by done.
  induction d as [|d IH] using Pos.peano_ind; [cbn; lia|].
  rewrite Pos.iter_succ, Pos2Z.inj_xO, IH, Pos2Z.inj_succ, Z.pow_succ_r by done. lia.
Qed.

Lemma shl_align_spec m e e' : ∃ m' e'', shl_align m e e' = (m', e'') ∧
  e'' = Z.min e e' ∧ Zpos m' = Z.shiftl (Zpos m) (e - e'') ∧ mag m' e'' = mag m e.
Proof.
  unfold shl_align, mag. destruct (e' - e) as [|d|d] eqn:Ed; eexists _, _; (split; [done|]).
  - split_and!; [lia| |done]. replace (e - e) with 0 by lia. by rewrite Z.shiftl_0_r.
  - split_and!; [lia| |done]. replace (e - e) with 0 by lia. by rewrite Z.shiftl_0_r.
  - rewrite iter_xO. replace (e - e') with (Zpos d) by lia.
    split_and!; [lia|done|]. rewrite Z.log2_shiftl by lia. lia.
Qed.

Lemma normalize_within k z e : (z ≠ 0 → Z.log2 (Z.abs z) + 1 + e ≤ k) → -1074 < k ≤ 970 →
  within (k + 1) (binary_normalize 53 1024 z e false) ∧
  (z ≠ 0 → -1022 < Z.log2 (Z.abs z) + 1 + e → ∃ s m e',
    binary_normalize 53 1024 z e false = S754_finite s m e' ∧ Z.log2 (Z.abs z) + 1 + e ≤ mag m e').
Proof.
  intros Hz Hk.
  assert (Hgen : ∀ sx m, mag m e ≤ k → within (k + 1) (binary_round 53 1024 sx m e) ∧
    (-1022 < mag m e → ∃ s m' e', binary_round 53 1024 sx m e = S754_finite s m' e' ∧ mag m e ≤ mag m' e')).
  { intros sx m Hm. unfold binary_round.
    destruct (shl_align_spec m e (fexp 53 1024 (Zpos (digits2_pos m) + e))) as (m' & e'' & -> & He & _ & Hmag).
    unfold mag in *. pose proof (Z.log2_nonneg (Zpos m)).
    destruct (round_aux_within k sx (Zpos m') e'' loc_Exact) as [Hw Hl]; [done|lia|lia|done|].
    split; [done|]. intros Hlow. destruct (Hl ltac:(done) ltac:(lia)) as (m2 & e2 & ? & Hle).
    unfold mag in Hle. eexists _, _, _. split; [done|lia]. }
  destruct z as [|m|m]; cbn [binary_normalize Z.abs] in *; [done| |].
  - destruct (Hgen false m) as [Hw Hl]; [by apply Hz|]. split; [done|]. intros _. apply Hl.
  - destruct (Hgen true m) as [Hw Hl]; [by apply Hz|]. split; [done|]. intros _. apply Hl.
Qed.

Lemma of_int_within k z : Z.abs z < 2 ^ k → 0 ≤ k ≤ 970 → within (k + 1) (of_int z).
Proof.
  intros Hz Hk. apply normalize_within; [|lia]. intros Hne.
  assert (Z.log2 (Z.abs z) < k); [|lia]. apply Z.log2_lt_pow2; lia.
Qed.

Lemma of_int_nonzero k z : z ≠ 0 → Z.abs z < 2 ^ k → 0 ≤ k ≤ 970 →
  ∃ s m e, of_int z = S754_finite s m e ∧ 1 ≤ mag m e ≤ k + 1.
Proof.
  intros Hne Hz Hk. assert (Z.log2 (Z.abs z) < k) by (apply Z.log2_lt_pow2; lia).
  pose proof (Z.log2_nonneg (Z.abs z)).
  destruct (normalize_within k z 0) as [Hw Hl]; [lia|lia|].
  destruct (Hl Hne ltac:(lia)) as (s & m & e & Hf & Hm). unfold of_int in *.
  rewrite Hf in Hw |- *. eexists _, _, _. split; [done|]. cbn in Hw. lia.
Qed.

Lemma mul_within k k' x y : within k x → within k' y → -1074 < k + k' ≤ 970 → within (k + k' + 1) (mul x y).
Proof.
  destruct x as [| | |sx mx ex], y as [| | |sy my ey]; try done. cbn. unfold mag. intros Hx Hy Hk.
  pose proof (Z.log2_mul_above (Zpos mx) (Zpos my)) as Hl. rewrite <-Pos2Z.inj_mul in Hl.
  pose proof (Z.log2_nonneg (Zpos mx)). pose proof (Z.log2_nonneg (Zpos my)).
  apply round_aux_within; [done| | |done]; lia.
Qed.

(** The sum of two aligned mantissas. *)
Lemma aligned_sum k sx mx ex sy my ey (sgn : bool) : mag mx ex ≤ k → mag my ey ≤ k →
  let ez := Z.min ex ey in
  let x := cond_Zopp sx (Zpos (fst (shl_align mx ex ez))) in
  let y := cond_Zopp sy (Zpos (fst (shl_align my ey ez))) in
  let z := if sgn then x + y else x - y in
  z ≠ 0 → Z.log2 (Z.abs z) + 1 + ez ≤ k + 1.
Proof.
  intros Hx Hy ez x y z Hz.
  assert (Hb : ∀ s m e, e = ex ∨ e = ey → mag m e ≤ k →
    Z.abs (cond_Zopp s (Zpos (fst (shl_align m e ez)))) < 2 ^ (k - ez)).
  { intros s m e He Hm. destruct (shl_align_spec m e ez) as (m' & e'' & -> & He' & _ & Hmag).
    assert (e'' = ez) as -> by lia. rewrite <-Hmag in Hm. unfold mag in Hm. cbn [fst].
    assert (Z.abs (cond_Zopp s (Zpos m')) = Zpos m') as -> by by destruct s.
    apply Z.log2_lt_pow2; lia. }
  pose proof (Hb sx mx ex ltac:(by left) Hx) as Hbx. pose proof (Hb sy my ey ltac:(by right) Hy) as Hby.
  fold x in Hbx. fold y in Hby. assert (Z.abs z < 2 ^ (k + 1 - ez)).
  { replace (k + 1 - ez) with (Z.succ (k - ez)) by lia.
    assert (0 ≤ k - ez). { destruct (Z.le_gt_cases 0 (k - ez)); [done|]. rewrite Z.pow_neg_r in Hbx by lia. lia. }
    rewrite Z.pow_succ_r by done. unfold z. destruct sgn; lia. }
  assert (Z.log2 (Z.abs z) < k + 1 - ez); [|lia]. apply Z.log2_lt_pow2; lia.
Qed.

Lemma add_within k x y : within k x → within k y → -1074 < k ≤ 969 → within (k + 2) (add x y).
Proof.
  intros Hx Hy Hk. destruct x as [sx| | |sx mx ex], y as [sy| | |sy my ey]; try done.
  - by destruct sx, sy.
  - eapply within_mono; [exact Hy|lia].
  - eapply within_mono; [exact Hx|lia].
  - replace (k + 2) with (k + 1 + 1) by lia. apply normalize_within; [|lia].
    exact (aligned_sum k sx mx ex sy my ey true Hx Hy).
Qed.

Lemma sub_within k x y : within k x → within k y → -1074 < k ≤ 969 → within (k + 2) (sub x y).
Proof.
  intros Hx Hy Hk. destruct x as [sx| | |sx mx ex], y as [sy| | |sy my ey]; try done.
  - by destruct sx, sy.
  - cbn in *. lia.
  - eapply within_mono; [exact Hx|lia].
  - replace (k + 2) with (k + 1 + 1) by lia. apply normalize_within; [|lia].
    exact (aligned_sum k sx mx ex sy my ey false Hx Hy).
Qed.

(** Dividing by a number of at least [j] bits. *)
Lemma div_within k j x s m e : within k x → j ≤ mag m e → -1073 < k - j ≤ 968 →
  within (k - j + 2) (div x (S754_finite s m e)).
Proof.
  intros Hx Hj Hk. destruct x as [sx| | |sx mx ex]; try done. cbn in Hx. unfold mag in *.
  cbn [div SFdiv]. unfold div, SFdiv, SFdiv_core_binary. change (Zdigits2 (Zpos ?p)) with (Zpos (digits2_pos p)).
  cbn [Zdigits2]. rewrite !digits_log2.
  set (e' := Z.min _ _). set (sh := ex - e - e').
  assert (Hm' : match sh with Zpos _ => Z.shiftl (Zpos mx) sh | Z0 => Zpos mx | Zneg _ => 0 end =
                Z.shiftl (Zpos mx) sh).
  { destruct sh eqn:E; [by rewrite Z.shiftl_0_r|done|lia]. }
  rewrite Hm'. pose proof (Z.div_eucl (Z.shiftl (Zpos mx) sh) (Zpos m)).
  destruct (Z.div_eucl (Z.shiftl (Zpos mx) sh) (Zpos m)) as [q r] eqn:Eq.
  assert (Hq : q = Z.shiftl (Zpos mx) sh / Zpos m) by (unfold Z.div; by rewrite Eq).
  assert (Hn : 0 ≤ Z.shiftl (Zpos mx) sh) by (by apply Z.shiftl_nonneg).
  replace (k - j + 2) with (k - j + 1 + 1) by lia.
  pose proof (Z.log2_nonneg (Zpos mx)). pose proof (Z.log2_nonneg (Zpos m)).
  apply round_aux_within; [subst q; by apply Z.div_pos| | |lia].
  - unfold fexp, emin in e'. lia.
  - intros Hp. enough (Z.log2 q + Z.log2 (Zpos m) ≤ Z.log2 (Zpos mx) + sh) by lia.
    rewrite (Z.add_comm (Z.log2 q)), <-Z.log2_mul_pow2, <-Z.log2_shiftl by lia.
    apply Z.log2_le_mono. transitivity (q * Zpos m).
    + apply Z.mul_le_mono_nonneg_l; [lia|]. by apply Z.log2_spec.
    + rewrite Hq, Z.mul_comm. by apply Z.mul_div_le.
Qed.
(** ** Exact operations *)
Lemma digits_of_bounds m k : 0 < k → 2 ^ (k - 1) ≤ Zpos m < 2 ^ k → Z.log2 (Zpos m) + 1 = k.
Proof. intros Hk [Hl Hu]. rewrite (Z.log2_unique (Zpos m) (k - 1)); [lia..|]. replace (Z.succ (k - 1)) with k by lia. done. Qed.

Lemma shr_fexp_id m e : 0 < m → fexp 53 1024 (Z.log2 m + 1 + e) = e →
  shr_fexp 53 1024 m e loc_Exact = (shr_record_of_loc m loc_Exact, e).
Proof.
  intros Hm Hf. unfold shr_fexp. change (Zdigits2 m) with (digits m). rewrite digits_spec by lia.
  destruct (Z.eqb_spec m 0); [lia|]. rewrite Hf. by rewrite Z.sub_diag.
Qed.

(** A number of exactly 53 bits is kept. *)
Lemma round_aux_exact sx m e : 2 ^ 52 ≤ Zpos m < 2 ^ 53 → -1074 ≤ e ≤ 971 →
  binary_round_aux 53 1024 sx (Zpos m) e loc_Exact = S754_finite sx m e.
Proof.
  intros Hm He. pose proof (digits_of_bounds m 53 ltac:(lia) Hm) as Hd.
  unfold binary_round_aux. rewrite shr_fexp_id by (unfold fexp, emin; lia). cbn [shr_record_of_loc].
  change (round_nearest_even _ _) with (Zpos m). rewrite shr_fexp_id by (unfold fexp, emin; lia).
  cbn. by rewrite (proj2 (Z.leb_le e (1024 - 53))) by lia.
Qed.

(** One bit more, which is zero, is dropped. *)
Lemma round_aux_double sx m e : 2 ^ 52 ≤ Zpos m < 2 ^ 53 → -1073 ≤ e ≤ 971 →
  binary_round_aux 53 1024 sx (2 * Zpos m) (e - 1) loc_Exact = S754_finite sx m e.
Proof.
  intros Hm He. pose proof (digits_of_bounds m 53 ltac:(lia) Hm) as Hd.
  rewrite <-(round_aux_exact sx m e Hm) by lia.
  enough (Hs : shr_fexp 53 1024 (2 * Zpos m) (e - 1) loc_Exact = shr_fexp 53 1024 (Zpos m) e loc_Exact)
    by (unfold binary_round_aux; by rewrite Hs).
  rewrite (shr_fexp_id (Zpos m)) by (unfold fexp, emin; lia).
  unfold shr_fexp. change (2 * Zpos m) with (Zpos (xO m)). change (Zdigits2 _) with (Zpos (digits2_pos (xO m))).
  rewrite digits_log2, Pos2Z.inj_xO, Z.log2_double by lia.
  set (n := fexp 53 1024 _ - _). assert (n = 1) as -> by (unfold n, fexp, emin; lia). cbn. f_equal. lia.
Qed.

(** The float of an integer below 2^53: its bits moved to the top. *)
Lemma of_int_exact z : 0 < z < 2 ^ 53 → ∃ m,
  of_int z = S754_finite false m (Z.log2 z - 52) ∧ Zpos m = z * 2 ^ (52 - Z.log2 z) ∧
  0 ≤ Z.log2 z < 53 ∧ 2 ^ 52 ≤ Zpos m < 2 ^ 53.
Proof.
  intros Hz. assert (0 ≤ Z.log2 z < 53) by (split; [apply Z.log2_nonneg|apply Z.log2_lt_pow2; lia]).
  destruct z as [|p|p]; [lia| |lia]. unfold of_int, binary_normalize, binary_round.
  rewrite Z.add_0_r, digits_log2.
  destruct (shl_align_spec p 0 (fexp 53 1024 (Z.log2 (Zpos p) + 1))) as (m & e & -> & He & Hm & _).
  unfold fexp, emin in He. assert (e = Z.log2 (Zpos p) - 52) as -> by lia.
  rewrite Z.shiftl_mul_pow2 in Hm by lia. replace (0 - _) with (52 - Z.log2 (Zpos p)) in Hm by lia.
  assert (Hb : 2 ^ 52 ≤ Zpos m < 2 ^ 53).
  { rewrite Hm.
    destruct (Z.log2_spec (Zpos p)) as [Hl Hu]; [lia|].
    replace (2 ^ 52) with (2 ^ Z.log2 (Zpos p) * 2 ^ (52 - Z.log2 (Zpos p))) by (rewrite <-Z.pow_add_r by lia; f_equal; lia).
    replace (2 ^ 53) with (2 ^ Z.succ (Z.log2 (Zpos p)) * 2 ^ (52 - Z.log2 (Zpos p))) by (rewrite <-Z.pow_add_r by lia; f_equal; lia).
    assert (0 < 2 ^ (52 - Z.log2 (Zpos p))) by (apply Z.pow_pos_nonneg; lia). nia. }
  exists m. split_and!; try done; lia || by apply round_aux_exact; [|lia].
Qed.

(** Dividing by a power of two moves the point. *)
Lemma div_pow2 m e k : 2 ^ 52 ≤ Zpos m < 2 ^ 53 → 0 ≤ k < 53 → -900 ≤ e ≤ 900 →
  div (S754_finite false m e) (of_int (2 ^ k)) = S754_finite false m (e - k).
Proof.
  intros Hm Hk He.
  destruct (of_int_exact (2 ^ k)) as (m' & -> & Hm' & _).
  { split; [apply Z.pow_pos_nonneg; lia|apply Z.pow_lt_mono_r; lia]. }
  rewrite Z.log2_pow2 in * by lia. rewrite <-Z.pow_add_r in Hm' by lia. replace (k + _) with 52 in Hm' by lia.
  pose proof (digits_of_bounds m 53 ltac:(lia) Hm) as Hd.
  pose proof (digits_of_bounds m' 53 ltac:(lia) ltac:(rewrite Hm'; lia)) as Hd'.
  unfold div, SFdiv, SFdiv_core_binary. cbn [Zdigits2]. rewrite !digits_log2, Hd, Hd'.
  unfold fexp at 1 2, emin. set (e' := Z.min _ _). assert (e' = e - k - 1) as -> by lia.
  replace (e - (k - 52) - (e - k - 1)) with 53 by lia. cbv beta iota zeta.
  assert (Hq : Z.div_eucl (Z.shiftl (Zpos m) 53) (Zpos m') = (2 * Zpos m, 0)).
  { pose proof (Z.div_eucl_eq (Z.shiftl (Zpos m) 53) (Zpos m') ltac:(done)) as Heq.
    pose proof (Z.mod_pos_bound (Z.shiftl (Zpos m) 53) (Zpos m') ltac:(done)) as Hb.
    unfold Z.modulo in Hb. destruct (Z.div_eucl _ _) as [q r].
    rewrite Z.shiftl_mul_pow2, Hm' in Heq by lia. rewrite Hm' in Hb. f_equal; lia. }

  rewrite Hq.
  assert (Hl : new_location (Zpos m') 0 = loc_Exact)
    by (unfold new_location, new_location_even, new_location_odd; by destruct (Z.even _)).
  change (Z.pos (xO m)) with (2 * Z.pos m). rewrite Hl.
  apply (round_aux_double false m (e - k)); [done|lia].
Qed.

(** Comparing a quotient by a power of two with an integer. *)
Lemma ltb_quotient a b k : 0 ≤ a < 2 ^ 53 → 0 ≤ b < 2 ^ 53 → 0 ≤ k < 53 →
  SFltb (div (of_int a) (of_int (2 ^ k))) (of_int b) = (a <? b * 2 ^ k).
Proof.
  intros Ha Hb Hk. assert (Hp : 0 < 2 ^ k) by (apply Z.pow_pos_nonneg; lia).
  destruct (Z.eq_dec a 0) as [->|Hna].
  { destruct (of_int_exact (2 ^ k)) as (mk & -> & _); [split; [done|apply Z.pow_lt_mono_r; lia]|].
    destruct (Z.eq_dec b 0) as [->|Hnb]; [by vm_compute|].
    destruct (of_int_exact b ltac:(lia)) as (m & -> & _). cbn. symmetry. apply Z.ltb_lt. nia. }
  destruct (of_int_exact a ltac:(lia)) as (ma & -> & Hma & Hla & Hba).
  rewrite div_pow2 by lia.
  destruct (Z.eq_dec b 0) as [->|Hnb]; [cbn; symmetry; apply Z.ltb_ge; lia|].
  destruct (of_int_exact b ltac:(lia)) as (mb & -> & Hmb & Hlb & Hbb). rewrite ltb_finite.
  assert (Hlog : Z.log2 (b * 2 ^ k) = k + Z.log2 b) by (apply Z.log2_mul_pow2; lia).
  destruct (Z.lt_trichotomy (Z.log2 a - k) (Z.log2 b)) as [Hlt|[Heq|Hgt]].
  - assert (a < b * 2 ^ k) by (apply Z.log2_lt_cancel; lia).
    rewrite (proj2 (Z.ltb_lt _ _)) by lia. symmetry. by apply Z.ltb_lt.
  - assert (Heq' : 2 ^ (52 - Z.log2 b) = 2 ^ (52 - Z.log2 a) * 2 ^ k) by (rewrite <-Z.pow_add_r by lia; f_equal; lia).
    assert (0 < 2 ^ (52 - Z.log2 a)) by (apply Z.pow_pos_nonneg; lia).
    rewrite (proj2 (Z.ltb_ge (Z.log2 a - 52 - k) _)), (proj2 (Z.eqb_eq (Z.log2 a - 52 - k) _)) by lia. cbn [orb andb].
    rewrite Hma, Hmb, Heq'. destruct (Z.ltb_spec a (b * 2 ^ k)); [apply Z.ltb_lt|apply Z.ltb_ge]; nia.
  - assert (b * 2 ^ k < a) by (apply Z.log2_lt_cancel; lia).
    rewrite (proj2 (Z.ltb_ge (Z.log2 a - 52 - k) _)), (proj2 (Z.eqb_neq (Z.log2 a - 52 - k) _)) by lia.
    cbn [orb andb]. symmetry. apply Z.ltb_ge. lia.
Qed.

(** ** Numbers of no sign *)

(** Not NaN, and the sign bit is clear. *)
Definition nonneg (f : spec_float) : bool :=
  match f with S754_nan => false | S754_zero s | S754_infinity s | S754_finite s _ _ => negb s end.

Lemma nonneg_not_nan f : nonneg f = true → is_nan f = false.
Proof. by destruct f. Qed.

Lemma round_aux_nonneg m e l : 0 ≤ m → nonneg (binary_round_aux 53 1024 false m e l) = true.
Proof.
  intros Hm. unfold binary_round_aux. destruct (shr_fexp_spec m e l Hm) as (mrs & -> & Hv).
  assert (Hm1 : 0 ≤ round_nearest_even (shr_m mrs) (loc_of_shr_record mrs)).
  { assert (0 ≤ shr_m mrs) by (rewrite Hv; by apply Z.shiftr_nonneg).
    destruct (round_even_cases (shr_m mrs) (loc_of_shr_record mrs)) as [-> | ->]; lia. }
  match goal with |- context [shr_fexp 53 1024 ?m1 ?e1 loc_Exact] =>
    destruct (shr_fexp_spec m1 e1 loc_Exact Hm1) as (mrs2 & -> & Hv2) end.
  assert (0 ≤ shr_m mrs2) by (rewrite Hv2; by apply Z.shiftr_nonneg).
  destruct (shr_m mrs2); [done| |lia]. by destruct (_ <=? _).
Qed.

Lemma normalize_nonneg z e : 0 ≤ z → nonneg (binary_normalize 53 1024 z e false) = true.
Proof.
  destruct z as [|m|m]; [done| |lia]. intros _. cbn. unfold binary_round.
  destruct (shl_align _ _ _) as [m' e']. by apply round_aux_nonneg.
Qed.

Lemma add_nonneg x y : nonneg x = true → nonneg y = true → nonneg (add x y) = true.
Proof.
  destruct x as [[]|[]| |[] mx ex], y as [[]|[]| |[] my ey]; try done. intros _ _. by apply normalize_nonneg.
Qed.

(** The divisor is a number, and not both are zero. *)
Lemma div_nonneg x y : nonneg x = true → nonneg y = true → is_inf y = false →
  x ≠ zero ∨ y ≠ zero → nonneg (div x y) = true.
Proof.
  destruct x as [[]|[]| |[] mx ex], y as [[]|[]| |[] my ey]; try done; intros _ _ _ H; [naive_solver|].
  unfold div, SFdiv. destruct (SFdiv_core_binary _ _ _ _ _ _) as [[q e] l] eqn:E. apply round_aux_nonneg.
  revert E. unfold SFdiv_core_binary.
  match goal with |- context [Z.div_eucl ?a ?b] =>
    assert (Ha : 0 ≤ a) by (case_match; rewrite ?Z.shiftl_nonneg; lia);
    pose proof (Z.div_pos a b Ha ltac:(done)) as Hq; unfold Z.div in Hq; destruct (Z.div_eucl a b) end.
  by intros [= <- _ _].
Qed.

Lemma of_int_nonneg z : 0 ≤ z < 2 ^ 63 → nonneg (of_int z) = true ∧ is_inf (of_int z) = false.
Proof.
  intros Hz. split; [apply normalize_nonneg; lia|].
  pose proof (of_int_within 63 z ltac:(lia) ltac:(lia)). by destruct (of_int z).
Qed.

Lemma Min_not_nan x y : is_nan x = false → is_nan y = false → is_nan (Min x y) = false.
Proof.
  destruct x as [|[]| |[]], y as [|[]| |[]]; try done; cbn [Min]; intros; by destruct (SFltb _ _).
Qed.
End Float.
