(* ===== verification/GoDuration.v ===== *)
(** * GoDuration: [time.ParseDuration] and [strconv.ParseBool]

    The parser of durations as the standard library has it: a sign, then
    decimal numbers with units, whose sum in nanoseconds is an int64. *)
From stdpp Require Import prelude list strings.
From Stdlib Require Import Ascii SpecFloat.
From S2P Require Import Prelude GoLib GoFloat.

Module Duration.
Import Strconv Strings.
Local Open Scope string_scope.
Local Open Scope Z_scope.

(** The nanoseconds of a unit; the two micro signs are U+00B5 and U+03BC. *)
Definition unit_of (u : string) : option Z :=
  if String.eqb u "ns" then Some 1
  else if String.eqb u "us" || String.eqb u "µs" || String.eqb u "μs" then Some 1000
  else if String.eqb u "ms" then Some GoTime.Millisecond
  else if String.eqb u "s" then Some GoTime.Second
  else if String.eqb u "m" then Some GoTime.Minute
  else if String.eqb u "h" then Some GoTime.Hour
  else None.

(** [leadingInt]: the number and the rest, [None] on overflow. *)
Fixpoint leadingInt (s : string) (x : Z) : option (Z * string) :=
  match s with
  | String c s' =>
      match digit c with
      | None => Some (x, s)
      | Some d =>
          if 2 ^ 63 / 10 <? x then None
          else if 2 ^ 63 <? x * 10 + d then None else leadingInt s' (x * 10 + d)
      end
  | "" => Some (x, s)
  end.

(** [leadingFraction]: the digits that fit, their scale and the rest. *)
Fixpoint leadingFraction (s : string) (x : Z) (scale : spec_float) (overflow : bool)
    : Z * spec_float * string :=
  match s with
  | String c s' =>
      match digit c with
      | None => (x, scale, s)
      | Some d =>
          if overflow then leadingFraction s' x scale true
          else if (2 ^ 63 - 1) / 10 <? x then leadingFraction s' x scale true
          else if 2 ^ 63 <? x * 10 + d then leadingFraction s' x scale true
          else leadingFraction s' (x * 10 + d) (Float.mul scale (Float.of_int 10)) false
      end
  | "" => (x, scale, s)
  end.

(** The text up to the next digit or point. *)
Fixpoint unit_text (s : string) : string * string :=
  match s with
  | String c s' =>
      if Ascii.eqb c "." || bool_decide (is_Some (digit c)) then ("", s)
      else let (u, rest) := unit_text s' in (String c u, rest)
  | "" => ("", "")
  end.

(** The fraction after a point: the number, its scale, the rest, and whether
    there was a digit. *)
Definition fraction (s : string) : Z * spec_float * string * bool :=
  match s with
  | String c s' =>
      if Ascii.eqb c "." then
        let '(f, scale, rest) := leadingFraction s' 0 (Float.of_int 1) false in
        (f, scale, rest, negb (Nat.eqb (String.length s') (String.length rest)))
      else (0, Float.of_int 1, s, false)
  | "" => (0, Float.of_int 1, s, false)
  end.

(** The conversion of a nonnegative float64 to an integer. *)
Definition trunc (f : spec_float) : Z :=
  match f with
  | S754_finite false m e => Z.shiftl (Zpos m) e
  | _ => 0
  end.

(** One number with its unit: its nanoseconds and the rest. *)
Definition term (s : string) : option (Z * string) :=
  match s with
  | "" => None
  | String c _ =>
      if negb (Ascii.eqb c "." || bool_decide (is_Some (digit c))) then None
      else
        match leadingInt s 0 with
        | None => None
        | Some (v, s1) =>
            let pre := negb (Nat.eqb (String.length s) (String.length s1)) in
            let '(f, scale, s2, post) := fraction s1 in
            if negb pre && negb post then None
            else
              let (u, s3) := unit_text s2 in
              match unit_of u with
              | None => None
              | Some ns =>
                  if 2 ^ 63 / ns <? v then None
                  else
                    let v := v * ns in
                    if 0 <? f then
                      let v := v + trunc (Float.mul (Float.of_int f) (Float.div (Float.of_int ns) scale)) in
                      if 2 ^ 63 <? v then None else Some (v, s3)
                    else Some (v, s3)
              end
        end
  end.

(** The terms of the text; every one takes at least one character. *)
Fixpoint terms (fuel : nat) (s : string) (d : Z) : option Z :=
  match s, fuel with
  | "", _ => Some d
  | _, O => None
  | _, S fuel' =>
      match term s with
      | None => None
      | Some (v, rest) => if 2 ^ 63 <? d + v then None else terms fuel' rest (d + v)
      end
  end.

Definition ParseDuration (s : string) : option Z :=
  let '(neg, s) :=
    match s with
    | String "-" s' => (true, s')
    | String "+" s' => (false, s')
    | _ => (false, s)
    end in
  if String.eqb s "0" then Some 0
  else if String.eqb s "" then None
  else
    match terms (String.length s) s 0 with
    | None => None
    | Some d => if neg then Some (- d) else if 2 ^ 63 - 1 <? d then None else Some d
    end.

Example parse_examples :
  ParseDuration <$> ["5m"; "1h15m30.5s"; "-10m"; "0"; "100"; ""; "2540400h10m10s"; "1.5h"; ".5s"; "3000000h"] =
  [Some (5 * GoTime.Minute); Some (75 * GoTime.Minute + 30500 * GoTime.Millisecond); Some (-10 * GoTime.Minute);
   Some 0; None; None; Some ((2540400 * 3600 + 610) * GoTime.Second); Some (90 * GoTime.Minute);
   Some (500 * GoTime.Millisecond); None].
Proof. vm_compute. reflexivity. Qed.

(** The fuel is enough: a term takes at least one character. *)
Lemma leadingInt_length s x v rest : leadingInt s x = Some (v, rest) → (String.length rest ≤ String.length s)%nat.
Proof.
  revert x. induction s as [|c s IH]; intros x; cbn [leadingInt]; [by intros [= _ <-]|].
  destruct (digit c); [|by intros [= _ <-]]. repeat case_match; try done. intros ?%IH. cbn. lia.
Qed.

Lemma leadingFraction_length s x scale o f sc rest :
  leadingFraction s x scale o = (f, sc, rest) → (String.length rest ≤ String.length s)%nat.
Proof.
  revert x scale o. induction s as [|c s IH]; intros x scale o; cbn [leadingFraction]; [by intros [= _ _ <-]|].
  destruct (digit c); [|by intros [= _ _ <-]]. repeat case_match; intros ?%IH; cbn; lia.
Qed.

Lemma unit_text_length s u rest : unit_text s = (u, rest) → String.length s = (String.length u + String.length rest)%nat.
Proof.
  revert u. induction s as [|c s IH]; intros u; cbn [unit_text]; [by intros [= <- <-]|].
  case_match; [by intros [= <- <-]|]. destruct (unit_text s) as [u' r]. intros [= <- <-]. cbn. by rewrite (IH u').
Qed.

Lemma term_shorter s v rest : term s = Some (v, rest) → (String.length rest < String.length s)%nat.
Proof.
  unfold term. destruct s as [|c s0]; [done|]. set (s := String c s0). case_match; [done|].
  destruct (leadingInt s 0) as [[v1 s1]|] eqn:El; [|done]. apply leadingInt_length in El.
  assert (Hf : ∀ f scale s2 post, fraction s1 = (f, scale, s2, post) → (String.length s2 ≤ String.length s1)%nat).
  { intros f scale s2 post. unfold fraction. destruct s1 as [|c1 s1']; [by intros [= _ _ <- _]|].
    case_match; [|by intros [= _ _ <- _]]. destruct (leadingFraction s1' 0 _ _) as [[f' sc] r] eqn:Ef.
    apply leadingFraction_length in Ef. intros [= _ _ <- _]. cbn. lia. }
  destruct (fraction s1) as [[[f scale] s2] post]. specialize (Hf _ _ _ _ eq_refl).
  case_match; [done|]. destruct (unit_text s2) as [u s3] eqn:Eu. apply unit_text_length in Eu.
  destruct (unit_of u) as [ns|] eqn:Ens; [|done].
  assert (String.length u ≠ 0)%nat by (intros E; destruct u; [by vm_compute in Ens|done]).
  repeat case_match; try done; intros [= _ <-]; lia.
Qed.

Lemma terms_enough fuel fuel' s d : (String.length s ≤ fuel)%nat → (String.length s ≤ fuel')%nat →
  terms fuel s d = terms fuel' s d.
Proof.
  revert fuel' s d. induction fuel as [|fuel IH]; intros fuel' s d Hf Hf'.
  { destruct s; [by destruct fuel'|cbn in Hf; lia]. }
  destruct s as [|c s]; [by destruct fuel'|]. destruct fuel' as [|fuel']; [cbn in Hf'; lia|]. cbn [terms].
  destruct (term (String c s)) as [[v rest]|] eqn:E; [|done].
  apply term_shorter in E. cbn in *. case_match; [done|]. apply IH; lia.
Qed.
End Duration.

Local Open Scope string_scope.

(** [strconv.ParseBool]: the value and whether the error is nil. *)
Definition ParseBool (s : string) : bool * bool :=
  if existsb (String.eqb s) ["1"; "t"; "T"; "TRUE"; "true"; "True"] then (true, true)
  else if existsb (String.eqb s) ["0"; "f"; "F"; "FALSE"; "false"; "False"] then (false, true)
  else (false, false).
