(* ===== verification/CircuitBreaker.v ===== *)
(** * CircuitBreaker: pkg/cloudprovider/circuitbreaker.go

    The breaker that gates instance provisioning for one NodeClass and region: its
    record, every method, the invariant of its counters, the specification of its
    three-state machine and what its limits guarantee over whole executions.

    Every exported method holds [cb.mu] for its whole body, so a method is one
    atomic step.  A method reads the clock at several places; [clk i] is the value
    read at the i-th of these places, in program order.  Logging is left out. *)
From stdpp Require Import prelude list strings pretty.
From Stdlib Require Import Ascii.
From S2P Require Import Prelude GoLib GoSort.
Import GoTime.
Open Scope Z_scope.

(** ** Data *)
Inductive CircuitBreakerState :=
  | CircuitBreakerClosed
  | CircuitBreakerOpen
  | CircuitBreakerHalfOpen.

#[export] Instance CircuitBreakerState_eq_dec : EqDecision CircuitBreakerState.
Proof. solve_decision. Defined.

Definition state_name (s : CircuitBreakerState) : string :=
  match s with
  | CircuitBreakerClosed => "CLOSED"
  | CircuitBreakerOpen => "OPEN"
  | CircuitBreakerHalfOpen => "HALF_OPEN"
  end.

Record CircuitBreakerConfig := {
  FailureThreshold : Z;
  FailureWindow : Z;
  RecoveryTimeout : Z;
  HalfOpenMaxRequests : Z;
  RateLimitPerMinute : Z;
  MaxConcurrentInstances : Z;
}.

Definition DefaultCircuitBreakerConfig : CircuitBreakerConfig := {|
  FailureThreshold := 3;
  FailureWindow := 5 * Minute;
  RecoveryTimeout := 15 * Minute;
  HalfOpenMaxRequests := 2;
  RateLimitPerMinute := 2;
  MaxConcurrentInstances := 5;
|}.

Record FailureRecord := {
  Timestamp : Z;
  ErrorText : string;
  FailNodeClass : string;
  FailRegion : string;
}.

Record CircuitBreaker := {
  config : CircuitBreakerConfig;
  state : CircuitBreakerState;
  failures : list FailureRecord;
  enabled : bool;
  lastStateChange : Z;
  halfOpenRequests : Z;
  concurrentInstances : Z;
  instancesThisMinute : Z;
  lastMinuteReset : Z;
  openFailureSummary : string;
}.

(** Field assignments of the Go struct. *)
Definition set_failures (l : list FailureRecord) (cb : CircuitBreaker) : CircuitBreaker :=
  {| config := cb.(config); state := cb.(state); failures := l; enabled := cb.(enabled);
     lastStateChange := cb.(lastStateChange); halfOpenRequests := cb.(halfOpenRequests);
     concurrentInstances := cb.(concurrentInstances);
     instancesThisMinute := cb.(instancesThisMinute);
     lastMinuteReset := cb.(lastMinuteReset); openFailureSummary := cb.(openFailureSummary) |}.

Definition set_minute (n t : Z) (cb : CircuitBreaker) : CircuitBreaker :=
  {| config := cb.(config); state := cb.(state); failures := cb.(failures);
     enabled := cb.(enabled); lastStateChange := cb.(lastStateChange);
     halfOpenRequests := cb.(halfOpenRequests);
     concurrentInstances := cb.(concurrentInstances);
     instancesThisMinute := n; lastMinuteReset := t;
     openFailureSummary := cb.(openFailureSummary) |}.

Definition set_concurrent (n : Z) (cb : CircuitBreaker) : CircuitBreaker :=
  {| config := cb.(config); state := cb.(state); failures := cb.(failures);
     enabled := cb.(enabled); lastStateChange := cb.(lastStateChange);
     halfOpenRequests := cb.(halfOpenRequests); concurrentInstances := n;
     instancesThisMinute := cb.(instancesThisMinute);
     lastMinuteReset := cb.(lastMinuteReset); openFailureSummary := cb.(openFailureSummary) |}.

Definition set_halfopen (n : Z) (cb : CircuitBreaker) : CircuitBreaker :=
  {| config := cb.(config); state := cb.(state); failures := cb.(failures);
     enabled := cb.(enabled); lastStateChange := cb.(lastStateChange);
     halfOpenRequests := n; concurrentInstances := cb.(concurrentInstances);
     instancesThisMinute := cb.(instancesThisMinute);
     lastMinuteReset := cb.(lastMinuteReset); openFailureSummary := cb.(openFailureSummary) |}.

(** [state], [lastStateChange] and [halfOpenRequests] as the three transition helpers
    assign them, with the summary kept. *)
Definition set_state (s : CircuitBreakerState) (t : Z) (cb : CircuitBreaker) : CircuitBreaker :=
  {| config := cb.(config); state := s; failures := cb.(failures);
     enabled := cb.(enabled); lastStateChange := t; halfOpenRequests := 0;
     concurrentInstances := cb.(concurrentInstances);
     instancesThisMinute := cb.(instancesThisMinute);
     lastMinuteReset := cb.(lastMinuteReset); openFailureSummary := cb.(openFailureSummary) |}.

Definition set_summary (m : string) (cb : CircuitBreaker) : CircuitBreaker :=
  {| config := cb.(config); state := cb.(state); failures := cb.(failures);
     enabled := cb.(enabled); lastStateChange := cb.(lastStateChange);
     halfOpenRequests := cb.(halfOpenRequests);
     concurrentInstances := cb.(concurrentInstances);
     instancesThisMinute := cb.(instancesThisMinute);
     lastMinuteReset := cb.(lastMinuteReset); openFailureSummary := m |}.

(** The three error types a caller can receive. *)
Inductive BreakerError :=
  | CircuitBreakerError (State : CircuitBreakerState) (Message : string) (TimeToWait : Z)
  | RateLimitError (Limit Current TimeToReset : Z)
  | ConcurrencyLimitError (Limit Current : Z).

Definition BreakerError_Error (e : BreakerError) : string :=
  match e with
  | CircuitBreakerError s m _ => "circuit breaker " +:+ state_name s +:+ ": " +:+ m
  | RateLimitError l c _ =>
      "rate limit exceeded: " +:+ Strconv.Itoa c +:+ "/" +:+ Strconv.Itoa l
        +:+ " instances this minute"
  | ConcurrencyLimitError l c =>
      "concurrency limit exceeded: " +:+ Strconv.Itoa c +:+ "/" +:+ Strconv.Itoa l
        +:+ " concurrent instances"
  end.

Record CircuitBreakerStatus := {
  st_State : CircuitBreakerState;
  st_RecentFailures : Z;
  st_FailureThreshold : Z;
  st_InstancesThisMinute : Z;
  st_RateLimit : Z;
  st_ConcurrentInstances : Z;
  st_MaxConcurrent : Z;
  st_LastStateChange : Z;
  st_TimeToRecovery : Z;
}.

(** ** Operations *)
Definition NewCircuitBreaker (cfg : option CircuitBreakerConfig) (now : Z) : CircuitBreaker :=
  {| config := default DefaultCircuitBreakerConfig cfg;
     state := CircuitBreakerClosed;
     failures := [];
     enabled := match cfg with Some _ => true | None => false end;
     lastStateChange := now;
     halfOpenRequests := 0;
     concurrentInstances := 0;
     instancesThisMinute := 0;
     lastMinuteReset := now;
     openFailureSummary := "" |}.

Definition resetCountersIfNeeded (now : Z) (cb : CircuitBreaker) : CircuitBreaker :=
  if Minute <=? Sub now cb.(lastMinuteReset) then set_minute 0 now cb else cb.

Definition transitionToClosed (now : Z) (cb : CircuitBreaker) : CircuitBreaker :=
  set_state CircuitBreakerClosed now cb.

Definition transitionToHalfOpen (now : Z) (cb : CircuitBreaker) : CircuitBreaker :=
  set_state CircuitBreakerHalfOpen now cb.

(** A failure is recent when its timestamp is after [now - FailureWindow]. *)
Definition recent (cb : CircuitBreaker) (now : Z) (f : FailureRecord) : bool :=
  After f.(Timestamp) (Add now (- cb.(config).(FailureWindow))).

Definition cleanOldFailures (now : Z) (cb : CircuitBreaker) : CircuitBreaker :=
  set_failures (List.filter (recent cb now) cb.(failures)) cb.

Definition countRecentFailures (now : Z) (cb : CircuitBreaker) : Z :=
  Z.of_nat (length (List.filter (recent cb now) cb.(failures))).

Definition getTimeToRecovery (now : Z) (cb : CircuitBreaker) : Z :=
  if bool_decide (cb.(state) ≠ CircuitBreakerOpen) then 0
  else
    let elapsed := Sub now cb.(lastStateChange) in
    if cb.(config).(RecoveryTimeout) <=? elapsed then 0
    else cb.(config).(RecoveryTimeout) - elapsed.

(** [simplifyError]: the grouping key of an error message. *)
Definition simplifyError (e : string) : string :=
  let has := Strings.Contains e in
  if has "timeout" || has "Timeout" then "API timeout"
  else if has "subnet" && has "not found" then "Subnet not found"
  else if has "security group" && has "not found" then "Security group not found"
  else if has "image" && has "not found" then "Image not found"
  else if (has "quota" && has "exceeded") || (has "limit" && (has "reached" || has "exceeded"))
       then "Resource quota/limit exceeded"
  else if has "unauthorized" || has "Unauthorized" then "Unauthorized/authentication error"
  else if has "insufficient" then "Insufficient capacity"
  else if (has "invalid" || has "Invalid")
          && (has "parameter" || has "configuration" || has "request")
       then "Invalid configuration"
  else if has "network" || has "Network" then "Network error"
  else
    match Strings.Split e ":"%char with
    | p :: _ =>
        if Strings.len p <? 50 then Strings.TrimSpace p
        else if 50 <? Strings.len e then Strings.take 47 e +:+ "..." else e
    | [] => if 50 <? Strings.len e then Strings.take 47 e +:+ "..." else e
    end.

(** [errorGroups[key] = append(errorGroups[key], f)], keys in first-insertion order. *)
Fixpoint group_add (key : string) (f : FailureRecord)
    (groups : list (string * list FailureRecord)) : list (string * list FailureRecord) :=
  match groups with
  | [] => [(key, [f])]
  | (k, fs) :: gs =>
      if String.eqb k key then (k, (fs ++ [f])%list) :: gs
      else (k, fs) :: group_add key f gs
  end.

Definition errorGroups (fs : list FailureRecord) : list (string * list FailureRecord) :=
  fold_left (λ gs f, group_add (simplifyError f.(ErrorText)) f gs) fs [].

Definition mostRecent (f0 : FailureRecord) (fs : list FailureRecord) : FailureRecord :=
  fold_left (λ m f, if After f.(Timestamp) m.(Timestamp) then f else m) fs f0.

Definition vpc_prefix : string := "creating VPC instance failed:".

(** The line of one group. *)
Definition group_line (g : string * list FailureRecord) : list string :=
  match g with
  | (_, []) => []
  | (key, f0 :: fs) =>
      let count := Z.of_nat (length (f0 :: fs)) in
      let actual := (mostRecent f0 fs).(ErrorText) in
      match Strings.Index actual vpc_prefix with
      | Some idx =>
          let details :=
            Strings.TrimSpace (Strings.drop (idx + String.length vpc_prefix) actual) in
          let details :=
            if 150 <? Strings.len details then Strings.take 147 details +:+ "..." else details in
          if count =? 1 then [key +:+ ": " +:+ details]
          else [key +:+ " (x" +:+ Strconv.Itoa count +:+ "): " +:+ details]
      | None =>
          if count =? 1 then [key] else [key +:+ " (x" +:+ Strconv.Itoa count +:+ ")"]
      end
  end.

(** [%v] of a [[]string]. *)
Definition format_strings (l : list string) : string := "[" +:+ Strings.Join l " " +:+ "]".

(** The clock is read once, for the cutoff; the groups are visited in map order. *)
Definition getRecentFailuresSummary `{MapRange} (now : Z) (cb : CircuitBreaker) : string :=
  let groups := errorGroups (List.filter (recent cb now) cb.(failures)) in
  let recentErrors := List.concat (map group_line (map_range groups)) in
  let recentErrors :=
    if (3 <? Z.of_nat (length recentErrors)) then (firstn 3 recentErrors ++ ["..."])%list
    else recentErrors in
  match recentErrors with
  | [] => ""
  | _ => "[" +:+ format_strings recentErrors +:+ "]"
  end.

(** [transitionToOpen] reads the clock for the state change, then for the summary. *)
Definition transitionToOpen `{MapRange} (t1 t2 : Z) (cb : CircuitBreaker) : CircuitBreaker :=
  let cb := set_state CircuitBreakerOpen t1 cb in
  set_summary (getRecentFailuresSummary t2 cb) cb.

Section ops.
Context `{MapRange}.

(** The [switch cb.state] of [CanProvision].  Readings: 1 elapsed, 2 the transition. *)
Definition state_gate (clk : clock) (cb : CircuitBreaker) : CircuitBreaker + BreakerError :=
  match cb.(state) with
  | CircuitBreakerOpen =>
      let elapsed := Sub (clk 1%nat) cb.(lastStateChange) in
      if cb.(config).(RecoveryTimeout) <=? elapsed
      then inl (transitionToHalfOpen (clk 2%nat) cb)
      else
        let failureContext :=
          if 0 <? Strings.len cb.(openFailureSummary)
          then " Recent failures: " +:+ cb.(openFailureSummary) else "" in
        inr (CircuitBreakerError cb.(state)
               ("Circuit breaker is OPEN - provisioning blocked due to recent failures."
                  +:+ failureContext)
               (cb.(config).(RecoveryTimeout) - elapsed))
  | CircuitBreakerHalfOpen =>
      if cb.(config).(HalfOpenMaxRequests) <=? cb.(halfOpenRequests)
      then inr (CircuitBreakerError cb.(state)
                  "Circuit breaker is HALF_OPEN - maximum test requests exceeded" 0)
      else inl cb
  | CircuitBreakerClosed => inl cb
  end.

(** The rate and concurrency limits. Reading 3: the time to the next reset. *)
Definition limit_gate (clk : clock) (cb : CircuitBreaker) : option BreakerError :=
  if cb.(config).(RateLimitPerMinute) <=? cb.(instancesThisMinute)
  then Some (RateLimitError cb.(config).(RateLimitPerMinute) cb.(instancesThisMinute)
               (Minute - Sub (clk 3%nat) cb.(lastMinuteReset)))
  else if cb.(config).(MaxConcurrentInstances) <=? cb.(concurrentInstances)
  then Some (ConcurrencyLimitError cb.(config).(MaxConcurrentInstances)
               cb.(concurrentInstances))
  else None.

(** All checks passed: the counters go up. *)
Definition admit_one (cb : CircuitBreaker) : CircuitBreaker :=
  let cb := set_minute (cb.(instancesThisMinute) + 1) cb.(lastMinuteReset) cb in
  let cb := set_concurrent (cb.(concurrentInstances) + 1) cb in
  if decide (cb.(state) = CircuitBreakerHalfOpen)
  then set_halfopen (cb.(halfOpenRequests) + 1) cb else cb.

(** [None] is the nil error: provisioning is allowed. *)
Definition CanProvision (clk : clock) (cb : CircuitBreaker)
    : CircuitBreaker * option BreakerError :=
  if negb cb.(enabled) then (cb, None)
  else
    let cb := resetCountersIfNeeded (clk 0%nat) cb in
    match state_gate clk cb with
    | inr e => (cb, Some e)
    | inl cb =>
        match limit_gate clk cb with
        | Some e => (cb, Some e)
        | None => (admit_one cb, None)
        end
    end.

Definition release (cb : CircuitBreaker) : CircuitBreaker :=
  if 0 <? cb.(concurrentInstances)
  then set_concurrent (cb.(concurrentInstances) - 1) cb else cb.

Definition RecordPending (cb : CircuitBreaker) : CircuitBreaker :=
  let cb := release cb in
  if bool_decide (cb.(state) = CircuitBreakerHalfOpen) && (0 <? cb.(halfOpenRequests))
  then set_halfopen (cb.(halfOpenRequests) - 1) cb else cb.

Definition RecordSuccess (clk : clock) (cb : CircuitBreaker) : CircuitBreaker :=
  if negb cb.(enabled) then cb
  else
    let cb := release cb in
    if decide (cb.(state) = CircuitBreakerHalfOpen)
    then transitionToClosed (clk 0%nat) cb else cb.

(** Readings: 0 the record's timestamp, 1 the clean-up, 2 the count, 3 and 4 the
    transition to open. *)
Definition RecordFailure (clk : clock) (nodeClass region err : string) (cb : CircuitBreaker)
    : CircuitBreaker :=
  if negb cb.(enabled) then cb
  else
    let cb := release cb in
    let failure := {| Timestamp := clk 0%nat; ErrorText := err;
                      FailNodeClass := nodeClass; FailRegion := region |} in
    let cb := set_failures (cb.(failures) ++ [failure])%list cb in
    let cb := cleanOldFailures (clk 1%nat) cb in
    let recentFailures := countRecentFailures (clk 2%nat) cb in
    if cb.(config).(FailureThreshold) <=? recentFailures then
      if decide (cb.(state) ≠ CircuitBreakerOpen)
      then transitionToOpen (clk 3%nat) (clk 4%nat) cb else cb
    else if decide (cb.(state) = CircuitBreakerHalfOpen)
    then transitionToOpen (clk 3%nat) (clk 4%nat) cb
    else cb.

(** Readings: 0 the count, 1 the time to recovery.  The error is always nil. *)
Definition GetState (clk : clock) (cb : CircuitBreaker) : CircuitBreakerStatus :=
  {| st_State := cb.(state);
     st_RecentFailures := countRecentFailures (clk 0%nat) cb;
     st_FailureThreshold := cb.(config).(FailureThreshold);
     st_InstancesThisMinute := cb.(instancesThisMinute);
     st_RateLimit := cb.(config).(RateLimitPerMinute);
     st_ConcurrentInstances := cb.(concurrentInstances);
     st_MaxConcurrent := cb.(config).(MaxConcurrentInstances);
     st_LastStateChange := cb.(lastStateChange);
     st_TimeToRecovery := getTimeToRecovery (clk 1%nat) cb |}.
End ops.

(** ** What an operation leaves alone *)
Create HintDb breaker_db.

Lemma reset_config t cb : (resetCountersIfNeeded t cb).(config) = cb.(config).
Proof. unfold resetCountersIfNeeded. by case_match. Qed.
Lemma reset_state t cb : (resetCountersIfNeeded t cb).(state) = cb.(state).
Proof. unfold resetCountersIfNeeded. by case_match. Qed.
Lemma reset_enabled t cb : (resetCountersIfNeeded t cb).(enabled) = cb.(enabled).
Proof. unfold resetCountersIfNeeded. by case_match. Qed.
Lemma reset_concurrent t cb :
  (resetCountersIfNeeded t cb).(concurrentInstances) = cb.(concurrentInstances).
Proof. unfold resetCountersIfNeeded. by case_match. Qed.
Lemma reset_halfopen t cb :
  (resetCountersIfNeeded t cb).(halfOpenRequests) = cb.(halfOpenRequests).
Proof. unfold resetCountersIfNeeded. by case_match. Qed.
Lemma reset_since t cb : (resetCountersIfNeeded t cb).(lastStateChange) = cb.(lastStateChange).
Proof. unfold resetCountersIfNeeded. by case_match. Qed.
Create Rewrite HintDb breaker_rw.
#[export] Hint Rewrite reset_config reset_state reset_enabled reset_concurrent reset_halfopen
  reset_since : breaker_rw.

(** After the reset the current minute is less than a minute old. *)
Lemma reset_epoch t cb :
  let cb' := resetCountersIfNeeded t cb in
  (cb' = cb ∧ t - cb.(lastMinuteReset) < Minute) ∨
  (cb'.(lastMinuteReset) = t ∧ cb'.(instancesThisMinute) = 0
   ∧ Minute ≤ t - cb.(lastMinuteReset)).
Proof.
  unfold resetCountersIfNeeded.
  pose proof (Sub_range t cb.(lastMinuteReset)) as Hr.
  unfold Sub, min_duration, max_duration, Minute, Second, Millisecond in *.
  case_match; simpl; [right|left]; repeat split; lia.
Qed.

Section theory.
Context `{MapRange}.

(** The breaker after the state gate: unchanged, or moved from OPEN to HALF_OPEN. *)
Lemma state_gate_inl clk cb cb' :
  state_gate clk cb = inl cb' →
  (cb' = cb ∧ cb.(state) ≠ CircuitBreakerOpen ∧
     (cb.(state) = CircuitBreakerHalfOpen →
      cb.(halfOpenRequests) < cb.(config).(HalfOpenMaxRequests))) ∨
  (cb.(state) = CircuitBreakerOpen ∧ cb' = transitionToHalfOpen (clk 2%nat) cb ∧
   cb.(config).(RecoveryTimeout) ≤ Sub (clk 1%nat) cb.(lastStateChange)).
Proof.
  unfold state_gate. destruct (state cb) eqn:Es.
  - intros [= <-]. by left.
  - destruct (_ <=? _) eqn:E; [|done]. intros [= <-]. right. split_and!; [done..|lia].
  - destruct (_ <=? _) eqn:E; [done|]. intros [= <-]. left.
    split_and!; [done..|lia].
Qed.

(** What holds when [CanProvision] admits: both limits had room, and the counters of
    the breaker it passed the gates with went up by one. *)
Lemma CanProvision_admit clk cb cb' :
  cb.(enabled) = true → CanProvision clk cb = (cb', None) →
  ∃ cb1, state_gate clk (resetCountersIfNeeded (clk 0%nat) cb) = inl cb1 ∧
    cb' = admit_one cb1 ∧
    cb1.(instancesThisMinute) < cb1.(config).(RateLimitPerMinute) ∧
    cb1.(concurrentInstances) < cb1.(config).(MaxConcurrentInstances).
Proof.
  intros Hen. unfold CanProvision. rewrite Hen. simpl.
  destruct (state_gate clk _) as [cb1|e] eqn:Eg; [|done].
  unfold limit_gate. destruct (_ <=? _) eqn:E1; [done|].
  destruct (MaxConcurrentInstances _ <=? _) eqn:E2; [done|].
  intros [= <-]. exists cb1. split_and!; [done..|lia|lia].
Qed.

(** A refusal changes no counter but the minute reset, and the state only from OPEN to
    HALF_OPEN. *)
Lemma CanProvision_deny clk cb cb' e :
  CanProvision clk cb = (cb', Some e) →
  cb' = resetCountersIfNeeded (clk 0%nat) cb ∨
  (cb.(state) = CircuitBreakerOpen ∧
   cb.(config).(RecoveryTimeout) ≤ Sub (clk 1%nat) cb.(lastStateChange) ∧
   cb' = transitionToHalfOpen (clk 2%nat) (resetCountersIfNeeded (clk 0%nat) cb)).
Proof.
  unfold CanProvision. destruct (negb _); [done|].
  destruct (state_gate clk _) as [cb1|e'] eqn:Eg; [|intros [= <- <-]; by left].
  destruct (limit_gate clk cb1); intros [= <- <-].
  apply state_gate_inl in Eg as [(-> & _)|(Hs & -> & Ht)]; [by left|right].
  autorewrite with breaker_rw in *. done.
Qed.

(** *** Configuration and switch are constant *)
Lemma CanProvision_const clk cb :
  (CanProvision clk cb).1.(config) = cb.(config) ∧
  (CanProvision clk cb).1.(enabled) = cb.(enabled).
Proof.
  unfold CanProvision, state_gate, admit_one.
  repeat case_match; simplify_eq/=; by autorewrite with breaker_rw.
Qed.
Lemma RecordPending_const cb :
  (RecordPending cb).(config) = cb.(config) ∧ (RecordPending cb).(enabled) = cb.(enabled).
Proof. unfold RecordPending, release. by repeat case_match. Qed.
Lemma RecordSuccess_const clk cb :
  (RecordSuccess clk cb).(config) = cb.(config) ∧
  (RecordSuccess clk cb).(enabled) = cb.(enabled).
Proof. unfold RecordSuccess, release. by repeat case_match. Qed.
Lemma RecordFailure_const clk nc r e cb :
  (RecordFailure clk nc r e cb).(config) = cb.(config) ∧
  (RecordFailure clk nc r e cb).(enabled) = cb.(enabled).
Proof. unfold RecordFailure, release. by repeat case_match. Qed.
End theory.

(** ** Executions

    An execution interleaves calls on one breaker.  [ex_inflight] counts the instances
    that were allowed and have not been recorded yet; a Record call is made for one of
    them, as [CloudProvider.Create] does.  [ex_allowed] keeps, newest first, each
    allowance's time and the minute ([lastMinuteReset]) it was charged to. *)
Record exec := mk_exec {
  ex_cb : CircuitBreaker;
  ex_now : Z;
  ex_inflight : Z;
  ex_allowed : list (Z * Z);
}.

Inductive event :=
  | EvAllow
  | EvRefuse (e : BreakerError)
  | EvPending
  | EvSuccess
  | EvFailure (err : string).

Section executions.
Context `{MapRange}.

Inductive brk_step (x : exec) : event → exec → Prop :=
  | step_allow clk cb' :
      monotone clk → x.(ex_now) ≤ clk 0%nat →
      CanProvision clk x.(ex_cb) = (cb', None) →
      brk_step x EvAllow
        (mk_exec cb' (clk 4%nat) (x.(ex_inflight) + 1)
           ((clk 0%nat, cb'.(lastMinuteReset)) :: x.(ex_allowed)))
  | step_refuse clk cb' e :
      monotone clk → x.(ex_now) ≤ clk 0%nat →
      CanProvision clk x.(ex_cb) = (cb', Some e) →
      brk_step x (EvRefuse e) (mk_exec cb' (clk 4%nat) x.(ex_inflight) x.(ex_allowed))
  | step_pending :
      0 < x.(ex_inflight) →
      brk_step x EvPending
        (mk_exec (RecordPending x.(ex_cb)) x.(ex_now) (x.(ex_inflight) - 1) x.(ex_allowed))
  | step_success clk :
      monotone clk → x.(ex_now) ≤ clk 0%nat → 0 < x.(ex_inflight) →
      brk_step x EvSuccess
        (mk_exec (RecordSuccess clk x.(ex_cb)) (clk 4%nat) (x.(ex_inflight) - 1)
           x.(ex_allowed))
  | step_failure clk nc r e :
      monotone clk → x.(ex_now) ≤ clk 0%nat → 0 < x.(ex_inflight) →
      brk_step x (EvFailure e)
        (mk_exec (RecordFailure clk nc r e x.(ex_cb)) (clk 4%nat) (x.(ex_inflight) - 1)
           x.(ex_allowed)).

Definition new_exec (cfg : CircuitBreakerConfig) (t : Z) : exec :=
  mk_exec (NewCircuitBreaker (Some cfg) t) t 0 [].

(** *** The counters *)
Record counters_inv (cfg : CircuitBreakerConfig) (x : exec) : Prop := {
  ci_config : x.(ex_cb).(config) = cfg;
  ci_enabled : x.(ex_cb).(enabled) = true;
  ci_inflight : x.(ex_cb).(concurrentInstances) = x.(ex_inflight);
  ci_concurrent : 0 ≤ x.(ex_inflight) ≤ Z.max 0 cfg.(MaxConcurrentInstances);
  ci_halfopen : 0 ≤ x.(ex_cb).(halfOpenRequests) ≤ Z.max 1 cfg.(HalfOpenMaxRequests);
  ci_halfopen_only :
    x.(ex_cb).(state) ≠ CircuitBreakerHalfOpen → x.(ex_cb).(halfOpenRequests) = 0;
}.

Lemma counters_inv_new cfg t : counters_inv cfg (new_exec cfg t).
Proof. split; simpl; done || lia. Qed.

Lemma counters_allow cfg x clk cb' a :
  counters_inv cfg x → CanProvision clk x.(ex_cb) = (cb', None) →
  counters_inv cfg (mk_exec cb' (clk 4%nat) (x.(ex_inflight) + 1) a).
Proof.
  intros [Hc He Hi Hn Hh Ho] Hcp.
  apply CanProvision_admit in Hcp as (cb1 & Hg & -> & _ & Hmax); [|done].
  apply state_gate_inl in Hg as [(-> & Hs & Hlt)|(Hs & -> & _)];
    autorewrite with breaker_rw in *; unfold admit_one;
    split; repeat case_decide; simplify_eq/=; autorewrite with breaker_rw in *;
    try done; try lia; try (specialize (Hlt eq_refl)); try naive_solver lia.
Qed.

Lemma counters_refuse cfg x clk cb' e a :
  counters_inv cfg x → CanProvision clk x.(ex_cb) = (cb', Some e) →
  counters_inv cfg (mk_exec cb' (clk 4%nat) x.(ex_inflight) a).
Proof.
  intros [Hc He Hi Hn Hh Ho] [->|(Hs & _ & ->)]%CanProvision_deny;
    split; simpl; autorewrite with breaker_rw; try done; try lia.
Qed.

Lemma counters_inv_step cfg x ev y :
  counters_inv cfg x → brk_step x ev y → counters_inv cfg y.
Proof.
  intros Hx Hs. destruct Hs; [by eapply counters_allow|by eapply counters_refuse|..];
    destruct Hx as [Hc He Hi Hn Hh Ho]; split; simpl;
    unfold RecordPending, RecordSuccess, RecordFailure, release, transitionToOpen,
      transitionToClosed;
    repeat case_match; simplify_eq/=; bool_to_prop;
    try done; try lia; try congruence; naive_solver lia.
Qed.
End executions.

(** ** The minute window *)

(** Allowances charged to the minute that starts at [e]. *)
Definition charged (e : Z) (l : list (Z * Z)) : list (Z * Z) :=
  List.filter (λ p, p.2 =? e) l.

(** Allowances made in the minute that starts at [t]. *)
Definition in_minute (t : Z) (l : list (Z * Z)) : list (Z * Z) :=
  List.filter (λ p, (t <=? p.1) && (p.1 <? t + Minute)) l.

(** The minutes the allowances are charged to are a minute apart, so any sixty seconds
    meet at most two of them. *)
Lemma two_minutes l t cap :
  (∀ e, Z.of_nat (length (charged e l)) ≤ cap) →
  (∀ p, p ∈ l → p.2 ≤ p.1 < p.2 + Minute) →
  (∀ p q, p ∈ l → q ∈ l → p.2 = q.2 ∨ p.2 + Minute ≤ q.2 ∨ q.2 + Minute ≤ p.2) →
  Z.of_nat (length (in_minute t l)) ≤ 2 * cap.
Proof.
  intros Hcap Hspan Hgap.
  assert (Hsub : ∀ e1 e2 k, k `sublist_of` l → (∀ p, p ∈ k → p.2 = e1 ∨ p.2 = e2) →
    Z.of_nat (length k) ≤ 2 * cap).
  { intros e1 e2 k Hk Hin.
    assert (length k ≤ length (charged e1 l) + length (charged e2 l))%nat as Hlen.
    { clear -Hk Hin. induction Hk as [|p k' l' Hk IH|p k' l' Hk IH]; simpl; [lia|..].
      - specialize (IH ltac:(intros q Hq; apply Hin; by right)).
        destruct (Hin p ltac:(by left)) as [->| ->]; rewrite Z.eqb_refl;
          simpl; repeat case_match; simpl; lia.
      - specialize (IH Hin). repeat case_match; simpl; lia. }
    pose proof (Hcap e1). pose proof (Hcap e2). lia. }
  set (w := in_minute t l).
  assert (w `sublist_of` l) as Hw.
  { subst w. unfold in_minute. clear. induction l as [|a l IH]; simpl; [constructor|].
    case_match; by constructor. }
  assert (Hwin : ∀ p, p ∈ w → p ∈ l ∧ t ≤ p.1 < t + Minute).
  { intros p Hp. subst w. apply list_elem_of_In, filter_In in Hp as [Hp Hb].
    split; [by apply list_elem_of_In|lia]. }
  clearbody w. destruct w as [|p w']; [simpl; specialize (Hcap 0); lia|].
  destruct (List.find (λ q, negb (q.2 =? p.2)) w') as [q|] eqn:Ef.
  - apply find_some in Ef as [Hq Hne%negb_true_iff%Z.eqb_neq].
    apply list_elem_of_In in Hq.
    apply (Hsub p.2 q.2); [done|]. intros r Hr.
    destruct (Hwin p ltac:(by left)) as [Hpl Hpt].
    destruct (Hwin q ltac:(by right)) as [Hql Hqt]. destruct (Hwin r Hr) as [Hrl Hrt].
    pose proof (Hspan p Hpl). pose proof (Hspan q Hql). pose proof (Hspan r Hrl).
    pose proof (Hgap p q Hpl Hql). pose proof (Hgap p r Hpl Hrl).
    pose proof (Hgap q r Hql Hrl). lia.
  - apply (Hsub p.2 p.2); [done|]. intros r [->|Hr]%elem_of_cons; [by left|].
    apply find_None_Forall in Ef. rewrite Forall_forall in Ef.
    apply Ef, negb_false_iff, Z.eqb_eq in Hr. by left.
Qed.

Section window.
Context `{MapRange}.

Record window_inv (cfg : CircuitBreakerConfig) (x : exec) : Prop := {
  wi_config : x.(ex_cb).(config) = cfg;
  wi_enabled : x.(ex_cb).(enabled) = true;
  wi_count : Z.of_nat (length (charged x.(ex_cb).(lastMinuteReset) x.(ex_allowed)))
               = x.(ex_cb).(instancesThisMinute);
  wi_cap : ∀ e, Z.of_nat (length (charged e x.(ex_allowed)))
                  ≤ Z.max 0 cfg.(RateLimitPerMinute);
  wi_now : x.(ex_cb).(lastMinuteReset) ≤ x.(ex_now);
  wi_span : ∀ p, p ∈ x.(ex_allowed) → p.2 ≤ p.1 < p.2 + Minute;
  wi_old : ∀ p, p ∈ x.(ex_allowed) →
     p.2 = x.(ex_cb).(lastMinuteReset) ∨ p.2 + Minute ≤ x.(ex_cb).(lastMinuteReset);
  wi_gap : ∀ p q, p ∈ x.(ex_allowed) → q ∈ x.(ex_allowed) →
     p.2 = q.2 ∨ p.2 + Minute ≤ q.2 ∨ q.2 + Minute ≤ p.2;
}.

Lemma window_inv_new cfg t : window_inv cfg (new_exec cfg t).
Proof.
  split; simpl; try done; try (intros; lia); intros; set_solver.
Qed.

(** [x] with its minute counter brought up to the reading [t]. *)
Definition refreshed (t : Z) (x : exec) : exec :=
  mk_exec (resetCountersIfNeeded t x.(ex_cb)) t x.(ex_inflight) x.(ex_allowed).

Lemma charged_nil e l : (∀ p, p ∈ l → p.2 ≠ e) → charged e l = [].
Proof.
  intros Hl. apply filter_bool_nil, Forall_forall. intros p Hp. by apply Z.eqb_neq, Hl.
Qed.

Lemma window_refresh cfg x t :
  window_inv cfg x → x.(ex_now) ≤ t →
  window_inv cfg (refreshed t x) ∧
  t < (refreshed t x).(ex_cb).(lastMinuteReset) + Minute.
Proof.
  intros [Hc He Hn Hcap Hnow Hsp Hold Hgap] Ht.
  destruct (reset_epoch t x.(ex_cb)) as [[Eq Hlt]|(El & E0 & Hge)].
  - split; [|simpl; rewrite Eq; lia]. split; simpl; rewrite ?Eq; try done; lia.
  - split; [|simpl; unfold Minute, Second, Millisecond; lia].
    split; simpl; rewrite ?El, ?E0; autorewrite with breaker_rw; try done; try lia.
    + rewrite charged_nil; [done|]. intros p Hp.
      destruct (Hold p Hp); unfold Minute, Second, Millisecond in *; lia.
    + intros p Hp. right. destruct (Hold p Hp);
        unfold Minute, Second, Millisecond in *; lia.
Qed.

(** The fields the minute window depends on. *)
Definition same_window (c1 c2 : CircuitBreaker) : Prop :=
  c1.(config) = c2.(config) ∧ c1.(enabled) = c2.(enabled) ∧
  c1.(lastMinuteReset) = c2.(lastMinuteReset) ∧
  c1.(instancesThisMinute) = c2.(instancesThisMinute).

Lemma window_same cfg x cb' now' n :
  window_inv cfg x → same_window cb' x.(ex_cb) → x.(ex_now) ≤ now' →
  window_inv cfg (mk_exec cb' now' n x.(ex_allowed)).
Proof.
  intros [Hc He Hn Hcap Hnow Hsp Hold Hgap] (E1 & E2 & E3 & E4) Hle.
  split; simpl; rewrite ?E1, ?E2, ?E3, ?E4; try done; lia.
Qed.

Lemma window_charge cfg x cb1 n now' :
  window_inv cfg x → same_window cb1 x.(ex_cb) → x.(ex_now) ≤ now' →
  x.(ex_now) < x.(ex_cb).(lastMinuteReset) + Minute →
  cb1.(instancesThisMinute) < cb1.(config).(RateLimitPerMinute) →
  window_inv cfg (mk_exec (admit_one cb1) now' n
    ((x.(ex_now), (admit_one cb1).(lastMinuteReset)) :: x.(ex_allowed))).
Proof.
  intros [Hc He Hn Hcap Hnow Hsp Hold Hgap] (E1 & E2 & E3 & E4) Hle Hlt Hroom.
  assert ((admit_one cb1).(lastMinuteReset) = x.(ex_cb).(lastMinuteReset)) as El.
  { unfold admit_one. by case_match. }
  assert ((admit_one cb1).(instancesThisMinute) = x.(ex_cb).(instancesThisMinute) + 1) as Ei.
  { unfold admit_one. case_match; simpl; lia. }
  rewrite E1, Hc, E4 in Hroom.
  split; simpl; rewrite ?El, ?Ei; try lia.
  - rewrite <-Hc, <-E1. unfold admit_one. by case_match.
  - rewrite <-He, <-E2. unfold admit_one. by case_match.
  - rewrite Z.eqb_refl. simpl. lia.
  - intros e. specialize (Hcap e). case_match; [|done].
    apply Z.eqb_eq in H0 as <-. simpl. lia.
  - intros p [->|Hp]%elem_of_cons; [simpl; lia|auto].
  - intros p [->|Hp]%elem_of_cons; [by left|auto].
  - intros p q [->|Hp]%elem_of_cons [->|Hq]%elem_of_cons; simpl; auto.
    + destruct (Hold q Hq); lia.
    + destruct (Hold p Hp); lia.
Qed.

Lemma state_gate_window clk cb cb1 :
  state_gate clk cb = inl cb1 → same_window cb1 cb.
Proof.
  intros [(-> & _)|(_ & -> & _)]%state_gate_inl; unfold same_window; done.
Qed.

Lemma record_window clk nc r e cb :
  same_window (RecordPending cb) cb ∧ same_window (RecordSuccess clk cb) cb ∧
  same_window (RecordFailure clk nc r e cb) cb.
Proof.
  unfold same_window, RecordPending, RecordSuccess, RecordFailure, release.
  repeat case_match; done.
Qed.

Lemma window_inv_step cfg x ev y :
  window_inv cfg x → brk_step x ev y → window_inv cfg y.
Proof.
  intros Hx Hs. destruct Hs as [clk cb' Hm Ht Hcp|clk cb' e Hm Ht Hcp| |clk Hm Ht|clk nc r e Hm Ht];
    try (assert (clk 0%nat ≤ clk 4%nat) by (apply Hm; lia)).
  - destruct (window_refresh cfg x _ Hx Ht) as [Hr Hlt].
    apply CanProvision_admit in Hcp as (cb1 & Hg & -> & Hroom & _); [|apply Hx].
    by eapply (window_charge _ _ _ _ _ Hr); [eapply state_gate_window|..].
  - destruct (window_refresh cfg x _ Hx Ht) as [Hr Hlt].
    apply CanProvision_deny in Hcp as [->|(_ & _ & ->)];
      by apply (window_same _ _ _ _ _ Hr).
  - apply (window_same _ x); [done|apply (record_window (frozen 0) "" "" "")|done].
  - apply (window_same _ x); [done|apply (record_window clk "" "" "")|lia].
  - apply (window_same _ x); [done|apply (record_window clk)|lia].
Qed.
End window.

(** ** The specification: a three-state machine

    [spec_step] is what a circuit breaker promises, with no counters: a state and the
    time it was entered.  Nothing is allowed while OPEN until the recovery timeout has
    passed; a probe's success closes it and any failure during the probe reopens it. *)
Inductive spec_step (cfg : CircuitBreakerConfig) :
    CircuitBreakerState * Z → event → CircuitBreakerState * Z → Prop :=
  | sp_allow s t : s ≠ CircuitBreakerOpen → spec_step cfg (s, t) EvAllow (s, t)
  | sp_probe t t' :
      t + cfg.(RecoveryTimeout) ≤ t' →
      spec_step cfg (CircuitBreakerOpen, t) EvAllow (CircuitBreakerHalfOpen, t')
  | sp_refuse s t e : spec_step cfg (s, t) (EvRefuse e) (s, t)
  | sp_probe_limited t t' e :
      t + cfg.(RecoveryTimeout) ≤ t' →
      spec_step cfg (CircuitBreakerOpen, t) (EvRefuse e) (CircuitBreakerHalfOpen, t')
  | sp_pending s t : spec_step cfg (s, t) EvPending (s, t)
  | sp_close t t' :
      spec_step cfg (CircuitBreakerHalfOpen, t) EvSuccess (CircuitBreakerClosed, t')
  | sp_success s t : s ≠ CircuitBreakerHalfOpen → spec_step cfg (s, t) EvSuccess (s, t)
  | sp_open s t t' e :
      s ≠ CircuitBreakerOpen →
      spec_step cfg (s, t) (EvFailure e) (CircuitBreakerOpen, t')
  | sp_failure s t e :
      s ≠ CircuitBreakerHalfOpen → spec_step cfg (s, t) (EvFailure e) (s, t).

(** The abstraction function. *)
Definition abs (x : exec) : CircuitBreakerState * Z :=
  (x.(ex_cb).(state), x.(ex_cb).(lastStateChange)).

(** Instances allowed and not yet recorded, read off the events. *)
Fixpoint inflight_of (evs : list event) : Z :=
  match evs with
  | [] => 0
  | EvAllow :: l => 1 + inflight_of l
  | EvRefuse _ :: l => inflight_of l
  | _ :: l => inflight_of l - 1
  end.

Section simulation.
Context `{MapRange}.

Lemma Sub_reached d t u : 0 ≤ d → d ≤ Sub t u → u + d ≤ t.
Proof. unfold Sub, min_duration, max_duration. lia. Qed.

Lemma RecordFailure_state clk nc r e cb :
  cb.(enabled) = true →
  let cb' := RecordFailure clk nc r e cb in
  (cb.(state) ≠ CircuitBreakerOpen ∧ cb'.(state) = CircuitBreakerOpen) ∨
  (cb.(state) ≠ CircuitBreakerHalfOpen ∧ cb'.(state) = cb.(state) ∧
   cb'.(lastStateChange) = cb.(lastStateChange)).
Proof.
  intros Hen. unfold RecordFailure, release, transitionToOpen. rewrite Hen. simpl.
  repeat case_match; simpl in *; destruct (state cb); naive_solver.
Qed.

Lemma probe_success clk cb :
  cb.(enabled) = true → cb.(state) = CircuitBreakerHalfOpen →
  (RecordSuccess clk cb).(state) = CircuitBreakerClosed.
Proof.
  intros Hen Hs. unfold RecordSuccess, release. rewrite Hen. simpl.
  repeat case_match; simpl in *; congruence.
Qed.

Lemma probe_failure clk nc r e cb :
  cb.(enabled) = true → cb.(state) = CircuitBreakerHalfOpen →
  (RecordFailure clk nc r e cb).(state) = CircuitBreakerOpen.
Proof.
  intros Hen Hs. destruct (RecordFailure_state clk nc r e cb Hen) as [[_ ?]|[? _]];
    [done|congruence].
Qed.

Lemma simulation_step cfg x ev y :
  0 ≤ cfg.(RecoveryTimeout) → counters_inv cfg x →
  brk_step x ev y → spec_step cfg (abs x) ev (abs y).
Proof.
  intros Hcfg Hx Hs. pose proof (ci_enabled _ _ Hx) as Hen.
  pose proof (ci_config _ _ Hx) as Hc. unfold abs.
  destruct Hs as [clk cb' Hm Ht Hcp|clk cb' e Hm Ht Hcp| |clk Hm Ht|clk nc r e Hm Ht]; simpl.
  - apply CanProvision_admit in Hcp as (cb1 & Hg & -> & _); [|done].
    assert ((admit_one cb1).(state) = cb1.(state) ∧
            (admit_one cb1).(lastStateChange) = cb1.(lastStateChange)) as [-> ->]
      by (unfold admit_one; by case_match).
    apply state_gate_inl in Hg as [(-> & Hne & _)|(Hs & -> & Hr)];
      autorewrite with breaker_rw in *; [by constructor|].
    rewrite Hs. simpl. constructor. rewrite Hc in Hr.
    apply Sub_reached in Hr; [|done]. specialize (Hm 1%nat 2%nat). lia.
  - apply CanProvision_deny in Hcp as [->|(Hs & Hr & ->)];
      autorewrite with breaker_rw; [constructor|].
    rewrite Hs. simpl. constructor. rewrite Hc in Hr.
    apply Sub_reached in Hr; [|done]. specialize (Hm 1%nat 2%nat). lia.
  - unfold RecordPending, release. repeat case_match; constructor.
  - unfold RecordSuccess, release. rewrite Hen. simpl.
    repeat case_match; simpl in *; simplify_eq; try by constructor.
    all: match goal with E : state _ = _ |- _ => rewrite E end; constructor.
  - destruct (RecordFailure_state clk nc r e x.(ex_cb) Hen) as [[Hne ->]|(Hne & -> & ->)];
      by constructor.
Qed.

(** Along an execution both invariants hold and the specification follows. *)
Lemma execution_inv cfg t evs x :
  0 ≤ cfg.(RecoveryTimeout) → steps brk_step (new_exec cfg t) evs x →
  counters_inv cfg x ∧ window_inv cfg x ∧
  steps (spec_step cfg) (CircuitBreakerClosed, t) evs (abs x).
Proof.
  intros Hcfg. change (CircuitBreakerClosed, t) with (abs (new_exec cfg t)).
  generalize (counters_inv_new cfg t) (window_inv_new cfg t).
  generalize (new_exec cfg t). intros x0 Hc Hw Hs.
  induction Hs as [x0|x0 l x1 ls x2 H1 H2 IH]; [split_and!; [done..|constructor]|].
  destruct (IH (counters_inv_step _ _ _ _ Hc H1) (window_inv_step _ _ _ _ Hw H1))
    as (? & ? & ?).
  split_and!; [done..|]. econstructor; [|done]. by eapply simulation_step.
Qed.

Lemma step_inflight x ev y :
  brk_step x ev y → y.(ex_inflight) = x.(ex_inflight) + inflight_of [ev].
Proof. destruct 1; simpl; lia. Qed.

Lemma steps_inflight x evs y :
  steps brk_step x evs y → y.(ex_inflight) = x.(ex_inflight) + inflight_of evs.
Proof.
  induction 1 as [x|x ev y evs z H1 H2 IH]; simpl; [lia|].
  rewrite IH, (step_inflight _ _ _ H1). destruct ev; simpl; lia.
Qed.
End simulation.

(** ** Failures within the window *)
Definition failures_since (t : Z) (cb : CircuitBreaker) : nat :=
  length (List.filter (λ f, t <=? f.(Timestamp)) cb.(failures)).

(** A run of failures, each with the clock of its [RecordFailure] call. *)
Fixpoint fail_all `{MapRange} (nc r : string) (fs : list (clock * string))
    (cb : CircuitBreaker) : CircuitBreaker :=
  match fs with
  | [] => cb
  | (clk, e) :: fs => fail_all nc r fs (RecordFailure clk nc r e cb)
  end.

Section failures.
Context `{MapRange}.

Lemma filter_and {A} (f g : A → bool) l :
  (∀ x, f x = true → g x = true) → List.filter f (List.filter g l) = List.filter f l.
Proof.
  intros Hfg. induction l as [|a l IH]; simpl; [done|].
  destruct (g a) eqn:Eg; simpl; [by rewrite IH|].
  destruct (f a) eqn:Ef; [|done]. by rewrite (Hfg _ Ef) in Eg.
Qed.

Lemma filter_length_mono {A} (f g : A → bool) l :
  (∀ x, f x = true → g x = true) →
  (length (List.filter f l) ≤ length (List.filter g l))%nat.
Proof.
  intros Hfg. induction l as [|a l IH]; simpl; [lia|].
  destruct (f a) eqn:Ef; [rewrite (Hfg _ Ef); simpl; lia|]. case_match; simpl; lia.
Qed.

Lemma since_recent cb t t0 f :
  t < t0 + cb.(config).(FailureWindow) →
  (t0 <=? f.(Timestamp)) = true → recent cb t f = true.
Proof. unfold recent, After, Add. lia. Qed.

Lemma fail_step clk nc r e cb t0 :
  cb.(enabled) = true →
  (∀ i, (i ≤ 2)%nat → t0 ≤ clk i < t0 + cb.(config).(FailureWindow)) →
  let cb' := RecordFailure clk nc r e cb in
  failures_since t0 cb' = S (failures_since t0 cb) ∧
  (cb.(config).(FailureThreshold) ≤ Z.of_nat (failures_since t0 cb') →
   cb'.(state) = CircuitBreakerOpen).
Proof.
  intros Hen Hclk cb'.
  assert (failures_since t0 cb' = S (failures_since t0 cb)) as Hs.
  { subst cb'. unfold RecordFailure. rewrite Hen. cbn [negb].
    set (cb2 := cleanOldFailures _ _).
    assert (failures_since t0 cb2 = S (failures_since t0 cb)) as <-.
    { subst cb2. unfold failures_since, cleanOldFailures, release. simpl.
      rewrite filter_and.
      - case_match; simpl; rewrite List.filter_app, length_app; simpl;
          specialize (Hclk 0%nat); case_match; simpl; lia.
      - intros f Hf. eapply since_recent; [|done].
        specialize (Hclk 1%nat). case_match; simpl; lia. }
    unfold transitionToOpen. by repeat case_match. }
  split; [done|]. rewrite Hs. intros Hth. subst cb'.
  unfold RecordFailure. rewrite Hen. cbn [negb].
  set (cb2 := cleanOldFailures _ _).
  assert (failures_since t0 cb2 = S (failures_since t0 cb)) as Hs2.
  { rewrite <-Hs. subst cb2. unfold RecordFailure. rewrite Hen. cbn [negb].
    unfold transitionToOpen. by repeat case_match. }
  assert (config cb2 = config cb) as Ec by (subst cb2; unfold release; by case_match).
  rewrite Ec. destruct (_ <=? _) eqn:E.
  - case_match; [done|]. destruct (state cb2) eqn:Es; naive_solver.
  - exfalso. apply Z.leb_gt in E. unfold countRecentFailures in E.
    pose proof (filter_length_mono (λ f, t0 <=? f.(Timestamp)) (recent cb2 (clk 2%nat))
      cb2.(failures)) as Hm.
    unfold failures_since in Hs2. rewrite Hs2 in Hm.
    specialize (Hclk 2%nat). unfold failures_since in *.
    assert (∀ x, (t0 <=? x.(Timestamp)) = true → recent cb2 (clk 2%nat) x = true) as Hr.
    { intros f. apply since_recent. rewrite Ec. lia. }
    specialize (Hm Hr). lia.
Qed.

Lemma fail_all_open nc r fs cb t0 :
  cb.(enabled) = true → fs ≠ [] →
  (∀ clk e i, (clk, e) ∈ fs → (i ≤ 2)%nat →
     t0 ≤ clk i < t0 + cb.(config).(FailureWindow)) →
  cb.(config).(FailureThreshold) ≤ Z.of_nat (failures_since t0 cb + length fs) →
  (fail_all nc r fs cb).(state) = CircuitBreakerOpen.
Proof.
  revert cb. induction fs as [|[clk e] fs IH]; intros cb Hen Hne Hclk Hth; [done|].
  simpl. destruct (fail_step clk nc r e cb t0 Hen) as [Hs Ho].
  { intros i. apply (Hclk clk e). by left. }
  destruct (RecordFailure_const clk nc r e cb) as [Ec Ee].
  destruct fs as [|p fs]; [simpl in *; apply Ho; lia|].
  apply IH; rewrite ?Ec, ?Ee; try done.
  - intros clk' e' i Hin. apply (Hclk clk' e'). by right.
  - rewrite Hs. simpl in *. lia.
Qed.

(** *** The failure summary *)
Lemma group_add_not_nil k f gs : group_add k f gs ≠ [].
Proof. destruct gs as [|[k' fs] gs]; simpl; [done|by case_match]. Qed.

Lemma errorGroups_nil fs : errorGroups fs = [] ↔ fs = [].
Proof.
  split; [|by intros ->]. unfold errorGroups.
  destruct fs as [|f fs] using rev_ind; [done|].
  rewrite fold_left_app. simpl. intros Hg. by apply group_add_not_nil in Hg.
Qed.

Definition groups_full (gs : list (string * list FailureRecord)) : Prop :=
  Forall (λ g, g.2 ≠ []) gs.

Lemma group_add_full k f gs : groups_full gs → groups_full (group_add k f gs).
Proof.
  induction 1 as [|[k' fs] gs Hg Hgs IH]; simpl; [by repeat constructor|].
  case_match; constructor; simpl in *; try done. by destruct fs.
Qed.

Lemma errorGroups_full fs : groups_full (errorGroups fs).
Proof.
  unfold errorGroups. assert (groups_full []) as Hn by constructor. revert Hn.
  generalize (@nil (string * list FailureRecord)).
  induction fs as [|f fs IH]; intros gs Hgs; simpl; [done|].
  apply IH. by apply group_add_full.
Qed.

Lemma group_line_one g : g.2 ≠ [] → ∃ l, group_line g = [l].
Proof. destruct g as [k [|f fs]]; [done|]. intros _. cbn [group_line].
  destruct (Strings.Index _ _); destruct (_ =? 1); eauto.
Qed.

Lemma group_lines_length gs :
  groups_full gs → length (List.concat (map group_line gs)) = length gs.
Proof.
  induction 1 as [|g gs Hg Hgs IH]; simpl; [done|].
  destruct (group_line_one g Hg) as [l ->]. simpl. by rewrite IH.
Qed.

Lemma summary_empty now cb :
  getRecentFailuresSummary now cb = "" ↔ countRecentFailures now cb = 0.
Proof.
  unfold getRecentFailuresSummary, countRecentFailures.
  set (fs := List.filter (recent cb now) cb.(failures)).
  assert (length (List.concat (map group_line (map_range (errorGroups fs))))
          = length (errorGroups fs)) as Hlen.
  { rewrite group_lines_length; [apply map_range_length|].
    apply Forall_forall. intros g Hg. rewrite map_range_elem_of in Hg.
    pose proof (errorGroups_full fs) as Hf. unfold groups_full in Hf.
    rewrite Forall_forall in Hf. exact (Hf g Hg). }
  destruct (List.concat _) as [|l ls] eqn:El; simpl in Hlen.
  - simpl. split; [intros _|done].
    symmetry in Hlen. apply length_zero_iff_nil, errorGroups_nil in Hlen.
    by rewrite Hlen.
  - split.
    + by destruct (3 <? _).
    + intros Hz. assert (fs = []) as E by (apply length_zero_iff_nil; lia).
      by rewrite E in Hlen.
Qed.
End failures.

(** ** Properties *)
Section properties.
Context `{MapRange}.

(** In every execution of a new breaker, [concurrentInstances] is exactly the
    number of instances that were allowed and not yet recorded, it stays between 0 and
    [MaxConcurrentInstances], and at most [HalfOpenMaxRequests] probes (one when that
    limit is below one) are outstanding while the breaker is half open. *)
Theorem breaker_bounds_inflight cfg t evs x
    (Hcfg : 0 ≤ cfg.(RecoveryTimeout))
    (Hrun : steps brk_step (new_exec cfg t) evs x) :
  x.(ex_cb).(concurrentInstances) = inflight_of evs ∧
  0 ≤ inflight_of evs ≤ Z.max 0 cfg.(MaxConcurrentInstances) ∧
  0 ≤ x.(ex_cb).(halfOpenRequests) ≤ Z.max 1 cfg.(HalfOpenMaxRequests) ∧
  (x.(ex_cb).(state) ≠ CircuitBreakerHalfOpen → x.(ex_cb).(halfOpenRequests) = 0).
Proof.
  destruct (execution_inv _ _ _ _ Hcfg Hrun) as ([] & _ & _).
  apply steps_inflight in Hrun.
  assert (x.(ex_inflight) = inflight_of evs) as <- by (simpl in Hrun; lia). auto.
Qed.

(** C29. The breaker refines its three-state specification: the states an execution
    goes through, with the times they are entered, are a run of [spec_step] with the
    same outcomes.  So nothing is allowed while the breaker is OPEN before the recovery
    timeout, only a probe's success closes it, and a failed probe reopens it. *)
Theorem breaker_refines_spec cfg t evs x
    (Hcfg : 0 ≤ cfg.(RecoveryTimeout))
    (Hrun : steps brk_step (new_exec cfg t) evs x) :
  steps (spec_step cfg) (CircuitBreakerClosed, t) evs (abs x).
Proof. by destruct (execution_inv _ _ _ _ Hcfg Hrun) as (_ & _ & ?). Qed.

(** C36. In every execution, whatever sixty seconds are looked at, at most twice
    [RateLimitPerMinute] instances were allowed in them. *)
Theorem breaker_rate_bound cfg t evs x from
    (Hcfg : 0 ≤ cfg.(RecoveryTimeout))
    (Hrun : steps brk_step (new_exec cfg t) evs x) :
  Z.of_nat (length (in_minute from x.(ex_allowed)))
    ≤ 2 * Z.max 0 cfg.(RateLimitPerMinute).
Proof.
  destruct (execution_inv _ _ _ _ Hcfg Hrun) as (_ & [] & _).
  by apply two_minutes.
Qed.

(** The factor two is attained: with the default limit of two per minute there is
    an execution that allows four instances within one second, because the counter is
    reset at fixed minutes and not per instance. *)
Theorem breaker_rate_burst :
  ∃ evs x, steps brk_step (new_exec DefaultCircuitBreakerConfig 0) evs x ∧
    length (in_minute (59 * Second) x.(ex_allowed)) = 4%nat ∧
    Forall (λ p, 59 * Second ≤ p.1 ≤ 60 * Second) x.(ex_allowed).
Proof.
  eexists _, _. split.
  - eapply steps_cons; [eapply (step_allow _ (frozen (59 * Second)));
      [apply frozen_monotone|done|reflexivity]|].
    eapply steps_cons; [eapply (step_allow _ (frozen (59 * Second)));
      [apply frozen_monotone|done|reflexivity]|].
    eapply steps_cons; [eapply (step_allow _ (frozen (60 * Second)));
      [apply frozen_monotone|done|reflexivity]|].
    eapply steps_cons; [eapply (step_allow _ (frozen (60 * Second)));
      [apply frozen_monotone|done|reflexivity]|].
    apply steps_nil.
  - split; [reflexivity|]. repeat constructor; done.
Qed.

(** While an enabled breaker is OPEN and the recovery timeout has not elapsed,
    every request is refused with the OPEN error, which announces exactly the time that
    is left, and nothing but the minute counter changes. *)
Theorem open_refuses clk cb
    (Hen : cb.(enabled) = true) (Hs : cb.(state) = CircuitBreakerOpen)
    (Ht : Sub (clk 1%nat) cb.(lastStateChange) < cb.(config).(RecoveryTimeout)) :
  ∃ msg, CanProvision clk cb =
    (resetCountersIfNeeded (clk 0%nat) cb,
     Some (CircuitBreakerError CircuitBreakerOpen msg
             (cb.(config).(RecoveryTimeout) - Sub (clk 1%nat) cb.(lastStateChange)))) ∧
    0 < cb.(config).(RecoveryTimeout) - Sub (clk 1%nat) cb.(lastStateChange).
Proof.
  unfold CanProvision, state_gate. autorewrite with breaker_rw. rewrite Hen, Hs. simpl.
  destruct (_ <=? _) eqn:E; [lia|]. eexists. split; [reflexivity|lia].
Qed.

(** Recovery: once the timeout has elapsed an OPEN breaker with room under both
    limits allows the request as its first probe; recording that probe's success then
    closes the breaker, and recording its failure opens it again. *)
Theorem open_recovers clk cb
    (Hen : cb.(enabled) = true) (Hs : cb.(state) = CircuitBreakerOpen)
    (Ht : cb.(config).(RecoveryTimeout) ≤ Sub (clk 1%nat) cb.(lastStateChange))
    (Hrate : (resetCountersIfNeeded (clk 0%nat) cb).(instancesThisMinute)
               < cb.(config).(RateLimitPerMinute))
    (Hmax : cb.(concurrentInstances) < cb.(config).(MaxConcurrentInstances)) :
  ∃ cb', CanProvision clk cb = (cb', None) ∧
    cb'.(state) = CircuitBreakerHalfOpen ∧ cb'.(halfOpenRequests) = 1 ∧
    (∀ clk', (RecordSuccess clk' cb').(state) = CircuitBreakerClosed) ∧
    (∀ clk' nc r e, (RecordFailure clk' nc r e cb').(state) = CircuitBreakerOpen).
Proof.
  unfold CanProvision, state_gate, limit_gate. autorewrite with breaker_rw.
  rewrite Hen, Hs. simpl. autorewrite with breaker_rw.
  destruct (_ <=? _) eqn:E1; [|lia]. simpl. autorewrite with breaker_rw.
  destruct (RateLimitPerMinute _ <=? _) eqn:E2; [lia|].
  destruct (MaxConcurrentInstances _ <=? _) eqn:E3; [lia|].
  eexists. split; [reflexivity|]. split_and!; [done|done|..]; intros.
  - apply probe_success; simpl; by autorewrite with breaker_rw.
  - apply probe_failure; simpl; by autorewrite with breaker_rw.
Qed.

(** Tripping: after as many failures as [FailureThreshold], all recorded within
    [FailureWindow], an enabled breaker is OPEN, whatever its state and history. *)
Theorem threshold_trips nc r (fs : list (clock * string)) cb t0
    (Hen : cb.(enabled) = true) (Hne : fs ≠ [])
    (Hin : ∀ clk e i, (clk, e) ∈ fs → (i ≤ 2)%nat →
       t0 ≤ clk i < t0 + cb.(config).(FailureWindow))
    (Hth : cb.(config).(FailureThreshold) ≤ Z.of_nat (length fs)) :
  (fail_all nc r fs cb).(state) = CircuitBreakerOpen.
Proof. apply (fail_all_open _ _ _ _ t0); [done|done|exact Hin|lia]. Qed.

(** The summary put into the OPEN error is empty exactly when no failure is recent,
    in whatever order the error groups are visited. *)
Theorem failure_summary_empty now cb :
  getRecentFailuresSummary now cb = "" ↔ countRecentFailures now cb = 0.
Proof. apply summary_empty. Qed.
End properties.

(** ** Witnesses *)
Definition demo_cfg : CircuitBreakerConfig := DefaultCircuitBreakerConfig.

(** One allowance at time 0 and one at 30 s, the first recorded as a success. *)
Definition demo_events : list event := [EvAllow; EvAllow; EvSuccess].

Lemma demo_run : ∃ x, steps brk_step (new_exec demo_cfg 0) demo_events x.
Proof.
  eexists.
  eapply steps_cons; [eapply (step_allow _ (frozen 0));
    [apply frozen_monotone|done|reflexivity]|].
  eapply steps_cons; [eapply (step_allow _ (frozen (30 * Second)));
    [apply frozen_monotone|done|reflexivity]|].
  eapply steps_cons; [eapply (step_success _ (frozen (31 * Second)));
    [apply frozen_monotone|done|done]|].
  apply steps_nil.
Qed.

Definition demo_open : CircuitBreaker :=
  set_state CircuitBreakerOpen 0 (NewCircuitBreaker (Some demo_cfg) 0).

Lemma breaker_bounds_inflight_witness :
  ∃ x, x.(ex_cb).(concurrentInstances) = 1 ∧ inflight_of demo_events = 1.
Proof.
  destruct demo_run as [x Hx]. exists x.
  destruct (breaker_bounds_inflight demo_cfg 0 demo_events x ltac:(done) Hx) as [E _].
  split; [exact E|reflexivity].
Defined.

Lemma breaker_refines_spec_witness :
  ∃ x, steps (spec_step demo_cfg) (CircuitBreakerClosed, 0) demo_events (abs x).
Proof.
  destruct demo_run as [x Hx]. exists x.
  exact (breaker_refines_spec demo_cfg 0 demo_events x ltac:(done) Hx).
Defined.

Lemma breaker_rate_bound_witness :
  ∃ x, Z.of_nat (length (in_minute 0 x.(ex_allowed))) ≤ 4.
Proof.
  destruct demo_run as [x Hx]. exists x.
  exact (breaker_rate_bound demo_cfg 0 demo_events x 0 ltac:(done) Hx).
Defined.

Lemma open_refuses_witness :
  ∃ msg, (CanProvision (frozen (5 * Minute)) demo_open).2
    = Some (CircuitBreakerError CircuitBreakerOpen msg (10 * Minute)).
Proof.
  destruct (open_refuses (frozen (5 * Minute)) demo_open eq_refl eq_refl eq_refl)
    as (msg & E & _).
  exists msg. by rewrite E.
Defined.

Lemma open_recovers_witness :
  ∃ cb', CanProvision (frozen (15 * Minute)) demo_open = (cb', None) ∧
    cb'.(state) = CircuitBreakerHalfOpen.
Proof.
  destruct (open_recovers (frozen (15 * Minute)) demo_open eq_refl eq_refl
    ltac:(by vm_compute) ltac:(by vm_compute) ltac:(by vm_compute)) as (cb' & E & Hs & _).
  by exists cb'.
Defined.

Definition demo_failures : list (clock * string) :=
  [(frozen 1, "timeout"); (frozen (2 * Minute), "quota exceeded");
   (frozen (4 * Minute), "timeout")].

Lemma threshold_trips_witness :
  (fail_all "default" "us-south" demo_failures (NewCircuitBreaker (Some demo_cfg) 0)).(state)
    = CircuitBreakerOpen.
Proof.
  apply (threshold_trips _ _ _ _ 0); [done|done| |done].
  intros clk e i Hin _.
  repeat (apply elem_of_cons in Hin as [[= -> ->]|Hin]; [by vm_compute|]).
  by apply not_elem_of_nil in Hin.
Defined.
