(* ===== verification/NodeClassBreakers.v ===== *)
(** * NodeClassBreakers: pkg/cloudprovider/nodeclasscircuitbreaker.go

    The manager that keeps one [CircuitBreaker] per NodeClass and region: its map of
    breakers, every method, the isolation of the breakers from each other, when two
    pairs share a breaker, and what the periodic cleanup removes.

    The manager's own clock is [time.Now] ([now]); the breakers read theirs through
    [cb.now] ([clk]).  Each method holds [m.mu], so it is one atomic step.  A breaker is
    kept by value: the methods that release the lock before they call the breaker
    ([RecordPending], [RecordSuccess]) are modelled without a cleanup in between. *)
From stdpp Require Import prelude gmap list strings.
From Stdlib Require Import Ascii.
From S2P Require Import Prelude GoLib GoSort CircuitBreaker.
Import GoTime.
Open Scope Z_scope.

Record Manager := {
  m_config : option CircuitBreakerConfig;
  breakers : gmap string CircuitBreaker;
  lastCleanup : Z;
  cleanupInterval : Z;
}.

Definition NewNodeClassCircuitBreakerManager (cfg : option CircuitBreakerConfig) (now : Z)
    : Manager :=
  {| m_config := cfg; breakers := ∅; lastCleanup := now; cleanupInterval := 30 * Minute |}.

Definition set_breakers (bs : gmap string CircuitBreaker) (m : Manager) : Manager :=
  {| m_config := m.(m_config); breakers := bs; lastCleanup := m.(lastCleanup);
     cleanupInterval := m.(cleanupInterval) |}.

Definition set_lastCleanup (t : Z) (m : Manager) : Manager :=
  {| m_config := m.(m_config); breakers := m.(breakers); lastCleanup := t;
     cleanupInterval := m.(cleanupInterval) |}.

(** [fmt.Sprintf("%s-%s", nodeClass, region)]. *)
Definition getKey (nodeClass region : string) : string := nodeClass +:+ "-" +:+ region.

Section manager.
Context `{MapRange}.

(** The removal condition of the cleanup. *)
Definition unused (clk : clock) (cutoff : Z) (cb : CircuitBreaker) : bool :=
  let status := GetState clk cb in
  (bool_decide (status.(st_State) = CircuitBreakerClosed) || (status.(st_RecentFailures) =? 0))
  && Before status.(st_LastStateChange) cutoff.

Definition cleanupUnusedBreakersIfNeeded (now : Z) (clk : clock) (m : Manager) : Manager :=
  if Sub now m.(lastCleanup) <? m.(cleanupInterval) then m
  else
    let m := set_lastCleanup now m in
    let cutoff := Add now (- (2 * Hour)) in
    set_breakers (filter (λ kb, unused clk cutoff kb.2 = false) m.(breakers)) m.

(** Readings of the manager's clock: [t0] the cleanup, [t1] the creation time of a new
    breaker. [ck] is the breakers' clock during the cleanup. *)
Definition m_CanProvision (t0 t1 : Z) (ck clk : clock) (nodeClass region : string)
    (m : Manager) : Manager * option BreakerError :=
  match m.(m_config) with
  | None => (m, None)
  | Some cfg =>
      let m := cleanupUnusedBreakersIfNeeded t0 ck m in
      let key := getKey nodeClass region in
      let breaker := default (NewCircuitBreaker (Some cfg) t1) (m.(breakers) !! key) in
      let '(breaker, err) := CanProvision clk breaker in
      (set_breakers (<[key := breaker]> m.(breakers)) m, err)
  end.

Definition m_RecordPending (nodeClass region : string) (m : Manager) : Manager :=
  match m.(m_config) with
  | None => m
  | Some _ =>
      set_breakers (alter RecordPending (getKey nodeClass region) m.(breakers)) m
  end.

Definition m_RecordSuccess (clk : clock) (nodeClass region : string) (m : Manager) : Manager :=
  match m.(m_config) with
  | None => m
  | Some _ =>
      let key := getKey nodeClass region in
      match m.(breakers) !! key with
      | Some breaker => set_breakers (<[key := RecordSuccess clk breaker]> m.(breakers)) m
      | None => m
      end
  end.

Definition m_RecordFailure (t1 : Z) (clk : clock) (nodeClass region err : string)
    (m : Manager) : Manager :=
  match m.(m_config) with
  | None => m
  | Some cfg =>
      let key := getKey nodeClass region in
      let breaker := default (NewCircuitBreaker (Some cfg) t1) (m.(breakers) !! key) in
      set_breakers
        (<[key := RecordFailure clk nodeClass region err breaker]> m.(breakers)) m
  end.

Definition m_GetState (clk : clock) (m : Manager) : gmap string CircuitBreakerStatus :=
  match m.(m_config) with
  | None => ∅
  | Some _ => GetState clk <$> m.(breakers)
  end.

Definition closed_status (threshold : Z) : CircuitBreakerStatus :=
  {| st_State := CircuitBreakerClosed; st_RecentFailures := 0;
     st_FailureThreshold := threshold; st_InstancesThisMinute := 0; st_RateLimit := 0;
     st_ConcurrentInstances := 0; st_MaxConcurrent := 0; st_LastStateChange := 0;
     st_TimeToRecovery := 0 |}.

Definition GetStateForNodeClass (clk : clock) (nodeClass region : string) (m : Manager)
    : CircuitBreakerStatus :=
  match m.(m_config) with
  | None => closed_status 0
  | Some cfg =>
      match m.(breakers) !! getKey nodeClass region with
      | None => closed_status cfg.(FailureThreshold)
      | Some breaker => GetState clk breaker
      end
  end.

Definition GetOpenNodeClasses (clk : clock) (m : Manager) : list string :=
  match m.(m_config) with
  | None => []
  | Some _ =>
      map fst (List.filter
        (λ kb, bool_decide ((GetState clk kb.2).(st_State) = CircuitBreakerOpen))
        (map_range (map_to_list m.(breakers))))
  end.

Definition ResetNodeClass (t1 : Z) (nodeClass region : string) (m : Manager)
    : Manager * option string :=
  match m.(m_config) with
  | None => (m, Some "circuit breaker is disabled")
  | Some cfg =>
      let key := getKey nodeClass region in
      match m.(breakers) !! key with
      | None =>
          (m, Some ("no circuit breaker found for NodeClass " +:+ nodeClass
                      +:+ " in region " +:+ region))
      | Some _ =>
          (set_breakers (<[key := NewCircuitBreaker (Some cfg) t1]> m.(breakers)) m, None)
      end
  end.

Definition count_state (clk : clock) (s : CircuitBreakerState) (m : Manager) : nat :=
  length (List.filter (λ kb, bool_decide ((GetState clk kb.2).(st_State) = s))
            (map_to_list m.(breakers))).

Record Stats := {
  s_enabled : bool;
  total_breakers : nat;
  open_breakers : nat;
  closed_breakers : nat;
  half_open_breakers : nat;
}.

(** A disabled manager reports only ["enabled": false]. *)
Definition GetStats (clk : clock) (m : Manager) : option Stats :=
  match m.(m_config) with
  | None => None
  | Some _ =>
      Some {| s_enabled := true;
              total_breakers := size m.(breakers);
              open_breakers := count_state clk CircuitBreakerOpen m;
              closed_breakers := count_state clk CircuitBreakerClosed m;
              half_open_breakers := count_state clk CircuitBreakerHalfOpen m |}
  end.
End manager.

(** ** The manager's invariant *)

(** What holds of every breaker a manager keeps. *)
Record breaker_ok (cfg : CircuitBreakerConfig) (cb : CircuitBreaker) : Prop := {
  bo_config : cb.(config) = cfg;
  bo_enabled : cb.(enabled) = true;
  bo_concurrent : 0 ≤ cb.(concurrentInstances) ≤ Z.max 0 cfg.(MaxConcurrentInstances);
  bo_minute : 0 ≤ cb.(instancesThisMinute) ≤ Z.max 0 cfg.(RateLimitPerMinute);
  bo_halfopen : 0 ≤ cb.(halfOpenRequests) ≤ Z.max 1 cfg.(HalfOpenMaxRequests);
  bo_probes : cb.(state) ≠ CircuitBreakerHalfOpen → cb.(halfOpenRequests) = 0;
}.

(** The calls a manager receives, with the clocks they read. *)
Inductive m_call :=
  | MCanProvision (t0 t1 : Z) (ck clk : clock) (nc r : string)
  | MRecordPending (nc r : string)
  | MRecordSuccess (clk : clock) (nc r : string)
  | MRecordFailure (t1 : Z) (clk : clock) (nc r e : string)
  | MResetNodeClass (t1 : Z) (nc r : string).

Section invariant.
Context `{MapRange}.

Definition m_apply (c : m_call) (m : Manager) : Manager :=
  match c with
  | MCanProvision t0 t1 ck clk nc r => (m_CanProvision t0 t1 ck clk nc r m).1
  | MRecordPending nc r => m_RecordPending nc r m
  | MRecordSuccess clk nc r => m_RecordSuccess clk nc r m
  | MRecordFailure t1 clk nc r e => m_RecordFailure t1 clk nc r e m
  | MResetNodeClass t1 nc r => (ResetNodeClass t1 nc r m).1
  end.

Definition manager_ok (cfg : CircuitBreakerConfig) (m : Manager) : Prop :=
  m.(m_config) = Some cfg ∧ map_Forall (λ _ cb, breaker_ok cfg cb) m.(breakers).

Lemma ok_new cfg t : breaker_ok cfg (NewCircuitBreaker (Some cfg) t).
Proof. split; simpl; try done; lia. Qed.

Lemma ok_reset cfg t cb : breaker_ok cfg cb → breaker_ok cfg (resetCountersIfNeeded t cb).
Proof. intros []. unfold resetCountersIfNeeded. case_match; split; simpl; auto; lia. Qed.

Lemma ok_CanProvision cfg clk cb :
  breaker_ok cfg cb → breaker_ok cfg (CanProvision clk cb).1.
Proof.
  intros Hok. destruct (CanProvision clk cb) as [cb' [e|]] eqn:E; simpl.
  - apply CanProvision_deny in E as [->|(_ & _ & ->)]; [by apply ok_reset|].
    apply (ok_reset _ (clk 0%nat)) in Hok as []. split; simpl; try done; lia.
  - apply CanProvision_admit in E as (cb1 & Hg & -> & Hrate & Hmax); [|apply Hok].
    apply (ok_reset _ (clk 0%nat)) in Hok as [Hc He H1 H2 H3 H4].
    apply state_gate_inl in Hg as [(-> & _ & Hlt)|(_ & -> & _)];
      unfold admit_one; case_match; split; simpl in *; rewrite ?Hc in *;
      try done; try lia; try congruence; naive_solver lia.
Qed.

Lemma ok_RecordPending cfg cb : breaker_ok cfg cb → breaker_ok cfg (RecordPending cb).
Proof.
  intros []. unfold RecordPending, release.
  repeat case_match; bool_to_prop; split; simpl in *; try done; try lia; congruence.
Qed.

Lemma ok_RecordSuccess cfg clk cb :
  breaker_ok cfg cb → breaker_ok cfg (RecordSuccess clk cb).
Proof.
  intros []. unfold RecordSuccess, release.
  repeat case_match; split; simpl in *; try done; lia.
Qed.

Lemma ok_RecordFailure cfg clk nc r e cb :
  breaker_ok cfg cb → breaker_ok cfg (RecordFailure clk nc r e cb).
Proof.
  intros []. unfold RecordFailure, release, transitionToOpen.
  repeat case_match; split; simpl in *; try done; lia.
Qed.

Lemma ok_default cfg m key t :
  manager_ok cfg m →
  breaker_ok cfg (default (NewCircuitBreaker (Some cfg) t) (m.(breakers) !! key)).
Proof.
  intros [_ Hall]. destruct (breakers m !! key) eqn:E; simpl; [by apply (Hall key)|].
  apply ok_new.
Qed.

Lemma ok_cleanup cfg t ck m :
  manager_ok cfg m → manager_ok cfg (cleanupUnusedBreakersIfNeeded t ck m).
Proof.
  intros [Hc Hall]. unfold cleanupUnusedBreakersIfNeeded. case_match; [done|].
  split; simpl; [done|]. intros k cb [Hk _]%map_lookup_filter_Some. by apply (Hall k).
Qed.

Lemma ok_apply cfg c m : manager_ok cfg m → manager_ok cfg (m_apply c m).
Proof.
  intros Hm. pose proof Hm as [Hc Hall].
  destruct c as [t0 t1 ck clk nc r|nc r|clk nc r|t1 clk nc r e|t1 nc r]; simpl.
  - unfold m_CanProvision. rewrite Hc.
    apply (ok_cleanup _ t0 ck) in Hm. set (m' := cleanupUnusedBreakersIfNeeded _ _ _) in *.
    pose proof (ok_CanProvision cfg clk _ (ok_default cfg m' (getKey nc r) t1 Hm)) as Hok.
    destruct (CanProvision clk _) as [cb e]. destruct Hm as [Hc' Hall'].
    split; simpl in *; [done|]. by apply map_Forall_insert_2.
  - unfold m_RecordPending. rewrite Hc. split; simpl; [done|].
    intros k cb. rewrite lookup_alter. case_match.
    + intros (cb0 & Hk & ->)%fmap_Some. apply ok_RecordPending. by apply (Hall _ _ Hk).
    + apply Hall.
  - unfold m_RecordSuccess. rewrite Hc. case_match eqn:E; [|done]. split; simpl; [done|].
    apply map_Forall_insert_2; [|done]. apply ok_RecordSuccess. by apply (Hall _ _ E).
  - unfold m_RecordFailure. rewrite Hc. split; simpl; [done|].
    apply map_Forall_insert_2; [|done]. by apply ok_RecordFailure, ok_default.
  - unfold ResetNodeClass. rewrite Hc. case_match; [|done]. split; simpl; [done|].
    apply map_Forall_insert_2; [apply ok_new|done].
Qed.
End invariant.

(** ** Keys *)
Lemma app_eq_length_tail {A} (l1 l2 k1 k2 : list A) :
  length k1 = length k2 → (l1 ++ k1)%list = (l2 ++ k2)%list → l1 = l2 ∧ k1 = k2.
Proof. intros Hl He. by apply app_inj_2. Qed.

Definition dashes (s : string) : nat := length (Strings.Split s "-"%char).

(** One [m_CanProvision] per time, each made with all clocks at that time. *)
Fixpoint provision_run `{MapRange} (nc r : string) (ts : list Z) (m : Manager)
    : Manager * list (option BreakerError) :=
  match ts with
  | [] => (m, [])
  | t :: ts =>
      let '(m, e) := m_CanProvision t t (frozen t) (frozen t) nc r m in
      let '(m, es) := provision_run nc r ts m in
      (m, e :: es)
  end.

(** ** Properties *)
Section properties.
Context `{MapRange}.

(** Whatever calls a manager receives, in any order and with any clocks, even
    records for instances that were never allowed: every breaker it keeps has the
    manager's configuration, is enabled, and its counters are within the limits. *)
Theorem manager_invariant cfg t calls :
  manager_ok cfg
    (fold_left (λ m c, m_apply c m) calls (NewNodeClassCircuitBreakerManager (Some cfg) t)).
Proof.
  assert (manager_ok cfg (NewNodeClassCircuitBreakerManager (Some cfg) t)) as Hm.
  { split; [done|]. apply map_Forall_empty. }
  revert Hm. generalize (NewNodeClassCircuitBreakerManager (Some cfg) t).
  induction calls as [|c cs IH]; intros m Hm; simpl; [done|]. by apply IH, ok_apply.
Qed.

(** Two NodeClass/region pairs share a breaker only when they are the same pair,
    provided their regions have the same number of hyphens, as IBM Cloud's region
    names do. *)
Theorem getKey_injective nc1 r1 nc2 r2
    (Hd : dashes r1 = dashes r2) (Hk : getKey nc1 r1 = getKey nc2 r2) :
  nc1 = nc2 ∧ r1 = r2.
Proof.
  apply (f_equal (λ s, Strings.Split s "-"%char)) in Hk.
  unfold getKey in Hk. simpl in Hk. rewrite !Strings.Split_app in Hk.
  apply app_eq_length_tail in Hk as [H1 H2]; [|done].
  split; by eapply Strings.Split_inj.
Qed.

(** Without that proviso the key is ambiguous: distinct pairs can share one
    breaker. *)
Theorem getKey_collision :
  ∃ nc1 r1 nc2 r2, (nc1, r1) ≠ (nc2, r2) ∧ getKey nc1 r1 = getKey nc2 r2.
Proof. exists "gpu", "eu-de", "gpu-eu", "de". split; [naive_solver|reflexivity]. Qed.

(** Isolation: a call for one NodeClass and region leaves the breaker of every
    other key as it was, except that [CanProvision] may have its cleanup remove it. *)
Theorem manager_isolation c m k
    (Hk : match c with
          | MCanProvision _ _ _ _ nc r | MRecordPending nc r | MRecordSuccess _ nc r
          | MRecordFailure _ _ nc r _ | MResetNodeClass _ nc r => getKey nc r ≠ k
          end) :
  (m_apply c m).(breakers) !! k = m.(breakers) !! k ∨
  (∃ t0 t1 ck clk nc r, c = MCanProvision t0 t1 ck clk nc r ∧
     (m_apply c m).(breakers) !! k = None ∧
     ∃ cb, m.(breakers) !! k = Some cb ∧ unused ck (Add t0 (- (2 * Hour))) cb = true).
Proof.
  destruct c as [t0 t1 ck clk nc r|nc r|clk nc r|t1 clk nc r e|t1 nc r]; simpl in *.
  - unfold m_CanProvision. case_match; [|by left].
    case_match. simpl. rewrite lookup_insert_ne by done.
    unfold cleanupUnusedBreakersIfNeeded. case_match; [by left|]. simpl.
    destruct (breakers m !! k) as [cb|] eqn:E.
    + destruct (unused ck (Add t0 (- (2 * Hour))) cb) eqn:Eu.
      * right. exists t0, t1, ck, clk, nc, r. split_and!; [done| |by eauto].
        apply map_lookup_filter_None. right. intros cb' E'. simplify_eq/=. by rewrite Eu.
      * left. by apply map_lookup_filter_Some.
    + left. apply map_lookup_filter_None. by left.
  - left. unfold m_RecordPending. case_match; [|done]. simpl. by apply lookup_alter_ne.
  - left. unfold m_RecordSuccess. case_match; [|done]. case_match; [|done]. simpl.
    by apply lookup_insert_ne.
  - left. unfold m_RecordFailure. case_match; [|done]. simpl. by apply lookup_insert_ne.
  - left. unfold ResetNodeClass. case_match; [|done]. case_match; [|done]. simpl.
    by apply lookup_insert_ne.
Qed.

(** A manager without configuration is disabled: it allows everything and keeps
    no breaker. *)
Theorem disabled_allows t calls t0 t1 ck clk nc r :
  let m := fold_left (λ m c, m_apply c m) calls (NewNodeClassCircuitBreakerManager None t) in
  m.(breakers) = ∅ ∧ (m_CanProvision t0 t1 ck clk nc r m) = (m, None).
Proof.
  assert (∀ m, m.(m_config) = None → ∀ c, m_apply c m = m) as Hid.
  { intros m Hm c. destruct c; simpl;
      unfold m_CanProvision, m_RecordPending, m_RecordSuccess, m_RecordFailure,
        ResetNodeClass; by rewrite Hm. }
  assert (fold_left (λ m c, m_apply c m) calls (NewNodeClassCircuitBreakerManager None t)
          = NewNodeClassCircuitBreakerManager None t) as ->.
  { induction calls as [|c cs IH]; simpl; [done|]. by rewrite Hid. }
  done.
Qed.
End properties.

(** The cleanup is by time of the last state change, not of the last use, so it
    removes a busy breaker that never opened: with the default limit of five concurrent
    instances, six are allowed for one NodeClass within 31 minutes and none is recorded. *)
Theorem cleanup_drops_busy_breaker :
  ∃ warmup ts, Forall (λ t, 2 * Hour ≤ t ≤ 2 * Hour + 31 * Minute) ts ∧
    let m0 := NewNodeClassCircuitBreakerManager (Some DefaultCircuitBreakerConfig) 0 in
    let m1 := m_RecordSuccess (frozen warmup) "default" "us-south"
                (provision_run "default" "us-south" [warmup] m0).1 in
    (provision_run "default" "us-south" ts m1).2 = replicate 6 None.
Proof.
  exists 0, [2 * Hour; 2 * Hour; 2 * Hour + Minute; 2 * Hour + Minute; 2 * Hour + 2 * Minute;
             2 * Hour + 31 * Minute].
  split; [repeat constructor; done|]. vm_compute. reflexivity.
Qed.

(** ** Witnesses *)
Lemma getKey_injective_witness :
  getKey "a" "us-south" = getKey "a" "us-south" ∧ "a" = "a" ∧ "us-south" = "us-south".
Proof. split; [done|]. apply (getKey_injective "a" "us-south"); reflexivity. Defined.

Lemma manager_isolation_witness :
  (m_apply (MRecordPending "a" "eu-de")
     (NewNodeClassCircuitBreakerManager (Some demo_cfg) 0)).(breakers) !! "b-eu-de" = None.
Proof.
  destruct (manager_isolation (MRecordPending "a" "eu-de")
    (NewNodeClassCircuitBreakerManager (Some demo_cfg) 0) "b-eu-de" ltac:(done))
    as [E|(t0 & t1 & ck & clk & nc & r & E & _)]; [by rewrite E|done].
Defined.
