(* ===== verification/TTLCache.v ===== *)
(** * TTLCache: pkg/cache

    [Cache] (cache.go), the TTL cache the providers share, and [UnavailableOfferings]
    (unavailable_offerings.go), the set of offerings that are out for a time.  Both
    remove expired entries lazily; the theorems relate the stored map to its [view], the
    entries a reader can observe at a time.

    Every method is one atomic step, but for [Get] and [IsUnavailable]: on an expired
    entry they release the read lock before they take the write lock, so they are two
    steps, and the second checks again.  Metrics are left out. *)
From stdpp Require Import prelude gmap strings.
From S2P Require Import Prelude GoLib.
Import GoTime.
Open Scope Z_scope.

Module Cache.
Section cache.
Context {V : Type}.

Record Entry := { Value : V; Expiration : Z }.

Record Cache := {
  name : string;
  items : gmap string Entry;
  ttl : Z;
  nextSweep : Z;
}.

Definition NewNamed (n : string) (d : Z) : Cache :=
  {| name := n; items := ∅; ttl := d; nextSweep := zero_time |}.

Definition New (d : Z) : Cache := NewNamed "default" d.

Definition set_items (m : gmap string Entry) (c : Cache) : Cache :=
  {| name := c.(name); items := m; ttl := c.(ttl); nextSweep := c.(nextSweep) |}.

Definition set_nextSweep (t : Z) (c : Cache) : Cache :=
  {| name := c.(name); items := c.(items); ttl := c.(ttl); nextSweep := t |}.

Definition expired (now : Z) (e : Entry) : bool := After now e.(Expiration).

(** *** [Get] *)
Inductive lookup_outcome :=
  | Hit (v : V)
  | Miss
  | Stale (now : Z).

(** Under the read lock. *)
Definition Get_read (now : Z) (key : string) (c : Cache) : lookup_outcome :=
  match c.(items) !! key with
  | None => Miss
  | Some e => if negb (expired now e) then Hit e.(Value) else Stale now
  end.

(** Under the write lock, with the time read before: checks again, then deletes. *)
Definition Get_evict (now : Z) (key : string) (c : Cache) : Cache :=
  match c.(items) !! key with
  | Some e => if expired now e then set_items (delete key c.(items)) c else c
  | None => c
  end.

(** Both steps with nothing in between. *)
Definition Get (now : Z) (key : string) (c : Cache) : Cache * option V :=
  match Get_read now key c with
  | Hit v => (c, Some v)
  | Miss => (c, None)
  | Stale t => (Get_evict t key c, None)
  end.

Definition removeExpiredLocked (now : Z) (c : Cache) : Cache :=
  set_items (filter (λ ke, expired now ke.2 = false) c.(items)) c.

(** Readings: 0 the sweep, 1 the expiration. *)
Definition SetWithTTL (clk : clock) (key : string) (v : V) (d : Z) (c : Cache) : Cache :=
  let now := clk 0%nat in
  let c :=
    if negb (Before now c.(nextSweep)) then
      set_nextSweep (Add now (Z.min Minute (Z.max Millisecond (Z.quot c.(ttl) 2))))
        (removeExpiredLocked now c)
    else c in
  set_items (<[key := {| Value := v; Expiration := Add (clk 1%nat) d |}]> c.(items)) c.

Definition Set_ (clk : clock) (key : string) (v : V) (c : Cache) : Cache :=
  SetWithTTL clk key v c.(ttl) c.

Definition Delete (key : string) (c : Cache) : Cache := set_items (delete key c.(items)) c.

Definition Has (now : Z) (key : string) (c : Cache) : bool :=
  match c.(items) !! key with
  | Some e => negb (expired now e)
  | None => false
  end.

Definition Size (now : Z) (c : Cache) : Cache * nat :=
  let c := removeExpiredLocked now c in (c, size c.(items)).

Definition Clear (c : Cache) : Cache := set_items ∅ c.

(** [fetch] is what [fetchFunc] returns; it runs only on a miss. [t] is the time of
    the lookup, [clk] the clock of the store. *)
Definition GetOrSetWithTTL {E} (t : Z) (clk : clock) (key : string) (d : Z)
    (fetch : unit → result E V) (c : Cache) : Cache * result E V :=
  match Get t key c with
  | (c, Some v) => (c, Ok v)
  | (c, None) =>
      match fetch tt with
      | Err e => (c, Err e)
      | Ok v => (SetWithTTL clk key v d c, Ok v)
      end
  end.

Definition GetOrSet {E} (t : Z) (clk : clock) (key : string)
    (fetch : unit → result E V) (c : Cache) : Cache * result E V :=
  match Get t key c with
  | (c, Some v) => (c, Ok v)
  | (c, None) =>
      match fetch tt with
      | Err e => (c, Err e)
      | Ok v => (Set_ clk key v c, Ok v)
      end
  end.

(** ** The observable content *)

(** What a reader sees at time [t]. *)
Definition view (t : Z) (c : Cache) : gmap string V :=
  Value <$> filter (λ ke, expired t ke.2 = false) c.(items).

Lemma view_lookup t c k v :
  view t c !! k = Some v ↔
  ∃ e, c.(items) !! k = Some e ∧ expired t e = false ∧ e.(Value) = v.
Proof.
  unfold view. rewrite lookup_fmap, fmap_Some. setoid_rewrite map_lookup_filter_Some.
  naive_solver.
Qed.

(** The view at [t] only depends on the entries that are not expired at [t]. *)
Lemma view_eq t c c' :
  (∀ k e, expired t e = false →
     (c.(items) !! k = Some e ↔ c'.(items) !! k = Some e)) →
  view t c = view t c'.
Proof.
  intros Heq. apply map_eq. intros k. apply option_eq. intros v.
  rewrite !view_lookup. naive_solver.
Qed.

Lemma expired_mono t t' e : t ≤ t' → expired t' e = false → expired t e = false.
Proof. unfold expired, After. lia. Qed.

Lemma view_sweep t t' c : t ≤ t' → view t' (removeExpiredLocked t c) = view t' c.
Proof.
  intros Ht. apply view_eq. intros k e He. simpl. rewrite map_lookup_filter_Some. simpl.
  pose proof (expired_mono _ _ _ Ht He). naive_solver.
Qed.

Lemma view_evict t t' key c : t ≤ t' → view t' (Get_evict t key c) = view t' c.
Proof.
  intros Ht. unfold Get_evict. destruct (items c !! key) as [e0|] eqn:E; [|done].
  destruct (expired t e0) eqn:Ee; [|done]. apply view_eq. intros k e He. simpl.
  rewrite lookup_delete_Some. split; [naive_solver|]. intros Hk. split; [|done].
  intros ->. simplify_eq. by rewrite (expired_mono _ _ _ Ht He) in Ee.
Qed.

Lemma Get_view t key c : (Get t key c).2 = view t c !! key.
Proof.
  apply option_eq. intros v. rewrite view_lookup. unfold Get, Get_read.
  destruct (items c !! key) as [e|] eqn:E; [|simpl; naive_solver].
  destruct (expired t e) eqn:Ee; simpl.
  - split; [done|]. intros (e' & ? & ? & _). congruence.
  - split; [intros [= <-]; eauto|]. intros (e' & ? & ? & <-). congruence.
Qed.

Lemma Get_frame t t' key c : t ≤ t' → view t' (Get t key c).1 = view t' c.
Proof.
  intros Ht. unfold Get, Get_read. destruct (items c !! key); [|done].
  destruct (expired t e); simpl; [by apply view_evict|done].
Qed.

Lemma Set_view clk key v d c t :
  monotone clk → clk 0%nat ≤ t →
  view t (SetWithTTL clk key v d c) =
    if t <=? clk 1%nat + d then <[key := v]> (view t c) else delete key (view t c).
Proof.
  intros Hm Ht. unfold SetWithTTL.
  set (c1 := if negb _ then _ else c).
  assert (view t c1 = view t c) as Hc1.
  { subst c1. case_match; [|done]. by rewrite <-(view_sweep (clk 0%nat) t c) by done. }
  rewrite <-Hc1. apply map_eq. intros k. apply option_eq. intros w.
  rewrite view_lookup. simpl.
  destruct (decide (k = key)) as [->|Hne].
  - rewrite lookup_insert_eq. unfold expired, After, Add.
    destruct (_ <=? _) eqn:E; rewrite ?lookup_insert_eq, ?lookup_delete_eq;
      split; [intros (e & [= <-] & He & <-)|intros [= <-]
             |intros (e & [= <-] & He & <-)|done]; simpl in *; try lia; try done.
    eexists. split_and!; [done|simpl; lia|done].
  - rewrite lookup_insert_ne by done.
    destruct (_ <=? _); rewrite ?lookup_insert_ne, ?lookup_delete_ne by done;
      by rewrite view_lookup.
Qed.

Lemma Delete_view key c t : view t (Delete key c) = delete key (view t c).
Proof.
  apply map_eq. intros k. apply option_eq. intros v.
  rewrite view_lookup, lookup_delete_Some, view_lookup. simpl.
  setoid_rewrite lookup_delete_Some. naive_solver.
Qed.

Lemma Size_view t c : (Size t c).2 = size (view t c).
Proof. unfold Size, view. simpl. by rewrite map_size_fmap. Qed.
End cache.
Arguments Entry : clear implicits.
Arguments Cache : clear implicits.
End Cache.

(** ** The interface

    What the providers that hold a cache rely on: reading is observation, writing is an
    insertion that lasts for the given time. *)
Class TtlStore (C V : Type) := {
  ts_view : Z → C → gmap string V;
  ts_ttl : C → Z;
  ts_get : Z → string → C → C * option V;
  ts_set : clock → string → V → Z → C → C;
  ts_get_view : ∀ t k c, (ts_get t k c).2 = ts_view t c !! k;
  ts_get_frame : ∀ t t' k c, t ≤ t' → ts_view t' (ts_get t k c).1 = ts_view t' c;
  ts_set_view : ∀ clk k v d c t, monotone clk → clk 0%nat ≤ t →
    ts_view t (ts_set clk k v d c) =
      if t <=? clk 1%nat + d then <[k := v]> (ts_view t c) else delete k (ts_view t c);
}.

#[export, refine] Instance cache_store {V} : TtlStore (Cache.Cache V) V :=
  {| ts_view := Cache.view; ts_ttl := Cache.ttl; ts_get := Cache.Get;
     ts_set := Cache.SetWithTTL |}.
Proof.
  - apply Cache.Get_view.
  - apply Cache.Get_frame.
  - apply Cache.Set_view.
Defined.

(** ** Unavailable offerings *)
Module Unavailable.
Abbreviation offerings := (gmap string Z).

Definition NewUnavailableOfferings : offerings := ∅.
Definition Add (id : string) (expiry : Z) (u : offerings) : offerings := <[id := expiry]> u.
Definition Remove (id : string) (u : offerings) : offerings := delete id u.

Inductive read_outcome := Unavailable | Unknown | Lapsed (now : Z).

Definition IsUnavailable_read (now : Z) (id : string) (u : offerings) : read_outcome :=
  match u !! id with
  | None => Unknown
  | Some expiry => if negb (After now expiry) then Unavailable else Lapsed now
  end.

Definition IsUnavailable_evict (now : Z) (id : string) (u : offerings) : offerings :=
  match u !! id with
  | Some expiry => if After now expiry then delete id u else u
  | None => u
  end.

Definition IsUnavailable (now : Z) (id : string) (u : offerings) : offerings * bool :=
  match IsUnavailable_read now id u with
  | Unknown => (u, false)
  | Unavailable => (u, true)
  | Lapsed t => (IsUnavailable_evict t id u, false)
  end.

Definition Cleanup (now : Z) (u : offerings) : offerings :=
  filter (λ ie, After now ie.2 = false) u.

(** The offerings that are out at [t]. *)
Definition out (t : Z) (u : offerings) (id : string) : Prop :=
  ∃ expiry, u !! id = Some expiry ∧ t ≤ expiry.

Lemma IsUnavailable_true t id u : (IsUnavailable t id u).2 = true ↔ out t u id.
Proof.
  unfold IsUnavailable, IsUnavailable_read, out, After.
  destruct (u !! id) as [e|] eqn:E; [|simpl; naive_solver].
  destruct (e <? t) eqn:El; simpl; split; try done.
  - intros (? & [= <-] & ?). lia.
  - intros _. exists e. split; [done|lia].
Qed.

Lemma evict_out t t' id id' u :
  t ≤ t' → out t' (IsUnavailable_evict t id u) id' ↔ out t' u id'.
Proof.
  intros Ht. unfold IsUnavailable_evict, out, After.
  destruct (u !! id) as [e|] eqn:E; [|done]. destruct (e <? t) eqn:El; [|done].
  setoid_rewrite lookup_delete_Some. split; [naive_solver|].
  intros (e' & He' & Hle). exists e'. split_and!; try done.
  intros ->. simplify_eq. lia.
Qed.

Lemma Cleanup_out t t' id u : t ≤ t' → out t' (Cleanup t u) id ↔ out t' u id.
Proof.
  intros Ht. unfold Cleanup, out, After. setoid_rewrite map_lookup_filter_Some. simpl.
  split; [naive_solver|]. intros (e & He & Hle). exists e. split_and!; try done. lia.
Qed.
End Unavailable.

(** ** Properties *)
Section properties.
Context {V : Type}.
Implicit Types c : Cache.Cache V.

(** [Get] returns exactly the entry observable at the time it reads, and removing
    an expired entry changes nothing that can be observed at or after that time. *)
Theorem cache_get_observes t key c :
  (Cache.Get t key c).2 = Cache.view t c !! key ∧
  (∀ t', t ≤ t' → Cache.view t' (Cache.Get t key c).1 = Cache.view t' c) ∧
  Cache.Has t key c = bool_decide (is_Some (Cache.view t c !! key)).
Proof.
  split_and!; [apply Cache.Get_view|intros; by apply Cache.Get_frame|].
  rewrite <-Cache.Get_view. unfold Cache.Get, Cache.Get_read, Cache.Has.
  destruct (Cache.items c !! key) as [e|]; [|done]. by destruct (Cache.expired t e).
Qed.

(** The second check of [Get]: however other calls changed the cache between the
    two steps of a [Get], its eviction removes nothing observable, so an entry written
    meanwhile survives. *)
Theorem cache_evict_race t t' key c (Ht : t ≤ t') :
  Cache.view t' (Cache.Get_evict t key c) = Cache.view t' c.
Proof. by apply Cache.view_evict. Qed.

(** A write is observable from its start until the expiration it stores, replaces
    the key's previous entry, and touches no other key, whether or not it sweeps. *)
Theorem cache_set_observable clk key v d c t
    (Hm : monotone clk) (Ht : clk 0%nat ≤ t) :
  Cache.view t (Cache.SetWithTTL clk key v d c) =
    if t <=? clk 1%nat + d then <[key := v]> (Cache.view t c)
    else delete key (Cache.view t c).
Proof. by apply Cache.Set_view. Qed.

(** [GetOrSet] calls its function only when nothing is observable; an error is
    returned and not stored, a value is stored for the cache's TTL. *)
Theorem cache_get_or_set {E} t clk key (fetch : unit → result E V) c
    (Hm : monotone clk) (Ht : t ≤ clk 0%nat) :
  let r := Cache.GetOrSet t clk key fetch c in
  match Cache.view t c !! key with
  | Some v => r.2 = Ok v ∧ ∀ t', t ≤ t' → Cache.view t' r.1 = Cache.view t' c
  | None =>
      r.2 = fetch tt ∧
      ∀ t', clk 0%nat ≤ t' → t' ≤ clk 1%nat + c.(Cache.ttl) →
        Cache.view t' r.1 = match fetch tt with
                            | Ok v => <[key := v]> (Cache.view t' c)
                            | Err _ => Cache.view t' c
                            end
  end.
Proof.
  unfold Cache.GetOrSet. rewrite <-Cache.Get_view.
  pose proof (λ t', Cache.Get_frame t t' key c) as Hf.
  assert ((Cache.Get t key c).1.(Cache.ttl) = c.(Cache.ttl)) as Httl.
  { unfold Cache.Get, Cache.Get_read, Cache.Get_evict. by repeat case_match. }
  destruct (Cache.Get t key c) as [c1 [v|]]; simpl in *; [auto|].
  destruct (fetch tt) as [v|e]; simpl; split; try done; intros t' H1 H2.
  - unfold Cache.Set_. rewrite Cache.Set_view by done. rewrite Httl.
    destruct (_ <=? _) eqn:E1; [|lia]. by rewrite Hf by lia.
  - apply Hf. lia.
Qed.

(** Nothing expired outlives a sweep: after a write made at or after [nextSweep],
    every stored entry but the new one was unexpired when the write began, and [Size]
    counts exactly the observable entries. *)
Theorem cache_sweep_bound clk key v d c k e
    (Hs : c.(Cache.nextSweep) ≤ clk 0%nat)
    (Hk : (Cache.SetWithTTL clk key v d c).(Cache.items) !! k = Some e) (Hne : k ≠ key) :
  Cache.expired (clk 0%nat) e = false ∧
  ∀ t, (Cache.Size t c).2 = size (Cache.view t c).
Proof.
  split; [|intros; apply Cache.Size_view]. revert Hk. unfold Cache.SetWithTTL, Before.
  destruct (_ <? _) eqn:E; [lia|]. simpl. rewrite lookup_insert_ne by done.
  by intros [_ ?]%map_lookup_filter_Some.
Qed.
End properties.

(** An offering added with an expiry is unavailable up to and including that time and
    available after it; checking and cleaning up change neither. *)
Theorem offering_unavailable_until t id expiry u :
  ((Unavailable.IsUnavailable t id (Unavailable.Add id expiry u)).2 = true ↔ t ≤ expiry) ∧
  (∀ id' t', t ≤ t' →
     (Unavailable.IsUnavailable t' id' (Unavailable.IsUnavailable t id u).1).2
       = (Unavailable.IsUnavailable t' id' u).2 ∧
     (Unavailable.IsUnavailable t' id' (Unavailable.Cleanup t u)).2
       = (Unavailable.IsUnavailable t' id' u).2).
Proof.
  split.
  - rewrite Unavailable.IsUnavailable_true. unfold Unavailable.out, Unavailable.Add.
    rewrite lookup_insert_eq. naive_solver.
  - intros id' t' Ht. split; apply eq_true_iff_eq; rewrite !Unavailable.IsUnavailable_true;
      [|by apply Unavailable.Cleanup_out].
    unfold Unavailable.IsUnavailable. case_match; try done. simpl.
    unfold Unavailable.IsUnavailable_read in *. repeat case_match; simplify_eq.
    by apply Unavailable.evict_out.
Qed.

(** ** Witnesses *)
Definition demo_cache : Cache.Cache nat :=
  Cache.SetWithTTL (frozen 0) "old" 1%nat 10 (Cache.New 100).

Lemma cache_evict_race_witness :
  Cache.view 20 (Cache.Get_evict 20 "old"
    (Cache.SetWithTTL (frozen 15) "old" 2%nat 10 demo_cache)) !! "old" = Some 2%nat.
Proof. rewrite (cache_evict_race 20 20) by lia. by vm_compute. Defined.

Lemma cache_set_observable_witness :
  Cache.view 10 demo_cache !! "old" = Some 1%nat.
Proof.
  unfold demo_cache.
  rewrite (cache_set_observable (frozen 0) "old" 1%nat 10 (Cache.New 100) 10
    (frozen_monotone 0) ltac:(by vm_compute)).
  by vm_compute.
Defined.

Lemma cache_get_or_set_witness :
  (Cache.GetOrSet (E := string) 20 (frozen 20) "old" (λ _, Ok 3%nat) demo_cache).2 = Ok 3%nat.
Proof.
  pose proof (cache_get_or_set (E := string) 20 (frozen 20) "old" (λ _, Ok 3%nat) demo_cache
    (frozen_monotone 20) ltac:(by vm_compute)) as Hw.
  assert (Cache.view 20 demo_cache !! "old" = None) as E by (by vm_compute).
  cbv zeta in Hw. rewrite E in Hw. exact (proj1 Hw).
Defined.

Lemma cache_sweep_bound_witness :
  Cache.expired 5 {| Cache.Value := 1%nat; Cache.Expiration := 10 |} = false.
Proof.
  refine (proj1 (cache_sweep_bound (frozen 5) "new" 7%nat 10
    {| Cache.name := "default";
       Cache.items := {[ "old" := {| Cache.Value := 1%nat; Cache.Expiration := 10 |} ]};
       Cache.ttl := 100; Cache.nextSweep := 0 |} "old" _ _ _ _));
    [by unfold frozen|reflexivity|discriminate].
Defined.
