(* ===== verification/GoRegexp.v ===== *)
(** * GoRegexp: the anchored regular expressions of the program

    Every pattern the program compiles is [^...$] around a sequence of literals
    and quantified character classes, some of them captured.  [match_items] is
    the leftmost-greedy search of Go's [regexp]; the lemmas reduce a pattern
    whose classes exclude a separator to a field-wise test of [strings.Split]. *)
From stdpp Require Import prelude list strings.
From Stdlib Require Import Ascii.
From S2P Require Import Prelude GoLib.
Import Strings.

Open Scope string_scope.
Open Scope nat_scope.

Inductive item : Type :=
  | Lit (s : string)
  | Rep (cls : ascii → bool) (mn : nat) (mx : option nat) (cap : bool).

Definition Plus cls := Rep cls 1 None false.
Definition Star cls := Rep cls 0 None false.
Definition Capture cls := Rep cls 1 None true.
Definition Exactly cls n := Rep cls n (Some n) false.
Definition Opt cls := Rep cls 0 (Some 1) false.

Definition pattern := list item.

Definition in_range (lo hi : ascii) (c : ascii) : bool :=
  Nat.leb (nat_of_ascii lo) (nat_of_ascii c) && Nat.leb (nat_of_ascii c) (nat_of_ascii hi).
Definition is_lower : ascii → bool := in_range "a" "z".
Definition is_upper : ascii → bool := in_range "A" "Z".
Definition is_digit : ascii → bool := in_range "0" "9".
Definition is_lower_digit (c : ascii) : bool := is_lower c || is_digit c.
Definition is_alnum (c : ascii) : bool := is_lower c || is_upper c || is_digit c.

(** The longest prefix a class accepts, within the quantifier's maximum. *)
Fixpoint run (cls : ascii → bool) (mx : option nat) (s : string) : nat :=
  match s with
  | "" => 0
  | String c s' =>
      match mx with
      | Some 0 => 0
      | _ => if cls c then S (run cls (pred <$> mx) s') else 0
      end
  end.

(** Greedy: from [k] repetitions down to [mn]. *)
Fixpoint try_from {A} (mn k : nat) (f : nat → option A) : option A :=
  if Nat.ltb k mn then None
  else match f k with
       | Some r => Some r
       | None => match k with 0 => None | S k' => try_from mn k' f end
       end.

Definition captured (cap : bool) (w : string) (caps : list string) : list string :=
  if cap then w :: caps else caps.

Fixpoint match_items (its : pattern) (s : string) : option (list string) :=
  match its with
  | [] => if String.eqb s "" then Some [] else None
  | Lit l :: its' =>
      if HasPrefix s l then match_items its' (drop (String.length l) s) else None
  | Rep cls mn mx cap :: its' =>
      try_from mn (run cls mx s) (λ k,
        captured cap (take k s) <$> match_items its' (drop k s))
  end.

Definition MatchString (p : pattern) (s : string) : bool := bool_decide (is_Some (match_items p s)).
Definition FindStringSubmatch (p : pattern) (s : string) : option (list string) := match_items p s.

Fixpoint all_chars (cls : ascii → bool) (s : string) : bool :=
  match s with "" => true | String c s' => cls c && all_chars cls s' end.

(** ** Cutting at a separator *)
Fixpoint cut (sep : ascii) (s : string) : option (string * string) :=
  match s with
  | "" => None
  | String c s' =>
      if Ascii.eqb c sep then Some ("", s')
      else match cut sep s' with Some (h, t) => Some (String c h, t) | None => None end
  end.

Lemma cut_Split sep s :
  Split s sep = match cut sep s with Some (h, t) => h :: Split t sep | None => [s] end.
Proof.
  induction s as [|c s IH]; [done|]. cbn [Split cut].
  destruct (Ascii.eqb c sep); [done|]. rewrite IH.
  destruct (cut sep s) as [[h t]|]; done.
Qed.

Lemma cut_Some sep s h t :
  cut sep s = Some (h, t) ↔ s = h ++ String sep t ∧ free_of sep h = true.
Proof.
  revert h. induction s as [|c s IH]; intros h; cbn [cut].
  { split; [done|]. intros [E _]. by destruct h. }
  destruct (Ascii.eqb c sep) eqn:Ec.
  - apply Ascii.eqb_eq in Ec as ->. split; [by intros [= <- <-]|].
    intros [E F]. destruct h as [|d h]; simpl in *; [by simplify_eq|].
    injection E as -> ->. by rewrite Ascii.eqb_refl in F.
  - split.
    + destruct (cut sep s) as [[h' t']|] eqn:E; [|done]. intros [= <- <-].
      destruct (proj1 (IH h') eq_refl) as [-> F]. simpl. by rewrite Ec.
    + intros [E F]. destruct h as [|d h]; simpl in *.
      { injection E as -> ->. by rewrite Ascii.eqb_refl in Ec. }
      injection E as -> ->. rewrite Ec in F. simpl in F.
      by rewrite (proj2 (IH h) (conj eq_refl F)).
Qed.

Lemma cut_None sep s : cut sep s = None ↔ free_of sep s = true.
Proof.
  induction s as [|c s IH]; cbn [cut free_of]; [done|].
  destruct (Ascii.eqb c sep); [done|]. simpl.
  rewrite <-IH. destruct (cut sep s) as [[??]|]; done.
Qed.

Lemma free_of_drop sep k s : free_of sep s = true → free_of sep (drop k s) = true.
Proof.
  revert k. induction s as [|c s IH]; intros [|k] H; try done.
  simpl in *. apply andb_true_iff in H as [_ H]. by apply IH.
Qed.

Lemma drop_app_le k h u : k ≤ String.length h → drop k (h ++ u) = drop k h ++ u.
Proof.
  revert k. induction h as [|c h IH]; intros [|k]; try done; simpl; intros Hk; [lia|].
  apply IH. lia.
Qed.

Lemma take_app_le k h u : k ≤ String.length h → take k (h ++ u) = take k h.
Proof.
  revert k. induction h as [|c h IH]; intros [|k]; simpl; intros Hk; try done; try lia.
  f_equal. apply IH. lia.
Qed.

Lemma run_app cls mx sep h t :
  cls sep = false → run cls mx (h ++ String sep t) = run cls mx h.
Proof.
  intros Hs. revert mx. induction h as [|c h IH]; intros mx; simpl.
  { destruct mx as [[|n]|]; by rewrite ?Hs. }
  destruct mx as [[|n]|]; try done; destruct (cls c); try done; by rewrite IH.
Qed.

Lemma run_le_length cls mx s : run cls mx s ≤ String.length s.
Proof.
  revert mx. induction s as [|c s IH]; intros mx; simpl; [lia|].
  destruct mx as [[|n]|]; [lia| |]; destruct (cls c);
    (lia || (etrans; [apply le_n_S, IH|]; done)).
Qed.

Lemma HasPrefix_free sep l h t :
  free_of sep l = true → HasPrefix (h ++ String sep t) l = HasPrefix h l.
Proof.
  revert h. induction l as [|c l IH]; intros h H; [by destruct h|].
  simpl in H. apply andb_true_iff in H as [Hc Hl]. apply negb_true_iff in Hc.
  destruct h as [|d h]; simpl; [by rewrite Hc|]. by rewrite (IH _ Hl).
Qed.

Lemma HasPrefix_length l s : HasPrefix s l = true → String.length l ≤ String.length s.
Proof. intros [u ->]%HasPrefix_true. rewrite Strings.length_app. lia. Qed.

(** ** Patterns whose classes and literals exclude a separator *)
Definition item_free (sep : ascii) (i : item) : Prop :=
  match i with Lit l => free_of sep l = true | Rep cls _ _ _ => cls sep = false end.

Lemma try_from_ext {A} mn k (f g : nat → option A) :
  (∀ i, i ≤ k → f i = g i) → try_from mn k f = try_from mn k g.
Proof.
  induction k as [|k IH]; intros H; cbn [try_from];
    (destruct (Nat.ltb _ mn); [done|]); rewrite (H _ (le_n _));
    [done|].
  case_match; [done|]. apply IH. intros i Hi. apply H. lia.
Qed.

Lemma try_from_none {A} mn k (f : nat → option A) :
  (∀ i, i ≤ k → f i = None) → try_from mn k f = None.
Proof.
  induction k as [|k IH]; intros H; cbn [try_from];
    (destruct (Nat.ltb _ mn); [done|]); rewrite (H _ (le_n _)); [done|].
  apply IH. intros i Hi. apply H. lia.
Qed.

(** The search commutes with what follows it when that does not depend on it. *)
Lemma try_from_bind {A B C} mn k (g : nat → option A) (x : option B) (c : A → B → C) :
  try_from mn k (λ i, a ← g i; b ← x; Some (c a b)) =
  (a ← try_from mn k g; b ← x; Some (c a b)).
Proof.
  destruct x as [b|].
  - induction k as [|k IH]; cbn [try_from];
      (destruct (Nat.ltb _ mn); [done|]); destruct (g _); done.
  - rewrite try_from_none by (intros i _; by destruct (g i)).
    by destruct (try_from mn k g).
Qed.

Lemma try_from_map {A B} mn k (g : nat → option A) (h : nat → A → B) :
  try_from mn k (λ i, h i <$> g i) = try_from mn k (λ i, a ← g i; Some (h i a)).
Proof. apply try_from_ext. intros i _. by destruct (g i). Qed.

(** A separator-free pattern followed by the separator consumes exactly the
    text before it. *)
Lemma match_items_sep sep its rest s :
  Forall (item_free sep) its →
  match_items (its ++ Lit (String sep "") :: rest)%list s =
  match cut sep s with
  | None => None
  | Some (h, t) =>
      a ← match_items its h; b ← match_items rest t; Some (a ++ b)%list
  end.
Proof.
  intros Hf. revert s. induction Hf as [|i its Hi Hf IH]; intros s.
  - cbn [match_items app]. destruct (cut sep s) as [[h t]|] eqn:Ec.
    + apply cut_Some in Ec as [-> Hh]. destruct h as [|c h].
      * cbn. rewrite Ascii.eqb_refl. cbn. destruct t; by destruct (match_items rest _).
      * cbn in *. apply andb_true_iff in Hh as [Hc _]. apply negb_true_iff in Hc.
        by rewrite Ascii.eqb_sym, Hc.
    + apply cut_None in Ec. destruct s as [|c s]; [done|]. cbn in *.
      apply andb_true_iff in Ec as [Hc _]. apply negb_true_iff in Hc.
      by rewrite Ascii.eqb_sym, Hc.
  - destruct i as [l|cls mn mx cap]; cbn [match_items app item_free] in *.
    + destruct (cut sep s) as [[h t]|] eqn:Ec.
      * apply cut_Some in Ec as [-> Hh]. rewrite (HasPrefix_free sep) by done.
        destruct (HasPrefix h l) eqn:Ep; [|done].
        rewrite drop_app_le by (by apply HasPrefix_length). rewrite IH.
        rewrite (proj2 (cut_Some sep _ _ t) (conj eq_refl (free_of_drop _ _ _ Hh))). done.
      * destruct (HasPrefix s l); [|done]. rewrite IH.
        by rewrite (proj2 (cut_None sep _) (free_of_drop _ _ _ (proj1 (cut_None _ _) Ec))).
    + destruct (cut sep s) as [[h t]|] eqn:Ec.
      * apply cut_Some in Ec as [-> Hh]. rewrite (run_app _ _ sep) by done.
        rewrite <-(try_from_bind mn (run cls mx h)
          (λ k, captured cap (take k h) <$> match_items its (drop k h))
          (match_items rest t) (λ a b, a ++ b)%list).
        apply try_from_ext. intros k Hk.
        assert (k ≤ String.length h) by (pose proof (run_le_length cls mx h); lia).
        rewrite drop_app_le, take_app_le, IH by done.
        rewrite (proj2 (cut_Some sep _ _ t) (conj eq_refl (free_of_drop _ k _ Hh))).
        destruct (match_items its (drop k h)), (match_items rest t), cap; done.
      * apply try_from_none. intros k _. rewrite IH.
        by rewrite (proj2 (cut_None sep _) (free_of_drop _ _ _ (proj1 (cut_None _ _) Ec))).
Qed.

(** A pattern written as its fields between separators. *)
Fixpoint sep_items (sep : ascii) (fields : list pattern) : pattern :=
  match fields with
  | [] => []
  | [f] => f
  | f :: fs => (f ++ Lit (String sep "") :: sep_items sep fs)%list
  end.

Fixpoint match_fields (fields : list pattern) (parts : list string) : option (list string) :=
  match fields, parts with
  | [], [] => Some []
  | f :: fs, p :: ps => a ← match_items f p; b ← match_fields fs ps; Some (a ++ b)%list
  | _, _ => None
  end.

Lemma match_items_free_None sep its s :
  Forall (item_free sep) its → free_of sep s = false → match_items its s = None.
Proof.
  intros Hf. revert s. induction Hf as [|i its Hi Hf IH]; intros s Hs; cbn [match_items].
  - destruct s; [done|]. done.
  - destruct i as [l|cls mn mx cap]; cbn in Hi.
    + destruct (HasPrefix s l) eqn:E; [|done]. apply IH.
      apply HasPrefix_true in E as [u ->]. rewrite drop_app.
      by rewrite free_of_app, Hi in Hs.
    + apply try_from_none. intros k Hk. rewrite IH; [done|].
      clear -Hs Hk Hi. revert k mx Hk. induction s as [|c s IH]; intros [|k] mx Hk; try done.
      cbn in *. destruct (Ascii.eqb c sep) eqn:Ec.
      { apply Ascii.eqb_eq in Ec as ->. rewrite Hi in Hk.
        destruct mx as [[|]|]; simpl in Hk; lia. }
      simpl in Hs. destruct mx as [[|n]|]; [simpl in Hk; lia| |];
        (destruct (cls c); [|simpl in Hk; lia]); simpl in Hk; eapply (IH Hs); lia || (apply le_S_n; exact Hk).
Qed.

(** The field-wise reading of a separated pattern. *)
Lemma match_sep_items sep fields s :
  fields ≠ [] → Forall (Forall (item_free sep)) fields →
  match_items (sep_items sep fields) s = match_fields fields (Split s sep).
Proof.
  intros Hne Hf. revert s. induction Hf as [|f fs Hi Hf IH]; intros s; [done|].
  rewrite cut_Split. destruct fs as [|f' fs].
  - cbn [sep_items]. destruct (cut sep s) as [[h t]|] eqn:Ec.
    + rewrite (match_items_free_None sep) by (done || apply not_true_iff_false;
        intros E; apply cut_None in E; congruence).
      cbn. destruct (match_items f h); [|done]. cbn.
      destruct (Split t sep) eqn:E; [by destruct (Split_not_nil t sep)|done].
    + cbn. destruct (match_items f s); cbn; [by rewrite List.app_nil_r|done].
  - change (sep_items sep (f :: f' :: fs))
      with (f ++ Lit (String sep "") :: sep_items sep (f' :: fs))%list.
    rewrite match_items_sep by done.
    destruct (cut sep s) as [[h t]|]; cbn [match_fields]; [by rewrite (IH ltac:(done))|].
    by destruct (match_items f s).
Qed.

(** ** Single-item fields *)
Lemma run_all cls w : all_chars cls w = true → run cls None w = String.length w.
Proof.
  induction w as [|c w IH]; [done|]; simpl. intros [-> H]%andb_true_iff. by rewrite (IH H).
Qed.

Lemma run_max_le cls n w : run cls (Some n) w ≤ n.
Proof.
  revert n. induction w as [|c w IH]; intros [|n]; simpl; try lia.
  destruct (cls c); [specialize (IH n)|]; lia.
Qed.

Lemma run_all_max cls w : all_chars cls w = true →
  run cls (Some (String.length w)) w = String.length w.
Proof.
  induction w as [|c w IH]; [done|]; simpl. intros [-> H]%andb_true_iff.
  by rewrite (IH H).
Qed.

Lemma run_full cls mx w : run cls mx w = String.length w → all_chars cls w = true.
Proof.
  revert mx. induction w as [|c w IH]; intros mx; [done|]; simpl.
  destruct mx as [[|n]|]; [done| |]; (destruct (cls c); [|done]);
    intros [= H]; simpl; by eapply IH.
Qed.

Lemma length_drop k w : String.length (drop k w) = String.length w - k.
Proof. revert k. induction w as [|c w IH]; intros [|k]; simpl; auto. Qed.

Lemma drop_length w : drop (String.length w) w = "".
Proof. induction w; done. Qed.

Lemma take_length w : take (String.length w) w = w.
Proof. induction w as [|c w IH]; simpl; congruence. Qed.

Lemma try_from_top {A} mn k (f : nat → option A) :
  (∀ i, i < k → f i = None) →
  try_from mn k f = if Nat.ltb k mn then None else f k.
Proof.
  destruct k as [|k]; intros H; cbn [try_from];
    (destruct (Nat.ltb _ mn); [done|]); destruct (f _); try done.
  apply try_from_none. intros i Hi. apply H. lia.
Qed.

(** A lone class matches a word of accepted characters, nothing less. *)
Lemma match_Rep cls mn mx cap w :
  match_items [Rep cls mn mx cap] w =
  if Nat.eqb (run cls mx w) (String.length w) && Nat.leb mn (String.length w)
  then Some (captured cap w []) else None.
Proof.
  pose proof (run_le_length cls mx w) as Hr. cbn [match_items].
  assert (Hlt : ∀ i, i < String.length w →
    (captured cap (take i w) <$> (if String.eqb (drop i w) "" then Some [] else None)) = None).
  { intros i Hi. destruct (drop i w) eqn:E; [|done].
    pose proof (length_drop i w) as Hl. rewrite E in Hl. simpl in Hl. lia. }
  destruct (Nat.eqb_spec (run cls mx w) (String.length w)) as [->|Hn].
  - rewrite try_from_top by done. rewrite drop_length, take_length. cbn [andb].
    destruct (Nat.leb_spec mn (String.length w)), (Nat.ltb_spec (String.length w) mn); done || lia.
  - apply try_from_none. intros i Hi. apply Hlt. lia.
Qed.

Definition nonempty (s : string) : bool := negb (String.eqb s "").

Lemma match_Rep_plus cls cap w :
  match_items [Rep cls 1 None cap] w =
  if nonempty w && all_chars cls w then Some (captured cap w []) else None.
Proof.
  rewrite match_Rep. destruct (Nat.eqb_spec (run cls None w) (String.length w)) as [E|E].
  - apply run_full in E as ->. by destruct w.
  - destruct (all_chars cls w) eqn:Ea; [by apply run_all in Ea|by rewrite andb_false_r].
Qed.

Lemma match_Exactly cls n w :
  match_items [Exactly cls n] w =
  if Nat.eqb (String.length w) n && all_chars cls w then Some [] else None.
Proof.
  unfold Exactly. rewrite match_Rep. cbn [captured].
  pose proof (run_max_le cls n w). pose proof (run_le_length cls (Some n) w).
  destruct (Nat.eqb_spec (run cls (Some n) w) (String.length w)) as [E|E].
  - rewrite (run_full _ _ _ E), andb_true_r. cbn [andb].
    destruct (Nat.leb_spec n (String.length w)), (Nat.eqb_spec (String.length w) n); done || lia.
  - cbn [andb]. destruct (Nat.eqb_spec (String.length w) n) as [<-|]; [|done].
    destruct (all_chars cls w) eqn:Ea; [by apply run_all_max in Ea|done].
Qed.

Lemma match_Lit l w : match_items [Lit l] w = if String.eqb w l then Some [] else None.
Proof.
  cbn. destruct (HasPrefix w l) eqn:E.
  - apply HasPrefix_true in E as [u ->]. rewrite drop_app. destruct u as [|c u].
    + by rewrite app_nil_r, !String.eqb_refl.
    + cbn. destruct (String.eqb_spec (l ++ String c u) l) as [E|]; [|done].
      apply (f_equal String.length) in E. rewrite Strings.length_app in E. simpl in E. lia.
  - destruct (String.eqb_spec w l) as [->|]; [|done].
    pose proof (HasPrefix_app l "") as E'. rewrite app_nil_r in E'. congruence.
Qed.

Lemma all_chars_free cls sep s : cls sep = false → all_chars cls s = true → free_of sep s = true.
Proof.
  intros Hs. induction s as [|c s IH]; [done|]; simpl. intros [Hc H]%andb_true_iff.
  rewrite (IH H), andb_true_r. destruct (Ascii.eqb_spec c sep) as [->|]; [congruence|done].
Qed.

(** Splitting a join of separator-free words gives the words back. *)
Lemma Split_Join ws sep :
  ws ≠ [] → Forall (λ w, free_of sep w = true) ws → Split (Join ws (String sep "")) sep = ws.
Proof.
  intros Hne Hf. induction Hf as [|w ws Hw Hf IH]; [done|].
  destruct ws as [|w' ws]; [by apply Split_free|].
  change (Join (w :: w' :: ws) (String sep ""))
    with (w ++ String sep (Join (w' :: ws) (String sep ""))).
  rewrite Split_cons by done. by rewrite IH.
Qed.

(** ** The language of a pattern *)
Fixpoint lang (its : pattern) (s : string) : Prop :=
  match its with
  | [] => s = ""
  | Lit l :: its' => ∃ u, s = l ++ u ∧ lang its' u
  | Rep cls mn mx _ :: its' =>
      ∃ w u, s = w ++ u ∧ all_chars cls w = true ∧ mn ≤ String.length w ∧
             (∀ n, mx = Some n → String.length w ≤ n) ∧ lang its' u
  end.

Ltac split_ltb :=
  match goal with |- context [Nat.ltb ?a ?b] => destruct (Nat.ltb_spec a b) end.

Lemma try_from_Some {A} mn k (f : nat → option A) a :
  try_from mn k f = Some a → ∃ i, mn ≤ i ≤ k ∧ f i = Some a.
Proof.
  induction k as [|k IH]; cbn [try_from]; split_ltb; try done.
  - destruct (f 0) eqn:E; [|done]. intros [= ->]. exists 0. split; [lia|done].
  - destruct (f (S k)) eqn:E; [intros [= ->]; exists (S k); split; [lia|done]|].
    intros (i & ? & ?)%IH. exists i. split; [lia|done].
Qed.

Lemma try_from_is_Some {A} mn k (f : nat → option A) i :
  mn ≤ i ≤ k → is_Some (f i) → is_Some (try_from mn k f).
Proof.
  intros Hi Hf. induction k as [|k IH]; cbn [try_from]; split_ltb; try lia.
  - replace i with 0 in Hf by lia. destruct Hf as [a ->]. by eexists.
  - destruct (f (S k)) eqn:E; [by eexists|].
    destruct (decide (i = S k)) as [->|]; [rewrite E in Hf; by destruct Hf|].
    apply IH. lia.
Qed.

Lemma take_drop k s : take k s ++ drop k s = s.
Proof.
  revert k. induction s as [|c s IH]; intros [|k]; simpl; try done. by rewrite IH.
Qed.

Lemma take_run cls mx k s :
  k ≤ run cls mx s →
  all_chars cls (take k s) = true ∧ String.length (take k s) = k ∧ (∀ n, mx = Some n → k ≤ n).
Proof.
  revert k mx. induction s as [|c s IH]; intros k mx; simpl.
  { intros Hk. assert (k = 0) as -> by lia. split_and!; [done|done|]. intros; lia. }
  destruct k as [|k]; [intros _; split_and!; [done|done|]; intros; lia|].
  destruct mx as [[|n]|]; simpl; [lia| |]; (destruct (cls c) eqn:Ec; simpl; [|lia]);
    intros Hk%le_S_n; destruct (IH _ _ Hk) as (-> & -> & Hb); split_and!; try done.
  intros n' [= <-]. specialize (Hb n eq_refl). lia.
Qed.

Lemma run_ge cls mx w u :
  all_chars cls w = true → (∀ n, mx = Some n → String.length w ≤ n) →
  String.length w ≤ run cls mx (w ++ u).
Proof.
  revert mx. induction w as [|c w IH]; intros mx Ha Hb; simpl in *; [lia|].
  apply andb_true_iff in Ha as [-> Ha].
  destruct mx as [[|n]|]; simpl.
  - specialize (Hb 0 eq_refl). lia.
  - apply le_n_S, IH; [done|]. intros n' [= <-]. specialize (Hb (S n) eq_refl). lia.
  - apply le_n_S, IH; done.
Qed.

(** The greedy search is sound and complete for the language. *)
Lemma match_items_lang its s : is_Some (match_items its s) ↔ lang its s.
Proof.
  revert s. induction its as [|[l|cls mn mx cap] its IH]; intros s; cbn [match_items lang].
  - destruct (String.eqb_spec s "") as [->|]; split; intros H; try done.
    all: by (eexists || destruct H).
  - split.
    + destruct (HasPrefix s l) eqn:E; [|by intros [? ?]].
      apply HasPrefix_true in E as [u ->]. rewrite drop_app. intros H%IH. by exists u.
    + intros (u & -> & H%IH). by rewrite HasPrefix_app, drop_app.
  - split.
    + intros [caps H]. apply try_from_Some in H as (k & Hk & H).
      apply fmap_Some in H as (caps' & H & _).
      destruct (take_run cls mx k s) as (Ha & Hl & Hb); [lia|].
      exists (take k s), (drop k s). rewrite take_drop, Hl.
      split_and!; [done|done|lia|done|]. apply IH. by eexists.
    + intros (w & u & -> & Ha & Hmn & Hmx & H%IH).
      apply (try_from_is_Some _ _ _ (String.length w)).
      { split; [done|]. by apply run_ge. }
      rewrite drop_app. destruct H as [caps ->]. by eexists.
Qed.

(** The regular expression search is correct: a pattern matches a text
    exactly when the text is in its language. *)
Theorem MatchString_lang (p : pattern) (s : string) : MatchString p s = true ↔ lang p s.
Proof. unfold MatchString. rewrite bool_decide_eq_true. apply match_items_lang. Qed.

Lemma MatchString_false p s : MatchString p s = false ↔ ¬ lang p s.
Proof. rewrite <-MatchString_lang. by destruct (MatchString p s). Qed.

Lemma lang_app p q s : lang (p ++ q)%list s ↔ ∃ u v, s = u ++ v ∧ lang p u ∧ lang q v.
Proof.
  revert s. induction p as [|[l|cls mn mx cap] p IH]; intros s; cbn [lang app].
  - split; [intros H; by exists "", s|by intros (u & v & -> & -> & H)].
  - setoid_rewrite IH. split.
    + intros (x & -> & u & v & -> & ? & ?). exists (l ++ u), v.
      rewrite Strings.app_assoc. split_and!; eauto.
    + intros (u & v & -> & (x & -> & ?) & ?). exists (x ++ v).
      rewrite Strings.app_assoc. split; eauto 6.
  - setoid_rewrite IH. split.
    + intros (w & x & -> & ? & ? & ? & u & v & -> & ? & ?). exists (w ++ u), v.
      rewrite Strings.app_assoc. split_and!; [done| |done]. exists w, u. by split_and!.
    + intros (u & v & -> & (w & x & -> & ? & ? & ? & ?) & ?). exists w, (x ++ v).
      rewrite Strings.app_assoc. split_and!; eauto.
Qed.

Lemma lang_free sep p s : Forall (item_free sep) p → lang p s → free_of sep s = true.
Proof.
  intros Hf H%match_items_lang. destruct (free_of sep s) eqn:E; [done|].
  rewrite (match_items_free_None sep) in H by done. by destruct H.
Qed.
