(* ===== verification/Errors.v ===== *)
(** * Errors: Go error values and the classification of IBM Cloud errors

    Module [GoErrors] models the [error] interface as the values that flow
    through the provider, with [errors.As] over their unwrap trees.  Module
    [HttpClient] is the error part of [pkg/httpclient/client.go]; module
    [IBM] is [pkg/cloudprovider/ibm/errors.go]; module [Retry] is
    [pkg/cloudprovider/ibm/ratelimit_retry.go]. *)
From stdpp Require Import prelude list strings pretty.
From Stdlib Require Import Ascii.
From S2P Require Import Prelude GoLib.

Open Scope string_scope.

(** JSON as [encoding/json] decodes it into an [interface{}]; numbers and
    literals are kept as their text. *)
Inductive json : Type :=
  | JString (s : string)
  | JObject (fields : list (string * json))
  | JArray (l : list json)
  | JLiteral (s : string).

(** [m[k]] of a decoded object: the last duplicate wins in Go's decoder, so the
    list holds each key once and the first occurrence is the entry. *)
Fixpoint json_field (fields : list (string * json)) (k : string) : option json :=
  match fields with
  | [] => None
  | (k', v) :: fs => if String.eqb k k' then Some v else json_field fs k
  end.

(** [x, _ = m[k].(string)]: the zero value when absent or not a string. *)
Definition json_string (fields : list (string * json)) (k : string) : string :=
  match json_field fields k with Some (JString s) => s | _ => "" end.

(** [core.DetailedResponse] of the IBM SDK: [Headers] as its [Get] function
    and whether the map is nil. *)
Record DetailedResponse := {
  StatusCode : Z;
  Headers : option (string → string);
  Result : option json;
}.

(** [Headers.Get(k)], also on a nil map. *)
Definition header (r : DetailedResponse) (k : string) : string :=
  match Headers r with Some h => h k | None => "" end.

Module HttpClient.
Record IBMCloudError := {
  http_StatusCode : Z;
  http_Code : string;
  http_Message : string;
  http_Description : string;
  http_Type : string;
  http_Endpoint : string;
}.

Definition Error (e : IBMCloudError) : string :=
  if negb (String.eqb (http_Code e) "") then
    "IBM Cloud API error (code: " ++ http_Code e ++ "): " ++ http_Description e
      ++ " (endpoint: " ++ http_Endpoint e ++ ")"
  else "HTTP " ++ Strconv.Itoa (http_StatusCode e) ++ ": " ++ http_Message e
      ++ " (endpoint: " ++ http_Endpoint e ++ ")".

Definition IsNotFound (e : IBMCloudError) : bool := (http_StatusCode e =? 404)%Z.
Definition IsForbidden (e : IBMCloudError) : bool := (http_StatusCode e =? 403)%Z.
Definition IsUnauthorized (e : IBMCloudError) : bool := (http_StatusCode e =? 401)%Z.

(** The anonymous struct the body is decoded into. *)
Record errorResp := {
  er_Code : string;
  er_Description : string;
  er_Message : string;
  er_Type : string;
}.

(** [json.Unmarshal] into that struct, an argument: [None] is its error. *)
Definition parseIBMCloudError (unmarshal : string → option errorResp)
    (statusCode : Z) (body endpoint : string) : IBMCloudError :=
  match unmarshal body with
  | Some r =>
      {| http_StatusCode := statusCode; http_Code := er_Code r; http_Message := er_Message r;
         http_Description := er_Description r; http_Type := er_Type r;
         http_Endpoint := endpoint |}
  | None =>
      {| http_StatusCode := statusCode; http_Code := ""; http_Message := body;
         http_Description := ""; http_Type := ""; http_Endpoint := endpoint |}
  end.
End HttpClient.

Module GoErrors.
(** The errors of libraries the provider looks for with [errors.As] or
    [errors.Is], two errors of its own it looks for in the same way, and
    [Plain] for every other one ([errors.New], [fmt.Errorf] with or without
    [%w]). *)
Inductive foreign : Type :=
  | Plain
  | HTTPProblem (resp : option DetailedResponse)
  | SDKProblem
  | NetError (timeout : bool)
  | Canceled
  | DeadlineExceeded
  | KubeStatus (reason : string)
  | NodeClaimNotFoundError
  | InsufficientCapacityError
  | NodeClassNotReadyError
  | CreateError (conditionReason conditionMessage : string)
  | CreateInstanceNotSentError
  | LaunchUnresolved.

Inductive ErrorType : Type :=
  | ErrorTypeUnknown
  | ErrorTypeNotFound
  | ErrorTypeUnauthorized
  | ErrorTypeForbidden
  | ErrorTypeRateLimit
  | ErrorTypeServerError
  | ErrorTypeClientError
  | ErrorTypeTimeout
  | ErrorTypeConflict
  | ErrorTypeValidation.

(** [IBMError] over the type of the error it wraps. *)
Record IBMError_of (E : Type) := {
  Type_ : ErrorType;
  Status : Z;
  Code : string;
  Message : string;
  MoreInfo : string;
  Retryable : bool;
  RetryAfter : Z;
  wrapped : option E;
}.
Arguments Type_ {E}. Arguments Status {E}. Arguments Code {E}. Arguments Message {E}.
Arguments MoreInfo {E}. Arguments Retryable {E}. Arguments RetryAfter {E}. Arguments wrapped {E}.

(** A library error carries whatever its [Error] and [Unwrap] methods return. *)
Inductive error : Type :=
  | foreignError (k : foreign) (text : string) (causes : list error)
  | httpError (e : HttpClient.IBMCloudError)
  | ibmError (e : IBMError_of error).

Definition IBMError := IBMError_of error.

Definition ibm_Error (e : IBMError) : string :=
  if negb (String.eqb (Code e) "") then
    "IBM Cloud error (code: " ++ Code e ++ ", status: " ++ Strconv.Itoa (Status e) ++ "): "
      ++ Message e
  else "IBM Cloud error (status: " ++ Strconv.Itoa (Status e) ++ "): " ++ Message e.

Definition Error (err : error) : string :=
  match err with
  | foreignError _ text _ => text
  | httpError e => HttpClient.Error e
  | ibmError e => ibm_Error e
  end.

(** [errors.As]: the first error of the unwrap tree, in depth-first order,
    that the target type accepts. *)
Fixpoint As {T} (sel : error → option T) (err : error) {struct err} : option T :=
  match sel err with
  | Some t => Some t
  | None =>
      match err with
      | foreignError _ _ causes =>
          (fix first (l : list error) : option T :=
             match l with
             | [] => None
             | e :: l' => match As sel e with Some t => Some t | None => first l' end
             end) causes
      | httpError _ => None
      | ibmError e => match wrapped e with Some w => As sel w | None => None end
      end
  end.

Definition as_ibm (err : error) : option IBMError :=
  match err with ibmError e => Some e | _ => None end.
Definition as_http (err : error) : option HttpClient.IBMCloudError :=
  match err with httpError e => Some e | _ => None end.
Definition as_httpProblem (err : error) : option (option DetailedResponse) :=
  match err with foreignError (HTTPProblem r) _ _ => Some r | _ => None end.
Definition as_sdkProblem (err : error) : option unit :=
  match err with foreignError SDKProblem _ _ => Some tt | _ => None end.
Definition as_net (err : error) : option bool :=
  match err with
  | foreignError (NetError t) _ _ => Some t
  | foreignError DeadlineExceeded _ _ => Some true
  | _ => None
  end.
Definition as_deadline (err : error) : option unit :=
  match err with foreignError DeadlineExceeded _ _ => Some tt | _ => None end.
Definition as_kube (err : error) : option string :=
  match err with foreignError (KubeStatus r) _ _ => Some r | _ => None end.
Definition as_claim_not_found (err : error) : option unit :=
  match err with foreignError NodeClaimNotFoundError _ _ => Some tt | _ => None end.

Definition New (s : string) : error := foreignError Plain s [].
(** [fmt.Errorf("...%w...", err)] with the formatted text. *)
Definition wrap (s : string) (err : error) : error := foreignError Plain s [err].

Lemma As_wrap {T} (sel : error → option T) s err :
  (∀ s cs, sel (foreignError Plain s cs) = None) → As sel (wrap s err) = As sel err.
Proof. intros Hp. cbn. rewrite Hp. by destruct (As sel err). Qed.

Lemma As_sel {T} (sel : error → option T) err t : sel err = Some t → As sel err = Some t.
Proof. intros E. destruct err; cbn; by rewrite E. Qed.

Lemma as_ibm_wrap s err : As as_ibm (wrap s err) = As as_ibm err.
Proof. by apply As_wrap. Qed.
Lemma as_http_wrap s err : As as_http (wrap s err) = As as_http err.
Proof. by apply As_wrap. Qed.
Lemma as_httpProblem_wrap s err : As as_httpProblem (wrap s err) = As as_httpProblem err.
Proof. by apply As_wrap. Qed.
Lemma as_sdkProblem_wrap s err : As as_sdkProblem (wrap s err) = As as_sdkProblem err.
Proof. by apply As_wrap. Qed.
Lemma as_kube_wrap s err : As as_kube (wrap s err) = As as_kube err.
Proof. by apply As_wrap. Qed.
End GoErrors.
#[export] Hint Rewrite GoErrors.as_ibm_wrap GoErrors.as_http_wrap GoErrors.as_httpProblem_wrap
  GoErrors.as_sdkProblem_wrap GoErrors.as_kube_wrap : go_rw.

Module IBM.
Import GoErrors.

Definition IsNotFound_ (e : IBMError) : bool :=
  match Type_ e with ErrorTypeNotFound => true | _ => (Status e =? 404)%Z end.
Definition IsUnauthorized_ (e : IBMError) : bool :=
  match Type_ e with ErrorTypeUnauthorized => true | _ => (Status e =? 401)%Z end.
Definition IsForbidden_ (e : IBMError) : bool :=
  match Type_ e with ErrorTypeForbidden => true | _ => (Status e =? 403)%Z end.
Definition IsRateLimit_ (e : IBMError) : bool :=
  match Type_ e with ErrorTypeRateLimit => true | _ => (Status e =? 429)%Z end.
Definition IsServerError_ (e : IBMError) : bool :=
  match Type_ e with
  | ErrorTypeServerError => true
  | _ => (500 <=? Status e)%Z && (Status e <? 600)%Z
  end.
Definition IsClientError_ (e : IBMError) : bool :=
  match Type_ e with
  | ErrorTypeClientError => true
  | _ => (400 <=? Status e)%Z && (Status e <? 500)%Z
  end.
Definition IsTimeout_ (e : IBMError) : bool :=
  match Type_ e with
  | ErrorTypeTimeout => true
  | _ => (Status e =? 408)%Z || Strings.Contains (Strings.ToLower (Message e)) "timeout"
  end.
Definition IsConflict_ (e : IBMError) : bool :=
  match Type_ e with ErrorTypeConflict => true | _ => (Status e =? 409)%Z end.
Definition IsValidation_ (e : IBMError) : bool :=
  match Type_ e with
  | ErrorTypeValidation => true
  | _ => (Status e =? 422)%Z || (Status e =? 400)%Z
  end.

(** The switch over the status of a response. *)
Definition status_type (status : Z) : ErrorType :=
  if (status =? 404)%Z then ErrorTypeNotFound
  else if (status =? 401)%Z then ErrorTypeUnauthorized
  else if (status =? 403)%Z then ErrorTypeForbidden
  else if (status =? 429)%Z then ErrorTypeRateLimit
  else if (status =? 409)%Z then ErrorTypeConflict
  else if (status =? 400)%Z || (status =? 422)%Z then ErrorTypeValidation
  else if (status =? 408)%Z then ErrorTypeTimeout
  else if (500 <=? status)%Z then ErrorTypeServerError
  else if (400 <=? status)%Z then ErrorTypeClientError
  else ErrorTypeUnknown.

(** The object the code, the other code and the link are read from. *)
Definition error_details (r : DetailedResponse) : option (list (string * json)) :=
  match Result r with
  | Some (JObject details) =>
      match json_field details "errors" with
      | Some (JArray (JObject first :: _)) => Some first
      | _ => Some details
      end
  | _ => None
  end.

(** [ParseErrorResponse] with a non-nil error and response. *)
Definition parse_response (err : error) (response : DetailedResponse) : IBMError :=
  let '(code, moreInfo) :=
    match error_details response with
    | Some details =>
        let code := json_string details "code" in
        (if String.eqb code "" then json_string details "errorCode" else code,
         json_string details "more_info")
    | None => ("", "")
    end in
  let '(retryAfter, ok) := Strconv.Atoi (header response "Retry-After") in
  {| Type_ := status_type (StatusCode response);
     Status := StatusCode response;
     Code := code;
     Message := Error err;
     MoreInfo := moreInfo;
     Retryable := (500 <=? StatusCode response)%Z || (StatusCode response =? 429)%Z
                    || (StatusCode response =? 408)%Z;
     RetryAfter := if ok && (0 <=? retryAfter)%Z then retryAfter else 0%Z;
     wrapped := Some err |}.

(** First switch of [parseErrorString]: type, status and [Retryable] from the
    lower-cased text. *)
Definition words_class (errStr : string) : ErrorType * Z * bool :=
  let has w := Strings.Contains errStr w in
  if has "not found" || has "not_found" then (ErrorTypeNotFound, 404%Z, false)
  else if has "unauthorized" || has "authentication" then (ErrorTypeUnauthorized, 401%Z, false)
  else if has "forbidden" || has "permission" then (ErrorTypeForbidden, 403%Z, false)
  else if has "rate limit" || has "too many requests" then (ErrorTypeRateLimit, 429%Z, true)
  else if has "timeout" then (ErrorTypeTimeout, 408%Z, true)
  else if has "conflict" || has "already exists" then (ErrorTypeConflict, 409%Z, false)
  else if has "invalid" || has "validation" then (ErrorTypeValidation, 400%Z, false)
  else if has "internal server error" || has "500" then (ErrorTypeServerError, 500%Z, true)
  else (ErrorTypeUnknown, 0%Z, false).

(** Second chain of [parseErrorString]: a status written in the text
    overrides the type and the status. *)
Definition digits_class (errStr : string) (c : ErrorType * Z * bool) : ErrorType * Z * bool :=
  let has w := Strings.Contains errStr w in
  let '(_, _, retryable) := c in
  if has "404" then (ErrorTypeNotFound, 404%Z, retryable)
  else if has "401" then (ErrorTypeUnauthorized, 401%Z, retryable)
  else if has "403" then (ErrorTypeForbidden, 403%Z, retryable)
  else if has "429" then (ErrorTypeRateLimit, 429%Z, true)
  else if has "500" || has "502" || has "503" || has "504" then
    (ErrorTypeServerError,
     if has "502" then 502%Z else if has "503" then 503%Z
     else if has "504" then 504%Z else 500%Z, true)
  else c.

Definition parseErrorString (err : error) : IBMError :=
  let errStr := Strings.ToLower (Error err) in
  let '(t, status, retryable) := digits_class errStr (words_class errStr) in
  {| Type_ := t; Status := status; Code := ""; Message := Error err; MoreInfo := "";
     Retryable := retryable; RetryAfter := 0%Z; wrapped := Some err |}.

(** An error without a response: nothing but its message is known. *)
Definition unclassified (err : error) : IBMError :=
  {| Type_ := ErrorTypeUnknown; Status := 0%Z; Code := ""; Message := Error err;
     MoreInfo := ""; Retryable := false; RetryAfter := 0%Z; wrapped := Some err |}.

(** [ParseError] of a non-nil error. *)
Definition ParseError_ (err : error) : IBMError :=
  match As as_ibm err with
  | Some e => e
  | None =>
      match As as_httpProblem err with
      | Some (Some response) => parse_response err response
      | Some None => unclassified err
      | None =>
          match As as_sdkProblem err with
          | Some _ => unclassified err
          | None => parseErrorString err
          end
      end
  end.

Definition ParseError (err : option error) : option IBMError := ParseError_ <$> err.

Definition ParseErrorResponse (err : option error) (response : option DetailedResponse)
    : option IBMError :=
  match err, response with
  | None, _ => None
  | Some _, None => ParseError err
  | Some e, Some r => Some (parse_response e r)
  end.

Definition on_error (f : IBMError → bool) (err : option error) : bool :=
  match ParseError err with Some e => f e | None => false end.

Definition IsNotFound : option error → bool := on_error IsNotFound_.
Definition IsRetryable : option error → bool := on_error Retryable.
Definition IsRateLimit : option error → bool := on_error IsRateLimit_.
Definition IsTimeout : option error → bool := on_error IsTimeout_.

(** The specification of the classification: an error that came with a
    response is classified by the response's status alone. *)
Definition status_class (status : Z) : ErrorType * bool :=
  (status_type status, (500 <=? status)%Z || (status =? 429)%Z || (status =? 408)%Z).

Definition classified (e : IBMError) (status : Z) : Prop :=
  Status e = status ∧ (Type_ e, Retryable e) = status_class status.

Lemma parse_response_classified err r : classified (parse_response err r) (StatusCode r).
Proof.
  unfold parse_response, classified, status_class.
  repeat case_match; simplify_eq/=; done.
Qed.

Lemma status_type_not_found s : status_type s = ErrorTypeNotFound ↔ s = 404%Z.
Proof.
  unfold status_type. split; [|intros ->; done].
  repeat case_match; try done. intros _. by apply Z.eqb_eq.
Qed.

Lemma status_type_rate_limit s : status_type s = ErrorTypeRateLimit ↔ s = 429%Z.
Proof.
  unfold status_type. split; [|intros ->; done].
  repeat case_match; try done. intros _. by apply Z.eqb_eq.
Qed.

Lemma classified_not_found e s : classified e s → IsNotFound_ e = (s =? 404)%Z.
Proof.
  intros [<- [= Ht _]]. unfold IsNotFound_.
  destruct (Type_ e) eqn:E; try done. symmetry in Ht.
  apply status_type_not_found in Ht as ->. done.
Qed.

Lemma classified_rate_limit e s : classified e s → IsRateLimit_ e = (s =? 429)%Z.
Proof.
  intros [<- [= Ht _]]. unfold IsRateLimit_.
  destruct (Type_ e) eqn:E; try done. symmetry in Ht.
  apply status_type_rate_limit in Ht as ->. done.
Qed.

(** What [ParseError_] returns for each source of the error. *)
Lemma ParseError_typed err e : As as_ibm err = Some e → ParseError_ err = e.
Proof. unfold ParseError_. by intros ->. Qed.

Lemma ParseError_response err r :
  As as_ibm err = None → As as_httpProblem err = Some (Some r) →
  classified (ParseError_ err) (StatusCode r).
Proof. unfold ParseError_. intros -> ->. apply parse_response_classified. Qed.

Lemma ParseError_text err :
  As as_ibm err = None → As as_httpProblem err = None → As as_sdkProblem err = None →
  ParseError_ err = parseErrorString err.
Proof. unfold ParseError_. by intros -> -> ->. Qed.

(** Any number of [fmt.Errorf("...: %w", err)] around an error. *)
Definition wraps (texts : list string) (err : error) : error := foldr wrap err texts.

Lemma As_wraps {T} (sel : error → option T) texts err :
  (∀ s cs, sel (foreignError Plain s cs) = None) → As sel (wraps texts err) = As sel err.
Proof.
  intros Hp. induction texts as [|s l IH]; [done|].
  change (wraps (s :: l) err) with (wrap s (wraps l err)).
  rewrite As_wrap by done. exact IH.
Qed.

(** C37. An error that carries a response of the IBM SDK is classified by the
    response's status code alone: through any wrapping, and whatever the
    texts say, it is "not found" exactly for 404, rate limited exactly for
    429, and retryable exactly for 408, 429 and 5xx. *)
Theorem response_decides_class (texts : list string) (err : error) (r : DetailedResponse)
    (Hibm : As as_ibm err = None)
    (Hresp : As as_httpProblem err = Some (Some r)) :
  IsNotFound (Some (wraps texts err)) = (StatusCode r =? 404)%Z ∧
  IsRateLimit (Some (wraps texts err)) = (StatusCode r =? 429)%Z ∧
  IsRetryable (Some (wraps texts err)) =
    (500 <=? StatusCode r)%Z || (StatusCode r =? 429)%Z || (StatusCode r =? 408)%Z.
Proof.
  assert (Hc : classified (ParseError_ (wraps texts err)) (StatusCode r)).
  { apply ParseError_response; by rewrite As_wraps. }
  unfold IsNotFound, IsRateLimit, IsRetryable, on_error; cbn.
  rewrite (classified_not_found _ _ Hc), (classified_rate_limit _ _ Hc).
  by destruct Hc as [_ [= _ ->]].
Qed.

Definition response_503 : DetailedResponse :=
  {| StatusCode := 503%Z; Headers := None; Result := None |}.

(** A 503 whose text says "not found" is not read as absence. *)
Lemma response_decides_class_witness :
  IsNotFound (Some (wraps ["getting instance"]
    (foreignError (HTTPProblem (Some response_503)) "backend not found 404" []))) = false.
Proof.
  destruct (response_decides_class ["getting instance"]
    (foreignError (HTTPProblem (Some response_503)) "backend not found 404" []) response_503
    eq_refl eq_refl) as [H _].
  rewrite H. reflexivity.
Defined.

(** An SDK error without a response is never read as absence, as a rate
    limit or as retryable, whatever its text says: the request may or may not
    have been sent. *)
Theorem no_response_is_unknown (texts : list string) (err : error)
    (Hibm : As as_ibm err = None)
    (Hsdk : As as_httpProblem err = Some None ∨
            As as_httpProblem err = None ∧ As as_sdkProblem err = Some tt) :
  let e := Some (wraps texts err) in
  IsNotFound e = false ∧ IsRateLimit e = false ∧ IsRetryable e = false.
Proof.
  assert (Hu : ParseError_ (wraps texts err) = unclassified (wraps texts err)).
  { unfold ParseError_. rewrite !As_wraps by done. rewrite Hibm.
    destruct Hsdk as [->|[-> ->]]; done. }
  unfold IsNotFound, IsRateLimit, IsRetryable, on_error; cbn. rewrite Hu. done.
Qed.

Lemma no_response_is_unknown_witness :
  IsNotFound (Some (wraps [] (foreignError SDKProblem "host not found" []))) = false.
Proof.
  destruct (no_response_is_unknown [] (foreignError SDKProblem "host not found" [])
    eq_refl (or_intror (conj eq_refl eq_refl))) as [H _].
  exact H.
Defined.

(** C38. Whatever error it parses (an [IBMError] already in the tree apart),
    [ParseError] returns a type that agrees with the status it returns: the
    [Is...] predicates, which test either, cannot contradict each other. *)
Theorem parsed_type_matches_status (err : error) (Hibm : As as_ibm err = None) :
  Type_ (ParseError_ err) = status_type (Status (ParseError_ err)).
Proof.
  unfold ParseError_. rewrite Hibm.
  destruct (As as_httpProblem err) as [[r|]|] eqn:Er; [| |].
  - by destruct (parse_response_classified err r) as [<- [= -> _]].
  - done.
  - destruct (As as_sdkProblem err); [done|].
    unfold parseErrorString. set (errStr := Strings.ToLower (Error err)).
    unfold digits_class, words_class.
    generalize (Strings.Contains errStr); intros has.
    repeat match goal with
    | |- context [if ?b then _ else _] =>
        match b with context [if _ then _ else _] => fail 1 | _ => destruct b end
    end; reflexivity.
Qed.

Lemma parsed_type_matches_status_witness :
  Type_ (ParseError_ (New "HTTP 502 from gateway")) = ErrorTypeServerError.
Proof.
  rewrite (parsed_type_matches_status (New "HTTP 502 from gateway") eq_refl).
  vm_compute. reflexivity.
Defined.

(** For an error with no structure the text decides, and the digits "404"
    anywhere in it, an instance id included, make it "not found": such a
    failure reads as the resource's absence even when it is also a timeout
    that the same parse reports as retryable. *)
Theorem digits_in_text_read_as_absence (text : string)
    (H404 : Strings.Contains (Strings.ToLower text) "404" = true) :
  IsNotFound (Some (New text)) = true ∧
  (Strings.Contains (Strings.ToLower text) "timeout" = true →
   IsTimeout (Some (New text)) = true).
Proof.
  unfold IsNotFound, IsTimeout, on_error. cbn [ParseError fmap option_fmap option_map].
  rewrite ParseError_text by done. unfold parseErrorString, New. cbn [Error].
  unfold digits_class. destruct (words_class _) as [[t s] b]. rewrite H404. split; [done|].
  cbn. by intros ->.
Qed.

Lemma digits_in_text_read_as_absence_witness :
  IsNotFound (Some (New "timeout deleting instance 0717_4044ab")) = true ∧
  IsRetryable (Some (New "timeout deleting instance 0717_4044ab")) = true.
Proof.
  split; [|vm_compute; reflexivity].
  destruct (digits_in_text_read_as_absence "timeout deleting instance 0717_4044ab"
    ltac:(vm_compute; reflexivity)) as [H _].
  exact H.
Defined.
End IBM.

Module Retry.
Import GoErrors GoTime.
Open Scope Z_scope.

Definition initialBackoff : Z := 100 * Millisecond.
Definition maxBackoff : Z := 30 * Second.
Definition maxAttempts : nat := 5%nat.

(** int64 arithmetic wraps around. *)
Definition wrap64 (z : Z) : Z := (z + 2 ^ 63) mod 2 ^ 64 - 2 ^ 63.

(** One call of [fn]: its result, response and error. *)
Record reply (T : Type) := {
  rp_result : T;
  rp_response : option DetailedResponse;
  rp_err : option error;
}.
Arguments rp_result {T}. Arguments rp_response {T}. Arguments rp_err {T}.

Section retry.
Context {T : Type} (zero : T).
(** [http.ParseTime] and the reading of [time.Now] that [time.Until] makes. *)
Context (ParseTime : string → option Z).

(** The delay before the cap. *)
Definition requested_delay (now : Z) (response : DetailedResponse) (backoff : Z) : Z :=
  match Headers response with
  | None => backoff
  | Some h =>
      let ra := h "Retry-After"%string in
      if String.eqb ra "" then backoff
      else
        let '(secs, ok) := Strconv.Atoi ra in
        if ok && (0 <? secs) then wrap64 (secs * Second)
        else match ParseTime ra with
             | Some t => let d := Sub t now in if 0 <? d then d else backoff
             | None => backoff
             end
  end.

Definition retry_delay (now : Z) (response : DetailedResponse) (backoff : Z) : Z :=
  let delay := requested_delay now response backoff in
  if maxBackoff <? delay then maxBackoff else delay.

Definition rate_limited (r : reply T) : option DetailedResponse :=
  match rp_response r with
  | Some resp => if StatusCode resp =? 429 then Some resp else None
  | None => None
  end.

(** The context's end while the i-th delay runs, with [ctx.Err()]. *)
Context (ctx_done : nat → option error) (now : clock).

(** The loop: [replies i] is what the i-th call of [fn] returns.  The result
    comes with the number of calls made and the delays slept. *)
Fixpoint retry_loop (fuel attempt : nat) (backoff : Z) (replies : nat → reply T)
    : (T * option error) * (nat * list Z) :=
  match fuel with
  | O => ((zero, Some (New ("rate limited after " ++ Strconv.Itoa (Z.of_nat maxAttempts)
                              ++ " attempts"))), (attempt, []))
  | S fuel' =>
      match rate_limited (replies attempt) with
      | None => ((rp_result (replies attempt), rp_err (replies attempt)), (S attempt, []))
      | Some response =>
          let delay := retry_delay (now attempt) response backoff in
          match ctx_done attempt with
          | Some err => ((zero, Some err), (S attempt, [delay]))
          | None =>
              let '(res, (calls, delays)) :=
                retry_loop fuel' (S attempt) (Z.min (backoff * 2) maxBackoff) replies in
              (res, (calls, delay :: delays))
          end
      end
  end.

Definition DoWithRateLimitRetry (replies : nat → reply T) :=
  retry_loop maxAttempts 0 initialBackoff replies.

Lemma retry_delay_max now0 r b : retry_delay now0 r b ≤ maxBackoff.
Proof. unfold retry_delay. cbv zeta. case_match; bool_to_prop; lia. Qed.
End retry.

Section facts.
Context {T : Type} (zero : T) (ParseTime : string → option Z).
Context (ctx_done : nat → option error) (now : clock) (replies : nat → reply T).
Local Abbreviation loop := (retry_loop zero ParseTime ctx_done now).

Lemma retry_loop_bounds fuel attempt b :
  let '(_, (calls, delays)) := loop fuel attempt b replies in
  (attempt ≤ calls ≤ attempt + fuel)%nat ∧ (length delays ≤ fuel)%nat ∧
  Forall (λ d, d ≤ maxBackoff) delays.
Proof.
  revert attempt b. induction fuel as [|fuel IH]; intros attempt b; cbn.
  { split_and!; [lia|lia|lia|constructor]. }
  destruct (rate_limited (replies attempt)) as [resp|].
  2:{ split_and!; [lia|lia|simpl; lia|constructor]. }
  destruct (ctx_done attempt).
  { split_and!; [lia|lia|simpl; lia|].
    constructor; [apply retry_delay_max|constructor]. }
  specialize (IH (S attempt) (Z.min (b * 2) maxBackoff)).
  destruct (loop fuel _ _ replies) as [res [calls delays]].
  destruct IH as ([? ?] & ? & ?). split_and!; [lia|lia|simpl; lia|].
  constructor; [apply retry_delay_max|done].
Qed.

(** Reply [n] ends the loop when every earlier one was a 429 slept through. *)
Lemma retry_loop_stops n fuel attempt b :
  (n < fuel)%nat →
  (∀ i, (i < n)%nat → is_Some (rate_limited (replies (attempt + i)%nat)) ∧
                      ctx_done (attempt + i)%nat = None) →
  rate_limited (replies (attempt + n)%nat) = None →
  (loop fuel attempt b replies).1 =
    (rp_result (replies (attempt + n)%nat), rp_err (replies (attempt + n)%nat)) ∧
  (loop fuel attempt b replies).2.1 = S (attempt + n).
Proof.
  revert n attempt b. induction fuel as [|fuel IH]; intros n attempt b Hn Hlim Hstop; [lia|].
  cbn. destruct n as [|n].
  { rewrite Nat.add_0_r in *. by rewrite Hstop. }
  destruct (Hlim 0%nat ltac:(lia)) as [[resp Hr] Hc].
  rewrite Nat.add_0_r in Hr, Hc. rewrite Hr, Hc.
  specialize (IH n (S attempt) (Z.min (b * 2) maxBackoff) ltac:(lia)).
  destruct IH as [H1 H2].
  { intros i Hi. specialize (Hlim (S i) ltac:(lia)).
    by replace (S attempt + i)%nat with (attempt + S i)%nat by lia. }
  { by replace (S attempt + n)%nat with (attempt + S n)%nat by lia. }
  destruct (loop fuel _ _ replies) as [res [calls delays]]. cbn in *.
  replace (attempt + S n)%nat with (S (attempt + n))%nat by lia. done.
Qed.

(** The request is made at least once and at most five times, and no wait
    between two calls is longer than thirty seconds, whatever [Retry-After]
    says. *)
Theorem retry_bounded :
  let '(_, (calls, delays)) := DoWithRateLimitRetry zero ParseTime ctx_done now replies in
  (1 ≤ calls ≤ 5)%nat ∧ (length delays ≤ 5)%nat ∧ Forall (λ d, d ≤ 30 * Second) delays.
Proof.
  pose proof (retry_loop_bounds maxAttempts 0 initialBackoff) as H.
  unfold DoWithRateLimitRetry in *.
  destruct (loop maxAttempts 0%nat initialBackoff replies) as [res [calls delays]] eqn:E.
  destruct H as (? & ? & ?). unfold maxAttempts in *. split_and!; try done; try lia.
  enough (calls ≠ 0%nat) by lia. intros ->. cbn [retry_loop maxAttempts] in E.
  pose proof (retry_loop_bounds 4 1 (Z.min (initialBackoff * 2) maxBackoff)) as H'.
  destruct (loop 4%nat _ _ replies) as [res' [calls' delays']]. destruct H' as ([? _] & _).
  repeat case_match; simplify_eq; lia.
Qed.

(** The caller gets the first reply that is not a 429, with its own error,
    if one of the five comes before the context ends. *)
Theorem retry_returns_first_reply (n : nat) (Hn : (n < 5)%nat)
    (Hlimited : ∀ i, (i < n)%nat → is_Some (rate_limited (replies i)) ∧ ctx_done i = None)
    (Hreply : rate_limited (replies n) = None) :
  let '(res, (calls, _)) := DoWithRateLimitRetry zero ParseTime ctx_done now replies in
  res = (rp_result (replies n), rp_err (replies n)) ∧ calls = S n.
Proof.
  destruct (retry_loop_stops n maxAttempts 0 initialBackoff Hn Hlimited Hreply) as [H1 H2].
  unfold DoWithRateLimitRetry. destruct (loop _ _ _ _) as [res [calls ds]].
  cbn in *. by subst.
Qed.
End facts.

Definition reply_of (status : Z) : reply Z :=
  {| rp_result := status;
     rp_response := Some {| StatusCode := status; Headers := None; Result := None |};
     rp_err := None |}.
Definition replies_429_429_200 (i : nat) : reply Z :=
  reply_of (if Nat.ltb i 2 then 429 else 200).

Lemma retry_returns_first_reply_witness :
  let '(res, (calls, delays)) :=
    DoWithRateLimitRetry 0 (λ _, None) (λ _, None) (frozen 0) replies_429_429_200 in
  res = (200, None) ∧ calls = 3%nat ∧ delays = [100 * Millisecond; 200 * Millisecond].
Proof.
  pose proof (retry_returns_first_reply 0 (λ _, None) (λ _, None) (frozen 0)
    replies_429_429_200 2 ltac:(lia)) as H.
  revert H. vm_compute. intros H.
  destruct H as [H1 H2].
  - intros [|[|i]] Hi; [split; [eexists; reflexivity|reflexivity]..|].
    exfalso. apply (Nat.nlt_0_r i). apply Nat.succ_lt_mono, Nat.succ_lt_mono. exact Hi.
  - reflexivity.
  - split; [exact H1|split; [exact H2|reflexivity]].
Defined.

(** The response a server answers with [Retry-After: s]. *)
Definition retry_after_response (s : string) : DetailedResponse :=
  {| StatusCode := 429;
     Headers := Some (λ k, if String.eqb k "Retry-After" then s else ""%string);
     Result := None |}.

(** A [Retry-After] in seconds is honoured up to the cap: the wait is
    exactly the smaller of the two, for every number of seconds whose
    nanoseconds fit in an int64. *)
Theorem retry_after_honoured (ParseTime : string → option Z) (now0 b secs : Z) (ra : string)
    (Hra : Strconv.Atoi ra = (secs, true)) (Hpos : 0 < secs) (Hfit : secs ≤ 9223372036) :
  retry_delay ParseTime now0 (retry_after_response ra) b = Z.min (secs * Second) (30 * Second).
Proof.
  unfold retry_delay, requested_delay. cbn.
  destruct (String.eqb ra "") eqn:E; [apply String.eqb_eq in E as ->; discriminate Hra|].
  rewrite Hra. destruct (0 <? secs) eqn:Ep; [|bool_to_prop; lia]. cbn [andb].
  assert (Hw : wrap64 (secs * Second) = secs * Second).
  { unfold wrap64, Second, Millisecond. rewrite Z.mod_small; lia. }
  cbv zeta. rewrite Hw. unfold maxBackoff. case_match; bool_to_prop; lia.
Qed.

Lemma retry_after_honoured_witness :
  retry_delay (λ _, None) 0 (retry_after_response "7") initialBackoff = 7 * Second.
Proof. apply (retry_after_honoured (λ _, None) 0 initialBackoff 7 "7"); done. Defined.

(** Beyond that bound the product overflows: [Retry-After: 9223372037]
    asks for a negative wait, which the cap does not catch, so the request is
    retried at once. *)
Theorem retry_after_overflow (ParseTime : string → option Z) (now0 b : Z) :
  retry_delay ParseTime now0 (retry_after_response "9223372037") b < 0.
Proof. vm_compute. reflexivity. Qed.
End Retry.
