(* ===== verification/NodeClass.v ===== *)
(** * NodeClass: Kubernetes object metadata and the IBMNodeClass resource

    [pkg/apis/v1alpha1/ibmnodeclass_types.go] as records, one per struct, a
    pointer field as an [option] and a map field as a [gmap]; module [Hash] is
    [pkg/utils/nodeclass/hash.go]. *)
From stdpp Require Import prelude list strings gmap.
From S2P Require Import Prelude GoLib Errors.

Open Scope string_scope.

(** The object metadata the provider reads and writes. *)
Record ObjectMeta := {
  Name : string;
  UID : string;
  ResourceVersion : string;
  Generation : Z;
  DeletionTimestamp : option Z;
  CreationTimestamp : Z;
  Labels : gmap string string;
  Annotations : gmap string string;
  Finalizers : list string;
}.

Definition no_meta : ObjectMeta :=
  {| Name := ""; UID := ""; ResourceVersion := ""; Generation := 0;
     DeletionTimestamp := None; CreationTimestamp := GoTime.zero_time; Labels := ∅;
     Annotations := ∅; Finalizers := [] |}.

Definition with_annotations (m : ObjectMeta) (a : gmap string string) : ObjectMeta :=
  {| Name := Name m; UID := UID m; ResourceVersion := ResourceVersion m;
     Generation := Generation m; DeletionTimestamp := DeletionTimestamp m;
     CreationTimestamp := CreationTimestamp m; Labels := Labels m; Annotations := a;
     Finalizers := Finalizers m |}.
Definition with_labels (m : ObjectMeta) (l : gmap string string) : ObjectMeta :=
  {| Name := Name m; UID := UID m; ResourceVersion := ResourceVersion m;
     Generation := Generation m; DeletionTimestamp := DeletionTimestamp m;
     CreationTimestamp := CreationTimestamp m; Labels := l; Annotations := Annotations m;
     Finalizers := Finalizers m |}.
Definition with_finalizers (m : ObjectMeta) (l : list string) : ObjectMeta :=
  {| Name := Name m; UID := UID m; ResourceVersion := ResourceVersion m;
     Generation := Generation m; DeletionTimestamp := DeletionTimestamp m;
     CreationTimestamp := CreationTimestamp m; Labels := Labels m; Annotations := Annotations m;
     Finalizers := l |}.

(** [m[k]] of a [map[string]string]: the empty string when absent. *)
Definition get (m : gmap string string) (k : string) : string := default "" (m !! k).

Record SubnetSelectionCriteria := {
  MinimumAvailableIPs : Z;
  RequiredTags : gmap string string;
}.

Record PlacementStrategy := {
  ZoneBalance : string;
  SubnetSelection : option SubnetSelectionCriteria;
}.

Record IKSPoolCleanupPolicy := {
  EmptyPoolTTL : string;
  DeleteOnEmpty : option bool;
}.

Record IKSDynamicPoolConfig := {
  Enabled : bool;
  NamePrefix : string;
  dp_Labels : gmap string string;
  DiskEncryption : option bool;
  AllowedInstanceTypes : list string;
  CleanupPolicy : option IKSPoolCleanupPolicy;
}.

Record LoadBalancerHealthCheck := {
  Protocol : string;
  Path : string;
  Interval : option Z;
  Timeout : option Z;
  RetryCount : option Z;
}.

Record LoadBalancerTarget := {
  LoadBalancerID : string;
  PoolName : string;
  Port : Z;
  Weight : option Z;
  HealthCheck : option LoadBalancerHealthCheck;
}.

Record LoadBalancerIntegration := {
  lb_Enabled : bool;
  TargetGroups : list LoadBalancerTarget;
  AutoDeregister : option bool;
  RegistrationTimeout : option Z;
}.

Record InstanceTypeRequirements := {
  req_Architecture : string;
  MinimumCPU : Z;
  MinimumMemory : Z;
  MaximumHourlyPrice : string;
}.

Record VolumeSpec := {
  Capacity : option Z;
  Profile : option string;
  IOPS : option Z;
  Bandwidth : option Z;
  EncryptionKeyID : option string;
  DeleteOnTermination : option bool;
  vol_Tags : list string;
}.

Record BlockDeviceMapping := {
  DeviceName : option string;
  VolumeSpec_ : option VolumeSpec;
  RootVolume : bool;
}.

Record KubeletConfiguration := {
  ClusterDNS : list string;
  MaxPods : option Z;
  PodsPerCore : option Z;
  SystemReserved : gmap string string;
  KubeReserved : gmap string string;
  EvictionHard : gmap string string;
  EvictionSoft : gmap string string;
  EvictionSoftGracePeriod : gmap string Z;
  EvictionMaxPodGracePeriod : option Z;
  ImageGCHighThresholdPercent : option Z;
  ImageGCLowThresholdPercent : option Z;
  CPUCFSQuota : option bool;
}.

Record ImageSelector := {
  OS : string;
  MajorVersion : string;
  MinorVersion : string;
  Architecture : string;
  Variant : string;
}.

Record IBMNodeClassSpec := {
  Region : string;
  Zone : string;
  InstanceProfile : string;
  InstanceRequirements : option InstanceTypeRequirements;
  Image : string;
  ImageSelector_ : option ImageSelector;
  VPC : string;
  Subnet : string;
  PlacementStrategy_ : option PlacementStrategy;
  SecurityGroups : list string;
  UserData : string;
  UserDataAppend : string;
  SSHKeys : list string;
  ResourceGroup : string;
  PlacementTarget : string;
  Tags : gmap string string;
  BootstrapMode : option string;
  APIServerEndpoint : string;
  IKSClusterID : string;
  IKSWorkerPoolID : string;
  IKSDynamicPools : option IKSDynamicPoolConfig;
  LoadBalancerIntegration_ : option LoadBalancerIntegration;
  BlockDeviceMappings : list BlockDeviceMapping;
  Kubelet : option KubeletConfiguration;
}.

(** The zero value of the struct, which code builds on with a few fields set. *)
Definition empty_spec : IBMNodeClassSpec :=
  {| Region := ""; Zone := ""; InstanceProfile := ""; InstanceRequirements := None;
     Image := ""; ImageSelector_ := None; VPC := ""; Subnet := "";
     PlacementStrategy_ := None; SecurityGroups := []; UserData := "";
     UserDataAppend := ""; SSHKeys := []; ResourceGroup := ""; PlacementTarget := "";
     Tags := ∅; BootstrapMode := None; APIServerEndpoint := ""; IKSClusterID := "";
     IKSWorkerPoolID := ""; IKSDynamicPools := None; LoadBalancerIntegration_ := None;
     BlockDeviceMappings := []; Kubelet := None |}.

Record Condition := {
  cond_Type : string;
  cond_Status : string;
  LastTransitionTime : option Z;
  cond_Reason : string;
  cond_Message : string;
  ObservedGeneration : Z;
}.

Record IBMNodeClassStatus := {
  LastValidationTime : Z;
  ValidationError : string;
  SelectedInstanceTypes : list string;
  SelectedSubnets : list string;
  ResolvedSecurityGroups : list string;
  ResolvedImageID : string;
  Conditions : list Condition;
}.

Definition empty_status : IBMNodeClassStatus :=
  {| LastValidationTime := GoTime.zero_time; ValidationError := ""; SelectedInstanceTypes := [];
     SelectedSubnets := []; ResolvedSecurityGroups := []; ResolvedImageID := "";
     Conditions := [] |}.

Record IBMNodeClass := {
  nc_meta : ObjectMeta;
  Spec : IBMNodeClassSpec;
  Status : IBMNodeClassStatus;
}.

(** [&v1alpha1.IBMNodeClass{}] with the region, or the IKS cluster, set. *)
Definition class_of_region (region : string) : IBMNodeClass :=
  {| nc_meta := no_meta;
     Spec := {| Region := region; Zone := ""; InstanceProfile := ""; InstanceRequirements := None;
       Image := ""; ImageSelector_ := None; VPC := ""; Subnet := "";
       PlacementStrategy_ := None; SecurityGroups := []; UserData := "";
       UserDataAppend := ""; SSHKeys := []; ResourceGroup := ""; PlacementTarget := "";
       Tags := ∅; BootstrapMode := None; APIServerEndpoint := ""; IKSClusterID := "";
       IKSWorkerPoolID := ""; IKSDynamicPools := None; LoadBalancerIntegration_ := None;
       BlockDeviceMappings := []; Kubelet := None |};
     Status := empty_status |}.

Definition class_of_cluster (cluster : string) : IBMNodeClass :=
  {| nc_meta := no_meta;
     Spec := {| Region := ""; Zone := ""; InstanceProfile := ""; InstanceRequirements := None;
       Image := ""; ImageSelector_ := None; VPC := ""; Subnet := "";
       PlacementStrategy_ := None; SecurityGroups := []; UserData := "";
       UserDataAppend := ""; SSHKeys := []; ResourceGroup := ""; PlacementTarget := "";
       Tags := ∅; BootstrapMode := None; APIServerEndpoint := ""; IKSClusterID := cluster;
       IKSWorkerPoolID := ""; IKSDynamicPools := None; LoadBalancerIntegration_ := None;
       BlockDeviceMappings := []; Kubelet := None |};
     Status := empty_status |}.

(** [SetConditions] drops the conditions without a transition time. *)
Definition SetConditions (conditions : list Condition) : list Condition :=
  List.filter (λ c, match LastTransitionTime c with Some _ => true | None => false end) conditions.

Module Hash.
Record dynamicPools := {
  p_Enabled : bool;
  p_NamePrefix : string;
  p_Labels : gmap string string;
  p_DiskEncryption : option bool;
  p_AllowedInstanceTypes : list string;
}.

Record provisioningSpec := {
  p_Region : string;
  p_Zone : string;
  p_InstanceProfile : string;
  p_InstanceRequirements : option InstanceTypeRequirements;
  p_Image : string;
  p_ImageSelector : option ImageSelector;
  p_VPC : string;
  p_Subnet : string;
  p_PlacementStrategy : option PlacementStrategy;
  p_SecurityGroups : list string;
  p_UserData : string;
  p_UserDataAppend : string;
  p_SSHKeys : list string;
  p_ResourceGroup : string;
  p_PlacementTarget : string;
  p_Tags : gmap string string;
  p_BootstrapMode : option string;
  p_APIServerEndpoint : string;
  p_IKSClusterID : string;
  p_IKSWorkerPoolID : string;
  p_BlockDeviceMappings : list BlockDeviceMapping;
  p_Kubelet : option KubeletConfiguration;
  p_DynamicPools : option dynamicPools;
}.

Definition dynamic_projection (config : IKSDynamicPoolConfig) : dynamicPools :=
  {| p_Enabled := Enabled config; p_NamePrefix := NamePrefix config;
     p_Labels := dp_Labels config; p_DiskEncryption := DiskEncryption config;
     p_AllowedInstanceTypes := AllowedInstanceTypes config |}.

Definition projection (spec : IBMNodeClassSpec) : provisioningSpec :=
  {| p_Region := Region spec; p_Zone := Zone spec; p_InstanceProfile := InstanceProfile spec;
     p_InstanceRequirements := InstanceRequirements spec; p_Image := Image spec;
     p_ImageSelector := ImageSelector_ spec; p_VPC := VPC spec; p_Subnet := Subnet spec;
     p_PlacementStrategy := PlacementStrategy_ spec; p_SecurityGroups := SecurityGroups spec;
     p_UserData := UserData spec; p_UserDataAppend := UserDataAppend spec;
     p_SSHKeys := SSHKeys spec; p_ResourceGroup := ResourceGroup spec;
     p_PlacementTarget := PlacementTarget spec; p_Tags := Tags spec;
     p_BootstrapMode := BootstrapMode spec; p_APIServerEndpoint := APIServerEndpoint spec;
     p_IKSClusterID := IKSClusterID spec; p_IKSWorkerPoolID := IKSWorkerPoolID spec;
     p_BlockDeviceMappings := BlockDeviceMappings spec; p_Kubelet := Kubelet spec;
     p_DynamicPools := dynamic_projection <$> IKSDynamicPools spec |}.

(** [hashstructure.Hash], an argument, at the two types it is used at. *)
Definition ProvisioningHash (HashStructure : provisioningSpec → result GoErrors.error Z)
    (nodeClass : IBMNodeClass) : string * option GoErrors.error :=
  match HashStructure (projection (Spec nodeClass)) with
  | Ok h => (Strconv.Itoa h, None)
  | Err e => (Strconv.Itoa 0, Some e)
  end.

Definition LegacyHash (HashStructure : IBMNodeClassSpec → result GoErrors.error Z)
    (nodeClass : IBMNodeClass) : string * option GoErrors.error :=
  match HashStructure (Spec nodeClass) with
  | Ok h => (Strconv.Itoa h, None)
  | Err e => (Strconv.Itoa 0, Some e)
  end.

Definition HashMigrationAnnotation : string := "karpenter-ibm.sh/nodeclass-hash-migration".

Record HashMigration := {
  m_LegacyHash : string;
  m_ProvisioningHash : string;
}.

(** [json.Unmarshal] into a [HashMigration], an argument. *)
Definition ReadHashMigration (Unmarshal : string → result GoErrors.error HashMigration)
    (nodeClass : IBMNodeClass) : result GoErrors.error (option HashMigration) :=
  let value := get (Annotations (nc_meta nodeClass)) HashMigrationAnnotation in
  if String.eqb value "" then Ok None
  else match Unmarshal value with
       | Err err => Err (GoErrors.wrap ("reading hash migration: " ++ GoErrors.Error err) err)
       | Ok migration =>
           if String.eqb (m_LegacyHash migration) "" || String.eqb (m_ProvisioningHash migration) ""
           then Err (GoErrors.New "invalid hash migration checkpoint")
           else Ok (Some migration)
       end.

(** The fields a launched node does not depend on: the load balancer
    integration, and the cleanup policy of the dynamic pools. *)
Definition forget_cleanup (config : IKSDynamicPoolConfig) : IKSDynamicPoolConfig :=
  {| Enabled := Enabled config; NamePrefix := NamePrefix config; dp_Labels := dp_Labels config;
     DiskEncryption := DiskEncryption config;
     AllowedInstanceTypes := AllowedInstanceTypes config; CleanupPolicy := None |}.

Definition forget_operational (spec : IBMNodeClassSpec) : IBMNodeClassSpec :=
  {| Region := Region spec; Zone := Zone spec; InstanceProfile := InstanceProfile spec;
     InstanceRequirements := InstanceRequirements spec; Image := Image spec;
     ImageSelector_ := ImageSelector_ spec; VPC := VPC spec; Subnet := Subnet spec;
     PlacementStrategy_ := PlacementStrategy_ spec; SecurityGroups := SecurityGroups spec;
     UserData := UserData spec; UserDataAppend := UserDataAppend spec; SSHKeys := SSHKeys spec;
     ResourceGroup := ResourceGroup spec; PlacementTarget := PlacementTarget spec;
     Tags := Tags spec; BootstrapMode := BootstrapMode spec;
     APIServerEndpoint := APIServerEndpoint spec; IKSClusterID := IKSClusterID spec;
     IKSWorkerPoolID := IKSWorkerPoolID spec;
     IKSDynamicPools := forget_cleanup <$> IKSDynamicPools spec;
     LoadBalancerIntegration_ := None; BlockDeviceMappings := BlockDeviceMappings spec;
     Kubelet := Kubelet spec |}.

(** What is hashed is the specification up to the operational fields,
    exactly: two specifications have the same projection if and only if they
    agree on everything but the load balancer integration and the dynamic
    pools' cleanup policy.  So a change of either is not drift, and every
    other change reaches the hash. *)
Theorem projection_forgets_operational (s1 s2 : IBMNodeClassSpec) :
  projection s1 = projection s2 ↔ forget_operational s1 = forget_operational s2.
Proof.
  unfold projection, forget_operational.
  assert (Hd : dynamic_projection <$> IKSDynamicPools s1 = dynamic_projection <$> IKSDynamicPools s2
    ↔ forget_cleanup <$> IKSDynamicPools s1 = forget_cleanup <$> IKSDynamicPools s2).
  { destruct (IKSDynamicPools s1), (IKSDynamicPools s2); cbn; try done.
    unfold dynamic_projection, forget_cleanup. split; intros [= ]; congruence. }
  split; intros [= ]; f_equal; (congruence || by apply Hd).
Qed.

Lemma ProvisioningHash_ext H n1 n2 :
  projection (Spec n1) = projection (Spec n2) → ProvisioningHash H n1 = ProvisioningHash H n2.
Proof. unfold ProvisioningHash. by intros ->. Qed.

(** The provisioning hash is the same after any change of the operational
    fields, whatever the hash function. *)
Corollary provisioning_hash_stable (H : provisioningSpec → result GoErrors.error Z)
    (n1 n2 : IBMNodeClass) (Hsame : forget_operational (Spec n1) = forget_operational (Spec n2)) :
  ProvisioningHash H n1 = ProvisioningHash H n2.
Proof. by apply ProvisioningHash_ext, projection_forgets_operational. Qed.

Definition example_class (lb : option LoadBalancerIntegration) : IBMNodeClass :=
  {| nc_meta := no_meta;
     Spec := {| Region := "us-south"; Zone := ""; InstanceProfile := "bx2-2x8"; InstanceRequirements := None;
       Image := ""; ImageSelector_ := None; VPC := ""; Subnet := "";
       PlacementStrategy_ := None; SecurityGroups := []; UserData := "";
       UserDataAppend := ""; SSHKeys := []; ResourceGroup := ""; PlacementTarget := "";
       Tags := ∅; BootstrapMode := None; APIServerEndpoint := ""; IKSClusterID := "";
       IKSWorkerPoolID := ""; IKSDynamicPools := None; LoadBalancerIntegration_ := lb;
       BlockDeviceMappings := []; Kubelet := None |};
     Status := empty_status |}.

Lemma provisioning_hash_stable_witness :
  ProvisioningHash (λ p, Ok (Strings.len (p_Region p))) (example_class None) =
  ProvisioningHash (λ p, Ok (Strings.len (p_Region p)))
    (example_class (Some {| lb_Enabled := true; TargetGroups := []; AutoDeregister := None;
                            RegistrationTimeout := None |})).
Proof. apply provisioning_hash_stable. reflexivity. Defined.
End Hash.
