(* ===== verification/ProviderIDs.v ===== *)
(** * ProviderIDs: the two provider ID formats and every parser of them

    A VPC instance is [ibm:///<region>/<instance>], an IKS worker is
    [ibm://<account>///<cluster>/<worker>].  The code parses them in ten
    places; the theorems show what each parser makes of each format. *)
From stdpp Require Import prelude list strings gmap.
From Stdlib Require Import Ascii.
From S2P Require Import Prelude GoLib GoRegexp Errors NodeClass.
Import Strings.

Open Scope string_scope.
Open Scope nat_scope.

Inductive ProviderMode : Type := VPCMode | IKSMode.

Definition is_hex_lower (c : ascii) : bool := in_range "a" "f" c || is_digit c.
Definition accountPattern : pattern := [Exactly is_hex_lower 32].

Definition slash : ascii := "/".

(** [fmt.Sprintf("ibm:///%s/%s", region, instanceID)] *)
Definition vpc_provider_id (region instanceID : string) : string :=
  "ibm:///" ++ region ++ "/" ++ instanceID.
(** [fmt.Sprintf("ibm://%s///%s/%s", accountID, clusterID, worker.ID)] *)
Definition iks_provider_id (accountID clusterID workerID : string) : string :=
  "ibm://" ++ accountID ++ "///" ++ clusterID ++ "/" ++ workerID.

Definition empty (s : string) : bool := String.eqb s "".

(** [cloudprovider.classForProviderID] *)
Definition classForProviderID (providerID : string) : result GoErrors.error (IBMNodeClass * ProviderMode) :=
  if HasPrefix providerID "ibm:///" then
    match Split (TrimPrefix providerID "ibm:///") slash with
    | [region; id] =>
        if empty region || empty id
        then Err (GoErrors.New ("invalid VPC provider ID " ++ providerID))
        else Ok (class_of_region region, VPCMode)
    | _ => Err (GoErrors.New ("invalid VPC provider ID " ++ providerID))
    end
  else
    match Split (TrimPrefix providerID "ibm://") slash with
    | [account; e1; e2; cluster; worker] =>
        if negb (HasPrefix providerID "ibm://") || empty account || negb (empty e1)
             || negb (empty e2) || empty cluster || empty worker
        then Err (GoErrors.New ("invalid IBM provider ID " ++ providerID))
        else Ok (class_of_cluster cluster, IKSMode)
    | _ => Err (GoErrors.New ("invalid IBM provider ID " ++ providerID))
    end.

(** [workerpool.ParseProviderID] *)
Definition ParseProviderID (providerID : string) : result GoErrors.error (string * string * string) :=
  if negb (HasPrefix providerID "ibm://") then Err (GoErrors.New "invalid IKS provider ID")
  else match Split (TrimPrefix providerID "ibm://") slash with
       | [account; e1; e2; cluster; worker] =>
           if negb (MatchString accountPattern account) || negb (empty e1) || negb (empty e2)
                || empty cluster || empty worker
           then Err (GoErrors.New "invalid IKS provider ID")
           else Ok (account, cluster, worker)
       | _ => Err (GoErrors.New "invalid IKS provider ID")
       end.

(** [utils.ParseInstanceID], which takes nothing apart. *)
Definition ParseInstanceID (providerID : string) : result GoErrors.error string :=
  if empty providerID then Err (GoErrors.New "provider ID is empty") else Ok providerID.

(** [orphancleanup.extractInstanceIDFromProviderID] *)
Definition orphan_extractInstanceID (providerID : string) : string :=
  if negb (HasPrefix providerID "ibm:///") then ""
  else match Split (TrimPrefix providerID "ibm:///") slash with
       | [region; id] => if empty region || empty id then "" else id
       | _ => ""
       end.

(** [instance.extractInstanceIDFromProviderID] *)
Definition vpc_extractInstanceID (providerID : string) : string :=
  let parts := Split providerID slash in
  if Nat.leb 4 (length parts) then List.last parts "" else "".

(** [instance.providerRegion] *)
Definition providerRegion (providerID : string) : string :=
  match Split (TrimPrefix providerID "ibm:///") slash with
  | [region; _] => region
  | _ => ""
  end.

(** [tagging.updateVPCInstanceTags]: the region and the instance it updates. *)
Definition tagging_target (providerID : string) : option (string * string) :=
  match Split (TrimPrefix providerID "ibm:///") slash with
  | [region; id] => if empty region || empty id then None else Some (region, id)
  | _ => None
  end.

(** [loadbalancer.extractInstanceID] *)
Definition lb_extractInstanceID (providerID : string) : result GoErrors.error string :=
  let parts := Split providerID slash in
  if Nat.ltb (length parts) 3
  then Err (GoErrors.New ("invalid provider ID format: " ++ providerID))
  else Ok (List.last parts "").

(** [subnet.parseSubnetFromProviderID]: the instance it queries. *)
Definition subnet_instance (providerID : string) : option string :=
  let parts := Split providerID slash in
  if Nat.leb 4 (length parts) && String.eqb (List.hd "" parts) "ibm:"
  then Some (List.last parts "") else None.

(** The key of [preemption.buildNodeClaimMap]. *)
Definition preemption_instance (providerID : string) : option string :=
  let parts := Split providerID slash in
  if Nat.leb 4 (length parts) then Some (List.last parts "") else None.

(** [garbagecollection.normalizeProviderID] *)
Definition normalizeProviderID (providerID : string) : string :=
  let parts := Split providerID slash in
  if Nat.ltb (length parts) 4 then providerID
  else
    let region := nth (length parts - 2) parts "" in
    let instanceID := nth (length parts - 1) parts "" in
    let instanceID :=
      match cut "_" instanceID with Some (_, rest) => rest | None => instanceID end in
    vpc_provider_id region instanceID.

(** [interruption.inferModeFromNode], from the backend annotation and the
    provider ID of the node. *)
Definition inferModeFromNode (backend providerID : string) : ProviderMode :=
  if String.eqb backend "iks" ||
     (HasPrefix providerID "ibm://" && negb (HasPrefix providerID "ibm:///"))
  then IKSMode else VPCMode.

(** A path segment: not empty and without a slash. *)
Definition segment (s : string) : bool := nonempty s && free_of slash s.

Lemma segment_true s : segment s = true → empty s = false ∧ free_of slash s = true.
Proof. unfold segment, nonempty, empty. by intros [->%negb_true_iff ->]%andb_true_iff. Qed.

Lemma Split_vpc_tail region id :
  segment region = true → segment id = true →
  Split (region ++ "/" ++ id) slash = [region; id].
Proof.
  intros [_ Hr]%segment_true [_ Hi]%segment_true.
  change ("/" ++ id) with (String slash id). by rewrite Split_cons, Split_free.
Qed.

Lemma Split_vpc region id :
  segment region = true → segment id = true →
  Split (vpc_provider_id region id) slash = ["ibm:"; ""; ""; region; id].
Proof.
  intros Hr Hi. unfold vpc_provider_id.
  change ("ibm:///" ++ region ++ "/" ++ id)
    with ("ibm:" ++ String slash ("" ++ String slash ("" ++ String slash (region ++ "/" ++ id)))).
  rewrite !Split_cons by done. by rewrite Split_vpc_tail.
Qed.

Lemma Split_iks_tail account cluster worker :
  free_of slash account = true → segment cluster = true → segment worker = true →
  Split (account ++ "///" ++ cluster ++ "/" ++ worker) slash = [account; ""; ""; cluster; worker].
Proof.
  intros Ha Hc Hw.
  change ("///" ++ cluster ++ "/" ++ worker)
    with (String slash ("" ++ String slash ("" ++ String slash (cluster ++ "/" ++ worker)))).
  rewrite !Split_cons by done. by rewrite Split_vpc_tail.
Qed.

Lemma HasPrefix_vpc region id : HasPrefix (vpc_provider_id region id) "ibm:///" = true.
Proof. apply (HasPrefix_app "ibm:///"). Qed.

Lemma TrimPrefix_vpc region id :
  TrimPrefix (vpc_provider_id region id) "ibm:///" = region ++ "/" ++ id.
Proof. apply (TrimPrefix_app "ibm:///"). Qed.

Lemma TrimPrefix_iks a c w :
  TrimPrefix (iks_provider_id a c w) "ibm://" = a ++ "///" ++ c ++ "/" ++ w.
Proof. apply (TrimPrefix_app "ibm://"). Qed.

(** An account is not empty, so the fourth slash is missing. *)
Lemma HasPrefix_iks a c w :
  segment a = true → HasPrefix (iks_provider_id a c w) "ibm:///" = false.
Proof.
  intros [Hn Hf]%segment_true. destruct a as [|x a]; [done|].
  apply not_true_iff_false. intros [t E]%HasPrefix_true.
  unfold iks_provider_id in E. cbn in E. injection E as -> _. done.
Qed.

Lemma account_match a : MatchString accountPattern a = Nat.eqb (String.length a) 32 && all_chars is_hex_lower a.
Proof.
  unfold MatchString, accountPattern. rewrite match_Exactly.
  destruct (_ && _); apply bool_decide_eq_true || apply bool_decide_eq_false; [by eexists|].
  by intros [? ?].
Qed.

Lemma account_segment a : MatchString accountPattern a = true → segment a = true.
Proof.
  rewrite account_match. intros [Hl Hh]%andb_true_iff. unfold segment.
  rewrite (all_chars_free _ slash _ eq_refl Hh), andb_true_r. by destruct a.
Qed.

(** What the parsers that act on VPC instances by region read. *)
Lemma vpc_target_read region id : segment region = true → segment id = true →
  tagging_target (vpc_provider_id region id) = Some (region, id) ∧
  orphan_extractInstanceID (vpc_provider_id region id) = id.
Proof.
  intros Hr Hi. pose proof (segment_true _ Hr) as [Er _]. pose proof (segment_true _ Hi) as [Ei _].
  unfold orphan_extractInstanceID, tagging_target. rewrite HasPrefix_vpc, TrimPrefix_vpc, Split_vpc_tail by done.
  cbn [negb]. by rewrite Er, Ei.
Qed.

(** C39. Round trip of the VPC format: for a region and an instance that are
    path segments, every function of the program that takes an identifier apart
    reads them back: the cloud provider routes it to VPC with the region; the
    orphan cleanup, the instance provider, the load balancer, the subnet provider
    and the preemption controller read the instance, the recovery of launches the
    region and the tagging controller both; the IKS parser refuses it, and the node
    is taken to be a VPC node.  The garbage collection makes an identifier of the
    same region of it.  [ParseInstanceID], which nothing calls, takes nothing apart:
    it returns the whole identifier. *)
Theorem vpc_id_round_trip (region id : string)
    (Hr : segment region = true) (Hi : segment id = true) :
  let p := vpc_provider_id region id in
  classForProviderID p = Ok (class_of_region region, VPCMode) ∧
  is_ok (ParseProviderID p) = false ∧
  orphan_extractInstanceID p = id ∧ vpc_extractInstanceID p = id ∧
  providerRegion p = region ∧ tagging_target p = Some (region, id) ∧
  lb_extractInstanceID p = Ok id ∧ subnet_instance p = Some id ∧ preemption_instance p = Some id ∧
  (∀ backend, backend ≠ "iks" → inferModeFromNode backend p = VPCMode) ∧
  normalizeProviderID p = vpc_provider_id region (match cut "_" id with Some (_, rest) => rest | None => id end) ∧
  ParseInstanceID p = Ok p.
Proof.
  cbv zeta. pose proof (segment_true _ Hr) as [Er _]. pose proof (segment_true _ Hi) as [Ei _].
  destruct (vpc_target_read region id Hr Hi) as [-> ->].
  unfold classForProviderID, ParseProviderID, vpc_extractInstanceID, normalizeProviderID,
    providerRegion, lb_extractInstanceID, subnet_instance, preemption_instance, inferModeFromNode.
  rewrite HasPrefix_vpc, TrimPrefix_vpc, Split_vpc, Split_vpc_tail by done. cbn [negb].
  rewrite Er, Ei. split_and!; try done.
  - change (TrimPrefix (vpc_provider_id region id) "ibm://")
      with ("" ++ String slash (region ++ "/" ++ id)).
    by rewrite Split_cons, Split_vpc_tail.
  - intros backend ->%String.eqb_neq. by rewrite andb_false_r.
Qed.

Lemma vpc_id_round_trip_witness :
  classForProviderID "ibm:///us-south/0717_abc" = Ok (class_of_region "us-south", VPCMode).
Proof. apply (vpc_id_round_trip "us-south" "0717_abc"); reflexivity. Defined.

(** Round trip of the IKS format: the allocation code reads the account,
    cluster and worker back, the cloud provider the cluster, and the parsers
    that act on VPC instances by region refuse it. *)
Theorem iks_id_round_trip (account cluster worker : string)
    (Ha : MatchString accountPattern account = true)
    (Hc : segment cluster = true) (Hw : segment worker = true) :
  let p := iks_provider_id account cluster worker in
  ParseProviderID p = Ok (account, cluster, worker) ∧
  classForProviderID p = Ok (class_of_cluster cluster, IKSMode) ∧
  orphan_extractInstanceID p = "" ∧ providerRegion p = "" ∧ tagging_target p = None ∧
  (∀ backend, inferModeFromNode backend p = IKSMode).
Proof.
  cbv zeta. pose proof (account_segment _ Ha) as Hsa.
  pose proof (segment_true _ Hsa) as [Ea Fa]. pose proof (segment_true _ Hc) as [Ec _].
  pose proof (segment_true _ Hw) as [Ew _].
  unfold classForProviderID, ParseProviderID, orphan_extractInstanceID, providerRegion,
    tagging_target, inferModeFromNode.
  assert (Hp : HasPrefix (iks_provider_id account cluster worker) "ibm://" = true)
    by apply (HasPrefix_app "ibm://").
  assert (Ht : TrimPrefix (iks_provider_id account cluster worker) "ibm:///" =
               iks_provider_id account cluster worker)
    by (unfold TrimPrefix; by rewrite HasPrefix_iks).
  rewrite Hp, HasPrefix_iks, Ht, TrimPrefix_iks, Split_iks_tail by done. cbn [negb].
  rewrite Ha, Ea, Ec, Ew. split_and!; try done.
  - change (iks_provider_id account cluster worker)
      with ("ibm:" ++ String slash ("" ++ String slash (account ++ "///" ++ cluster ++ "/" ++ worker))).
    by rewrite !Split_cons, Split_iks_tail.
  - change (iks_provider_id account cluster worker)
      with ("ibm:" ++ String slash ("" ++ String slash (account ++ "///" ++ cluster ++ "/" ++ worker))).
    by rewrite !Split_cons, Split_iks_tail.
  - intros backend. by rewrite orb_true_r.
Qed.

Lemma iks_id_round_trip_witness :
  ParseProviderID (iks_provider_id "0123456789abcdef0123456789abcdef" "cl" "w1") =
    Ok ("0123456789abcdef0123456789abcdef", "cl", "w1").
Proof.
  apply (iks_id_round_trip "0123456789abcdef0123456789abcdef" "cl" "w1");
    vm_compute; reflexivity.
Defined.

(** What a split into path segments says of the identifier. *)
Lemma split_inv p s l :
  HasPrefix s p = true → Split (TrimPrefix s p) slash = l →
  s = p ++ Join l "/" ∧ Forall (λ w, free_of slash w = true) l.
Proof.
  intros [t ->]%HasPrefix_true. rewrite TrimPrefix_app. intros <-.
  by rewrite Join_Split; split; [|apply Split_free_all].
Qed.

Lemma segment_intro s : empty s = false → free_of slash s = true → segment s = true.
Proof. unfold segment, nonempty, empty. by intros -> ->. Qed.

Lemma ParseProviderID_inv p a c w :
  ParseProviderID p = Ok (a, c, w) →
  p = iks_provider_id a c w ∧ MatchString accountPattern a = true ∧
  segment c = true ∧ segment w = true.
Proof.
  unfold ParseProviderID. destruct (HasPrefix p "ibm://") eqn:Hp; [|done]. cbn [negb].
  destruct (Split (TrimPrefix p "ibm://") slash) as [|x1 [|x2 [|x3 [|x4 [|x5 [|]]]]]] eqn:E; try done.
  destruct (_ || _) eqn:Eb; [done|]. intros [= -> -> ->].
  apply split_inv in E as [E Hf]; [|done]. bool_to_prop.
  rewrite !Forall_cons in Hf. destruct Hf as (_ & _ & _ & Hc & Hw & _).
  unfold empty in *. bool_to_prop. subst x2 x3.
  split_and!; [exact E|done|by apply segment_intro; [apply String.eqb_neq|]..].
Qed.

Lemma classForProviderID_vpc_inv p nc :
  classForProviderID p = Ok (nc, VPCMode) →
  ∃ r id, p = vpc_provider_id r id ∧ nc = class_of_region r ∧
          segment r = true ∧ segment id = true.
Proof.
  unfold classForProviderID. destruct (HasPrefix p "ibm:///") eqn:Hp.
  2:{ destruct (Split _ _) as [|? [|? [|? [|? [|? [|]]]]]]; try done. by destruct (_ || _). }
  destruct (Split (TrimPrefix p "ibm:///") slash) as [|r [|id [|]]] eqn:E; try done.
  destruct (_ || _) eqn:Eb; [done|]. intros [= <-].
  apply split_inv in E as [E Hf]; [|done]. rewrite !Forall_cons in Hf.
  destruct Hf as (Hr & Hi & _). apply orb_false_iff in Eb as [? ?].
  exists r, id. split_and!; [exact E|done|by apply segment_intro..].
Qed.

(** Nothing else parses: an accepted identifier is the format of the parts
    it was parsed into, so an identifier the allocation code accepts is one
    the cloud provider routes to IKS with the same cluster, and one routed to
    VPC is one the other VPC parsers read the same way. *)
Theorem parsed_ids_are_canonical (p : string) :
  (∀ a c w, ParseProviderID p = Ok (a, c, w) →
     p = iks_provider_id a c w ∧ classForProviderID p = Ok (class_of_cluster c, IKSMode)) ∧
  (∀ nc, classForProviderID p = Ok (nc, VPCMode) →
     ∃ r id, p = vpc_provider_id r id ∧ nc = class_of_region r ∧
       tagging_target p = Some (r, id) ∧ orphan_extractInstanceID p = id).
Proof.
  split.
  - intros a c w (-> & Ha & Hc & Hw)%ParseProviderID_inv.
    split; [done|]. by apply iks_id_round_trip.
  - intros nc (r & id & -> & -> & Hr & Hi)%classForProviderID_vpc_inv.
    destruct (vpc_target_read r id Hr Hi). exists r, id. by split_and!.
Qed.

(** The garbage collector compares normalised identifiers: the zone prefix
    of the instance id is dropped, and nothing else. *)
Theorem normalize_vpc_id (region zone uuid : string)
    (Hr : segment region = true) (Hz : free_of "_" zone = true)
    (Hi : segment (zone ++ "_" ++ uuid) = true) :
  normalizeProviderID (vpc_provider_id region (zone ++ "_" ++ uuid)) =
    vpc_provider_id region uuid.
Proof.
  unfold normalizeProviderID. rewrite Split_vpc by done. cbn [length Nat.ltb Nat.leb nth Nat.sub].
  rewrite (proj2 (cut_Some "_" (zone ++ "_" ++ uuid) zone uuid)); done.
Qed.

Lemma normalize_vpc_id_witness :
  normalizeProviderID "ibm:///us-south/02u7_72b27b5c" = "ibm:///us-south/72b27b5c".
Proof. apply (normalize_vpc_id "us-south" "02u7" "72b27b5c"); reflexivity. Defined.
