(* ===== verification/Webhook.v ===== *)
(** * Webhook: admission of an IBMNodeClass

    [pkg/apis/v1alpha1/ibmnodeclass_webhook.go], every validator with its
    messages, against a declarative specification of the admitted
    specifications. *)
From stdpp Require Import prelude list strings gmap.
From Stdlib Require Import Ascii.
From S2P Require Import Prelude GoLib GoRegexp Errors NodeClass.
Import Strings.

Open Scope string_scope.
Open Scope nat_scope.

Definition ibmResourceIDPattern : pattern :=
  [Lit "r"; Plus is_digit; Lit "-"; Exactly is_alnum 8; Lit "-"; Exactly is_alnum 4; Lit "-";
   Exactly is_alnum 4; Lit "-"; Exactly is_alnum 4; Lit "-"; Exactly is_alnum 12].

Definition ibmSubnetIDPattern : pattern :=
  [Exactly is_alnum 4; Lit "-"; Exactly is_alnum 8; Lit "-"; Exactly is_alnum 4; Lit "-";
   Exactly is_alnum 4; Lit "-"; Exactly is_alnum 4; Lit "-"; Exactly is_alnum 12].

Definition is_host (c : ascii) : bool := is_alnum c || Ascii.eqb c "." || Ascii.eqb c "-".

Definition apiServerEndpointPattern : pattern :=
  [Lit "http"; Opt (Ascii.eqb "s"); Lit "://"; Plus is_host; Lit ":"; Plus is_digit].

Definition is_profile_tail (c : ascii) : bool := is_lower_digit c || Ascii.eqb c "x".

Definition instanceProfilePattern : pattern :=
  [Exactly is_lower 1; Star is_lower_digit; Lit "-"; Plus is_digit; Lit "x"; Plus is_digit;
   Star is_profile_tail].

(** [^] + [regexp.QuoteMeta(expectedPrefix)] + [\d+$] *)
Definition zonePattern (expectedPrefix : string) : pattern :=
  [Lit expectedPrefix; Plus is_digit].

Definition Warnings := list string.

Definition quote_list (l : list string) : string := "[" ++ Join l " " ++ "]".

Definition count_roots (l : list BlockDeviceMapping) : Z :=
  Z.of_nat (length (List.filter RootVolume l)).

Definition validateSecurityGroups (spec : IBMNodeClassSpec) (errs : list string)
    : Warnings * list string :=
  match SecurityGroups spec with
  | [] => (["no security groups specified, will use VPC default security group"], errs)
  | groups =>
      ([], errs ++ List.map (λ sg,
        "security group '" ++ sg ++ "' is not a valid IBM Cloud resource ID (format: r###-########-####-####-####-############)")%string
        (List.filter (λ sg, negb (MatchString ibmResourceIDPattern sg)) groups))%list
  end.

Definition validateImage (spec : IBMNodeClassSpec) : Warnings :=
  if negb (String.eqb (Image spec) "") && negb (MatchString ibmResourceIDPattern (Image spec))
  then ["image '" ++ Image spec ++ "' appears to be a name, not an ID. Image resolution by name may be slower and less reliable than using IDs"]
  else [].

Definition validateSSHKeys (spec : IBMNodeClassSpec) : list string :=
  List.map (λ key,
    "SSH key '" ++ key ++ "' is not a valid IBM Cloud resource ID (format: r###-########-####-####-####-############)")
    (List.filter (λ key, negb (MatchString ibmResourceIDPattern key)) (SSHKeys spec)).

Definition validateSubnet (spec : IBMNodeClassSpec) : list string :=
  if negb (String.eqb (Subnet spec) "") && negb (MatchString ibmSubnetIDPattern (Subnet spec))
  then ["subnet '" ++ Subnet spec ++ "' is not a valid IBM Cloud subnet ID (format: ####-########-####-####-####-############)"]
  else [].

Definition validateVPC (spec : IBMNodeClassSpec) : list string :=
  if String.eqb (VPC spec) "" then ["vpc is required"]
  else if negb (MatchString ibmResourceIDPattern (VPC spec))
  then ["vpc '" ++ VPC spec ++ "' is not a valid IBM Cloud resource ID"]
  else [].

Definition validProfiles : list string :=
  ["general-purpose"; "5iops-tier"; "10iops-tier"; "custom"].

Definition out_of_range (isRoot : bool) (capacity : Z) : bool :=
  if isRoot then (capacity <? 10)%Z || (250 <? capacity)%Z
  else (capacity <? 10)%Z || (16000 <? capacity)%Z.

Definition capacity_message (isRoot : bool) (capacity : Z) (index : nat) : string :=
  if isRoot then
    "root volume capacity " ++ Strconv.Itoa capacity ++ "GB in mapping " ++ Strconv.Itoa (Z.of_nat index)
      ++ " is outside recommended range (10-250GB): this may cause IBM VPC oneOf constraint validation to fail"
  else
    "data volume capacity " ++ Strconv.Itoa capacity ++ "GB in mapping " ++ Strconv.Itoa (Z.of_nat index)
      ++ " is outside valid range (10-16000GB): this will cause IBM VPC oneOf constraint validation to fail".

Definition validateVolumeSpec (volSpec : option VolumeSpec) (index : nat) (isRoot : bool) : list string :=
  match volSpec with
  | None => []
  | Some volSpec =>
      (match Capacity volSpec with
       | Some capacity =>
           if out_of_range isRoot capacity then [capacity_message isRoot capacity index] else []
       | None => []
       end ++
       match Profile volSpec with
       | Some profile =>
           if existsb (String.eqb profile) validProfiles then []
           else [("volume profile '" ++ profile ++ "' in mapping " ++ Strconv.Itoa (Z.of_nat index)
                 ++ " is not recognized: use one of " ++ quote_list validProfiles
                 ++ " to avoid IBM VPC oneOf constraint errors")%string]
       | None => []
       end)%list
  end.

(** The messages of the mappings, numbered from [index]. *)
Fixpoint validate_volumes (index : nat) (l : list BlockDeviceMapping) : list string :=
  match l with
  | [] => []
  | m :: l' =>
      (validateVolumeSpec (VolumeSpec_ m) index (RootVolume m) ++ validate_volumes (S index) l')%list
  end.

Definition validateBlockDeviceMappings (spec : IBMNodeClassSpec) : list string :=
  match BlockDeviceMappings spec with
  | [] => []
  | mappings =>
      let rootVolumeCount := count_roots mappings in
      ((if (rootVolumeCount =? 0)%Z then
          ["block device mappings specified but no root volume marked: exactly one mapping must have RootVolume=true to satisfy IBM VPC oneOf constraints"]
        else if (1 <? rootVolumeCount)%Z then
          [("multiple root volumes specified (" ++ Strconv.Itoa rootVolumeCount
           ++ "): exactly one mapping must have RootVolume=true to satisfy IBM VPC oneOf constraints")%string]
        else [])
       ++ validate_volumes 0 mappings)%list
  end.

Definition validFamilies : list string :=
  ["bx2"; "bx3d"; "cx2"; "cx3d"; "mx2"; "mx3d"; "ux2d"; "vx2d"; "ox2"; "gx2"; "gx3"].

Definition validCX2 : list string := ["2x4"; "4x8"; "8x16"; "16x32"; "32x64"; "48x96"].

Definition validateInstanceProfile (spec : IBMNodeClassSpec) : list string :=
  let profile := InstanceProfile spec in
  if String.eqb profile "" then []
  else
    let parts := Split profile "-" in
    ((if negb (MatchString instanceProfilePattern profile) then
        [("instanceProfile '" ++ profile ++ "' has invalid format: must match pattern 'family-vcpuxmemory' (e.g., 'bx2-2x8', 'cx2-4x16'). Invalid instance profiles cause IBM VPC oneOf constraint errors")%string]
      else []) ++
     (if Contains profile " " then
        [("instanceProfile '" ++ profile ++ "' contains spaces: instance profiles cannot contain spaces and will cause IBM VPC oneOf constraint validation to fail")%string]
      else []) ++
     (if Nat.leb 2 (length parts) then
        let family := List.hd "" parts in
        if existsb (String.eqb family) validFamilies then []
        else [("instanceProfile '" ++ profile ++ "' uses unknown instance family '" ++ family
              ++ "': use one of " ++ quote_list validFamilies ++ " to avoid potential IBM VPC API issues")%string]
      else []) ++
     (if HasPrefix profile "cx2-" then
        match parts with
        | [_; vcpuMemPart] =>
            if existsb (String.eqb vcpuMemPart) validCX2 then []
            else [("instanceProfile '" ++ profile ++ "' uses invalid CX2 configuration '" ++ vcpuMemPart
                  ++ "': valid CX2 configurations are " ++ quote_list validCX2)%string]
        | _ => []
        end
      else []))%list.

(** The security groups again, with their positions. *)
Fixpoint indexed_groups (i : nat) (l : list string) : list string :=
  match l with
  | [] => []
  | sgID :: l' =>
      ((if negb (MatchString ibmResourceIDPattern sgID) then
          [("security group " ++ Strconv.Itoa (Z.of_nat i) ++ " '" ++ sgID
           ++ "' is not a valid IBM Cloud resource ID: invalid resource IDs may cause oneOf constraint errors during VNI creation")%string]
        else []) ++ indexed_groups (S i) l')%list
  end.

Definition validateInstanceConfiguration (spec : IBMNodeClassSpec) : list string :=
  (validateInstanceProfile spec ++
   (if String.eqb (ResourceGroup spec) "" then
      ["resourceGroup is required: missing resource group causes IBM VPC oneOf constraint errors in Virtual Network Interface (VNI) prototype creation"]
    else []) ++
   (if negb (String.eqb (Zone spec) "") && negb (String.eqb (Region spec) "") then
      let expectedPrefix := (Region spec ++ "-")%string in
      if negb (MatchString (zonePattern expectedPrefix) (Zone spec)) then
        [("zone '" ++ Zone spec ++ "' does not match region '" ++ Region spec
         ++ "': zone should be in format '" ++ expectedPrefix ++ "1', '" ++ expectedPrefix
         ++ "2', etc. to avoid IBM VPC API errors")%string]
      else []
    else []) ++
   indexed_groups 0 (SecurityGroups spec))%list.

Definition validateOneOfConstraints (spec : IBMNodeClassSpec) : list string :=
  (validateBlockDeviceMappings spec ++ validateInstanceConfiguration spec)%list.

Definition generateOneOfWarnings (spec : IBMNodeClassSpec) : Warnings :=
  ((if String.eqb (InstanceProfile spec) "" then
      ["Dynamic instance type selection detected (no instanceProfile specified). This configuration has been known to cause 'oneOf constraint' errors with IBM VPC API. STRONG RECOMMENDATION: Specify a static instanceProfile (e.g., 'bx2-2x8') to prevent provisioning failures."]
    else []) ++
   (if Nat.ltb 1 (length (BlockDeviceMappings spec)) &&
       negb (existsb RootVolume (BlockDeviceMappings spec)) then
      ["Multiple block device mappings specified without marking any as root volume. This may cause volume attachment oneOf constraint errors. Ensure exactly one mapping has RootVolume=true."]
    else []))%list.

Definition endpoint_errors (spec : IBMNodeClassSpec) : list string :=
  if String.eqb (APIServerEndpoint spec) "" then
    ["apiServerEndpoint is required for nodes to join the cluster"]
  else if negb (MatchString apiServerEndpointPattern (APIServerEndpoint spec)) then
    [("apiServerEndpoint '" ++ APIServerEndpoint spec ++ "' is not a valid URL (expected format: https://IP:PORT or http://IP:PORT)")%string]
  else [].

Definition valid_modes : list string := ["cloud-init"; "iks-api"; "auto"].

Definition bootstrap_messages (spec : IBMNodeClassSpec) : Warnings * list string :=
  match BootstrapMode spec with
  | None => (["bootstrapMode not specified, defaulting to 'auto'"], [])
  | Some mode =>
      ([], if existsb (String.eqb mode) valid_modes then []
           else [("invalid bootstrapMode '" ++ mode ++ "' (valid values: cloud-init, iks-api, auto)")%string])
  end.

(** The warnings and the error messages, in the order they are collected. *)
Definition collect (spec : IBMNodeClassSpec) : Warnings * list string :=
  let '(w1, e1) := bootstrap_messages spec in
  let '(w2, errs) := validateSecurityGroups spec (endpoint_errors spec ++ e1)%list in
  ((w1 ++ w2 ++ validateImage spec ++ generateOneOfWarnings spec)%list,
   (errs ++ validateSSHKeys spec ++ validateSubnet spec ++ validateVPC spec
         ++ validateOneOfConstraints spec)%list).

Definition validateNodeClass (nodeClass : IBMNodeClass) : Warnings * option GoErrors.error :=
  let '(warnings, errs) := collect (Spec nodeClass) in
  match errs with
  | [] => (warnings, None)
  | _ => (warnings, Some (GoErrors.New ("validation failed: " ++ Join errs "; ")))
  end.

(** The object of an admission request: an IBMNodeClass, or the name
    of another type. *)
Definition object := (string + IBMNodeClass)%type.

Definition ValidateCreate (obj : object) : Warnings * option GoErrors.error :=
  match obj with
  | inl typeName => ([], Some (GoErrors.New ("expected IBMNodeClass, got " ++ typeName)))
  | inr nodeClass => validateNodeClass nodeClass
  end.

Definition ValidateUpdate (oldObj newObj : object) : Warnings * option GoErrors.error :=
  match newObj with
  | inl typeName => ([], Some (GoErrors.New ("expected IBMNodeClass, got " ++ typeName)))
  | inr newNodeClass => validateNodeClass newNodeClass
  end.

Definition ValidateDelete (obj : object) : Warnings * option GoErrors.error := ([], None).

(** ** What is admitted, declaratively *)

(** A text of the given alphabet and length. *)
Definition word (cls : ascii → bool) (n : nat) (s : string) : Prop :=
  String.length s = n ∧ all_chars cls s = true.
(** A nonempty decimal number. *)
Definition number (s : string) : Prop := s ≠ "" ∧ all_chars is_digit s = true.

Definition uuid (s : string) : Prop :=
  ∃ a b c d e, s = a ++ "-" ++ b ++ "-" ++ c ++ "-" ++ d ++ "-" ++ e ∧
    word is_alnum 8 a ∧ word is_alnum 4 b ∧ word is_alnum 4 c ∧ word is_alnum 4 d ∧
    word is_alnum 12 e.

Definition resource_id (s : string) : Prop :=
  ∃ n u, s = "r" ++ n ++ "-" ++ u ∧ number n ∧ uuid u.
Definition subnet_id (s : string) : Prop :=
  ∃ w u, s = w ++ "-" ++ u ∧ word is_alnum 4 w ∧ uuid u.
Definition endpoint (s : string) : Prop :=
  ∃ scheme host port, s = scheme ++ "://" ++ host ++ ":" ++ port ∧
    (scheme = "http" ∨ scheme = "https") ∧ host ≠ "" ∧ all_chars is_host host = true ∧
    number port.
Definition zone_of (region s : string) : Prop := ∃ n, s = region ++ "-" ++ n ∧ number n.

(** A profile of a known family, a known size when the family is cx2. *)
Definition known_profile (s : string) : Prop :=
  ∃ family size, s = family ++ "-" ++ size ∧ family ∈ validFamilies ∧
    lang [Plus is_digit; Lit "x"; Plus is_digit; Star is_profile_tail] size ∧
    (family = "cx2" → size ∈ validCX2).

Definition volume_ok (m : BlockDeviceMapping) : Prop :=
  ∀ v, VolumeSpec_ m = Some v →
    (∀ c, Capacity v = Some c → (10 ≤ c ≤ (if RootVolume m then 250 else 16000))%Z) ∧
    (∀ p, Profile v = Some p → p ∈ validProfiles).

Record admissible (spec : IBMNodeClassSpec) : Prop := {
  ok_endpoint : endpoint (APIServerEndpoint spec);
  ok_mode : ∀ m, BootstrapMode spec = Some m → m ∈ valid_modes;
  ok_groups : Forall resource_id (SecurityGroups spec);
  ok_keys : Forall resource_id (SSHKeys spec);
  ok_subnet : Subnet spec = "" ∨ subnet_id (Subnet spec);
  ok_vpc : resource_id (VPC spec);
  ok_roots : BlockDeviceMappings spec = [] ∨ count_roots (BlockDeviceMappings spec) = 1%Z;
  ok_volumes : Forall volume_ok (BlockDeviceMappings spec);
  ok_profile : InstanceProfile spec = "" ∨ known_profile (InstanceProfile spec);
  ok_group : ResourceGroup spec ≠ "";
  ok_zone : Zone spec = "" ∨ Region spec = "" ∨ zone_of (Region spec) (Zone spec);
}.

(** *** The languages of the patterns *)
Lemma lang_exactly cls n its s :
  lang (Exactly cls n :: its) s ↔ ∃ w u, s = w ++ u ∧ word cls n w ∧ lang its u.
Proof.
  cbn. split.
  - intros (w & u & -> & Ha & Hmn & Hmx & H). specialize (Hmx n eq_refl).
    exists w, u. split_and!; try done. split; [lia|done].
  - intros (w & u & -> & [Hl Ha] & H). exists w, u. split_and!; try done; [lia|].
    intros n' [= <-]. lia.
Qed.

Lemma lang_plus cls its s :
  lang (Plus cls :: its) s ↔
  ∃ w u, s = w ++ u ∧ w ≠ "" ∧ all_chars cls w = true ∧ lang its u.
Proof.
  cbn. split; intros (w & u & -> & H); exists w, u; (split; [done|]).
  - destruct H as (Ha & Hmn & _ & H). split_and!; try done. by destruct w; [simpl in Hmn; lia|].
  - destruct H as (Hne & Ha & H). split_and!; try done. destruct w; [done|simpl; lia].
Qed.

Lemma lang_lit l its s : lang (Lit l :: its) s ↔ ∃ u, s = l ++ u ∧ lang its u.
Proof. done. Qed.

Lemma lang_nil s : lang [] s ↔ s = "".
Proof. done. Qed.

Lemma lang_number s : lang [Plus is_digit] s ↔ number s.
Proof.
  rewrite lang_plus. unfold number. split.
  - intros (w & u & -> & ? & ? & Hu). apply lang_nil in Hu as ->. by rewrite app_nil_r.
  - intros [? ?]. exists s, "". by rewrite app_nil_r.
Qed.

Ltac lang_split :=
  repeat match goal with
  | H : lang (Exactly _ _ :: _) _ |- _ => apply lang_exactly in H as (? & ? & -> & ? & ?)
  | H : lang (Lit _ :: _) _ |- _ => apply lang_lit in H as (? & -> & ?)
  | H : lang [] _ |- _ => apply lang_nil in H as ->
  end.

Ltac lang_build :=
  repeat match goal with
  | |- lang (Exactly _ _ :: _) _ => apply lang_exactly; do 2 eexists; split; [reflexivity|split; [eassumption|]]
  | |- lang (Lit _ :: _) _ => apply lang_lit; eexists; split; [reflexivity|]
  | |- lang [] _ => reflexivity
  end.

Definition uuid_items : pattern :=
  [Exactly is_alnum 8; Lit "-"; Exactly is_alnum 4; Lit "-"; Exactly is_alnum 4; Lit "-";
   Exactly is_alnum 4; Lit "-"; Exactly is_alnum 12].

Lemma lang_uuid s : lang uuid_items s ↔ uuid s.
Proof.
  unfold uuid_items. split.
  - intros H. lang_split. rewrite app_nil_r. do 5 eexists. split; [reflexivity|]. by split_and!.
  - intros (a & b & c & d & e & -> & ? & ? & ? & ? & ?). lang_build.
    apply lang_exactly. exists e, "". rewrite app_nil_r. by split_and!.
Qed.

Lemma resource_id_lang s : lang ibmResourceIDPattern s ↔ resource_id s.
Proof.
  unfold ibmResourceIDPattern. fold uuid_items. split.
  - intros H. lang_split. apply lang_plus in H as (n & u & -> & ? & ? & H). lang_split.
    apply lang_uuid in H. exists n. eexists. split; [reflexivity|]. by split.
  - intros (n & u & -> & [? ?] & Hu). lang_build.
    apply lang_plus. exists n, ("-" ++ u). split_and!; try done. lang_build. by apply lang_uuid.
Qed.

Lemma subnet_id_lang s : lang ibmSubnetIDPattern s ↔ subnet_id s.
Proof.
  unfold ibmSubnetIDPattern. fold uuid_items. split.
  - intros H. apply lang_exactly in H as (w & u & -> & ? & H). lang_split.
    apply lang_uuid in H. exists w. eexists. split; [reflexivity|]. by split.
  - intros (w & u & -> & ? & Hu). apply lang_exactly. exists w, ("-" ++ u).
    split_and!; try done. lang_build. by apply lang_uuid.
Qed.

Lemma zone_lang region s : lang (zonePattern (region ++ "-")) s ↔ zone_of region s.
Proof.
  unfold zonePattern, zone_of. rewrite lang_lit. setoid_rewrite lang_number.
  split; intros (u & -> & ?); exists u; split; try done; by rewrite app_assoc.
Qed.

Lemma lang_opt c its s :
  lang (Opt (Ascii.eqb c) :: its) s ↔ lang its s ∨ ∃ u, s = String c u ∧ lang its u.
Proof.
  cbn. split.
  - intros (w & u & -> & Ha & _ & Hm & H). specialize (Hm 1 eq_refl).
    destruct w as [|x [|? w]]; simpl in *; [by left| |lia].
    right. exists u. split; [|done]. apply andb_true_iff in Ha as [Ha _].
    by apply Ascii.eqb_eq in Ha as ->.
  - intros [H|(u & -> & H)].
    + exists "", s. split_and!; try done; intros; simpl; lia.
    + exists (String c ""), u. cbn. rewrite Ascii.eqb_refl. split_and!; try done; [lia|].
      intros n [= <-]. lia.
Qed.

Lemma endpoint_lang s : lang apiServerEndpointPattern s ↔ endpoint s.
Proof.
  unfold apiServerEndpointPattern, endpoint. rewrite lang_lit. setoid_rewrite lang_opt.
  setoid_rewrite lang_lit. setoid_rewrite lang_plus. setoid_rewrite lang_lit.
  setoid_rewrite lang_number. split.
  - intros (u & -> & [(v & -> & host & w & -> & ? & ? & port & -> & ?)
                     |(u' & -> & v & -> & host & w & -> & ? & ? & port & -> & ?)]).
    + exists "http", host, port. by split_and!; try left.
    + exists "https", host, port. by split_and!; try right.
  - intros (scheme & host & port & -> & [-> | ->] & ? & ? & ?); eexists; (split; [reflexivity|]).
    + left. eexists. split; [reflexivity|]. exists host. eexists. split_and!; eauto.
    + right. eexists. split; [reflexivity|]. eexists. split; [reflexivity|].
      exists host. eexists. split_and!; eauto.
Qed.

(** *** Each validator against its part of the specification *)
Definition family_items : pattern := [Exactly is_lower 1; Star is_lower_digit].
Definition size_items : pattern := [Plus is_digit; Lit "x"; Plus is_digit; Star is_profile_tail].

Lemma profile_lang s :
  lang instanceProfilePattern s ↔
  ∃ family size, s = family ++ "-" ++ size ∧ lang family_items family ∧ lang size_items size.
Proof.
  change instanceProfilePattern with (family_items ++ [Lit "-"] ++ size_items)%list.
  rewrite lang_app. split.
  - intros (u & v & -> & Hu & (x & -> & Hx)). by exists u, x.
  - intros (f & z & -> & Hf & Hz). exists f, ("-" ++ z). split_and!; try done.
    by exists z.
Qed.

Lemma family_free f : lang family_items f → free_of "-" f = true.
Proof. apply lang_free. by repeat constructor. Qed.
Lemma size_free z : lang size_items z → free_of "-" z = true ∧ free_of " " z = true.
Proof. intros H. split; revert H; apply lang_free; by repeat constructor. Qed.

Lemma valid_family f : f ∈ validFamilies → lang family_items f ∧ free_of " " f = true.
Proof.
  intros Hf. assert (HF : forallb (λ f, MatchString family_items f && free_of " " f) validFamilies = true)
    by (vm_compute; reflexivity).
  rewrite forallb_forall in HF. specialize (HF _ (proj1 (list_elem_of_In _ _) Hf)).
  apply andb_true_iff in HF as [HF ?]. by rewrite MatchString_lang in HF.
Qed.

Lemma Contains_space s : free_of " " s = true → Contains s " " = false.
Proof.
  intros Hf. apply not_true_iff_false. intros (a & b & ->)%Contains_true.
  rewrite free_of_app in Hf. apply andb_true_iff in Hf as [_ Hf]. done.
Qed.

Lemma cx2_prefix f z : free_of "-" f = true → HasPrefix (f ++ "-" ++ z) "cx2-" = String.eqb f "cx2".
Proof.
  intros Hf. destruct (String.eqb_spec f "cx2") as [->|Hn]; [apply (HasPrefix_app "cx2-")|].
  apply not_true_iff_false. intros [t E]%HasPrefix_true.
  pose proof (Split_cons f z "-" Hf) as E1. change (String "-" z) with ("-" ++ z) in E1.
  rewrite E in E1. change ("cx2-" ++ t) with ("cx2" ++ String "-" t) in E1.
  rewrite Split_cons in E1 by done. by injection E1.
Qed.

Lemma nil_if (b : bool) (m : string) : (if b then [m] else []) = [] ↔ b = false.
Proof. by destruct b. Qed.
Lemma nil_if' (b : bool) (m : string) : (if b then [] else [m]) = [] ↔ b = true.
Proof. by destruct b. Qed.

Lemma profile_valid spec :
  validateInstanceProfile spec = [] ↔
  InstanceProfile spec = "" ∨ known_profile (InstanceProfile spec).
Proof.
  unfold validateInstanceProfile, known_profile. fold size_items.
  destruct (String.eqb_spec (InstanceProfile spec) "") as [E|Hne]; [by split; [left|]|].
  generalize dependent (InstanceProfile spec). intros s Hne.
  split.
  - intros H. right. apply app_eq_nil in H as [H1 H].
    apply nil_if, negb_false_iff, MatchString_lang, profile_lang in H1 as (f & z & -> & Hf & Hz).
    pose proof (family_free _ Hf) as Ff. pose proof (size_free _ Hz) as [Fz _].
    change ("-" ++ z) with (String "-" z) in H.
    rewrite Split_cons, (Split_free z) in H by done. change (String "-" z) with ("-" ++ z) in H.
    rewrite cx2_prefix in H by done.
    apply app_eq_nil in H as [_ H]. apply app_eq_nil in H as [H3 H4].
    cbn [length Nat.leb List.hd] in H3.
    apply nil_if', existsb_eqb in H3.
    exists f, z. split_and!; try done. intros ->. rewrite String.eqb_refl in H4.
    by apply nil_if', existsb_eqb in H4.
  - intros [?|(f & z & -> & Hf & Hz & Hc)]; [done|].
    destruct (valid_family _ Hf) as [Lf Sf]. pose proof (family_free _ Lf) as Ff.
    destruct (size_free _ Hz) as [Fz Sz].
    rewrite (proj2 (MatchString_lang instanceProfilePattern _)) by (apply profile_lang; eauto).
    rewrite Contains_space by (by rewrite !free_of_app, Sf, Sz).
    change ("-" ++ z) with (String "-" z). rewrite Split_cons, (Split_free z) by done.
    change (String "-" z) with ("-" ++ z). rewrite cx2_prefix by done.
    cbn [length Nat.leb List.hd negb app]. apply existsb_eqb in Hf. rewrite Hf. cbn [app].
    destruct (String.eqb_spec f "cx2") as [->|]; [|done].
    by rewrite (proj2 (existsb_eqb z validCX2) (Hc eq_refl)).
Qed.

Lemma volume_valid m i : validateVolumeSpec (VolumeSpec_ m) i (RootVolume m) = [] ↔ volume_ok m.
Proof.
  unfold validateVolumeSpec, volume_ok. destruct (VolumeSpec_ m) as [v|]; [|by split].
  split.
  - intros [H1 H2]%app_eq_nil v' [= <-]. split.
    + intros c Hc. rewrite Hc in H1. apply nil_if in H1. unfold out_of_range in H1.
      destruct (RootVolume m); bool_to_prop; lia.
    + intros p Hp. rewrite Hp in H2. by apply nil_if', existsb_eqb in H2.
  - intros H. destruct (H v eq_refl) as [H1 H2]. apply app_nil. split.
    + destruct (Capacity v) as [c|]; [|done]. specialize (H1 c eq_refl). apply nil_if.
      unfold out_of_range. destruct (RootVolume m); apply orb_false_iff; lia.
    + destruct (Profile v) as [p|]; [|done]. by apply nil_if', existsb_eqb, H2.
Qed.

Lemma volumes_valid l i : validate_volumes i l = [] ↔ Forall volume_ok l.
Proof.
  revert i. induction l as [|m l IH]; intros i; cbn; [by split; [constructor|]|].
  rewrite Forall_cons, <-(volume_valid m i), <-(IH (S i)). split.
  - apply app_nil.
  - by intros [-> ->].
Qed.

Lemma mappings_valid spec :
  validateBlockDeviceMappings spec = [] ↔
  (BlockDeviceMappings spec = [] ∨ count_roots (BlockDeviceMappings spec) = 1%Z) ∧
  Forall volume_ok (BlockDeviceMappings spec).
Proof.
  unfold validateBlockDeviceMappings. destruct (BlockDeviceMappings spec) as [|m l] eqn:E.
  { split; [|done]. intros _. split; [by left|constructor]. }
  assert (0 <= count_roots (m :: l))%Z by (unfold count_roots; lia).
  split.
  - intros [H1 H2%volumes_valid]%app_eq_nil. split; [right|done].
    destruct (Z.eqb_spec (count_roots (m :: l)) 0); [done|].
    apply nil_if in H1. lia.
  - intros [[?|Hc] Hv]; [done|]. apply app_nil. rewrite Hc. split; [done|].
    by apply volumes_valid.
Qed.

Lemma groups_valid i l : indexed_groups i l = [] ↔ Forall resource_id l.
Proof.
  revert i. induction l as [|g l IH]; intros i; cbn; [by split; [constructor|]|].
  rewrite Forall_cons, <-(IH (S i)), <-resource_id_lang, <-MatchString_lang.
  destruct (MatchString ibmResourceIDPattern g); cbn; [by split; [|intros [_ ?]]|].
  split; [done|]. by intros [? _].
Qed.

Lemma ids_valid {B} (msg : string → B) l :
  List.map msg (List.filter (λ s, negb (MatchString ibmResourceIDPattern s)) l) = [] ↔
  Forall resource_id l.
Proof.
  induction l as [|g l IH]; cbn; [by split; [constructor|]|].
  rewrite Forall_cons, <-IH, <-resource_id_lang, <-MatchString_lang.
  destruct (MatchString ibmResourceIDPattern g); cbn; [by split; [|intros [_ ?]]|].
  split; [done|]. by intros [? _].
Qed.

Lemma endpoint_valid spec : endpoint_errors spec = [] ↔ endpoint (APIServerEndpoint spec).
Proof.
  unfold endpoint_errors. rewrite <-endpoint_lang, <-MatchString_lang.
  destruct (String.eqb_spec (APIServerEndpoint spec) "") as [->|]; [done|].
  by rewrite nil_if, negb_false_iff.
Qed.

Lemma vpc_valid spec : validateVPC spec = [] ↔ resource_id (VPC spec).
Proof.
  unfold validateVPC. rewrite <-resource_id_lang, <-MatchString_lang.
  destruct (String.eqb_spec (VPC spec) "") as [->|]; [done|].
  by rewrite nil_if, negb_false_iff.
Qed.

Lemma subnet_valid spec :
  validateSubnet spec = [] ↔ Subnet spec = "" ∨ subnet_id (Subnet spec).
Proof.
  unfold validateSubnet. rewrite <-subnet_id_lang, <-MatchString_lang, nil_if.
  destruct (String.eqb_spec (Subnet spec) "") as [|]; cbn; [naive_solver|].
  rewrite negb_false_iff. naive_solver.
Qed.

Lemma mode_valid spec :
  (bootstrap_messages spec).2 = [] ↔ ∀ m, BootstrapMode spec = Some m → m ∈ valid_modes.
Proof.
  unfold bootstrap_messages. destruct (BootstrapMode spec) as [m|]; cbn [snd]; [|done].
  rewrite nil_if', existsb_eqb. naive_solver.
Qed.

Lemma zone_valid spec (msg : string) :
  (if negb (String.eqb (Zone spec) "") && negb (String.eqb (Region spec) "") then
     if negb (MatchString (zonePattern (Region spec ++ "-")) (Zone spec)) then [msg] else []
   else []) = [] ↔ Zone spec = "" ∨ Region spec = "" ∨ zone_of (Region spec) (Zone spec).
Proof.
  rewrite <-zone_lang, <-MatchString_lang.
  destruct (String.eqb_spec (Zone spec) ""); cbn; [naive_solver|].
  destruct (String.eqb_spec (Region spec) ""); cbn; [naive_solver|].
  rewrite nil_if, negb_false_iff. naive_solver.
Qed.

Lemma security_groups_valid spec errs :
  (validateSecurityGroups spec errs).2 = [] ↔ errs = [] ∧ Forall resource_id (SecurityGroups spec).
Proof.
  unfold validateSecurityGroups. destruct (SecurityGroups spec) as [|g l]; cbn [snd].
  - split; [by split|by intros [? _]].
  - by rewrite app_nil, ids_valid.
Qed.

Lemma collect_valid spec : (collect spec).2 = [] ↔ admissible spec.
Proof.
  unfold collect. pose proof (mode_valid spec) as Hm.
  destruct (bootstrap_messages spec) as [w1 e1]. cbn [snd] in Hm.
  pose proof (security_groups_valid spec (endpoint_errors spec ++ e1)) as Hg.
  destruct (validateSecurityGroups spec _) as [w2 errs]. cbn [snd] in Hg |- *.
  unfold validateOneOfConstraints, validateInstanceConfiguration. cbv zeta.
  rewrite !app_nil, Hg, app_nil, endpoint_valid, Hm, subnet_valid, vpc_valid, mappings_valid,
    profile_valid, zone_valid, groups_valid, nil_if, String.eqb_neq.
  unfold validateSSHKeys. rewrite ids_valid.
  split; [intros; destruct_and!; by split|intros []; by split_and!].
Qed.

Lemma no_error_admissible nodeClass : (validateNodeClass nodeClass).2 = None ↔ admissible (Spec nodeClass).
Proof.
  rewrite <-collect_valid. unfold validateNodeClass.
  destruct (collect (Spec nodeClass)) as [w errs]. by destruct errs.
Qed.


(** The block device mappings of an admitted class, when there are any,
    have exactly one root volume, whose capacity is between 10 and 250 GB. *)
Theorem admitted_root_volume (nodeClass : IBMNodeClass)
    (Hok : (validateNodeClass nodeClass).2 = None)
    (Hne : BlockDeviceMappings (Spec nodeClass) ≠ []) :
  ∃ before root after,
    BlockDeviceMappings (Spec nodeClass) = (before ++ root :: after)%list ∧
    RootVolume root = true ∧
    Forall (λ m, RootVolume m = false) (before ++ after)%list ∧
    (∀ v c, VolumeSpec_ root = Some v → Capacity v = Some c → (10 ≤ c ≤ 250)%Z).
Proof.
  apply no_error_admissible in Hok as []. destruct ok_roots0 as [?|Hc]; [done|].
  revert Hc ok_volumes0. generalize (BlockDeviceMappings (Spec nodeClass)) as l.
  clear. unfold count_roots. induction l as [|m l IH]; [done|]. intros Hc [Hm Hl]%Forall_cons.
  cbn [List.filter] in Hc. destruct (RootVolume m) eqn:Em.
  - exists [], m, l. split_and!; [done|done| |].
    + apply filter_bool_nil. change (List.filter RootVolume l = []).
      cbn [length] in Hc. apply length_zero_iff_nil. lia.
    + intros v c Hv HC. destruct (Hm v Hv) as [H _]. specialize (H c HC). by rewrite Em in H.
  - destruct (IH Hc Hl) as (b & r & a & -> & Hr & Hf & Hv).
    exists (m :: b), r, a. split_and!; try done. by constructor.
Qed.

Definition good_spec : IBMNodeClassSpec :=
  {| Region := "us-south"; Zone := "us-south-1"; InstanceProfile := "bx2-4x16";
     InstanceRequirements := None; Image := ""; ImageSelector_ := None;
     VPC := "r006-72b27b5c-f4b0-48bb-b954-5becc7c1dcb8"; Subnet := "";
     PlacementStrategy_ := None; SecurityGroups := []; UserData := ""; UserDataAppend := "";
     SSHKeys := []; ResourceGroup := "rg"; PlacementTarget := ""; Tags := ∅;
     BootstrapMode := Some "auto"; APIServerEndpoint := "https://10.0.0.1:6443";
     IKSClusterID := ""; IKSWorkerPoolID := ""; IKSDynamicPools := None;
     LoadBalancerIntegration_ := None;
     BlockDeviceMappings :=
       [{| DeviceName := None; VolumeSpec_ := None; RootVolume := false |};
        {| DeviceName := None; RootVolume := true;
           VolumeSpec_ := Some {| Capacity := Some 100%Z; Profile := Some "custom"; IOPS := None;
             Bandwidth := None; EncryptionKeyID := None; DeleteOnTermination := None;
             vol_Tags := [] |} |}];
     Kubelet := None |}.

Definition good_class : IBMNodeClass :=
  {| nc_meta := no_meta; Spec := good_spec; Status := empty_status |}.

Lemma admitted_root_volume_witness :
  (validateNodeClass good_class).2 = None ∧
  ∃ before root after,
    BlockDeviceMappings good_spec = (before ++ root :: after)%list ∧ RootVolume root = true.
Proof.
  split; [vm_compute; reflexivity|].
  destruct (admitted_root_volume good_class ltac:(vm_compute; reflexivity) ltac:(discriminate))
    as (b & r & a & H1 & H2 & _).
  exists b, r, a. split; [exact H1|exact H2].
Defined.
