(* ===== verification/Ownership.v ===== *)
(** * Ownership: cloud tags and the identity of clusters, claims and instances

    [pkg/utils/ownership/ownership.go].  [crypto/sha256] is an argument. *)
From stdpp Require Import prelude list strings gmap sorting.
From Stdlib Require Import Ascii.
From S2P Require Import Prelude GoLib GoSort GoRegexp Errors NodeClass.
Import Strings.

Open Scope string_scope.
Open Scope nat_scope.

Definition BackendAnnotation := "karpenter-ibm.sh/provider-mode".
Definition RegionAnnotation := "karpenter-ibm.sh/region".
Definition ClusterIDAnnotation := "karpenter-ibm.sh/cluster-id".
Definition PoolIDAnnotation := "karpenter-ibm.sh/worker-pool-id".
Definition WorkerIDAnnotation := "karpenter-ibm.sh/worker-id".
Definition AccountIDAnnotation := "karpenter-ibm.sh/account-id".
Definition ClusterUIDLabel := "karpenter-ibm.sh/cluster-uid".
Definition ClaimUIDLabel := "karpenter-ibm.sh/nodeclaim-uid".
Definition NodeClassUIDLabel := "karpenter-ibm.sh/nodeclass-uid".
Definition ProviderLabel := "karpenter-ibm.sh/provider".
Definition ManagedLabel := "karpenter.sh/managed".
Definition ClusterUIDTag := "karpenter-ibm.sh.cluster-uid".
Definition ClaimUIDTag := "karpenter-ibm.sh.nodeclaim-uid".
Definition NodeClassUIDTag := "karpenter-ibm.sh.nodeclass-uid".
Definition ProviderTag := "karpenter-ibm.sh.provider".
Definition ManagedTag := "karpenter.sh.managed".
Definition RetainTag := "karpenter-ibm.sh.retain".

(** The answer of reading the kube-system namespace, [None] without a reader. *)
Definition ClusterUID_of (answer : option (result GoErrors.error ObjectMeta))
    : result GoErrors.error string :=
  match answer with
  | None => Err (GoErrors.New "cluster ownership requires a Kubernetes reader")
  | Some (Err err) => Err (GoErrors.wrap ("reading cluster identity: " ++ GoErrors.Error err) err)
  | Some (Ok namespace) =>
      if String.eqb (UID namespace) "" then Err (GoErrors.New "kube-system namespace has no UID")
      else Ok (UID namespace)
  end.

Definition VPCTags (clusterUID claimUID classUID : string) : gmap string string :=
  <[ManagedTag := "true"]> (<[ProviderTag := "vpc"]> (<[ClusterUIDTag := clusterUID]>
    (<[ClaimUIDTag := claimUID]> {[NodeClassUIDTag := classUID]}))).

Definition ReservedTag (key : string) : bool :=
  let key := ToLower key in
  String.eqb key "managed-by" || HasPrefix key "karpenter.sh/" ||
  HasPrefix key "karpenter-ibm.sh/" || HasPrefix key "karpenter.sh." ||
  HasPrefix key "karpenter-ibm.sh.".

Definition tag_char (c : ascii) : bool :=
  is_lower c || is_upper c || is_digit c ||
  (Ascii.eqb c " " || Ascii.eqb c "_" || Ascii.eqb c "-" || Ascii.eqb c "." || Ascii.eqb c ":").

Definition ValidateTag (tag : string) : option GoErrors.error :=
  if Nat.eqb (String.length tag) 0 || Nat.ltb 128 (String.length tag) then
    Some (GoErrors.New "cloud tags must contain between 1 and 128 ASCII characters")
  else if all_chars tag_char tag then None
  else Some (GoErrors.New "cloud tags permit only ASCII letters, digits, spaces, underscores, hyphens, periods, and colons").

Definition tag_of (key value : string) : string := key ++ ":" ++ value.

(** The body of the range loop: the first bad entry ends it. *)
Fixpoint format_loop (tags : list (string * string)) : result GoErrors.error (list string) :=
  match tags with
  | [] => Ok []
  | (key, value) :: tags' =>
      if String.eqb key "" || Contains key ":" then
        Err (GoErrors.New "cloud tag keys must be nonempty and must not contain colons")
      else match ValidateTag (tag_of key value) with
           | Some err => Err err
           | None =>
               match format_loop tags' with
               | Ok l => Ok (tag_of key value :: l)
               | Err err => Err err
               end
           end
  end.

Section format.
Context `{MapRange} `{SliceSorter}.

Definition FormatTags (tags : gmap string string) : result GoErrors.error (list string) :=
  match format_loop (map_range (map_to_list tags)) with
  | Ok formatted => Ok (sort_slice string_less formatted)
  | Err err => Err err
  end.
End format.

(** [%x] of a byte string. *)
Definition hex_digit (n : nat) : ascii :=
  ascii_of_nat (if Nat.ltb n 10 then 48 + n else 87 + n).
Fixpoint hex (s : string) : string :=
  match s with
  | "" => ""
  | String c s' =>
      String (hex_digit (nat_of_ascii c / 16)) (String (hex_digit (nat_of_ascii c mod 16)) (hex s'))
  end.

(** [sha256.Sum256] as a function on byte strings. *)
Definition InstanceName (Sum256 : string → string) (clusterUID claimUID : string) : string :=
  "karpenter-" ++ hex (take 26 (Sum256 (clusterUID ++ "/" ++ claimUID))).

(** An entry [FormatTags] accepts. *)
Definition good_entry (kv : string * string) : bool :=
  negb (String.eqb kv.1 "") && negb (Contains kv.1 ":") &&
  match ValidateTag (tag_of kv.1 kv.2) with None => true | Some _ => false end.

Lemma free_of_Contains c s : free_of c s = negb (Contains s (String c "")).
Proof.
  destruct (Contains s (String c "")) eqn:E; cbn [negb].
  - apply Contains_true in E as (a & b & ->). rewrite free_of_app. cbn.
    by rewrite Ascii.eqb_refl, andb_false_r.
  - destruct (free_of c s) eqn:F; [done|]. exfalso. revert E. apply not_false_iff_true.
    induction s as [|d s IH]; [done|]. cbn [free_of] in F.
    destruct (Ascii.eqb_spec d c) as [->|].
    + cbn. rewrite Ascii.eqb_refl. by destruct s.
    + cbn [negb andb] in F. cbn [Contains]. by rewrite (IH F), orb_true_r.
Qed.

Lemma tag_cut k v : Contains k ":" = false → cut ":" (tag_of k v) = Some (k, v).
Proof.
  intros H. apply cut_Some. split; [done|]. by rewrite free_of_Contains, H.
Qed.

Lemma format_loop_Ok l r :
  format_loop l = Ok r ↔ forallb good_entry l = true ∧ r = List.map (λ kv, tag_of kv.1 kv.2) l.
Proof.
  revert r. induction l as [|[k v] l IH]; intros r; cbn [format_loop forallb List.map].
  { split; [by intros [= <-]|by intros [_ ->]]. }
  unfold good_entry at 1. cbn [fst snd].
  destruct (String.eqb k ""), (Contains k ":"); cbn [negb andb orb]; try (split; [done|by intros [? _]]).
  destruct (ValidateTag (tag_of k v)); cbn [andb]; [split; [done|by intros [? _]]|].
  destruct (format_loop l) as [r'|]; split.
  - intros [= <-]. destruct (proj1 (IH r') eq_refl) as [? ->]. done.
  - intros [Hg ->]. pose proof (proj2 (IH _) (conj Hg eq_refl)) as E. by injection E as ->.
  - done.
  - intros [Hg ->]. by pose proof (proj2 (IH _) (conj Hg eq_refl)).
Qed.

Lemma format_loop_Err l : is_ok (format_loop l) = forallb good_entry l.
Proof.
  destruct (format_loop l) as [r|e] eqn:E; cbn.
  - apply format_loop_Ok in E as [-> _]. done.
  - symmetry. apply not_true_iff_false. intros Hg.
    pose proof (proj2 (format_loop_Ok l _) (conj Hg eq_refl)). congruence.
Qed.

(** [FormatTags] succeeds exactly when every entry is good, and the tags
    are then sorted and decode, at their first colon, to exactly the entries
    of the map.  None of it depends on the order the map is iterated in. *)
Theorem format_tags_spec `{MapRange} `{SliceSorter} (tags : gmap string string) :
  match FormatTags tags with
  | Ok l => map_Forall (λ k v, good_entry (k, v) = true) tags ∧ less_sorted string_less l ∧
            length l = size tags ∧
            (∀ k v, tags !! k = Some v ↔ ∃ t, t ∈ l ∧ cut ":" t = Some (k, v))
  | Err _ => ¬ map_Forall (λ k v, good_entry (k, v) = true) tags
  end.
Proof.
  unfold FormatTags.
  assert (Hall : forallb good_entry (map_range (map_to_list tags)) = true ↔
                 map_Forall (λ k v, good_entry (k, v) = true) tags).
  { rewrite forallb_forall, map_Forall_to_list, Forall_forall. split.
    - intros Hf [k v] Hkv. apply (Hf (k, v)), list_elem_of_In. by rewrite map_range_elem_of.
    - intros Hf [k v] Hkv. apply list_elem_of_In in Hkv.
      rewrite map_range_elem_of in Hkv. apply (Hf _ Hkv). }
  destruct (format_loop _) as [r|e] eqn:E.
  - apply format_loop_Ok in E as [Hg ->]. split_and!.
    + by apply Hall.
    + apply sort_slice_sorted, swo_string.
    + by rewrite sort_slice_length, length_map, map_range_length, length_map_to_list.
    + intros k v. rewrite <-elem_of_map_to_list, <-map_range_elem_of.
      setoid_rewrite sort_slice_elem_of. rewrite forallb_forall in Hg.
      assert (Hcut : ∀ kv, kv ∈ map_range (map_to_list tags) → cut ":" (tag_of kv.1 kv.2) = Some kv).
      { intros [k' v'] Hkv. apply tag_cut. specialize (Hg (k', v') (proj1 (list_elem_of_In _ _) Hkv)).
        unfold good_entry in Hg. bool_to_prop. done. }
      split.
      * intros Hkv. exists (tag_of k v). split; [|by apply (Hcut (k, v))].
        apply list_elem_of_In, (in_map (λ kv, tag_of kv.1 kv.2) _ (k, v)). by apply list_elem_of_In.
      * intros (t & Ht & Hc). apply list_elem_of_In, in_map_iff in Ht as (kv & <- & Hkv).
        apply list_elem_of_In in Hkv. rewrite (Hcut kv Hkv) in Hc. by injection Hc as ->.
  - intros Hf%Hall. pose proof (format_loop_Err (map_range (map_to_list tags))) as He.
    rewrite E, Hf in He. done.
Qed.

(** The tags that mark an instance as owned are out of the users' reach:
    each of their keys is reserved, in any letter case. *)
Theorem owned_tags_reserved (clusterUID claimUID classUID key : string)
    (Hkey : is_Some (VPCTags clusterUID claimUID classUID !! key)) :
  ∀ key', ToLower key' = ToLower key → ReservedTag key' = true.
Proof.
  intros key' Hk. unfold ReservedTag. rewrite Hk.
  assert (key ∈ [ManagedTag; ProviderTag; ClusterUIDTag; ClaimUIDTag; NodeClassUIDTag]) as Hin.
  { unfold VPCTags in Hkey. rewrite !lookup_insert_is_Some, lookup_singleton_is_Some in Hkey.
    rewrite !elem_of_cons. naive_solver. }
  rewrite !elem_of_cons in Hin.
  destruct Hin as [->|[->|[->|[->|[->|Hin]]]]]; try reflexivity. by apply not_elem_of_nil in Hin.
Qed.

Lemma owned_tags_reserved_witness : ReservedTag "Karpenter-IBM.sh.Cluster-UID" = true.
Proof.
  apply (owned_tags_reserved "c" "n" "k" ClusterUIDTag); [|reflexivity].
  vm_compute. eexists. reflexivity.
Defined.

Lemma hex_length s : String.length (hex s) = 2 * String.length s.
Proof. induction s as [|c s IH]; [done|]. cbn [hex String.length]. lia. Qed.

Lemma hex_digit_lower n : n < 16 → is_lower_digit (hex_digit n) = true.
Proof. intros Hn. do 16 (destruct n as [|n]; [reflexivity|]). lia. Qed.

Lemma hex_lower s : all_chars is_lower_digit (hex s) = true.
Proof.
  induction s as [|c s IH]; [done|]. cbn [hex all_chars].
  pose proof (nat_ascii_bounded c).
  rewrite !hex_digit_lower, IH; [done|apply Nat.mod_upper_bound; lia|].
  apply Nat.Div0.div_lt_upper_bound. lia.
Qed.

Lemma length_take n s : String.length (take n s) = Nat.min n (String.length s).
Proof. revert n. induction s as [|c s IH]; intros [|n]; cbn; auto. Qed.

(** An instance name is a DNS label whatever the identities are: lower-case
    letters, digits and one hyphen, at most 63 characters. *)
Theorem instance_name_is_label (Sum256 : string → string) (clusterUID claimUID : string) :
  let name := InstanceName Sum256 clusterUID claimUID in
  ∃ suffix, name = "karpenter-" ++ suffix ∧ all_chars is_lower_digit suffix = true ∧
            String.length name ≤ 62.
Proof.
  cbv zeta. unfold InstanceName. eexists. split; [reflexivity|]. split; [apply hex_lower|].
  rewrite Strings.length_app, hex_length, length_take. cbn [String.length]. lia.
Qed.
