(* ===== verification/Options.v ===== *)
(** * Options: the operator's configuration

    [pkg/operator/options/options.go]: the options of the environment, their
    validation, and the breaker configuration main.go makes of them. *)
From stdpp Require Import prelude list strings.
From Stdlib Require Import Ascii.
From S2P Require Import Prelude GoLib GoSort GoFloat GoDuration Errors ProviderIDs CircuitBreaker.
Import Strings.

Open Scope string_scope.
Open Scope Z_scope.

Record Options := {
  Interruption : bool;
  APIKey : string;
  Region : string;
  Zone : string;
  ResourceGroupID : string;
  SpotDiscountPercent : Z;
  CircuitBreakerEnabled : bool;
  CircuitBreakerFailureThreshold : Z;
  CircuitBreakerFailureWindow : Z;
  CircuitBreakerRecoveryTimeout : Z;
  CircuitBreakerHalfOpenMaxRequests : Z;
  CircuitBreakerRateLimitPerMinute : Z;
  CircuitBreakerMaxConcurrentInstances : Z;
}.

(** A positive count of the environment, or the current value, or the default. *)
Definition env_count (value : string) (current default : Z) : Z :=
  let parsed :=
    if negb (empty value)
    then let '(val, ok) := Strconv.Atoi value in if ok && (0 <? val) then val else current
    else current in
  if parsed =? 0 then default else parsed.

(** A duration of the environment, or the current value, or the default. *)
Definition env_duration (value : string) (current default : Z) : Z :=
  let parsed :=
    if negb (empty value)
    then match Duration.ParseDuration value with Some d => d | None => current end else current in
  if parsed =? 0 then default else parsed.

Section options.
Context (Getenv : string → string).

Definition parseSpotDiscountPercent (current : Z) : Z :=
  let v := Getenv "KARPENTER_SPOT_DISCOUNT_PERCENT" in
  if empty v then current
  else
    let '(val, ok) := Strconv.Atoi v in
    if negb ok then current else if (val <? 1) || (100 <? val) then current else val.

Definition parseCircuitBreakerConfig (o : Options) : Options :=
  {| Interruption := Interruption o; APIKey := APIKey o; Region := Region o; Zone := Zone o;
     ResourceGroupID := ResourceGroupID o; SpotDiscountPercent := SpotDiscountPercent o;
     CircuitBreakerEnabled :=
       if negb (empty (Getenv "CIRCUIT_BREAKER_ENABLED")) then fst (ParseBool (Getenv "CIRCUIT_BREAKER_ENABLED"))
       else true;
     CircuitBreakerFailureThreshold :=
       env_count (Getenv "CIRCUIT_BREAKER_FAILURE_THRESHOLD") (CircuitBreakerFailureThreshold o) 3;
     CircuitBreakerFailureWindow :=
       env_duration (Getenv "CIRCUIT_BREAKER_FAILURE_WINDOW") (CircuitBreakerFailureWindow o) (5 * GoTime.Minute);
     CircuitBreakerRecoveryTimeout :=
       env_duration (Getenv "CIRCUIT_BREAKER_RECOVERY_TIMEOUT") (CircuitBreakerRecoveryTimeout o)
         (15 * GoTime.Minute);
     CircuitBreakerHalfOpenMaxRequests :=
       env_count (Getenv "CIRCUIT_BREAKER_HALF_OPEN_MAX_REQUESTS") (CircuitBreakerHalfOpenMaxRequests o) 2;
     CircuitBreakerRateLimitPerMinute :=
       env_count (Getenv "CIRCUIT_BREAKER_RATE_LIMIT_PER_MINUTE") (CircuitBreakerRateLimitPerMinute o) 10;
     CircuitBreakerMaxConcurrentInstances :=
       env_count (Getenv "CIRCUIT_BREAKER_MAX_CONCURRENT_INSTANCES") (CircuitBreakerMaxConcurrentInstances o) 5 |}.

Definition NewOptions : Options :=
  parseCircuitBreakerConfig
    {| Interruption := true;
       APIKey := Getenv "IBMCLOUD_API_KEY";
       Region := Getenv "IBMCLOUD_REGION";
       Zone := Getenv "IBMCLOUD_ZONE";
       ResourceGroupID := Getenv "IBMCLOUD_RESOURCE_GROUP_ID";
       SpotDiscountPercent := parseSpotDiscountPercent 60;
       CircuitBreakerEnabled := false; CircuitBreakerFailureThreshold := 0; CircuitBreakerFailureWindow := 0;
       CircuitBreakerRecoveryTimeout := 0; CircuitBreakerHalfOpenMaxRequests := 0;
       CircuitBreakerRateLimitPerMinute := 0; CircuitBreakerMaxConcurrentInstances := 0 |}.

(** [GetCircuitBreakerConfig], and the configuration main.go copies it to. *)
Definition GetCircuitBreakerConfig (o : Options) : option CircuitBreakerConfig :=
  if negb (CircuitBreakerEnabled o) then None
  else Some {| FailureThreshold := CircuitBreakerFailureThreshold o;
               FailureWindow := CircuitBreakerFailureWindow o;
               RecoveryTimeout := CircuitBreakerRecoveryTimeout o;
               HalfOpenMaxRequests := CircuitBreakerHalfOpenMaxRequests o;
               RateLimitPerMinute := CircuitBreakerRateLimitPerMinute o;
               MaxConcurrentInstances := CircuitBreakerMaxConcurrentInstances o |}.
End options.

(** ** Validation *)

(** A duration as [%v] prints it. *)
Section validation.
Context (ShowDuration : Z → string).

Definition validateRegionZonePair (region zone : string) : option GoErrors.error :=
  let expectedPrefix := region ++ "-" in
  if negb (HasPrefix zone expectedPrefix)
  then Some (GoErrors.New ("zone " ++ zone ++ " does not match region " ++ region ++ ": expected format "
               ++ expectedPrefix ++ "N"))
  else
    let '(zoneNum, ok) := Strconv.Atoi (TrimPrefix zone expectedPrefix) in
    if negb ok || (zoneNum <? 1)
    then Some (GoErrors.New ("invalid zone format " ++ zone ++ ": zone suffix must be a positive number"))
    else None.

Definition missingFields (o : Options) : list string :=
  ((if empty (APIKey o) then ["IBMCLOUD_API_KEY"] else []) ++
   (if empty (Region o) then ["IBMCLOUD_REGION"] else []))%list.

(** The checks of an enabled breaker, in order: the first that fails. *)
Definition breaker_error (o : Options) : option GoErrors.error :=
  if CircuitBreakerFailureThreshold o <? 1
  then Some (GoErrors.New ("circuit breaker failure threshold must be at least 1, got "
               ++ Strconv.Itoa (CircuitBreakerFailureThreshold o)))
  else if CircuitBreakerFailureWindow o <=? 0
  then Some (GoErrors.New ("circuit breaker failure window must be positive, got "
               ++ ShowDuration (CircuitBreakerFailureWindow o)))
  else if CircuitBreakerRecoveryTimeout o <=? 0
  then Some (GoErrors.New ("circuit breaker recovery timeout must be positive, got "
               ++ ShowDuration (CircuitBreakerRecoveryTimeout o)))
  else if CircuitBreakerHalfOpenMaxRequests o <? 1
  then Some (GoErrors.New ("circuit breaker half-open max requests must be at least 1, got "
               ++ Strconv.Itoa (CircuitBreakerHalfOpenMaxRequests o)))
  else if CircuitBreakerRateLimitPerMinute o <? 1
  then Some (GoErrors.New ("circuit breaker rate limit must be at least 1 per minute, got "
               ++ Strconv.Itoa (CircuitBreakerRateLimitPerMinute o)))
  else if CircuitBreakerMaxConcurrentInstances o <? 1
  then Some (GoErrors.New ("circuit breaker max concurrent instances must be at least 1, got "
               ++ Strconv.Itoa (CircuitBreakerMaxConcurrentInstances o)))
  else None.

Definition Validate (o : Options) : option GoErrors.error :=
  match missingFields o with
  | _ :: _ => Some (GoErrors.New ("missing required environment variables: [" ++ Join (missingFields o) " " ++ "]"))
  | [] =>
      match (if negb (empty (Zone o)) then validateRegionZonePair (Region o) (Zone o) else None) with
      | Some err => Some err
      | None =>
          if (SpotDiscountPercent o <? 1) || (100 <? SpotDiscountPercent o)
          then Some (GoErrors.New ("KARPENTER_SPOT_DISCOUNT_PERCENT must be between 1 and 100, got "
                       ++ Strconv.Itoa (SpotDiscountPercent o)))
          else if CircuitBreakerEnabled o then breaker_error o else None
      end
  end.
End validation.

(** ** What the environment can configure *)
Section environment.
Context (Getenv : string → string) (ShowDuration : Z → string).

Lemma env_count_positive value d : 1 ≤ d → 1 ≤ env_count value 0 d.
Proof.
  intros Hd. unfold env_count. destruct (negb (empty value)); [|done].
  destruct (Strconv.Atoi value) as [val ok]. destruct ok; cbn [andb]; [|done].
  destruct (Z.ltb_spec 0 val); [|done]. destruct (Z.eqb_spec val 0); lia.
Qed.

Lemma percent_range : 1 ≤ parseSpotDiscountPercent Getenv 60 ≤ 100.
Proof.
  unfold parseSpotDiscountPercent. destruct (empty _); [lia|]. destruct (Strconv.Atoi _) as [val ok].
  destruct ok; cbn [negb]; [|lia]. destruct (Z.ltb_spec val 1), (Z.ltb_spec 100 val); cbn [orb]; lia.
Qed.

(** The zone is the region, a hyphen and a positive number. *)
Definition zone_of_region (region zone : string) : Prop :=
  ∃ suffix n, zone = region ++ "-" ++ suffix ∧ Strconv.Atoi suffix = (n, true) ∧ 1 ≤ n.

Lemma validateRegionZonePair_spec region zone :
  validateRegionZonePair region zone = None ↔ zone_of_region region zone.
Proof.
  unfold validateRegionZonePair, zone_of_region. split.
  - destruct (HasPrefix zone (region ++ "-")) eqn:E; [|done]. cbn [negb].
    apply HasPrefix_true in E as [suffix ->]. rewrite TrimPrefix_app.
    destruct (Strconv.Atoi suffix) as [n ok] eqn:Ea. destruct ok; [|done]. cbn [negb orb].
    destruct (Z.ltb_spec n 1); [done|]. intros _. exists suffix, n. by rewrite app_assoc.
  - intros (suffix & n & -> & Ea & Hn). rewrite <-app_assoc, HasPrefix_app, TrimPrefix_app, Ea.
    cbn [negb orb]. by rewrite (proj2 (Z.ltb_ge n 1)).
Qed.

(** The options of any environment are valid if the required variables are
    set, the zone fits the region, and no duration of the breaker is negative;
    every other unusable value is replaced by its default. *)
Theorem environment_valid :
  Validate ShowDuration (NewOptions Getenv) = None ↔
  Getenv "IBMCLOUD_API_KEY" ≠ "" ∧ Getenv "IBMCLOUD_REGION" ≠ "" ∧
  (Getenv "IBMCLOUD_ZONE" = "" ∨ zone_of_region (Getenv "IBMCLOUD_REGION") (Getenv "IBMCLOUD_ZONE")) ∧
  ∀ config, GetCircuitBreakerConfig (NewOptions Getenv) = Some config →
    0 < FailureWindow config ∧ 0 < RecoveryTimeout config.
Proof.
  pose proof percent_range as Hp. unfold Validate. set (o := NewOptions Getenv).
  assert (Hb : breaker_error ShowDuration o = None ↔
    0 < CircuitBreakerFailureWindow o ∧ 0 < CircuitBreakerRecoveryTimeout o).
  { unfold breaker_error, o, NewOptions, parseCircuitBreakerConfig. cbn [CircuitBreakerFailureThreshold CircuitBreakerFailureWindow
      CircuitBreakerRecoveryTimeout CircuitBreakerHalfOpenMaxRequests CircuitBreakerRateLimitPerMinute
      CircuitBreakerMaxConcurrentInstances].
    pose proof (env_count_positive (Getenv "CIRCUIT_BREAKER_FAILURE_THRESHOLD") 3 ltac:(lia)).
    pose proof (env_count_positive (Getenv "CIRCUIT_BREAKER_HALF_OPEN_MAX_REQUESTS") 2 ltac:(lia)).
    pose proof (env_count_positive (Getenv "CIRCUIT_BREAKER_RATE_LIMIT_PER_MINUTE") 10 ltac:(lia)).
    pose proof (env_count_positive (Getenv "CIRCUIT_BREAKER_MAX_CONCURRENT_INSTANCES") 5 ltac:(lia)).
    rewrite !(proj2 (Z.ltb_ge _ 1)) by done.
    destruct (Z.leb_spec (env_duration (Getenv "CIRCUIT_BREAKER_FAILURE_WINDOW") 0 (5 * GoTime.Minute)) 0);
    destruct (Z.leb_spec (env_duration (Getenv "CIRCUIT_BREAKER_RECOVERY_TIMEOUT") 0 (15 * GoTime.Minute)) 0);
      split; intros ?; done || lia. }
  assert (Hspot : (SpotDiscountPercent o <? 1) || (100 <? SpotDiscountPercent o) = false)
    by (cbn [SpotDiscountPercent o NewOptions parseCircuitBreakerConfig]; lia).
  rewrite Hspot. unfold missingFields, GetCircuitBreakerConfig.
  change (APIKey o) with (Getenv "IBMCLOUD_API_KEY"). change (Region o) with (Getenv "IBMCLOUD_REGION").
  change (Zone o) with (Getenv "IBMCLOUD_ZONE"). unfold empty.
  destruct (String.eqb_spec (Getenv "IBMCLOUD_API_KEY") "") as [|]; [naive_solver|].
  destruct (String.eqb_spec (Getenv "IBMCLOUD_REGION") "") as [|]; [naive_solver|]. cbn [app].
  assert (Hconf : (if CircuitBreakerEnabled o then breaker_error ShowDuration o else None) = None ↔
    ∀ config, GetCircuitBreakerConfig o = Some config → 0 < FailureWindow config ∧ 0 < RecoveryTimeout config).
  { unfold GetCircuitBreakerConfig. destruct (CircuitBreakerEnabled o); cbn [negb]; [|naive_solver].
    rewrite Hb. split; [by intros ? config [= <-]|]. intros Hall. by specialize (Hall _ eq_refl). }
  fold (GetCircuitBreakerConfig o). rewrite <-Hconf.
  destruct (String.eqb_spec (Getenv "IBMCLOUD_ZONE") "") as [Hz|Hz]; cbn [negb]; [naive_solver|].
  rewrite <-validateRegionZonePair_spec. destruct (validateRegionZonePair _ _); naive_solver.
Qed.

(** ** An unvalidated window *)
Lemma fail_negative_window `{MapRange} clk nc r e cb :
  FailureWindow cb.(config) < 0 → 1 ≤ FailureThreshold cb.(config) → GoTime.monotone clk →
  cb.(state) = CircuitBreakerClosed → cb.(failures) = [] →
  let cb' := RecordFailure clk nc r e cb in
  cb'.(state) = CircuitBreakerClosed ∧ cb'.(failures) = [] ∧ cb'.(config) = cb.(config).
Proof.
  intros Hneg Hth Hmono Hs Hf. cbv zeta. unfold RecordFailure.
  destruct (enabled cb); cbn [negb]; [|done].
  set (failure := {| Timestamp := _; ErrorText := _; FailNodeClass := _; FailRegion := _ |}).
  set (cb1 := set_failures _ _).
  assert (H1 : failures cb1 = [failure] ∧ config cb1 = config cb ∧ state cb1 = CircuitBreakerClosed).
  { unfold cb1, release. case_match; cbn; by rewrite Hf. }
  destruct H1 as (Hf1 & Hc1 & Hs1).
  assert (Hrec : recent cb1 (clk 1%nat) failure = false).
  { unfold recent. rewrite Hc1. unfold GoTime.After, GoTime.Add. cbn [Timestamp failure].
    specialize (Hmono 0%nat 1%nat ltac:(lia)). apply Z.ltb_ge. lia. }
  assert (H2 : failures (cleanOldFailures (clk 1%nat) cb1) = [] ∧
               config (cleanOldFailures (clk 1%nat) cb1) = config cb ∧
               state (cleanOldFailures (clk 1%nat) cb1) = CircuitBreakerClosed).
  { unfold cleanOldFailures. rewrite Hf1. cbn [List.filter]. rewrite Hrec. destruct cb1; cbn in *. done. }
  destruct H2 as (Hf2 & Hc2 & Hs2). unfold countRecentFailures. rewrite Hf2, Hc2, Hs2. cbn [List.filter length].
  destruct (Z.leb_spec (FailureThreshold (config cb)) (Z.of_nat 0)); [lia|].
  by rewrite decide_False by done.
Qed.

(** The options that take effect are those of the environment, which nothing
    validates: with a negative failure window a breaker never opens, however
    many failures are recorded. *)
Theorem negative_window_never_trips `{MapRange} conf t nc r fs
    (Hconf : GetCircuitBreakerConfig (NewOptions Getenv) = Some conf)
    (Hnegative : FailureWindow conf < 0)
    (Hclocks : Forall (λ f, GoTime.monotone f.1) fs) :
  (fail_all nc r fs (NewCircuitBreaker (Some conf) t)).(state) = CircuitBreakerClosed.
Proof.
  assert (Hth : 1 ≤ FailureThreshold conf).
  { revert Hconf. unfold GetCircuitBreakerConfig. destruct (negb _); [done|]. intros [= <-].
    by apply env_count_positive. }
  enough (Hgen : ∀ cb, FailureWindow cb.(config) < 0 → 1 ≤ FailureThreshold cb.(config) →
    cb.(state) = CircuitBreakerClosed → cb.(failures) = [] →
    (fail_all nc r fs cb).(state) = CircuitBreakerClosed) by by apply Hgen.
  induction Hclocks as [|[clk e] fs Hclk _ IH]; intros cb Hneg Hth' Hs Hf; [done|]. cbn [fail_all].
  destruct (fail_negative_window clk nc r e cb) as (Hs' & Hf' & Hc'); [done..|].
  apply IH; by rewrite ?Hc'.
Qed.
End environment.

(** ** Examples *)
Definition example_environment (name : string) : string :=
  if String.eqb name "CIRCUIT_BREAKER_FAILURE_WINDOW" then "-5m"
  else if String.eqb name "CIRCUIT_BREAKER_FAILURE_THRESHOLD" then "2"
  else if String.eqb name "IBMCLOUD_API_KEY" then "key"
  else if String.eqb name "IBMCLOUD_REGION" then "us-south"
  else "".

Lemma negative_window_never_trips_witness :
  ∃ conf, GetCircuitBreakerConfig (NewOptions example_environment) = Some conf ∧
  FailureWindow conf = -300000000000 ∧
  (fail_all "default" "us-south" demo_failures (NewCircuitBreaker (Some conf) 0)).(state) = CircuitBreakerClosed.
Proof.
  eexists. split; [vm_compute; reflexivity|]. split; [reflexivity|].
  apply (negative_window_never_trips example_environment).
  - vm_compute. reflexivity.
  - reflexivity.
  - repeat constructor; apply GoTime.frozen_monotone.
Defined.
