(* ===== verification/Prog.v ===== *)
(** * Prog: programs that call their environment

    A handler that talks to the Kubernetes API and to IBM Cloud is a [prog]:
    it returns, or makes one call and continues with the answer.  The
    environment is arbitrary: between two calls other processes may have done
    anything, so a theorem about every run covers every interleaving.  [wp]
    proves a postcondition together with a guard every call must satisfy given
    the history of calls and answers before it; [interp] runs a program
    against a concrete environment. *)
From stdpp Require Import prelude list.
From S2P Require Import Prelude.

Section prog.
Context {E : Type → Type}.

Inductive prog (A : Type) : Type :=
  | Ret (a : A)
  | Call {R : Type} (e : E R) (k : R → prog A).

Inductive event : Type :=
  | Did {R : Type} (e : E R) (r : R).

Definition history := list event.
End prog.
Arguments prog E A : clear implicits.
Arguments event E : clear implicits.
Arguments history E : clear implicits.
Arguments Ret {E A} a.
Arguments Call {E A R} e k.

Section logic.
Context {E : Type → Type}.
Local Abbreviation prog := (prog E).
Local Abbreviation history := (history E).

Fixpoint bind {A B} (p : prog A) (f : A → prog B) : prog B :=
  match p with Ret a => f a | Call e k => Call e (λ r, bind (k r) f) end.

(** One call, its answer returned. *)
Definition call {R} (e : E R) : prog R := Call e Ret.

(** Go's early return of an error. *)
Definition try {Er A B} (p : prog (result Er A)) (f : A → prog (result Er B))
    : prog (result Er B) :=
  bind p (λ r, match r with Ok a => f a | Err e => Ret (Err e) end).

(** A run: the calls with their answers, oldest first, and the result. *)
Fixpoint runs {A} (p : prog A) (tr : history) (a : A) : Prop :=
  match p with
  | Ret x => tr = [] ∧ x = a
  | Call e k => ∃ r tr', tr = Did e r :: tr' ∧ runs (k r) tr' a
  end.

(** A guard says when a call may be made, from the history, newest first. *)
Definition guard := history → ∀ R, E R → Prop.

Fixpoint wp {A} (G : guard) (p : prog A) (h : history) (Q : history → A → Prop) : Prop :=
  match p with
  | Ret a => Q h a
  | Call e k => G h _ e ∧ ∀ r, wp G (k r) (Did e r :: h) Q
  end.

(** Every call of the run was made under its guard. *)
Fixpoint guarded (G : guard) (tr : history) (h : history) : Prop :=
  match tr with
  | [] => True
  | Did e r :: tr' => G h _ e ∧ guarded G tr' (Did e r :: h)
  end.

Lemma wp_sound {A} G (p : prog A) h Q tr a :
  wp G p h Q → runs p tr a → guarded G tr h ∧ Q (reverse tr ++ h) a.
Proof.
  revert h tr. induction p as [x|R e k IH]; intros h tr; cbn.
  - intros HQ [-> <-]. by rewrite reverse_nil.
  - intros [HG Hk] (r & tr' & -> & Hr). destruct (IH r _ _ (Hk r) Hr) as [Hg HQ].
    rewrite reverse_cons, <-(assoc_L (++)). by split.
Qed.

Lemma wp_mono {A} G (p : prog A) h (Q Q' : history → A → Prop) :
  (∀ h a, Q h a → Q' h a) → wp G p h Q → wp G p h Q'.
Proof.
  intros HQ. revert h. induction p as [x|R e k IH]; intros h; cbn; [apply HQ|].
  intros [HG Hk]. split; [done|]. intros r. by apply IH.
Qed.

Lemma wp_bind {A B} G (p : prog A) (f : A → prog B) h Q :
  wp G p h (λ h' a, wp G (f a) h' Q) → wp G (bind p f) h Q.
Proof.
  revert h. induction p as [x|R e k IH]; intros h; cbn; [done|].
  intros [HG Hk]. split; [done|]. intros r. by apply IH.
Qed.

Lemma wp_try {Er A B} G (p : prog (result Er A)) (f : A → prog (result Er B)) h Q :
  wp G p h (λ h' r, match r with Ok a => wp G (f a) h' Q | Err e => Q h' (Err e) end) →
  wp G (try p f) h Q.
Proof.
  intros H. apply wp_bind. revert H. apply wp_mono. intros h' [a|e]; done.
Qed.

(** The runs of a composition. *)
Lemma runs_bind {A B} (p : prog A) (f : A → prog B) tr b :
  runs (bind p f) tr b ↔ ∃ tr1 tr2 a, tr = tr1 ++ tr2 ∧ runs p tr1 a ∧ runs (f a) tr2 b.
Proof.
  revert tr. induction p as [x|R e k IH]; intros tr; cbn.
  - split; [intros Hr; by exists [], tr, x|]. intros (tr1 & tr2 & a & -> & [-> ->] & Hr). exact Hr.
  - split.
    + intros (r & tr' & -> & Hr). apply IH in Hr as (tr1 & tr2 & a & -> & H1 & H2).
      exists (Did e r :: tr1), tr2, a. split_and!; [done| |done]. by exists r, tr1.
    + intros (tr1 & tr2 & a & -> & (r & tr' & -> & H1) & H2). exists r, (tr' ++ tr2).
      split; [done|]. apply IH. by exists tr', tr2, a.
Qed.

(** The call before an event, wherever it is in the run. *)
Lemma guarded_app G tr1 tr2 h :
  guarded G (tr1 ++ tr2) h ↔ guarded G tr1 h ∧ guarded G tr2 (reverse tr1 ++ h).
Proof.
  revert h. induction tr1 as [|[R e r] tr1 IH]; intros h; cbn [guarded app];
    [rewrite reverse_nil; cbn; naive_solver|].
  rewrite IH, reverse_cons, <-(assoc_L (++)). cbn [app]. naive_solver.
Qed.

Lemma guarded_at G tr1 R (e : E R) r tr2 h :
  guarded G (tr1 ++ Did e r :: tr2) h → G (reverse tr1 ++ h) R e.
Proof. rewrite guarded_app. cbn [guarded]. naive_solver. Qed.

(** A run of a guarded program: every call in it was allowed when it was made. *)
Lemma guarded_run {A} (G : guard) (p : prog A) tr a Q :
  wp G p [] Q → runs p tr a →
  (∀ before R (e : E R) answer after, tr = before ++ Did e answer :: after → G (reverse before) R e) ∧
  Q (reverse tr) a.
Proof.
  intros Hwp Hrun. destruct (wp_sound _ _ _ _ _ _ Hwp Hrun) as [Hg HQ]. rewrite app_nil_r in HQ.
  split; [|done]. intros before R e answer after ->. apply guarded_at in Hg. by rewrite app_nil_r in Hg.
Qed.

(** The same for the histories, newest first, of several runs one after the
    other. *)
Definition allowed_in (G : guard) (before : history) (ev : event E) : Prop :=
  match ev with Did e _ => G before _ e end.

Definition justified (G : guard) (h : history) : Prop :=
  ∀ later ev before, h = later ++ ev :: before → allowed_in G before ev.

Lemma justified_nil G : justified G [].
Proof. intros later ev before Heq. by destruct later. Qed.

Lemma justified_cons G ev h : allowed_in G h ev → justified G h → justified G (ev :: h).
Proof.
  intros Hev Hh [|ev' later] ev'' before Heq; cbn [app] in Heq.
  - pose proof (f_equal tail Heq) as Ht. cbn in Ht. subst h.
    pose proof (f_equal head Heq) as Hh'. cbn in Hh'. apply (inj Some) in Hh'. by subst.
  - pose proof (f_equal tail Heq) as Ht. cbn in Ht. by eapply Hh.
Qed.

Lemma justified_run G tr h : justified G h → guarded G tr h → justified G (reverse tr ++ h).
Proof.
  revert h. induction tr as [|[R e r] tr IH]; intros h Hh Hg; [by rewrite reverse_nil|].
  destruct Hg as [He Hg]. rewrite reverse_cons, <-(assoc_L (++)). by apply IH; [apply justified_cons|].
Qed.

Lemma wp_and {A} G (p : prog A) h (Q1 Q2 : history → A → Prop) :
  wp G p h Q1 → wp G p h Q2 → wp G p h (λ h a, Q1 h a ∧ Q2 h a).
Proof.
  revert h. induction p as [x|R e k IH]; intros h; cbn; [done|].
  intros [HG H1] [_ H2]. split; [done|]. intros r. by apply IH.
Qed.

Lemma wp_guard_mono {A} (G G' : guard) (p : prog A) h Q :
  (∀ h R e, G h R e → G' h R e) → wp G p h Q → wp G' p h Q.
Proof.
  intros HG. revert h. induction p as [x|R e k IH]; intros h; cbn; [done|].
  intros [H1 H2]. split; [by apply HG|]. intros r. by apply IH.
Qed.

(** Every call is made in an extension of the initial history. *)
Lemma wp_extends {A} (G : guard) (p : prog A) h Q :
  wp G p h Q → wp (λ h' R e, G h' R e ∧ ∃ l, h' = l ++ h) p h Q.
Proof.
  assert (Hgen : ∀ h0, (∃ l, h0 = l ++ h) → wp G p h0 Q →
    wp (λ h' R e, G h' R e ∧ ∃ l, h' = l ++ h) p h0 Q).
  { induction p as [x|R e k IH]; intros h0 Hh; cbn; [done|].
    intros [H1 H2]. split; [done|]. intros r. apply IH; [|done].
    destruct Hh as [l ->]. by exists (Did e r :: l). }
  apply Hgen. by exists [].
Qed.

(** The history only grows. *)
Lemma wp_grows {A} (G : guard) (p : prog A) h Q :
  wp G p h Q → wp G p h (λ h' a, Q h' a ∧ ∃ l, h' = l ++ h).
Proof.
  revert h. induction p as [x|R e k IH]; intros h; cbn; [intros HQ; split; [done|by exists []]|].
  intros [HG Hk]. split; [done|]. intros r. eapply wp_mono; [|apply IH, Hk].
  intros h' a [HQ [l ->]]. split; [done|]. exists (l ++ [Did e r]). by rewrite <-(assoc_L (++)).
Qed.

(** What holds of a program run on its own holds of it after other calls, of
    the part of the history that is its own. *)
Lemma wp_after {A} (G : guard) (p : prog A) h0 Q :
  wp G p [] Q →
  wp (λ h R e, ∃ l, h = l ++ h0 ∧ G l R e) p h0 (λ h a, ∃ l, h = l ++ h0 ∧ Q l a).
Proof.
  assert (Hgen : ∀ l, wp G p l Q →
    wp (λ h R e, ∃ l, h = l ++ h0 ∧ G l R e) p (l ++ h0) (λ h a, ∃ l, h = l ++ h0 ∧ Q l a)).
  { induction p as [x|R e k IH]; intros l; cbn [wp]; [by exists l|].
    intros [HG Hk]. split; [by exists l|]. intros r. by apply (IH r (Did e r :: l)). }
  apply (Hgen []).
Qed.

(** Programs that make only some calls. *)
Fixpoint only {A} (P : ∀ R, E R → bool) (p : prog A) : Prop :=
  match p with
  | Ret _ => True
  | Call e k => P _ e = true ∧ ∀ r, only P (k r)
  end.

Definition event_is (P : ∀ R, E R → bool) (ev : event E) : Prop :=
  match ev with Did e _ => P _ e = true end.

Lemma only_bind {A B} P (p : prog A) (f : A → prog B) :
  only P p → (∀ a, only P (f a)) → only P (bind p f).
Proof.
  induction p as [x|R e k IH]; cbn; [eauto|]. intros [He Hk] Hf. split; [done|].
  intros r. by apply IH.
Qed.

Lemma only_try {Er A B} P (p : prog (result Er A)) (f : A → prog (result Er B)) :
  only P p → (∀ a, only P (f a)) → only P (try p f).
Proof. intros Hp Hf. apply only_bind; [done|]. intros [a|e]; [apply Hf|done]. Qed.

Lemma only_weaken {A} (P P' : ∀ R, E R → bool) (p : prog A) :
  (∀ R e, P R e = true → P' R e = true) → only P p → only P' p.
Proof. intros HP. induction p as [x|R e k IH]; cbn; [done|]. intros [? ?]. split; eauto. Qed.

(** The guard of such a program, of its calls only. *)
Lemma wp_restrict {A} (P : ∀ R, E R → bool) (G : guard) (p : prog A) h Q :
  only P p → wp G p h Q → wp (λ h R e, G h R e ∧ P R e = true) p h Q.
Proof.
  revert h. induction p as [x|R e k IH]; intros h; cbn [only wp]; [done|].
  intros [He Hp] [HG Hk]. split; [done|]. intros r. by apply IH.
Qed.

(** Such a program extends the history with such calls. *)
Lemma wp_only {A} (P : ∀ R, E R → bool) G (p : prog A) h :
  (∀ h R e, P R e = true → G h R e) → only P p →
  wp G p h (λ h' _, ∃ l, h' = l ++ h ∧ Forall (event_is P) l).
Proof.
  intros HG. revert h. induction p as [x|R e k IH]; intros h; cbn.
  { intros _. by exists []. }
  intros [He Hk]. split; [by apply HG|]. intros r.
  eapply wp_mono; [|apply IH, Hk]. intros h' a (l & -> & Hl).
  exists (l ++ [Did e r]). rewrite <-(assoc_L (++)). split; [done|].
  apply Forall_app. split; [done|]. by repeat constructor.
Qed.

(** The same for a program that is proved under its own guard. *)
Lemma wp_only_grows {A} (P : ∀ R, E R → bool) G (p : prog A) h Q :
  only P p → wp G p h Q → wp G p h (λ h' a, Q h' a ∧ ∃ l, h' = l ++ h ∧ Forall (event_is P) l).
Proof.
  revert h. induction p as [x|R e k IH]; intros h; cbn; [intros _ ?; split; [done|by exists []]|].
  intros [He Hk] [HG Hw]. split; [done|]. intros r.
  eapply wp_mono; [|apply IH; [apply Hk|apply Hw]]. intros h' a [Hq (l & -> & Hl)]. split; [done|].
  exists (l ++ [Did e r]). rewrite <-(assoc_L (++)). split; [done|]. apply Forall_app. split; [done|]. by repeat constructor.
Qed.

Lemma runs_only {A} (P : ∀ R, E R → bool) (p : prog A) tr a :
  only P p → runs p tr a → Forall (event_is P) tr.
Proof.
  revert tr. induction p as [x|R e k IH]; intros tr; cbn; [by intros _ [-> _]; constructor|].
  intros [He Hk] (r & tr' & -> & Hr). constructor; [done|]. by eapply IH.
Qed.

(** What such a program adds to the history is a run of it. *)
Lemma wp_runs {A} (P : ∀ R, E R → bool) (G : guard) (p : prog A) h :
  (∀ h R e, P R e = true → G h R e) → only P p →
  wp G p h (λ h' a, ∃ l, h' = l ++ h ∧ runs p (reverse l) a).
Proof.
  intros HG. revert h. induction p as [x|R e k IH]; intros h; cbn [only wp runs].
  { intros _. exists []. by rewrite reverse_nil. }
  intros [He Hk]. split; [by apply HG|]. intros r. eapply wp_mono; [|apply IH, Hk].
  intros h' a (l & -> & Hl). exists (l ++ [Did e r]). rewrite <-(assoc_L (++)). split; [done|].
  rewrite reverse_snoc. by exists r, (reverse l).
Qed.

(** The rule for a step that makes only calls of [P], always allowed. *)
Lemma wp_try_only {Er A B} (P : ∀ R, E R → bool) (G : guard)
    (q : prog (result Er A)) (f : A → prog (result Er B)) h Q (Post : history → result Er A → Prop) :
  (∀ h R e, P R e = true → G h R e) → only P q → wp G q h Post →
  (∀ l a, Forall (event_is P) l → Post (l ++ h) (Ok a) → wp G (f a) (l ++ h) Q) →
  (∀ l e, Forall (event_is P) l → Q (l ++ h) (Err e)) →
  wp G (try q f) h Q.
Proof.
  intros HG Hq Hp Hf He. apply wp_try.
  eapply wp_mono; [|apply (wp_and _ _ _ _ _ (wp_only P _ _ h HG Hq) Hp)].
  intros h' [a|e] [(l & -> & Hl) HP]; eauto.
Qed.

Lemma wp_only_any {A} (P : ∀ R, E R → bool) (G : guard) (q : prog A) h :
  (∀ h R e, P R e = true → G h R e) → only P q → wp G q h (λ _ _, True).
Proof. intros HG Hq. eapply wp_mono; [|apply (wp_only P _ _ h HG Hq)]. done. Qed.

(** A postcondition proved without a guard, for a program whose calls are
    always allowed. *)
Lemma wp_only_post {A} (P : ∀ R, E R → bool) (G : guard) (q : prog A) h (Post : history → A → Prop) :
  (∀ h R e, P R e = true → G h R e) → only P q → wp (λ _ _ _, True) q h Post →
  wp G q h (λ h' a, Post h' a ∧ ∃ l, h' = l ++ h ∧ Forall (event_is P) l).
Proof.
  intros HG Hq Hp. apply wp_and; [|by apply (wp_only P)].
  revert h Hp. induction q as [x|R e k IH]; intros h; cbn; [done|].
  intros [_ Hk]. destruct Hq as [He Hq]. split; [by apply HG|]. intros r. by apply IH.
Qed.

(** The same with the early return after it. *)
Lemma wp_try_post {Er A B} (P : ∀ R, E R → bool) (G : guard)
    (q : prog (result Er A)) (f : A → prog (result Er B)) h Q (Post : history → result Er A → Prop) :
  (∀ h R e, P R e = true → G h R e) → only P q → wp (λ _ _ _, True) q h Post →
  (∀ l a, Forall (event_is P) l → Post (l ++ h) (Ok a) → wp G (f a) (l ++ h) Q) →
  (∀ l e, Forall (event_is P) l → Post (l ++ h) (Err e) → Q (l ++ h) (Err e)) →
  wp G (try q f) h Q.
Proof.
  intros HG Hq Hp Hf He. apply wp_try.
  eapply wp_mono; [|apply (wp_only_post P _ _ _ _ HG Hq Hp)].
  intros h' [a|e] [HP (l & -> & Hl)]; eauto.
Qed.

Lemma wp_trivial {A} (q : prog A) h : wp (λ _ _ _, True) q h (λ _ _, True).
Proof. revert h. induction q; cbn; eauto. Qed.

(** A step whose answer says nothing that is needed. *)
Lemma wp_try_any {Er A B} (P : ∀ R, E R → bool) (G : guard)
    (q : prog (result Er A)) (f : A → prog (result Er B)) h Q :
  (∀ h R e, P R e = true → G h R e) → only P q →
  (∀ l a, Forall (event_is P) l → wp G (f a) (l ++ h) Q) →
  (∀ l e, Forall (event_is P) l → Q (l ++ h) (Err e)) →
  wp G (try q f) h Q.
Proof. intros HG Hq Hf He. eapply wp_try_post; eauto using wp_trivial. Qed.

(** [asked h e r]: the history has the call with that answer. *)
Definition asked {R} (h : history) (e : E R) (r : R) : Prop := Did e r ∈ h.

Lemma asked_here {R} (e : E R) r h : asked (Did e r :: h) e r.
Proof. by left. Qed.

Lemma asked_later {R R'} (e : E R) r (e' : E R') r' h :
  asked h e r → asked (Did e' r' :: h) e r.
Proof. by right. Qed.

Lemma asked_app {R} (e : E R) r h1 h2 : asked h2 e r → asked (h1 ++ h2) e r.
Proof. unfold asked. intros H. apply elem_of_app. by right. Qed.

(** ** Running against a concrete environment *)
Context {S : Type} (handle : ∀ R, E R → S → R * S).

Fixpoint interp {A} (p : prog A) (s : S) : history * A * S :=
  match p with
  | Ret a => ([], a, s)
  | Call e k =>
      let '(r, s1) := handle _ e s in
      let '(tr, a, s2) := interp (k r) s1 in
      (Did e r :: tr, a, s2)
  end.

Lemma interp_runs {A} (p : prog A) s :
  runs p (interp p s).1.1 (interp p s).1.2.
Proof.
  revert s. induction p as [x|R e k IH]; intros s; cbn; [done|].
  destruct (handle R e s) as [r s1]. specialize (IH r s1).
  destruct (interp (k r) s1) as [[tr a] s2]. cbn in *. eauto.
Qed.
End logic.

(** ** Programs within larger environments

    A program over the calls [E] is one over the calls [F] when each call of [E]
    is a call of [F]. *)
Section embedding.
Context {E F : Type → Type} (f : ∀ R, E R → F R).

Fixpoint embed {A} (p : prog E A) : prog F A :=
  match p with Ret a => Ret a | Call e k => Call (f _ e) (λ r, embed (k r)) end.

Definition embed_event (ev : event E) : event F :=
  match ev with Did e r => Did (f _ e) r end.

(** A guarded program keeps its guard, on the part of the history that is its
    own. *)
Lemma wp_embed {A} (G : guard (E := E)) (GF : guard (E := F)) (p : prog E A) h0 h Q :
  (∀ h0 R (e : E R), G h0 R e → GF (map embed_event h0 ++ h) R (f _ e)) → wp G p h0 Q →
  wp GF (embed p) (map embed_event h0 ++ h) (λ h' a, ∃ h1, h' = map embed_event h1 ++ h ∧ Q h1 a).
Proof.
  intros HG. revert h0. induction p as [x|R e k IH]; intros h0; cbn [embed wp]; [by exists h0|].
  intros [He Hk]. split; [by apply HG|]. intros r. by apply (IH r (Did e r :: h0)).
Qed.
End embedding.

(** ** What happened in a run

    A program ran within a trace when the trace has a run of it; the facts
    about the parts of a program that ran are all about the one trace. *)
Section within.
Context {E : Type → Type}.

Definition within {A} (p : prog E A) (tr : history E) (a : A) : Prop :=
  ∃ tr1 tr2 tr3, tr = tr1 ++ tr2 ++ tr3 ∧ runs p tr2 a.

Lemma runs_within {A} (p : prog E A) tr a : runs p tr a → within p tr a.
Proof. intros Hr. exists [], tr, []. by rewrite (right_id_L [] (++)). Qed.

Lemma within_ret {A} (x : A) tr a : within (Ret x) tr a → x = a.
Proof. by intros (tr1 & tr2 & tr3 & _ & _ & ?). Qed.

Lemma within_call {A R} (e : E R) (k : R → prog E A) tr a :
  within (Call e k) tr a → ∃ r, asked tr e r ∧ within (k r) tr a.
Proof.
  intros (tr1 & tr2 & tr3 & -> & r & tr' & -> & Hr). exists r. split.
  - apply elem_of_app. right. by left.
  - exists (tr1 ++ [Did e r]), tr', tr3. by rewrite <-(assoc_L (++)).
Qed.

Lemma within_bind {A B} (p : prog E A) (f : A → prog E B) tr b :
  within (bind p f) tr b → ∃ a, within p tr a ∧ within (f a) tr b.
Proof.
  intros (tr1 & tr2 & tr3 & -> & (tr4 & tr5 & a & -> & Hp & Hf)%runs_bind). exists a. split.
  - exists tr1, tr4, (tr5 ++ tr3). by rewrite !(assoc_L (++)).
  - exists (tr1 ++ tr4), tr5, tr3. by rewrite !(assoc_L (++)).
Qed.

(** A program over other calls, run within the trace. *)
Definition ran {F : Type → Type} {A} (f : ∀ R, F R → E R) (p : prog F A) (tr : history E) (a : A) : Prop :=
  ∃ tr1 tr0 tr2, tr = tr1 ++ map (embed_event f) tr0 ++ tr2 ∧ runs p tr0 a.

Lemma runs_embed {F : Type → Type} {A} (f : ∀ R, F R → E R) (p : prog F A) tr a :
  runs (embed f p) tr a → ∃ tr0, tr = map (embed_event f) tr0 ∧ runs p tr0 a.
Proof.
  revert tr. induction p as [x|R e k IH]; intros tr; cbn [embed runs].
  - intros [-> <-]. by exists [].
  - intros (r & tr' & -> & (tr0 & -> & Hr)%IH). exists (Did e r :: tr0). split; [done|]. by exists r, tr0.
Qed.

Lemma within_embed {F : Type → Type} {A} (f : ∀ R, F R → E R) (p : prog F A) tr a :
  within (embed f p) tr a → ran f p tr a.
Proof. intros (tr1 & tr2 & tr3 & -> & (tr0 & -> & Hr)%runs_embed). by exists tr1, tr0, tr3. Qed.
End within.

#[export] Hint Resolve asked_here asked_later : go_db.

Declare Scope prog_scope.
Delimit Scope prog_scope with prog.

Notation "x ←! p ; k" := (try p (λ x, k))
  (at level 20, p at level 100, k at level 200, right associativity) : prog_scope.
Notation "x ⟵ e ; k" := (Call e (λ x, k))
  (at level 20, e at level 100, k at level 200, right associativity) : prog_scope.
