(* ===== verification/GoWait.v ===== *)
(** * GoWait: the exponential backoff of Kubernetes' wait package

    [wait.ExponentialBackoffWithContext] as an interface: what it promises about
    the calls of its condition, and the rule to reason about them.  [backoff_loop]
    is the loop without a context, and discharges the promise. *)
From stdpp Require Import prelude list strings.
From S2P Require Import Prelude GoLib Errors Prog.

Open Scope string_scope.

(** An error or a panic. *)
Inductive failure := Failed (e : GoErrors.error) | Panicked.

(** What a condition says: [(false, nil)], [(true, nil)], or an error; or it
    panics. *)
Inductive attempt := Again | Done | Refused (e : GoErrors.error) | Crashed.

(** [wait.Backoff], the jitter in percent. *)
Record Backoff := {
  Duration : Z;
  Factor : Z;
  Jitter : Z;
  Steps : nat;
  Cap : Z;
}.

Section backoff.
Context {E : Type → Type}.
Local Abbreviation prog := (prog E).
Local Abbreviation history := (history E).

(** The attempts of a condition with the variables it captures: at most so many,
    each from what the one before left, until it says true or an error.  Between
    two attempts the backoff may give up with an error of its own. *)
Inductive attempts {S} (condition : S → prog (S * attempt)) : nat → S → history → S → option failure → Prop :=
  | gave_up n s e : attempts condition n s [] s (Some (Failed e))
  | succeeded n s tr s' :
      runs (condition s) tr (s', Done) → attempts condition (Datatypes.S n) s tr s' None
  | refused n s tr s' e :
      runs (condition s) tr (s', Refused e) → attempts condition (Datatypes.S n) s tr s' (Some (Failed e))
  | crashed n s tr s' :
      runs (condition s) tr (s', Crashed) → attempts condition (Datatypes.S n) s tr s' (Some Panicked)
  | tried_again n s tr s1 tr' s' r :
      runs (condition s) tr (s1, Again) → attempts condition n s1 tr' s' r →
      attempts condition (Datatypes.S n) s (tr ++ tr')%list s' r.

Class ExponentialBackoff := {
  backoff_run : ∀ {S}, Backoff → (S → prog (S * attempt)) → S → prog (S * option failure);
  backoff_attempts : ∀ {S} b (condition : S → prog (S * attempt)) s tr s' r,
    runs (backoff_run b condition s) tr (s', r) → attempts condition (Steps b) s tr s' r;
}.

(** [I n tr s] holds after [n] attempts that asked for another. *)
Lemma attempts_rule {S} (condition : S → prog (S * attempt)) (I : nat → history → S → Prop)
    (Q : history → S → option failure → Prop) k s tr s' r :
  (∀ n tr s tr' s' a, n < k → I n tr s → runs (condition s) tr' (s', a) →
    match a with
    | Again => I (Datatypes.S n) (tr ++ tr')%list s'
    | Done => Q (tr ++ tr')%list s' None
    | Refused e => Q (tr ++ tr')%list s' (Some (Failed e))
    | Crashed => Q (tr ++ tr')%list s' (Some Panicked)
    end) →
  (∀ n tr s e, I n tr s → Q tr s (Some (Failed e))) →
  I 0 [] s → attempts condition k s tr s' r → Q tr s' r.
Proof.
  intros Hstep Hup HI Hat.
  enough (Hgen : ∀ m n tr0, n + m = k → I n tr0 s → attempts condition m s tr s' r → Q (tr0 ++ tr)%list s' r)
    by exact (Hgen k 0 [] eq_refl HI Hat).
  intros m. clear HI Hat. revert s tr. induction m as [|m IH]; intros s tr n tr0 Hn HI Hat.
  - inversion Hat; subst. rewrite (right_id_L [] (++)). by eapply Hup.
  - inversion Hat as [? ? e|? ? ? ? Hr|? ? ? ? e Hr|? ? ? ? Hr|? ? tr1 s1 tr2 ? ? Hr Hat']; subst.
    + rewrite (right_id_L [] (++)). by eapply Hup.
    + exact (Hstep n tr0 s tr s' Done ltac:(lia) HI Hr).
    + exact (Hstep n tr0 s tr s' (Refused e) ltac:(lia) HI Hr).
    + exact (Hstep n tr0 s tr s' Crashed ltac:(lia) HI Hr).
    + rewrite (assoc_L (++)). apply (IH s1 tr2 (Datatypes.S n)); [lia| |done].
      exact (Hstep n tr0 s tr1 s1 Again ltac:(lia) HI Hr).
Qed.

(** ** The loop *)
Fixpoint backoff_loop {S} (condition : S → prog (S * attempt)) (n : nat) (s : S) : prog (S * option failure) :=
  match n with
  | O => Ret (s, Some (Failed (GoErrors.New "timed out waiting for the condition")))
  | Datatypes.S n' =>
      bind (condition s) (λ '(s', a),
      match a with
      | Again => backoff_loop condition n' s'
      | Done => Ret (s', None)
      | Refused e => Ret (s', Some (Failed e))
      | Crashed => Ret (s', Some Panicked)
      end)
  end.

Lemma backoff_loop_attempts {S} (condition : S → prog (S * attempt)) n s tr s' r :
  runs (backoff_loop condition n s) tr (s', r) → attempts condition n s tr s' r.
Proof.
  revert s tr. induction n as [|n IH]; intros s tr; cbn [backoff_loop].
  { intros [-> [= <- <-]]. constructor. }
  intros (tr1 & tr2 & [s1 a] & -> & Hr & Hr2)%runs_bind.
  destruct a; [by apply (tried_again _ _ _ _ s1); [|apply IH]|..];
    destruct Hr2 as [-> [= <- <-]]; rewrite (right_id_L [] (++)); by constructor.
Qed.

#[refine] Instance loop_backoff : ExponentialBackoff :=
  {| backoff_run S b condition s := backoff_loop condition (Steps b) s |}.
Proof. intros S b condition s tr s' r. apply backoff_loop_attempts. Defined.
End backoff.
Arguments ExponentialBackoff E : clear implicits.
#[export] Existing Instance loop_backoff.
