(* ===== verification/Kube.v ===== *)
(** * Kube: Kubernetes and Karpenter objects

    The objects the provider reads and writes, Karpenter's instance types, the
    errors of the Kubernetes API, and the early returns of a handler. *)
From stdpp Require Import prelude list strings gmap.
From Stdlib Require Import Ascii SpecFloat.
From S2P Require Import Prelude GoLib Errors NodeClass Prog.

Open Scope string_scope.

(** ** Kubernetes objects *)

(** [corev1.ResourceList]; a quantity in thousandths. *)
Definition ResourceList := gmap string Z.

Definition quantity (r : ResourceList) (name : string) : Z := default 0%Z (r !! name).
Definition cpu : string := "cpu".
Definition memory : string := "memory".

Record NodeClassReference := {
  ref_Group : string;
  ref_Kind : string;
  ref_Name : string;
}.

(** A node selector requirement of a NodeClaim: key, operator and values. *)
Record Requirement := {
  req_Key : string;
  Operator : string;
  Values : list string;
}.

Record NodeClaim := {
  claim_meta : ObjectMeta;
  NodeClassRef : option NodeClassReference;
  Requests : ResourceList;
  Requirements : list Requirement;
  claim_ProviderID : string;
  claim_NodeName : string;
  claim_ImageID : string;
  claim_Capacity : ResourceList;
  claim_Allocatable : ResourceList;
  claim_Conditions : list Condition;
}.

Definition set_meta (claim : NodeClaim) (m : ObjectMeta) : NodeClaim :=
  {| claim_meta := m; NodeClassRef := NodeClassRef claim; Requests := Requests claim;
     Requirements := Requirements claim; claim_ProviderID := claim_ProviderID claim;
     claim_NodeName := claim_NodeName claim; claim_ImageID := claim_ImageID claim;
     claim_Capacity := claim_Capacity claim; claim_Allocatable := claim_Allocatable claim;
     claim_Conditions := claim_Conditions claim |}.

Record NodeStatus := {
  st_Capacity : ResourceList;
  st_Allocatable : ResourceList;
  InternalIPs : list string;
  node_Conditions : list Condition;
}.

Definition no_status : NodeStatus :=
  {| st_Capacity := ∅; st_Allocatable := ∅; InternalIPs := []; node_Conditions := [] |}.

(** [metav1.OwnerReference] *)
Record OwnerReference := {
  ref_APIVersion : string;
  owner_Kind : string;
  owner_Name : string;
  owner_UID : string;
  BlockOwnerDeletion : option bool;
}.

Record Node := {
  node_meta : ObjectMeta;
  OwnerReferences : list OwnerReference;
  node_ProviderID : string;
  Unschedulable : bool;
  node_Status : NodeStatus;
}.

Definition set_node_meta (node : Node) (m : ObjectMeta) : Node :=
  {| node_meta := m; node_ProviderID := node_ProviderID node; Unschedulable := Unschedulable node; OwnerReferences := OwnerReferences node;
     node_Status := node_Status node |}.

(** [controllerutil] on the finalizers of an object. *)
Definition ContainsFinalizer (l : list string) (f : string) : bool := existsb (String.eqb f) l.
Definition AddFinalizer (l : list string) (f : string) : list string :=
  if ContainsFinalizer l f then l else (l ++ [f])%list.
Definition RemoveFinalizer (l : list string) (f : string) : list string :=
  List.filter (λ x, negb (String.eqb x f)) l.

Lemma ContainsFinalizer_true l f : ContainsFinalizer l f = true ↔ f ∈ l.
Proof. apply existsb_eqb. Qed.
Lemma ContainsFinalizer_false l f : ContainsFinalizer l f = false ↔ f ∉ l.
Proof. rewrite <-ContainsFinalizer_true. by destruct (ContainsFinalizer l f). Qed.
Lemma elem_of_RemoveFinalizer l f g : g ∈ RemoveFinalizer l f ↔ g ∈ l ∧ g ≠ f.
Proof.
  unfold RemoveFinalizer. rewrite !list_elem_of_In, List.filter_In.
  destruct (String.eqb_spec g f); naive_solver.
Qed.

(** [!DeletionTimestamp.IsZero()], also of a nil pointer. *)
Definition is_terminating (m : ObjectMeta) : bool :=
  match DeletionTimestamp m with Some t => negb (t =? GoTime.zero_time)%Z | None => false end.

Record ConfigMap := {
  cm_Namespace : string;
  cm_meta : ObjectMeta;
  Data : gmap string string;
}.

(** [types.NamespacedName] *)
Record NamespacedName := {
  key_Namespace : string;
  key_Name : string;
}.

#[export] Instance OwnerReference_eq_dec : EqDecision OwnerReference.
Proof. solve_decision. Defined.

(** [StatusConditions().Get(type).IsTrue()] *)
Definition condition_true (l : list Condition) (type : string) : bool :=
  match List.find (λ c, String.eqb (cond_Type c) type) l with
  | Some c => String.eqb (cond_Status c) "True"
  | None => false
  end.

(** [v1alpha1.Group], and a claim whose class is an IBMNodeClass. *)
Definition Group : string := "karpenter-ibm.sh".
Definition is_ibm_claim (claim : NodeClaim) : bool :=
  match NodeClassRef claim with
  | Some ref => String.eqb (ref_Group ref) Group && String.eqb (ref_Kind ref) "IBMNodeClass"
  | None => false
  end.

(** [apierrors.IsNotFound] and [client.IgnoreNotFound]. *)
Definition kube_IsNotFound (err : GoErrors.error) : bool :=
  match GoErrors.As GoErrors.as_kube err with
  | Some reason => String.eqb reason "NotFound"
  | None => false
  end.
Definition IgnoreNotFound (err : option GoErrors.error) : option GoErrors.error :=
  match err with
  | Some e => if kube_IsNotFound e then None else Some e
  | None => None
  end.

(** [apierrors.IsConflict] *)
Definition kube_IsConflict (err : GoErrors.error) : bool :=
  match GoErrors.As GoErrors.as_kube err with
  | Some reason => String.eqb reason "Conflict"
  | None => false
  end.

Definition NodeClaimNotFound (err : GoErrors.error) : GoErrors.error :=
  GoErrors.foreignError GoErrors.NodeClaimNotFoundError
    ("nodeclaim not found, " ++ GoErrors.Error err) [].

(** [cloudprovider.IsNodeClaimNotFoundError] *)
Definition IsNodeClaimNotFoundError (err : GoErrors.error) : bool :=
  match GoErrors.As GoErrors.as_claim_not_found err with Some _ => true | None => false end.

(** ** Instance types *)
Record Offering := {
  off_Requirements : list Requirement;
  Price : spec_float;
  Available : bool;
}.

Record InstanceType := {
  it_Name : string;
  it_Requirements : gmap string Requirement;
  Offerings : list Offering;
  it_Capacity : ResourceList;
  it_Allocatable : ResourceList;
}.

(** What the code uses of Karpenter's scheduling and resources packages and of
    the hash of the node class: [resources.Fits]; [Compatible] and
    [IsCompatible] of requirements made from labels; the same of a claim's
    requirements and those of an instance type or offering; and
    [Get(key).Has(value)]. *)
Class Karpenter := {
  Fits : ResourceList → ResourceList → bool;
  Compatible : gmap string string → list Requirement → option GoErrors.error;
  IsCompatible : list Requirement → gmap string string → bool;
  WellKnownLabel : string → bool;
  ParseFloat : string → option spec_float;
  ReqsCompatible : list Requirement → gmap string Requirement → option GoErrors.error;
  OfferingCompatible : list Requirement → Offering → bool;
  Allows : list Requirement → string → string → bool;
  HashStructure : Hash.provisioningSpec → result GoErrors.error Z;
}.

(** ** Errors and early returns *)
Definition err := option GoErrors.error.
Definition err_of {A} (r : result GoErrors.error A) : err :=
  match r with Ok _ => None | Err e => Some e end.

Definition fail {E A} (message : string) : prog E (result GoErrors.error A) :=
  Ret (Err (GoErrors.New message)).
Definition fail_with {E A} (e : GoErrors.error) : prog E (result GoErrors.error A) := Ret (Err e).
(** A panic ends the operation like an error. *)
Definition nil_dereference : string :=
  "runtime error: invalid memory address or nil pointer dereference".
(** [fmt.Errorf("prefix: %w", err)] *)
Definition wrapped_ (prefix : string) (e : GoErrors.error) : GoErrors.error :=
  GoErrors.wrap (prefix ++ ": " ++ GoErrors.Error e) e.


(** [multierr.Combine] and [errors.Join], of errors that are not nil. *)
Definition Combine (errs : list GoErrors.error) : err :=
  match errs with
  | [] => None
  | [e] => Some e
  | _ => Some (GoErrors.foreignError GoErrors.Plain (Strings.Join (map GoErrors.Error errs) "; ") errs)
  end.
Definition JoinErrors (errs : list GoErrors.error) : err :=
  match errs with
  | [] => None
  | _ => Some (GoErrors.foreignError GoErrors.Plain (Strings.Join (map GoErrors.Error errs) (String "010"%char "")) errs)
  end.

Lemma Combine_nil errs : Combine errs = None ↔ errs = [].
Proof. by destruct errs as [|e [|]]. Qed.
Lemma JoinErrors_nil errs : JoinErrors errs = None ↔ errs = [].
Proof. by destruct errs. Qed.

(** [retry.RetryOnConflict(retry.DefaultRetry, ...)]: at most five attempts,
    again only after a conflict. *)
Fixpoint retry_on_conflict {E A} (attempts : nat) (q : prog E (result GoErrors.error A))
    : prog E (result GoErrors.error A) :=
  match attempts with
  | 0 => q
  | S attempts' =>
      bind q (λ r,
        match r with
        | Err err => if kube_IsConflict err then retry_on_conflict attempts' q else fail_with err
        | Ok a => Ret (Ok a)
        end)
  end.

Lemma retry_on_conflict_only {E A} (P : ∀ R, E R → bool) n (q : prog E (result GoErrors.error A)) :
  only P q → only P (retry_on_conflict n q).
Proof.
  intros Hq. induction n as [|n IH]; cbn [retry_on_conflict]; [done|]. apply only_bind; [done|].
  intros [a|e]; [done|]. by destruct (kube_IsConflict e).
Qed.

(** A run of the retries ends with a run of one attempt, after attempts that
    met a conflict. *)
Lemma runs_retry {E A} n (q : prog E (result GoErrors.error A)) tr r :
  runs (retry_on_conflict n q) tr r → ∃ tr1 tr2, tr = (tr1 ++ tr2)%list ∧ runs q tr2 r.
Proof.
  revert tr. induction n as [|n IH]; intros tr; cbn [retry_on_conflict]; [by exists [], tr|].
  intros (tr1 & tr2 & [a|e] & -> & Hq & Hr)%runs_bind.
  - destruct Hr as [-> <-]. exists [], tr1. by rewrite (right_id_L [] (++)).
  - destruct (kube_IsConflict e).
    + apply IH in Hr as (tr3 & tr4 & -> & Hr). exists (tr1 ++ tr3)%list, tr4. by rewrite (assoc_L (++)).
    + destruct Hr as [-> <-]. exists [], tr1. by rewrite (right_id_L [] (++)).
Qed.

(** The rule for the retries: what holds of one attempt, whenever it is made. *)
Lemma wp_retry {E A} (G : guard (E := E)) n (q : prog E (result GoErrors.error A)) h Q :
  (∀ l, wp G q (l ++ h)%list Q) → wp G (retry_on_conflict n q) h Q.
Proof.
  revert h. induction n as [|n IH]; intros h Hq; cbn [retry_on_conflict]; [exact (Hq [])|].
  apply wp_bind. eapply wp_mono; [|apply wp_grows, (Hq [])]. intros h' [a|e] [HQ [l ->]]; [done|].
  destruct (kube_IsConflict e); [|done]. apply IH. intros l'. rewrite (assoc_L (++)%list). apply Hq.
Qed.

(** ** Automation *)

(** [only P p], by computation on the shape of the program. *)
Ltac solve_quiet :=
  repeat match goal with
  | |- only _ (try _ _) => apply only_try; [|intros ?]
  | |- only _ (bind _ _) => apply only_bind; [|intros ?]
  | |- only _ (Call _ _) => split; [reflexivity|intros ?]
  | |- only _ (Ret _) => exact I
  | |- only _ (call _) => split; [reflexivity|intros ?; exact I]
  | |- only _ (fail _) => exact I
  | |- only _ (fail_with _) => exact I
  | |- only _ (match ?x with _ => _ end) => destruct x
  | |- only _ (let '_ := ?x in _) => destruct x
  end; try done.

(** The steps of a run within a trace: the answers of its calls and of its
    parts. *)
Ltac step_within :=
  match goal with
  | H : within (Ret _) _ _ |- _ => apply within_ret in H
  | H : within (fail_with _) _ _ |- _ => apply within_ret in H
  | H : within (fail _) _ _ |- _ => apply within_ret in H
  | H : within (Call _ _) _ _ |- _ => apply within_call in H as (? & ? & H)
  | H : within (call _) _ _ |- _ => apply within_call in H as (? & ? & H)
  | H : within (bind _ _) _ _ |- _ => apply within_bind in H as (? & ? & H)
  | H : within (try _ _) _ _ |- _ => apply within_bind in H as (? & ? & H)
  | H : within (if ?b then _ else _) _ _ |- _ => destruct b eqn:?
  | H : within (match ?x with _ => _ end) _ _ |- _ => destruct x eqn:?
  end; subst; try discriminate.
