(* ===== verification/IksApi.v ===== *)
(** * IksApi: what the IKS backend talks to

    The worker pools and workers of the IKS API
    ([pkg/cloudprovider/ibm/iks.go]), and the calls the allocation code makes.
    A call's type is the type of its answer; the answers are arbitrary. *)
From stdpp Require Import prelude list strings gmap.
From Stdlib Require Import Ascii.
From S2P Require Import Prelude GoLib Errors NodeClass Prog Kube.

Open Scope string_scope.

(** ** The IKS API *)
Record WorkerPoolZone := {
  zone_ID : string;
  zone_SubnetID : string;
}.

Record WorkerPool := {
  pool_ID : string;
  pool_Name : string;
  pool_Flavor : string;
  pool_Zone : string;
  SizePerZone : Z;
  ActualSize : Z;
  pool_State : string;
  pool_Labels : gmap string string;
  pool_CreatedAt : Z;
  pool_UpdatedAt : Z;
  pool_Zones : list WorkerPoolZone;
  AutoscaleEnabled : bool;
}.

Record WorkerPoolCreateRequest := {
  rq_Name : string;
  rq_Flavor : string;
  rq_SizePerZone : Z;
  rq_Zones : list WorkerPoolZone;
  rq_Labels : gmap string string;
  rq_DiskEncryption : bool;
  rq_VpcID : string;
}.

Record IKSNetworkInterface := {
  ni_SubnetID : string;
  ni_IPAddress : string;
  ni_CIDR : string;
  Primary : bool;
}.

Record IKSHealthStatus := {
  health_State : string;
  health_Message : string;
}.

Record IKSLifecycleStatus := {
  DesiredState : string;
  ActualState : string;
  lc_Message : string;
}.

Record IKSWorkerDetails := {
  worker_ID : string;
  worker_Provider : string;
  worker_Flavor : string;
  Location : string;
  worker_PoolID : string;
  worker_PoolName : string;
  NetworkInterfaces : list IKSNetworkInterface;
  Health : IKSHealthStatus;
  Lifecycle : IKSLifecycleStatus;
}.

(** The wire form [WorkerPool.UnmarshalJSON] decodes first: the pool's own
    fields and the ones older responses carry. *)
Record WirePool := {
  wire_pool : WorkerPool;
  LegacyName : string;
  LegacyFlavor : string;
  LegacySize : option Z;
}.

Definition UnmarshalPool (wire : WirePool) : WorkerPool :=
  let p := wire_pool wire in
  {| pool_ID := pool_ID p;
     pool_Name := if String.eqb (pool_Name p) "" then LegacyName wire else pool_Name p;
     pool_Flavor := if String.eqb (pool_Flavor p) "" then LegacyFlavor wire else pool_Flavor p;
     pool_Zone := match pool_Zones p with [z] => zone_ID z | _ => pool_Zone p end;
     SizePerZone := match LegacySize wire with Some n => n | None => SizePerZone p end;
     ActualSize := ActualSize p; pool_State := pool_State p; pool_Labels := pool_Labels p;
     pool_CreatedAt := pool_CreatedAt p; pool_UpdatedAt := pool_UpdatedAt p;
     pool_Zones := pool_Zones p; AutoscaleEnabled := AutoscaleEnabled p |}.

(** [ibm.ExtractRegionFromZone]: what precedes the last hyphen. *)
Fixpoint before_last (sep : Ascii.ascii) (s : string) : option string :=
  match s with
  | "" => None
  | String c s' =>
      match before_last sep s' with
      | Some t => Some (String c t)
      | None => if Ascii.eqb c sep then Some "" else None
      end
  end.
Definition ExtractRegionFromZone (zone : string) : string :=
  match before_last "-"%char zone with Some region => region | None => zone end.

(** An IKS client value, by what [validateTarget] asks of it: its account and
    region when it implements that interface. *)
Record IKSClient := {
  target : option (string * string);
}.

(** ** Calls *)
Inductive iks_call : Type → Type :=
  (* the Kubernetes reader *)
  | GetNodeClaim (name : string) : iks_call (result GoErrors.error NodeClaim)
  | GetNodeClass (name : string) : iks_call (result GoErrors.error IBMNodeClass)
  | GetNamespace (name : string) : iks_call (result GoErrors.error ObjectMeta)
  | GetConfigMap (key : NamespacedName) : iks_call (result GoErrors.error ConfigMap)
  | ListNodeClaims : iks_call (result GoErrors.error (list NodeClaim))
  | ListNodes : iks_call (result GoErrors.error (list Node))
  (* the Kubernetes writer; a patch carries the object it was computed from,
     whose resource version it requires *)
  | PatchNodeClaim (stored fresh : NodeClaim) : iks_call (result GoErrors.error NodeClaim)
  | CreateConfigMap (cm : ConfigMap) : iks_call (result GoErrors.error ConfigMap)
  | PatchConfigMap (stored fresh : ConfigMap) : iks_call (result GoErrors.error ConfigMap)
  | DeleteConfigMap (cm : ConfigMap) (uid resourceVersion : string) : iks_call err
  | DeleteNode (node : Node) (uid : string) : iks_call err
  (* the IKS API *)
  | GetIKSClient : iks_call (result GoErrors.error IKSClient)
  | GetWorkerPool (clusterID nameOrID : string) : iks_call (option WorkerPool * err)
  | CreateWorkerPool (clusterID : string) (request : WorkerPoolCreateRequest)
      : iks_call (option WorkerPool * err)
  | DeleteWorkerPool (clusterID poolID : string) : iks_call err
  | ListWorkers (clusterID : string)
      : iks_call (result GoErrors.error (list (option IKSWorkerDetails)))
  | GetWorkerDetails (clusterID workerID : string) : iks_call (option IKSWorkerDetails * err)
  (* the instance type catalog *)
  | GetInstanceType (flavor : string) (nodeClass : IBMNodeClass)
      : iks_call (result GoErrors.error (option InstanceType))
  | FilterInstanceTypes (requirements : InstanceTypeRequirements) (nodeClass : IBMNodeClass)
      : iks_call (result GoErrors.error (list (option InstanceType)))
  (* the process *)
  | Now : iks_call Z
  | Lock (name : string) : iks_call unit
  | Unlock (name : string) : iks_call unit.

Abbreviation iks_prog := (prog iks_call).
Abbreviation iks_history := (history iks_call).
