(* ===== verification/IksAllocation.v ===== *)
(** * IksAllocation: the durable allocation record of an IKS worker

    The data of [pkg/providers/iks/workerpool/allocation.go]: the allocation
    snapshot kept in the NodeClaim's annotation and in the reservation
    ConfigMap, its decoding, the checks that tie a reservation, a pool and a
    worker to it, and the classification of creation outcomes. *)
From stdpp Require Import prelude list strings gmap.
From Stdlib Require Import Ascii.
From S2P Require Import Prelude GoLib GoSort GoRegexp Errors NodeClass ProviderIDs Ownership Prog Kube IksApi.
Import Strings.

Open Scope string_scope.
Open Scope nat_scope.

Definition AllocationFinalizer := "karpenter-ibm.sh/iks-allocation".
Definition AllocationAnnotation := "karpenter-ibm.sh/iks-allocation".
Definition reservationDataKey := "allocation".
Definition ReservationPhaseKey := "phase".
Definition ReservationCreationPendingKey := "creationPending".
Definition ReservationCreationStartedKey := "creationStarted".
Definition ReservationCleanupKey := "cleanup".
Definition ReservationClusterIDKey := "clusterID".
Definition ReservationPoolIDKey := "poolID".
Definition ReservationAccountIDKey := "accountID".
Definition ReservationRegionKey := "region".
Definition poolCreationWindow : Z := (15 * GoTime.Minute)%Z.

(** Label keys of Kubernetes and Karpenter. *)
Definition LabelInstanceTypeStable := "node.kubernetes.io/instance-type".
Definition LabelTopologyZone := "topology.kubernetes.io/zone".
Definition LabelTopologyRegion := "topology.kubernetes.io/region".
Definition CapacityTypeLabelKey := "karpenter.sh/capacity-type".
Definition NodePoolLabelKey := "karpenter.sh/nodepool".
Definition CapacityTypeOnDemand := "on-demand".
Definition TerminationFinalizer := "karpenter.sh/termination".
Definition NodeClassLabelKey := "karpenter-ibm.sh/ibmnodeclass".
Definition AnnotationIBMNodeClassHash := "karpenter-ibm.sh/nodeclass-hash".
Definition AnnotationIBMNodeClassHashVersion := "karpenter-ibm.sh/nodeclass-hash-version".
Definition IBMNodeClassHashVersion := "2".

Record Allocation := {
  ClaimName : string;
  ClaimUID : string;
  NodeClassUID : string;
  ClusterUID : string;
  ClusterID : string;
  AccountID : string;
  al_Region : string;
  Namespace : string;
  al_PoolName : string;
  PoolID : string;
  WorkerID : string;
  NodePool : string;
  al_Hash : string;
  al_Labels : gmap string string;
  al_Capacity : ResourceList;
  al_Allocatable : ResourceList;
  Request : WorkerPoolCreateRequest;
}.

(** [allocation.PoolID, allocation.WorkerID = ...] *)
Definition with_ids (a : Allocation) (pool worker : string) : Allocation :=
  {| ClaimName := ClaimName a; ClaimUID := ClaimUID a; NodeClassUID := NodeClassUID a;
     ClusterUID := ClusterUID a; ClusterID := ClusterID a; AccountID := AccountID a;
     al_Region := al_Region a; Namespace := Namespace a; al_PoolName := al_PoolName a;
     PoolID := pool; WorkerID := worker; NodePool := NodePool a; al_Hash := al_Hash a;
     al_Labels := al_Labels a; al_Capacity := al_Capacity a;
     al_Allocatable := al_Allocatable a; Request := Request a |}.

Definition set_PoolID (a : Allocation) (pool : string) := with_ids a pool (WorkerID a).
Definition set_WorkerID (a : Allocation) (worker : string) := with_ids a (PoolID a) worker.

(** What the code uses of [encoding/json] on an [Allocation], of
    [crypto/sha256], and of the RFC 3339 layout of [time]. *)
Class Stdlib := {
  Marshal : Allocation → result GoErrors.error string;
  Unmarshal : string → result GoErrors.error Allocation;
  Sum256 : string → string;
  FormatRFC3339 : Z → string;
  ParseRFC3339 : string → option Z;
}.

(** The first second of the year 10000, which the layout cannot express. *)
Definition year_10000 : Z := (253402300800 * GoTime.Second)%Z.

(** Their documented behaviour: what was encoded decodes to the same value
    and is not empty (the strings of an allocation come from the JSON of the
    two APIs, so they are valid UTF-8), and a time of the four-digit years
    reads back to the second. *)
Class StdlibLaws `{Stdlib} : Prop := {
  unmarshal_marshal : ∀ a s, Marshal a = Ok s → Unmarshal s = Ok a;
  marshal_nonempty : ∀ a s, Marshal a = Ok s → s ≠ "";
  parse_format : ∀ t, (0 ≤ t < year_10000)%Z →
    ParseRFC3339 (FormatRFC3339 t) = Some (t - t mod GoTime.Second)%Z;
}.

Section allocation.
Context `{Stdlib}.

Definition missing_identity (a : Allocation) : bool :=
  empty (ClaimUID a) || empty (ClusterUID a) || empty (NodeClassUID a) || empty (ClusterID a) ||
  empty (AccountID a) || empty (al_PoolName a) || empty (Namespace a).

Definition invalid_snapshot (a : Allocation) : bool :=
  negb (MatchString accountPattern (AccountID a)) || empty (al_Region a) ||
  negb (String.eqb (rq_Name (Request a)) (al_PoolName a)) || empty (rq_Flavor (Request a)) ||
  negb (rq_SizePerZone (Request a) =? 1)%Z ||
  match rq_Zones (Request a) with
  | [z] => empty (zone_ID z)
  | _ => true
  end.

Definition DecodeAllocation (annotations : gmap string string)
    : result GoErrors.error (option Allocation) :=
  let data := get annotations AllocationAnnotation in
  if empty data then Ok None
  else match Unmarshal data with
       | Err operationErr =>
           Err (GoErrors.wrap ("decoding IKS allocation: " ++ GoErrors.Error operationErr) operationErr)
       | Ok allocation =>
           if missing_identity allocation
           then Err (GoErrors.New "IKS allocation is missing immutable identity")
           else if invalid_snapshot allocation
           then Err (GoErrors.New "IKS allocation has an invalid provisioning snapshot")
           else Ok (Some allocation)
       end.

(** The zone of the request: [Request.Zones[0]] of a decoded allocation. *)
Definition zone0 (a : Allocation) : WorkerPoolZone :=
  List.hd {| zone_ID := ""; zone_SubnetID := "" |} (rq_Zones (Request a)).

(** The name of the lock [lockPool] takes: one of 64, by the first byte of
    the hash. *)
Definition lock_of (clusterID poolName : string) : string :=
  match Sum256 (clusterID ++ "/" ++ poolName) with
  | String c _ => Strconv.Itoa (Z.of_nat (nat_of_ascii c mod 64))
  | "" => ""
  end.

Definition ReservationKey (clusterID poolName namespace : string) : NamespacedName :=
  {| key_Namespace := namespace;
     key_Name := "iks-pool-" ++ hex (take 20 (Sum256 (clusterID ++ "/" ++ poolName))) |}.

Definition key_of (a : Allocation) : NamespacedName :=
  ReservationKey (ClusterID a) (al_PoolName a) (Namespace a).

Definition ownership_labels (a : Allocation) : list (string * string) :=
  [(ManagedLabel, "true"); (ProviderLabel, "iks"); (ClusterUIDLabel, ClusterUID a);
   (ClaimUIDLabel, ClaimUID a); (NodeClassUIDLabel, NodeClassUID a)].

Definition pending (message : string) : GoErrors.error :=
  GoErrors.foreignError (GoErrors.CreateError "WorkerProvisioning" message) message [].

(** [data[k] = v] of the reservation. *)
Definition set_data (cm : ConfigMap) (data : gmap string string) : ConfigMap :=
  {| cm_Namespace := cm_Namespace cm; cm_meta := cm_meta cm; Data := data |}.

(** The data [updateReservation] writes for a phase at a time. *)
Definition phase_data (data : gmap string string) (snapshot phase : string) (poolID : string) (now : Z)
    : gmap string string :=
  let data := <[reservationDataKey := snapshot]> data in
  let data :=
    if String.eqb phase "creating" then
      <[ReservationCreationStartedKey := FormatRFC3339 now]>
        (<[ReservationCreationPendingKey := "true"]> data)
    else data in
  let data :=
    if String.eqb phase "active" || String.eqb phase "rejected" || negb (empty poolID) then
      <[ReservationCreationPendingKey := "false"]> data
    else data in
  <[ReservationPhaseKey := phase]> data.

Definition creationUncertain (reservation : ConfigMap) (now : Z) : bool :=
  if negb (String.eqb (get (Data reservation) ReservationCreationPendingKey) "true") then false
  else match ParseRFC3339 (get (Data reservation) ReservationCreationStartedKey) with
       | None => true
       | Some started => (GoTime.Sub now started <=? poolCreationWindow)%Z
       end.

Definition rejectedCreate (err : GoErrors.error) : bool :=
  match GoErrors.As GoErrors.as_http err with
  | None => false
  | Some httpError =>
      let code := HttpClient.http_StatusCode httpError in
      (400 <=? code)%Z && (code <? 500)%Z && negb (code =? 408)%Z && negb (code =? 409)%Z
        && negb (code =? 429)%Z
  end.

Definition IsNotFound_ (err : GoErrors.error) : bool :=
  match GoErrors.As GoErrors.as_http err with
  | Some httpError => (HttpClient.http_StatusCode httpError =? 404)%Z
  | None => IBM.IsNotFound (Some err)
  end.
Definition IsNotFound (err : option GoErrors.error) : bool :=
  match err with Some e => IsNotFound_ e | None => false end.

(** [restoreReservation]: the allocation with the identities the reservation
    recorded. *)
Definition restoreReservation (allocation : Allocation) (reservation : ConfigMap)
    : result GoErrors.error Allocation :=
  match DecodeAllocation {[AllocationAnnotation := get (Data reservation) reservationDataKey]} with
  | Err err => Err err
  | Ok None => Err (GoErrors.New "worker pool reservation has no allocation snapshot")
  | Ok (Some recorded) =>
      match Marshal (with_ids allocation "" ""), Marshal (with_ids recorded "" "") with
      | Err err, _ => Err err
      | Ok _, Err err => Err err
      | Ok currentData, Ok recordedData =>
          if negb (String.eqb currentData recordedData) then
            Err (GoErrors.New "worker pool reservation snapshot changed")
          else if negb (empty (PoolID allocation)) && negb (empty (PoolID recorded)) &&
                  negb (String.eqb (PoolID allocation) (PoolID recorded)) then
            Err (GoErrors.New "worker pool reservation identity changed")
          else if negb (empty (WorkerID allocation)) && negb (empty (WorkerID recorded)) &&
                  negb (String.eqb (WorkerID allocation) (WorkerID recorded)) then
            Err (GoErrors.New "worker reservation identity changed")
          else
            Ok (with_ids allocation
                  (if empty (PoolID allocation) then PoolID recorded else PoolID allocation)
                  (if empty (WorkerID allocation) then WorkerID recorded else WorkerID allocation))
      end
  end.

Definition validatePool `{MapRange} (pool : option WorkerPool) (allocation : Allocation)
    : option GoErrors.error :=
  match pool with
  | None => Some (GoErrors.New "worker pool does not match the isolated allocation")
  | Some pool =>
      if empty (pool_ID pool) || negb (String.eqb (pool_Name pool) (al_PoolName allocation)) ||
         AutoscaleEnabled pool || (1 <? SizePerZone pool)%Z ||
         match pool_Zones pool with
         | [z] => negb (String.eqb (zone_ID z) (zone_ID (zone0 allocation)))
         | _ => true
         end || negb (String.eqb (pool_Flavor pool) (rq_Flavor (Request allocation)))
      then Some (GoErrors.New "worker pool does not match the isolated allocation")
      else
        match List.find (λ kv, negb (String.eqb (get (pool_Labels pool) kv.1) kv.2))
                        (map_range (ownership_labels allocation)) with
        | Some (key, _) => Some (GoErrors.New ("worker pool ownership mismatch for " ++ key))
        | None =>
            if negb (empty (PoolID allocation)) && negb (String.eqb (pool_ID pool) (PoolID allocation))
            then Some (GoErrors.New "worker pool identity changed")
            else None
        end
  end.

Definition workerNode (accountID clusterID region : string) (worker : IKSWorkerDetails) : Node :=
  {| node_meta :=
       {| Name := worker_ID worker; UID := ""; ResourceVersion := ""; Generation := 0;
          DeletionTimestamp := None; CreationTimestamp := GoTime.zero_time;
          Labels := <[LabelInstanceTypeStable := worker_Flavor worker]>
            (<[LabelTopologyZone := Location worker]> (<[LabelTopologyRegion := region]>
            (<[CapacityTypeLabelKey := CapacityTypeOnDemand]> (<[ClusterIDAnnotation := clusterID]>
            (<[PoolIDAnnotation := worker_PoolID worker]>
            {[WorkerIDAnnotation := worker_ID worker]})))));
          Annotations := ∅; Finalizers := [] |};
     node_ProviderID := iks_provider_id accountID clusterID (worker_ID worker);
     Unschedulable := false; OwnerReferences := []; node_Status := no_status |}.

Definition nodeForAllocation (allocation : Allocation) (worker : IKSWorkerDetails) : Node :=
  let data := match Marshal allocation with Ok s => s | Err _ => "" end in
  let node := workerNode (AccountID allocation) (ClusterID allocation) (al_Region allocation) worker in
  {| node_meta :=
       {| Name := ClaimName allocation; UID := ""; ResourceVersion := ""; Generation := 0;
          DeletionTimestamp := None; CreationTimestamp := GoTime.zero_time;
          Labels := <[NodePoolLabelKey := NodePool allocation]>
                      (al_Labels allocation ∪ Labels (node_meta node));
          Annotations :=
            <[AllocationAnnotation := data]> (<[BackendAnnotation := "iks"]>
            (<[RegionAnnotation := al_Region allocation]>
            (<[ClusterIDAnnotation := ClusterID allocation]>
            (<[PoolIDAnnotation := PoolID allocation]>
            (<[WorkerIDAnnotation := WorkerID allocation]>
            (<[AccountIDAnnotation := AccountID allocation]>
            (<[AnnotationIBMNodeClassHash := al_Hash allocation]>
            {[AnnotationIBMNodeClassHashVersion := IBMNodeClassHashVersion]})))))));
          Finalizers := [] |};
     node_ProviderID := node_ProviderID node;
     Unschedulable := false; OwnerReferences := []; node_Status := no_status |}.

(** [registeredIn]: the one node with the provider ID. *)
Fixpoint registered_loop (nodes : list Node) (providerID : string) (registered : option Node)
    : result GoErrors.error (option Node) :=
  match nodes with
  | [] => Ok registered
  | node :: nodes' =>
      if negb (String.eqb (node_ProviderID node) providerID) then
        registered_loop nodes' providerID registered
      else match registered with
           | Some _ => Err (GoErrors.New "multiple Nodes have the allocated provider ID")
           | None => registered_loop nodes' providerID (Some node)
           end
  end.
Definition registeredIn (nodes : list Node) (providerID : string) :=
  registered_loop nodes providerID None.

(** The workers of a pool that still exist. *)
Definition live_in (poolID : string) (w : option IKSWorkerDetails) : bool :=
  match w with
  | None => false
  | Some worker =>
      String.eqb (worker_PoolID worker) poolID &&
      negb (String.eqb (ActualState (Lifecycle worker)) "deleted")
  end.
End allocation.

Section facts.
Context `{Stdlib} `{!StdlibLaws}.

(** An allocation the decoder accepts. *)
Definition complete (a : Allocation) : Prop := missing_identity a = false ∧ invalid_snapshot a = false.

Lemma decode_marshal a data annotations :
  complete a → Marshal a = Ok data → get annotations AllocationAnnotation = data →
  DecodeAllocation annotations = Ok (Some a).
Proof.
  intros [Hi Hs] Hm Hg. unfold DecodeAllocation. rewrite Hg.
  destruct (empty data) eqn:E; [by apply String.eqb_eq in E; apply (marshal_nonempty a data) in Hm|].
  by rewrite (unmarshal_marshal a data Hm), Hi, Hs.
Qed.

Lemma decode_complete annotations a : DecodeAllocation annotations = Ok (Some a) → complete a.
Proof.
  unfold DecodeAllocation. destruct (empty _); [done|]. destruct (Unmarshal _) as [a'|]; [|done].
  destruct (missing_identity a') eqn:E1; [done|]. destruct (invalid_snapshot a') eqn:E2; [done|].
  by intros [= <-].
Qed.

Lemma marshal_inj a b s : Marshal a = Ok s → Marshal b = Ok s → a = b.
Proof.
  intros Ha%unmarshal_marshal Hb%unmarshal_marshal. rewrite Ha in Hb. by injection Hb.
Qed.

(** An identity of the result: kept when the allocation had it, else the
    recorded one. *)
Definition merged (own recorded result : string) : Prop :=
  (own ≠ "" → result = own) ∧ (recorded ≠ "" → result = recorded) ∧
  (own = "" → result = recorded).

(** Restoring from a reservation succeeds only for the same immutable
    snapshot, never changes an identity that either side knows, and learns
    the ones only the reservation knows; a restored allocation is complete. *)
Theorem restore_keeps_identity (a a' : Allocation) (cm : ConfigMap)
    (Hr : restoreReservation a cm = Ok a') :
  ∃ recorded,
    DecodeAllocation {[AllocationAnnotation := get (Data cm) reservationDataKey]} = Ok (Some recorded) ∧
    with_ids a "" "" = with_ids recorded "" "" ∧ with_ids a' "" "" = with_ids a "" "" ∧
    merged (PoolID a) (PoolID recorded) (PoolID a') ∧
    merged (WorkerID a) (WorkerID recorded) (WorkerID a') ∧ complete a'.
Proof.
  unfold restoreReservation in Hr. destruct (DecodeAllocation _) as [[r|]|e] eqn:Ed; try done.
  destruct (Marshal (with_ids a _ _)) as [s1|] eqn:E1; [|done].
  destruct (Marshal (with_ids r _ _)) as [s2|] eqn:E2; [|done].
  destruct (String.eqb_spec s1 s2) as [->|]; [|done]. cbn [negb] in Hr.
  destruct (_ && _) eqn:Ep; [done|]. destruct (negb (empty (WorkerID a)) && _ && _) eqn:Ew; [done|].
  injection Hr as <-. pose proof (marshal_inj _ _ _ E1 E2) as Hsame.
  assert (Hm : ∀ x y, negb (empty x) && negb (empty y) && negb (String.eqb x y) = false →
    merged x y (if empty x then y else x)).
  { intros x y Hxy. unfold merged, empty in *.
    destruct (String.eqb_spec x "") as [Ex|Hx]; [by split_and!|].
    destruct (String.eqb_spec y "") as [Ey|Hy]; [by split_and!|].
    cbn in Hxy. bool_to_prop. by split_and!. }
  exists r. split_and!; try done; [by apply Hm|by apply Hm|].
  apply decode_complete in Ed as [Hi Hs].
  split; [rewrite <-Hi|rewrite <-Hs];
    change (missing_identity a) with (missing_identity (with_ids a "" ""));
    change (missing_identity r) with (missing_identity (with_ids r "" ""));
    change (invalid_snapshot a) with (invalid_snapshot (with_ids a "" ""));
    change (invalid_snapshot r) with (invalid_snapshot (with_ids r "" ""));
    rewrite <-Hsame; reflexivity.
Qed.

Lemma get_insert_eq m k v : get (<[k:=v]> m) k = v.
Proof. unfold get. by rewrite lookup_insert_eq. Qed.
Lemma get_insert_ne m k k' v : k ≠ k' → get (<[k:=v]> m) k' = get m k'.
Proof. intros Hne. unfold get. by rewrite lookup_insert_ne. Qed.

Lemma phase_pending data snapshot phase pool now :
  get (phase_data data snapshot phase pool now) ReservationCreationPendingKey =
  if String.eqb phase "active" || String.eqb phase "rejected" || negb (empty pool) then "false"
  else if String.eqb phase "creating" then "true"
  else get data ReservationCreationPendingKey.
Proof.
  unfold phase_data. rewrite get_insert_ne by done.
  destruct (_ || _); [by rewrite get_insert_eq|].
  destruct (String.eqb phase "creating").
  - by rewrite get_insert_ne, get_insert_eq.
  - by rewrite get_insert_ne.
Qed.

Lemma phase_started data snapshot phase pool now :
  get (phase_data data snapshot phase pool now) ReservationCreationStartedKey =
  if String.eqb phase "creating" then FormatRFC3339 now
  else get data ReservationCreationStartedKey.
Proof.
  unfold phase_data. rewrite get_insert_ne by done.
  destruct (_ || _); rewrite ?get_insert_ne by done; destruct (String.eqb phase "creating");
    by rewrite ?get_insert_eq, ?get_insert_ne.
Qed.

(** The reservation after a list of updates, oldest first: phase, pool
    identity and time of each. *)
Definition updates (data : gmap string string) (l : list (string * string * Z)) : gmap string string :=
  foldl (λ d '(phase, pool, now), phase_data d "" phase pool now) data l.

Lemma updates_keep data l :
  Forall (λ u : string * string * Z, u.1.1 = "deleting" ∧ u.1.2 = "") l →
  get (updates data l) ReservationCreationPendingKey = get data ReservationCreationPendingKey ∧
  get (updates data l) ReservationCreationStartedKey = get data ReservationCreationStartedKey.
Proof.
  revert data. induction l as [|[[ph po] n] l IH]; intros data; [done|].
  intros [[Eph Epo] Hl]%Forall_cons. cbn in Eph, Epo. subst ph po.
  cbn [updates foldl]. destruct (IH (phase_data data "" "deleting" "" n) Hl) as [E1 E2].
  unfold updates in *. rewrite E1, E2, phase_pending, phase_started. done.
Qed.

(** Once a creation has been asked for and its outcome is not known, the
    reservation stays uncertain for fifteen minutes from the (truncated)
    second it was marked, and no longer, through any number of deletion
    attempts that do not learn the pool's identity. *)
Theorem uncertainty_window (cm : ConfigMap) (snapshot : string) (started now : Z)
    (deletions : list (string * string * Z))
    (Hdel : Forall (λ u, u.1.1 = "deleting" ∧ u.1.2 = "") deletions)
    (Hstarted : (0 ≤ started < year_10000)%Z)
    (Hnow : (started ≤ now ≤ started + GoTime.Hour)%Z) :
  creationUncertain (set_data cm (updates (phase_data (Data cm) snapshot "creating" "" started) deletions)) now =
    (now - (started - started mod GoTime.Second) <=? 15 * GoTime.Minute)%Z.
Proof.
  destruct (updates_keep (phase_data (Data cm) snapshot "creating" "" started) deletions Hdel) as [E1 E2].
  unfold creationUncertain. cbn [Data set_data].
  rewrite E1, E2, phase_pending, phase_started.
  change (String.eqb "creating" "active") with false. change (String.eqb "creating" "rejected") with false.
  rewrite !String.eqb_refl. cbn [empty negb orb String.eqb].
  rewrite parse_format by done.
  unfold GoTime.Sub, poolCreationWindow, GoTime.min_duration, GoTime.max_duration.
  pose proof (Z.mod_pos_bound started GoTime.Second ltac:(done)).
  unfold GoTime.Hour, GoTime.Minute, GoTime.Second, GoTime.Millisecond in *.
  match goal with |- (?x <=? ?y)%Z = (?z <=? ?y)%Z => replace x with z by lia end. done.
Qed.

(** A known outcome ends the uncertainty at once: the pool's identity, the
    worker's adoption, or a definitive refusal. *)
Theorem known_outcome_is_certain (cm : ConfigMap) (snapshot phase pool : string) (at_ now : Z)
    (Hknown : phase = "active" ∨ phase = "rejected" ∨ pool ≠ "") :
  creationUncertain (set_data cm (phase_data (Data cm) snapshot phase pool at_)) now = false.
Proof.
  unfold creationUncertain. cbn [Data set_data]. rewrite phase_pending.
  destruct Hknown as [->|[->|Hne]]; [done|done|].
  unfold empty. rewrite (proj2 (String.eqb_neq _ _) Hne), !orb_true_r. done.
Qed.
End facts.

(** The pool check, whatever order the ownership labels are visited in: it
    accepts exactly the pool with the allocation's name, zone, flavor and
    identity, not autoscaled, of at most one worker, and with the five
    ownership labels. *)
Theorem validatePool_spec `{MapRange} (pool : WorkerPool) (a : Allocation) :
  validatePool (Some pool) a = None ↔
  pool_ID pool ≠ "" ∧ pool_Name pool = al_PoolName a ∧ AutoscaleEnabled pool = false ∧
  (SizePerZone pool ≤ 1)%Z ∧
  (∃ z, pool_Zones pool = [z] ∧ zone_ID z = zone_ID (zone0 a)) ∧
  pool_Flavor pool = rq_Flavor (Request a) ∧
  Forall (λ kv, get (pool_Labels pool) kv.1 = kv.2) (ownership_labels a) ∧
  (PoolID a = "" ∨ pool_ID pool = PoolID a).
Proof.
  assert (Hlabels : List.find (λ kv, negb (String.eqb (get (pool_Labels pool) kv.1) kv.2))
      (map_range (ownership_labels a)) = None ↔
    Forall (λ kv, get (pool_Labels pool) kv.1 = kv.2) (ownership_labels a)).
  { rewrite find_None_Forall, map_range_perm, !Forall_forall.
    setoid_rewrite negb_false_iff. by setoid_rewrite String.eqb_eq. }
  unfold validatePool, empty.
  destruct (String.eqb_spec (pool_ID pool) ""); [split; [done|naive_solver]|].
  destruct (String.eqb_spec (pool_Name pool) (al_PoolName a)); [|split; [done|naive_solver]].
  destruct (AutoscaleEnabled pool); [split; [done|naive_solver]|].
  destruct (Z.ltb_spec 1 (SizePerZone pool)); [split; [done|intros; destruct_and!; lia]|].
  destruct (pool_Zones pool) as [|z [|]]; [split; [done|naive_solver]| |split; [done|naive_solver]].
  destruct (String.eqb_spec (zone_ID z) (zone_ID (zone0 a))); [|split; [done|naive_solver]].
  destruct (String.eqb_spec (pool_Flavor pool) (rq_Flavor (Request a))); [|split; [done|naive_solver]].
  cbn [negb orb]. rewrite <-Hlabels.
  destruct (List.find _ _) as [[k v]|]; [split; [done|naive_solver]|].
  destruct (String.eqb_spec (PoolID a) ""); cbn [negb andb]; [naive_solver|].
  destruct (String.eqb_spec (pool_ID pool) (PoolID a)); cbn; naive_solver.
Qed.
