(* ===== verification/IksLaunch.v ===== *)
(** * IksLaunch: launching one worker in its own IKS pool

    [createAllocation] of [pkg/providers/iks/workerpool/allocation.go] and the
    operations it is made of, as programs that call the Kubernetes and IKS
    APIs.  Every early return of the code is an [Err]. *)
From stdpp Require Import prelude list strings gmap.
From Stdlib Require Import Ascii SpecFloat.
From S2P Require Import Prelude GoLib GoSort GoFloat GoRegexp Errors.
From S2P Require Import NodeClass ProviderIDs Ownership Prog Kube IksApi IksAllocation.
Import Strings.

Open Scope string_scope.
Open Scope nat_scope.
Open Scope prog_scope.

(** The provider value: which of its clients are set, the region of the IBM
    client, the configured namespace, and the process environment. *)
Record IKSWorkerPoolProvider := {
  client : option string;
  kubeClient : bool;
  apiReader : bool;
  iksClient : option IKSClient;
  allocationNamespace : string;
  instanceTypeProvider : bool;
  Getenv : string → string;
}.

Section launch.
Context `{Stdlib} `{Karpenter} `{MapRange}.
Context (p : IKSWorkerPoolProvider).

Local Abbreviation iks A := (prog iks_call (result GoErrors.error A)).

Definition getIKSClient : iks IKSClient :=
  match iksClient p with
  | Some c => Ret (Ok c)
  | None =>
      match client p with
      | None => fail "IBM client is not initialized"
      | Some _ => call GetIKSClient
      end
  end.

Definition allocationNamespaceName : string :=
  if negb (empty (allocationNamespace p)) then allocationNamespace p
  else if negb (empty (Getenv p "POD_NAMESPACE")) then Getenv p "POD_NAMESPACE"
  else "karpenter".

(** [ownership.ClusterUID] through [p.reader()]. *)
Definition ClusterUID_ : iks string :=
  if apiReader p || kubeClient p then
    answer ⟵ GetNamespace "kube-system";
    Ret (ClusterUID_of (Some answer))
  else Ret (ClusterUID_of None).

Definition validateTarget (c : IKSClient) (accountID region : string) : option GoErrors.error :=
  let '(configuredAccount, configuredRegion) :=
    match target c with
    | Some t => t
    | None => (Getenv p "IBM_ACCOUNT_ID", match client p with Some r => r | None => "" end)
    end in
  if negb (String.eqb configuredAccount accountID) ||
     (negb (empty region) && negb (empty configuredRegion) && negb (String.eqb configuredRegion region))
  then Some (GoErrors.New "IKS client account or region differs from the immutable allocation; retaining ownership")
  else None.

(** The metadata [checkpoint] patches the claim to. *)
Definition checkpointed_meta (m : ObjectMeta) (data : string) (a : Allocation) : ObjectMeta :=
  {| Name := Name m; UID := UID m; ResourceVersion := ResourceVersion m;
     Generation := Generation m; DeletionTimestamp := DeletionTimestamp m;
     CreationTimestamp := CreationTimestamp m; Labels := Labels m;
     Annotations :=
       <[WorkerIDAnnotation := WorkerID a]> (<[PoolIDAnnotation := PoolID a]>
       (<[AccountIDAnnotation := AccountID a]> (<[ClusterIDAnnotation := ClusterID a]>
       (<[RegionAnnotation := al_Region a]> (<[BackendAnnotation := "iks"]>
       (<[AllocationAnnotation := data]> (Annotations m)))))));
     Finalizers := AddFinalizer (Finalizers m) AllocationFinalizer |}.

(** [checkpoint]: the claim with the metadata the server returned. *)
Definition checkpoint (claim : NodeClaim) (allocation : Allocation) : iks NodeClaim :=
  answer ⟵ GetNodeClaim (ClaimName allocation);
  match answer with
  | Err operationErr => fail_with (wrapped_ "reading allocation owner" operationErr)
  | Ok fresh =>
      if negb (String.eqb (UID (claim_meta fresh)) (ClaimUID allocation)) ||
         bool_decide (is_Some (DeletionTimestamp (claim_meta fresh)))
      then fail "allocation owner is gone or terminating"
      else match Marshal allocation with
           | Err err => fail_with err
           | Ok data =>
               let patched := set_meta fresh (checkpointed_meta (claim_meta fresh) data allocation) in
               answer ⟵ PatchNodeClaim fresh patched;
               match answer with
               | Err operationErr => fail_with (wrapped_ "checkpointing allocation" operationErr)
               | Ok updated => Ret (Ok (set_meta claim (claim_meta updated)))
               end
           end
  end.

Definition new_reservation (key : NamespacedName) (a : Allocation) (data : string) : ConfigMap :=
  {| cm_Namespace := key_Namespace key;
     cm_meta :=
       {| Name := key_Name key; UID := ""; ResourceVersion := ""; Generation := 0;
          DeletionTimestamp := None; CreationTimestamp := GoTime.zero_time;
          Labels := list_to_map (ownership_labels a); Annotations := ∅; Finalizers := [] |};
     Data := <[reservationDataKey := data]> {[ReservationPhaseKey := "reserved"]} |}.

Definition foreign_reservation (cm : ConfigMap) (a : Allocation) : bool :=
  negb (String.eqb (get (Labels (cm_meta cm)) ClaimUIDLabel) (ClaimUID a)) ||
  negb (String.eqb (get (Labels (cm_meta cm)) ClusterUIDLabel) (ClusterUID a)) ||
  negb (String.eqb (get (Labels (cm_meta cm)) NodeClassUIDLabel) (NodeClassUID a)).

(** The ownership test that ends [reserve]. *)
Definition owned_reservation (cm : ConfigMap) (a : Allocation) : result GoErrors.error ConfigMap :=
  if foreign_reservation cm a
  then Err (GoErrors.New "worker pool reservation belongs to another owner")
  else Ok cm.

Definition reserve (allocation : Allocation) : iks ConfigMap :=
  let key := key_of allocation in
  answer ⟵ GetConfigMap key;
  match answer with
  | Ok reservation => Ret (owned_reservation reservation allocation)
  | Err err =>
      if kube_IsNotFound err then
        match Marshal allocation with
        | Err marshalErr => fail_with marshalErr
        | Ok data =>
            answer ⟵ CreateConfigMap (new_reservation key allocation data);
            match answer with
            | Err operationErr => fail_with (wrapped_ "reserving worker pool" operationErr)
            | Ok reservation => Ret (owned_reservation reservation allocation)
            end
        end
      else fail_with (wrapped_ "reading worker pool reservation" err)
  end.

(** [updateReservation]: the reservation as the server returned it. *)
Definition updateReservation (reservation : ConfigMap) (allocation : Allocation) (phase : string)
    : iks ConfigMap :=
  match Marshal allocation with
  | Err err => fail_with err
  | Ok data =>
      now ⟵ Now;
      let patched :=
        set_data reservation (phase_data (Data reservation) data phase (PoolID allocation) now) in
      answer ⟵ PatchConfigMap reservation patched;
      match answer with
      | Err operationErr => fail_with (wrapped_ "updating worker pool reservation" operationErr)
      | Ok updated => Ret (Ok updated)
      end
  end.

Definition isInstanceTypeAllowed (instanceType : string) (allowedTypes : list string) : bool :=
  match allowedTypes with [] => true | _ => existsb (λ allowed, String.eqb allowed instanceType) allowedTypes end.

Definition isDynamicPoolsEnabled (nodeClass : IBMNodeClass) : bool :=
  match IKSDynamicPools (Spec nodeClass) with Some c => Enabled c | None => false end.

Definition dynamic_labels (nodeClass : IBMNodeClass) : gmap string string :=
  match IKSDynamicPools (Spec nodeClass) with Some c => dp_Labels c | None => ∅ end.

(** One map of extra labels merged over the known ones: a conflict is an
    error, a reserved key is left out. *)
Fixpoint merge_labels (labels : gmap string string) (extra : list (string * string))
    : result GoErrors.error (gmap string string) :=
  match extra with
  | [] => Ok labels
  | (key, value) :: extra' =>
      match labels !! key with
      | Some actual =>
          if negb (String.eqb actual value)
          then Err (GoErrors.New ("IKS label " ++ key ++ " conflicts with the selected flavor or zone"))
          else merge_labels (if ReservedTag key then labels else <[key := value]> labels) extra'
      | None => merge_labels (if ReservedTag key then labels else <[key := value]> labels) extra'
      end
  end.

(** The label of a requirement with a single value. *)
Definition single_value (r : Requirement) : option string :=
  if String.eqb (Operator r) "In" then
    match Values r with [v] => Some v | _ => None end
  else None.

Definition flavor_labels (it : InstanceType) (nodeClass : IBMNodeClass) (flavor : string)
    : gmap string string :=
  <[CapacityTypeLabelKey := CapacityTypeOnDemand]> (<[LabelTopologyRegion := Region (Spec nodeClass)]>
  (<[LabelTopologyZone := Zone (Spec nodeClass)]> (<[LabelInstanceTypeStable := flavor]>
  (omap single_value (it_Requirements it))))).

(** The maximum price: [None] without a limit. *)
Definition maximum_price (nodeClass : IBMNodeClass) : result GoErrors.error (option spec_float) :=
  match InstanceRequirements (Spec nodeClass) with
  | None => Ok None
  | Some r =>
      if empty (MaximumHourlyPrice r) then Ok None
      else match ParseFloat (MaximumHourlyPrice r) with
           | None => Err (GoErrors.New "IKS maximum hourly price is invalid")
           | Some f =>
               if SFltb f Float.zero || Float.is_nan f || Float.is_inf f
               then Err (GoErrors.New "IKS maximum hourly price is invalid")
               else Ok (Some f)
           end
  end.

(** The loop over the offerings: whether one is available, and whether a
    compatible one was passed over for want of a price. *)
Fixpoint offering_loop (zone : string) (maximumPrice : option spec_float) (offerings : list Offering)
    (unknownPrice : bool) : bool * bool :=
  match offerings with
  | [] => (false, unknownPrice)
  | o :: offerings' =>
      if Available o &&
         IsCompatible (off_Requirements o)
           (<[LabelTopologyZone := zone]> {[CapacityTypeLabelKey := CapacityTypeOnDemand]})
      then match maximumPrice with
           | Some maximum =>
               if negb (SFltb Float.zero (Price o)) || Float.is_inf (Price o)
               then offering_loop zone maximumPrice offerings' true
               else if SFltb maximum (Price o)
               then offering_loop zone maximumPrice offerings' unknownPrice
               else (true, unknownPrice)
           | None => (true, unknownPrice)
           end
      else offering_loop zone maximumPrice offerings' unknownPrice
  end.

(** What follows the reads of [validateInstanceType]. *)
Definition check_flavor (claim : NodeClaim) (nodeClass : IBMNodeClass) (flavor : string)
    (it : InstanceType) : result GoErrors.error (gmap string string) :=
  match merge_labels (flavor_labels it nodeClass flavor) (map_range (map_to_list (Labels (claim_meta claim)))) with
  | Err err => Err err
  | Ok labels =>
      match merge_labels labels (map_range (map_to_list (dynamic_labels nodeClass))) with
      | Err err => Err err
      | Ok labels =>
          match Compatible labels (Requirements claim) with
          | Some compatibilityErr =>
              Err (wrapped_ "IKS flavor or zone does not satisfy NodeClaim requirements" compatibilityErr)
          | None =>
              match maximum_price nodeClass with
              | Err err => Err err
              | Ok maximumPrice =>
                  let '(available, unknownPrice) :=
                    offering_loop (Zone (Spec nodeClass)) maximumPrice (Offerings it) false in
                  if negb available && unknownPrice then
                    Err (GoErrors.New "IKS offering price is unavailable; retry when pricing resolves")
                  else if negb available || negb (Fits (Requests claim) (it_Allocatable it)) then
                    Err (GoErrors.New "IKS flavor has no compatible capacity for the NodeClaim")
                  else Ok labels
              end
          end
      end
  end.

Definition validateInstanceType (claim : NodeClaim) (nodeClass : IBMNodeClass) (flavor : string)
    : iks (gmap string string) :=
  if negb (instanceTypeProvider p) then fail "IKS provisioning requires an instance type catalog"
  else
    answer ⟵ GetInstanceType flavor nodeClass;
    match answer with
    | Err err => fail_with (wrapped_ "getting IKS flavor capacity" err)
    | Ok None => fail "IKS flavor is missing from the instance type catalog"
    | Ok (Some it) =>
        if negb (String.eqb (it_Name it) flavor)
        then fail "IKS flavor is missing from the instance type catalog"
        else match InstanceRequirements (Spec nodeClass) with
             | None => Ret (check_flavor claim nodeClass flavor it)
             | Some requirements =>
                 answer ⟵ FilterInstanceTypes requirements nodeClass;
                 match answer with
                 | Err filterErr => fail_with filterErr
                 | Ok filtered =>
                     if existsb (λ c, match c with Some c => String.eqb (it_Name c) flavor | None => false end) filtered
                     then Ret (check_flavor claim nodeClass flavor it)
                     else fail ("IKS flavor " ++ flavor ++ " does not meet NodeClass instance requirements")
                 end
             end
    end.

Definition find_condition (l : list Condition) (type : string) : option Condition :=
  List.find (λ c, String.eqb (cond_Type c) type) l.

(** [StatusConditions().Get("Ready")] is true for the current generation. *)
Definition ready_for_generation (nodeClass : IBMNodeClass) : bool :=
  match find_condition (Conditions (Status nodeClass)) "Ready" with
  | Some ready =>
      String.eqb (cond_Status ready) "True" &&
      (ObservedGeneration ready =? Generation (nc_meta nodeClass))%Z
  | None => false
  end.

Definition pool_labels (claim : NodeClaim) (nodeClass : IBMNodeClass) (clusterUID : string)
    : gmap string string :=
  <[NodeClassUIDLabel := UID (nc_meta nodeClass)]> (<[ClaimUIDLabel := UID (claim_meta claim)]>
  (<[ClusterUIDLabel := clusterUID]> (<[ProviderLabel := "iks"]> (<[ManagedLabel := "true"]>
  (<[NodePoolLabelKey := get (Labels (claim_meta claim)) NodePoolLabelKey]>
  (filter (λ kv, ReservedTag kv.1 = false ∧ WellKnownLabel kv.1 = false)
          (dynamic_labels nodeClass))))))).

Definition pool_name (clusterUID claimUID : string) : string :=
  "karp-" ++ hex (take 24 (Sum256 (clusterUID ++ "/" ++ claimUID))).

Definition encrypted (nodeClass : IBMNodeClass) : bool :=
  match IKSDynamicPools (Spec nodeClass) with
  | Some c => default true (DiskEncryption c)
  | None => true
  end.

Definition allowed_types (nodeClass : IBMNodeClass) : list string :=
  match IKSDynamicPools (Spec nodeClass) with Some c => AllowedInstanceTypes c | None => [] end.

(** The flavor: the profile, else the claim's label, checked against the
    template pool when the class names one. *)
Definition resolve_flavor (claim : NodeClaim) (nodeClass : IBMNodeClass) (clusterID : string)
    : iks string :=
  let flavor :=
    if empty (InstanceProfile (Spec nodeClass))
    then get (Labels (claim_meta claim)) LabelInstanceTypeStable
    else InstanceProfile (Spec nodeClass) in
  if empty (IKSWorkerPoolID (Spec nodeClass)) then Ret (Ok flavor)
  else
    answer ⟵ GetWorkerPool clusterID (IKSWorkerPoolID (Spec nodeClass));
    match answer with
    | (_, Some templateErr) => fail_with (wrapped_ "getting worker pool template" templateErr)
    | (None, None) => fail "worker pool template is missing"
    | (Some template, None) =>
        if negb (empty flavor) && negb (String.eqb (pool_Flavor template) flavor)
        then fail "worker pool template flavor conflicts with the requested instance profile"
        else Ret (Ok (pool_Flavor template))
    end.

Definition build_allocation (claim : NodeClaim) (nodeClass : IBMNodeClass)
    (clusterID clusterUID accountID flavor hash : string) (resolvedLabels : gmap string string)
    (it : InstanceType) : Allocation :=
  let name := pool_name clusterUID (UID (claim_meta claim)) in
  {| ClaimName := Name (claim_meta claim); ClaimUID := UID (claim_meta claim);
     NodeClassUID := UID (nc_meta nodeClass); ClusterUID := clusterUID; ClusterID := clusterID;
     AccountID := accountID; al_Region := Region (Spec nodeClass);
     Namespace := allocationNamespaceName; al_PoolName := name; PoolID := ""; WorkerID := "";
     NodePool := get (Labels (claim_meta claim)) NodePoolLabelKey; al_Hash := hash;
     al_Labels := resolvedLabels; al_Capacity := it_Capacity it;
     al_Allocatable := it_Allocatable it;
     Request :=
       {| rq_Name := name; rq_Flavor := flavor; rq_SizePerZone := 1;
          rq_Zones := [{| zone_ID := Zone (Spec nodeClass); zone_SubnetID := Subnet (Spec nodeClass) |}];
          rq_Labels := pool_labels claim nodeClass clusterUID;
          rq_DiskEncryption := encrypted nodeClass; rq_VpcID := VPC (Spec nodeClass) |} |}.

(** [newAllocation], from the checks that need the cluster's UID on. *)
Definition allocate (claim : NodeClaim) (nodeClass : IBMNodeClass) (clusterID : string)
    : iks Allocation :=
  clusterUID ←! ClusterUID_;
  let accountID := Getenv p "IBM_ACCOUNT_ID" in
  if negb (MatchString accountPattern accountID)
  then fail "IBM_ACCOUNT_ID must be a 32-character hexadecimal account identity"
  else if match client p with
          | Some region => negb (empty region) && negb (String.eqb region (Region (Spec nodeClass)))
          | None => false
          end
  then fail "IKS client region does not match NodeClass region"
  else
    flavor ←! resolve_flavor claim nodeClass clusterID;
    if empty flavor || empty (Zone (Spec nodeClass)) || empty (VPC (Spec nodeClass)) ||
       empty (Subnet (Spec nodeClass))
    then fail "isolated IKS pools require an instance profile, zone, VPC and subnet"
    else if negb (isInstanceTypeAllowed flavor (allowed_types nodeClass))
    then fail ("instance type " ++ flavor ++ " is not in allowed list")
    else
      resolvedLabels ←! validateInstanceType claim nodeClass flavor;
      answer ⟵ GetInstanceType flavor nodeClass;
      match answer with
      | Err err => fail_with (wrapped_ "getting IKS flavor capacity" err)
      | Ok None => fail nil_dereference
      | Ok (Some it) =>
          match Hash.ProvisioningHash HashStructure nodeClass with
          | (_, Some err) => fail_with err
          | (hash, None) =>
              Ret (Ok (build_allocation claim nodeClass clusterID clusterUID accountID flavor hash
                         resolvedLabels it))
          end
      end.

Definition newAllocation (claim : NodeClaim) (className : string) : iks Allocation :=
  answer ⟵ GetNodeClass className;
  match answer with
  | Err operationErr => fail_with (wrapped_ ("getting NodeClass " ++ className) operationErr)
  | Ok nodeClass =>
      let clusterID :=
        if empty (IKSClusterID (Spec nodeClass)) then Getenv p "IKS_CLUSTER_ID"
        else IKSClusterID (Spec nodeClass) in
      if empty clusterID then fail "IKS cluster ID not found in NodeClass or environment"
      else
        _c ←! getIKSClient;
        if negb (isDynamicPoolsEnabled nodeClass)
        then fail "IKS provisioning requires iksDynamicPools.enabled: shared worker pools cannot provide exact NodeClaim deletion"
        else if empty (UID (claim_meta claim)) || empty (UID (nc_meta nodeClass))
        then fail "NodeClaim and NodeClass require immutable UIDs"
        else if negb (ready_for_generation nodeClass)
        then fail "NodeClass readiness is stale or unavailable"
        else allocate claim nodeClass clusterID
  end.

(** [unlock := lockPool(...); defer unlock()] *)
Definition with_lock {A} (l : string) (body : iks A) : iks A :=
  _u ⟵ Lock l;
  bind body (λ r, _u ⟵ Unlock l; Ret r).

Definition primary_subnet (worker : IKSWorkerDetails) : string :=
  match List.find Primary (NetworkInterfaces worker) with
  | Some networkInterface => ni_SubnetID networkInterface
  | None => ""
  end.

(** The loop over the workers of the cluster. *)
Fixpoint select_worker (poolID : string) (allocation : Allocation)
    (workers : list (option IKSWorkerDetails)) (selected : option IKSWorkerDetails)
    : result GoErrors.error (option IKSWorkerDetails) :=
  match workers with
  | [] => Ok selected
  | w :: workers' =>
      match w with
      | Some worker =>
          if negb (live_in poolID w) then select_worker poolID allocation workers' selected
          else match selected with
               | Some _ => Err (GoErrors.New ("isolated pool " ++ poolID ++ " contains more than one worker"))
               | None =>
                   if empty (worker_ID worker) ||
                      negb (String.eqb (Location worker) (zone_ID (zone0 allocation))) ||
                      negb (String.eqb (worker_Flavor worker) (rq_Flavor (Request allocation)))
                   then Err (GoErrors.New "worker does not match the reserved zone and flavor")
                   else if empty (primary_subnet worker)
                   then Err (pending "waiting for the worker network identity")
                   else if negb (String.eqb (primary_subnet worker) (zone_SubnetID (zone0 allocation)))
                   then Err (GoErrors.New "worker subnet differs from the immutable allocation; retaining ownership")
                   else select_worker poolID allocation workers' (Some worker)
               end
      | None => select_worker poolID allocation workers' selected
      end
  end.

(** The pool of the allocation: looked up by name, created when it is absent
    and nothing says it might still appear.  The results are the pool, the
    allocation, the reservation and the claim as they then are. *)
Definition launch_state := (option WorkerPool * Allocation * ConfigMap * NodeClaim)%type.

Definition create_pool (nodeClaim : NodeClaim) (allocation : Allocation) (reservation : ConfigMap)
    : iks launch_state :=
  reservation ←! updateReservation reservation allocation "creating";
  answer ⟵ CreateWorkerPool (ClusterID allocation) (Request allocation);
  let '(pool, err) := answer in
  match err with
  | Some err =>
      if rejectedCreate err then
        bind (updateReservation reservation allocation "rejected") (λ r,
          match r with
          | Err operationErr =>
              fail_with (GoErrors.wrap ("recording rejected worker pool " ++ al_PoolName allocation ++
                " after " ++ GoErrors.Error err ++ ": " ++ GoErrors.Error operationErr) err)
          | Ok _ => fail_with (wrapped_ ("creating reserved worker pool " ++ al_PoolName allocation) err)
          end)
      else fail_with (wrapped_ ("creating reserved worker pool " ++ al_PoolName allocation) err)
  | None =>
      match pool with
      | None => fail_with (pending "waiting for the reserved worker pool identity")
      | Some pool =>
          if empty (pool_ID pool)
          then fail_with (pending "waiting for the reserved worker pool identity")
          else
            let allocation := set_PoolID allocation (pool_ID pool) in
            reservation ←! updateReservation reservation allocation "active";
            nodeClaim ←! checkpoint nodeClaim allocation;
            answer ⟵ GetWorkerPool (ClusterID allocation) (PoolID allocation);
            match answer with
            | (_, Some err) => fail_with (wrapped_ "verifying created worker pool" err)
            | (pool, None) => Ret (Ok (pool, allocation, reservation, nodeClaim))
            end
      end
  end.

Definition ensure_pool (nodeClaim : NodeClaim) (allocation : Allocation) (reservation : ConfigMap)
    : iks launch_state :=
  answer ⟵ GetWorkerPool (ClusterID allocation) (al_PoolName allocation);
  match answer with
  | (pool, None) => Ret (Ok (pool, allocation, reservation, nodeClaim))
  | (_, Some err) =>
      if negb (IsNotFound (Some err))
      then fail_with (wrapped_ "looking up reserved worker pool" err)
      else
        now ⟵ Now;
        if creationUncertain reservation now
        then fail_with (pending "worker pool creation outcome remains uncertain; waiting for authoritative visibility")
        else if negb (empty (PoolID allocation))
        then fail ("allocated worker pool " ++ PoolID allocation ++ " disappeared")
        else create_pool nodeClaim allocation reservation
  end.

Definition set_status (node : Node) (name : string) (st : NodeStatus) : Node :=
  {| node_meta :=
       {| Name := name; UID := UID (node_meta node);
          ResourceVersion := ResourceVersion (node_meta node);
          Generation := Generation (node_meta node);
          DeletionTimestamp := DeletionTimestamp (node_meta node);
          CreationTimestamp := CreationTimestamp (node_meta node);
          Labels := Labels (node_meta node); Annotations := Annotations (node_meta node);
          Finalizers := Finalizers (node_meta node) |};
     node_ProviderID := node_ProviderID node;
     Unschedulable := Unschedulable node; OwnerReferences := OwnerReferences node; node_Status := st |}.

Definition no_resources (st : NodeStatus) : bool :=
  (quantity (st_Capacity st) cpu =? 0)%Z || (quantity (st_Capacity st) memory =? 0)%Z ||
  (quantity (st_Allocatable st) cpu =? 0)%Z || (quantity (st_Allocatable st) memory =? 0)%Z.

(** A label of the snapshot the registered node contradicts. *)
Definition label_conflict (allocation : Allocation) (registered : Node) : option string :=
  fst <$> List.find (λ kv, match Labels (node_meta registered) !! kv.1 with
                           | Some actual => negb (String.eqb actual kv.2)
                           | None => false
                           end) (map_range (map_to_list (al_Labels allocation))).

(** What follows the listing of the nodes: the result of the launch. *)
Definition launched_node (nodeClaim : NodeClaim) (allocation : Allocation) (result : Node)
    (registered : option Node) : Prelude.result GoErrors.error Node :=
  match registered with
  | None =>
      if bool_decide (al_Capacity allocation = ∅) || bool_decide (al_Allocatable allocation = ∅)
      then Err (pending "waiting for the allocated worker to register its resources")
      else Ok (set_status result (Name (node_meta result))
                 {| st_Capacity := al_Capacity allocation; st_Allocatable := al_Allocatable allocation;
                    InternalIPs := []; node_Conditions := [] |})
  | Some registered =>
      if no_resources (node_Status registered) then
        if bool_decide (al_Capacity allocation = ∅) || bool_decide (al_Allocatable allocation = ∅)
        then Err (pending "waiting for the allocated worker to register its resources")
        else Ok (set_status result (Name (node_meta result))
                   {| st_Capacity := al_Capacity allocation; st_Allocatable := al_Allocatable allocation;
                      InternalIPs := []; node_Conditions := [] |})
      else if negb (Fits (Requests nodeClaim) (st_Allocatable (node_Status registered)))
      then Err (GoErrors.New "registered IKS worker resources do not satisfy the NodeClaim requests")
      else match label_conflict allocation registered with
           | Some key =>
               Err (GoErrors.New ("registered IKS worker label " ++ key ++ " differs from the provisioning snapshot"))
           | None => Ok (set_status result (Name (node_meta registered)) (node_Status registered))
           end
  end.

(** From the pool to the node. *)
Definition adopt_worker (st : launch_state) : iks Node :=
  let '(pool, allocation, reservation, nodeClaim) := st in
  match validatePool pool allocation, pool with
  | Some operationErr, _ => fail_with operationErr
  | None, None => fail nil_dereference
  | None, Some pool =>
      if negb (SizePerZone pool =? 1)%Z
      then fail "reserved IKS pool no longer targets one worker"
      else
        let allocation := set_PoolID allocation (pool_ID pool) in
        answer ⟵ ListWorkers (ClusterID allocation);
        match answer with
        | Err err => fail_with (wrapped_ "listing allocated workers" err)
        | Ok workers =>
            match select_worker (pool_ID pool) allocation workers None with
            | Err err => fail_with err
            | Ok None => fail_with (pending "waiting for the reserved worker to be provisioned")
            | Ok (Some selected) =>
                if negb (empty (WorkerID allocation)) &&
                   negb (String.eqb (WorkerID allocation) (worker_ID selected))
                then fail "allocated worker identity changed"
                else
                  let allocation := set_WorkerID allocation (worker_ID selected) in
                  _r ←! updateReservation reservation allocation "active";
                  nodeClaim ←! checkpoint nodeClaim allocation;
                  let result := nodeForAllocation allocation selected in
                  answer ⟵ ListNodes;
                  match answer with
                  | Err operationErr => fail_with (wrapped_ "listing registered workers" operationErr)
                  | Ok nodes =>
                      match registeredIn nodes (node_ProviderID result) with
                      | Err err => fail_with err
                      | Ok registered => Ret (launched_node nodeClaim allocation result registered)
                      end
                  end
            end
        end
  end.

(** The part of [createAllocation] under the pool lock. *)
Definition launch_locked (nodeClaim : NodeClaim) (allocation : Allocation) : iks Node :=
  if negb (String.eqb (ClaimUID allocation) (UID (claim_meta nodeClaim)))
  then fail "allocation belongs to another NodeClaim"
  else
    nodeClaim ←! checkpoint nodeClaim allocation;
    reservation ←! reserve allocation;
    allocation ←! Ret (restoreReservation allocation reservation);
    if String.eqb (get (Data reservation) ReservationPhaseKey) "deleting"
    then fail "IKS allocation is terminating"
    else
      c ←! bind getIKSClient (λ r, Ret match r with
             | Ok c => Ok c
             | Err err => Err (wrapped_ "getting IKS client" err)
             end);
      match validateTarget c (AccountID allocation) (al_Region allocation) with
      | Some targetErr => fail_with targetErr
      | None =>
          st ←! ensure_pool nodeClaim allocation reservation;
          adopt_worker st
      end.

(** The allocation of the claim: the one its annotation records, else a new
    one. *)
Definition claim_allocation (nodeClaim : NodeClaim) : iks Allocation :=
  match DecodeAllocation (Annotations (claim_meta nodeClaim)) with
  | Err err => fail_with err
  | Ok (Some allocation) => Ret (Ok allocation)
  | Ok None =>
      match NodeClassRef nodeClaim with
      | Some ref => newAllocation nodeClaim (ref_Name ref)
      | None => fail nil_dereference
      end
  end.

(** The claim as the API server has it, else as the caller does. *)
Definition fresh_claim (nodeClaim : NodeClaim) : iks NodeClaim :=
  answer ⟵ GetNodeClaim (Name (claim_meta nodeClaim));
  match answer with
  | Ok fresh =>
      if negb (String.eqb (UID (claim_meta fresh)) (UID (claim_meta nodeClaim)))
      then fail "NodeClaim identity changed"
      else Ret (Ok fresh)
  | Err operationErr =>
      if kube_IsNotFound operationErr then Ret (Ok nodeClaim)
      else fail_with (wrapped_ "reading NodeClaim" operationErr)
  end.

Definition createAllocation (nodeClaim : option NodeClaim) : iks Node :=
  if negb (kubeClient p) then fail "kubernetes client not set"
  else
    match nodeClaim with
    | None => fail "NodeClaim must reference a NodeClass"
    | Some nodeClaim =>
        match NodeClassRef nodeClaim with
        | None => fail "NodeClaim must reference a NodeClass"
        | Some _ =>
            nodeClaim ←! fresh_claim nodeClaim;
            allocation ←! claim_allocation nodeClaim;
            if bool_decide (is_Some (DeletionTimestamp (claim_meta nodeClaim)))
            then fail "NodeClaim is terminating"
            else
              clusterUID ←! ClusterUID_;
              if negb (String.eqb clusterUID (ClusterUID allocation))
              then fail "IKS allocation belongs to another cluster"
              else with_lock (lock_of (ClusterID allocation) (al_PoolName allocation))
                     (launch_locked nodeClaim allocation)
        end
    end.
End launch.
