(* ===== verification/IksLaunchSafety.v ===== *)
(** * IksLaunchSafety: what every run of an IKS launch guarantees

    The theorems about [createAllocation]: a pool is created only under the
    lock, with the claim's finalizer and the reservation durable, and when no
    earlier request can still produce one; a returned node is the one worker
    of the claim's own pool.  They hold for every answer the Kubernetes and
    IKS APIs may give. *)
From stdpp Require Import prelude list strings gmap.
From S2P Require Import Prelude GoLib GoSort GoRegexp Errors NodeClass.
From S2P Require Import ProviderIDs Ownership Prog Kube IksApi IksAllocation IksLaunch.

Open Scope nat_scope.
Open Scope list_scope.

(** ** Locks and the calls that change IKS *)
Definition quiet (R : Type) (e : iks_call R) : bool :=
  match e with
  | Lock _ | Unlock _ | CreateWorkerPool _ _ | DeleteWorkerPool _ _ => false
  | DeleteConfigMap _ _ _ | DeleteNode _ _ => false
  | _ => true
  end.

Definition is_deletion {R} (e : iks_call R) : bool :=
  match e with
  | DeleteWorkerPool _ _ | DeleteConfigMap _ _ _ | DeleteNode _ _ => true
  | _ => false
  end.

(** The lock is held: it was taken and not released since. *)
Fixpoint held (h : history iks_call) (l : string) : bool :=
  match h with
  | [] => false
  | Did e _ :: h' =>
      match e with
      | Lock l' => String.eqb l l' || held h' l
      | Unlock l' => negb (String.eqb l l') && held h' l
      | _ => held h' l
      end
  end.

(** No pool was created. *)
Fixpoint no_create (h : history iks_call) : bool :=
  match h with
  | [] => true
  | Did e _ :: h' => match e with CreateWorkerPool _ _ => false | _ => no_create h' end
  end.

Lemma held_quiet l h x : Forall (event_is quiet) l → held (l ++ h) x = held h x.
Proof.
  induction 1 as [|[R e r] l He Hl IH]; [done|]. cbn [app held]. by destruct e.
Qed.

Lemma no_create_quiet l h : Forall (event_is quiet) l → no_create (l ++ h) = no_create h.
Proof.
  induction 1 as [|[R e r] l He Hl IH]; [done|]. cbn [app no_create]. by destruct e.
Qed.

(** The condition the program branches on next. *)
Ltac split_if :=
  match goal with
  | |- only _ (if ?b then _ else _) => destruct b eqn:?
  | |- wp _ (if ?b then _ else _) _ _ => destruct b eqn:?
  end.

Section quiet.
Context `{Stdlib} `{Karpenter} `{MapRange} (p : IKSWorkerPoolProvider).

Lemma fresh_claim_quiet c : only quiet (fresh_claim c).
Proof. unfold fresh_claim. solve_quiet. Qed.
Lemma ClusterUID_quiet : only quiet (ClusterUID_ p).
Proof. unfold ClusterUID_. solve_quiet. Qed.
Lemma getIKSClient_quiet : only quiet (getIKSClient p).
Proof. unfold getIKSClient. solve_quiet. Qed.
Lemma checkpoint_quiet c a : only quiet (checkpoint c a).
Proof. unfold checkpoint. solve_quiet. Qed.
Lemma reserve_quiet a : only quiet (reserve a).
Proof. unfold reserve. solve_quiet. Qed.
Lemma updateReservation_quiet cm a ph : only quiet (updateReservation cm a ph).
Proof. unfold updateReservation. solve_quiet. Qed.
Lemma validateInstanceType_quiet c n f : only quiet (validateInstanceType p c n f).
Proof. unfold validateInstanceType. solve_quiet. Qed.
Lemma resolve_flavor_quiet c n k : only quiet (resolve_flavor c n k).
Proof. unfold resolve_flavor. solve_quiet. Qed.
Lemma allocate_quiet c n k : only quiet (allocate p c n k).
Proof.
  unfold allocate. apply only_try; [apply ClusterUID_quiet|]. intros u. cbv zeta.
  do 2 (split_if; [done|]). apply only_try; [apply resolve_flavor_quiet|]. intros f.
  do 2 (split_if; [done|]).
  apply only_try; [apply validateInstanceType_quiet|]. intros ls. solve_quiet.
Qed.
Lemma newAllocation_quiet c n : only quiet (newAllocation p c n).
Proof.
  unfold newAllocation. split; [done|]. intros [nc|e]; [|done]. cbv zeta.
  split_if; [done|].
  apply only_try; [apply getIKSClient_quiet|]. intros _.
  do 3 (split_if; [done|]). apply allocate_quiet.
Qed.
Lemma claim_allocation_quiet c : only quiet (claim_allocation p c).
Proof.
  unfold claim_allocation. destruct (DecodeAllocation _) as [[a|]|e]; try done.
  destruct (NodeClassRef c); [apply newAllocation_quiet|done].
Qed.
Lemma adopt_worker_quiet st : only quiet (adopt_worker st).
Proof.
  destruct st as [[[pool a] cm] c]. unfold adopt_worker.
  destruct (validatePool pool a); [done|]. destruct pool as [pool|]; [|done].
  split_if; [done|]. cbv zeta. split; [done|]. intros [ws|e]; [|done].
  destruct (select_worker _ _ _ _) as [[w|]|e]; try done.
  split_if; [done|]. apply only_try; [apply updateReservation_quiet|]. intros _.
  apply only_try; [apply checkpoint_quiet|]. intros c'. solve_quiet.
Qed.
End quiet.
#[export] Hint Resolve fresh_claim_quiet ClusterUID_quiet getIKSClient_quiet checkpoint_quiet
  reserve_quiet updateReservation_quiet newAllocation_quiet claim_allocation_quiet
  adopt_worker_quiet : go_db.

(** ** What a call sequence establishes *)
Section posts.
Context `{Stdlib} `{Karpenter} `{MapRange} (p : IKSWorkerPoolProvider).

(** The claim's checkpoint is durable: the server accepted, for the claim that
    has the allocation's UID and is not being deleted, a patch that records
    the allocation and adds the finalizer. *)
Definition durable_claim (h : history iks_call) (a : Allocation) : Prop :=
  ∃ stored updated data,
    UID (claim_meta stored) = ClaimUID a ∧ DeletionTimestamp (claim_meta stored) = None ∧
    Marshal a = Ok data ∧
    asked h (PatchNodeClaim stored
               (set_meta stored (checkpointed_meta (claim_meta stored) data a))) (Ok updated).

(** The reservation was read, or created by this process, and is owned by the
    allocation's claim. *)
Definition durable_reservation (h : history iks_call) (cm : ConfigMap) (a : Allocation) : Prop :=
  foreign_reservation cm a = false ∧
  (asked h (GetConfigMap (key_of a)) (Ok cm) ∨
   ∃ data, Marshal a = Ok data ∧
     asked h (CreateConfigMap (new_reservation (key_of a) a data)) (Ok cm)).

Lemma durable_claim_app l h a : durable_claim h a → durable_claim (l ++ h) a.
Proof.
  intros (s & u & d & ? & ? & ? & ?). exists s, u, d. split_and!; try done. by apply asked_app.
Qed.
Lemma durable_reservation_app l h cm a :
  durable_reservation h cm a → durable_reservation (l ++ h) cm a.
Proof.
  intros [? [Ha|(d & ? & Ha)]]; (split; [done|]); [left|right; exists d; split; [done|]];
    by apply asked_app.
Qed.

Context (G : guard (E := iks_call)).
Context (HG : ∀ h R e, quiet R e = true → G h R e).

Lemma wp_try_quiet {A B} (q : prog iks_call (result GoErrors.error A))
    (f : A → prog iks_call (result GoErrors.error B)) h Q
    (Post : history iks_call → result GoErrors.error A → Prop) :
  only quiet q → wp G q h Post →
  (∀ l a, Forall (event_is quiet) l → Post (l ++ h) (Ok a) → wp G (f a) (l ++ h) Q) →
  (∀ l e, Forall (event_is quiet) l → Q (l ++ h) (Err e)) →
  wp G (try q f) h Q.
Proof.
  apply wp_try_only, HG.
Qed.

Lemma wp_any {A} (q : prog iks_call A) h : only quiet q → wp G q h (λ _ _, True).
Proof. apply wp_only_any, HG. Qed.

Lemma checkpoint_wp c a h :
  wp G (checkpoint c a) h (λ h' r, match r with Ok _ => durable_claim h' a | Err _ => True end).
Proof.
  unfold checkpoint. split; [by apply HG|]. intros [fresh|e]; [|done].
  split_if; [done|]. destruct (Marshal a) as [data|e] eqn:Em; [|done]. cbv zeta.
  split; [by apply HG|]. intros [updated|e]; [|done]. cbn.
  bool_to_prop. exists fresh, updated, data. split_and!; try done; [|by apply asked_here].
  by apply eq_None_not_Some.
Qed.

Lemma reserve_wp a h :
  wp G (reserve a) h (λ h' r, match r with Ok cm => durable_reservation h' cm a | Err _ => True end).
Proof.
  unfold reserve, owned_reservation. cbv zeta. split; [by apply HG|]. intros [cm|e].
  - cbn. destruct (foreign_reservation cm a) eqn:Ef; [done|]. split; [done|].
    left. by apply asked_here.
  - split_if; [|done]. destruct (Marshal a) as [data|e'] eqn:Em; [|done].
    split; [by apply HG|]. intros [cm|e']; [|done].
    cbn. destruct (foreign_reservation cm a) eqn:Ef; [done|]. split; [done|].
    right. exists data. split; [done|]. by apply asked_here.
Qed.

Lemma updateReservation_wp cm a ph h :
  wp G (updateReservation cm a ph) h (λ h' r,
    match r with
    | Ok cm' => ∃ data now, Marshal a = Ok data ∧
        h' = Did (PatchConfigMap cm
                    (set_data cm (phase_data (Data cm) data ph (PoolID a) now))) (Ok cm')
             :: Did Now now :: h
    | Err _ => True
    end).
Proof.
  unfold updateReservation. destruct (Marshal a) as [data|e] eqn:Em; [|done].
  split; [by apply HG|]. intros now. cbv zeta. split; [by apply HG|]. intros [cm'|e]; [|done].
  exists data, now. done.
Qed.
End posts.

(** The locks are as they were before some quiet calls. *)
Ltac same_locks H :=
  let x := fresh in
  intros x; first [apply H | rewrite ?held_quiet by done; apply H
                  | cbn [held]; rewrite ?held_quiet by done; apply H].

(** ** When a pool may be created *)
Section safety.
Context `{Stdlib} `{Karpenter} `{MapRange} (p : IKSWorkerPoolProvider).

(** The history before a creation: the reservation was just marked as being
    created, after a lookup that found no pool of that name and no earlier
    creation that could still produce one; under the lock; with the claim and
    the reservation durable; and this run created nothing before. *)
Definition may_create (h : history iks_call) (clusterID : string) (req : WorkerPoolCreateRequest)
    : Prop :=
  ∃ a a0 cm cm' snapshot now t pool e h',
    h = Did (PatchConfigMap cm
               (set_data cm (phase_data (Data cm) snapshot "creating" "" now))) (Ok cm')
        :: Did Now now :: Did Now t
        :: Did (GetWorkerPool clusterID (al_PoolName a)) (pool, Some e) :: h' ∧
    clusterID = ClusterID a ∧ req = Request a ∧ PoolID a = ""%string ∧ Marshal a = Ok snapshot ∧
    IsNotFound_ e = true ∧ creationUncertain cm t = false ∧
    get (Data cm) ReservationPhaseKey ≠ "deleting"%string ∧
    restoreReservation a0 cm = Ok a ∧ durable_reservation h' cm a0 ∧ durable_claim h' a0 ∧
    held h' (lock_of (ClusterID a) (al_PoolName a)) = true ∧ no_create h' = true.

Definition launch_guard : guard := λ h _ e,
  match e with
  | CreateWorkerPool c req => may_create h c req
  | DeleteWorkerPool _ _ | DeleteConfigMap _ _ _ | DeleteNode _ _ => False
  | Lock _ => ∀ l, held h l = false
  | Unlock l => held h l = true
  | _ => True
  end.

Lemma launch_guard_quiet h R e : quiet R e = true → launch_guard h R e.
Proof. by destruct e. Qed.

Local Abbreviation Inv L := (λ h (_ : result GoErrors.error _), ∀ l, held h l = String.eqb l L).

Lemma wp_quiet_inv {A} (q : prog iks_call (result GoErrors.error A)) h L :
  only quiet q → (∀ l, held h l = String.eqb l L) → wp launch_guard q h (Inv L).
Proof.
  intros Hq Hh. eapply wp_mono; [|apply (wp_only _ _ _ h launch_guard_quiet Hq)].
  intros h' a (l & -> & Hl). same_locks Hh.
Qed.

Lemma restore_with_ids a0 cm a :
  restoreReservation a0 cm = Ok a → a = with_ids a0 (PoolID a) (WorkerID a).
Proof.
  unfold restoreReservation. destruct (DecodeAllocation _) as [[r|]|]; try done.
  destruct (Marshal _); [|done]. destruct (Marshal _); [|done].
  repeat (case_match; [done|]). by intros [= <-].
Qed.

Lemma create_pool_wp c a a0 cm h t pool e :
  let L := lock_of (ClusterID a) (al_PoolName a) in
  let h1 := Did Now t :: Did (GetWorkerPool (ClusterID a) (al_PoolName a)) (pool, Some e) :: h in
  (∀ l, held h l = String.eqb l L) → no_create h = true →
  PoolID a = ""%string → IsNotFound_ e = true → creationUncertain cm t = false →
  get (Data cm) ReservationPhaseKey ≠ "deleting"%string →
  restoreReservation a0 cm = Ok a → durable_reservation h cm a0 → durable_claim h a0 →
  wp launch_guard (create_pool c a cm) h1 (Inv L).
Proof.
  intros L h1 Hh Hn Hp He Hu Hd Hr Hdr Hdc. unfold create_pool.
  apply (wp_try_quiet launch_guard launch_guard_quiet _ _ _ _ _ (updateReservation_quiet cm a _)
    (updateReservation_wp launch_guard launch_guard_quiet cm a _ h1)).
  2:{ intros l err Hl. same_locks Hh. }
  intros l cm' Hl (data & now & Em & Eh).
  assert (Hheld : ∀ x, held (l ++ h1) x = String.eqb x L) by same_locks Hh.
  split.
  { cbn [launch_guard]. rewrite Eh, Hp. exists a, a0, cm, cm', data, now, t, pool, e, h.
    split_and!; try done. by rewrite Hh, String.eqb_refl. }
  intros [pool' [err|]].
  - split_if; [|same_locks Hheld].
    apply wp_bind. eapply wp_mono; [|apply wp_quiet_inv; [apply updateReservation_quiet|same_locks Hheld]].
    intros h' [cm2|err2] Hx; done.
  - destruct pool' as [pool'|]; [|same_locks Hheld]. split_if; [same_locks Hheld|]. cbv zeta.
    apply wp_quiet_inv; [|same_locks Hheld].
    apply only_try; [apply updateReservation_quiet|]. intros cm2.
    apply only_try; [apply checkpoint_quiet|]. intros c2. solve_quiet.
Qed.

Lemma ensure_pool_wp c a a0 cm h :
  let L := lock_of (ClusterID a) (al_PoolName a) in
  (∀ l, held h l = String.eqb l L) → no_create h = true →
  get (Data cm) ReservationPhaseKey ≠ "deleting"%string →
  restoreReservation a0 cm = Ok a → durable_reservation h cm a0 → durable_claim h a0 →
  wp launch_guard (ensure_pool c a cm) h (Inv L).
Proof.
  intros L Hh Hn Hd Hr Hdr Hdc. unfold ensure_pool. split; [done|].
  intros [pool [e|]]; [|same_locks Hh]. cbn [IsNotFound].
  split_if; [same_locks Hh|]. split; [done|]. intros t.
  split_if; [same_locks Hh|]. split_if; [same_locks Hh|].
  apply (create_pool_wp c a a0 cm h t pool e); try done.
  - bool_to_prop. by apply String.eqb_eq.
  - by bool_to_prop.
Qed.

Lemma launch_locked_wp c a h :
  let L := lock_of (ClusterID a) (al_PoolName a) in
  (∀ l, held h l = String.eqb l L) → no_create h = true →
  wp launch_guard (launch_locked p c a) h (Inv L).
Proof.
  intros L Hh Hn. unfold launch_locked. split_if; [done|].
  apply (wp_try_quiet launch_guard launch_guard_quiet _ _ _ _ _ (checkpoint_quiet c a)
    (checkpoint_wp launch_guard launch_guard_quiet c a h)).
  2:{ intros l e Hl. same_locks Hh. }
  intros l c' Hl Hdc.
  apply (wp_try_quiet launch_guard launch_guard_quiet _ _ _ _ _ (reserve_quiet a)
    (reserve_wp launch_guard launch_guard_quiet a _)).
  2:{ intros l' e Hl'. same_locks Hh. }
  intros l' cm Hl' Hdr. cbn [try bind].
  destruct (restoreReservation a cm) as [a'|e] eqn:Er; [|intros x; by rewrite !held_quiet].
  split_if; [same_locks Hh|].
  pose proof (restore_with_ids _ _ _ Er) as Ea.
  apply (durable_claim_app l') in Hdc.
  apply (wp_try_quiet launch_guard launch_guard_quiet _ _ _ _ (λ _ _, True)).
  { apply only_bind; [apply getIKSClient_quiet|done]. }
  { apply (wp_any _ launch_guard_quiet).
    apply only_bind; [apply getIKSClient_quiet|done]. }
  2:{ intros l2 e Hl2. same_locks Hh. }
  intros l2 ic Hl2 _.
  assert (Hheld : ∀ x, held (l2 ++ l' ++ l ++ h) x = String.eqb x L)
    by same_locks Hh.
  destruct (validateTarget _ _ _ _); [done|].
  assert (HL : lock_of (ClusterID a') (al_PoolName a') = L) by (by rewrite Ea).
  apply wp_try. eapply wp_mono; [|apply (ensure_pool_wp c' a' a cm)].
  - intros h' [st|e] Hx; rewrite HL in Hx; [|done].
    by apply wp_quiet_inv; [apply adopt_worker_quiet|].
  - by rewrite HL.
  - by rewrite !no_create_quiet.
  - by apply String.eqb_neq.
  - done.
  - by apply durable_reservation_app.
  - by apply durable_claim_app.
Qed.
End safety.

(** ** The theorems *)
Section theorems.
Context `{Stdlib} `{Karpenter} `{MapRange} (p : IKSWorkerPoolProvider).

Lemma createAllocation_wp c :
  wp launch_guard (createAllocation p c) [] (λ h _, ∀ l, held h l = false).
Proof.
  unfold createAllocation. split_if; [done|]. destruct c as [c|]; [|done].
  destruct (NodeClassRef c); [|done].
  apply (wp_try_quiet launch_guard launch_guard_quiet _ _ _ _ (λ _ _, True) (fresh_claim_quiet c)).
  { apply (wp_any _ launch_guard_quiet), fresh_claim_quiet. }
  2:{ intros l e Hl x. by rewrite held_quiet. }
  intros l1 c1 Hl1 _.
  apply (wp_try_quiet launch_guard launch_guard_quiet _ _ _ _ (λ _ _, True) (claim_allocation_quiet p c1)).
  { apply (wp_any _ launch_guard_quiet), claim_allocation_quiet. }
  2:{ intros l e Hl x. by rewrite !held_quiet. }
  intros l2 a Hl2 _. split_if; [intros x; by rewrite !held_quiet|].
  apply (wp_try_quiet launch_guard launch_guard_quiet _ _ _ _ (λ _ _, True) (ClusterUID_quiet p)).
  { apply (wp_any _ launch_guard_quiet), ClusterUID_quiet. }
  2:{ intros l e Hl x. by rewrite !held_quiet. }
  intros l3 u Hl3 _. split_if; [intros x; by rewrite !held_quiet|].
  unfold with_lock. split; [intros x; by rewrite !held_quiet|]. intros [].
  apply wp_bind. eapply wp_mono; [|apply launch_locked_wp].
  - intros h r Hx. split; [cbn; by rewrite Hx, String.eqb_refl|]. intros [] x.
    cbn. rewrite Hx. by destruct (String.eqb x _).
  - intros x. cbn. rewrite !held_quiet by done. by rewrite orb_false_r.
  - cbn. by rewrite !no_create_quiet.
Qed.

(** C2. Whatever the Kubernetes and IKS APIs answer, a launch asks IKS for a
    pool at most once, and only when the claim's finalizer and annotation and
    the pool's reservation are already stored, the reservation has just been
    marked as being created, IKS has said that no pool of that name exists,
    and no earlier request can still produce one; the request is the one of
    the stored snapshot.  It deletes no pool, reservation or node, and it
    releases the pool lock on every path. *)
Theorem launch_creates_safely (nodeClaim : option NodeClaim) (tr : history iks_call)
    (r : result GoErrors.error Node)
    (Hrun : runs (createAllocation p nodeClaim) tr r) :
  (∀ before c req answer after,
     tr = before ++ Did (CreateWorkerPool c req) answer :: after →
     may_create (reverse before) c req) ∧
  (∀ before R (e : iks_call R) answer after, tr = before ++ Did e answer :: after →
     is_deletion e = false) ∧
  (∀ l, held (reverse tr) l = false).
Proof.
  destruct (wp_sound _ _ _ _ _ _ (createAllocation_wp nodeClaim) Hrun) as [Hg HQ].
  rewrite app_nil_r in HQ. split_and!; [| |done].
  - intros before c req answer after ->. apply guarded_at in Hg. by rewrite app_nil_r in Hg.
  - intros before R e answer after ->. apply guarded_at in Hg. by destruct e.
Qed.

(** *** The node a launch returns *)
Definition anything : guard (E := iks_call) := λ _ _ _, True.

Lemma select_worker_selected poolID a ws s x :
  select_worker poolID a ws (Some s) = Ok x →
  List.filter (live_in poolID) ws = [] ∧ x = Some s.
Proof.
  revert x. induction ws as [|[w|] ws IH]; intros x; cbn [select_worker List.filter].
  - by intros [= <-].
  - destruct (live_in poolID (Some w)); [done|]. apply IH.
  - apply IH.
Qed.

(** A worker in the zone, of the flavor and on the subnet of the request. *)
Definition worker_matches (a : Allocation) (w : IKSWorkerDetails) : Prop :=
  worker_ID w ≠ ""%string ∧ Location w = zone_ID (zone0 a) ∧
  worker_Flavor w = rq_Flavor (Request a) ∧ primary_subnet w = zone_SubnetID (zone0 a).

Lemma select_worker_one poolID a ws w :
  select_worker poolID a ws None = Ok (Some w) →
  List.filter (live_in poolID) ws = [Some w] ∧ worker_matches a w.
Proof.
  induction ws as [|[w'|] ws IH]; cbn [select_worker List.filter]; [done| |done].
  destruct (live_in poolID (Some w')) eqn:El; cbn [negb]; [|done].
  destruct (_ || _) eqn:E1; [done|].
  destruct (empty (primary_subnet w')) eqn:E2; [done|].
  destruct (negb (String.eqb (primary_subnet w') _)) eqn:E3; [done|]. intros [-> [= <-]]%select_worker_selected.
  split; [done|]. unfold empty in *. bool_to_prop. done.
Qed.

(** What the history shows of a returned node: the allocation [a] it was
    launched for, its pool and its worker. *)
Definition launched (h : history iks_call) (claimUID : string) (node : Node) : Prop :=
  ∃ a pool w workers q data,
    ClaimUID a = claimUID ∧ Marshal a = Ok data ∧
    PoolID a = pool_ID pool ∧ WorkerID a = worker_ID w ∧ worker_matches a w ∧
    asked h (GetWorkerPool (ClusterID a) q) (Some pool, None) ∧
    (∃ recorded, validatePool (Some pool) (set_PoolID a recorded) = None) ∧ SizePerZone pool = 1%Z ∧
    asked h (ListWorkers (ClusterID a)) (Ok workers) ∧
    List.filter (live_in (PoolID a)) workers = [Some w] ∧
    (∃ cm now cm', asked h (PatchConfigMap cm
       (set_data cm (phase_data (Data cm) data "active" (PoolID a) now))) (Ok cm')) ∧
    durable_claim h a ∧
    node_ProviderID node = iks_provider_id (AccountID a) (ClusterID a) (WorkerID a) ∧
    get (Annotations (node_meta node)) AllocationAnnotation = data.

Lemma anything_quiet h R (e : iks_call R) : quiet R e = true → anything h R e.
Proof. done. Qed.

Lemma launched_node_identity c a result reg node :
  launched_node c a result reg = Ok node →
  node_ProviderID node = node_ProviderID result ∧
  Annotations (node_meta node) = Annotations (node_meta result).
Proof.
  unfold launched_node. destruct reg as [reg|].
  - repeat case_match; try done; by intros [= <-].
  - case_match; [done|]. by intros [= <-].
Qed.

Lemma adopt_worker_wp pool a cm c h claimUID :
  ClaimUID a = claimUID →
  (∀ x, pool = Some x → ∃ q, asked h (GetWorkerPool (ClusterID a) q) (Some x, None)) →
  wp anything (adopt_worker (pool, a, cm, c)) h
    (λ h' r, match r with Ok node => launched h' claimUID node | Err _ => True end).
Proof.
  intros Huid Hpool. unfold adopt_worker.
  destruct (validatePool pool a) as [e|] eqn:Ev; [done|]. destruct pool as [pool|]; [|done].
  destruct (Hpool _ eq_refl) as [q Hq].
  split_if; [done|]. cbv zeta. split; [done|]. intros [workers|e]; [|done].
  destruct (select_worker _ _ _ _) as [[w|]|e] eqn:Es; try done.
  apply select_worker_one in Es as [Hone Hmatch].
  split_if; [done|]. set (a2 := set_WorkerID (set_PoolID a (pool_ID pool)) (worker_ID w)).
  apply (wp_try_quiet anything anything_quiet _ _ _ _ _ (updateReservation_quiet cm a2 _)
    (updateReservation_wp anything anything_quiet cm a2 _ _)); [|done].
  intros l cm' Hl (data & now & Em & Eh).
  apply (wp_try_quiet anything anything_quiet _ _ _ _ _ (checkpoint_quiet c a2)
    (checkpoint_wp anything anything_quiet c a2 _)); [|done].
  intros l' c' Hl' Hdc. split; [done|]. intros [nodes|e]; [|done].
  destruct (registeredIn _ _) as [reg|e]; [|done].
  cbn [wp]. destruct (launched_node _ _ _ _) as [node|e] eqn:En; [|done].
  apply launched_node_identity in En as [Ep Ea].
  exists a2, pool, w, workers, q, data. split_and!; try done.
  - apply asked_later, asked_app, asked_app, asked_later. exact Hq.
  - exists (PoolID a). unfold a2, set_WorkerID, set_PoolID. by destruct a.
  - bool_to_prop. by apply Z.eqb_eq.
  - apply asked_later, asked_app, asked_app, asked_here.
  - exists cm, now, cm'. apply asked_later, asked_app. rewrite Eh. apply asked_here.
  - by apply (durable_claim_app [_]).
  - by rewrite Ea; cbn; rewrite Em.
Qed.

(** The pool of a launch was read from IKS by this run. *)
Definition pool_read (a : Allocation) (h : history iks_call)
    (r : result GoErrors.error launch_state) : Prop :=
  match r with
  | Ok (pool, a', _, _) =>
      ClaimUID a' = ClaimUID a ∧
      ∀ x, pool = Some x → ∃ q, asked h (GetWorkerPool (ClusterID a') q) (Some x, None)
  | Err _ => True
  end.

Lemma ensure_pool_read c a cm h : wp anything (ensure_pool c a cm) h (pool_read a).
Proof.
  unfold ensure_pool. split; [done|]. intros [pool [e|]].
  2:{ split; [done|]. intros x ->. exists (al_PoolName a). apply asked_here. }
  split_if; [done|]. split; [done|]. intros t. do 2 (split_if; [done|]). unfold create_pool.
  apply (wp_try_quiet anything anything_quiet _ _ _ _ (λ _ _, True) (updateReservation_quiet _ _ _));
    [by apply (wp_any _ anything_quiet), updateReservation_quiet| |done].
  intros l cm' _ _. split; [done|]. intros [pool' [err|]].
  { split_if; [|done]. apply wp_bind.
    eapply wp_mono; [|apply (wp_any _ anything_quiet), updateReservation_quiet].
    by intros h' [?|?] _. }
  destruct pool' as [pool'|]; [|done]. split_if; [done|]. cbv zeta.
  apply (wp_try_quiet anything anything_quiet _ _ _ _ (λ _ _, True) (updateReservation_quiet _ _ _));
    [by apply (wp_any _ anything_quiet), updateReservation_quiet| |done].
  intros l2 cm2 _ _.
  apply (wp_try_quiet anything anything_quiet _ _ _ _ (λ _ _, True) (checkpoint_quiet _ _));
    [by apply (wp_any _ anything_quiet), checkpoint_quiet| |done].
  intros l3 c3 _ _. split; [done|]. intros [pool2 [e2|]]; [done|].
  split; [done|]. intros x ->. exists (pool_ID pool'). apply asked_here.
Qed.

Lemma launch_locked_launched c a h :
  wp anything (launch_locked p c a) h
    (λ h' r, match r with Ok node => launched h' (UID (claim_meta c)) node | Err _ => True end).
Proof.
  unfold launch_locked. split_if; [done|].
  apply (wp_try_quiet anything anything_quiet _ _ _ _ (λ _ _, True) (checkpoint_quiet _ _));
    [by apply (wp_any _ anything_quiet), checkpoint_quiet| |done].
  intros l1 c1 _ _.
  apply (wp_try_quiet anything anything_quiet _ _ _ _ (λ _ _, True) (reserve_quiet _));
    [by apply (wp_any _ anything_quiet), reserve_quiet| |done].
  intros l2 cm _ _. cbn [try bind].
  destruct (restoreReservation a cm) as [a'|e] eqn:Er; [|done].
  apply restore_with_ids in Er. split_if; [done|].
  apply wp_try. eapply wp_mono; [|apply (wp_any _ anything_quiet)].
  2:{ apply only_bind; [apply getIKSClient_quiet|done]. }
  intros h' [ic|e] _; [|done]. destruct (validateTarget _ _ _ _); [done|].
  apply wp_try. eapply wp_mono; [|apply ensure_pool_read].
  intros h2 [[[[pool a2] cm2] c2]|e]; [|done]. intros [Hu Hp].
  apply adopt_worker_wp; [|done]. rewrite Hu, Er. cbn. by bool_to_prop.
Qed.

Lemma launched_later ev h u node : launched h u node → launched (ev :: h) u node.
Proof.
  intros (a & pool & w & ws & q & data & H2 & H3 & H4 & H5 & H6 & H7 & H8 & H9 & H10 & H11 &
    (cm & now & cm' & H12) & H13 & H14 & H15).
  exists a, pool, w, ws, q, data. split_and!; try done; try by right.
  - exists cm, now, cm'. by right.
  - by apply (durable_claim_app [ev]).
Qed.

Lemma createAllocation_launched c :
  wp anything (createAllocation p (Some c)) []
    (λ h r, match r with Ok node => launched h (UID (claim_meta c)) node | Err _ => True end).
Proof.
  unfold createAllocation. split_if; [done|]. destruct (NodeClassRef c); [|done].
  apply wp_try.
  eapply wp_mono with (Q := λ _ r, match r with Ok c1 => UID (claim_meta c1) = UID (claim_meta c) | _ => True end).
  2:{ unfold fresh_claim. split; [done|]. intros [fresh|e].
      - split_if; [done|]. cbn. by bool_to_prop.
      - split_if; done. }
  intros h [c1|e]; [|done]. intros Hu.
  apply (wp_try_quiet anything anything_quiet _ _ _ _ (λ _ _, True) (claim_allocation_quiet _ _));
    [by apply (wp_any _ anything_quiet), claim_allocation_quiet| |done].
  intros l a _ _. split_if; [done|].
  apply (wp_try_quiet anything anything_quiet _ _ _ _ (λ _ _, True) (ClusterUID_quiet p));
    [by apply (wp_any _ anything_quiet), ClusterUID_quiet| |done].
  intros l2 u _ _. split_if; [done|]. unfold with_lock. split; [done|]. intros [].
  apply wp_bind. eapply wp_mono; [|apply launch_locked_launched].
  intros h' [node|e] Hl; [|by split]. split; [done|]. intros []. cbn.
  rewrite <-Hu. by apply launched_later.
Qed.

(** C27. A launch that returns a node returns the claim's own worker: IKS listed
    exactly one live worker in the claim's pool, in the zone, of the flavor
    and on the subnet of the snapshot; the pool was read back and carries the
    claim's ownership labels; the claim's annotation, the reservation and the
    node record the same allocation, with the pool's and the worker's
    identities; and the node's provider ID names that worker. *)
Theorem launch_returns_own_worker (nodeClaim : NodeClaim) (tr : history iks_call) (node : Node)
    (Hrun : runs (createAllocation p (Some nodeClaim)) tr (Ok node)) :
  launched (reverse tr) (UID (claim_meta nodeClaim)) node.
Proof.
  destruct (wp_sound _ _ _ _ _ _ (createAllocation_launched nodeClaim) Hrun) as [_ HQ].
  by rewrite app_nil_r in HQ.
Qed.
End theorems.
