(* ===== verification/IksCleanup.v ===== *)
(** * IksCleanup: looking up, releasing and deleting IKS allocations

    The rest of [pkg/providers/iks/workerpool/allocation.go]: the lookup of a
    worker, the listing of the claims' workers, the deletion of an
    allocation's pool and of its reservation, and the deletion of an empty
    pool by the pool cleanup controller. *)
From stdpp Require Import prelude list strings gmap.
From S2P Require Import Prelude GoLib GoSort GoRegexp Errors NodeClass.
From S2P Require Import ProviderIDs Ownership Prog Kube IksApi IksAllocation IksLaunch.

Open Scope string_scope.
Open Scope nat_scope.
Open Scope prog_scope.

Section cleanup.
Context `{Stdlib} `{Karpenter} `{MapRange}.
Context (p : IKSWorkerPoolProvider).

Local Abbreviation iks A := (prog iks_call (result GoErrors.error A)).
(** An operation that only returns an error. *)
Local Abbreviation iks_err := (prog iks_call err).

Definition no_error : iks_err := Ret None.
Definition error_ (message : string) : iks_err := Ret (Some (GoErrors.New message)).
Definition error_with (e : GoErrors.error) : iks_err := Ret (Some e).
(** [x, err := q; if err != nil { return err }] *)
Definition check {A} (q : iks A) (f : A → iks_err) : iks_err :=
  bind q (λ r, match r with Ok a => f a | Err e => error_with e end).

(** ** Lookups *)
Definition has_reader : bool := apiReader p || kubeClient p.

(** One fresh read of the claims and the nodes; [None] without a reader. *)
Definition inventory := (list NodeClaim * list Node)%type.

Definition readInventory : iks (option inventory) :=
  if negb has_reader then Ret (Ok None)
  else
    answer ⟵ ListNodeClaims;
    match answer with
    | Err err => fail_with err
    | Ok claims =>
        answer ⟵ ListNodes;
        match answer with
        | Err err => fail_with (wrapped_ "listing registered workers" err)
        | Ok nodes => Ret (Ok (Some (claims, nodes)))
        end
    end.

(** The allocation of the first claim that records the worker; a claim whose
    annotation does not decode is skipped. *)
Fixpoint birth (claims : list NodeClaim) (accountID clusterID workerID : string) : option Allocation :=
  match claims with
  | [] => None
  | claim :: claims' =>
      match DecodeAllocation (Annotations (claim_meta claim)) with
      | Ok (Some allocation) =>
          if String.eqb (AccountID allocation) accountID && String.eqb (ClusterID allocation) clusterID
               && String.eqb (WorkerID allocation) workerID
          then Some allocation
          else birth claims' accountID clusterID workerID
      | _ => birth claims' accountID clusterID workerID
      end
  end.

(** The node of a worker that exists. *)
Definition worker_result (providerID accountID clusterID : string) (current : option inventory)
    (birthAllocation : option Allocation) (worker : IKSWorkerDetails) : result GoErrors.error Node :=
  let node :=
    match birthAllocation with
    | Some allocation => nodeForAllocation allocation worker
    | None => workerNode accountID clusterID (ExtractRegionFromZone (Location worker)) worker
    end in
  match current with
  | None => Ok node
  | Some (_, nodes) =>
      match registeredIn nodes providerID with
      | Err err => Err err
      | Ok None => Ok node
      | Ok (Some registered) =>
          Ok (set_status node (Name (node_meta registered)) (node_Status registered))
      end
  end.

Definition getWorkerFrom (providerID : string) (current : option inventory) : iks Node :=
  match ParseProviderID providerID with
  | Err err => fail_with err
  | Ok (accountID, clusterID, workerID) =>
      c ←! getIKSClient p;
      let birthAllocation :=
        match current with
        | Some (claims, _) => birth claims accountID clusterID workerID
        | None => None
        end in
      let birthRegion := match birthAllocation with Some a => al_Region a | None => "" end in
      match validateTarget p c accountID birthRegion with
      | Some targetErr => fail_with targetErr
      | None =>
          answer ⟵ GetWorkerDetails clusterID workerID;
          let '(worker, err) := answer in
          match err with
          | Some err =>
              if IsNotFound (Some err) then
                if empty birthRegion
                then fail_with (wrapped_ "worker absence cannot be confirmed without immutable region identity" err)
                else fail_with (NodeClaimNotFound (wrapped_ ("worker " ++ workerID ++ " not found") err))
              else fail_with (wrapped_ ("getting worker " ++ workerID) err)
          | None =>
              match worker with
              | None => fail "worker response has unexpected identity"
              | Some worker =>
                  if negb (String.eqb (worker_ID worker) workerID)
                  then fail "worker response has unexpected identity"
                  else if String.eqb (ActualState (Lifecycle worker)) "deleted" then
                    if empty birthRegion
                    then fail "worker deletion cannot be confirmed without immutable region identity"
                    else fail_with (NodeClaimNotFound (GoErrors.New ("worker " ++ workerID ++ " is deleted")))
                  else Ret (worker_result providerID accountID clusterID current birthAllocation worker)
              end
          end
      end
  end.

Definition getWorker (providerID : string) : iks Node :=
  current ←! readInventory;
  getWorkerFrom providerID current.

(** The loop of [listAllocations]: workers that are gone are left out, any
    other failure ends it. *)
Fixpoint list_loop (claims : list NodeClaim) (current : option inventory) : iks (list Node) :=
  match claims with
  | [] => Ret (Ok [])
  | claim :: claims' =>
      if negb (String.eqb (get (Annotations (claim_meta claim)) BackendAnnotation) "iks") ||
         empty (claim_ProviderID claim)
      then list_loop claims' current
      else
        bind (getWorkerFrom (claim_ProviderID claim) current) (λ r,
          match r with
          | Err err =>
              if IsNodeClaimNotFoundError err then list_loop claims' current else fail_with err
          | Ok node => nodes ←! list_loop claims' current; Ret (Ok (node :: nodes))
          end)
  end.

Definition listAllocations : iks (list Node) :=
  if negb has_reader then fail "kubernetes client not set"
  else
    current ←! readInventory;
    match current with
    | None => fail nil_dereference
    | Some (claims, nodes) => list_loop claims (Some (claims, nodes))
    end.

(** ** Deletion *)

(** [GetWorkerDetails] reports the worker gone: not found, or deleted. *)
Definition worker_gone (worker : option IKSWorkerDetails) (e : err) : err :=
  match e, worker with
  | None, Some w =>
      if String.eqb (ActualState (Lifecycle w)) "deleted"
      then Some (GoErrors.httpError {| HttpClient.http_StatusCode := 404; HttpClient.http_Code := "";
             HttpClient.http_Message := ""; HttpClient.http_Description := "";
             HttpClient.http_Type := ""; HttpClient.http_Endpoint := "" |})
      else None
  | _, _ => e
  end.

(** The workers of the pool that still exist, and whether one of them is not
    the allocation's. *)
Definition live_workers (poolID : string) (workers : list (option IKSWorkerDetails))
    : list (option IKSWorkerDetails) := List.filter (live_in poolID) workers.
Definition is_foreign (a : Allocation) (w : option IKSWorkerDetails) : bool :=
  match w with
  | Some worker => negb (empty (WorkerID a)) && negb (String.eqb (worker_ID worker) (WorkerID a))
  | None => false
  end.

(** Releasing the reservation of a pool that is gone. *)
Definition release (allocation : Allocation) (reservation : ConfigMap) : iks_err :=
  operationErr ⟵ DeleteConfigMap reservation (UID (cm_meta reservation))
                   (ResourceVersion (cm_meta reservation));
  match IgnoreNotFound operationErr with
  | Some operationErr =>
      error_with (wrapped_ ("releasing worker pool reservation " ++ key_Name (key_of allocation)) operationErr)
  | None =>
      error_with (NodeClaimNotFound
        (GoErrors.New ("allocated worker pool " ++ al_PoolName allocation ++ " is absent")))
  end.

(** The branch of [cleanup] where IKS has no pool of that name. *)
Definition pool_absent (allocation : Allocation) (reservation : ConfigMap) : iks_err :=
  now ⟵ Now;
  if creationUncertain reservation now && empty (PoolID allocation)
  then error_ "pool creation outcome remains uncertain; retaining allocation reservation"
  else if empty (WorkerID allocation) then release allocation reservation
  else
    answer ⟵ GetWorkerDetails (ClusterID allocation) (WorkerID allocation);
    let '(worker, workerErr) := answer in
    match worker_gone worker workerErr with
    | None => error_ "allocated worker still exists after pool removal"
    | Some workerErr =>
        if IsNotFound (Some workerErr) then release allocation reservation
        else error_with workerErr
    end.

(** The branch where it has one. *)
Definition pool_present (pool : option WorkerPool) (allocation : Allocation)
    (reservation : ConfigMap) : iks_err :=
  match validatePool pool allocation, pool with
  | Some operationErr, _ => error_with operationErr
  | None, None => error_ nil_dereference
  | None, Some pool =>
      let allocation := set_PoolID allocation (pool_ID pool) in
      check (updateReservation reservation allocation "deleting") (λ reservation,
        answer ⟵ ListWorkers (ClusterID allocation);
        match answer with
        | Err err => error_with err
        | Ok workers =>
            let live := live_workers (pool_ID pool) workers in
            if existsb (is_foreign allocation) live
            then error_ "isolated pool contains a worker outside this allocation"
            else if Nat.ltb 1 (length live) then error_ "isolated pool contains multiple workers"
            else
              operationErr ⟵ DeleteWorkerPool (ClusterID allocation) (pool_ID pool);
              match operationErr with
              | Some e =>
                  if IsNotFound (Some e) then no_error
                  else error_with (wrapped_ "deleting allocated worker pool" e)
              | None => no_error
              end
        end)
  end.

(** What [cleanup] does under the lock. *)
Definition cleanup_locked (allocation : Allocation) : iks_err :=
  check (ClusterUID_ p) (λ clusterUID,
    if negb (String.eqb clusterUID (ClusterUID allocation))
    then error_ "allocation belongs to another Kubernetes cluster"
    else check (reserve allocation) (λ reservation,
      match restoreReservation allocation reservation with
      | Err restoreErr => error_with restoreErr
      | Ok allocation =>
          check (updateReservation reservation allocation "deleting") (λ reservation,
            check (getIKSClient p) (λ c,
              match validateTarget p c (AccountID allocation) (al_Region allocation) with
              | Some targetErr => error_with targetErr
              | None =>
                  answer ⟵ GetWorkerPool (ClusterID allocation) (al_PoolName allocation);
                  let '(pool, err) := answer in
                  match err with
                  | Some err =>
                      if IsNotFound (Some err) then pool_absent allocation reservation
                      else error_with (wrapped_ "verifying allocated worker pool" err)
                  | None => pool_present pool allocation reservation
                  end
              end))
      end)).

Definition locked (l : string) (body : iks_err) : iks_err :=
  _u ⟵ Lock l;
  bind body (λ r, _u ⟵ Unlock l; Ret r).

Definition cleanup (allocation : Allocation) : iks_err :=
  if negb (kubeClient p) then error_ "kubernetes client not set"
  else locked (lock_of (ClusterID allocation) (al_PoolName allocation)) (cleanup_locked allocation).

Definition deleteAllocation (node : option Node) : iks_err :=
  match node with
  | None => error_ "node is required"
  | Some node =>
      match DecodeAllocation (Annotations (node_meta node)) with
      | Err err => error_with err
      | Ok None => error_ "cluster ID or pool ID not found in durable IKS allocation; refusing shared-pool deletion"
      | Ok (Some allocation) =>
          if negb (String.eqb (ClaimUID allocation) (UID (node_meta node)))
          then error_ "allocation owner identity mismatch"
          else if empty (WorkerID allocation) ||
                  negb (String.eqb (node_ProviderID node)
                    (iks_provider_id (AccountID allocation) (ClusterID allocation) (WorkerID allocation)))
          then error_ "IKS deletion provider identity differs from the immutable allocation"
          else cleanup allocation
      end
  end.

(** A node that belongs to the allocation. *)
Definition owned_node (allocation : Allocation) (node : Node) : bool :=
  (String.eqb (get (Labels (node_meta node)) ClaimUIDLabel) (ClaimUID allocation) &&
   String.eqb (get (Labels (node_meta node)) ClusterUIDLabel) (ClusterUID allocation)) ||
  (negb (empty (WorkerID allocation)) &&
   String.eqb (node_ProviderID node)
     (iks_provider_id (AccountID allocation) (ClusterID allocation) (WorkerID allocation))).

(** Its graceful termination is not established. *)
Definition ungraceful (allocation : Allocation) (node : Node) : bool :=
  negb (existsb (String.eqb TerminationFinalizer) (Finalizers (node_meta node))) ||
  empty (get (Labels (node_meta node)) NodeClassLabelKey) ||
  negb (String.eqb (get (Labels (node_meta node)) NodePoolLabelKey) (NodePool allocation)).

(** The loop of [Cleanup]: whether an owned node was found, or the error. *)
Fixpoint owned_loop (allocation : Allocation) (nodes : list Node) (found : bool) : iks bool :=
  match nodes with
  | [] => Ret (Ok found)
  | node :: nodes' =>
      if negb (owned_node allocation node) then owned_loop allocation nodes' found
      else if ungraceful allocation node
      then fail "pending IKS worker has a Node without established graceful termination ownership; retaining allocation"
      else if bool_decide (is_Some (DeletionTimestamp (node_meta node)))
      then owned_loop allocation nodes' true
      else
        operationErr ⟵ DeleteNode node (UID (node_meta node));
        match IgnoreNotFound operationErr with
        | Some operationErr => fail_with operationErr
        | None => owned_loop allocation nodes' true
        end
  end.

(** The end of [ConfirmGone]: pool and worker are absent. *)
Definition confirm_absent (allocation : Allocation) : iks_err :=
  let gone := NodeClaimNotFound (GoErrors.New "allocated pool and worker are absent") in
  answer ⟵ GetConfigMap (key_of allocation);
  match answer with
  | Err err => if kube_IsNotFound err then error_with gone else error_with err
  | Ok reservation =>
      if foreign_reservation reservation allocation then error_ "reservation ownership changed"
      else
        operationErr ⟵ DeleteConfigMap reservation (UID (cm_meta reservation))
                         (ResourceVersion (cm_meta reservation));
        match IgnoreNotFound operationErr with
        | Some operationErr => error_with operationErr
        | None => error_with gone
        end
  end.

Definition confirm_locked (allocation : Allocation) : iks_err :=
  check (ClusterUID_ p) (λ clusterUID,
    if negb (String.eqb clusterUID (ClusterUID allocation))
    then error_ "allocation belongs to another cluster"
    else check (getIKSClient p) (λ c,
      match validateTarget p c (AccountID allocation) (al_Region allocation) with
      | Some targetErr => error_with targetErr
      | None =>
          answer ⟵ GetWorkerPool (ClusterID allocation) (al_PoolName allocation);
          match answer with
          | (_, None) => no_error
          | (_, Some err) =>
              if negb (IsNotFound (Some err)) then error_with err
              else if empty (WorkerID allocation) then error_ "bound IKS allocation has no worker identity"
              else
                answer ⟵ GetWorkerDetails (ClusterID allocation) (WorkerID allocation);
                let '(worker, err) := answer in
                match worker_gone worker err with
                | None => no_error
                | Some err =>
                    if negb (IsNotFound (Some err)) then error_with err
                    else confirm_absent allocation
                end
          end
      end)).

Definition ConfirmGone (claim : NodeClaim) : iks_err :=
  match DecodeAllocation (Annotations (claim_meta claim)) with
  | Err err => error_with err
  | Ok None => error_ "IKS allocation identity is missing or changed"
  | Ok (Some allocation) =>
      if negb (String.eqb (ClaimUID allocation) (UID (claim_meta claim)))
      then error_ "IKS allocation identity is missing or changed"
      else if negb (String.eqb (claim_ProviderID claim)
                (iks_provider_id (AccountID allocation) (ClusterID allocation) (WorkerID allocation)))
      then error_ "bound IKS provider identity differs from the immutable allocation"
      else locked (lock_of (ClusterID allocation) (al_PoolName allocation)) (confirm_locked allocation)
  end.

Definition Cleanup (claim : NodeClaim) : iks_err :=
  if negb (empty (claim_ProviderID claim)) then ConfirmGone claim
  else
    match DecodeAllocation (Annotations (claim_meta claim)) with
    | Err err => error_with err
    | Ok None => error_with (NodeClaimNotFound (GoErrors.New "no IKS allocation"))
    | Ok (Some allocation) =>
        if negb (String.eqb (ClaimUID allocation) (UID (claim_meta claim)))
        then error_ "allocation owner identity mismatch"
        else if negb has_reader then error_ nil_dereference
        else
          answer ⟵ ListNodes;
          match answer with
          | Err operationErr => error_with operationErr
          | Ok nodes =>
              check (owned_loop allocation nodes false) (λ found : bool,
                if found then no_error else cleanup allocation)
          end
    end.

(** ** The pool cleanup controller's deletion of an empty pool *)

(** A claim that still refers to the pool: [None] when its annotation does not
    decode. *)
Definition claim_refers (clusterID : string) (candidate : WorkerPool) (claim : NodeClaim)
    : result GoErrors.error bool :=
  match DecodeAllocation (Annotations (claim_meta claim)) with
  | Err decodeErr => Err decodeErr
  | Ok allocation =>
      Ok (match allocation with
          | Some a => String.eqb (ClusterID a) clusterID && String.eqb (al_PoolName a) (pool_Name candidate)
          | None => false
          end ||
          (String.eqb (get (Annotations (claim_meta claim)) ClusterIDAnnotation) clusterID &&
           String.eqb (get (Annotations (claim_meta claim)) PoolIDAnnotation) (pool_ID candidate)))
  end.

Fixpoint any_claim_refers (clusterID : string) (candidate : WorkerPool) (claims : list NodeClaim)
    : result GoErrors.error bool :=
  match claims with
  | [] => Ok false
  | claim :: claims' =>
      match claim_refers clusterID candidate claim with
      | Err e => Err e
      | Ok true => Ok true
      | Ok false => any_claim_refers clusterID candidate claims'
      end
  end.

(** The fresh pool is still the candidate: empty, ours, and no claim's. *)
Definition still_empty (fresh : option WorkerPool) (candidate : WorkerPool)
    (clusterUID classUID : string) : bool :=
  match fresh with
  | None => false
  | Some fresh =>
      String.eqb (pool_ID fresh) (pool_ID candidate) &&
      String.eqb (pool_Name fresh) (pool_Name candidate) && (SizePerZone fresh =? 0)%Z &&
      negb (AutoscaleEnabled fresh) &&
      String.eqb (get (pool_Labels fresh) ManagedLabel) "true" &&
      String.eqb (get (pool_Labels fresh) ProviderLabel) "iks" &&
      String.eqb (get (pool_Labels fresh) ClusterUIDLabel) clusterUID &&
      String.eqb (get (pool_Labels fresh) NodeClassUIDLabel) classUID &&
      String.eqb (get (pool_Labels fresh) ClaimUIDLabel) ""
  end.

Definition no_actual_size (fresh : option WorkerPool) : bool :=
  match fresh with Some f => (ActualSize f =? 0)%Z | None => false end.

Definition cleanup_reservation (key : NamespacedName) (clusterID clusterUID classUID accountID region : string)
    (candidate : WorkerPool) : ConfigMap :=
  {| cm_Namespace := key_Namespace key;
     cm_meta :=
       {| Name := key_Name key; UID := ""; ResourceVersion := ""; Generation := 0;
          DeletionTimestamp := None; CreationTimestamp := GoTime.zero_time;
          Labels := <[ManagedLabel := "true"]> (<[ProviderLabel := "iks"]>
            (<[ClusterUIDLabel := clusterUID]> {[NodeClassUIDLabel := classUID]}));
          Annotations := ∅; Finalizers := [] |};
     Data := <[ReservationPhaseKey := "deleting"]> (<[ReservationCleanupKey := "true"]>
       (<[ReservationClusterIDKey := clusterID]> (<[ReservationPoolIDKey := pool_ID candidate]>
       (<[ReservationAccountIDKey := accountID]> {[ReservationRegionKey := region]})))) |}.

(** The second look, after the reservation is stored, and the deletion. *)
Definition delete_empty (clusterID clusterUID classUID : string) (candidate : WorkerPool) : iks bool :=
  answer ⟵ GetWorkerPool clusterID (pool_ID candidate);
  let '(fresh, err) := answer in
  match err with
  | Some err => fail_with err
  | None =>
      if negb (still_empty fresh candidate clusterUID classUID && no_actual_size fresh)
      then Ret (Ok false)
      else
        answer ⟵ ListWorkers clusterID;
        match answer with
        | Err err => fail_with err
        | Ok workers =>
            if existsb (live_in (pool_ID candidate)) workers then Ret (Ok false)
            else
              operationErr ⟵ DeleteWorkerPool clusterID (pool_ID candidate);
              match operationErr with
              | Some e => if IsNotFound (Some e) then Ret (Ok true) else fail_with e
              | None => Ret (Ok true)
              end
        end
  end.

(** Storing the reservation that keeps the pool's name from being reused. *)
Definition store_cleanup (reservation : option ConfigMap) (created : ConfigMap) : iks ConfigMap :=
  match reservation with
  | None => call (CreateConfigMap created)
  | Some reservation =>
      call (PatchConfigMap reservation
              (set_data reservation (<[ReservationPhaseKey := "deleting"]> (Data reservation))))
  end.

(** What follows the look at the reservation. *)
Definition delete_unreferenced (clusterID clusterUID classUID namespace : string) (candidate : WorkerPool)
    (accountID region : string) (reservation : option ConfigMap) : iks bool :=
  answer ⟵ ListNodeClaims;
  match answer with
  | Err operationErr => fail_with operationErr
  | Ok claims =>
      match any_claim_refers clusterID candidate claims with
      | Err decodeErr => fail_with decodeErr
      | Ok true => Ret (Ok false)
      | Ok false =>
          answer ⟵ GetWorkerPool clusterID (pool_ID candidate);
          let '(fresh, err) := answer in
          match err with
          | Some err => if IsNotFound (Some err) then Ret (Ok false) else fail_with err
          | None =>
              if negb (still_empty fresh candidate clusterUID classUID) then Ret (Ok false)
              else
                answer ⟵ ListWorkers clusterID;
                match answer with
                | Err err => fail_with err
                | Ok workers =>
                    if existsb (live_in (pool_ID candidate)) workers then Ret (Ok false)
                    else
                      _cm ←! store_cleanup reservation
                               (cleanup_reservation (ReservationKey clusterID (pool_Name candidate) namespace)
                                  clusterID clusterUID classUID accountID region candidate);
                      delete_empty clusterID clusterUID classUID candidate
                end
          end
      end
  end.

Definition try_delete_locked (clusterID clusterUID classUID namespace : string) (candidate : WorkerPool)
    (accountID region : string) : iks bool :=
  let continue :=
    delete_unreferenced clusterID clusterUID classUID namespace candidate accountID region in
  answer ⟵ GetConfigMap (ReservationKey clusterID (pool_Name candidate) namespace);
  match answer with
  | Err err => if kube_IsNotFound err then continue None else fail_with err
  | Ok reservation =>
      if negb (String.eqb (get (Data reservation) ReservationCleanupKey) "true") ||
         negb (String.eqb (get (Data reservation) ReservationPhaseKey) "deleting")
      then Ret (Ok false)
      else if negb (String.eqb (get (Labels (cm_meta reservation)) ClusterUIDLabel) clusterUID) ||
              negb (String.eqb (get (Labels (cm_meta reservation)) NodeClassUIDLabel) classUID)
      then fail "pool cleanup reservation ownership changed"
      else if negb (String.eqb (get (Data reservation) ReservationAccountIDKey) accountID) ||
              negb (String.eqb (get (Data reservation) ReservationRegionKey) region)
      then fail "pool cleanup target identity changed"
      else continue (Some reservation)
  end.

(** [kubeClient] and [reader] are given or nil. *)
Definition TryDeleteEmptyPool (has_client has_rd : bool) (clusterID clusterUID classUID namespace : string)
    (candidate : option WorkerPool) (accountID region : string) : iks bool :=
  match candidate with
  | None => fail "pool cleanup requires a fresh reader and pool identity"
  | Some candidate =>
      if negb has_client || negb has_rd || empty (pool_ID candidate) || empty (pool_Name candidate)
      then fail "pool cleanup requires a fresh reader and pool identity"
      else if negb (MatchString accountPattern accountID) || empty region
      then fail "pool cleanup requires immutable account and region identity"
      else with_lock (lock_of clusterID (pool_Name candidate))
             (try_delete_locked clusterID clusterUID classUID namespace candidate accountID region)
  end.
End cleanup.
