(* ===== verification/IksCleanupSafety.v ===== *)
(** * IksCleanupSafety: what every run of an IKS deletion guarantees

    The theorems about [cleanup], [Cleanup], [ConfirmGone], the lookups and
    [TryDeleteEmptyPool]: a pool is deleted only after a fresh read under the
    lock has shown that it is the allocation's and holds nothing else, and a
    claim is reported gone only when IKS has shown its pool and worker to be
    absent. *)
From stdpp Require Import prelude list strings gmap.
From S2P Require Import Prelude GoLib GoSort GoRegexp Errors NodeClass ProviderIDs.
From S2P Require Import Ownership Prog Kube IksApi IksAllocation IksLaunch IksLaunchSafety IksCleanup.

Open Scope string_scope.
Open Scope nat_scope.
Open Scope list_scope.

(** ** Errors of the environment *)
Definition answer_error {R} (e : iks_call R) : R → err :=
  match e with
  | GetNodeClaim _ => err_of
  | GetNodeClass _ => err_of
  | GetNamespace _ => err_of
  | GetConfigMap _ => err_of
  | ListNodeClaims => err_of
  | ListNodes => err_of
  | PatchNodeClaim _ _ => err_of
  | CreateConfigMap _ => err_of
  | PatchConfigMap _ _ => err_of
  | DeleteConfigMap _ _ _ => λ r, r
  | DeleteNode _ _ => λ r, r
  | GetIKSClient => err_of
  | GetWorkerPool _ _ => snd
  | CreateWorkerPool _ _ => snd
  | DeleteWorkerPool _ _ => λ r, r
  | ListWorkers _ => err_of
  | GetWorkerDetails _ _ => snd
  | GetInstanceType _ _ => err_of
  | FilterInstanceTypes _ _ => err_of
  | Now => λ _, None
  | Lock _ => λ _, None
  | Unlock _ => λ _, None
  end.

(** No answer carries Karpenter's own "nodeclaim not found" error: neither
    API produces it. *)
Definition clean (h : history iks_call) : Prop :=
  Forall (λ ev, match ev with
                | Did e r => ∀ x, answer_error e r = Some x → IsNodeClaimNotFoundError x = false
                end) h.

Lemma clean_head {R} (e : iks_call R) r h x :
  clean (Did e r :: h) → answer_error e r = Some x → IsNodeClaimNotFoundError x = false.
Proof. unfold clean. rewrite Forall_cons. intros [He _]. apply He. Qed.

Lemma clean_tail ev h : clean (ev :: h) → clean h.
Proof. unfold clean. rewrite Forall_cons. by intros [_ ?]. Qed.

Lemma clean_app h1 h2 : clean (h1 ++ h2) → clean h1.
Proof. unfold clean. rewrite Forall_app. by intros [? _]. Qed.

Lemma not_found_wrapped s e :
  IsNodeClaimNotFoundError (wrapped_ s e) = IsNodeClaimNotFoundError e.
Proof. unfold IsNodeClaimNotFoundError, wrapped_. by rewrite GoErrors.As_wrap. Qed.

Lemma not_found_new s : IsNodeClaimNotFoundError (GoErrors.New s) = false.
Proof. done. Qed.

Lemma not_found_here e : IsNodeClaimNotFoundError (NodeClaimNotFound e) = true.
Proof. done. Qed.
#[export] Hint Rewrite not_found_wrapped not_found_new not_found_here : go_rw.

Lemma worker_gone_error c id w we h :
  clean (Did (GetWorkerDetails c id) (w, we) :: h) →
  ∀ e, worker_gone w we = Some e → IsNodeClaimNotFoundError e = false.
Proof.
  intros Hc e. unfold worker_gone. destruct we as [x|].
  - intros [= <-]. eapply clean_head; [exact Hc|done].
  - destruct w as [w|]; [|done]. destruct (String.eqb _ _); [|done]. by intros [= <-].
Qed.

(** The error, when the operation fails, is not Karpenter's. *)
Definition benign {A} (h : history iks_call) (r : result GoErrors.error A) : Prop :=
  clean h → ∀ e, r = Err e → IsNodeClaimNotFoundError e = false.

(** Neither do the errors of the JSON codec. *)
Class CodecErrors `{Stdlib} : Prop := {
  marshal_error : ∀ a e, Marshal a = Err e → IsNodeClaimNotFoundError e = false;
  unmarshal_error : ∀ s e, Unmarshal s = Err e → IsNodeClaimNotFoundError e = false;
}.

Ltac solve_benign :=
  let Hc := fresh "Hc" in let E := fresh "E" in
  intros Hc ? E; injection E as <-; autorewrite with go_rw;
  solve [done | eapply clean_head; [exact Hc|reflexivity] | by eapply marshal_error].

Section benign.
Context `{Stdlib} `{!CodecErrors} `{Karpenter} `{MapRange} (p : IKSWorkerPoolProvider).
Context (G : guard (E := iks_call)).
Context (HG : ∀ h R e, quiet R e = true → G h R e).

Lemma ClusterUID_benign h : wp G (ClusterUID_ p) h benign.
Proof.
  unfold ClusterUID_. split_if; [|solve_benign]. split; [by apply HG|]. intros [m|e].
  - cbn. destruct (String.eqb _ _); [solve_benign|]. by intros _ ? [=].
  - cbn. intros Hc ? [= <-]. change (IsNodeClaimNotFoundError (wrapped_ "reading cluster identity" e) = false).
    autorewrite with go_rw. eapply clean_head; [exact Hc|reflexivity].
Qed.

Lemma getIKSClient_benign h : wp G (getIKSClient p) h benign.
Proof.
  unfold getIKSClient. destruct (iksClient p); [by intros _ ? [=]|].
  destruct (client p); [|solve_benign]. split; [by apply HG|]. intros [c|e]; [by intros _ ? [=]|].
  cbn. solve_benign.
Qed.

Lemma reserve_benign a h : wp G (reserve a) h benign.
Proof.
  unfold reserve, owned_reservation. cbv zeta. split; [by apply HG|]. intros [cm|e].
  - cbn. destruct (foreign_reservation cm a); [solve_benign|]. by intros _ ? [=].
  - split_if; [|solve_benign]. destruct (Marshal a) as [d|e'] eqn:Em; [|solve_benign].
    split; [by apply HG|]. intros [cm|e']; [|solve_benign]. cbn.
    destruct (foreign_reservation cm a); [solve_benign|]. by intros _ ? [=].
Qed.

Lemma updateReservation_benign cm a ph h : wp G (updateReservation cm a ph) h benign.
Proof.
  unfold updateReservation. destruct (Marshal a) as [d|e] eqn:Em; [|solve_benign].
  split; [by apply HG|]. intros now. cbv zeta. split; [by apply HG|].
  intros [cm'|e]; [by intros _ ? [=]|]. solve_benign.
Qed.

Lemma decode_benign m e : DecodeAllocation m = Err e → IsNodeClaimNotFoundError e = false.
Proof.
  unfold DecodeAllocation. cbv zeta. destruct (empty _); [done|].
  destruct (Unmarshal _) as [a|e'] eqn:Eu.
  - destruct (missing_identity a); [by intros [= <-]|].
    destruct (invalid_snapshot a); [by intros [= <-]|done].
  - intros [= <-]. change (IsNodeClaimNotFoundError (wrapped_ "decoding IKS allocation" e') = false).
    autorewrite with go_rw. by eapply unmarshal_error.
Qed.

Lemma restore_benign a cm e : restoreReservation a cm = Err e → IsNodeClaimNotFoundError e = false.
Proof.
  unfold restoreReservation. destruct (DecodeAllocation _) as [[r|]|e'] eqn:Ed.
  - destruct (Marshal _) eqn:E1; [|intros [= <-]; by eapply marshal_error].
    destruct (Marshal (with_ids r _ _)) eqn:E2; [|intros [= <-]; by eapply marshal_error].
    repeat case_match; try done; by intros [= <-].
  - by intros [= <-].
  - intros [= <-]. by eapply decode_benign.
Qed.

Lemma target_benign c account region e :
  validateTarget p c account region = Some e → IsNodeClaimNotFoundError e = false.
Proof.
  unfold validateTarget. destruct (target c) as [[? ?]|]; case_match; try done; by intros [= <-].
Qed.

Lemma wp_check_quiet {A} (q : prog iks_call (result GoErrors.error A))
    (f : A → prog iks_call err) h Q (Post : history iks_call → result GoErrors.error A → Prop) :
  only quiet q → wp G q h benign → wp G q h Post →
  (∀ l a, Forall (event_is quiet) l → Post (l ++ h) (Ok a) → wp G (f a) (l ++ h) Q) →
  (∀ l e, Forall (event_is quiet) l → (clean (l ++ h) → IsNodeClaimNotFoundError e = false) →
     Q (l ++ h) (Some e)) →
  wp G (check q f) h Q.
Proof.
  intros Hq Hb Hp Hf He. apply wp_bind.
  eapply wp_mono; [|apply (wp_and _ _ _ _ _ (wp_only _ _ _ h HG Hq) (wp_and _ _ _ _ _ Hb Hp))].
  intros h' [a|e] [(l & -> & Hl) [HB HP]]; [by apply Hf|].
  apply He; [done|]. intros Hc. by apply HB.
Qed.
End benign.

(** ** The deletion of an allocation's pool *)
Section cleanup_safety.
Context `{Stdlib} `{!CodecErrors} `{Karpenter} `{MapRange} (p : IKSWorkerPoolProvider).
(** The allocation the deletion was asked for. *)
Context (a0 : Allocation).
Local Abbreviation L := (lock_of (ClusterID a0) (al_PoolName a0)).

(** The identity the allocation has, else the one the reservation recorded. *)
Definition known (own recorded : string) : string := if empty own then recorded else own.

(** The allocation completed by its reservation, and the reservation [cm] after
    it was marked as being deleted: the reservation was read, or made, in this
    run and is the claim's; the allocation is the one asked for, with the
    identities that it has or, where it has none, the reservation recorded. *)
Definition completed (h : history iks_call) (a : Allocation) (cm : ConfigMap) : Prop :=
  ∃ cm0 recorded data now,
    durable_reservation h cm0 a0 ∧
    DecodeAllocation {[AllocationAnnotation := get (Data cm0) reservationDataKey]} = Ok (Some recorded) ∧
    a = with_ids a0 (known (PoolID a0) (PoolID recorded)) (known (WorkerID a0) (WorkerID recorded)) ∧
    Marshal a = Ok data ∧
    asked h (PatchConfigMap cm0 (set_data cm0 (phase_data (Data cm0) data "deleting" (PoolID a) now))) (Ok cm).

(** The history before a pool deletion: under the lock, the pool of the
    allocation's name was read and is the allocation's; the reservation was
    then marked as being deleted, with the pool's identity; and the workers
    listed after that leave at most one in the pool, the allocation's own
    when its identity is known. *)
Definition may_delete (h : history iks_call) (clusterID poolID : string) : Prop :=
  ∃ a pool workers cm cm' data now h',
    h = Did (ListWorkers clusterID) (Ok workers)
        :: Did (PatchConfigMap cm
                  (set_data cm (phase_data (Data cm) data "deleting" poolID now))) (Ok cm')
        :: Did Now now
        :: Did (GetWorkerPool clusterID (al_PoolName a0)) (Some pool, None) :: h' ∧
    clusterID = ClusterID a0 ∧ poolID = pool_ID pool ∧ completed h' a cm ∧
    validatePool (Some pool) a = None ∧ Marshal (set_PoolID a poolID) = Ok data ∧
    length (live_workers poolID workers) ≤ 1 ∧
    Forall (λ w, is_foreign a w = false) (live_workers poolID workers) ∧
    held h' L = true.

(** The history before the reservation is released: under the lock, IKS has
    no pool of the allocation's name; no creation can still produce one, by the
    reservation as it was marked, unless the pool's identity is known, so that it
    had been created; and the allocation's worker, when it is known, is gone too. *)
Definition may_release (h : history iks_call) (cm : ConfigMap) (uid version : string) : Prop :=
  ∃ a pool e t h' h1,
    h1 = Did Now t :: Did (GetWorkerPool (ClusterID a0) (al_PoolName a0)) (pool, Some e) :: h' ∧
    IsNotFound_ e = true ∧ completed h' a cm ∧
    (creationUncertain cm t = false ∨ PoolID a ≠ ""%string) ∧
    (WorkerID a = ""%string ∧ h = h1 ∨
     ∃ w we, WorkerID a ≠ ""%string ∧
       h = Did (GetWorkerDetails (ClusterID a0) (WorkerID a)) (w, we) :: h1 ∧
       IsNotFound (worker_gone w we) = true) ∧
    uid = UID (cm_meta cm) ∧ version = ResourceVersion (cm_meta cm) ∧ held h' L = true.

Definition cleanup_guard : guard := λ h _ e,
  match e with
  | DeleteWorkerPool c id => may_delete h c id
  | DeleteConfigMap cm uid version => may_release h cm uid version
  | CreateWorkerPool _ _ | DeleteNode _ _ => False
  | Lock _ => ∀ l, held h l = false
  | Unlock l => held h l = true
  | _ => True
  end.

Lemma cleanup_guard_quiet h R e : quiet R e = true → cleanup_guard h R e.
Proof. by destruct e. Qed.

(** The reservation was released at the end of this history. *)
Definition released (h : history iks_call) : Prop :=
  ∃ cm uid version answer h',
    h = Did (DeleteConfigMap cm uid version) answer :: h' ∧ may_release h' cm uid version ∧
    IgnoreNotFound answer = None.

(** Locks as on entry, and "gone" is only reported after a release. *)
Definition concluded (h : history iks_call) (r : err) : Prop :=
  (∀ l, held h l = String.eqb l L) ∧
  (clean h → ∀ e, r = Some e → IsNodeClaimNotFoundError e = true → released h).

Lemma concluded_benign h e :
  (∀ l, held h l = String.eqb l L) → (clean h → IsNodeClaimNotFoundError e = false) →
  concluded h (Some e).
Proof. intros Hh Hb. split; [done|]. intros Hc x [= <-] Hx. rewrite Hb in Hx; done. Qed.

Lemma concluded_none h : (∀ l, held h l = String.eqb l L) → concluded h None.
Proof. by intros Hh. Qed.

Ltac conclude Hh :=
  unfold error_, error_with, no_error; cbn [wp];
  first [apply concluded_none; same_locks Hh
        | apply concluded_benign;
          [same_locks Hh
          |let Hc := fresh in intros Hc; autorewrite with go_rw;
           first [done | eapply clean_head; [exact Hc|reflexivity]]]].

Lemma release_wp a cm h :
  (∀ l, held h l = String.eqb l L) →
  may_release h cm (UID (cm_meta cm)) (ResourceVersion (cm_meta cm)) →
  wp cleanup_guard (release a cm) h concluded.
Proof.
  intros Hh Hr. unfold release. split; [done|]. intros answer.
  destruct (IgnoreNotFound answer) as [e|] eqn:Ei.
  - apply concluded_benign; [same_locks Hh|]. intros Hc. rewrite not_found_wrapped.
    destruct answer as [e'|]; [|done]. cbn in Ei. destruct (kube_IsNotFound e'); [done|].
    injection Ei as ->. eapply clean_head; [exact Hc|done].
  - split; [same_locks Hh|]. intros _ e [= <-] _.
    exists cm, (UID (cm_meta cm)), (ResourceVersion (cm_meta cm)), answer, h. done.
Qed.

Lemma pool_absent_wp a cm pool e h :
  completed h a cm → (∀ l, held h l = String.eqb l L) → IsNotFound_ e = true →
  wp cleanup_guard (pool_absent a cm)
    (Did (GetWorkerPool (ClusterID a0) (al_PoolName a0)) (pool, Some e) :: h) concluded.
Proof.
  intros Ha Hh He. unfold pool_absent. split; [done|]. intros t.
  destruct (creationUncertain cm t && empty (PoolID a)) eqn:Eu; [conclude Hh|].
  assert (Hu : creationUncertain cm t = false ∨ PoolID a ≠ ""%string).
  { apply andb_false_iff in Eu as [?|Ep]; [by left|]. right. by apply String.eqb_neq. }
  assert (HL : held h L = true) by (by rewrite Hh, String.eqb_refl).
  destruct (empty (WorkerID a)) eqn:Ew.
  - apply release_wp; [same_locks Hh|]. apply String.eqb_eq in Ew.
    exists a, pool, e, t, h. eexists. split_and!; try done. left. done.
  - split; [done|]. intros [w we]. destruct (worker_gone w we) as [x|] eqn:Eg; [|conclude Hh].
    split_if.
    + apply release_wp; [same_locks Hh|]. apply String.eqb_neq in Ew.
      exists a, pool, e, t, h. eexists. split_and!; try done. right. exists w, we.
      rewrite Eg. by destruct Ha as (? & ? & ? & ? & _ & _ & -> & _).
    + apply concluded_benign; [same_locks Hh|]. intros Hc. by apply (worker_gone_error _ _ _ _ _ Hc).
Qed.

Lemma pool_present_wp a cm pool h :
  completed h a cm → (∀ l, held h l = String.eqb l L) →
  wp cleanup_guard (pool_present pool a cm)
    (Did (GetWorkerPool (ClusterID a0) (al_PoolName a0)) (pool, None) :: h) concluded.
Proof.
  intros Ha Hh. unfold pool_present.
  assert (Hcl : ClusterID a = ClusterID a0) by (by destruct Ha as (? & ? & ? & ? & _ & _ & -> & _)).
  assert (HL : held h L = true) by (by rewrite Hh, String.eqb_refl).
  destruct (validatePool pool a) as [e|] eqn:Ev.
  { assert (IsNodeClaimNotFoundError e = false) as Hb.
    { unfold validatePool in Ev. destruct pool as [pool|]; [|by injection Ev as <-].
      destruct (_ || _); [by injection Ev as <-|].
      destruct (List.find _ _) as [[? ?]|]; [by injection Ev as <-|].
      destruct (_ && _); [by injection Ev as <-|done]. }
    by apply concluded_benign; [same_locks Hh|]. }
  destruct pool as [pool|]; [|conclude Hh]. cbv zeta.
  set (a2 := set_PoolID a (pool_ID pool)).
  apply (wp_check_quiet cleanup_guard cleanup_guard_quiet _ _ _ _ _ (updateReservation_quiet cm a2 _)
    (updateReservation_benign _ cleanup_guard_quiet cm a2 _ _)
    (updateReservation_wp _ cleanup_guard_quiet cm a2 _ _)).
  2:{ intros l e Hl Hb. apply concluded_benign; [same_locks Hh|done]. }
  intros l cm' Hl (data & now & Em & Eh).
  split; [done|]. intros [workers|e]; [|conclude Hh]. cbv zeta.
  destruct (existsb _ _) eqn:Ef; [conclude Hh|].
  destruct (Nat.ltb_spec 1 (length (live_workers (pool_ID pool) workers))); [conclude Hh|].
  split.
  { cbn [cleanup_guard]. change (ClusterID a2) with (ClusterID a). rewrite Eh, Hcl.
    exists a, pool, workers, cm, cm', data, now, h.
    split_and!; try done.
    by apply existsb_false_Forall in Ef. }
  intros [e|]; [|conclude Hh]. split_if; conclude Hh.
Qed.

Lemma restore_known a cm : restoreReservation a0 cm = Ok a →
  ∃ recorded, DecodeAllocation {[AllocationAnnotation := get (Data cm) reservationDataKey]} = Ok (Some recorded) ∧
    a = with_ids a0 (known (PoolID a0) (PoolID recorded)) (known (WorkerID a0) (WorkerID recorded)).
Proof.
  unfold restoreReservation. destruct (DecodeAllocation _) as [[r|]|]; try done.
  destruct (Marshal _); [|done]. destruct (Marshal _); [|done].
  repeat (case_match; [done|]). intros [= <-]. by exists r.
Qed.

Lemma completed_app l h a cm : completed h a cm → completed (l ++ h) a cm.
Proof.
  intros (cm0 & recorded & data & now & Hd & Hrec & -> & Hm & Hp). exists cm0, recorded, data, now.
  split_and!; try done; [by apply durable_reservation_app|by apply asked_app].
Qed.

Lemma cleanup_locked_wp h :
  (∀ l, held h l = String.eqb l L) → wp cleanup_guard (cleanup_locked p a0) h concluded.
Proof.
  intros Hh. unfold cleanup_locked.
  apply (wp_check_quiet cleanup_guard cleanup_guard_quiet _ _ _ _ (λ _ _, True) (ClusterUID_quiet p)
    (ClusterUID_benign p _ cleanup_guard_quiet h)
    (wp_any _ cleanup_guard_quiet _ h (ClusterUID_quiet p))).
  2:{ intros l e Hl Hb. by apply concluded_benign; [same_locks Hh|]. }
  intros l1 u Hl1 _. split_if; [conclude Hh|].
  apply (wp_check_quiet cleanup_guard cleanup_guard_quiet _ _ _ _ _ (reserve_quiet a0)
    (reserve_benign _ cleanup_guard_quiet a0 _) (reserve_wp _ cleanup_guard_quiet a0 _)).
  2:{ intros l e Hl Hb. by apply concluded_benign; [same_locks Hh|]. }
  intros l2 cm Hl2 Hdur.
  destruct (restoreReservation a0 cm) as [a|e] eqn:Er.
  2:{ apply concluded_benign; [same_locks Hh|]. intros _. by eapply restore_benign. }
  apply restore_known in Er as (recorded & Hrec & Ha).
  apply (wp_check_quiet cleanup_guard cleanup_guard_quiet _ _ _ _ _
    (updateReservation_quiet cm a _) (updateReservation_benign _ cleanup_guard_quiet cm a _ _)
    (updateReservation_wp _ cleanup_guard_quiet cm a _ _)).
  2:{ intros l e Hl Hb. by apply concluded_benign; [same_locks Hh|]. }
  intros l3 cm' Hl3 (data & now & Hdata & Eh3).
  assert (Hcomp : completed (l3 ++ l2 ++ l1 ++ h) a cm').
  { exists cm, recorded, data, now. split_and!; try done; [by apply durable_reservation_app|].
    rewrite Eh3. apply asked_here. }
  apply (wp_check_quiet cleanup_guard cleanup_guard_quiet _ _ _ _ (λ _ _, True)
    (getIKSClient_quiet p) (getIKSClient_benign p _ cleanup_guard_quiet _)
    (wp_any _ cleanup_guard_quiet _ _ (getIKSClient_quiet p))).
  2:{ intros l e Hl Hb. by apply concluded_benign; [same_locks Hh|]. }
  intros l4 c Hl4 _. apply (completed_app l4) in Hcomp.
  destruct (validateTarget _ _ _ _) as [e|] eqn:Et.
  { apply concluded_benign; [same_locks Hh|]. intros _. by eapply target_benign. }
  assert (Ea : ClusterID a = ClusterID a0 ∧ al_PoolName a = al_PoolName a0)
    by (by rewrite Ha).
  destruct Ea as [-> ->]. split; [done|]. intros [pool [e|]].
  - split_if; [|conclude Hh]. apply pool_absent_wp; [done|same_locks Hh|done].
  - apply pool_present_wp; [done|same_locks Hh].
Qed.

(** After the lock is released. *)
Definition cleanup_post (h : history iks_call) (r : err) : Prop :=
  (∀ l, held h l = false) ∧
  (clean h → ∀ e, r = Some e → IsNodeClaimNotFoundError e = true →
     ∃ h', h = Did (Unlock L) tt :: h' ∧ released h').

Lemma cleanup_wp h : (∀ l, held h l = false) → wp cleanup_guard (cleanup p a0) h cleanup_post.
Proof.
  intros Hh. unfold cleanup. split_if.
  { split; [done|]. intros _ e [= <-]. done. }
  split; [done|]. intros []. apply wp_bind.
  eapply wp_mono; [|apply cleanup_locked_wp; intros x; cbn; by rewrite Hh, orb_false_r].
  intros h' r [Hl Hr]. split; [cbn; by rewrite Hl, String.eqb_refl|]. intros []. split.
  - intros x. cbn. rewrite Hl. by destruct (String.eqb x _).
  - intros Hc e -> Hx. exists h'. split; [done|]. apply (Hr (clean_tail _ _ Hc) e); done.
Qed.

(** C8. Whatever the Kubernetes and IKS APIs answer, a deletion removes a pool
    only under the pool's lock and right after the reads that show it to be
    the allocation's own and to hold at most the allocation's worker; it
    releases the reservation only when IKS has neither the pool nor the
    worker and no creation is outstanding: the window of uncertainty has passed
    by the reservation it read and marked in this run, unless the allocation or
    that reservation knows the pool's identity; it reports the claim as gone only
    after such a release; and it drops the lock on every path. *)
Theorem cleanup_is_exact (tr : history iks_call) (r : err)
    (Hrun : runs (cleanup p a0) tr r) :
  (∀ before c id answer after,
     tr = before ++ Did (DeleteWorkerPool c id) answer :: after → may_delete (reverse before) c id) ∧
  (∀ before cm uid version answer after,
     tr = before ++ Did (DeleteConfigMap cm uid version) answer :: after →
     may_release (reverse before) cm uid version) ∧
  (∀ before c req answer after, tr ≠ before ++ Did (CreateWorkerPool c req) answer :: after) ∧
  (∀ l, held (reverse tr) l = false) ∧
  (clean (reverse tr) → ∀ e, r = Some e → IsNodeClaimNotFoundError e = true →
     ∃ h', reverse tr = Did (Unlock L) tt :: h' ∧ released h').
Proof.
  destruct (wp_sound _ _ _ _ _ _ (cleanup_wp [] ltac:(done)) Hrun) as [Hg HQ].
  rewrite app_nil_r in HQ. destruct HQ as [Hl Hr]. split_and!; try done.
  - intros before c id answer after ->. apply guarded_at in Hg. by rewrite app_nil_r in Hg.
  - intros before cm uid v answer after ->. apply guarded_at in Hg. by rewrite app_nil_r in Hg.
  - intros before c req answer after ->. apply guarded_at in Hg. done.
Qed.
End cleanup_safety.

(** ** Lookups *)
Section lookups.
Context `{Stdlib} `{!CodecErrors} `{Karpenter} `{MapRange} (p : IKSWorkerPoolProvider).

(** The evidence that a worker is gone: a claim of the inventory was born as
    this worker, and IKS was asked for it and does not have it. *)
Definition gone_evidence (h : history iks_call) (providerID : string) (current : option inventory)
    : Prop :=
  ∃ account cluster worker claims nodes a w we,
    ParseProviderID providerID = Ok (account, cluster, worker) ∧
    current = Some (claims, nodes) ∧
    (∃ claim, claim ∈ claims ∧ DecodeAllocation (Annotations (claim_meta claim)) = Ok (Some a)) ∧
    AccountID a = account ∧ ClusterID a = cluster ∧ WorkerID a = worker ∧ al_Region a ≠ ""%string ∧
    asked h (GetWorkerDetails cluster worker) (w, we) ∧
    (IsNotFound we = true ∨
     we = None ∧ ∃ x, w = Some x ∧ worker_ID x = worker ∧ ActualState (Lifecycle x) = "deleted"%string).

Lemma birth_Some claims account cluster worker a :
  birth claims account cluster worker = Some a →
  (∃ claim, claim ∈ claims ∧ DecodeAllocation (Annotations (claim_meta claim)) = Ok (Some a)) ∧
  AccountID a = account ∧ ClusterID a = cluster ∧ WorkerID a = worker.
Proof.
  induction claims as [|c claims IH]; cbn [birth]; [done|].
  assert (Hrec : birth claims account cluster worker = Some a → _) by exact IH.
  destruct (DecodeAllocation _) as [[a'|]|] eqn:Ed.
  - destruct (_ && _) eqn:Eb.
    + intros [= ->]. bool_to_prop. split; [exists c; split; [by left|done]|done].
    + intros ((x & Hx & Hd) & ?)%IH. split; [exists x; split; [by right|done]|done].
  - intros ((x & Hx & Hd) & ?)%IH. split; [exists x; split; [by right|done]|done].
  - intros ((x & Hx & Hd) & ?)%IH. split; [exists x; split; [by right|done]|done].
Qed.

Lemma parse_benign s e : ParseProviderID s = Err e → IsNodeClaimNotFoundError e = false.
Proof.
  unfold ParseProviderID. destruct (negb _); [by intros [= <-]|].
  destruct (Strings.Split _ _) as [|? [|? [|? [|? [|? [|]]]]]]; try by intros [= <-].
  destruct (_ || _); [by intros [= <-]|done].
Qed.

Lemma registered_benign nodes id reg e :
  registered_loop nodes id reg = Err e → IsNodeClaimNotFoundError e = false.
Proof.
  revert reg. induction nodes as [|n nodes IH]; intros reg; cbn; [done|].
  destruct (negb _); [apply IH|]. destruct reg; [by intros [= <-]|apply IH].
Qed.

Lemma getWorkerFrom_wp providerID current h :
  wp anything (getWorkerFrom p providerID current) h
    (λ h' r, clean h' → ∀ e, r = Err e → IsNodeClaimNotFoundError e = true →
       gone_evidence h' providerID current).
Proof.
  unfold getWorkerFrom. destruct (ParseProviderID providerID) as [[[account cluster] worker]|e] eqn:Ep.
  2:{ intros _ x [= <-]. by rewrite (parse_benign _ _ Ep). }
  apply wp_try. eapply wp_mono; [|apply (getIKSClient_benign p anything anything_quiet)].
  intros h' [c|e]; [|intros Hb Hc x [= <-]; by rewrite (Hb Hc e eq_refl)]. intros _. cbv zeta.
  destruct (validateTarget _ _ _ _) as [e|] eqn:Et.
  { intros _ x [= <-]. by rewrite (target_benign _ _ _ _ _ Et). }
  split; [done|]. intros [w we].
  set (b := match current with Some (claims, _) => birth claims account cluster worker | None => None end).
  assert (Hev : (match b with Some a => al_Region a | None => ""%string end) ≠ ""%string →
    (IsNotFound we = true ∨
     we = None ∧ ∃ x, w = Some x ∧ worker_ID x = worker ∧ ActualState (Lifecycle x) = "deleted"%string) →
    gone_evidence (Did (GetWorkerDetails cluster worker) (w, we) :: h') providerID current).
  { intros Hb Hw. destruct b as [a|] eqn:Eb; [|done]. unfold b in Eb.
    destruct current as [[claims nodes]|]; [|done].
    apply birth_Some in Eb as (Hcl & ? & ? & ?).
    exists account, cluster, worker, claims, nodes, a, w, we. split_and!; try done. apply asked_here. }
  destruct we as [e|].
  - split_if.
    + split_if.
      * intros Hc x [= <-]. rewrite not_found_wrapped.
        by rewrite (clean_head _ _ _ _ Hc eq_refl).
      * intros _ x _ _. apply Hev; [by apply String.eqb_neq|by left].
    + intros Hc x [= <-]. rewrite not_found_wrapped. by rewrite (clean_head _ _ _ _ Hc eq_refl).
  - destruct w as [w|]; [|by intros _ x [= <-]].
    split_if; [by intros _ x [= <-]|]. split_if.
    + split_if; [by intros _ x [= <-]|]. intros _ x _ _.
      apply Hev; [by apply String.eqb_neq|]. right. split; [done|]. exists w. bool_to_prop. done.
    + cbn. unfold worker_result. destruct current as [[claims nodes]|]; [|done].
      destruct (registeredIn nodes providerID) as [[reg|]|e] eqn:Er; try done.
      intros _ x [= <-]. by rewrite (registered_benign _ _ _ _ Er).
Qed.

(** C9. A lookup reports a worker as gone only on evidence: some claim of the
    inventory recorded this very worker, with its region, in an allocation
    that decodes, and IKS was asked and answered "not found" or "deleted".
    An unreadable claim, an error, or a worker no claim knows is never taken
    for absence. *)
Theorem absence_needs_evidence (providerID : string) (current : option inventory)
    (tr : history iks_call) (e : GoErrors.error)
    (Hrun : runs (getWorkerFrom p providerID current) tr (Err e))
    (Hclean : clean (reverse tr)) (Hgone : IsNodeClaimNotFoundError e = true) :
  gone_evidence (reverse tr) providerID current.
Proof.
  destruct (wp_sound _ _ _ _ _ _ (getWorkerFrom_wp providerID current []) Hrun) as [_ HQ].
  rewrite app_nil_r in HQ. by apply (HQ Hclean e).
Qed.
End lookups.

(** ** The pool cleanup controller *)
Section empty_pool.
Context `{Stdlib} `{Karpenter} `{MapRange}.
Context (clusterID clusterUID classUID namespace accountID region : string) (candidate : WorkerPool).
Local Abbreviation id := (pool_ID candidate).
Local Abbreviation lock := (lock_of clusterID (pool_Name candidate)).

(** The workers show no live one in the pool. *)
Definition none_live (workers : list (option IKSWorkerDetails)) : Prop :=
  existsb (live_in id) workers = false.

(** The history before the deletion of an empty pool, newest first: two looks
    at the pool and at the workers, with the durable reservation between them,
    after a read of all claims none of which refers to the pool. *)
Definition may_delete_empty (h : history iks_call) (c poolID : string) : Prop :=
  ∃ workers1 workers2 fresh1 fresh2 claims reservation cm answer h',
    h = Did (ListWorkers clusterID) (Ok workers2)
        :: Did (GetWorkerPool clusterID id) (fresh2, None)
        :: match reservation with
           | None => Did (CreateConfigMap (cleanup_reservation
                       (ReservationKey clusterID (pool_Name candidate) namespace)
                       clusterID clusterUID classUID accountID region candidate)) (Ok cm)
           | Some old => Did (PatchConfigMap old
                       (set_data old (<[ReservationPhaseKey := "deleting"%string]> (Data old)))) (Ok cm)
           end
        :: Did (ListWorkers clusterID) (Ok workers1)
        :: Did (GetWorkerPool clusterID id) (fresh1, None)
        :: Did ListNodeClaims (Ok claims)
        :: Did (GetConfigMap (ReservationKey clusterID (pool_Name candidate) namespace)) answer :: h' ∧
    c = clusterID ∧ poolID = id ∧
    any_claim_refers clusterID candidate claims = Ok false ∧
    still_empty fresh1 candidate clusterUID classUID = true ∧ none_live workers1 ∧
    still_empty fresh2 candidate clusterUID classUID = true ∧ no_actual_size fresh2 = true ∧
    none_live workers2 ∧
    match answer with
    | Ok old => reservation = Some old ∧ get (Data old) ReservationCleanupKey = "true"%string ∧
                get (Data old) ReservationPhaseKey = "deleting"%string
    | Err e => reservation = None ∧ kube_IsNotFound e = true
    end ∧
    held h' lock = true.

Definition empty_guard : guard := λ h _ e,
  match e with
  | DeleteWorkerPool c poolID => may_delete_empty h c poolID
  | CreateWorkerPool _ _ | DeleteNode _ _ | DeleteConfigMap _ _ _ => False
  | Lock _ => ∀ l, held h l = false
  | Unlock l => held h l = true
  | _ => True
  end.

Local Abbreviation Inv := (λ h (_ : result GoErrors.error bool), ∀ l, held h l = String.eqb l lock).

(** The answer about the reservation and what the code makes of it. *)
Definition reservation_seen (answer : result GoErrors.error ConfigMap) (reservation : option ConfigMap)
    : Prop :=
  match answer with
  | Ok old => reservation = Some old ∧ get (Data old) ReservationCleanupKey = "true"%string ∧
              get (Data old) ReservationPhaseKey = "deleting"%string
  | Err e => reservation = None ∧ kube_IsNotFound e = true
  end.

Lemma delete_empty_wp workers1 fresh1 claims reservation cm answer h :
  let h' := match reservation with
            | None => Did (CreateConfigMap (cleanup_reservation
                        (ReservationKey clusterID (pool_Name candidate) namespace)
                        clusterID clusterUID classUID accountID region candidate)) (Ok cm)
            | Some old => Did (PatchConfigMap old
                        (set_data old (<[ReservationPhaseKey := "deleting"%string]> (Data old)))) (Ok cm)
            end
            :: Did (ListWorkers clusterID) (Ok workers1)
            :: Did (GetWorkerPool clusterID id) (fresh1, None)
            :: Did ListNodeClaims (Ok claims)
            :: Did (GetConfigMap (ReservationKey clusterID (pool_Name candidate) namespace)) answer :: h in
  (∀ l, held h l = String.eqb l lock) → reservation_seen answer reservation →
  any_claim_refers clusterID candidate claims = Ok false →
  still_empty fresh1 candidate clusterUID classUID = true → none_live workers1 →
  wp empty_guard (delete_empty clusterID clusterUID classUID candidate) h' Inv.
Proof.
  intros h' Hh Hs Hc H1e Hw1.
  assert (Hh' : ∀ l, held h' l = String.eqb l lock) by (intros l; by destruct reservation; apply Hh).
  unfold delete_empty. split; [done|]. intros [fresh2 [e2|]]; [same_locks Hh'|].
  destruct (negb (_ && _)) eqn:E2; [same_locks Hh'|]. bool_to_prop.
  split; [done|]. intros [workers2|e]; [|same_locks Hh'].
  destruct (existsb _ workers2) eqn:Ew; [same_locks Hh'|]. split.
  - exists workers1, workers2, fresh1, fresh2, claims, reservation, cm, answer, h.
    split_and!; try done. by rewrite Hh, String.eqb_refl.
  - intros [e|]; [|same_locks Hh']. destruct (IsNotFound _); same_locks Hh'.
Qed.

Lemma delete_unreferenced_wp reservation answer h :
  (∀ l, held h l = String.eqb l lock) → reservation_seen answer reservation →
  wp empty_guard (delete_unreferenced clusterID clusterUID classUID namespace candidate accountID
                    region reservation)
    (Did (GetConfigMap (ReservationKey clusterID (pool_Name candidate) namespace)) answer :: h) Inv.
Proof.
  intros Hh Hs. unfold delete_unreferenced. split; [done|]. intros [claims|e]; [|same_locks Hh].
  destruct (any_claim_refers _ _ claims) as [[|]|e] eqn:Ec; [same_locks Hh| |same_locks Hh].
  split; [done|]. intros [fresh1 [e1|]]; [destruct (IsNotFound _); same_locks Hh|].
  destruct (negb (still_empty _ _ _ _)) eqn:E1; [same_locks Hh|]. bool_to_prop.
  split; [done|]. intros [workers1|e]; [|same_locks Hh].
  destruct (existsb _ workers1) eqn:Ew; [same_locks Hh|].
  apply wp_try. unfold store_cleanup. destruct reservation as [old|].
  - split; [done|]. intros [cm|e]; [|same_locks Hh].
    by apply (delete_empty_wp workers1 fresh1 claims (Some old) cm answer h).
  - split; [done|]. intros [cm|e]; [|same_locks Hh].
    by apply (delete_empty_wp workers1 fresh1 claims None cm answer h).
Qed.

Lemma try_delete_wp h :
  (∀ l, held h l = String.eqb l lock) →
  wp empty_guard (try_delete_locked clusterID clusterUID classUID namespace candidate accountID region)
    h Inv.
Proof.
  intros Hh. unfold try_delete_locked. cbv zeta. split; [done|]. intros [old|e].
  - destruct (_ || _) eqn:E1; [same_locks Hh|].
    do 2 (split_if; [same_locks Hh|]). bool_to_prop.
    by apply delete_unreferenced_wp.
  - split_if; [|same_locks Hh]. by apply delete_unreferenced_wp.
Qed.

Lemma try_delete_pool_wp has_client has_rd :
  wp empty_guard (TryDeleteEmptyPool has_client has_rd clusterID clusterUID classUID namespace
    (Some candidate) accountID region) [] (λ h _, ∀ l, held h l = false).
Proof.
  unfold TryDeleteEmptyPool. do 2 (split_if; [done|]). unfold with_lock.
  split; [done|]. intros []. apply wp_bind.
  eapply wp_mono; [|apply try_delete_wp; intros x; cbn; by rewrite orb_false_r].
  intros h r' Hl. split; [cbn; by rewrite Hl, String.eqb_refl|]. intros [] x.
  cbn. rewrite Hl. by destruct (String.eqb x _).
Qed.

(** The pool cleanup controller deletes a pool only after two looks that
    both show it empty and unclaimed, with the reservation of its name stored
    between them, and after reading that no NodeClaim refers to it; all under
    the pool's lock, which is released on every path. *)
Theorem empty_pool_deletion_is_safe (has_client has_rd : bool) (tr : history iks_call)
    (r : result GoErrors.error bool)
    (Hrun : runs (TryDeleteEmptyPool has_client has_rd clusterID clusterUID classUID namespace
                    (Some candidate) accountID region) tr r) :
  (∀ before c poolID answer after,
     tr = before ++ Did (DeleteWorkerPool c poolID) answer :: after →
     may_delete_empty (reverse before) c poolID) ∧
  (∀ l, held (reverse tr) l = false).
Proof.
  destruct (guarded_run _ _ _ _ _ (try_delete_pool_wp has_client has_rd) Hrun) as [Hg HQ].
  split; [|done]. intros before c poolID answer after Heq. exact (Hg before _ _ _ _ Heq).
Qed.
End empty_pool.

(** ** The cleanup of a claim that never got a provider ID *)
Section pending_cleanup.
Context `{Stdlib} `{!CodecErrors} `{Karpenter} `{MapRange} (p : IKSWorkerPoolProvider).

(** A node is deleted only as an owned node of the claim's allocation that
    would be drained gracefully and is not being deleted already. *)
Definition may_delete_node (claim : NodeClaim) (node : Node) (uid : string) : Prop :=
  ∃ a, DecodeAllocation (Annotations (claim_meta claim)) = Ok (Some a) ∧
    owned_node a node = true ∧ ungraceful a node = false ∧
    DeletionTimestamp (node_meta node) = None ∧ uid = UID (node_meta node).

(** No listed node is the allocation's. *)
Definition no_owned (a : Allocation) (nodes : list Node) : Prop :=
  Forall (λ n, owned_node a n = false) nodes.

Definition after_no_owned (claim : NodeClaim) (h : history iks_call) (P : Allocation → Prop) : Prop :=
  ∃ a nodes l, DecodeAllocation (Annotations (claim_meta claim)) = Ok (Some a) ∧
    h = l ++ [Did ListNodes (Ok nodes)] ∧ no_owned a nodes ∧ P a.

Definition pending_guard (claim : NodeClaim) : guard := λ h _ e,
  match e with
  | DeleteNode node uid => may_delete_node claim node uid
  | DeleteWorkerPool c id => after_no_owned claim h (λ a, may_delete a h c id)
  | DeleteConfigMap cm uid version =>
      after_no_owned claim h (λ a, may_release a h cm uid version)
  | CreateWorkerPool _ _ => False
  | _ => True
  end.

Lemma owned_loop_wp claim a nodes found h :
  DecodeAllocation (Annotations (claim_meta claim)) = Ok (Some a) →
  wp (pending_guard claim) (owned_loop a nodes found) h (λ h' r,
    match r with
    | Ok b => b = false → found = false ∧ no_owned a nodes ∧ h' = h
    | Err e => clean h' → IsNodeClaimNotFoundError e = false
    end).
Proof.
  intros Hd. revert found h. induction nodes as [|n nodes IH]; intros found h; cbn [owned_loop].
  { intros ->. split_and!; try done. constructor. }
  destruct (owned_node a n) eqn:Eo; cbn [negb].
  - destruct (ungraceful a n) eqn:Eu; [done|]. case_bool_decide as Edel.
    + eapply wp_mono; [|apply IH]. intros h' [b|e]; [|done]. intros Hb Hf.
      by destruct (Hb Hf).
    + split; [exists a; split_and!; try done; by apply eq_None_not_Some|].
      intros answer. destruct (IgnoreNotFound answer) as [e|] eqn:Ea.
      { intros Hc. apply (clean_head _ _ _ _ Hc). cbn. destruct answer as [e'|]; [|done]. cbn in Ea.
        destruct (kube_IsNotFound e'); [done|]. by injection Ea as ->. }
      eapply wp_mono; [|apply IH]. intros h' [b|e]; [|done]. intros Hb Hf.
      by destruct (Hb Hf).
  - eapply wp_mono; [|apply IH]. intros h' [b|e]; [|done]. intros Hb Hf.
    destruct (Hb Hf) as (? & ? & ?). split_and!; try done. by constructor.
Qed.

(** Nothing is left of what a claim without a provider ID may have launched:
    it has no allocation, or no Node and the reservation was released. *)
Definition nothing_pending (claim : NodeClaim) (h : history iks_call) : Prop :=
  DecodeAllocation (Annotations (claim_meta claim)) = Ok None ∨
  ∃ lock h', h = Did (Unlock lock) tt :: h' ∧ after_no_owned claim h' (λ a, released a h').

Definition pending_post (claim : NodeClaim) (h : history iks_call) (r : err) : Prop :=
  clean h → ∀ e, r = Some e → IsNodeClaimNotFoundError e = true → nothing_pending claim h.

Lemma pending_benign claim h e : (clean h → IsNodeClaimNotFoundError e = false) → pending_post claim h (Some e).
Proof. intros He Hc x [= <-] Hx. by rewrite He in Hx. Qed.

Lemma Cleanup_wp claim :
  claim_ProviderID claim = ""%string → wp (pending_guard claim) (Cleanup p claim) [] (pending_post claim).
Proof.
  intros Hp. unfold Cleanup. rewrite Hp. cbn [empty negb String.eqb].
  destruct (DecodeAllocation _) as [[a|]|e] eqn:Hd; try done.
  2:{ intros _ e [= <-] _. by left. }
  2:{ apply pending_benign. intros _. by eapply decode_benign. }
  split_if; [by apply pending_benign|]. split_if; [by apply pending_benign|]. split; [done|].
  intros [nodes|e]; [|apply pending_benign; intros Hc; by apply (clean_head _ _ _ _ Hc)].
  apply wp_bind. eapply wp_mono; [|by apply owned_loop_wp].
  intros h [[|]|e]; [done| |by apply pending_benign]. intros Hf. destruct (Hf eq_refl) as (_ & Hno & ->).
  eapply wp_mono; [|eapply wp_guard_mono; [|apply wp_extends, wp_grows, (cleanup_wp p a)]]; [| |done].
  - intros h r [[_ Hr] [l El]] Hc e He Hn. destruct (Hr Hc e He Hn) as (h' & Eh & Hrel). right.
    exists (lock_of (ClusterID a) (al_PoolName a)), h'. split; [done|]. rewrite Eh in El.
    destruct l as [|ev l]; [done|]. exists a, nodes, l. split_and!; [done| |done|done].
    by apply (f_equal tail) in El.
  - intros h R e [Hg [l ->]]. destruct e; try done; exists a, nodes, l; done.
Qed.

(** ** The confirmation that a bound allocation is gone *)

(** IKS has neither the pool nor the worker of the allocation the claim is bound
    to. *)
Definition seen_absent (claim : NodeClaim) (a : Allocation) (h : history iks_call) : Prop :=
  DecodeAllocation (Annotations (claim_meta claim)) = Ok (Some a) ∧ ClaimUID a = UID (claim_meta claim) ∧
  claim_ProviderID claim = iks_provider_id (AccountID a) (ClusterID a) (WorkerID a) ∧
  WorkerID a ≠ ""%string ∧
  (∃ pool e, asked h (GetWorkerPool (ClusterID a) (al_PoolName a)) (pool, Some e) ∧ IsNotFound (Some e) = true) ∧
  ∃ w we, asked h (GetWorkerDetails (ClusterID a) (WorkerID a)) (w, we) ∧ IsNotFound (worker_gone w we) = true.

Definition reservation_gone (a : Allocation) (h : history iks_call) : Prop :=
  (∃ e, asked h (GetConfigMap (key_of a)) (Err e) ∧ kube_IsNotFound e = true) ∨
  ∃ cm answer, asked h (GetConfigMap (key_of a)) (Ok cm) ∧ foreign_reservation cm a = false ∧
    asked h (DeleteConfigMap cm (UID (cm_meta cm)) (ResourceVersion (cm_meta cm))) answer ∧
    IgnoreNotFound answer = None.

Definition confirmed_gone (claim : NodeClaim) (h : history iks_call) : Prop :=
  ∃ a, seen_absent claim a h ∧ reservation_gone a h.

Definition confirm_guard (claim : NodeClaim) : guard := λ h _ e,
  match e with
  | DeleteConfigMap cm uid version =>
      uid = UID (cm_meta cm) ∧ version = ResourceVersion (cm_meta cm) ∧
      ∃ a, seen_absent claim a h ∧ asked h (GetConfigMap (key_of a)) (Ok cm) ∧ foreign_reservation cm a = false
  | CreateWorkerPool _ _ | DeleteWorkerPool _ _ | DeleteNode _ _ => False
  | _ => True
  end.

Definition confirm_post (claim : NodeClaim) (h : history iks_call) (r : err) : Prop :=
  clean h → ∀ e, r = Some e → IsNodeClaimNotFoundError e = true → confirmed_gone claim h.

Lemma confirm_benign claim h e : (clean h → IsNodeClaimNotFoundError e = false) → confirm_post claim h (Some e).
Proof. intros He Hc x [= <-] Hx. by rewrite He in Hx. Qed.

Lemma seen_absent_app claim a l h : seen_absent claim a h → seen_absent claim a (l ++ h).
Proof.
  intros (? & ? & ? & ? & (pool & e & Hp & ?) & w & we & Hw & ?). split_and!; try done.
  - exists pool, e. split; [by apply asked_app|done].
  - exists w, we. split; [by apply asked_app|done].
Qed.

Lemma confirm_absent_wp claim a h :
  seen_absent claim a h → wp (confirm_guard claim) (confirm_absent a) h (confirm_post claim).
Proof.
  intros Ha. unfold confirm_absent. cbv zeta. split; [done|]. intros [cm|e].
  - split_if; [by apply confirm_benign|]. split.
    { split_and!; [done|done|]. exists a. split_and!; [by apply (seen_absent_app _ _ [_])|apply asked_here|done]. }
    intros answer. destruct (IgnoreNotFound answer) as [e|] eqn:Ei.
    + apply confirm_benign. intros Hc. destruct answer as [e'|]; [|done]. cbn in Ei.
      destruct (kube_IsNotFound e'); [done|]. injection Ei as ->. by apply (clean_head _ _ _ _ Hc).
    + intros _ e [= <-] _. exists a. split; [by apply (seen_absent_app _ _ [_; _])|].
      right. exists cm, answer. split_and!; auto with go_db.
  - split_if.
    + intros _ x [= <-] _. exists a. split; [by apply (seen_absent_app _ _ [_])|].
      left. exists e. split; [apply asked_here|done].
    + apply confirm_benign. intros Hc. by apply (clean_head _ _ _ _ Hc).
Qed.

Lemma ConfirmGone_wp claim : wp (confirm_guard claim) (ConfirmGone p claim) [] (confirm_post claim).
Proof.
  assert (HG : ∀ h R e, quiet R e = true → confirm_guard claim h R e) by (by intros ? ? []).
  unfold ConfirmGone. destruct (DecodeAllocation _) as [[a|]|e] eqn:Hd; try by apply confirm_benign.
  2:{ apply confirm_benign. intros _. by eapply decode_benign. }
  split_if; [by apply confirm_benign|]. split_if; [by apply confirm_benign|].
  apply negb_false_iff, String.eqb_eq in Heqb. apply negb_false_iff, String.eqb_eq in Heqb0.
  unfold locked. split; [done|]. intros []. apply wp_bind.
  eapply wp_mono with (Q := confirm_post claim).
  { intros h r Hr. split; [done|]. intros [] Hc e -> Hn.
    destruct (Hr (clean_tail _ _ Hc) e eq_refl Hn) as (a' & Ha & Hres). exists a'.
    split; [by apply (seen_absent_app _ _ [_])|]. destruct Hres as [(e' & ? & ?)|(cm & answer & ? & ? & ? & ?)].
    - left. exists e'. split; [by apply asked_later|done].
    - right. exists cm, answer. split_and!; try done; by apply asked_later. }
  unfold confirm_locked.
  apply (wp_check_quiet _ HG _ _ _ _ (λ _ _, True) (ClusterUID_quiet p) (ClusterUID_benign p _ HG _)
    (wp_any _ HG _ _ (ClusterUID_quiet p))).
  2:{ intros l e _ Hb. by apply confirm_benign. }
  intros l1 uid _ _. split_if; [by apply confirm_benign|].
  apply (wp_check_quiet _ HG _ _ _ _ (λ _ _, True) (getIKSClient_quiet p) (getIKSClient_benign p _ HG _)
    (wp_any _ HG _ _ (getIKSClient_quiet p))).
  2:{ intros l e _ Hb. by apply confirm_benign. }
  intros l2 c _ _. destruct (validateTarget _ _ _ _) as [e|] eqn:Et.
  { apply confirm_benign. intros _. by eapply target_benign. }
  split; [done|]. intros [pool [e|]]; [|by intros _ ? [=]]. split_if.
  { apply confirm_benign. intros Hc. by apply (clean_head _ _ _ _ Hc). }
  split_if; [by apply confirm_benign|]. split; [done|]. intros [w we].
  destruct (worker_gone w we) as [x|] eqn:Eg; [|by intros _ ? [=]]. split_if.
  - apply confirm_benign. intros Hc. by apply (worker_gone_error _ _ _ _ _ Hc).
  - apply confirm_absent_wp. split_and!; [done|done|done|by apply String.eqb_neq| |].
    + exists pool, e. split; [auto with go_db|]. by apply negb_false_iff.
    + exists w, we. split; [apply asked_here|]. rewrite Eg. by apply negb_false_iff.
Qed.

(** Cleaning up a claim that has no provider ID deletes the pool, or
    releases the reservation, only when none of the listed nodes belongs to
    the allocation, and then under the guarantees of the deletion.  When some
    do, it only asks Kubernetes to delete them, each being an owned node with
    the termination finalizer, so that it is drained first. *)
Theorem pending_cleanup_spares_nodes (claim : NodeClaim) (tr : history iks_call) (r : err)
    (Hpending : claim_ProviderID claim = ""%string)
    (Hrun : runs (Cleanup p claim) tr r) :
  ∀ before R (e : iks_call R) answer after, tr = before ++ Did e answer :: after →
    pending_guard claim (reverse before) R e.
Proof.
  destruct (wp_sound _ _ _ _ _ _ (Cleanup_wp claim Hpending) Hrun) as [Hg _].
  intros before R e answer after ->. apply guarded_at in Hg. by rewrite app_nil_r in Hg.
Qed.
End pending_cleanup.
