(* ===== verification/IksExample.v ===== *)
(** * IksExample: the IKS programs run against a concrete cluster

    A small model of the two APIs, one cluster with one claim, and a codec for
    its allocations.  The launch, the cleanup and the lookups are run on it,
    and the theorems of [IksLaunchSafety] and [IksCleanupSafety] are applied
    to those runs: their hypotheses can hold, and the runs do create and
    delete a pool. *)
From stdpp Require Import prelude list strings gmap.
From Stdlib Require Import Ascii SpecFloat.
From S2P Require Import Prelude GoLib GoSort GoRegexp Errors NodeClass ProviderIDs.
From S2P Require Import Ownership Prog Kube IksApi IksAllocation IksLaunch IksLaunchSafety IksCleanup IksCleanupSafety.

Import Strings.

Open Scope string_scope.
Open Scope list_scope.

(** ** The claim, its class and its allocation *)
Definition account : string := "0123456789abcdef0123456789abcdef".

Definition claim_meta0 : ObjectMeta :=
  {| Name := "claim-1"; UID := "uid-claim"; ResourceVersion := "7"; Generation := 1;
     DeletionTimestamp := None; CreationTimestamp := 0;
     Labels := {[LabelInstanceTypeStable := "bx2.2x8"]}; Annotations := ∅; Finalizers := [] |}.

Definition resources : ResourceList := <[cpu := 2000%Z]> {[memory := 8000%Z]}.

Definition claim0 : NodeClaim :=
  {| claim_meta := claim_meta0;
     NodeClassRef := Some {| ref_Group := "karpenter-ibm.sh"; ref_Kind := "IBMNodeClass"; ref_Name := "default" |};
     Requests := {[cpu := 1000%Z]}; Requirements := []; claim_ProviderID := "";
     claim_NodeName := ""; claim_ImageID := ""; claim_Capacity := ∅; claim_Allocatable := ∅;
     claim_Conditions := [] |}.

Definition class_spec : IBMNodeClassSpec :=
  {| Region := "us-south"; Zone := "us-south-1"; InstanceProfile := ""; InstanceRequirements := None;
     Image := ""; ImageSelector_ := None; VPC := "vpc-1"; Subnet := "subnet-1";
     PlacementStrategy_ := None; SecurityGroups := []; UserData := "";
     UserDataAppend := ""; SSHKeys := []; ResourceGroup := ""; PlacementTarget := "";
     Tags := ∅; BootstrapMode := None; APIServerEndpoint := ""; IKSClusterID := "cluster-1";
     IKSWorkerPoolID := "";
     IKSDynamicPools := Some {| Enabled := true; NamePrefix := ""; dp_Labels := {["team" := "a"]};
       DiskEncryption := None; AllowedInstanceTypes := []; CleanupPolicy := None |};
     LoadBalancerIntegration_ := None; BlockDeviceMappings := []; Kubelet := None |}.

Definition class0 : IBMNodeClass :=
  {| nc_meta :=
       {| Name := "default"; UID := "uid-class"; ResourceVersion := "3"; Generation := 2;
          DeletionTimestamp := None; CreationTimestamp := 0; Labels := ∅; Annotations := ∅;
          Finalizers := [] |};
     Spec := class_spec;
     Status :=
       {| LastValidationTime := 0; ValidationError := ""; SelectedInstanceTypes := [];
          SelectedSubnets := []; ResolvedSecurityGroups := []; ResolvedImageID := "";
          Conditions := [{| cond_Type := "Ready"; cond_Status := "True"; LastTransitionTime := Some 0%Z;
            cond_Reason := ""; cond_Message := ""; ObservedGeneration := 2 |}] |} |}.

Definition toy_sum (s : string) : string := ("S" ++ s)%string.
Definition example_pool_name : string := ("karp-" ++ hex (take 24 (toy_sum "uid-cluster/uid-claim")))%string.

Definition base : Allocation :=
  {| ClaimName := "claim-1"; ClaimUID := "uid-claim"; NodeClassUID := "uid-class";
     ClusterUID := "uid-cluster"; ClusterID := "cluster-1"; AccountID := account;
     al_Region := "us-south"; Namespace := "karpenter"; al_PoolName := example_pool_name;
     PoolID := ""; WorkerID := ""; NodePool := ""; al_Hash := "42";
     al_Labels := <["team" := "a"]> (<[CapacityTypeLabelKey := CapacityTypeOnDemand]>
       (<[LabelTopologyRegion := "us-south"]> (<[LabelTopologyZone := "us-south-1"]>
       {[LabelInstanceTypeStable := "bx2.2x8"]})));
     al_Capacity := resources; al_Allocatable := resources;
     Request :=
       {| rq_Name := example_pool_name; rq_Flavor := "bx2.2x8"; rq_SizePerZone := 1;
          rq_Zones := [{| zone_ID := "us-south-1"; zone_SubnetID := "subnet-1" |}];
          rq_Labels := <[NodeClassUIDLabel := "uid-class"]> (<[ClaimUIDLabel := "uid-claim"]>
            (<[ClusterUIDLabel := "uid-cluster"]> (<[ProviderLabel := "iks"]>
            (<[ManagedLabel := "true"]> (<[NodePoolLabelKey := ""]> {["team" := "a"]})))));
          rq_DiskEncryption := true; rq_VpcID := "vpc-1" |} |}.

(** ** A codec for its allocations *)
#[export] Instance WorkerPoolZone_eq_dec : EqDecision WorkerPoolZone.
Proof. solve_decision. Defined.
#[export] Instance WorkerPoolCreateRequest_eq_dec : EqDecision WorkerPoolCreateRequest.
Proof. solve_decision. Defined.
#[export] Instance Allocation_eq_dec : EqDecision Allocation.
Proof. solve_decision. Defined.

Definition bar : ascii := "|".

Definition toy_marshal (a : Allocation) : result GoErrors.error string :=
  if decide (with_ids a "" "" = base) then
    if free_of bar (PoolID a) then Ok (PoolID a ++ String bar (WorkerID a))%string
    else Err (GoErrors.New "not encoded")
  else Err (GoErrors.New "not encoded").

Definition toy_unmarshal (s : string) : result GoErrors.error Allocation :=
  match cut bar s with
  | Some (pool, worker) => Ok (with_ids base pool worker)
  | None => Err (GoErrors.New "not an allocation")
  end.

(** A time as the bits of its seconds. *)
Fixpoint bits (n : positive) : string :=
  match n with
  | xH => ""
  | xO n' => String "0" (bits n')
  | xI n' => String "1" (bits n')
  end.
Fixpoint of_bits (s : string) : positive :=
  match s with
  | "" => xH
  | String c s' => if Ascii.eqb c "0" then xO (of_bits s') else xI (of_bits s')
  end.

Lemma of_bits_bits n : of_bits (bits n) = n.
Proof. induction n as [n IH|n IH|]; cbn; by rewrite ?IH. Qed.

Definition toy_format (t : Z) : string := bits (Z.to_pos (t / GoTime.Second + 1)).
Definition toy_parse (s : string) : option Z :=
  if String.eqb s "-" then None else Some ((Zpos (of_bits s) - 1) * GoTime.Second)%Z.

#[export] Instance toy_stdlib : Stdlib :=
  {| Marshal := toy_marshal; Unmarshal := toy_unmarshal; Sum256 := toy_sum;
     FormatRFC3339 := toy_format; ParseRFC3339 := toy_parse |}.

Lemma toy_marshal_Ok a s :
  toy_marshal a = Ok s → s = (PoolID a ++ String bar (WorkerID a))%string ∧
  a = with_ids base (PoolID a) (WorkerID a) ∧ free_of bar (PoolID a) = true.
Proof.
  unfold toy_marshal. destruct (decide _) as [E|]; [|done]. destruct (free_of _ _); [|done].
  intros [= <-]. split_and!; try done. rewrite <-E. by destruct a.
Qed.

#[export] Instance toy_laws : StdlibLaws.
Proof.
  split.
  - intros a s (-> & Ea & Hf)%toy_marshal_Ok. cbn. unfold toy_unmarshal.
    rewrite (proj2 (cut_Some bar _ (PoolID a) (WorkerID a))) by done. by rewrite <-Ea.
  - intros a s (-> & _)%toy_marshal_Ok. by destruct (PoolID a).
  - intros t [Ht _]. cbn. unfold toy_parse, toy_format.
    assert (Hq : (0 ≤ t / GoTime.Second)%Z) by (apply Z.div_pos; done).
    destruct (String.eqb_spec (bits (Z.to_pos (t / GoTime.Second + 1))) "-") as [E|].
    { exfalso. by destruct (Z.to_pos _). }
    rewrite of_bits_bits, Z2Pos.id by lia. f_equal.
    pose proof (Z.div_mod t GoTime.Second ltac:(done)). lia.
Qed.

#[export] Instance toy_codec : CodecErrors.
Proof.
  split.
  - intros a e. cbn. unfold toy_marshal. destruct (decide _); [|by intros [= <-]].
    destruct (free_of _ _); [done|by intros [= <-]].
  - intros s e. cbn. unfold toy_unmarshal. destruct (cut _ _) as [[? ?]|]; [done|by intros [= <-]].
Qed.

#[export] Instance toy_karpenter : Karpenter :=
  {| Fits := λ requests available, bool_decide (map_Forall (λ k v, (v ≤ quantity available k)%Z) requests);
     Compatible := λ _ _, None;
     IsCompatible := λ _ _, true;
     WellKnownLabel := λ k, String.eqb k LabelInstanceTypeStable;
     ParseFloat := λ _, None;
     ReqsCompatible := λ _ _, None; OfferingCompatible := λ _ _, true; Allows := λ _ _ _, true;
     HashStructure := λ _, Ok 42%Z |}.

(** ** The two APIs *)
Record cloud := {
  pool_ : option WorkerPool;
  stored : option ConfigMap;
  nodes_ : list Node;
}.

Definition the_pool : WorkerPool :=
  {| pool_ID := "pool-1"; pool_Name := example_pool_name; pool_Flavor := "bx2.2x8";
     pool_Zone := "us-south-1"; SizePerZone := 1; ActualSize := 1; pool_State := "normal";
     pool_Labels := rq_Labels (Request base); pool_CreatedAt := 0; pool_UpdatedAt := 0;
     pool_Zones := [{| zone_ID := "us-south-1"; zone_SubnetID := "subnet-1" |}];
     AutoscaleEnabled := false |}.

Definition the_worker : IKSWorkerDetails :=
  {| worker_ID := "worker-1"; worker_Provider := "vpc-gen2"; worker_Flavor := "bx2.2x8";
     Location := "us-south-1"; worker_PoolID := "pool-1"; worker_PoolName := example_pool_name;
     NetworkInterfaces := [{| ni_SubnetID := "subnet-1"; ni_IPAddress := "10.0.0.4"; ni_CIDR := "";
       Primary := true |}];
     Health := {| health_State := "normal"; health_Message := "" |};
     Lifecycle := {| DesiredState := "deployed"; ActualState := "deployed"; lc_Message := "" |} |}.

Definition not_found : GoErrors.error :=
  GoErrors.httpError {| HttpClient.http_StatusCode := 404; HttpClient.http_Code := "";
    HttpClient.http_Message := ""; HttpClient.http_Description := "";
    HttpClient.http_Type := ""; HttpClient.http_Endpoint := "" |}.
Definition kube_not_found : GoErrors.error := GoErrors.foreignError (GoErrors.KubeStatus "NotFound") "not found" [].

Definition the_type : InstanceType :=
  {| it_Name := "bx2.2x8"; it_Requirements := ∅;
     Offerings := [{| off_Requirements := []; Price := S754_zero false; Available := true |}];
     it_Capacity := resources; it_Allocatable := resources |}.

Definition kube_system : ObjectMeta :=
  {| Name := "kube-system"; UID := "uid-cluster"; ResourceVersion := "1"; Generation := 0;
     DeletionTimestamp := None; CreationTimestamp := 0; Labels := ∅; Annotations := ∅; Finalizers := [] |}.

Definition has_worker (s : cloud) : bool :=
  match pool_ s with Some p => (ActualSize p =? 1)%Z | None => false end.

(** A service that answers every request from its state. *)
Definition serve (R : Type) (e : iks_call R) : cloud → R * cloud :=
  match e in iks_call R return cloud → R * cloud with
  | GetNodeClaim _ => λ s, (Ok claim0, s)
  | GetNodeClass _ => λ s, (Ok class0, s)
  | GetNamespace _ => λ s, (Ok kube_system, s)
  | GetConfigMap _ => λ s, (match stored s with Some cm => Ok cm | None => Err kube_not_found end, s)
  | ListNodeClaims => λ s, (Ok [], s)
  | ListNodes => λ s, (Ok (nodes_ s), s)
  | PatchNodeClaim _ fresh => λ s, (Ok fresh, s)
  | CreateConfigMap cm => λ s, (Ok cm, {| pool_ := pool_ s; stored := Some cm; nodes_ := nodes_ s |})
  | PatchConfigMap _ cm => λ s, (Ok cm, {| pool_ := pool_ s; stored := Some cm; nodes_ := nodes_ s |})
  | DeleteConfigMap _ _ _ => λ s, (None, {| pool_ := pool_ s; stored := None; nodes_ := nodes_ s |})
  | DeleteNode _ _ => λ s, (None, {| pool_ := pool_ s; stored := stored s; nodes_ := [] |})
  | GetIKSClient => λ s, (Ok {| target := None |}, s)
  | GetWorkerPool _ _ => λ s, (match pool_ s with Some p => (Some p, None) | None => (None, Some not_found) end, s)
  | CreateWorkerPool _ _ => λ s, ((Some the_pool, None), {| pool_ := Some the_pool; stored := stored s; nodes_ := nodes_ s |})
  | DeleteWorkerPool _ _ => λ s, (None, {| pool_ := None; stored := stored s; nodes_ := nodes_ s |})
  | ListWorkers _ => λ s, (Ok (if has_worker s then [Some the_worker] else []), s)
  | GetWorkerDetails _ _ => λ s, (if has_worker s then (Some the_worker, None) else (None, Some not_found), s)
  | GetInstanceType _ _ => λ s, (Ok (Some the_type), s)
  | FilterInstanceTypes _ _ => λ s, (Ok [Some the_type], s)
  | Now => λ s, (1000000000%Z, s)
  | Lock _ => λ s, (tt, s)
  | Unlock _ => λ s, (tt, s)
  end.

Definition provider0 : IKSWorkerPoolProvider :=
  {| client := Some "us-south"; kubeClient := true; apiReader := true; iksClient := None;
     allocationNamespace := ""; instanceTypeProvider := true;
     Getenv := λ k, if String.eqb k "IBM_ACCOUNT_ID" then account else "" |}.

Definition nothing : cloud := {| pool_ := None; stored := None; nodes_ := [] |}.

Definition created (e : event iks_call) : bool :=
  match e with Did c _ => match c with CreateWorkerPool _ _ => true | _ => false end end.
Definition deleted (e : event iks_call) : bool :=
  match e with Did c _ => match c with DeleteWorkerPool _ _ => true | _ => false end end.
Definition releases (e : event iks_call) : bool :=
  match e with Did c _ => match c with DeleteConfigMap _ _ _ => true | _ => false end end.

Definition run {A} (p : iks_prog A) (s : cloud) : iks_history * A * cloud := interp serve p s.
Definition trace {A} (p : iks_prog A) (s : cloud) : iks_history := (run p s).1.1.
Definition answer_of {A} (p : iks_prog A) (s : cloud) : A := (run p s).1.2.
Definition after {A} (p : iks_prog A) (s : cloud) : cloud := (run p s).2.

Lemma ran {A} (p : iks_prog A) s : runs p (trace p s) (answer_of p s).
Proof. apply interp_runs. Qed.

(** [clean] as a test. *)
Definition clean_event (ev : event iks_call) : bool :=
  match ev with
  | Did e r => match answer_error e r with Some x => negb (IsNodeClaimNotFoundError x) | None => true end
  end.

Lemma clean_test h : forallb clean_event h = true → clean h.
Proof.
  intros Hf. apply Forall_forall. intros [R e r] Hin.
  rewrite forallb_forall in Hf. specialize (Hf _ (proj1 (list_elem_of_In _ _) Hin)). cbn in Hf.
  intros x Hx. rewrite Hx in Hf. by apply negb_true_iff.
Qed.

(** ** The launch *)
Definition launch0 : iks_prog (result GoErrors.error Node) := createAllocation provider0 (Some claim0).
Definition launched_cloud : cloud := after launch0 nothing.

(** The launch of a new claim creates a pool, safely. *)
Lemma launch_creates_safely_witness :
  existsb created (trace launch0 nothing) = true ∧
  (∀ before c req answer rest,
     trace launch0 nothing = before ++ Did (CreateWorkerPool c req) answer :: rest →
     may_create (reverse before) c req).
Proof.
  split; [vm_compute; reflexivity|].
  apply (launch_creates_safely provider0 (Some claim0) (trace launch0 nothing)
           (answer_of launch0 nothing) (ran launch0 nothing)).
Defined.

Definition returned_node : Node :=
  match answer_of launch0 nothing with Ok n => n | Err _ => workerNode "" "" "" the_worker end.

Lemma launch0_returns : answer_of launch0 nothing = Ok returned_node.
Proof. vm_compute. reflexivity. Qed.

(** It returns the node of the claim's worker. *)
Lemma launch_returns_own_worker_witness :
  node_ProviderID returned_node = iks_provider_id account "cluster-1" "worker-1" ∧
  launched (reverse (trace launch0 nothing)) "uid-claim" returned_node.
Proof.
  split; [vm_compute; reflexivity|].
  apply (launch_returns_own_worker provider0 claim0 (trace launch0 nothing) returned_node).
  rewrite <-launch0_returns. apply (ran launch0 nothing).
Defined.

(** ** The deletion *)
Definition allocated : Allocation := with_ids base "pool-1" "worker-1".
Definition cleanup0 : iks_prog err := cleanup provider0 allocated.
Definition deleted_cloud : cloud := after cleanup0 launched_cloud.

Definition is_gone (r : err) : bool :=
  match r with Some e => IsNodeClaimNotFoundError e | None => false end.

(** A first call deletes the pool; the next one finds pool and worker absent,
    releases the reservation and reports the claim gone. *)
Lemma cleanup_is_exact_witness :
  existsb deleted (trace cleanup0 launched_cloud) = true ∧
  existsb releases (trace cleanup0 deleted_cloud) = true ∧
  is_gone (answer_of cleanup0 deleted_cloud) = true ∧
  (∀ before c id answer rest,
     trace cleanup0 launched_cloud = before ++ Did (DeleteWorkerPool c id) answer :: rest →
     may_delete allocated (reverse before) c id) ∧
  (∃ h', reverse (trace cleanup0 deleted_cloud) =
     Did (Unlock (lock_of "cluster-1" example_pool_name)) tt :: h' ∧ released allocated h').
Proof.
  split; [vm_compute; reflexivity|]. split; [vm_compute; reflexivity|].
  assert (Hg : is_gone (answer_of cleanup0 deleted_cloud) = true) by (vm_compute; reflexivity).
  split; [exact Hg|]. split.
  - apply (cleanup_is_exact provider0 allocated _ _ (ran cleanup0 launched_cloud)).
  - destruct (answer_of cleanup0 deleted_cloud) as [e|] eqn:Ea; [|done].
    eapply (cleanup_is_exact provider0 allocated _ _ (ran cleanup0 deleted_cloud)); [|exact Ea|exact Hg].
    apply clean_test. vm_compute. reflexivity.
Defined.

(** ** The lookup of a deleted worker *)
Definition recorded_claim : NodeClaim :=
  set_meta claim0 (checkpointed_meta claim_meta0 "pool-1|worker-1" allocated).
Definition worker_pid : string := iks_provider_id account "cluster-1" "worker-1".
Definition lookup0 : iks_prog (result GoErrors.error Node) :=
  getWorkerFrom provider0 worker_pid (Some ([recorded_claim], [])).
Definition lookup_error : GoErrors.error :=
  match answer_of lookup0 deleted_cloud with Err e => e | Ok _ => not_found end.

Lemma lookup0_answer : answer_of lookup0 deleted_cloud = Err lookup_error.
Proof. vm_compute. reflexivity. Qed.

Lemma absence_needs_evidence_witness :
  is_gone (Some lookup_error) = true ∧
  gone_evidence (reverse (trace lookup0 deleted_cloud)) worker_pid (Some ([recorded_claim], [])).
Proof.
  split; [vm_compute; reflexivity|].
  apply (absence_needs_evidence provider0 worker_pid (Some ([recorded_claim], []))
           (trace lookup0 deleted_cloud) lookup_error).
  - rewrite <-lookup0_answer. apply (ran lookup0 deleted_cloud).
  - apply clean_test. vm_compute. reflexivity.
  - vm_compute. reflexivity.
Defined.

(** ** The cleanup of a claim without a provider ID *)
Definition pending_claim : NodeClaim :=
  set_meta claim0 (checkpointed_meta claim_meta0 "|" base).

(** A node of the allocation that registered before the claim was bound. *)
Definition early_node : Node :=
  {| node_meta :=
       {| Name := "node-1"; UID := "uid-node"; ResourceVersion := "1"; Generation := 0;
          DeletionTimestamp := None; CreationTimestamp := 0;
          Labels := <[NodeClassLabelKey := "default"]> (<[ClusterUIDLabel := "uid-cluster"]>
            {[ClaimUIDLabel := "uid-claim"]});
          Annotations := ∅; Finalizers := [TerminationFinalizer] |};
     node_ProviderID := worker_pid; Unschedulable := false; OwnerReferences := []; node_Status := no_status |}.
Definition early_cloud : cloud :=
  {| pool_ := pool_ launched_cloud; stored := stored launched_cloud; nodes_ := [early_node] |}.

Definition pending0 : iks_prog err := Cleanup provider0 pending_claim.

Definition deletes_node (e : event iks_call) : bool :=
  match e with Did c _ => match c with DeleteNode _ _ => true | _ => false end end.

(** With the node registered only the node is deleted; without it the pool
    is. *)
Lemma pending_cleanup_spares_nodes_witness :
  existsb deletes_node (trace pending0 early_cloud) = true ∧
  existsb deleted (trace pending0 early_cloud) = false ∧
  existsb deleted (trace pending0 launched_cloud) = true ∧
  (∀ before R (e : iks_call R) answer rest, trace pending0 early_cloud = before ++ Did e answer :: rest →
     pending_guard pending_claim (reverse before) R e) ∧
  (∀ before R (e : iks_call R) answer rest, trace pending0 launched_cloud = before ++ Did e answer :: rest →
     pending_guard pending_claim (reverse before) R e).
Proof.
  do 3 (split; [vm_compute; reflexivity|]). split.
  - apply (pending_cleanup_spares_nodes provider0 pending_claim _ _ eq_refl (ran pending0 early_cloud)).
  - apply (pending_cleanup_spares_nodes provider0 pending_claim _ _ eq_refl (ran pending0 launched_cloud)).
Defined.

(** ** An empty pool *)
Definition empty_pool : WorkerPool :=
  {| pool_ID := "pool-9"; pool_Name := "old-pool"; pool_Flavor := "bx2.2x8"; pool_Zone := "us-south-1";
     SizePerZone := 0; ActualSize := 0; pool_State := "normal";
     pool_Labels := <[ManagedLabel := "true"]> (<[ProviderLabel := "iks"]>
       (<[ClusterUIDLabel := "uid-cluster"]> {[NodeClassUIDLabel := "uid-class"]}));
     pool_CreatedAt := 0; pool_UpdatedAt := 0;
     pool_Zones := [{| zone_ID := "us-south-1"; zone_SubnetID := "subnet-1" |}];
     AutoscaleEnabled := false |}.
Definition empty_cloud : cloud := {| pool_ := Some empty_pool; stored := None; nodes_ := [] |}.
Definition delete0 : iks_prog (result GoErrors.error bool) :=
  TryDeleteEmptyPool true true "cluster-1" "uid-cluster" "uid-class" "karpenter" (Some empty_pool)
    account "us-south".

Lemma empty_pool_deletion_is_safe_witness :
  existsb deleted (trace delete0 empty_cloud) = true ∧
  (∀ before c poolID answer rest,
     trace delete0 empty_cloud = before ++ Did (DeleteWorkerPool c poolID) answer :: rest →
     may_delete_empty "cluster-1" "uid-cluster" "uid-class" "karpenter" account "us-south" empty_pool
       (reverse before) c poolID).
Proof.
  split; [vm_compute; reflexivity|].
  apply (empty_pool_deletion_is_safe "cluster-1" "uid-cluster" "uid-class" "karpenter" account
           "us-south" empty_pool true true _ _ (ran delete0 empty_cloud)).
Defined.

(** ** The allocation record *)
Definition reservation_of (data : gmap string string) : ConfigMap :=
  {| cm_Namespace := "karpenter"; cm_meta := no_meta; Data := data |}.

(** A claim that does not know its pool learns it from the reservation. *)
Lemma restore_keeps_identity_witness :
  ∃ recorded, merged (PoolID base) (PoolID recorded) "pool-1" ∧ complete (with_ids base "pool-1" "worker-1").
Proof.
  destruct (restore_keeps_identity base (with_ids base "pool-1" "worker-1")
    (reservation_of {[reservationDataKey := "pool-1|worker-1"]})) as (r & _ & _ & _ & Hp & _ & Hc).
  - vm_compute. reflexivity.
  - exists r. split; [exact Hp|exact Hc].
Defined.

Lemma uncertainty_window_witness :
  creationUncertain (set_data (reservation_of ∅)
    (updates (phase_data ∅ "s" "creating" "" 1500000000) [("deleting", "", 1800000000%Z)]))
    (1500000000 + 14 * GoTime.Minute) = true ∧
  creationUncertain (set_data (reservation_of ∅)
    (updates (phase_data ∅ "s" "creating" "" 1500000000) [("deleting", "", 1800000000%Z)]))
    (1500000000 + 15 * GoTime.Minute) = false.
Proof.
  split.
  - etransitivity; [apply (uncertainty_window (reservation_of ∅))|]; [repeat constructor|done|done|reflexivity].
  - etransitivity; [apply (uncertainty_window (reservation_of ∅))|]; [repeat constructor|done|done|reflexivity].
Defined.

Lemma known_outcome_is_certain_witness :
  creationUncertain (set_data (reservation_of ∅) (phase_data ∅ "s" "deleting" "pool-1" 0)) 5 = false.
Proof. apply (known_outcome_is_certain (reservation_of ∅) "s" "deleting" "pool-1" 0 5). right. right. discriminate. Defined.
