(* ===== verification/Drift.v ===== *)
(** * Drift: when a node no longer matches its NodeClass

    The drift checks of [pkg/cloudprovider/cloudprovider.go]: a launched claim
    carries, as annotations, the hash of the class it was launched from, its
    image, subnet and security groups; [drift_of] compares them with the class
    as it is now.  [IsDrifted] reads the class and is a program of
    [CloudProvider]. *)
From stdpp Require Import prelude list strings gmap.
From Stdlib Require Import Ascii.
From S2P Require Import Prelude GoLib GoSort GoRegexp Errors NodeClass ProviderIDs Ownership Prog Kube.
From S2P Require Import IksApi IksAllocation.
Import Strings.

Open Scope string_scope.
Open Scope nat_scope.

Definition NodeClassNotFoundDrift : string := "NodeClassNotFound".
Definition NodeClassHashVersionChangedDrift : string := "NodeClassHashVersionChanged".
Definition NodeClassHashChangedDrift : string := "NodeClassHashChanged".
Definition SubnetDrift : string := "SubnetDrift".
Definition ImageDrift : string := "ImageDrift".
Definition SecurityGroupDrift : string := "SecurityGroupDrift".

Definition AnnotationIBMNodeClaimSubnetID : string := "karpenter-ibm.sh/subnet-id".
Definition AnnotationIBMNodeClaimSecurityGroups : string := "karpenter-ibm.sh/security-group-ids".
Definition AnnotationIBMNodeClaimImageID : string := "karpenter-ibm.sh/image-id".

Definition comma : ascii := ",".

(** [hashstructure] on the whole specification, and the JSON of a migration. *)
Class HashDeps := {
  HashSpec : IBMNodeClassSpec → result GoErrors.error Z;
  UnmarshalMigration : string → result GoErrors.error Hash.HashMigration;
}.

Section drift.
Context `{Karpenter} `{HashDeps}.

Definition isNodeClassHashVersionDrifted (annotations : gmap string string) : string :=
  let currentVersion := get annotations AnnotationIBMNodeClassHashVersion in
  if negb (String.eqb currentVersion "1") && negb (String.eqb currentVersion IBMNodeClassHashVersion)
  then NodeClassHashVersionChangedDrift else "".

(** The end of [isNodeClassHashDrifted]: the error, else the comparison. *)
Definition compare_hash (currentHash : string) (expected : string * err) : string * err :=
  match expected with
  | (_, Some err) => ("", Some err)
  | (expectedHash, None) =>
      (if negb (String.eqb expectedHash currentHash) then NodeClassHashChangedDrift else "", None)
  end.

Definition isNodeClassHashDrifted (annotations : gmap string string) (nodeClass : IBMNodeClass)
    : string * err :=
  let currentHash := get annotations AnnotationIBMNodeClassHash in
  let '(expectedHash, err) := Hash.ProvisioningHash HashStructure nodeClass in
  if String.eqb (get annotations AnnotationIBMNodeClassHashVersion) "1" then
    match Hash.ReadHashMigration UnmarshalMigration nodeClass with
    | Err migrationErr => ("", Some migrationErr)
    | Ok (Some migration) =>
        if String.eqb currentHash (Hash.m_LegacyHash migration) then
          if negb (String.eqb expectedHash (Hash.m_ProvisioningHash migration))
          then (NodeClassHashChangedDrift, None)
          else compare_hash currentHash (Hash.m_LegacyHash migration, err)
        else compare_hash currentHash (Hash.LegacyHash HashSpec nodeClass)
    | Ok None => compare_hash currentHash (Hash.LegacyHash HashSpec nodeClass)
    end
  else compare_hash currentHash (expectedHash, err).

Definition isImageDrifted (annotations : gmap string string) (nodeClass : IBMNodeClass) : string :=
  let storedImageID := get annotations AnnotationIBMNodeClaimImageID in
  let currentImageID := ResolvedImageID (Status nodeClass) in
  if negb (empty storedImageID) && negb (empty currentImageID) &&
     negb (String.eqb storedImageID currentImageID)
  then ImageDrift else "".

Definition isSubnetDrifted (annotations : gmap string string) (nodeClass : IBMNodeClass) : string :=
  let storedSubnetID := get annotations AnnotationIBMNodeClaimSubnetID in
  if empty storedSubnetID then ""
  else if negb (empty (Subnet (Spec nodeClass))) then
    if negb (String.eqb storedSubnetID (Subnet (Spec nodeClass))) then SubnetDrift else ""
  else match SelectedSubnets (Status nodeClass) with
       | [] => ""
       | validSubnets => if existsb (String.eqb storedSubnetID) validSubnets then "" else SubnetDrift
       end.

Definition areSecurityGroupsDrifted (annotations : gmap string string) (nodeClass : IBMNodeClass)
    : string :=
  let storedSGs := get annotations AnnotationIBMNodeClaimSecurityGroups in
  if empty storedSGs then ""
  else
    let storedSGSet : gset string := list_to_set (Split storedSGs comma) in
    match ResolvedSecurityGroups (Status nodeClass) with
    | [] => ""
    | current =>
        let currentSGSet : gset string := list_to_set current in
        if bool_decide (storedSGSet = currentSGSet) then "" else SecurityGroupDrift
    end.

(** [IsDrifted], from the reading of the class on. *)
Definition drift_of (annotations : gmap string string) (nodeClass : IBMNodeClass) : string * err :=
  let driftReason := isNodeClassHashVersionDrifted annotations in
  if negb (empty driftReason) then (driftReason, None)
  else
    let '(driftReason, err) := isNodeClassHashDrifted annotations nodeClass in
    if bool_decide (is_Some err) || negb (empty driftReason) then (driftReason, err)
    else
      let driftReason := isImageDrifted annotations nodeClass in
      if negb (empty driftReason) then (driftReason, None)
      else
        let driftReason := isSubnetDrifted annotations nodeClass in
        if negb (empty driftReason) then (driftReason, None)
        else
          let driftReason := areSecurityGroupsDrifted annotations nodeClass in
          if negb (empty driftReason) then (driftReason, None) else ("", None).

(** The answer of reading the class. *)
Definition drift_after (annotations : gmap string string)
    (answer : result GoErrors.error IBMNodeClass) : string * err :=
  match answer with
  | Err err =>
      if kube_IsNotFound err then (NodeClassNotFoundDrift, None)
      else ("", Some (GoErrors.wrap ("getting nodeclass, " ++ GoErrors.Error err) err))
  | Ok nodeClass => drift_of annotations nodeClass
  end.

(** ** What counts as drift *)

(** The image is known on both sides and differs. *)
Definition image_changed (annotations : gmap string string) (nodeClass : IBMNodeClass) : Prop :=
  get annotations AnnotationIBMNodeClaimImageID ≠ "" ∧ ResolvedImageID (Status nodeClass) ≠ "" ∧
  get annotations AnnotationIBMNodeClaimImageID ≠ ResolvedImageID (Status nodeClass).

(** The subnet is known and is neither the class's nor one of its selection. *)
Definition subnet_changed (annotations : gmap string string) (nodeClass : IBMNodeClass) : Prop :=
  let s := get annotations AnnotationIBMNodeClaimSubnetID in
  s ≠ "" ∧
  (Subnet (Spec nodeClass) ≠ "" ∧ s ≠ Subnet (Spec nodeClass) ∨
   Subnet (Spec nodeClass) = "" ∧ SelectedSubnets (Status nodeClass) ≠ [] ∧
   s ∉ SelectedSubnets (Status nodeClass)).

(** The groups, as sets, are known on both sides and differ. *)
Definition groups_changed (annotations : gmap string string) (nodeClass : IBMNodeClass) : Prop :=
  get annotations AnnotationIBMNodeClaimSecurityGroups ≠ "" ∧
  ResolvedSecurityGroups (Status nodeClass) ≠ [] ∧
  ¬ (∀ g, g ∈ Split (get annotations AnnotationIBMNodeClaimSecurityGroups) comma ↔
          g ∈ ResolvedSecurityGroups (Status nodeClass)).

Lemma image_drift_iff annotations nodeClass :
  isImageDrifted annotations nodeClass = "" ↔ ¬ image_changed annotations nodeClass.
Proof.
  unfold isImageDrifted, image_changed, empty.
  destruct (String.eqb_spec (get annotations AnnotationIBMNodeClaimImageID) ""),
    (String.eqb_spec (ResolvedImageID (Status nodeClass)) ""),
    (String.eqb_spec (get annotations AnnotationIBMNodeClaimImageID)
       (ResolvedImageID (Status nodeClass))); cbn; naive_solver.
Qed.

Lemma existsb_eqb_In s l : existsb (String.eqb s) l = true ↔ s ∈ l.
Proof.
  rewrite existsb_exists, list_elem_of_In. split.
  - intros (x & Hx & ->%String.eqb_eq). done.
  - intros Hs. exists s. split; [done|]. apply String.eqb_refl.
Qed.

Lemma subnet_drift_iff annotations nodeClass :
  isSubnetDrifted annotations nodeClass = "" ↔ ¬ subnet_changed annotations nodeClass.
Proof.
  unfold isSubnetDrifted, subnet_changed, empty. cbv zeta.
  destruct (String.eqb_spec (get annotations AnnotationIBMNodeClaimSubnetID) ""); [naive_solver|].
  destruct (String.eqb_spec (Subnet (Spec nodeClass)) ""); cbn [negb].
  - destruct (SelectedSubnets (Status nodeClass)) as [|s l] eqn:Es; [naive_solver|].
    destruct (existsb _ _) eqn:Ex.
    + apply existsb_eqb_In in Ex. naive_solver.
    + assert (get annotations AnnotationIBMNodeClaimSubnetID ∉ s :: l).
      { intros Hin%existsb_eqb_In. congruence. }
      split; [done|]. intros Hn. destruct Hn. naive_solver.
  - destruct (String.eqb_spec (get annotations AnnotationIBMNodeClaimSubnetID)
      (Subnet (Spec nodeClass))); cbn; naive_solver.
Qed.

Lemma groups_drift_iff annotations nodeClass :
  areSecurityGroupsDrifted annotations nodeClass = "" ↔ ¬ groups_changed annotations nodeClass.
Proof.
  unfold areSecurityGroupsDrifted, groups_changed, empty. cbv zeta.
  destruct (String.eqb_spec (get annotations AnnotationIBMNodeClaimSecurityGroups) ""); [naive_solver|].
  destruct (ResolvedSecurityGroups (Status nodeClass)) as [|g l]; [naive_solver|].
  case_bool_decide as Hset.
  - split; [|done]. intros _ (_ & _ & Hn). apply Hn. intros x.
    rewrite <-!(elem_of_list_to_set (C := gset string)). by rewrite Hset.
  - split; [done|]. intros Hn. destruct Hn. split_and!; try done.
    intros Hall. apply Hset. apply set_eq. intros x. by rewrite !elem_of_list_to_set.
Qed.

Lemma hash_2 annotations nodeClass h :
  get annotations AnnotationIBMNodeClassHashVersion = "2" →
  Hash.ProvisioningHash HashStructure nodeClass = (h, None) →
  isNodeClassHashDrifted annotations nodeClass =
    (if String.eqb h (get annotations AnnotationIBMNodeClassHash) then "" else NodeClassHashChangedDrift, None).
Proof.
  intros Hv Hh. unfold isNodeClassHashDrifted. rewrite Hh, Hv. cbn [String.eqb Ascii.eqb Bool.eqb].
  unfold compare_hash. by destruct (String.eqb h _).
Qed.

(** The checks after the hash. *)
Lemma drift_rest annotations nodeClass :
  isNodeClassHashVersionDrifted annotations = "" →
  isNodeClassHashDrifted annotations nodeClass = ("", None) →
  drift_of annotations nodeClass = ("", None) ↔
    ¬ image_changed annotations nodeClass ∧ ¬ subnet_changed annotations nodeClass ∧
    ¬ groups_changed annotations nodeClass.
Proof.
  intros Hv Hh. unfold drift_of. rewrite Hv, Hh. cbn [empty negb String.eqb bool_decide].
  rewrite <-image_drift_iff, <-subnet_drift_iff, <-groups_drift_iff.
  rewrite bool_decide_eq_false_2 by (by intros [? ?]). cbn [orb]. unfold empty.
  repeat match goal with |- context [String.eqb ?x ""] => destruct (String.eqb_spec x "") end;
    cbn [negb]; naive_solver.
Qed.

(** Drift is exactly change: a claim of the current hash version is reported
    as not drifted if and only if its recorded hash is that of the class, and
    neither its image, nor its subnet, nor its set of security groups has
    become another known one.  The decision never fails once the class can be
    hashed. *)
Theorem drift_exact (annotations : gmap string string) (nodeClass : IBMNodeClass) (h : string)
    (Hversion : get annotations AnnotationIBMNodeClassHashVersion = "2")
    (Hhash : Hash.ProvisioningHash HashStructure nodeClass = (h, None)) :
  (drift_of annotations nodeClass).2 = None ∧
  (drift_of annotations nodeClass = ("", None) ↔
    get annotations AnnotationIBMNodeClassHash = h ∧ ¬ image_changed annotations nodeClass ∧
    ¬ subnet_changed annotations nodeClass ∧ ¬ groups_changed annotations nodeClass).
Proof.
  assert (Hv : isNodeClassHashVersionDrifted annotations = "")
    by (unfold isNodeClassHashVersionDrifted; by rewrite Hversion).
  pose proof (hash_2 annotations nodeClass h Hversion Hhash) as Hd.
  destruct (String.eqb_spec h (get annotations AnnotationIBMNodeClassHash)) as [->|Hne].
  - split; [|rewrite drift_rest by done; naive_solver].
    unfold drift_of. rewrite Hv, Hd. cbn [empty negb String.eqb].
    rewrite bool_decide_eq_false_2 by (by intros [? ?]). cbn [orb]. unfold empty.
    repeat match goal with |- context [String.eqb ?x ""] => destruct (String.eqb x "") end; done.
  - unfold drift_of. rewrite Hv, Hd. cbn. split; [done|]. naive_solver.
Qed.

(** The migration of hash version 1: a claim that recorded the legacy hash
    the class was migrated with is compared with the provisioning hash of the
    migration, so that it drifts exactly when the class has changed since;
    every other claim of version 1 is compared with the legacy hash. *)
Theorem drift_migration (annotations : gmap string string) (nodeClass : IBMNodeClass) (h l : string)
    (migration : option Hash.HashMigration)
    (Hversion : get annotations AnnotationIBMNodeClassHashVersion = "1")
    (Hhash : Hash.ProvisioningHash HashStructure nodeClass = (h, None))
    (Hlegacy : Hash.LegacyHash HashSpec nodeClass = (l, None))
    (Hmigration : Hash.ReadHashMigration UnmarshalMigration nodeClass = Ok migration) :
  isNodeClassHashDrifted annotations nodeClass =
    (let current := get annotations AnnotationIBMNodeClassHash in
     if match migration with
        | Some m => if String.eqb current (Hash.m_LegacyHash m)
                    then String.eqb h (Hash.m_ProvisioningHash m) else String.eqb l current
        | None => String.eqb l current
        end then "" else NodeClassHashChangedDrift, None).
Proof.
  unfold isNodeClassHashDrifted. rewrite Hhash, Hversion, Hmigration. cbn [String.eqb Ascii.eqb Bool.eqb].
  cbv zeta. destruct migration as [m|].
  - destruct (String.eqb_spec (get annotations AnnotationIBMNodeClassHash) (Hash.m_LegacyHash m)) as [E|].
    + destruct (String.eqb h (Hash.m_ProvisioningHash m)); cbn; [|done].
      by rewrite E, String.eqb_refl.
    + rewrite Hlegacy. unfold compare_hash. by destruct (String.eqb l _).
  - rewrite Hlegacy. unfold compare_hash. by destruct (String.eqb l _).
Qed.
End drift.
