(* ===== verification/CloudProvider.v ===== *)
(** * CloudProvider: the operations Karpenter calls

    [Create], [Delete], [Get], [List], [GetInstanceTypes] and [IsDrifted] of
    [pkg/cloudprovider/cloudprovider.go], with the choice of the backend of
    [pkg/providers/factory.go].  They are programs over the Kubernetes API, the
    instance provider of a backend, the catalog of instance types, and the
    circuit breaker of the NodeClass.  An instance provider's [Create] may
    panic; the deferred function of [Create] then still runs. *)
From stdpp Require Import prelude list strings gmap.
From Stdlib Require Import Ascii.
From S2P Require Import Prelude GoLib GoSort CircuitBreaker GoRegexp Errors NodeClass ProviderIDs Ownership.
From S2P Require Import Prog Kube IksApi IksAllocation IksLaunch Drift.
Import Strings.

Open Scope string_scope.
Open Scope nat_scope.
Open Scope prog_scope.

Definition vpc_launch_annotation : string := "karpenter-ibm.sh/vpc-launch".

(** ** The backend of a NodeClass ([factory.go]) *)
Definition mode_name (mode : ProviderMode) : string :=
  match mode with VPCMode => "vpc" | IKSMode => "iks" end.

(** [ProviderMode(s)]: [None] for a string that names no backend. *)
Definition mode_of (s : string) : option ProviderMode :=
  if String.eqb s "iks" then Some IKSMode else if String.eqb s "vpc" then Some VPCMode else None.

Definition determineProviderMode (Getenv : string → string) (nodeClass : option IBMNodeClass)
    : ProviderMode :=
  match nodeClass with
  | None => if negb (empty (Getenv "IKS_CLUSTER_ID")) then IKSMode else VPCMode
  | Some nodeClass =>
      let detect :=
        if negb (empty (IKSClusterID (Spec nodeClass))) then IKSMode
        else if negb (empty (Getenv "IKS_CLUSTER_ID")) then IKSMode
        else VPCMode in
      match BootstrapMode (Spec nodeClass) with
      | Some mode =>
          if String.eqb mode "iks-api" then IKSMode
          else if String.eqb mode "cloud-init" then VPCMode
          else detect
      | None => detect
      end
  end.

(** ** Calls *)

(** A call of an instance provider returns or panics. *)
Inductive outcome (A : Type) : Type :=
  | Returned (a : A)
  | Panicked.
Arguments Returned {A} a.
Arguments Panicked {A}.

Inductive cp_call : Type → Type :=
  | ReadClaim (name : string) : cp_call (result GoErrors.error NodeClaim)
  | ReadClass (name : string) : cp_call (result GoErrors.error IBMNodeClass)
  | ReadClaims : cp_call (result GoErrors.error (list NodeClaim))
  | ReadNodes : cp_call (result GoErrors.error (list Node))
  | PatchClaim (stored fresh : NodeClaim) : cp_call (result GoErrors.error NodeClaim)
  (* the provider of a backend, made on its first use *)
  | ProviderOf (mode : ProviderMode) : cp_call err
  | ProviderCreate (mode : ProviderMode) (claim : NodeClaim) (types : list InstanceType)
      : cp_call (outcome (option Node * err))
  | ProviderDelete (mode : ProviderMode) (node : Node) : cp_call err
  | ProviderGet (mode : ProviderMode) (providerID : string) : cp_call (option Node * err)
  | ValidateLaunchTarget_ (claim : NodeClaim) : cp_call err
  | ListInstanceTypes (nodeClass : IBMNodeClass) : cp_call (result GoErrors.error (list InstanceType))
  (* the breaker of a NodeClass and region *)
  | BreakerCanProvision (nodeClass region : string) : cp_call (option BreakerError)
  | BreakerSuccess (nodeClass region : string) : cp_call unit
  | BreakerFailure (nodeClass region : string) (err : GoErrors.error) : cp_call unit
  | BreakerPending (nodeClass region : string) : cp_call unit.

(** Karpenter's status conditions: those of a fresh status after
    [SetTrue(Launched)]. *)
Class ClaimStatus := { launched_conditions : ObjectMeta → list Condition }.

Section cloudprovider.
Context `{Karpenter} `{HashDeps} `{ClaimStatus}.
(** The environment, and whether a separate API reader is set. *)
Context (Getenv : string → string) (has_apiReader : bool).

Local Abbreviation cp A := (prog cp_call (result GoErrors.error A)).
Local Abbreviation cp_err := (prog cp_call err).

(** [GetInstanceProviderForMode] *)
Definition GetInstanceProviderForMode (mode : string) : cp ProviderMode :=
  match mode_of mode with
  | None => fail ("unknown provider mode: " ++ mode)
  | Some m =>
      answer ⟵ ProviderOf m;
      match answer with Some err => fail_with err | None => Ret (Ok m) end
  end.

Definition GetInstanceProvider (nodeClass : IBMNodeClass) : cp ProviderMode :=
  GetInstanceProviderForMode (mode_name (determineProviderMode Getenv (Some nodeClass))).

(** ** The account a claim was launched in *)
Definition vpc_claim (claim : NodeClaim) : bool :=
  HasPrefix (claim_ProviderID claim) "ibm:///" ||
  String.eqb (get (Annotations (claim_meta claim)) BackendAnnotation) "vpc" ||
  negb (empty (get (Annotations (claim_meta claim)) vpc_launch_annotation)).

Definition validateBirthTarget (mode : ProviderMode) (claim : NodeClaim) : cp_err :=
  if vpc_claim claim then
    match mode with
    | VPCMode => call (ValidateLaunchTarget_ claim)
    | IKSMode => Ret (Some (GoErrors.New "provider cannot validate VPC allocation target"))
    end
  else
    let account := get (Annotations (claim_meta claim)) AccountIDAnnotation in
    if negb (empty account) && negb (String.eqb account (Getenv "IBM_ACCOUNT_ID"))
    then Ret (Some (GoErrors.New "configured IBM account differs from allocation account"))
    else Ret None.

(** A VPC claim of a release that did not record its account. *)
Definition unproven (m : ObjectMeta) : bool :=
  empty (get (Annotations m) vpc_launch_annotation) && empty (get (Annotations m) AccountIDAnnotation).
Definition legacy_claim (claim : NodeClaim) : bool :=
  HasPrefix (claim_ProviderID claim) "ibm:///" && unproven (claim_meta claim).

(** The first half of [ensureBirthTarget]: the claim as it then is. *)
Definition record_account (mode : ProviderMode) (claim : NodeClaim) : cp NodeClaim :=
  if negb (legacy_claim claim) then Ret (Ok claim)
  else if empty (UID (claim_meta claim)) then fail "legacy VPC ownership requires a persisted NodeClaim"
  else
    answer ⟵ ProviderGet mode (claim_ProviderID claim);
    let '(node, err) := answer in
    match err, node with
    | Some err, _ => fail ("legacy VPC birth account remains unverified: " ++ GoErrors.Error err)
    | None, None => fail "legacy VPC lookup did not return verified account identity"
    | None, Some node =>
        let account := get (Annotations (node_meta node)) AccountIDAnnotation in
        if negb (String.eqb (node_ProviderID node) (claim_ProviderID claim)) || empty account
        then fail "legacy VPC lookup did not return verified account identity"
        else
          answer ⟵ ReadClaim (Name (claim_meta claim));
          match answer with
          | Err err => fail_with err
          | Ok fresh =>
              if negb (String.eqb (UID (claim_meta fresh)) (UID (claim_meta claim))) ||
                 negb (String.eqb (claim_ProviderID fresh) (claim_ProviderID claim))
              then fail "legacy VPC claim changed during account verification"
              else if unproven (claim_meta fresh) then
                call (PatchClaim fresh
                        (set_meta fresh (with_annotations (claim_meta fresh)
                           (<[AccountIDAnnotation := account]> (Annotations (claim_meta fresh))))))
              else Ret (Ok fresh)
          end
    end.

(** [ensureBirthTarget]: the claim as it then is, validated. *)
Definition ensureBirthTarget (mode : ProviderMode) (claim : NodeClaim) : cp NodeClaim :=
  claim ←! record_account mode claim;
  bind (validateBirthTarget mode claim) (λ e,
    match e with Some err => fail_with err | None => Ret (Ok claim) end).

(** ** Create *)

(** The [Ready] condition, [Unknown] when there is none. *)
Definition ready_condition (nodeClass : IBMNodeClass) : Condition :=
  match find_condition (Conditions (Status nodeClass)) "Ready" with
  | Some c => c
  | None => {| cond_Type := "Ready"; cond_Status := "Unknown"; LastTransitionTime := None;
               cond_Reason := ""; cond_Message := ""; ObservedGeneration := 0 |}
  end.

Definition not_ready (nodeClass : IBMNodeClass) : option GoErrors.error :=
  let c := ready_condition nodeClass in
  if negb (ObservedGeneration c =? Generation (nc_meta nodeClass))%Z then
    Some (GoErrors.New ("NodeClass " ++ Name (nc_meta nodeClass) ++
      " validation is stale for generation " ++ Strconv.Itoa (Generation (nc_meta nodeClass))))
  else if String.eqb (cond_Status c) "False" then
    Some (GoErrors.foreignError GoErrors.NodeClassNotReadyError ("NodeClassRef not ready, " ++ cond_Message c) [])
  else if String.eqb (cond_Status c) "Unknown" then
    Some (GoErrors.New ("resolving NodeClass readiness, NodeClass is in Ready=Unknown, " ++ cond_Message c))
  else None.

Definition compatible_type (claim : NodeClaim) (it : InstanceType) : bool :=
  match ReqsCompatible (Requirements claim) (it_Requirements it) with Some _ => false | None => true end &&
  existsb (λ o, OfferingCompatible (Requirements claim) o && Available o) (Offerings it) &&
  Fits (Requests claim) (it_Allocatable it).

(** The types handed to the provider: none for IKS, which picks its flavor. *)
Definition resolve_types (claim : NodeClaim) (nodeClass : IBMNodeClass) : cp (list InstanceType) :=
  match determineProviderMode Getenv (Some nodeClass) with
  | IKSMode => Ret (Ok [])
  | VPCMode =>
      answer ⟵ ListInstanceTypes nodeClass;
      match answer with
      | Err err => fail_with (GoErrors.wrap ("resolving instance types, " ++ GoErrors.Error err) err)
      | Ok instanceTypes =>
          match List.filter (compatible_type claim) instanceTypes with
          | [] => fail_with (GoErrors.foreignError GoErrors.InsufficientCapacityError
                    "all requested instance types were unavailable during launch" [])
          | compatible => Ret (Ok compatible)
          end
      end
  end.

(** The loop over the claim's requirements. *)
Definition requirement_labels (reqs : list Requirement) (instanceType : option InstanceType)
    (labels : gmap string string) : gmap string string :=
  foldl (λ labels req,
    let labels :=
      match Values req with
      | [v] => if empty (get labels (req_Key req)) then <[req_Key req := v]> labels else labels
      | _ => labels
      end in
    match instanceType with
    | Some it => if String.eqb (req_Key req) LabelInstanceTypeStable
                 then <[req_Key req := it_Name it]> labels else labels
    | None => labels
    end) labels reqs.

Definition claim_labels (claim : NodeClaim) (node : Node) (instanceType : option InstanceType)
    : gmap string string :=
  let labels :=
    requirement_labels (Requirements claim) instanceType (Labels (node_meta node) ∪ Labels (claim_meta claim)) in
  match instanceType with
  | Some it => omap single_value (it_Requirements it) ∪ labels
  | None => labels
  end.

(** The annotations of the node, with the hash of the class when it has none. *)
Definition launch_annotations (node : Node) (launchClass : option IBMNodeClass)
    : result GoErrors.error (gmap string string) :=
  let annotations := Annotations (node_meta node) in
  match launchClass with
  | Some nodeClass =>
      if empty (get annotations AnnotationIBMNodeClassHash) then
        match Hash.ProvisioningHash HashStructure nodeClass with
        | (_, Some err) => Err err
        | (hash, None) =>
            Ok (<[AnnotationIBMNodeClassHashVersion := IBMNodeClassHashVersion]>
                  (<[AnnotationIBMNodeClassHash := hash]> annotations))
        end
      else Ok annotations
  | None => Ok annotations
  end.

Definition nodeClaimForNode (claim : NodeClaim) (node : Node) (compatible : list InstanceType)
    (launchClass : option IBMNodeClass) : result GoErrors.error NodeClaim :=
  let instanceType :=
    List.find (λ i, String.eqb (it_Name i) (get (Labels (node_meta node)) LabelInstanceTypeStable)) compatible in
  match launch_annotations node launchClass with
  | Err err => Err err
  | Ok annotations =>
      let m := claim_meta claim in
      Ok {| claim_meta :=
              {| Name := Name m; UID := UID m; ResourceVersion := ResourceVersion m;
                 Generation := Generation m; DeletionTimestamp := DeletionTimestamp m;
                 CreationTimestamp := CreationTimestamp m;
                 Labels := claim_labels claim node instanceType;
                 Annotations := annotations ∪ Annotations m; Finalizers := Finalizers m |};
            NodeClassRef := NodeClassRef claim; Requests := Requests claim;
            Requirements := Requirements claim; claim_ProviderID := node_ProviderID node;
            claim_NodeName := Name (node_meta node);
            claim_ImageID := get (Annotations (node_meta node)) AnnotationIBMNodeClaimImageID;
            claim_Capacity := match instanceType with Some it => it_Capacity it
                              | None => st_Capacity (node_Status node) end;
            claim_Allocatable := match instanceType with Some it => it_Allocatable it
                                 | None => st_Allocatable (node_Status node) end;
            claim_Conditions := launched_conditions m |}
  end.

(** A provider's answer turned into the claim; a nil node is dereferenced. *)
Definition claim_of_node (claim : NodeClaim) (node : option Node) (compatible : list InstanceType)
    (launchClass : option IBMNodeClass) : cp NodeClaim :=
  match node with
  | None => fail nil_dereference
  | Some node => Ret (nodeClaimForNode claim node compatible launchClass)
  end.

(** [errors.As] to [*cloudprovider.CreateError]: its condition reason. *)
Definition as_create (err : GoErrors.error) : option string :=
  match err with
  | GoErrors.foreignError (GoErrors.CreateError reason _) _ _ => Some reason
  | _ => None
  end.

(** [stderrors.As(err, &pending) && pending.ConditionReason == "WorkerProvisioning"] *)
Definition is_pending (err : GoErrors.error) : bool :=
  match GoErrors.As as_create err with
  | Some reason => String.eqb reason "WorkerProvisioning"
  | None => false
  end.

Definition incomplete : GoErrors.error := GoErrors.New "create did not complete".
Definition panic_text : string := "panic in the instance provider".

(** From the breaker's permission on: every path records once. *)
Definition launch_recorded (claim : NodeClaim) (nodeClass : IBMNodeClass) (compatible : list InstanceType)
    : cp NodeClaim :=
  let name := Name (nc_meta nodeClass) in
  let region := Region (Spec nodeClass) in
  bind (GetInstanceProvider nodeClass) (λ r,
    match r with
    | Err err =>
        _u ⟵ BreakerFailure name region err;
        fail_with (GoErrors.wrap ("getting instance provider, " ++ GoErrors.Error err) err)
    | Ok mode =>
        answer ⟵ ProviderCreate mode claim compatible;
        match answer with
        | Panicked => _u ⟵ BreakerFailure name region incomplete; fail panic_text
        | Returned (_, Some err) =>
            if is_pending err then _u ⟵ BreakerPending name region; fail_with err
            else _u ⟵ BreakerFailure name region err;
                 fail_with (GoErrors.wrap ("creating instance, " ++ GoErrors.Error err) err)
        | Returned (node, None) =>
            _u ⟵ BreakerSuccess name region;
            claim_of_node claim node compatible (Some nodeClass)
        end
    end).

(** From the class on. *)
Definition launch_new (claim : NodeClaim) (nodeClass : IBMNodeClass) : cp NodeClaim :=
  match not_ready nodeClass with
  | Some err => fail_with err
  | None =>
      compatible ←! resolve_types claim nodeClass;
      answer ⟵ BreakerCanProvision (Name (nc_meta nodeClass)) (Region (Spec nodeClass));
      match answer with
      | Some cbErr =>
          fail ("provisioning temporarily blocked by circuit breaker: " ++ BreakerError_Error cbErr)
      | None => launch_recorded claim nodeClass compatible
      end
  end.

(** A launch that was started on a backend continues there. *)
Definition launch_again (claim : NodeClaim) (mode : string) : cp NodeClaim :=
  m ←! GetInstanceProviderForMode mode;
  answer ⟵ ProviderCreate m claim [];
  match answer with
  | Panicked => fail panic_text
  | Returned (_, Some err) => fail_with err
  | Returned (node, None) => claim_of_node claim node [] None
  end.

Definition current_claim (claim : NodeClaim) : cp NodeClaim :=
  if empty (UID (claim_meta claim)) then Ret (Ok claim)
  else
    answer ⟵ ReadClaim (Name (claim_meta claim));
    match answer with
    | Err err => fail_with err
    | Ok current =>
        if negb (String.eqb (UID (claim_meta current)) (UID (claim_meta claim)))
        then fail "NodeClaim UID changed during launch" else Ret (Ok current)
    end.

Definition Create (claim : NodeClaim) : cp NodeClaim :=
  claim ←! current_claim claim;
  let mode := get (Annotations (claim_meta claim)) BackendAnnotation in
  if negb (empty mode) then launch_again claim mode
  else
    match NodeClassRef claim with
    | None => fail nil_dereference
    | Some ref =>
        answer ⟵ ReadClass (ref_Name ref);
        match answer with
        | Err err =>
            if kube_IsNotFound err then
              fail_with (GoErrors.foreignError GoErrors.NodeClassNotReadyError
                ("NodeClassRef not ready, resolving node class, " ++ GoErrors.Error err) [err])
            else fail_with err
        | Ok nodeClass => launch_new claim nodeClass
        end
    end.

(** ** Delete *)
Definition node_of_claim (claim : NodeClaim) (annotations : gmap string string) : Node :=
  {| node_meta :=
       {| Name := Name (claim_meta claim); UID := UID (claim_meta claim); ResourceVersion := "";
          Generation := 0; DeletionTimestamp := None; CreationTimestamp := GoTime.zero_time;
          Labels := Labels (claim_meta claim); Annotations := annotations; Finalizers := [] |};
     node_ProviderID := claim_ProviderID claim;
     Unschedulable := false; OwnerReferences := []; node_Status := no_status |}.

Definition Delete (claim : NodeClaim) : cp_err :=
  match classForProviderID (claim_ProviderID claim) with
  | Err err => Ret (Some err)
  | Ok (_, mode) =>
      let persisted := get (Annotations (claim_meta claim)) BackendAnnotation in
      if negb (empty persisted) && negb (String.eqb persisted (mode_name mode))
      then Ret (Some (GoErrors.New "provider identity conflicts with persisted launch backend"))
      else
        bind (GetInstanceProviderForMode (mode_name mode)) (λ r,
          match r with
          | Err err => Ret (Some (GoErrors.wrap ("getting instance provider, " ++ GoErrors.Error err) err))
          | Ok mode =>
              bind (ensureBirthTarget mode claim) (λ r,
                match r with
                | Err err => Ret (Some err)
                | Ok verified =>
                    call (ProviderDelete mode
                      (node_of_claim claim (Annotations (claim_meta verified))))
                end)
          end)
  end.

(** ** Get and List *)

(** The claims of the provider ID: whether one was validated. *)
Fixpoint verify_claims (mode : ProviderMode) (providerID : string) (claims : list NodeClaim)
    (verified : bool) : cp bool :=
  match claims with
  | [] => Ret (Ok verified)
  | claim :: claims' =>
      if String.eqb (claim_ProviderID claim) providerID then
        _c ←! ensureBirthTarget mode claim;
        verify_claims mode providerID claims' true
      else verify_claims mode providerID claims' verified
  end.

Definition observed_claim (node : Node) (providerID : string) (capacity allocatable : ResourceList)
    : NodeClaim :=
  {| claim_meta :=
       {| Name := ""; UID := ""; ResourceVersion := ""; Generation := 0; DeletionTimestamp := None;
          CreationTimestamp := GoTime.zero_time; Labels := Labels (node_meta node);
          Annotations := Annotations (node_meta node); Finalizers := [] |};
     NodeClassRef := None; Requests := ∅; Requirements := []; claim_ProviderID := providerID;
     claim_NodeName := ""; claim_ImageID := ""; claim_Capacity := capacity;
     claim_Allocatable := allocatable; claim_Conditions := [] |}.

Definition is_vpc (mode : ProviderMode) : bool := match mode with VPCMode => true | IKSMode => false end.

Definition get_details (nodeClass : IBMNodeClass) (mode : ProviderMode) (providerID : string)
    (targetVerified : bool) : cp NodeClaim :=
  answer ⟵ ProviderGet mode providerID;
  let '(node, err) := answer in
  match err, node with
  | Some err, _ =>
      if is_vpc mode && negb targetVerified && IsNodeClaimNotFoundError err
      then fail ("VPC absence cannot be verified without a birth account: " ++ GoErrors.Error err)
      else fail_with (GoErrors.wrap ("getting instance, " ++ GoErrors.Error err) err)
  | None, None => fail nil_dereference
  | None, Some node =>
      let own := observed_claim node providerID (st_Capacity (node_Status node))
                   (st_Allocatable (node_Status node)) in
      if is_vpc mode && bool_decide (st_Capacity (node_Status node) = ∅) then
        answer ⟵ ListInstanceTypes nodeClass;
        match answer with
        | Err err => fail_with (wrapped_ "listing instance types" err)
        | Ok instanceTypes =>
            match List.find (λ i, String.eqb (it_Name i)
                     (get (Labels (node_meta node)) LabelInstanceTypeStable)) instanceTypes with
            | Some it => Ret (Ok (observed_claim node providerID (it_Capacity it) (it_Allocatable it)))
            | None => Ret (Ok own)
            end
        end
      else Ret (Ok own)
  end.

Definition Get (providerID : string) : cp NodeClaim :=
  match classForProviderID providerID with
  | Err err => fail_with err
  | Ok (nodeClass, mode) =>
      bind (GetInstanceProviderForMode (mode_name mode)) (λ r,
        match r with
        | Err err => fail_with (GoErrors.wrap ("getting instance provider, " ++ GoErrors.Error err) err)
        | Ok mode =>
            if has_apiReader then
              claims ←! call ReadClaims;
              targetVerified ←! verify_claims mode providerID claims false;
              get_details nodeClass mode providerID targetVerified
            else get_details nodeClass mode providerID false
        end)
  end.

(** [byID]: the last claim of each provider ID. *)
Definition by_provider_id (claims : list NodeClaim) : gmap string NodeClaim :=
  foldl (λ m c, if empty (claim_ProviderID c) then m else <[claim_ProviderID c := c]> m) ∅ claims.

(** The claim of the node's provider ID is validated where there is one; the
    table then holds the claim as it was re-read. *)
Definition verify_owner (mode : ProviderMode) (providerID : string) (byID : gmap string NodeClaim)
    : cp (gmap string NodeClaim) :=
  match byID !! providerID with
  | None => Ret (Ok byID)
  | Some claim =>
      claim ←! ensureBirthTarget mode claim;
      Ret (Ok (<[providerID := claim]> byID))
  end.

Fixpoint list_nodes (nodes : list Node) (byID : gmap string NodeClaim) : cp (list NodeClaim) :=
  match nodes with
  | [] => Ret (Ok [])
  | node :: nodes' =>
      let id := node_ProviderID node in
      if negb (HasPrefix id "ibm://") then list_nodes nodes' byID
      else
        match classForProviderID id with
        | Err err => fail_with err
        | Ok (_, mode) =>
            bind (GetInstanceProviderForMode (mode_name mode)) (λ r,
              match r with
              | Err err => fail_with (wrapped_ ("inventory for node " ++ Name (node_meta node)) err)
              | Ok mode =>
                  byID ←! verify_owner mode id byID;
                  answer ⟵ ProviderGet mode id;
                  match snd answer with
                  | Some err =>
                      if IsNodeClaimNotFoundError err then list_nodes nodes' byID
                      else fail_with (wrapped_ ("inventory for node " ++ Name (node_meta node)) err)
                  | None =>
                      rest ←! list_nodes nodes' byID;
                      Ret (Ok (observed_claim node id ∅ ∅ :: rest))
                  end
              end)
        end
  end.

Definition List_ : cp (list NodeClaim) :=
  answer ⟵ ReadNodes;
  match answer with
  | Err err => fail_with (wrapped_ "listing nodes" err)
  | Ok nodes =>
      owned ←! call ReadClaims;
      list_nodes nodes (by_provider_id owned)
  end.

(** ** The rest *)
Definition GetInstanceTypes (className : string) (requirements : list Requirement) : cp (list InstanceType) :=
  nodeClass ←! call (ReadClass className);
  instanceTypes ←! call (ListInstanceTypes nodeClass);
  Ret (Ok (List.filter (λ it, match ReqsCompatible requirements (it_Requirements it) with
                              | None => true | Some _ => false end) instanceTypes)).

Definition IsDrifted (claim : NodeClaim) : prog cp_call (string * err) :=
  match NodeClassRef claim with
  | None => Ret ("", None)
  | Some ref =>
      answer ⟵ ReadClass (ref_Name ref);
      Ret (drift_after (Annotations (claim_meta claim)) answer)
  end.
End cloudprovider.

Record RepairPolicy := {
  ConditionType : string;
  ConditionStatus : string;
  TolerationDuration : Z;
}.
Definition RepairPolicies : list RepairPolicy :=
  [ {| ConditionType := "Ready"; ConditionStatus := "False"; TolerationDuration := 5 * GoTime.Minute |};
    {| ConditionType := "Ready"; ConditionStatus := "Unknown"; TolerationDuration := 5 * GoTime.Minute |};
    {| ConditionType := "MemoryPressure"; ConditionStatus := "True"; TolerationDuration := 10 * GoTime.Minute |};
    {| ConditionType := "DiskPressure"; ConditionStatus := "True"; TolerationDuration := 5 * GoTime.Minute |};
    {| ConditionType := "PIDPressure"; ConditionStatus := "True"; TolerationDuration := 5 * GoTime.Minute |} ].
