(* ===== verification/CloudProviderSafety.v ===== *)
(** * CloudProviderSafety: what every run of Create, Delete and Get guarantees

    [Create] follows the protocol of the circuit breaker: every permission is
    recorded exactly once, on every path and even after a panic, so no slot of
    a breaker leaks.  A launch is admitted, ready and made of compatible types;
    a deletion is preceded by the check of the account; the absence of a VPC
    instance is only reported for an account that was verified. *)
From stdpp Require Import prelude list strings gmap.
From S2P Require Import Prelude GoLib GoSort CircuitBreaker GoRegexp Errors NodeClass ProviderIDs Ownership.
From S2P Require Import Prog Kube IksApi IksAllocation IksLaunch IksLaunchSafety Drift CloudProvider.

Open Scope nat_scope.
Open Scope list_scope.

(** ** The events of a breaker in a run *)
Section breaker_events.
(** The NodeClass and region of the breaker. *)
Context (name region : string).

Definition breaker_event {R} (e : cp_call R) : R → option CircuitBreaker.event :=
  let mine n r := String.eqb n name && String.eqb r region in
  match e with
  | BreakerCanProvision n r =>
      λ answer, if mine n r then Some match answer with None => EvAllow | Some e => EvRefuse e end else None
  | BreakerSuccess n r => λ _, if mine n r then Some EvSuccess else None
  | BreakerFailure n r err => λ _, if mine n r then Some (EvFailure (GoErrors.Error err)) else None
  | BreakerPending n r => λ _, if mine n r then Some EvPending else None
  | _ => λ _, None
  end.

Definition breaker_events (tr : history cp_call) : list CircuitBreaker.event :=
  omap (λ ev, match ev with Did e r => breaker_event e r end) tr.

Lemma breaker_events_cons {R} (e : cp_call R) x h :
  breaker_events (Did e x :: h) =
  match breaker_event e x with Some ev => ev :: breaker_events h | None => breaker_events h end.
Proof. done. Qed.

Lemma breaker_events_app l h : breaker_events (l ++ h) = breaker_events l ++ breaker_events h.
Proof. apply omap_app. Qed.
End breaker_events.

Definition quiet_cp (R : Type) (e : cp_call R) : bool :=
  match e with
  | BreakerCanProvision _ _ | BreakerSuccess _ _ | BreakerFailure _ _ _ | BreakerPending _ _ => false
  | ProviderCreate _ _ _ | ProviderDelete _ _ | PatchClaim _ _ => false
  | _ => true
  end.

(** Calls that leave the breakers alone. *)
Definition off_breaker (R : Type) (e : cp_call R) : bool :=
  match e with
  | BreakerCanProvision _ _ | BreakerSuccess _ _ | BreakerFailure _ _ _ | BreakerPending _ _ => false
  | _ => true
  end.

Lemma breaker_events_off n r l : Forall (event_is off_breaker) l → breaker_events n r l = [].
Proof. induction 1 as [|[R e x] l He Hl IH]; [done|]. cbn. by destruct e; cbn in *. Qed.

Section safety.
Context `{Karpenter} `{HashDeps} `{ClaimStatus}.
Context (Getenv : string → string) (has_apiReader : bool).

Lemma provider_quiet mode : only quiet_cp (GetInstanceProviderForMode mode).
Proof. unfold GetInstanceProviderForMode. solve_quiet. Qed.
Lemma types_quiet c nc : only quiet_cp (resolve_types Getenv c nc).
Proof. unfold resolve_types. solve_quiet. Qed.
Lemma current_quiet c : only quiet_cp (current_claim c).
Proof. unfold current_claim. solve_quiet. Qed.

Lemma quiet_off R (e : cp_call R) : quiet_cp R e = true → off_breaker R e = true.
Proof. by destruct e. Qed.

(** *** The protocol *)

(** The call that records an answer of the provider, in the history. *)
Definition record_of (name region : string) (answer : outcome (option Node * err)) : event cp_call :=
  match answer with
  | Panicked => Did (BreakerFailure name region incomplete) tt
  | Returned (_, Some err) =>
      if is_pending err then Did (BreakerPending name region) tt else Did (BreakerFailure name region err) tt
  | Returned (_, None) => Did (BreakerSuccess name region) tt
  end.

(** The types handed to a backend. *)
Definition types_admitted (claim : NodeClaim) (mode : ProviderMode) (types : list InstanceType) : Prop :=
  match mode with
  | IKSMode => types = []
  | VPCMode => types ≠ [] ∧ Forall (λ it, compatible_type claim it = true) types
  end.

(** The claim as the server has it, when it has an identity. *)
Definition current_of (h : history cp_call) (claim current : NodeClaim) : Prop :=
  (UID (claim_meta claim) = ""%string ∧ current = claim) ∨
  (asked h (ReadClaim (Name (claim_meta claim))) (Ok current) ∧ UID (claim_meta current) = UID (claim_meta claim)).

(** What the history before the breaker's answer shows: the claim has not begun
    a launch; its class was read and is ready for its generation. *)
Definition admitted (h : history cp_call) (claim current : NodeClaim) (nodeClass : IBMNodeClass)
    (types : list InstanceType) : Prop :=
  current_of h claim current ∧ get (Annotations (claim_meta current)) BackendAnnotation = ""%string ∧
  ∃ ref, NodeClassRef current = Some ref ∧ asked h (ReadClass (ref_Name ref)) (Ok nodeClass) ∧
    not_ready nodeClass = None ∧
    types_admitted current (determineProviderMode Getenv (Some nodeClass)) types.

(** What Create returns of an answer of the provider: the claim of its node, or
    an error. *)
Definition came_of (claim : NodeClaim) (types : list InstanceType) (launchClass : option IBMNodeClass)
    (answer : outcome (option Node * err)) (r : result GoErrors.error NodeClaim) : Prop :=
  match answer with
  | Returned (Some node, None) => r = nodeClaimForNode claim node types launchClass
  | _ => is_ok r = false
  end.

(** The history of a Create of [claim], newest first, and its result.  Before its
    last calls it only reads ([quiet_cp]): no breaker and no backend is asked to
    create or delete.  Then it ends with an error; or it continues, on the backend
    that the claim records, a launch begun in an earlier run; or the breaker
    refuses; or it permits, and what comes of it is recorded once. *)
Inductive create_history (claim : NodeClaim) : history cp_call → result GoErrors.error NodeClaim → Prop :=
  | not_launched h e :
      Forall (event_is quiet_cp) h → create_history claim h (Err e)
  | continued current mode answer h r :
      Forall (event_is quiet_cp) h → current_of h claim current →
      mode_of (get (Annotations (claim_meta current)) BackendAnnotation) = Some mode →
      came_of current [] None answer r →
      create_history claim (Did (ProviderCreate mode current []) answer :: h) r
  | refused name region e h e' :
      Forall (event_is quiet_cp) h →
      create_history claim (Did (BreakerCanProvision name region) (Some e) :: h) (Err e')
  | no_provider nodeClass current types mode e h e' :
      Forall (event_is quiet_cp) h → admitted h claim current nodeClass types →
      mode = determineProviderMode Getenv (Some nodeClass) →
      create_history claim
        (Did (BreakerFailure (Name (nc_meta nodeClass)) (Region (Spec nodeClass)) e) tt
         :: Did (ProviderOf mode) (Some e)
         :: Did (BreakerCanProvision (Name (nc_meta nodeClass)) (Region (Spec nodeClass))) None :: h) (Err e')
  | launched_and_recorded nodeClass current types mode answer h r :
      Forall (event_is quiet_cp) h → admitted h claim current nodeClass types →
      mode = determineProviderMode Getenv (Some nodeClass) →
      came_of current types (Some nodeClass) answer r →
      create_history claim
        (record_of (Name (nc_meta nodeClass)) (Region (Spec nodeClass)) answer
         :: Did (ProviderCreate mode current types) answer
         :: Did (ProviderOf mode) None
         :: Did (BreakerCanProvision (Name (nc_meta nodeClass)) (Region (Spec nodeClass))) None :: h) r.

Definition any : guard (E := cp_call) := λ _ _ _, True.

Lemma wp_reads {A} (q : prog cp_call A) h :
  only quiet_cp q → wp any q h (λ h' _, ∃ l, h' = l ++ h ∧ Forall (event_is quiet_cp) l).
Proof. intros Hq. by apply (wp_only quiet_cp any _ h). Qed.

Lemma mode_of_name m : mode_of (mode_name m) = Some m.
Proof. by destruct m. Qed.

Lemma claim_of_node_came claim node types launchClass h (Q : history cp_call → result GoErrors.error NodeClaim → Prop) :
  (∀ r, came_of claim types launchClass (Returned (node, None)) r → Q h r) →
  wp any (claim_of_node claim node types launchClass) h Q.
Proof. intros HQ. destruct node; by apply HQ. Qed.

Lemma launch_recorded_wp claim current nodeClass types h :
  Forall (event_is quiet_cp) h → admitted h claim current nodeClass types →
  wp any (launch_recorded Getenv current nodeClass types)
    (Did (BreakerCanProvision (Name (nc_meta nodeClass)) (Region (Spec nodeClass))) None :: h)
    (create_history claim).
Proof.
  intros Hh Ha. unfold launch_recorded, GetInstanceProvider, GetInstanceProviderForMode.
  rewrite mode_of_name. cbv zeta. apply wp_bind. split; [done|]. intros [e|].
  - split; [done|]. intros []. by eapply no_provider.
  - split; [done|]. intros answer.
    pose proof (λ r, launched_and_recorded claim nodeClass current types
      (determineProviderMode Getenv (Some nodeClass)) answer h r Hh Ha eq_refl) as Hrec.
    destruct answer as [[node [e|]]|].
    + cbn [record_of] in Hrec. split_if; (split; [done|]; intros []; apply Hrec; by destruct node).
    + split; [done|]. intros []. by apply claim_of_node_came.
    + split; [done|]. intros []. by apply Hrec.
Qed.

Lemma types_wp claim nodeClass h :
  wp any (resolve_types Getenv claim nodeClass) h (λ h' r,
    (∃ l, h' = l ++ h ∧ Forall (event_is quiet_cp) l) ∧
    match r with
    | Ok types => types_admitted claim (determineProviderMode Getenv (Some nodeClass)) types
    | Err _ => True
    end).
Proof.
  apply wp_and; [apply wp_reads, types_quiet|].
  unfold resolve_types, types_admitted. destruct (determineProviderMode _ _); [|done].
  split; [done|]. intros [its|e]; [|done].
  destruct (List.filter _ its) as [|it l] eqn:E; [done|]. split; [done|].
  rewrite <-E. apply Forall_forall. intros x Hx%list_elem_of_In%List.filter_In. apply Hx.
Qed.

Lemma current_of_app claim current l h : current_of h claim current → current_of (l ++ h) claim current.
Proof. intros [?|[? ?]]; [by left|right]. split; [by apply asked_app|done]. Qed.

Lemma launch_new_wp claim current nodeClass ref h :
  Forall (event_is quiet_cp) h → current_of h claim current →
  get (Annotations (claim_meta current)) BackendAnnotation = ""%string → NodeClassRef current = Some ref →
  asked h (ReadClass (ref_Name ref)) (Ok nodeClass) →
  wp any (launch_new Getenv current nodeClass) h (create_history claim).
Proof.
  intros Hh Hc Hb Hr Hask. unfold launch_new. destruct (not_ready nodeClass) as [e|] eqn:En.
  { by apply not_launched. }
  apply wp_try. eapply wp_mono; [|apply types_wp].
  intros h' [types|e] [(l & -> & Hl) Ht]; [|apply not_launched; by apply Forall_app].
  split; [done|]. intros [e|].
  - apply refused. by apply Forall_app.
  - apply launch_recorded_wp; [by apply Forall_app|].
    split_and!; [by apply current_of_app|done|]. exists ref. split_and!; try done. by apply asked_app.
Qed.

Lemma launch_again_wp claim current h :
  Forall (event_is quiet_cp) h → current_of h claim current →
  wp any (launch_again current (get (Annotations (claim_meta current)) BackendAnnotation)) h (create_history claim).
Proof.
  intros Hh Hc. unfold launch_again, GetInstanceProviderForMode. apply wp_try.
  destruct (mode_of _) as [mode|] eqn:Em; [|by apply not_launched].
  split; [done|]. intros [e|]; [by apply not_launched; constructor|].
  split; [done|]. intros answer.
  pose proof (λ r, continued claim current mode answer _ r (Forall_cons_2 (event_is quiet_cp) (Did (ProviderOf mode) None) h eq_refl Hh)
    (current_of_app _ _ [_] _ Hc) Em) as Hcont.
  destruct answer as [[node [e|]]|]; [apply Hcont; by destruct node|by apply claim_of_node_came|by apply Hcont].
Qed.

Lemma current_wp claim h :
  wp any (current_claim claim) h (λ h' r, (∃ l, h' = l ++ h ∧ Forall (event_is quiet_cp) l) ∧
    match r with Ok current => current_of h' claim current | Err _ => True end).
Proof.
  apply wp_and; [apply wp_reads, current_quiet|]. unfold current_claim.
  destruct (empty (UID (claim_meta claim))) eqn:Eu; [left; by apply String.eqb_eq in Eu|].
  split; [done|]. intros [current|e]; [|done]. split_if; [done|].
  right. split; [apply asked_here|]. by apply String.eqb_eq, negb_false_iff.
Qed.

Lemma Create_wp claim : wp any (Create Getenv claim) [] (create_history claim).
Proof.
  unfold Create. apply wp_try. eapply wp_mono; [|apply current_wp].
  intros h [c|e] [(l & -> & Hl) Hc]; rewrite app_nil_r in *; [|by apply not_launched].
  cbv zeta. split_if; [by apply launch_again_wp|].
  destruct (NodeClassRef c) as [ref|] eqn:Er; [|by apply not_launched].
  split; [done|]. intros [nc|e].
  - eapply launch_new_wp; [by constructor|by apply (current_of_app _ _ [_])|by apply String.eqb_eq, negb_false_iff|done|apply asked_here].
  - split_if; apply not_launched; by constructor.
Qed.
End safety.

(** ** The theorems *)
Section theorems.
Context `{Karpenter} `{HashDeps} `{ClaimStatus}.
Context (Getenv : string → string) (has_apiReader : bool).

(** C6. A run of Create, whatever is answered and even when the instance provider
    panics, only reads until its last calls.  It asks a backend to launch at most
    once: after a permission of the breaker of the class it has just read and
    found ready, with types that are compatible with the claim, on the backend of
    the class, and then it records exactly once what came of it, a success, a
    worker still being provisioned, or a failure; or, without the breaker, to
    continue a launch on the backend that the claim records.  It returns a claim
    only when the backend returned its node. *)
Theorem create_follows_protocol (claim : NodeClaim) (tr : history cp_call)
    (r : result GoErrors.error NodeClaim) (Hrun : runs (Create Getenv claim) tr r) :
  create_history Getenv claim (reverse tr) r.
Proof.
  destruct (wp_sound _ _ _ _ _ _ (Create_wp Getenv claim) Hrun) as [_ HQ].
  by rewrite app_nil_r in HQ.
Qed.

Lemma inflight_app l1 l2 : inflight_of (l1 ++ l2) = (inflight_of l1 + inflight_of l2)%Z.
Proof. induction l1 as [|[] l1 IH]; cbn; rewrite ?IH; lia. Qed.

Lemma inflight_perm l1 l2 : l1 ≡ₚ l2 → inflight_of l1 = inflight_of l2.
Proof. induction 1 as [|[] ? ? ? IH|[] [] ?|? ? ? ? IH1 ? IH2]; cbn; lia. Qed.

Lemma create_balanced n r claim h res :
  create_history Getenv claim h res → inflight_of (breaker_events n r h) = 0%Z.
Proof.
  assert (Hoff : ∀ h, Forall (event_is quiet_cp) h → inflight_of (breaker_events n r h) = 0%Z).
  { intros h0 Hh. rewrite breaker_events_off; [done|]. eapply Forall_impl; [done|].
    intros [R e x]. apply quiet_off. }
  intros [h0 e Hh|c mode answer h0 res' Hh _ _ _|N R e h0 e' Hh|nc c ts mode e h0 e' Hh _ _|nc c ts mode answer h0 res' Hh _ _ _].
  - by apply Hoff.
  - rewrite breaker_events_cons. by apply Hoff.
  - rewrite breaker_events_cons. cbn [breaker_event].
    destruct (_ && _); cbn [inflight_of]; by apply Hoff.
  - rewrite !breaker_events_cons. cbn [breaker_event].
    destruct (_ && _); cbn [inflight_of]; rewrite ?Hoff by done; done.
  - destruct answer as [[node [e|]]|]; cbn [record_of]; try destruct (is_pending e);
      rewrite !breaker_events_cons; cbn [breaker_event];
      destruct (_ && _); cbn [inflight_of]; rewrite ?Hoff by done; done.
Qed.

(** C28. No slot of a breaker leaks: in an execution of a breaker whose events
    are, in any interleaving, those of complete runs of Create, the number of
    concurrent instances is back to zero at the end. *)
Theorem creates_return_their_slots `{MapRange} (cfg : CircuitBreakerConfig) (t : Z)
    (name region : string) (creates : list (history cp_call)) (evs : list CircuitBreaker.event) (x : exec)
    (Hcfg : (0 ≤ RecoveryTimeout cfg)%Z)
    (Hcreates : Forall (λ tr, ∃ claim r, runs (Create Getenv claim) tr r) creates)
    (Hevents : evs ≡ₚ mjoin (breaker_events name region <$> creates))
    (Hrun : steps brk_step (new_exec cfg t) evs x) :
  concurrentInstances (ex_cb x) = 0%Z.
Proof.
  destruct (execution_inv cfg t evs x Hcfg Hrun) as ([] & _ & _).
  apply steps_inflight in Hrun. cbn in Hrun.
  rewrite ci_inflight, Hrun, (inflight_perm _ _ Hevents). clear -Hcreates.
  induction Hcreates as [|tr l (claim & r & Hr) _ IH]; [done|].
  cbn [fmap list_fmap mjoin list_join]. rewrite inflight_app.
  assert (inflight_of (breaker_events name region tr) = 0%Z) as ->; [|exact IH].
  rewrite <-(create_balanced name region claim (reverse tr) r).
  - apply inflight_perm. unfold breaker_events. by rewrite reverse_Permutation.
  - destruct (wp_sound _ _ _ _ _ _ (Create_wp Getenv claim) Hr) as [_ HQ].
    by rewrite app_nil_r in HQ.
Qed.
End theorems.

(** ** The account of a claim *)
Definition cp_error {R} (e : cp_call R) : R → err :=
  match e with
  | ReadClaim _ => err_of
  | ReadClass _ => err_of
  | ReadClaims => err_of
  | ReadNodes => err_of
  | PatchClaim _ _ => err_of
  | ListInstanceTypes _ => err_of
  | ProviderOf _ => λ r, r
  | ValidateLaunchTarget_ _ => λ r, r
  | _ => λ _, None
  end.

(** Only an instance provider's own Get and Delete report a claim as gone. *)
Definition clean_cp (h : history cp_call) : Prop :=
  Forall (λ ev, match ev with
                | Did e r => ∀ x, cp_error e r = Some x → IsNodeClaimNotFoundError x = false
                end) h.

Lemma clean_cp_head {R} (e : cp_call R) r h x :
  clean_cp (Did e r :: h) → cp_error e r = Some x → IsNodeClaimNotFoundError x = false.
Proof. unfold clean_cp. rewrite Forall_cons. intros [He _]. apply He. Qed.

Lemma clean_cp_app l h : clean_cp (l ++ h) → clean_cp h.
Proof. unfold clean_cp. rewrite Forall_app. by intros [_ ?]. Qed.

Section accounts.
Context `{Karpenter} `{HashDeps} `{ClaimStatus}.
Context (Getenv : string → string) (has_apiReader : bool).

(** The claim is on the backend's account: IBM Cloud was asked when it is a
    VPC claim, and the configured account does not contradict it otherwise. *)
Definition target_ok (h : history cp_call) (mode : ProviderMode) (claim : NodeClaim) : Prop :=
  (vpc_claim claim = true ∧ mode = VPCMode ∧ asked h (ValidateLaunchTarget_ claim) None) ∨
  (vpc_claim claim = false ∧
   (get (Annotations (claim_meta claim)) AccountIDAnnotation = ""%string ∨
    get (Annotations (claim_meta claim)) AccountIDAnnotation = Getenv "IBM_ACCOUNT_ID"%string)).

(** [verified] is the claim, or what the server has for it. *)
Definition same_claim (h : history cp_call) (claim verified : NodeClaim) : Prop :=
  verified = claim ∨
  (asked h (ReadClaim (Name (claim_meta claim))) (Ok verified) ∧
   UID (claim_meta verified) = UID (claim_meta claim) ∧
   claim_ProviderID verified = claim_ProviderID claim) ∨
  ∃ stored fresh, asked h (PatchClaim stored fresh) (Ok verified).

(** The account is recorded only on a claim of the VPC backend that has none,
    re-read with the same identity, and it is the one that the backend reported
    for the claim's own instance. *)
Definition may_record (h : history cp_call) (mode : ProviderMode) (claim stored fresh : NodeClaim) : Prop :=
  ∃ node h',
    h = Did (ReadClaim (Name (claim_meta claim))) (Ok stored)
        :: Did (ProviderGet mode (claim_ProviderID claim)) (Some node, None) :: h' ∧
    legacy_claim claim = true ∧ unproven (claim_meta stored) = true ∧
    UID (claim_meta stored) = UID (claim_meta claim) ∧
    claim_ProviderID stored = claim_ProviderID claim ∧
    node_ProviderID node = claim_ProviderID claim ∧
    get (Annotations (node_meta node)) AccountIDAnnotation ≠ ""%string ∧
    fresh = set_meta stored (with_annotations (claim_meta stored)
      (<[AccountIDAnnotation := get (Annotations (node_meta node)) AccountIDAnnotation]>
         (Annotations (claim_meta stored)))).

(** For the claims, and on the backends, that the caller names. *)
Definition account_guard (concerns : ProviderMode → NodeClaim → Prop) : guard (E := cp_call) := λ h _ e,
  match e with
  | PatchClaim stored fresh => ∃ mode claim, concerns mode claim ∧ may_record h mode claim stored fresh
  | ProviderCreate _ _ _ | ProviderDelete _ _ => False
  | BreakerCanProvision _ _ | BreakerSuccess _ _ | BreakerFailure _ _ _ | BreakerPending _ _ => False
  | _ => True
  end.

(** Calls that neither create nor delete an instance. *)
Definition passive (R : Type) (e : cp_call R) : bool :=
  match e with
  | ProviderCreate _ _ _ | ProviderDelete _ _ => false
  | BreakerCanProvision _ _ | BreakerSuccess _ _ | BreakerFailure _ _ _ | BreakerPending _ _ => false
  | _ => true
  end.

Lemma record_account_wp (P : ProviderMode → NodeClaim → Prop) mode claim h :
  P mode claim →
  wp (account_guard P) (record_account mode claim) h (λ h' r,
    (∃ l, h' = l ++ h) ∧
    match r with
    | Ok c => same_claim h' claim c
    | Err e => clean_cp h' → IsNodeClaimNotFoundError e = false
    end).
Proof.
  intros HP. unfold record_account. split_if; [split; [by exists []|by left]|].
  split_if; [split; [by exists []|done]|]. split; [done|]. intros [[node|] [e|]].
  1,3,4: split; [by eexists [_]|done].
  cbv zeta. split_if; [split; [by eexists [_]|done]|].
  split; [done|]. intros [fresh|e].
  2:{ split; [by eexists [_;_]|]. intros Hc. eapply clean_cp_head; [exact Hc|done]. }
  split_if; [split; [by eexists [_;_]|done]|]. unfold empty in *. bool_to_prop. split_if.
  - split.
    + exists mode, claim. split; [done|]. exists node, h. split_and!; done.
    + intros [updated|e]; (split; [by eexists [_;_;_]|]).
      * right. right. eexists _, _. apply asked_here.
      * intros Hc. eapply clean_cp_head; [exact Hc|done].
  - split; [by eexists [_;_]|]. right. left. split; [apply asked_here|done].
Qed.

Lemma ensureBirthTarget_wp (P : ProviderMode → NodeClaim → Prop) mode claim h :
  P mode claim →
  wp (account_guard P) (ensureBirthTarget Getenv mode claim) h (λ h' r,
    (∃ l, h' = l ++ h) ∧
    match r with
    | Ok c => same_claim h' claim c ∧ target_ok h' mode c
    | Err e => clean_cp h' → IsNodeClaimNotFoundError e = false
    end).
Proof.
  intros HP. unfold ensureBirthTarget. apply wp_try. eapply wp_mono; [|by apply record_account_wp].
  intros h1 [c|e] [(l & ->) Hc]; [|split; [by exists l|done]].
  apply wp_bind. unfold validateBirthTarget. destruct (vpc_claim c) eqn:Ev.
  - destruct mode; [|split; [by exists l|done]]. split; [done|]. intros [e|].
    + split; [by exists (Did (ValidateLaunchTarget_ c) (Some e) :: l)|]. intros Hcl.
      eapply clean_cp_head; [exact Hcl|done].
    + split; [by exists (Did (ValidateLaunchTarget_ c) None :: l)|]. split.
      * destruct Hc as [->|[(Ha & Hu & Hp)|(s & f & Ha)]]; [by left|right; left|right; right].
        -- split; [by apply asked_later|done].
        -- exists s, f. by apply asked_later.
      * left. split_and!; try done. apply asked_here.
  - cbv zeta. split_if; (split; [by exists l|]); [done|]. split; [done|]. right. split; [done|].
    unfold empty in *. apply andb_false_iff in Heqb as [Hb|Hb]; bool_to_prop; auto.
Qed.

Lemma provider_wp P mode h :
  wp (account_guard P) (GetInstanceProviderForMode mode) h (λ h' r,
    (∃ l, h' = l ++ h) ∧
    match r with
    | Ok m => mode_of mode = Some m
    | Err e => clean_cp h' → IsNodeClaimNotFoundError e = false
    end).
Proof.
  unfold GetInstanceProviderForMode. destruct (mode_of mode) as [m|]; [|split; [by exists []|done]].
  split; [done|]. intros [e|]; (split; [by eexists [_]|]); [|done].
  intros Hc. eapply clean_cp_head; [exact Hc|done].
Qed.

(** ** Deletion *)
Definition may_delete_instance (h : history cp_call) (claim : NodeClaim) (mode : ProviderMode)
    (node : Node) : Prop :=
  ∃ nodeClass verified,
    classForProviderID (claim_ProviderID claim) = Ok (nodeClass, mode) ∧
    (get (Annotations (claim_meta claim)) BackendAnnotation = ""%string ∨
     get (Annotations (claim_meta claim)) BackendAnnotation = mode_name mode) ∧
    same_claim h claim verified ∧ target_ok h mode verified ∧
    node = node_of_claim claim (Annotations (claim_meta verified)).

(** The claim, with the backend its provider ID names. *)
Definition own_claim (claim : NodeClaim) (mode : ProviderMode) (c : NodeClaim) : Prop :=
  c = claim ∧ ∃ nodeClass, classForProviderID (claim_ProviderID claim) = Ok (nodeClass, mode).

Definition delete_guard (claim : NodeClaim) : guard (E := cp_call) := λ h R e,
  match e with
  | ProviderDelete mode node => may_delete_instance h claim mode node
  | _ => account_guard (own_claim claim) h R e
  end.

Lemma account_delete claim h R (e : cp_call R) : account_guard (own_claim claim) h R e → delete_guard claim h R e.
Proof. by destruct e. Qed.

(** The request for a deletion that an event is, with its answer. *)
Definition deletion (ev : event cp_call) : option (ProviderMode * Node * err) :=
  match ev with
  | Did e r =>
      match e in cp_call R return R → option (ProviderMode * Node * err) with
      | ProviderDelete mode node => λ answer, Some (mode, node, answer)
      | _ => λ _, None
      end r
  end.

Lemma passive_deletions h : Forall (event_is passive) h → omap deletion h = [].
Proof. induction 1 as [|[R e r] h He _ IH]; [done|]. by destruct e. Qed.

Lemma provider_passive name : only passive (GetInstanceProviderForMode name).
Proof. unfold GetInstanceProviderForMode. solve_quiet. Qed.
Lemma ensure_passive mode claim : only passive (ensureBirthTarget Getenv mode claim).
Proof. unfold ensureBirthTarget, record_account, validateBirthTarget. solve_quiet. Qed.

Lemma last_deletion before mode node answer after r (X : Prop) :
  (∃ mode' node' h', reverse (before ++ Did (ProviderDelete mode node) answer :: after) = Did (ProviderDelete mode' node') r :: h' ∧
     omap deletion h' = []) ∨ (omap deletion (reverse (before ++ Did (ProviderDelete mode node) answer :: after)) = [] ∧ X) →
  after = [] ∧ r = answer.
Proof.
  rewrite reverse_app, reverse_cons. induction after as [|[R e x] after _] using rev_ind.
  - rewrite reverse_nil. intros [(m & n & h' & Eh & Hn)|[Hn _]]; [|done]. split; [done|].
    by apply (f_equal (λ l, deletion <$> head l)) in Eh as [= _ _ ->].
  - rewrite reverse_snoc. intros [(m & n & h' & Eh & Hn)|[Hn _]]; exfalso.
    + apply (f_equal tail) in Eh. cbn [tail app] in Eh. rewrite <-Eh, !omap_app in Hn.
      apply app_nil in Hn as [Hn _]. by apply app_nil in Hn as [_ Hn].
    + rewrite !omap_app in Hn. apply app_nil in Hn as [Hn _]. by apply app_nil in Hn as [_ Hn].
Qed.

(** Nothing was deleted, or the last call was the deletion, and its answer is
    the result. *)
Lemma Delete_wp claim :
  wp (delete_guard claim) (Delete Getenv claim) [] (λ h r,
    (∃ mode node h', h = Did (ProviderDelete mode node) r :: h' ∧ omap deletion h' = []) ∨
    (omap deletion h = [] ∧ (clean_cp h → ∀ e, r = Some e → IsNodeClaimNotFoundError e = false))).
Proof.
  unfold Delete. destruct (classForProviderID _) as [[nodeClass mode]|e] eqn:Ec.
  2:{ right. split; [done|]. intros _ x [= <-]. revert Ec. unfold classForProviderID. repeat case_match; by intros [= <-]. }
  cbv zeta. split_if; [by right; split; [|intros _ x [= <-]]|].
  apply wp_bind. eapply wp_mono; [|apply (wp_only_grows passive); [apply provider_passive|
    eapply wp_guard_mono; [apply account_delete|apply provider_wp]]].
  intros h1 [m|e] [[_ Hm] (l1 & -> & Hl1)]; rewrite app_nil_r in *.
  2:{ right. split; [by apply passive_deletions|]. intros Hc x [= <-]. unfold IsNodeClaimNotFoundError. rewrite GoErrors.As_wrap by done. by apply Hm. }
  rewrite mode_of_name in Hm. injection Hm as <-.
  apply wp_bind. eapply wp_mono; [|apply (wp_only_grows passive); [apply ensure_passive|
    eapply wp_guard_mono; [apply account_delete|apply ensureBirthTarget_wp; split; [done|by eexists]]]].
  intros h2 [c|e] [[_ Hc] (l2 & -> & Hl2)].
  2:{ right. split; [by apply passive_deletions, Forall_app|]. intros Hcl x [= <-]. by apply Hc. }
  split; [|intros answer; left; eexists _, _, _; split; [done|by apply passive_deletions, Forall_app]]. destruct Hc as [Hs Ht].
  exists nodeClass, c. split_and!; try done. unfold empty in *.
  apply andb_false_iff in Heqb as [Hb|Hb]; bool_to_prop; auto.
Qed.

(** ** Absence *)
Definition any_claim (mode : ProviderMode) (claim : NodeClaim) : Prop := True.

Lemma verify_claims_wp mode id claims b h :
  wp (account_guard any_claim) (verify_claims Getenv mode id claims b) h (λ h' r,
    (∃ l, h' = l ++ h) ∧
    match r with
    | Ok v => v = true → b = true ∨ ∃ claim c, claim ∈ claims ∧ claim_ProviderID claim = id ∧
        same_claim h' claim c ∧ target_ok h' mode c
    | Err e => clean_cp h' → IsNodeClaimNotFoundError e = false
    end).
Proof.
  revert b h. induction claims as [|claim claims IH]; intros b h; cbn [verify_claims].
  { split; [by exists []|]. by left. }
  destruct (String.eqb_spec (claim_ProviderID claim) id) as [Eid|].
  - apply wp_try. eapply wp_mono; [|by apply ensureBirthTarget_wp].
    intros h1 [c|e] [(l & ->) Hc]; [|split; [by exists l|done]].
    eapply wp_mono; [|apply IH]. intros h2 [v|e] [(l2 & ->) Hv];
      (split; [exists (l2 ++ l); by rewrite <-(assoc_L (++))|]); [|done].
    intros _. right. exists claim, c. destruct Hc as [Hs Ht]. split_and!; [by left|done| |].
    + destruct Hs as [->|[(Ha & Hu & Hp)|(s & f & Ha)]]; [by left|right; left|right; right].
      * split; [by apply asked_app|done].
      * exists s, f. by apply asked_app.
    + destruct Ht as [(? & ? & Ha)|?]; [left|by right]. split_and!; try done. by apply asked_app.
  - eapply wp_mono; [|apply IH]. intros h2 [v|e] [Hl Hv]; (split; [done|]); [|done].
    intros ->. destruct (Hv eq_refl) as [?|(cl & c & Hin & ?)]; [by left|].
    right. exists cl, c. split; [by right|done].
Qed.

Lemma as_claim_wrap t e : IsNodeClaimNotFoundError (GoErrors.wrap t e) = IsNodeClaimNotFoundError e.
Proof. unfold IsNodeClaimNotFoundError. by rewrite GoErrors.As_wrap. Qed.

Lemma get_details_wp nodeClass mode id v h :
  wp (account_guard any_claim) (get_details nodeClass mode id v) h (λ h' r,
    (∃ l, h' = l ++ h) ∧
    (clean_cp h' → ∀ e, r = Err e → IsNodeClaimNotFoundError e = true →
     (mode = VPCMode → v = true) ∧
     ∃ node e', asked h' (ProviderGet mode id) (node, Some e') ∧ IsNodeClaimNotFoundError e' = true)).
Proof.
  unfold get_details. split; [done|]. intros [node [e|]].
  - destruct (is_vpc mode && negb v && IsNodeClaimNotFoundError e) eqn:E.
    { split; [by eexists [_]|]. by intros _ x [= <-]. }
    split; [by eexists [_]|]. intros _ x [= <-]. rewrite as_claim_wrap. intros Hg.
    rewrite Hg, andb_true_r in E. split.
    + intros ->. cbn in E. by destruct v.
    + exists node, e. split; [apply asked_here|done].
  - destruct node as [node|]; [|split; [by eexists [_]|by intros _ x [= <-]]].
    cbv zeta. split_if; [|split; [by eexists [_]|done]].
    split; [done|]. intros [its|e].
    + destruct (List.find _ _); (split; [by eexists [_;_]|done]).
    + split; [by eexists [_;_]|]. intros Hc x [= <-]. unfold wrapped_. rewrite as_claim_wrap.
      by rewrite (clean_cp_head _ _ _ _ Hc eq_refl).
Qed.

(** The evidence for the absence of a VPC instance. *)
Definition verified_absence (h : history cp_call) (id : string) : Prop :=
  ∃ claims claim c node e,
    asked h ReadClaims (Ok claims) ∧ claim ∈ claims ∧ claim_ProviderID claim = id ∧
    same_claim h claim c ∧ target_ok h VPCMode c ∧
    asked h (ProviderGet VPCMode id) (node, Some e) ∧ IsNodeClaimNotFoundError e = true.

Lemma vpc_class id nodeClass mode :
  Strings.HasPrefix id "ibm:///"%string = true → classForProviderID id = Ok (nodeClass, mode) → mode = VPCMode.
Proof.
  unfold classForProviderID. intros ->. repeat case_match; try done. by intros [= _ <-].
Qed.

Lemma Get_wp id :
  Strings.HasPrefix id "ibm:///"%string = true →
  wp (account_guard any_claim) (Get Getenv has_apiReader id) [] (λ h r,
    clean_cp h → ∀ e, r = Err e → IsNodeClaimNotFoundError e = true → verified_absence h id).
Proof.
  intros Hid. unfold Get. destruct (classForProviderID id) as [[nodeClass mode]|e] eqn:Ec.
  2:{ intros _ x [= <-] Hx. exfalso. revert Ec Hx. unfold classForProviderID. repeat case_match; by intros [= <-]. }
  pose proof (vpc_class _ _ _ Hid Ec) as ->.
  apply wp_bind. eapply wp_mono; [|apply provider_wp]. intros h1 [m|e] [_ Hm].
  2:{ intros Hc x [= <-]. rewrite as_claim_wrap. by rewrite (Hm Hc). }
  injection Hm as <-. destruct has_apiReader.
  - apply wp_try. split; [done|]. intros [claims|e].
    2:{ intros Hc x [= <-]. by rewrite (clean_cp_head _ _ _ _ Hc eq_refl). }
    apply wp_try. eapply wp_mono; [|apply verify_claims_wp]. intros h2 [v|e] [(l & ->) Hv].
    2:{ intros Hc x [= <-]. by rewrite (Hv Hc). }
    eapply wp_mono; [|apply get_details_wp]. intros h3 r [(l3 & ->) Hr] Hc x -> Hx.
    destruct (Hr Hc x eq_refl Hx) as (Hver & node & e & Ha & He).
    destruct (Hv (Hver eq_refl)) as [?|(cl & c & Hin & Hpid & Hs & Ht)]; [done|].
    exists claims, cl, c, node, e. split_and!; try done.
    + apply asked_app, asked_app, asked_here.
    + destruct Hs as [->|[(Hq & Hu & Hp)|(s & f & Hq)]]; [by left|right; left|right; right].
      * split; [by apply asked_app|done].
      * exists s, f. by apply asked_app.
    + destruct Ht as [(? & ? & Hq)|?]; [left|by right]. split_and!; try done. by apply asked_app.
  - eapply wp_mono; [|apply get_details_wp]. intros h3 r [_ Hr] Hc x -> Hx.
    destruct (Hr Hc x eq_refl Hx) as (Hver & _). by specialize (Hver eq_refl).
Qed.
End accounts.

Section account_theorems.
Context `{Karpenter} `{HashDeps} `{ClaimStatus}.
Context (Getenv : string → string) (has_apiReader : bool).

(** C7. Delete asks a backend to delete an instance at most once and as its very
    last call, and returns that call's answer; it asks the backend that the
    claim's provider ID names, after the account the claim was launched in has
    been verified: by IBM Cloud for a VPC claim, else against the configured
    account.  It records an account only on this claim, when it has none, as that
    backend reported it for its very instance, and it reports the claim as gone
    only when the backend's deletion did. *)
Theorem delete_is_verified (claim : NodeClaim) (tr : history cp_call) (r : err)
    (Hrun : runs (Delete Getenv claim) tr r) :
  (∀ before mode node answer after,
     tr = before ++ Did (ProviderDelete mode node) answer :: after →
     after = [] ∧ r = answer ∧ may_delete_instance Getenv (reverse before) claim mode node) ∧
  (∀ before stored fresh answer after,
     tr = before ++ Did (PatchClaim stored fresh) answer :: after →
     ∃ nodeClass mode, classForProviderID (claim_ProviderID claim) = Ok (nodeClass, mode) ∧
       may_record (reverse before) mode claim stored fresh) ∧
  (clean_cp (reverse tr) → ∀ e, r = Some e → IsNodeClaimNotFoundError e = true →
     ∃ mode node before, tr = before ++ [Did (ProviderDelete mode node) (Some e)]).
Proof.
  destruct (wp_sound _ _ _ _ _ _ (Delete_wp Getenv claim) Hrun) as [Hg HQ].
  rewrite app_nil_r in HQ. split_and!.
  - intros before mode node answer after ->. apply guarded_at in Hg. rewrite app_nil_r in Hg.
    destruct (last_deletion _ _ _ _ _ _ _ HQ) as [-> ->]. by split_and!.
  - intros before stored fresh answer after ->. apply guarded_at in Hg. rewrite app_nil_r in Hg.
    destruct Hg as (mode & c & [-> [nodeClass Hc]] & Hm). by exists nodeClass, mode.
  - intros Hc e -> He. destruct HQ as [(mode & node & h' & Eh & _)|[_ Hn]].
    + exists mode, node, (reverse h'). rewrite <-(reverse_involutive tr), Eh. by rewrite reverse_cons.
    + by rewrite (Hn Hc e eq_refl) in He.
Qed.

(** C14. Get reports a VPC instance as gone only when some claim has its
    provider ID, the account of that claim has been verified in the same run,
    and the backend then reported the absence; without a reader of claims it
    never does. *)
Theorem absence_is_verified (id : string) (tr : history cp_call) (e : GoErrors.error)
    (Hvpc : Strings.HasPrefix id "ibm:///"%string = true)
    (Hrun : runs (Get Getenv has_apiReader id) tr (Err e))
    (Hclean : clean_cp (reverse tr)) (Hgone : IsNodeClaimNotFoundError e = true) :
  verified_absence Getenv (reverse tr) id.
Proof.
  destruct (wp_sound _ _ _ _ _ _ (Get_wp Getenv has_apiReader id Hvpc) Hrun) as [_ HQ].
  rewrite app_nil_r in HQ. by apply (HQ Hclean e).
Qed.
End account_theorems.
