(* ===== verification/CapacityType.v ===== *)
(** * CapacityType: spot or on demand

    [pkg/providers/common/capacitytype]: the capacity type of a launch, and the
    capacity types of an instance profile. *)
From stdpp Require Import prelude list strings gmap.
From S2P Require Import Prelude GoLib Errors NodeClass Prog Kube IksAllocation.

Open Scope string_scope.

Definition CapacityTypeSpot : string := "spot".

Section choices.
Context `{Karpenter}.

(** The capacity type of a launch; [None] when a nil instance type panics. *)
Definition spot_offering (reqs : list Requirement) (o : Offering) : bool :=
  OfferingCompatible reqs o && Available o &&
  Allows (off_Requirements o) CapacityTypeLabelKey CapacityTypeSpot.

Fixpoint any_spot (reqs : list Requirement) (types : list (option InstanceType)) : option bool :=
  match types with
  | [] => Some false
  | None :: _ => None
  | Some it :: types' =>
      if existsb (spot_offering reqs) (Offerings it) then Some true else any_spot reqs types'
  end.

Definition ResolveCapacityType (claim : NodeClaim) (types : list (option InstanceType)) : option string :=
  let reqs := Requirements claim in
  if Allows reqs CapacityTypeLabelKey CapacityTypeSpot then
    match any_spot reqs types with
    | None => None
    | Some true => Some CapacityTypeSpot
    | Some false => Some CapacityTypeOnDemand
    end
  else Some CapacityTypeOnDemand.
End choices.

(** ** The capacity types of a profile *)

(** The availability class of a profile, an interface of the SDK: one of its two
    types, or another. *)
Inductive InstanceProfileAvailabilityClass :=
  | AvailabilityClassEnum (values : list string)
  | AvailabilityClassFixed (value : option string)
  | AvailabilityClassOther.

Definition GetCapacityTypeFromAvailabilityClass (class : string) : string :=
  if String.eqb class "spot" then CapacityTypeSpot else CapacityTypeOnDemand.

Definition GetSupportedCapacityTypes (availabilityClass : option InstanceProfileAvailabilityClass) : list string :=
  let supportedCapacityTypes :=
    match availabilityClass with
    | Some (AvailabilityClassEnum values) => map GetCapacityTypeFromAvailabilityClass values
    | Some (AvailabilityClassFixed (Some value)) => [GetCapacityTypeFromAvailabilityClass value]
    | _ => []
    end in
  match supportedCapacityTypes with [] => [CapacityTypeOnDemand] | _ => supportedCapacityTypes end.
