(* ===== verification/InstanceTypes.v ===== *)
(** * InstanceTypes: the instance types of the region

    [pkg/providers/common/instancetype/instancetype.go]: from the profiles of the
    VPC API to Karpenter's instance types with their offerings, the filter of a
    NodeClass, the ranking, and the retry of the listings.  A panic is told from
    an error, because the listing goes on after an error of one profile. *)
From stdpp Require Import prelude list strings gmap sorting.
From Stdlib Require Import Ascii SpecFloat.
From S2P Require Import Prelude GoLib GoSort GoFloat Errors NodeClass ProviderIDs Prog GoWait Kube IksAllocation CapacityType.
Import Strings.

Local Open Scope string_scope.
Local Open Scope Z_scope.
Local Open Scope prog_scope.

(** ** Data *)

(** A number of a profile, an interface of the SDK: the type with a value that
    the code asks for, or another. *)
Inductive profile_value := ProfileValue (value : option Z) | OtherValue.

Record InstanceProfile := {
  pr_Name : option string;
  VcpuCount : option profile_value;
  pr_Memory : option profile_value;
  VcpuArchitecture : option (option string);
  GpuCount : option profile_value;
  AvailabilityClass : option InstanceProfileAvailabilityClass;
}.

Record InstanceTypeOverhead := {
  oh_KubeReserved : ResourceList;
  oh_SystemReserved : ResourceList;
  EvictionThreshold : ResourceList;
}.

Record ExtendedInstanceType := {
  ext_InstanceType : InstanceType;
  ext_Architecture : string;
  ext_Price : spec_float;
}.

(** What the code uses of quantities, in thousandths: [Value] and
    [ScaledValue(Giga)], which round up, and [ParseQuantity]; and the
    [Allocatable] resources of an instance type. *)
Class Quantities := {
  QuantityValue : Z → Z;
  ScaledGiga : Z → Z;
  ParseQuantity : string → option Z;
  AllocatableOf : ResourceList → InstanceTypeOverhead → ResourceList;
  QuantityValue_ceil : ∀ q, 0 ≤ q ≤ 1000 * GoTime.max_duration →
    1000 * (QuantityValue q - 1) < q ≤ 1000 * QuantityValue q;
  ScaledGiga_ceil : ∀ q, 0 ≤ q ≤ 1000 * GoTime.max_duration →
    10 ^ 12 * (ScaledGiga q - 1) < q ≤ 10 ^ 12 * ScaledGiga q;
}.

(** The calls: the two ways to a VPC client, the second with whether its SDK
    client is set; the listings, the first with the response of a failed
    request; the cache of zones with the time of each entry; the price and the
    availability of an offering. *)
Inductive it_call : Type → Type :=
  | ManagerGetVPCClient : it_call err
  | ClientGetVPCClient : it_call (result GoErrors.error bool)
  | ListInstanceProfiles :
      it_call (result (GoErrors.error * option DetailedResponse) (option (option (list InstanceProfile))))
  | ListRegionZones (region : string) :
      it_call (result GoErrors.error (option (option (list (option string)))))
  | ZonesCached (region : string) : it_call (option (list string * Z))
  | ZonesStore (region : string) (zones : list string) (time : Z) : it_call unit
  | Now : it_call Z
  | GetPrice (instanceType zone : string) : it_call (spec_float * err)
  | IsUnavailable (key : string) : it_call bool.

Local Abbreviation history := (history it_call).
Local Abbreviation prog := (prog it_call).
Local Abbreviation itp A := (prog (result failure A)).

Definition failed {A} (message : string) : itp A := Ret (Err (Failed (GoErrors.New message))).
Definition failed_with {A} (prefix : string) (e : GoErrors.error) : itp A := Ret (Err (Failed (wrapped_ prefix e))).

(** The provider value: the region of its client, whether it has a pricing
    provider and the unavailable offerings; and the spot percentage of the
    options in the context. *)
Record provider := {
  i_client : option string;
  i_pricing : bool;
  i_unavailable : bool;
  i_percent : Z;
}.

Definition LabelArchStable : string := "kubernetes.io/arch".

(** ** Scores *)
Section types.
Context `{SliceSorter, MapRange, Karpenter, Quantities}.

Definition calculateInstanceTypeScore (instanceType : ExtendedInstanceType) : spec_float :=
  let capacity := it_Capacity (ext_InstanceType instanceType) in
  let cpuCount := Float.of_int (QuantityValue (quantity capacity cpu)) in
  let memoryGB := Float.of_int (ScaledGiga (quantity capacity memory)) in
  let hourlyPrice := ext_Price instanceType in
  if SFleb hourlyPrice Float.zero then Float.add cpuCount memoryGB
  else
    Float.div (Float.add (Float.div hourlyPrice cpuCount) (Float.div hourlyPrice memoryGB)) (Float.of_int 2).

(** The values of a requirement have no order. *)
Definition getArchitecture (it : InstanceType) : string :=
  match it_Requirements it !! LabelArchStable with
  | Some req => match map_range (Values req) with value :: _ => value | [] => "amd64" end
  | None => "amd64"
  end.

Definition rankInstanceTypes (instanceTypes : list ExtendedInstanceType) : list ExtendedInstanceType :=
  map fst (sort_slice (λ x y, SFltb (snd x) (snd y))
    (map (λ it, (it, calculateInstanceTypeScore it)) instanceTypes)).

(** ** The filter of a NodeClass *)

(** The price limit, [None] without one. *)
Definition price_limit (requirements : InstanceTypeRequirements) : result GoErrors.error (option spec_float) :=
  if empty (MaximumHourlyPrice requirements) then Ok None
  else match ParseFloat (MaximumHourlyPrice requirements) with
       | None => Err (GoErrors.New "invalid MaximumHourlyPrice value")
       | Some maxPrice =>
           if Float.is_nan maxPrice || Float.is_inf maxPrice || SFltb maxPrice Float.zero
           then Err (GoErrors.New "MaximumHourlyPrice must be a finite nonnegative number")
           else Ok (Some maxPrice)
       end.

Definition affordable (maxPrice : spec_float) (o : Offering) : bool :=
  SFleb Float.zero (Price o) && SFleb (Price o) maxPrice.

Definition set_Offerings (offerings : list Offering) (it : InstanceType) : InstanceType :=
  {| it_Name := it_Name it; it_Requirements := it_Requirements it; Offerings := offerings;
     it_Capacity := it_Capacity it; it_Allocatable := it_Allocatable it |}.

Definition within_limit (limit : option spec_float) (it : InstanceType) : option InstanceType :=
  match limit with
  | None => Some it
  | Some maxPrice =>
      match List.filter (affordable maxPrice) (Offerings it) with
      | [] => None
      | offerings => Some (set_Offerings offerings it)
      end
  end.

Definition GiB : Z := 2 ^ 30.

(** The resources and the architecture asked for. *)
Definition fits_requirements (requirements : InstanceTypeRequirements) (it : InstanceType) : bool :=
  if negb (empty (req_Architecture requirements)) &&
     negb (String.eqb (getArchitecture it) (req_Architecture requirements)) then false
  else if (0 <? MinimumCPU requirements) &&
          (QuantityValue (quantity (it_Capacity it) cpu) <? MinimumCPU requirements) then false
  else if (0 <? MinimumMemory requirements) &&
          SFltb (Float.div (Float.of_int (QuantityValue (quantity (it_Capacity it) memory))) (Float.of_int GiB))
                (Float.of_int (MinimumMemory requirements)) then false
  else true.

Definition lowest_price (it : InstanceType) : spec_float :=
  let price := foldl (λ price o, Float.Min price (Price o)) Float.infinity (Offerings it) in
  match price with S754_infinity false => Float.zero | _ => price end.

(** One round of the loop. *)
Definition admit_type (requirements : InstanceTypeRequirements) (limit : option spec_float) (it : InstanceType)
    : option ExtendedInstanceType :=
  if fits_requirements requirements it then
    match within_limit limit it with
    | None => None
    | Some it => Some {| ext_InstanceType := it; ext_Architecture := getArchitecture it; ext_Price := lowest_price it |}
    end
  else None.

Fixpoint admit_all (requirements : InstanceTypeRequirements) (limit : option spec_float) (types : list InstanceType)
    : list ExtendedInstanceType :=
  match types with
  | [] => []
  | it :: types' =>
      match admit_type requirements limit it with
      | Some e => e :: admit_all requirements limit types'
      | None => admit_all requirements limit types'
      end
  end.

Definition filterCatalog (instanceTypes : list InstanceType) (requirements : InstanceTypeRequirements)
    : result GoErrors.error (list InstanceType) :=
  match price_limit requirements with
  | Err e => Err e
  | Ok limit => Ok (map ext_InstanceType (rankInstanceTypes (admit_all requirements limit instanceTypes)))
  end.

(** ** Zones *)
Context (p : provider).

(** The zones that have a name. *)
Definition zone_names (zones : list (option string)) : list string := omap id zones.

Definition fetch_zones (region : string) : itp (list string) :=
  answer ⟵ ClientGetVPCClient;
  match answer with
  | Err e => failed_with "failed to get VPC client" e
  | Ok false => failed "VPC SDK client not available"
  | Ok true =>
      answer ⟵ ListRegionZones region;
      match answer with
      | Err e => failed_with ("failed to list zones for region " ++ region) e
      | Ok None | Ok (Some None) => failed ("no zones found for region " ++ region)
      | Ok (Some (Some zones)) =>
          match zone_names zones with
          | [] => failed ("no valid zones found for region " ++ region)
          | names =>
              now ⟵ Now;
              _u ⟵ ZonesStore region names now;
              Ret (Ok names)
          end
      end
  end.

Definition getZonesForRegion (region : string) : itp (list string) :=
  cached ⟵ ZonesCached region;
  match cached with
  | Some (zones, time) =>
      now ⟵ Now;
      if GoTime.Sub now time <? 60 * GoTime.Minute then Ret (Ok zones) else fetch_zones region
  | None => fetch_zones region
  end.

(** ** From a profile to an instance type *)
Definition getInstanceFamily (instanceType : string) : string :=
  match Split instanceType "-" with
  | part :: _ => if negb (empty part) then part else "balanced"
  | [] => "balanced"
  end.

Fixpoint getInstanceSize (instanceType : string) : string :=
  match instanceType with
  | EmptyString => "small"
  | String c rest => if Ascii.eqb c "-" && negb (empty rest) then rest else getInstanceSize rest
  end.

Definition unit_ : Z := 1000.

(** A quantity of the kubelet configuration, or the default. *)
Definition reserved (config : option KubeletConfiguration) (field : KubeletConfiguration → gmap string string)
    (key : string) (default : Z) : Z :=
  match config with
  | Some kubelet =>
      match field kubelet !! key with
      | Some value => match ParseQuantity value with Some parsed => parsed | None => default end
      | None => default
      end
  | None => default
  end.

Definition calculateOverhead (nodeClass : option IBMNodeClass) : InstanceTypeOverhead :=
  let config := match nodeClass with Some c => Kubelet (Spec c) | None => None end in
  {| oh_KubeReserved :=
       <[cpu := reserved config KubeReserved cpu 100]>
         {[memory := reserved config KubeReserved memory (2 ^ 30 * unit_)]};
     oh_SystemReserved :=
       <[cpu := reserved config SystemReserved cpu 100]>
         {[memory := reserved config SystemReserved memory (2 ^ 30 * unit_)]};
     EvictionThreshold :=
       {[memory := reserved config EvictionHard "memory.available" (500 * 2 ^ 20 * unit_)]} |}.

(** A number the profile must have. *)
Definition required_value (name what : string) (field : option profile_value) : result GoErrors.error Z :=
  match field with
  | Some (ProfileValue (Some value)) => Ok value
  | Some _ => Err (GoErrors.New ("instance profile " ++ name ++ " has unsupported " ++ what ++ " type"))
  | None => Err (GoErrors.New ("instance profile " ++ name ++ " has no " ++ what))
  end.

Definition profile_arch (profile : InstanceProfile) : string :=
  match VcpuArchitecture profile with Some (Some value) => value | _ => "amd64" end.
Definition profile_gpus (profile : InstanceProfile) : Z :=
  match GpuCount profile with Some (ProfileValue (Some value)) => value | _ => 0 end.

Definition In_ (key value : string) : Requirement :=
  {| req_Key := key; Operator := "In"; Values := [value] |}.

Definition FamilyLabel : string := "karpenter-ibm.sh/instance-family".
Definition SizeLabel : string := "karpenter-ibm.sh/instance-size".

Definition type_requirements (name arch : string) : gmap string Requirement :=
  <[LabelInstanceTypeStable := In_ LabelInstanceTypeStable name]>
  (<[LabelArchStable := In_ LabelArchStable arch]>
  (<[FamilyLabel := In_ FamilyLabel (getInstanceFamily name)]>
  {[SizeLabel := In_ SizeLabel (getInstanceSize name)]})).

Definition pod_count (cpuCount : Z) : Z :=
  if cpuCount <=? 2 then 30 else if cpuCount <=? 4 then 60 else 110.

(** The memory is an int64 product. *)
Definition type_capacity (cpuCount memoryGB gpuCount : Z) : ResourceList :=
  <[cpu := cpuCount * unit_]> (<[memory := Retry.wrap64 (memoryGB * 1024 * 1024 * 1024) * unit_]>
  (<["pods" := pod_count cpuCount * unit_]> {["nvidia.com/gpu" := gpuCount * unit_]})).

(** Whether the class has a price limit. *)
Definition price_limited (nodeClass : option IBMNodeClass) : bool :=
  match nodeClass with
  | Some c =>
      match InstanceRequirements (Spec c) with
      | Some requirements => negb (empty (MaximumHourlyPrice requirements))
      | None => false
      end
  | None => false
  end.

Definition spot_percent : Z := if i_percent p =? 0 then 60 else i_percent p.

Definition spot_price (price : spec_float) : spec_float :=
  Float.div (Float.mul price (Float.of_int spot_percent)) (Float.of_int 100).

Definition offering_key (name zone capacityType : string) : string :=
  name ++ ":" ++ zone ++ ":" ++ capacityType.

Definition offering_of (zone capacityType : string) (price : spec_float) (available : bool) : Offering :=
  {| off_Requirements := [In_ LabelTopologyZone zone; In_ CapacityTypeLabelKey capacityType];
     Price := if String.eqb capacityType CapacityTypeSpot then spot_price price else price;
     Available := available |}.

Definition available (key : string) : prog bool :=
  if i_unavailable p then bind (call (IsUnavailable key)) (λ u, Ret (negb u)) else Ret true.

(** The loops over the zones and the capacity types. *)
Fixpoint offerings_for (name : string) (priceLimited : bool) (pairs : list (string * string))
    : itp (list Offering) :=
  match pairs with
  | [] => Ret (Ok [])
  | (zone, capacityType) :: pairs' =>
      if negb (i_pricing p) then Ret (Err Panicked)
      else
        answer ⟵ GetPrice name zone;
        if priceLimited && bool_decide (is_Some (snd answer)) then offerings_for name priceLimited pairs'
        else
          bind (available (offering_key name zone capacityType)) (λ a,
          offerings ←! offerings_for name priceLimited pairs';
          Ret (Ok (offering_of zone capacityType (fst answer) a :: offerings)))
  end.

Definition convertVPCProfileToInstanceType (profile : InstanceProfile) (nodeClass : option IBMNodeClass)
    : itp InstanceType :=
  match pr_Name profile with
  | None => failed "instance profile name is nil"
  | Some name =>
      if empty name then failed "instance profile has empty name"
      else match required_value name "CPU count" (VcpuCount profile) with
      | Err e => Ret (Err (Failed e))
      | Ok cpuCount =>
          match required_value name "memory" (pr_Memory profile) with
          | Err e => Ret (Err (Failed e))
          | Ok memoryGB =>
              match i_client p with
              | None => failed "IBM client not initialized - cannot determine zones for instance offerings"
              | Some region =>
                  bind (getZonesForRegion region) (λ zones,
                  match zones with
                  | Err (Failed e) => failed_with ("failed to get zones for region " ++ region) e
                  | Err Panicked => Ret (Err Panicked)
                  | Ok [] => failed ("no zones found for region " ++ region)
                  | Ok zones =>
                      offerings ←! offerings_for name (price_limited nodeClass)
                        (list_prod zones (GetSupportedCapacityTypes (AvailabilityClass profile)));
                      let capacity := type_capacity cpuCount memoryGB (profile_gpus profile) in
                      Ret (Ok {| it_Name := name;
                                 it_Requirements := type_requirements name (profile_arch profile);
                                 Offerings := offerings;
                                 it_Capacity := capacity;
                                 it_Allocatable := AllocatableOf capacity (calculateOverhead nodeClass) |})
                  end)
              end
          end
      end
  end.

(** ** Ranking by the prices of the region *)
Definition ranking_price (it : InstanceType) : prog spec_float :=
  if negb (i_pricing p) then Ret Float.zero
  else match i_client p with
       | None => Ret Float.zero
       | Some region =>
           answer ⟵ GetPrice (it_Name it) (region ++ "-1");
           match snd answer with Some _ => Ret Float.zero | None => Ret (fst answer) end
       end.

Fixpoint with_prices (types : list InstanceType) : prog (list ExtendedInstanceType) :=
  match types with
  | [] => Ret []
  | it :: types' =>
      bind (ranking_price it) (λ price,
      bind (with_prices types') (λ extended,
      Ret ({| ext_InstanceType := it; ext_Architecture := getArchitecture it; ext_Price := price |} :: extended)))
  end.

Definition RankInstanceTypes (types : list InstanceType) : prog (list InstanceType) :=
  bind (with_prices types) (λ extended, Ret (map ext_InstanceType (rankInstanceTypes extended))).

(** ** Retries *)
Definition retryablePatterns : list string :=
  ["connection refused"; "connection reset"; "connection timed out"; "temporary failure"; "eof";
   "broken pipe"; "no such host"; "internal server error"; "service unavailable"; "gateway timeout";
   "bad gateway"; "cloudflare"; "timeout"; "deadline exceeded"].

Definition isRetryableError (e : GoErrors.error) (statusCode : Z) : bool :=
  if bool_decide (statusCode ∈ [500; 502; 503; 504; 522; 524]) then true
  else if statusCode =? 429 then true
  else match GoErrors.As GoErrors.as_net e with
       | Some timeout => timeout
       | None =>
           if bool_decide (is_Some (GoErrors.As GoErrors.as_deadline e)) then true
           else existsb (Contains (ToLower (GoErrors.Error e))) retryablePatterns
       end.

Definition status_of (response : option DetailedResponse) : Z :=
  match response with Some r => StatusCode r | None => 0 end.

Definition backoff : Backoff :=
  {| Duration := GoTime.Second; Factor := 2; Jitter := 10; Steps := 10;
     Cap := 15 * GoTime.Second |}.

Context `{ExponentialBackoff it_call}.

(** The variables a condition captures: the answer and [lastErr]. *)
Local Abbreviation captured A := (A * err)%type.

(** One attempt of [Get]. *)
Definition get_attempt (name : string) (nodeClass : option IBMNodeClass) (s : captured (option InstanceType))
    : prog (captured (option InstanceType) * attempt) :=
  e ⟵ ManagerGetVPCClient;
  match e with
  | Some e => Ret ((fst s, Some (wrapped_ "failed to get VPC client" e)), Again)
  | None =>
      answer ⟵ ListInstanceProfiles;
      match answer with
      | Err (e, response) =>
          Ret ((fst s, Some (wrapped_ "failed to list instance profiles" e)),
               if isRetryableError e (status_of response) then Again else Refused e)
      | Ok None | Ok (Some None) =>
          let lastErr := GoErrors.New "no instance profiles returned from VPC API" in
          Ret ((fst s, Some lastErr), Refused lastErr)
      | Ok (Some (Some profiles)) =>
          match List.find (λ profile, bool_decide (pr_Name profile = Some name)) profiles with
          | None =>
              let lastErr := GoErrors.New ("instance profile " ++ name ++ " not found in VPC API") in
              Ret ((fst s, Some lastErr), Refused lastErr)
          | Some profile =>
              bind (convertVPCProfileToInstanceType profile nodeClass) (λ converted,
              match converted with
              | Ok it => Ret ((Some it, snd s), Done)
              | Err (Failed e) =>
                  let lastErr := wrapped_ ("failed to convert profile " ++ name) e in
                  Ret ((fst s, Some lastErr), Refused lastErr)
              | Err Panicked => Ret (s, Crashed)
              end)
          end
      end
  end.

Definition Get (name : string) (nodeClass : option IBMNodeClass) : itp InstanceType :=
  match i_client p with
  | None => failed "IBM client not initialized"
  | Some _ =>
      bind (backoff_run backoff (get_attempt name nodeClass) (None, None)) (λ '((instanceType, lastErr), retryErr),
      match retryErr with
      | Some Panicked => Ret (Err Panicked)
      | Some (Failed e) => Ret (Err (Failed (default e lastErr)))
      | None =>
          match instanceType with
          | None => failed ("instance profile " ++ name ++ " not found")
          | Some it => Ret (Ok it)
          end
      end)
  end.

(** The loop over the profiles: one that cannot be converted is left out. *)
Fixpoint convert_profiles (profiles : list InstanceProfile) (nodeClass : option IBMNodeClass)
    : itp (list InstanceType) :=
  match profiles with
  | [] => Ret (Ok [])
  | profile :: profiles' =>
      bind (convertVPCProfileToInstanceType profile nodeClass) (λ converted,
      match converted with
      | Err Panicked => Ret (Err Panicked)
      | Err (Failed _) => convert_profiles profiles' nodeClass
      | Ok it =>
          if empty (it_Name it) then convert_profiles profiles' nodeClass
          else types ←! convert_profiles profiles' nodeClass; Ret (Ok (it :: types))
      end)
  end.

(** One attempt of [listFromVPC]. *)
Definition list_attempt (nodeClass : option IBMNodeClass) (s : captured (list InstanceType))
    : prog (captured (list InstanceType) * attempt) :=
  e ⟵ ManagerGetVPCClient;
  match e with
  | Some e => Ret ((fst s, Some (wrapped_ "getting VPC client" e)), Again)
  | None =>
      answer ⟵ ListInstanceProfiles;
      match answer with
      | Err (e, response) =>
          Ret ((fst s, Some (wrapped_ "listing VPC instance profiles" e)),
               if isRetryableError e (status_of response) then Again else Refused e)
      | Ok None => Ret (s, Crashed)
      | Ok (Some profiles) =>
          bind (convert_profiles (default [] profiles) nodeClass) (λ types,
          match types with
          | Ok types => Ret ((types, snd s), Done)
          | Err _ => Ret (s, Crashed)
          end)
      end
  end.

Definition listFromVPC (nodeClass : option IBMNodeClass) : itp (list InstanceType) :=
  bind (backoff_run backoff (list_attempt nodeClass) ([], None)) (λ '((instanceTypes, lastErr), retryErr),
  match retryErr with
  | Some Panicked => Ret (Err Panicked)
  | Some (Failed e) =>
      match lastErr with
      | Some lastErr => failed_with "failed after retries" lastErr
      | None => failed_with "failed to list instance types" e
      end
  | None =>
      match instanceTypes with
      | [] => failed "no instance types returned from VPC API"
      | _ => Ret (Ok instanceTypes)
      end
  end).

(** The end of [List]: the types of the class. *)
Definition types_of_class (instanceTypes : list InstanceType) (nodeClass : option IBMNodeClass)
    : result GoErrors.error (list InstanceType) :=
  match nodeClass with
  | None => Ok instanceTypes
  | Some c =>
      if negb (empty (NodeClass.InstanceProfile (Spec c)))
      then match List.find (λ it, String.eqb (it_Name it) (NodeClass.InstanceProfile (Spec c))) instanceTypes with
           | Some it => Ok [it]
           | None => Ok []
           end
      else match InstanceRequirements (Spec c) with
           | Some requirements => filterCatalog instanceTypes requirements
           | None => Ok instanceTypes
           end
  end.

Definition List_ (nodeClass : option IBMNodeClass) : itp (list InstanceType) :=
  match i_client p with
  | None => failed "IBM client not initialized"
  | Some _ =>
      bind (listFromVPC nodeClass) (λ answer,
      match answer with
      | Err (Failed e) => failed_with "failed to list instance types from VPC API" e
      | Err Panicked => Ret (Err Panicked)
      | Ok [] => failed "no instance types found from VPC API"
      | Ok instanceTypes =>
          match types_of_class instanceTypes nodeClass with
          | Ok types => Ret (Ok types)
          | Err e => Ret (Err (Failed e))
          end
      end)
  end.

(** The class with other instance requirements and no profile. *)
Definition with_requirements (requirements : option InstanceTypeRequirements) (c : IBMNodeClass) : IBMNodeClass :=
  let s := Spec c in
  {| nc_meta := nc_meta c;
     Spec :=
       {| Region := Region s; Zone := Zone s; NodeClass.InstanceProfile := ""; InstanceRequirements := requirements;
          Image := Image s; ImageSelector_ := ImageSelector_ s; VPC := VPC s; Subnet := Subnet s;
          PlacementStrategy_ := PlacementStrategy_ s; SecurityGroups := SecurityGroups s;
          UserData := UserData s; UserDataAppend := UserDataAppend s; SSHKeys := SSHKeys s;
          ResourceGroup := ResourceGroup s; PlacementTarget := PlacementTarget s; Tags := Tags s;
          BootstrapMode := BootstrapMode s; APIServerEndpoint := APIServerEndpoint s;
          IKSClusterID := IKSClusterID s; IKSWorkerPoolID := IKSWorkerPoolID s;
          IKSDynamicPools := IKSDynamicPools s; LoadBalancerIntegration_ := LoadBalancerIntegration_ s;
          BlockDeviceMappings := BlockDeviceMappings s; Kubelet := Kubelet s |};
     Status := Status c |}.

Definition FilterInstanceTypes (requirements : option InstanceTypeRequirements) (nodeClass : option IBMNodeClass)
    : itp (list InstanceType) :=
  List_ (Some (with_requirements requirements
    (default {| nc_meta := no_meta; Spec := empty_spec; Status := empty_status |} nodeClass))).
End types.
