(* ===== verification/InstanceTypesSpec.v ===== *)
(** * InstanceTypesSpec: what the listing of instance types guarantees

    The filter and the order of a NodeClass, the offerings of an instance type,
    and the retry of a listing. *)
From stdpp Require Import prelude list strings gmap sorting.
From Stdlib Require Import SpecFloat.
From S2P Require Import Prelude GoLib GoSort GoFloat Errors NodeClass ProviderIDs Prog GoWait Kube IksAllocation.
From S2P Require Import CapacityType InstanceTypes.
Import Strings.

Local Open Scope string_scope.
Local Open Scope Z_scope.

Section spec.
Context `{SliceSorter, MapRange, Karpenter, Quantities}.

(** ** Ranking *)
Definition representable (q : Z) : Prop := 0 ≤ q ≤ 1000 * GoTime.max_duration.

(** The resources are quantities of an int64 and the prices are numbers; the
    memory is below 8 PiB. *)
Record well_formed (it : InstanceType) : Prop := {
  wf_cpu : representable (quantity (it_Capacity it) cpu);
  wf_memory : 0 ≤ quantity (it_Capacity it) memory ≤ 1000 * (2 ^ 53 - 1);
  wf_prices : Forall (λ o, Float.is_nan (Price o) = false) (Offerings it);
}.

Definition check_well_formed (it : InstanceType) : bool :=
  (0 <=? quantity (it_Capacity it) cpu) && (quantity (it_Capacity it) cpu <=? 1000 * GoTime.max_duration) &&
  (0 <=? quantity (it_Capacity it) memory) && (quantity (it_Capacity it) memory <=? 1000 * (2 ^ 53 - 1)) &&
  forallb (λ o, negb (Float.is_nan (Price o))) (Offerings it).

Lemma check_well_formed_true it : check_well_formed it = true → well_formed it.
Proof.
  unfold check_well_formed. rewrite !andb_true_iff, !Z.leb_le, forallb_forall. intros [[[[? ?] ?] ?] Hp].
  split; [done|lia|]. apply Forall_forall. intros o Ho%list_elem_of_In%Hp. by apply negb_true_iff in Ho.
Qed.

Definition extended (it : InstanceType) : ExtendedInstanceType :=
  {| ext_InstanceType := it; ext_Architecture := getArchitecture it; ext_Price := lowest_price it |}.

(** The order of the types: the score with the price of the cheapest offering. *)
Definition cheaper (it it' : InstanceType) : bool :=
  SFltb (calculateInstanceTypeScore (extended it)) (calculateInstanceTypeScore (extended it')).

Lemma value_bound q : representable q → 0 ≤ QuantityValue q < 2 ^ 63.
Proof. intros Hq. pose proof (QuantityValue_ceil q Hq). unfold representable, GoTime.max_duration in *. lia. Qed.
Lemma giga_bound q : representable q → 0 ≤ ScaledGiga q < 2 ^ 63.
Proof. intros Hq. pose proof (ScaledGiga_ceil q Hq). unfold representable, GoTime.max_duration in *. lia. Qed.

(** A score is a number when the price is. *)
Lemma score_number e :
  representable (quantity (it_Capacity (ext_InstanceType e)) cpu) →
  representable (quantity (it_Capacity (ext_InstanceType e)) memory) →
  Float.is_nan (ext_Price e) = false → Float.is_nan (calculateInstanceTypeScore e) = false.
Proof.
  intros Hc%value_bound Hm%giga_bound Hp. unfold calculateInstanceTypeScore.
  destruct (Float.of_int_nonneg _ Hc) as [Hc1 Hc2]. destruct (Float.of_int_nonneg _ Hm) as [Hm1 Hm2].
  apply Float.nonneg_not_nan. destruct (SFleb (ext_Price e) Float.zero) eqn:Ele.
  { by apply Float.add_nonneg. }
  assert (Hpos : Float.nonneg (ext_Price e) = true ∧ ext_Price e ≠ Float.zero)
    by by destruct (ext_Price e) as [[]|[]| |[]].
  apply Float.div_nonneg; [|done|done|by right].
  apply Float.add_nonneg; apply Float.div_nonneg; try done; naive_solver.
Qed.

Lemma lowest_price_number it :
  Forall (λ o, Float.is_nan (Price o) = false) (Offerings it) → Float.is_nan (lowest_price it) = false.
Proof.
  intros Hall. unfold lowest_price.
  enough (Hgen : ∀ acc, Float.is_nan acc = false →
    Float.is_nan (foldl (λ price o, Float.Min price (Price o)) acc (Offerings it)) = false).
  { specialize (Hgen Float.infinity eq_refl). by destruct (foldl _ _ _) as [|[]| |]. }
  induction Hall as [|o l Ho _ IH]; intros acc Hacc; cbn; [done|]. apply IH, Float.Min_not_nan; done.
Qed.

Lemma rank_perm l : rankInstanceTypes l ≡ₚ l.
Proof.
  unfold rankInstanceTypes. rewrite sort_slice_perm, map_map. cbn. by rewrite map_id.
Qed.

(** No type has a lower score than an earlier one. *)
Lemma rank_sorted l : Forall (λ e, Float.is_nan (calculateInstanceTypeScore e) = false) l →
  less_sorted (λ x y, SFltb (calculateInstanceTypeScore x) (calculateInstanceTypeScore y)) (rankInstanceTypes l).
Proof.
  intros Hl. unfold rankInstanceTypes. set (less := λ x y : _ * spec_float, SFltb (snd x) (snd y)).
  set (scored := map _ l).
  assert (Hin : Forall (λ x, snd x = calculateInstanceTypeScore (fst x) ∧ Float.is_nan (snd x) = false) scored).
  { apply Forall_forall. intros x (e & -> & He)%list_elem_of_fmap. rewrite Forall_forall in Hl. split; [done|by apply Hl]. }
  pose proof (sort_slice_sorted_on (λ x, Float.is_nan (snd x) = false) less scored) as Hs.
  specialize (Hs ltac:(by eapply Forall_impl; [exact Hin|cbn; naive_solver])).
  specialize (Hs ltac:(destruct Float.weak_order as [H1' H2' H3']; split; unfold less; intros; eauto)).
  assert (Hin' : Forall (λ x, snd x = calculateInstanceTypeScore (fst x)) (sort_slice less scored)).
  { rewrite sort_slice_perm. eapply Forall_impl; [exact Hin|]. naive_solver. }
  unfold less_sorted in *. clear -Hs Hin'. induction Hs as [|x l' Hs IH Hx]; cbn; [constructor|].
  apply Forall_cons in Hin' as [Ex Hin']. constructor; [by apply IH|].
  apply Forall_forall. intros y (y' & -> & Hy)%list_elem_of_fmap. rewrite Forall_forall in Hx, Hin'.
  specialize (Hx y' Hy). unfold less in Hx. by rewrite <-Ex, <-(Hin' y' Hy).
Qed.

(** ** The filter *)

(** What the requirements ask of a type. *)
Definition suitable (r : InstanceTypeRequirements) (it : InstanceType) : Prop :=
  (req_Architecture r = "" ∨ getArchitecture it = req_Architecture r) ∧
  MinimumCPU r ≤ QuantityValue (quantity (it_Capacity it) cpu) ∧
  MinimumMemory r * GiB ≤ QuantityValue (quantity (it_Capacity it) memory).

Lemma fits_suitable r it : MinimumMemory r < 2 ^ 31 → well_formed it → fits_requirements r it = true ↔ suitable r it.
Proof.
  intros Hmin [Hc Hm _]. pose proof (value_bound _ Hc) as Hvc.
  pose proof (QuantityValue_ceil (quantity (it_Capacity it) memory) ltac:(unfold GoTime.max_duration; lia)) as Hvm.
  unfold fits_requirements, suitable, empty.
  assert (Hmem : (0 <? MinimumMemory r) && SFltb (Float.div
      (Float.of_int (QuantityValue (quantity (it_Capacity it) memory))) (Float.of_int GiB))
      (Float.of_int (MinimumMemory r)) =
    (0 <? MinimumMemory r) && (QuantityValue (quantity (it_Capacity it) memory) <? MinimumMemory r * GiB)).
  { destruct (Z.ltb_spec 0 (MinimumMemory r)); [|done]. cbn [andb]. apply Float.ltb_quotient; lia. }
  rewrite Hmem. unfold GiB.
  destruct (String.eqb_spec (req_Architecture r) ""), (String.eqb_spec (getArchitecture it) (req_Architecture r));
    cbn [negb andb]; try (split; [done|naive_solver]);
  destruct (Z.ltb_spec 0 (MinimumCPU r)), (Z.ltb_spec (QuantityValue (quantity (it_Capacity it) cpu)) (MinimumCPU r));
    cbn [andb]; try (split; [done|lia]);
  destruct (Z.ltb_spec 0 (MinimumMemory r)),
    (Z.ltb_spec (QuantityValue (quantity (it_Capacity it) memory)) (MinimumMemory r * 2 ^ 30));
    cbn [andb]; (split; [done || (intros _; split_and!; [by auto|lia|lia])|done || lia]).
Qed.

(** An offering of a known price, at most the limit. *)
Definition payable (maxPrice : spec_float) (o : Offering) : Prop :=
  SFleb Float.zero (Price o) = true ∧ SFleb (Price o) maxPrice = true.
#[local] Instance payable_dec maxPrice o : Decision (payable maxPrice o) := ltac:(unfold payable; apply _).

Lemma affordable_payable maxPrice o : affordable maxPrice o = true ↔ payable maxPrice o.
Proof. apply andb_true_iff. Qed.

Lemma filter_affordable maxPrice l : List.filter (affordable maxPrice) l = filter (payable maxPrice) l.
Proof.
  induction l as [|o l IH]; [done|]. rewrite filter_cons. cbn [List.filter].
  destruct (decide (payable maxPrice o)) as [Hp|Hp]; rewrite <-affordable_payable in Hp; [by rewrite Hp, IH|].
  by rewrite (not_true_is_false _ Hp).
Qed.

(** The type with the offerings it may be bought for: at least one, under a
    limit. *)
Definition priced (limit : option spec_float) (it it' : InstanceType) : Prop :=
  match limit with
  | None => it' = it
  | Some maxPrice =>
      it' = set_Offerings (filter (payable maxPrice) (Offerings it)) it ∧ Exists (payable maxPrice) (Offerings it)
  end.

Lemma within_limit_priced limit it it' : within_limit limit it = Some it' ↔ priced limit it it'.
Proof.
  unfold within_limit, priced. destruct limit as [maxPrice|]; [|naive_solver].
  rewrite Exists_exists, filter_affordable. destruct (filter _ _) as [|o l] eqn:E.
  - split; [done|]. intros (_ & o & Ho & Ha).
    assert (o ∈ []) as Hin by (rewrite <-E; by apply list_elem_of_filter). by inversion Hin.
  - split; [|by intros [-> _]]. intros [= <-]. split; [done|]. exists o.
    assert (o ∈ filter (payable maxPrice) (Offerings it)) as Hin by (rewrite E; by left).
    by apply list_elem_of_filter in Hin as [? ?].
Qed.

Lemma admit_all_elem r limit types e :
  e ∈ admit_all r limit types ↔
  ∃ it it', it ∈ types ∧ fits_requirements r it = true ∧ priced limit it it' ∧ e = extended it'.
Proof.
  induction types as [|it types IH]; cbn [admit_all].
  { split; [by intros ?%not_elem_of_nil|]. by intros (? & ? & ?%not_elem_of_nil & _). }
  assert (Ha : admit_type r limit it = if fits_requirements r it then extended <$> within_limit limit it else None).
  { unfold admit_type. destruct (fits_requirements r it); [|done]. by destruct (within_limit limit it). }
  rewrite Ha. clear Ha. setoid_rewrite elem_of_cons. setoid_rewrite <-within_limit_priced.
  setoid_rewrite <-within_limit_priced in IH.
  destruct (fits_requirements r it) eqn:Ef; [destruct (within_limit limit it) as [it0|] eqn:Ew|];
    cbn [fmap option_fmap option_map]; rewrite ?elem_of_cons, IH; split.
  - intros [->|(i & i' & ?)]; [exists it, it0|exists i, i']; naive_solver.
  - intros (i & i' & [->|Hi] & Hf & Hp & ->); [left; by simplify_eq|right; eauto 10].
  - intros (i & i' & ?). exists i, i'. naive_solver.
  - intros (i & i' & [->|Hi] & Hf & Hp & ->); [by simplify_eq|eauto 10].
  - intros (i & i' & ?). exists i, i'. naive_solver.
  - intros (i & i' & [->|Hi] & Hf & Hp & ->); [congruence|eauto 10].
Qed.

Lemma priced_well_formed limit it it' : well_formed it → priced limit it it' → well_formed it'.
Proof.
  intros [Hc Hm Hp]. destruct limit as [maxPrice|]; [|by intros ->]. intros [-> _]. split; [done..|].
  cbn. apply Forall_forall. intros o [_ Ho]%list_elem_of_filter. rewrite Forall_forall in Hp.
  by apply Hp.
Qed.

(** A price limit that cannot be used: not a number, infinite or negative. *)
Definition unusable_limit (r : InstanceTypeRequirements) : Prop :=
  MaximumHourlyPrice r ≠ "" ∧
  ∀ f, ParseFloat (MaximumHourlyPrice r) = Some f → f = S754_nan ∨ Float.is_inf f = true ∨ SFltb f Float.zero = true.

Lemma price_limit_error r : is_ok (price_limit r) = false ↔ unusable_limit r.
Proof.
  unfold price_limit, unusable_limit, empty. destruct (String.eqb_spec (MaximumHourlyPrice r) ""); [naive_solver|].
  destruct (ParseFloat _) as [f|]; [|naive_solver].
  destruct f as [|[]| |[]]; cbn; naive_solver.
Qed.

(** C35. The types of a NodeClass with requirements are those of the catalog with
    the architecture, at least the cores and the GiB asked for, and an offering
    within the price limit, of which only such offerings are kept; they come in
    the order of their scores, best first.  The filter fails only when the
    limit is not a finite, nonnegative number. *)
Theorem filter_exact types r
    (Hint32 : MinimumMemory r < 2 ^ 31) (Htypes : Forall well_formed types) :
  match filterCatalog types r with
  | Ok l => ∃ limit, price_limit r = Ok limit ∧
      (∀ it', it' ∈ l ↔ ∃ it, it ∈ types ∧ suitable r it ∧ priced limit it it') ∧
      less_sorted cheaper l
  | Err _ => unusable_limit r
  end.
Proof.
  unfold filterCatalog. destruct (price_limit r) as [limit|e] eqn:El;
    [|by apply price_limit_error; rewrite El].
  exists limit. split; [done|]. rewrite Forall_forall in Htypes.
  assert (Hrank : ∀ e, e ∈ rankInstanceTypes (admit_all r limit types) ↔
    ∃ it it', it ∈ types ∧ suitable r it ∧ priced limit it it' ∧ e = extended it').
  { intros e. rewrite rank_perm, admit_all_elem. split; intros (it & it' & Hit & Hf & Hp & ->); exists it, it';
      (split_and!; [done| |done|done]); by apply (fits_suitable r it Hint32 (Htypes it Hit)). }
  split.
  - intros it'. rewrite list_elem_of_fmap. setoid_rewrite Hrank. naive_solver.
  - pose proof (rank_sorted (admit_all r limit types)) as Hs. unfold less_sorted in *.
    assert (Hext : ∀ e, e ∈ rankInstanceTypes (admit_all r limit types) → e = extended (ext_InstanceType e)).
    { intros e (it & it' & _ & _ & _ & ->)%Hrank. done. }
    assert (Hnum : Forall (λ e, Float.is_nan (calculateInstanceTypeScore e) = false) (admit_all r limit types)).
    { apply Forall_forall. intros e He. rewrite <-rank_perm in He. apply Hrank in He as (it & it' & Hit & _ & Hp & ->).
      destruct (priced_well_formed limit it it' (Htypes it Hit) Hp) as [Hc Hm Hn].
      apply score_number; [done|unfold representable, GoTime.max_duration; cbn; lia|by apply lowest_price_number]. }
    specialize (Hs Hnum). clear Hrank Hnum. induction Hs as [|e l Hs IH He]; cbn; [constructor|].
    constructor; [apply IH; intros; apply Hext; by right|]. apply Forall_forall.
    intros x (e' & -> & He')%list_elem_of_fmap. rewrite Forall_forall in He. unfold cheaper.
    rewrite <-(Hext e) by (by left). rewrite <-(Hext e') by (by right). by apply He.
Qed.

(** ** Offerings *)
Context (p : provider).
Local Abbreviation history := (history it_call).

(** An offering of a place, made from the answers of the run. *)
Definition offers (name : string) (priceLimited : bool) (tr : history) (place : string * string) (o : Offering) : Prop :=
  ∃ quote a, asked tr (GetPrice name (fst place)) quote ∧
    o = offering_of p (fst place) (snd place) (fst quote) a ∧
    (priceLimited = true → snd quote = None) ∧
    if i_unavailable p then asked tr (IsUnavailable (offering_key name (fst place) (snd place))) (negb a) else a = true.

Definition no_quote (name : string) (tr : history) (place : string * string) : Prop :=
  ∃ quote, asked tr (GetPrice name (fst place)) quote ∧ is_Some (snd quote).

Lemma asked_in_app {R} (tr tr' tr'' : history) (e : it_call R) r :
  asked tr' e r → asked (tr ++ tr' ++ tr'')%list e r.
Proof. unfold asked. rewrite !elem_of_app. auto. Qed.

Lemma offers_mono name pl tr tr' tr'' place o : offers name pl tr' place o → offers name pl (tr ++ tr' ++ tr'')%list place o.
Proof.
  intros (quote & a & Hq & Ho & Hp & Hu). exists quote, a. split_and!; [by apply asked_in_app|done|done|].
  destruct (i_unavailable p); [by apply asked_in_app|done].
Qed.

Lemma no_quote_mono name tr tr' tr'' place : no_quote name tr' place → no_quote name (tr ++ tr' ++ tr'')%list place.
Proof. intros (quote & Hq & Hs). exists quote. split; [by apply asked_in_app|done]. Qed.

Lemma available_runs key tr a : runs (available p key) tr a →
  if i_unavailable p then asked tr (IsUnavailable key) (negb a) else a = true.
Proof.
  unfold available. destruct (i_unavailable p); cbn; [|by intros [_ <-]].
  intros (u & tr' & -> & -> & <-). rewrite negb_involutive. by left.
Qed.

Lemma offerings_for_runs name pl places tr offerings : runs (offerings_for p name pl places) tr (Ok offerings) →
  ∃ kept, kept `sublist_of` places ∧ Forall2 (offers name pl tr) kept offerings ∧
    ∀ place, place ∈ places → place ∈ kept ∨ pl = true ∧ no_quote name tr place.
Proof.
  revert tr offerings. induction places as [|[zone capacityType] places IH]; intros tr offerings; cbn [offerings_for].
  { intros [_ [= <-]]. exists []. split_and!; [done|constructor|]. by intros ? ?%not_elem_of_nil. }
  destruct (i_pricing p); cbn [negb]; [|by intros [_ ?]].
  intros (quote & tr' & -> & Hr). destruct (pl && bool_decide (is_Some (snd quote))) eqn:E.
  - apply andb_true_iff in E as [-> E%bool_decide_eq_true]. destruct (IH _ _ Hr) as (kept & Hsub & Hall & Hrest).
    exists kept. split_and!; [by apply sublist_cons|..].
    + eapply Forall2_impl; [exact Hall|]. intros place o Ho.
      apply (offers_mono _ _ [Did (GetPrice name zone) quote] tr' [] place o) in Ho. by rewrite (right_id_L [] (++)%list) in Ho.
    + intros place [->|Hin]%elem_of_cons; [right; split; [done|]; exists quote; split; [by left|done]|].
      destruct (Hrest place Hin) as [|[? Hn]]; [by left|right]. split; [done|].
      apply (no_quote_mono _ [Did (GetPrice name zone) quote] tr' []) in Hn. by rewrite (right_id_L [] (++)%list) in Hn.
  - apply runs_bind in Hr as (tr1 & tr2 & a & -> & Ha%available_runs & Hr).
    apply runs_bind in Hr as (tr3 & tr4 & [offs|e] & -> & Hr & Hr2); [|by destruct Hr2].
    destruct Hr2 as [-> [= <-]]. rewrite (right_id_L [] (++)%list). destruct (IH _ _ Hr) as (kept & Hsub & Hall & Hrest).
    exists ((zone, capacityType) :: kept). split_and!; [by apply sublist_skip|..].
    + constructor.
      * exists quote, a. cbn [fst snd]. split_and!; [by left|done| |].
        { intros ->. cbn in E. apply bool_decide_eq_false in E. by apply eq_None_not_Some. }
        destruct (i_unavailable p); [|done]. by apply (asked_in_app [Did (GetPrice name zone) quote]).
      * eapply Forall2_impl; [exact Hall|]. intros place o Ho.
        apply (offers_mono _ _ (Did (GetPrice name zone) quote :: tr1) tr3 [] place o) in Ho.
        by rewrite (right_id_L [] (++)%list) in Ho.
    + intros place [->|Hin]%elem_of_cons; [by left; left|].
      destruct (Hrest place Hin) as [|[? Hn]]; [by left; right|right]. split; [done|].
      apply (no_quote_mono _ (Did (GetPrice name zone) quote :: tr1) tr3 []) in Hn. by rewrite (right_id_L [] (++)%list) in Hn.
Qed.

(** The zones come from the cache, stored less than an hour before, or from the
    API. *)
Definition zones_known (region : string) (tr : history) (zones : list string) : Prop :=
  (∃ time now, asked tr (ZonesCached region) (Some (zones, time)) ∧ asked tr Now now ∧
    GoTime.Sub now time < 60 * GoTime.Minute) ∨
  (∃ listed now, asked tr (ListRegionZones region) (Ok (Some (Some listed))) ∧ zones = zone_names listed ∧
    zones ≠ [] ∧ asked tr (ZonesStore region zones now) tt).

Lemma fetch_zones_runs region tr zones : runs (fetch_zones region) tr (Ok zones) → zones_known region tr zones.
Proof.
  unfold fetch_zones. cbn. intros ([[]|e] & tr1 & -> & Hr); try by destruct Hr.
  destruct Hr as ([[[listed|]|]|e] & tr2 & -> & Hr); try by destruct Hr.
  destruct (zone_names listed) as [|z zs] eqn:Ez; [by destruct Hr|].
  destruct Hr as (now & tr3 & -> & [] & tr4 & -> & -> & [= <-]). right. exists listed, now.
  split_and!; [right; by left|done|done|right; right; right; by left].
Qed.

Lemma zones_known_cons region ev tr zones : zones_known region tr zones → zones_known region (ev :: tr) zones.
Proof.
  intros [(t & now & H1' & H2' & Ht)|(l & now & H1' & Hz & Hn & H2')]; [left; exists t, now|right; exists l, now];
    split_and!; try done; by right.
Qed.

Lemma getZonesForRegion_runs region tr zones :
  runs (getZonesForRegion region) tr (Ok zones) → zones_known region tr zones.
Proof.
  unfold getZonesForRegion. intros ([[cached time]|] & tr1 & -> & Hr).
  - destruct Hr as (now & tr2 & -> & Hr). destruct (Z.ltb_spec (GoTime.Sub now time) (60 * GoTime.Minute)).
    + destruct Hr as [-> [= <-]]. left. exists time, now. split_and!; [by left|right; by left|done].
    + by do 2 apply zones_known_cons; apply fetch_zones_runs.
  - by apply zones_known_cons, fetch_zones_runs.
Qed.

Lemma zones_known_app region tr tr' zones : zones_known region tr zones → zones_known region (tr ++ tr')%list zones.
Proof.
  unfold zones_known, asked. setoid_rewrite elem_of_app.
  intros [(t & now & ?)|(l & now & ?)]; [left; exists t, now|right; exists l, now]; naive_solver.
Qed.

(** The type of a profile: its name and resources, and an offering for every
    zone and capacity type the profile supports. *)
Record converted (profile : InstanceProfile) (nodeClass : option IBMNodeClass) (tr : history) (it : InstanceType) : Prop := {
  cv_name : pr_Name profile = Some (it_Name it) ∧ it_Name it ≠ "";
  cv_capacity : ∃ cpuCount memoryGB, VcpuCount profile = Some (ProfileValue (Some cpuCount)) ∧
    pr_Memory profile = Some (ProfileValue (Some memoryGB)) ∧
    it_Capacity it = type_capacity cpuCount memoryGB (profile_gpus profile) ∧
    it_Allocatable it = AllocatableOf (it_Capacity it) (calculateOverhead nodeClass);
  cv_requirements : it_Requirements it = type_requirements (it_Name it) (profile_arch profile);
  cv_offerings : ∃ region zones kept, i_client p = Some region ∧ zones_known region tr zones ∧
    let places := list_prod zones (GetSupportedCapacityTypes (AvailabilityClass profile)) in
    kept `sublist_of` places ∧ Forall2 (offers (it_Name it) (price_limited nodeClass) tr) kept (Offerings it) ∧
    ∀ place, place ∈ places → place ∈ kept ∨ price_limited nodeClass = true ∧ no_quote (it_Name it) tr place;
}.

(** The instance type made of a profile has the profile's name, cores, memory
    and architecture, and one offering for each zone of the region and each
    capacity type of the profile, in order, with the price and the availability
    the answers of this run gave; only under a price limit a place without a
    quote is left out.  The zones are the region's, at most an hour old. *)
Theorem offerings_exact profile nodeClass tr it
    (Hrun : runs (convertVPCProfileToInstanceType p profile nodeClass) tr (Ok it)) :
  converted profile nodeClass tr it.
Proof.
  revert Hrun. unfold convertVPCProfileToInstanceType. destruct (pr_Name profile) as [name|] eqn:En; [|by intros [_ ?]].
  unfold empty. destruct (String.eqb_spec name "") as [|Hne]; [by intros [_ ?]|].
  destruct (VcpuCount profile) as [[[cpuCount|]|]|] eqn:Ec; try by intros [_ ?]. cbn [required_value].
  destruct (pr_Memory profile) as [[[memoryGB|]|]|] eqn:Em; try by intros [_ ?]. cbn [required_value].
  destruct (i_client p) as [region|] eqn:Ep; [|by intros [_ ?]].
  intros (tr1 & tr2 & [zones|[e|]] & -> & Hz & Hr)%runs_bind; try by destruct Hr.
  destruct zones as [|z zones]; [by destruct Hr|]. apply getZonesForRegion_runs in Hz.
  apply runs_bind in Hr as (tr3 & tr4 & [offerings|e] & -> & Ho & Hr); [|by destruct Hr].
  destruct Hr as [-> [= <-]]. apply offerings_for_runs in Ho as (kept & Hsub & Hall & Hrest).
  rewrite (right_id_L [] (++)%list). split; cbn [it_Name it_Capacity it_Allocatable it_Requirements Offerings];
    [done|by eauto 10|done|].
  exists region, (z :: zones), kept. split_and!; [done|by apply zones_known_app|done| |].
  - eapply Forall2_impl; [exact Hall|]. intros place o Hof. apply (offers_mono _ _ tr1 tr3 [] place o) in Hof.
    by rewrite (right_id_L [] (++)%list) in Hof.
  - intros place Hin. destruct (Hrest place Hin) as [|[? Hn]]; [by left|right]. split; [done|].
    apply (no_quote_mono _ tr1 tr3 []) in Hn. by rewrite (right_id_L [] (++)%list) in Hn.
Qed.

(** ** Retries *)
Context `{!ExponentialBackoff it_call}.

Local Abbreviation listing :=
  (result (GoErrors.error * option DetailedResponse) (option (option (list InstanceProfile)))).

(** The answers to the listings of a run. *)
Definition listing_of (ev : event it_call) : option listing :=
  match ev with
  | @Did _ R e r =>
      match e in it_call T return T → option listing with
      | ListInstanceProfiles => λ r, Some r
      | _ => λ _, None
      end r
  end.
Definition listings (tr : history) : list listing := omap listing_of tr.

Definition no_listing (R : Type) (e : it_call R) : bool :=
  match e with ListInstanceProfiles => false | _ => true end.

Lemma no_listings tr : Forall (event_is no_listing) tr → listings tr = [].
Proof.
  induction 1 as [|[R e r] tr Hev _ IH]; [done|]. unfold listings in *. cbn. rewrite IH. by destruct e.
Qed.

Lemma listings_app tr tr' : listings (tr ++ tr')%list = (listings tr ++ listings tr')%list.
Proof. apply omap_app. Qed.

Lemma only_getZones region : only no_listing (getZonesForRegion region).
Proof.
  assert (Hf : only no_listing (fetch_zones region)).
  { cbn. split; [done|]. intros [[]|e]; cbn; try done. split; [done|]. intros [[[l|]|]|e]; cbn; try done.
    destruct (zone_names l); cbn; [done|]. done. }
  cbn. split; [done|]. intros [[zones t]|]; [|done]. split; [done|]. intros now. by destruct (_ <? _).
Qed.

Lemma only_offerings name pl places : only no_listing (offerings_for p name pl places).
Proof.
  induction places as [|[z c] places IH]; cbn [offerings_for]; [done|]. destruct (i_pricing p); [|done].
  cbn. split; [done|]. intros quote. destruct (_ && _); [done|]. apply only_bind.
  - unfold available. by destruct (i_unavailable p).
  - intros a. by apply only_try.
Qed.

Lemma only_convert profile nodeClass : only no_listing (convertVPCProfileToInstanceType p profile nodeClass).
Proof.
  unfold convertVPCProfileToInstanceType. destruct (pr_Name profile) as [name|]; [|done].
  destruct (empty name); [done|]. destruct (required_value _ _ (VcpuCount profile)); [|done].
  destruct (required_value _ _ (pr_Memory profile)); [|done]. destruct (i_client p); [|done].
  apply only_bind; [apply only_getZones|]. intros [[|z zones]|[e|]]; try done.
  apply only_try; [apply only_offerings|done].
Qed.

Lemma only_profiles profiles nodeClass : only no_listing (convert_profiles p profiles nodeClass).
Proof.
  induction profiles as [|profile profiles IH]; [done|]. cbn [convert_profiles].
  apply only_bind; [apply only_convert|]. intros [it|[e|]]; try done. destruct (empty _); [done|]. by apply only_try.
Qed.

(** An error that is worth another attempt. *)
Definition worth_retrying (l : listing) : Prop :=
  ∃ e response, l = Err (e, response) ∧ isRetryableError e (status_of response) = true.

(** The attempts before the last listing all failed with such errors. *)
Definition retried (tr : history) (n : nat) (last : list listing) : Prop :=
  ∃ failed, listings tr = (failed ++ last)%list ∧ Forall worth_retrying failed ∧ (length failed + length last ≤ n)%nat.

(** A listing that ends the attempts: a good answer, or an error that is not
    worth another. *)
Definition conclusive (l : listing) : Prop := ¬ worth_retrying l.

(** A type made from one of the profiles in a part of the run. *)
Definition made_from (profiles : list InstanceProfile) (nodeClass : option IBMNodeClass) (tr : history)
    (it : InstanceType) : Prop :=
  ∃ profile tr1 tr2 tr3, profile ∈ profiles ∧ tr = (tr1 ++ tr2 ++ tr3)%list ∧ converted profile nodeClass tr2 it.

Lemma made_from_app profiles nodeClass tr tr' tr'' it :
  made_from profiles nodeClass tr' it → made_from profiles nodeClass (tr ++ tr' ++ tr'')%list it.
Proof.
  intros (profile & tr1 & tr2 & tr3 & Hin & -> & Hc). exists profile, (tr ++ tr1)%list, tr2, (tr3 ++ tr'')%list.
  split_and!; [done| |done]. by rewrite <-!(assoc_L (++)%list).
Qed.

Lemma made_from_cons profiles profile nodeClass tr it :
  made_from profiles nodeClass tr it → made_from (profile :: profiles) nodeClass tr it.
Proof. intros (pr & tr1 & tr2 & tr3 & Hin & Hc). exists pr, tr1, tr2, tr3. split; [by right|done]. Qed.

Lemma offerings_panic name pl places tr : runs (offerings_for p name pl places) tr (Err Panicked) → i_pricing p = false.
Proof.
  revert tr. induction places as [|[z c] places IH]; intros tr; cbn [offerings_for]; [by intros [_ ?]|].
  destruct (i_pricing p); [|done]. cbn [negb]. intros (quote & tr' & -> & Hr). destruct (_ && _); [by eapply IH|].
  apply runs_bind in Hr as (? & ? & a & -> & _ & Hr). apply runs_bind in Hr as (tr3 & ? & [o|[e|]] & -> & Hr & Hr2);
    try by destruct Hr2. by eapply IH.
Qed.

Lemma convert_panic profile nodeClass tr :
  runs (convertVPCProfileToInstanceType p profile nodeClass) tr (Err Panicked) → i_pricing p = false.
Proof.
  unfold convertVPCProfileToInstanceType. destruct (pr_Name profile) as [name|]; [|by intros [_ ?]].
  destruct (empty name); [by intros [_ ?]|]. destruct (required_value _ _ (VcpuCount profile)); [|by intros [_ ?]].
  destruct (required_value _ _ (pr_Memory profile)); [|by intros [_ ?]]. destruct (i_client p) as [region|]; [|by intros [_ ?]].
  intros (tr1 & tr2 & zones & -> & Hz & Hr)%runs_bind. destruct zones as [[|z zones]|[e|]]; try by destruct Hr.
  - apply runs_bind in Hr as (tr3 & tr4 & [o|[e|]] & -> & Ho & Hr); try by destruct Hr. by eapply offerings_panic.
  - exfalso. revert Hz. unfold getZonesForRegion, fetch_zones. cbn.
    intros ([[c t]|] & tr' & -> & Hz); [destruct Hz as (now & tr'' & -> & Hz); destruct (_ <? _); [by destruct Hz|]|];
    destruct Hz as ([[]|e] & ? & -> & Hz); try (by destruct Hz);
    destruct Hz as ([[[l|]|]|e] & ? & -> & Hz); try (by destruct Hz);
    destruct (zone_names l); (by destruct Hz) || (by destruct Hz as (? & ? & -> & ? & ? & -> & _ & ?)).
Qed.

Lemma convert_profiles_runs profiles nodeClass tr r : runs (convert_profiles p profiles nodeClass) tr r →
  match r with
  | Ok types => Forall (made_from profiles nodeClass tr) types
  | Err (Failed _) => False
  | Err Panicked => i_pricing p = false
  end.
Proof.
  revert tr r. induction profiles as [|profile profiles IH]; intros tr r; cbn [convert_profiles].
  { intros [_ <-]. constructor. }
  intros (tr1 & tr2 & c & -> & Hc & Hr)%runs_bind.
  assert (Hskip : runs (convert_profiles p profiles nodeClass) tr2 r → match r with
    | Ok types => Forall (made_from (profile :: profiles) nodeClass (tr1 ++ tr2)%list) types
    | Err (Failed _) => False | Err Panicked => i_pricing p = false end).
  { intros Hr'%IH. destruct r as [types|[]]; [|done..]. eapply Forall_impl; [exact Hr'|].
    intros it Hit. apply made_from_cons. apply (made_from_app _ _ tr1 tr2 []) in Hit. by rewrite (right_id_L [] (++)%list) in Hit. }
  destruct c as [it|[e|]]; [|by apply Hskip|destruct Hr as [-> <-]; by eapply convert_panic].
  destruct (empty (it_Name it)); [by apply Hskip|].
  apply runs_bind in Hr as (tr3 & tr4 & [types|[e|]] & -> & Hr%IH & Hr2); destruct Hr2 as [-> <-]; [|done..].
  rewrite (right_id_L [] (++)%list). constructor.
  - exists profile, [], tr1, tr3. split_and!; [by left|done|]. by apply offerings_exact.
  - eapply Forall_impl; [exact Hr|]. intros it' Hit. apply made_from_cons.
    apply (made_from_app _ _ tr1 tr3 []) in Hit. by rewrite (right_id_L [] (++)%list) in Hit.
Qed.

(** One attempt makes at most one listing. *)
Lemma list_attempt_runs nodeClass s tr s' a : runs (list_attempt p nodeClass s) tr (s', a) →
  match a with
  | Again => fst s' = fst s ∧ (listings tr = [] ∨ ∃ l, listings tr = [l] ∧ worth_retrying l)
  | Refused _ => ∃ l, listings tr = [l] ∧ conclusive l
  | Done => ∃ profiles, listings tr = [Ok (Some profiles)] ∧ Forall (made_from (default [] profiles) nodeClass tr) (fst s')
  | Crashed => listings tr = [Ok None] ∨ (∃ l, listings tr = [l]) ∧ i_pricing p = false
  end.
Proof.
  unfold list_attempt. cbn. intros ([e|] & tr1 & -> & Hr).
  { destruct Hr as [-> [= <- <-]]. split; [done|by left]. }
  destruct Hr as ([[profiles|]|[e response]] & tr2 & -> & Hr); cycle 1.
  { destruct Hr as [-> [= <- <-]]. by left. }
  { destruct Hr as [-> [= <- <-]]. destruct (isRetryableError e (status_of response)) eqn:E.
    - split; [done|]. right. eexists. split; [done|]. by exists e, response.
    - eexists. split; [done|]. intros (e' & response' & [= <- <-] & E'). congruence. }
  apply runs_bind in Hr as (tr3 & tr4 & types & -> & Hc & Hr).
  assert (Hl : listings tr3 = []) by (eapply no_listings, runs_only; [apply only_profiles|exact Hc]).
  apply convert_profiles_runs in Hc.
  assert (Hls : listings (Did ManagerGetVPCClient None :: Did ListInstanceProfiles (Ok (Some profiles)) :: tr3) = [Ok (Some profiles)])
    by (unfold listings in *; cbn; by rewrite Hl).
  destruct types as [types|[e|]]; [|done|]; destruct Hr as [-> [= <- <-]]; rewrite (right_id_L [] (++)%list), Hls.
  - exists profiles. split; [done|]. eapply Forall_impl; [exact Hc|]. intros it Hit.
    apply (made_from_app _ _ [Did ManagerGetVPCClient None; Did ListInstanceProfiles (Ok (Some profiles))] tr3 []) in Hit.
    by rewrite (right_id_L [] (++)%list) in Hit.
  - right. split; [by eexists|done].
Qed.

(** What the attempts of a listing leave. *)
Definition listing_outcome (nodeClass : option IBMNodeClass) (tr : history) (s : list InstanceType * err)
    (r : option failure) : Prop :=
  match r with
  | None => ∃ profiles, retried tr 10 [Ok (Some profiles)] ∧
      Forall (made_from (default [] profiles) nodeClass tr) (fst s)
  | Some Panicked => retried tr 10 [Ok None] ∨ i_pricing p = false
  | Some (Failed _) => ∃ last, retried tr 10 last ∧ Forall conclusive last
  end.

Lemma list_attempts nodeClass tr s r :
  attempts (list_attempt p nodeClass) 10 ([], None) tr s r → listing_outcome nodeClass tr s r.
Proof.
  apply (attempts_rule _ (λ n tr s, (n ≤ 10)%nat ∧ retried tr n []) (listing_outcome nodeClass)).
  - intros n tr1 s1 tr2 s2 a Hn [_ (failed & Hl & Hf & Hlen)] Hr%list_attempt_runs.
    rewrite (right_id_L [] (++)%list) in Hl. cbn in Hlen.
    assert (Hadd : ∀ l, listings tr2 = [l] → retried (tr1 ++ tr2)%list 10 [l]).
    { intros l Hl2. exists failed. rewrite listings_app, Hl, Hl2. split_and!; [done|done|cbn; lia]. }
    destruct a; cbn [listing_outcome].
    + split; [lia|]. destruct Hr as [_ [Hl2|(l & Hl2 & Hw)]].
      * exists failed. rewrite listings_app, Hl, Hl2. split_and!; [done|done|cbn; lia].
      * exists (failed ++ [l])%list. rewrite listings_app, Hl, Hl2, (right_id_L [] (++)%list).
        split_and!; [done|apply Forall_app; split; [done|by apply Forall_singleton]|rewrite List.length_app; cbn; lia].
    + destruct Hr as (profiles & Hl2 & Hall). exists profiles. split; [by apply Hadd|].
      eapply Forall_impl; [exact Hall|]. intros it Hit. apply (made_from_app _ _ tr1 tr2 []) in Hit.
      by rewrite (right_id_L [] (++)%list) in Hit.
    + destruct Hr as (l & Hl2 & Hc). exists [l]. split; [by apply Hadd|by repeat constructor].
    + destruct Hr as [Hl2|[_ Hp]]; [left; by apply Hadd|by right].
  - intros n tr1 s1 e [Hn (failed & Hl & Hf & Hlen)]. exists []. split; [|done].
    exists failed. split_and!; [done|done|lia].
  - split; [lia|]. exists []. by split_and!; [|constructor|cbn; lia].
Qed.

(** A listing of the instance types asks VPC at most ten times, again only
    after an error worth a retry.  The types it returns were each made from a
    profile of the last answer, and are the ones the NodeClass selects among
    all that were made; a failure means that the attempts were given up or
    that the last answer was an error not worth a retry, or made no types; a panic
    only follows a missing answer or a missing pricing provider. *)
Theorem listing_retries nodeClass tr r (Hrun : runs (List_ p nodeClass) tr r) :
  match r with
  | Ok types => ∃ profiles catalog, retried tr 10 [Ok (Some profiles)] ∧
      Forall (made_from (default [] profiles) nodeClass tr) catalog ∧
      catalog ≠ [] ∧ types_of_class catalog nodeClass = Ok types
  | Err (Failed _) => ∃ last, retried tr 10 last ∧ Forall conclusive last
  | Err Panicked => retried tr 10 [Ok None] ∨ i_pricing p = false
  end.
Proof.
  assert (Hgood : ∀ profiles, conclusive (Ok (Some profiles))) by by intros profiles (? & ? & ? & _).
  unfold List_ in Hrun. destruct (i_client p) as [region|] eqn:Ep.
  2: { destruct Hrun as [-> <-]. exists []. split; [|done]. exists []. split_and!; [done|constructor|cbn; lia]. }
  apply runs_bind in Hrun as (tr1 & tr2 & answer & -> & Hl & Hr).
  apply runs_bind in Hl as (tr3 & tr4 & [[types lastErr] retryErr] & -> & Hb & Hl).
  apply backoff_attempts, list_attempts in Hb.
  assert (Htr2 : tr2 = []).
  { destruct answer as [[|it l]|[e|]]; [by destruct Hr| |by destruct Hr|by destruct Hr].
    destruct (types_of_class _ _) in Hr; by destruct Hr. }
  assert (Htr4 : tr4 = []).
  { destruct retryErr as [[e|]|]; [destruct lastErr|..]; try (by destruct Hl). destruct types; by destruct Hl. }
  subst tr2 tr4. rewrite !(right_id_L [] (++)%list). destruct retryErr as [[e|]|]; cbn [listing_outcome] in Hb.
  - assert (∃ e', answer = Err (Failed e')) as [e' ->]
      by (destruct lastErr; destruct Hl as [_ <-]; by eexists).
    by destruct Hr as [_ <-].
  - destruct Hl as [_ <-]. by destruct Hr as [_ <-].
  - destruct Hb as (profiles & Hret & Hall). cbn [fst] in Hall.
    assert (Herr : ∃ last, retried tr3 10 last ∧ Forall conclusive last)
      by (exists [Ok (Some profiles)]; split; [done|by apply Forall_singleton]).
    destruct types as [|it types]; destruct Hl as [_ <-]; [by destruct Hr as [_ <-]|].
    destruct (types_of_class (it :: types) nodeClass) as [selected|e] eqn:Es; destruct Hr as [_ <-]; [|done].
    by exists profiles, (it :: types).
Qed.
End spec.

(** ** Examples *)
#[local] Instance catalog_karpenter : Karpenter :=
  {| Fits := λ _ _, true; Compatible := λ _ _, None; IsCompatible := λ _ _, true;
     WellKnownLabel := λ _, false;
     ParseFloat := λ s, if String.eqb s "0.5" then Some (Float.div (Float.of_int 1) (Float.of_int 2)) else None;
     ReqsCompatible := λ _ _, None; OfferingCompatible := λ _ _, true; Allows := λ _ _ _, true;
     HashStructure := λ _, Ok 0 |}.

#[local, refine] Instance milli_quantities : Quantities :=
  {| QuantityValue := λ q, (q + 999) / 1000; ScaledGiga := λ q, (q + (10 ^ 12 - 1)) / 10 ^ 12;
     ParseQuantity := λ _, None; AllocatableOf := λ capacity _, capacity |}.
Proof.
  - intros q Hq. pose proof (Z.div_mod (q + 999) 1000 ltac:(lia)). pose proof (Z.mod_pos_bound (q + 999) 1000). lia.
  - intros q Hq. pose proof (Z.div_mod (q + (10 ^ 12 - 1)) (10 ^ 12) ltac:(lia)).
    pose proof (Z.mod_pos_bound (q + (10 ^ 12 - 1)) (10 ^ 12)). lia.
Defined.

Definition example_region : provider :=
  {| i_client := Some "us-south"; i_pricing := true; i_unavailable := true; i_percent := 60 |}.

Definition example_profile (name : string) (cores memoryGB : Z) (class : InstanceProfileAvailabilityClass) : InstanceProfile :=
  {| pr_Name := Some name; VcpuCount := Some (ProfileValue (Some cores));
     pr_Memory := Some (ProfileValue (Some memoryGB)); VcpuArchitecture := Some (Some "amd64");
     GpuCount := None; AvailabilityClass := Some class |}.

Definition example_profiles : list InstanceProfile :=
  [example_profile "mx2-8x64" 8 64 (AvailabilityClassFixed (Some "standard"));
   example_profile "" 2 4 AvailabilityClassOther;
   example_profile "bx2-2x8" 2 8 (AvailabilityClassEnum ["standard"; "spot"])].

(** The first listing is overloaded; the spot capacity of one zone is out. *)
Definition catalog_env (R : Type) (e : it_call R) (listings : nat) : R * nat :=
  match e in it_call T return T * nat with
  | ManagerGetVPCClient => (None, listings)
  | ClientGetVPCClient => (Ok true, listings)
  | ListInstanceProfiles =>
      ((if Nat.eqb listings 0
        then Err (GoErrors.New "overloaded", Some {| StatusCode := 503; Headers := None; Result := None |})
        else Ok (Some (Some example_profiles))), S listings)
  | ListRegionZones _ => (Ok (Some (Some [Some "us-south-1"; None; Some "us-south-2"])), listings)
  | ZonesCached _ => (None, listings)
  | ZonesStore _ _ _ => (tt, listings)
  | Now => (0, listings)
  | GetPrice name _ =>
      ((Float.div (Float.of_int (if String.eqb name "bx2-2x8" then 1 else 6)) (Float.of_int 10), None), listings)
  | IsUnavailable key => (String.eqb key "bx2-2x8:us-south-2:spot", listings)
  end.

Definition example_requirements : InstanceTypeRequirements :=
  {| req_Architecture := "amd64"; MinimumCPU := 2; MinimumMemory := 8; MaximumHourlyPrice := "0.5" |}.

Definition example_listing := interp catalog_env (List_ example_region None) 0%nat.
Definition example_types : list InstanceType :=
  match snd (fst example_listing) with Ok types => types | Err _ => [] end.

(** Name, number of offerings and number of available offerings. *)
Definition summary (types : list InstanceType) : list (string * nat * nat) :=
  map (λ it, (it_Name it, length (Offerings it), length (List.filter Available (Offerings it)))) types.

Lemma listing_retries_witness :
  summary example_types = [("mx2-8x64", 2, 2); ("bx2-2x8", 4, 3)]%nat ∧
  ∃ profiles catalog, retried (fst (fst example_listing)) 10 [Ok (Some profiles)] ∧
    Forall (made_from example_region (default [] profiles) None (fst (fst example_listing))) catalog ∧
    catalog ≠ [] ∧ Ok catalog = @Ok GoErrors.error _ example_types.
Proof.
  split; [vm_compute; reflexivity|].
  pose proof (listing_retries example_region None _ _ (interp_runs catalog_env (List_ example_region None) 0%nat)) as Hres.
  assert (Hok : is_ok (snd (fst example_listing)) = true) by (vm_compute; reflexivity).
  unfold example_types. fold example_listing in Hres. destruct (snd (fst example_listing)) as [types|[e|]] eqn:E.
  - exact Hres.
  - discriminate Hok.
  - discriminate Hok.
Defined.

Lemma example_types_well_formed : Forall well_formed example_types.
Proof.
  assert (Hc : forallb check_well_formed example_types = true) by (vm_compute; reflexivity).
  rewrite forallb_forall in Hc. apply Forall_forall. intros it Hit. by apply check_well_formed_true, Hc, list_elem_of_In.
Qed.

Lemma filter_exact_witness :
  match filterCatalog example_types example_requirements with
  | Ok l => summary l = [("bx2-2x8", 4, 3)]%nat ∧ less_sorted cheaper l
  | Err _ => False
  end.
Proof.
  pose proof (filter_exact example_types example_requirements ltac:(reflexivity) example_types_well_formed) as Hf.
  assert (Hsum : match filterCatalog example_types example_requirements with
    | Ok l => summary l = [("bx2-2x8", 4, 3)]%nat | Err _ => False end) by (vm_compute; reflexivity).
  destruct (filterCatalog example_types example_requirements) as [l|e] eqn:E.
  - destruct Hf as (_ & _ & _ & Hs). split; [|exact Hs]. exact Hsum.
  - exact Hsum.
Defined.

Definition example_conversion :=
  interp catalog_env (convertVPCProfileToInstanceType example_region (example_profile "bx2-2x8" 2 8
    (AvailabilityClassEnum ["standard"; "spot"])) None) 0%nat.

Lemma offerings_exact_witness :
  match snd (fst example_conversion) with
  | Ok it => summary [it] = [("bx2-2x8", 4, 3)]%nat ∧
      converted example_region (example_profile "bx2-2x8" 2 8 (AvailabilityClassEnum ["standard"; "spot"])) None
        (fst (fst example_conversion)) it
  | Err _ => False
  end.
Proof.
  pose proof (interp_runs catalog_env (convertVPCProfileToInstanceType example_region (example_profile "bx2-2x8" 2 8
    (AvailabilityClassEnum ["standard"; "spot"])) None) 0%nat) as Hr.
  fold example_conversion in Hr.
  assert (Hsum : match snd (fst example_conversion) with
    | Ok it => summary [it] = [("bx2-2x8", 4, 3)]%nat | Err _ => False end) by (vm_compute; reflexivity).
  destruct (snd (fst example_conversion)) as [it|e] eqn:E.
  - split; [exact Hsum|]. apply offerings_exact. exact Hr.
  - exact Hsum.
Defined.
