(* ===== verification/Batcher.v ===== *)
(** * Batcher: one API call for the requests of a moment

    [pkg/batcher/batcher.go] as a step relation.  The goroutines are the callers
    of [Add], the runner ([run] and [waitForIdle]) and the workers ([runCalls]);
    they share the map of requests, under its mutex, the trigger channel with
    room for one, and a channel with room for one result per request.  A step is
    what one goroutine does up to its next access to something shared; a timer of
    [waitForIdle] may fire at any time.  Metrics are left out. *)
From stdpp Require Import prelude list gmap strings.
From S2P Require Import Prelude GoLib Errors Kube.

Local Open Scope string_scope.

Section batcher.
Context {T U : Type}.

Record Result := {
  Output : option U;
  Err_ : err;
}.

Record Options := {
  MaxItems : Z;
  MaxRequestWorkers : Z;
  RequestHasher : T → result GoErrors.error Z;
}.

(** A request; its channel is the identity of the call of [Add]. *)
Record request := {
  hash : Z;
  input : T;
  requestor : nat;
}.

(** Where a call of [Add] is: before the send to the trigger, at the receive of
    its result, or returned. *)
Inductive caller := Triggering | Waiting | Returned (r : Result).

(** Where [run] is: at its select, in [waitForIdle] with the count of triggers,
    before the lock, in the loop over the batches, waiting for the workers after
    the context ended, returned. *)
Inductive runner :=
  | Selecting
  | InWindow (count : Z)
  | Swapping
  | Dispatching (batches : list (list request))
  | Draining
  | Stopped.

(** Where a worker is: in the call of the executor, or sending its results; with
    [over], an output is left when all its requests have theirs. *)
Inductive worker :=
  | Calling (batch : list request)
  | Delivering (results : list (nat * Result)) (over : bool).

Record state := {
  requests : gmap Z (list request);
  trigger : bool;
  callers : gmap nat caller;
  requestors : gmap nat Result;
  run_at : runner;
  workers : list worker;
  ctx_done : bool;
  crashed : bool;
}.

Definition NewBatcher : state :=
  {| requests := ∅; trigger := false; callers := ∅; requestors := ∅; run_at := Selecting;
     workers := []; ctx_done := false; crashed := false |}.

Definition set_requests (m : gmap Z (list request)) (s : state) : state :=
  {| requests := m; trigger := trigger s; callers := callers s; requestors := requestors s;
     run_at := run_at s; workers := workers s; ctx_done := ctx_done s; crashed := crashed s |}.
Definition set_trigger (b : bool) (s : state) : state :=
  {| requests := requests s; trigger := b; callers := callers s; requestors := requestors s;
     run_at := run_at s; workers := workers s; ctx_done := ctx_done s; crashed := crashed s |}.
Definition set_caller (id : nat) (c : caller) (s : state) : state :=
  {| requests := requests s; trigger := trigger s; callers := <[id := c]> (callers s);
     requestors := requestors s; run_at := run_at s; workers := workers s; ctx_done := ctx_done s;
     crashed := crashed s |}.
Definition set_requestors (m : gmap nat Result) (s : state) : state :=
  {| requests := requests s; trigger := trigger s; callers := callers s; requestors := m;
     run_at := run_at s; workers := workers s; ctx_done := ctx_done s; crashed := crashed s |}.
Definition set_runner (r : runner) (s : state) : state :=
  {| requests := requests s; trigger := trigger s; callers := callers s; requestors := requestors s;
     run_at := r; workers := workers s; ctx_done := ctx_done s; crashed := crashed s |}.
Definition set_workers (l : list worker) (s : state) : state :=
  {| requests := requests s; trigger := trigger s; callers := callers s; requestors := requestors s;
     run_at := run_at s; workers := l; ctx_done := ctx_done s; crashed := crashed s |}.
Definition cancel (s : state) : state :=
  {| requests := requests s; trigger := trigger s; callers := callers s; requestors := requestors s;
     run_at := run_at s; workers := workers s; ctx_done := true; crashed := crashed s |}.
Definition crash (s : state) : state :=
  {| requests := requests s; trigger := trigger s; callers := callers s; requestors := requestors s;
     run_at := run_at s; workers := workers s; ctx_done := ctx_done s; crashed := true |}.

(** The requests of a map, by hash, are put in order of arrival. *)
Definition register (r : request) (m : gmap Z (list request)) : gmap Z (list request) :=
  <[hash r := (default [] (m !! hash r) ++ [r])%list]> m.

Definition hashing_failed (e : GoErrors.error) : Result :=
  {| Output := None; Err_ := Some (wrapped_ "hashing request" e) |}.

Definition fewer_results (got expected : nat) : Result :=
  {| Output := None;
     Err_ := Some (GoErrors.New ("batch executor returned fewer results than requests: got "
       ++ Strconv.Itoa (Z.of_nat got) ++ ", expected " ++ Strconv.Itoa (Z.of_nat expected))) |}.

(** [runCalls]: the sends that follow the call, and whether an output is left over,
    for which the index of the requests is out of range. *)
Definition deliveries (batch : list request) (outputs : list Result) : list (nat * Result) :=
  zip (map requestor batch)
    (outputs ++ replicate (length batch - length outputs) (fewer_results (length outputs) (length batch)))%list.
Definition overfull (batch : list request) (outputs : list Result) : bool := Nat.ltb (length batch) (length outputs).

Context (options : Options).

(** The limit of the errgroup; a negative one is none. *)
Definition worker_limit : Z := if (MaxRequestWorkers options =? 0)%Z then 100%Z else MaxRequestWorkers options.
Definition can_start (s : state) : bool :=
  ((worker_limit <? 0) || (Z.of_nat (length (workers s)) <? worker_limit))%Z.

(** The condition of the loop of [waitForIdle]. *)
Definition window_open (count : Z) : bool := ((MaxItems options =? 0) || (count <? MaxItems options))%Z.

(** What a batch executor may return for its inputs. *)
Context (executor : list T → list Result → Prop).

Inductive label :=
  | Add (id : nat) (x : T)
  | Trigger (id : nat)
  | Receive (id : nat) (r : Result)
  | Open
  | Count
  | Close
  | Swap
  | Dispatch
  | Loop
  | Execute (batch : list request) (outputs : list Result)
  | Deliver
  | Panic
  | Finish
  | Cancel
  | Stop
  | Return.

Inductive moves : state → label → state → Prop :=
  | add_fails s id x e : callers s !! id = None → RequestHasher options x = Err e →
      moves s (Add id x) (set_caller id (Returned (hashing_failed e)) s)
  | add s id x h : callers s !! id = None → RequestHasher options x = Ok h →
      moves s (Add id x)
        (set_caller id Triggering (set_requests (register {| hash := h; input := x; requestor := id |} (requests s)) s))
  | send_trigger s id : callers s !! id = Some Triggering → trigger s = false →
      moves s (Trigger id) (set_caller id Waiting (set_trigger true s))
  | receive s id r : callers s !! id = Some Waiting → requestors s !! id = Some r →
      moves s (Receive id r) (set_caller id (Returned r) (set_requestors (delete id (requestors s)) s))
  | open_window s : run_at s = Selecting → trigger s = true →
      moves s Open (set_runner (InWindow 1) (set_trigger false s))
  | count_trigger s n : run_at s = InWindow n → window_open n = true → trigger s = true →
      moves s Count (set_runner (InWindow (n + 1)) (set_trigger false s))
  | window_ends s n : run_at s = InWindow n → moves s Close (set_runner Swapping s)
  | swap s batches : run_at s = Swapping → batches ≡ₚ (map_to_list (requests s)).*2 →
      moves s Swap (set_runner (Dispatching batches) (set_requests ∅ s))
  | dispatch s batch batches : run_at s = Dispatching (batch :: batches) → can_start s = true →
      moves s Dispatch (set_runner (Dispatching batches) (set_workers (workers s ++ [Calling batch])%list s))
  | loop s : run_at s = Dispatching [] → moves s Loop (set_runner Selecting s)
  | execute s l1 batch l2 outputs : workers s = (l1 ++ Calling batch :: l2)%list →
      executor (map input batch) outputs →
      moves s (Execute batch outputs)
        (set_workers (l1 ++ Delivering (deliveries batch outputs) (overfull batch outputs) :: l2)%list s)
  | deliver s l1 id r results over l2 : workers s = (l1 ++ Delivering ((id, r) :: results) over :: l2)%list →
      requestors s !! id = None →
      moves s Deliver (set_requestors (<[id := r]> (requestors s)) (set_workers (l1 ++ Delivering results over :: l2)%list s))
  | panics s l1 l2 : workers s = (l1 ++ Delivering [] true :: l2)%list → moves s Panic (crash s)
  | finish s l1 l2 : workers s = (l1 ++ Delivering [] false :: l2)%list → moves s Finish (set_workers (l1 ++ l2)%list s)
  | context_ends s : moves s Cancel (cancel s)
  | stop s : run_at s = Selecting → ctx_done s = true → moves s Stop (set_runner Draining s)
  | return_ s : run_at s = Draining → workers s = [] → moves s Return (set_runner Stopped s).

(** A panic ends the process. *)
Inductive step : state → label → state → Prop :=
  | step_moves s l s' : crashed s = false → moves s l s' → step s l s'.
End batcher.
