(* ===== verification/BatcherSpec.v ===== *)
(** * BatcherSpec: what the batcher guarantees *)
From stdpp Require Import prelude list list_tactics strings gmap.
From S2P Require Import Prelude GoLib Errors Kube Batcher.

Section spec.
Context {T U : Type} (options : @Options T) (executor : list T → list (@Result U) → Prop).
Local Abbreviation state := (@state T U).
Local Abbreviation label := (@label T U).
Local Abbreviation step := (step options executor).
Local Abbreviation moves := (moves options executor).
Implicit Types (s : state) (ls : list label).
Local Open Scope nat_scope.
Local Open Scope list_scope.

(** ** Where the requests are *)
Definition pending (m : gmap Z (list request)) : list (@request T) := concat (map_to_list m).*2.

Definition dispatching (r : @runner T) : list (list request) :=
  match r with Dispatching batches => batches | _ => [] end.
Definition calling (w : @worker T U) : list (list request) :=
  match w with Calling batch => [batch] | Delivering _ _ => [] end.
Definition delivering (w : @worker T U) : list (nat * Result) :=
  match w with Calling _ => [] | Delivering results _ => results end.

(** The batches cut and not executed. *)
Definition batches s : list (list request) := dispatching (run_at s) ++ concat (map calling (workers s)).
Definition undelivered s : list (nat * Result) := concat (map delivering (workers s)).
Definition unexecuted s : list (@request T) := pending (requests s) ++ concat (batches s).

Definition executed ls : list (@request T) :=
  concat (map (λ l, match l with Execute batch _ => batch | _ => [] end) ls).

(** The request a step registers. *)
Definition registered (l : label) : list (@request T) :=
  match l with
  | Add id x => match RequestHasher options x with
                | Ok h => [{| hash := h; input := x; requestor := id |}]
                | Err _ => [] end
  | _ => []
  end.

Lemma pending_register r m : pending (register r m) ≡ₚ r :: pending m.
Proof.
  unfold pending, register. destruct (m !! hash r) as [l|] eqn:E.
  - rewrite <-insert_delete_eq, map_to_list_insert by apply lookup_delete_eq.
    rewrite <-(map_to_list_delete m _ _ E). cbn. rewrite <-(assoc_L (++)). cbn [app]. by rewrite <-Permutation_middle.
  - by rewrite map_to_list_insert.
Qed.

Lemma batches_workers s l1 w l2 : workers s = l1 ++ w :: l2 →
  batches s = (dispatching (run_at s) ++ concat (map calling l1)) ++ calling w ++ concat (map calling l2).
Proof. intros E. unfold batches. rewrite E, map_app, concat_app. cbn. by rewrite !(assoc_L (++)). Qed.

(** A step moves the requests and loses none. *)
Lemma requests_conserved ls s (l : label) s' : moves s l s' → crashed s' = false →
  executed (ls ++ [l]) ++ unexecuted s' ≡ₚ registered l ++ executed ls ++ unexecuted s.
Proof.
  assert (He : executed (ls ++ [l]) = executed ls ++ executed [l]) by (unfold executed; by rewrite map_app, concat_app).
  rewrite He. clear He. intros Hm Hc.
  destruct Hm as [s id x e Hid Hh|s id x h Hid Hh|s id Hid Ht|s id r Hid Hr|s Hs Ht|s n Hs Ho Ht|s n Hs
    |s bs Hs Hp|s b bs Hs Hst|s Hs|s l1 b l2 outs Hw Hex|s l1 id r res over l2 Hw Hr
    |s l1 l2 Hw|s l1 l2 Hw|s|s Hs Hd|s Hs Hw]; cbn [executed map concat app registered]; rewrite ?(right_id_L [] (++)), ?Hh;
    unfold unexecuted, batches in *; cbn [requests run_at workers set_caller set_requests set_trigger set_runner set_workers
      set_requestors cancel crash dispatching] in *; try done.
  - rewrite pending_register. cbn [app]. by rewrite <-Permutation_middle.
  - by rewrite Hs.
  - by rewrite Hs.
  - by rewrite Hs.
  - rewrite Hs. cbn [dispatching app]. unfold pending at 1. rewrite map_to_list_empty. cbn. rewrite concat_app.
    unfold pending. by rewrite Hp.
  - rewrite Hs. cbn [dispatching]. rewrite map_app. cbn [map calling app]. rewrite !concat_app. cbn [concat app].
    rewrite ?(right_id_L [] (++)).
    rewrite ?concat_app. solve_Permutation.
  - by rewrite Hs.
  - rewrite Hw, !map_app, !concat_app. cbn [map calling concat app].
    rewrite ?concat_app. solve_Permutation.
  - rewrite Hw, !map_app, !concat_app. cbn [map calling concat app]. done.
  - rewrite Hw, !map_app, !concat_app. cbn [map calling concat app]. done.
  - by rewrite Hs.
  - by rewrite Hs.
Qed.

(** The results on their way: what each step does to them. *)
Inductive mail_step s (l : label) s' : Prop :=
  | mail_same : undelivered s' = undelivered s → requestors s' = requestors s → mail_step s l s'
  | mail_sent batch outputs : l = Execute batch outputs → batch ∈ batches s →
      undelivered s' ≡ₚ deliveries batch outputs ++ undelivered s →
      requestors s' = requestors s → mail_step s l s'
  | mail_arrives id r : l = Deliver → undelivered s ≡ₚ (id, r) :: undelivered s' → requestors s !! id = None →
      requestors s' = <[id := r]> (requestors s) → mail_step s l s'
  | mail_taken id r : l = Receive id r → undelivered s' = undelivered s → requestors s !! id = Some r →
      requestors s' = delete id (requestors s) → mail_step s l s'.

Lemma moves_mail s l s' : moves s l s' → mail_step s l s'.
Proof.
  intros Hm. destruct Hm as [s id x e Hid Hh|s id x h Hid Hh|s id Hid Ht|s id r Hid Hr|s Hs Ht|s n Hs Ho Ht|s n Hs
    |s bs Hs Hp|s b bs Hs Hst|s Hs|s l1 b l2 outs Hw Hex|s l1 id r res over l2 Hw Hr
    |s l1 l2 Hw|s l1 l2 Hw|s|s Hs Hd|s Hs Hw]; try by apply mail_same.
  - by eapply mail_taken.
  - apply mail_same; [|done]. unfold undelivered. cbn. rewrite map_app, concat_app. cbn. by rewrite (right_id_L [] (++)).
  - eapply mail_sent; [done| | |done].
    + rewrite (batches_workers _ _ _ _ Hw). cbn. set_solver.
    + unfold undelivered. cbn. rewrite Hw, !map_app, !concat_app. cbn. solve_Permutation.
  - eapply (mail_arrives _ _ _ id r); [done| |done|done]. unfold undelivered. cbn. rewrite Hw, !map_app, !concat_app. cbn.
    by rewrite <-Permutation_middle.
  - apply mail_same; [|done]. unfold undelivered. cbn. by rewrite Hw, !map_app, !concat_app.
Qed.

(** The callers: what each step does to one. *)
Inductive caller_step s (l : label) s' : Prop :=
  | callers_same : callers s' = callers s → caller_step s l s'
  | caller_moves id c : callers s' = <[id := c]> (callers s) →
      match c with
      | Triggering => callers s !! id = None ∧
          ∃ r, registered l = [r] ∧ requestor r = id ∧ requests s' = register r (requests s)
      | Waiting => callers s !! id = Some Triggering ∧ trigger s' = true ∧ requests s' = requests s
      | Returned res =>
          (∃ x e, l = Add id x ∧ RequestHasher options x = Err e ∧ res = hashing_failed e) ∨
          (l = Receive id res ∧ callers s !! id = Some Waiting)
      end → caller_step s l s'.

Lemma moves_callers s l s' : moves s l s' → caller_step s l s'.
Proof.
  intros Hm. destruct Hm as [s id x e Hid Hh|s id x h Hid Hh|s id Hid Ht|s id r Hid Hr|s Hs Ht|s n Hs Ho Ht|s n Hs
    |s bs Hs Hp|s b bs Hs Hst|s Hs|s l1 b l2 outs Hw Hex|s l1 id r res over l2 Hw Hr
    |s l1 l2 Hw|s l1 l2 Hw|s|s Hs Hd|s Hs Hw]; try by apply callers_same.
  - eapply caller_moves; [done|]. left. by eauto.
  - eapply caller_moves; [done|]. cbn. rewrite Hh. split; [done|]. eexists. by split_and!.
  - by eapply caller_moves; [done|].
  - eapply caller_moves; [done|]. by right.
Qed.

(** ** Answers *)

(** The result of a request in a batch. *)
Definition result_at (batch : list (@request T)) (outputs : list (@Result U)) (i : nat) (res : Result) : Prop :=
  outputs !! i = Some res ∨ length outputs ≤ i ∧ res = fewer_results (length outputs) (length batch).

Definition answered ls (id : nat) (res : @Result U) : Prop :=
  ∃ batch outputs i r, Execute batch outputs ∈ ls ∧ batch !! i = Some r ∧ requestor r = id ∧ result_at batch outputs i res.

Definition refused ls (id : nat) (res : @Result U) : Prop :=
  ∃ x e, Add id x ∈ ls ∧ RequestHasher options x = Err e ∧ res = hashing_failed e.

Lemma deliveries_ids (batch : list (@request T)) (outputs : list (@Result U)) :
  (deliveries batch outputs).*1 = map requestor batch.
Proof. apply fst_zip. rewrite length_app, length_replicate, length_map. lia. Qed.

Lemma deliveries_result (batch : list (@request T)) (outputs : list (@Result U)) id res : (id, res) ∈ deliveries batch outputs →
  ∃ i r, batch !! i = Some r ∧ requestor r = id ∧ result_at batch outputs i res.
Proof.
  intros [i Hi]%list_elem_of_lookup. apply lookup_zip_Some in Hi as [H1 H2].
  apply list_lookup_fmap_Some in H1 as (r & -> & Hr). exists i, r. split_and!; [done|done|].
  unfold result_at. apply lookup_app_Some in H2 as [H2|[Hle H2]]; [by left|right]. split; [lia|].
  by apply lookup_replicate in H2 as [-> _].
Qed.

Lemma answered_executed ls id res : answered ls id res → id ∈ map requestor (executed ls).
Proof.
  intros (batch & outputs & i & r & He & Hb & <- & _). apply list_elem_of_fmap. exists r. split; [done|].
  unfold executed. apply elem_of_concat. exists batch. split; [|by eapply list_elem_of_lookup_2].
  apply list_elem_of_fmap. by exists (Execute batch outputs).
Qed.

Lemma answered_later ls l id res : answered ls id res → answered (ls ++ [l]) id res.
Proof. intros (batch & outputs & i & r & He & H). exists batch, outputs, i, r. split; [set_solver|done]. Qed.
Lemma refused_later ls l id res : refused ls id res → refused (ls ++ [l]) id res.
Proof. intros (x & e & Ha & H). exists x, e. split; [set_solver|done]. Qed.

Definition same_hash (batch : list (@request T)) : Prop := batch ≠ [] ∧ ∃ h, Forall (λ r, hash r = h) batch.

(** A request waits in the map only when the runner is in a window, or will be
    told of it. *)
Definition awake s : Prop :=
  requests s = ∅ ∨ trigger s = true ∨ (∃ id, callers s !! id = Some Triggering) ∨
  match run_at s with InWindow _ | Swapping | Draining | Stopped => True | _ => False end.

Definition unreturned s (id : nat) : Prop := callers s !! id = Some Triggering ∨ callers s !! id = Some Waiting.

Record inv ls s : Prop := {
  i_nodup : NoDup (map requestor (executed ls ++ unexecuted s));
  i_added : Forall (λ r, Add (requestor r) (input r) ∈ ls ∧ RequestHasher options (input r) = Ok (hash r) ∧
    is_Some (callers s !! requestor r)) (executed ls ++ unexecuted s);
  i_answers : ∀ id res, (id, res) ∈ undelivered s ∨ requestors s !! id = Some res → answered ls id res;
  i_returned : ∀ id res, callers s !! id = Some (Returned res) → answered ls id res ∨ refused ls id res;
  i_pending : ∀ h l, requests s !! h = Some l → l ≠ [] ∧ Forall (λ r, hash r = h) l;
  i_batches : Forall same_hash (batches s);
  i_executed : ∀ batch outputs, Execute batch outputs ∈ ls → same_hash batch ∧ executor (map input batch) outputs;
  i_mail : NoDup (undelivered s).*1;
  i_room : ∀ id, id ∈ (undelivered s).*1 → requestors s !! id = None;
  i_outstanding : ∀ id, unreturned s id →
    id ∈ map requestor (unexecuted s) ∨ id ∈ (undelivered s).*1 ∨ is_Some (requestors s !! id);
  i_waiting : ∀ r, r ∈ unexecuted s → unreturned s (requestor r);
  i_awake : awake s;
  i_over : ∀ results, Delivering results true ∈ workers s →
    ∃ inputs outputs, executor inputs outputs ∧ length inputs < length outputs;
  i_stopping : run_at s = Draining ∨ run_at s = Stopped → ctx_done s = true;
}.

(** *** The invariant is kept *)
Section keep.
Context ls s (l : label) s' (Hm : moves s l s') (Hc : crashed s' = false) (HI : inv ls s).

Lemma keep_known : executed (ls ++ [l]) ++ unexecuted s' ≡ₚ registered l ++ executed ls ++ unexecuted s.
Proof. exact (requests_conserved ls s l s' Hm Hc). Qed.

Lemma keep_callers id : is_Some (callers s !! id) → is_Some (callers s' !! id).
Proof.
  destruct (moves_callers _ _ _ Hm) as [->|i c -> _]; [done|].
  intros H. destruct (decide (i = id)) as [->|]; [by rewrite lookup_insert_eq|by rewrite lookup_insert_ne].
Qed.

(** A registered request is that of a new call. *)
Lemma registered_new r : r ∈ registered l →
  callers s !! requestor r = None ∧ l = Add (requestor r) (input r) ∧
  RequestHasher options (input r) = Ok (hash r) ∧ callers s' !! requestor r = Some Triggering.
Proof.
  destruct l; cbn; try by intros ?%not_elem_of_nil. inversion Hm; subst.
  - match goal with H : RequestHasher _ _ = Err _ |- _ => rewrite H end. by intros ?%not_elem_of_nil.
  - match goal with H : RequestHasher _ _ = Ok _ |- _ => rewrite H end. intros ->%list_elem_of_singleton. cbn.
    split_and!; [done..|by rewrite lookup_insert_eq].
Qed.

Lemma keep_nodup : NoDup (map requestor (executed (ls ++ [l]) ++ unexecuted s')).
Proof.
  rewrite keep_known, map_app. apply NoDup_app. split_and!; [| |exact (i_nodup _ _ HI)].
  - unfold registered. destruct l as [id x|?|? ?| | | | | | |? ?| | | | | |]; try constructor.
    destruct (RequestHasher options x); cbn; [apply NoDup_singleton|constructor].
  - intros id (r & -> & Hr)%list_elem_of_fmap (r' & Heq & Hr')%list_elem_of_fmap.
    apply registered_new in Hr as (Hn & _). pose proof (i_added _ _ HI) as Ha. rewrite Forall_forall in Ha.
    destruct (Ha r' Hr') as (_ & _ & [c Hc']). congruence.
Qed.

Lemma keep_added : Forall (λ r, Add (requestor r) (input r) ∈ ls ++ [l] ∧ RequestHasher options (input r) = Ok (hash r) ∧
    is_Some (callers s' !! requestor r)) (executed (ls ++ [l]) ++ unexecuted s').
Proof.
  rewrite keep_known. apply Forall_app. split; apply Forall_forall; intros r Hr.
  - apply registered_new in Hr as (_ & -> & Hh & Hs'). split_and!; [set_solver|done|by eexists].
  - pose proof (i_added _ _ HI) as Ha. rewrite Forall_forall in Ha. destruct (Ha r Hr) as (Hin & Hh & Hsome).
    split_and!; [set_solver|done|by apply keep_callers].
Qed.

Lemma keep_answers id res : (id, res) ∈ undelivered s' ∨ requestors s' !! id = Some res → answered (ls ++ [l]) id res.
Proof.
  pose proof (i_answers _ _ HI) as Ha. intros Hin. destruct (moves_mail _ _ _ Hm) as
    [Hu Hr|batch outputs -> Hb Hu Hr|i r -> Hu Hn Hr|i r -> Hu Hs Hr].
  - rewrite Hu, Hr in Hin. by apply answered_later, Ha.
  - rewrite Hu, Hr, elem_of_app in Hin. destruct Hin as [[Hin|Hin]|Hin]; [|apply answered_later, Ha; auto..].
    destruct (deliveries_result _ _ _ _ Hin) as (k & r & Hk & Hid & Hres).
    exists batch, outputs, k, r. split_and!; [set_solver|done..].
  - apply answered_later, Ha. rewrite Hu, elem_of_cons. rewrite Hr in Hin. destruct Hin as [Hin|Hin]; [by left; right|].
    apply lookup_insert_Some in Hin as [[-> ->]|[_ Hin]]; [by left; left|by right].
  - apply answered_later, Ha. rewrite <-Hu. rewrite Hr in Hin. destruct Hin as [Hin|Hin]; [by left|right].
    by apply lookup_delete_Some in Hin as [_ ?].
Qed.

Lemma keep_returned id res : callers s' !! id = Some (Returned res) →
  answered (ls ++ [l]) id res ∨ refused (ls ++ [l]) id res.
Proof.
  assert (Hold : callers s !! id = Some (Returned res) → answered (ls ++ [l]) id res ∨ refused (ls ++ [l]) id res).
  { intros [?|?]%(i_returned _ _ HI); [left; by apply answered_later|right; by apply refused_later]. }
  destruct (moves_callers _ _ _ Hm) as [->|i c -> Hcase]; [done|].
  intros [[-> ->]|[_ H]]%lookup_insert_Some; [|by apply Hold].
  destruct Hcase as [(x & e & -> & Hh & ->)|[-> Hw]]; [right; exists x, e; set_solver|left].
  apply answered_later, (i_answers _ _ HI). right. by inversion Hm.
Qed.

Lemma keep_pending h l0 : requests s' !! h = Some l0 → l0 ≠ [] ∧ Forall (λ r, hash r = h) l0.
Proof.
  pose proof (i_pending _ _ HI) as Hp. destruct Hm; cbn; try apply Hp; [|by rewrite lookup_empty].
  unfold register. cbn. intros [[<- <-]|[_ Hl]]%lookup_insert_Some; [|by apply Hp]. split; [by destruct (default _ _)|].
  apply Forall_app. split; [|by repeat constructor]. destruct (requests s !! h0) eqn:E; [by apply Hp|constructor].
Qed.

Lemma keep_batches : Forall same_hash (batches s').
Proof.
  pose proof (i_batches _ _ HI) as Hb. destruct Hm as [s id x e Hid Hh|s id x h Hid Hh|s id Hid Ht|s id r Hid Hr|s Hs Ht
    |s n Hs Ho Ht|s n Hs|s bs Hs Hp|s b bs Hs Hst|s Hs|s l1 b l2 outs Hw Hex
    |s l1 id r res over l2 Hw Hr|s l1 l2 Hw|s l1 l2 Hw|s|s Hs Hd|s Hs Hw]; try exact Hb;
    unfold batches in *; cbn; try (rewrite ?Hs in Hb; exact Hb).
  - rewrite Hs in Hb. apply Forall_app. split; [|exact Hb]. rewrite Hp. apply Forall_forall.
    intros b ([h l0] & -> & Hl)%list_elem_of_fmap. apply elem_of_map_to_list in Hl. cbn.
    destruct (i_pending _ _ HI h l0 Hl) as [Hne Hall]. split; [done|by exists h].
  - rewrite Hs in Hb. cbn in Hb. rewrite map_app, concat_app. cbn. apply Forall_cons in Hb as [Hb1 Hb2].
    apply Forall_app in Hb2 as [Hb2 Hb3]. apply Forall_app. split; [done|]. apply Forall_app. split; [done|by apply Forall_singleton].
  - rewrite Hw, map_app, concat_app in Hb. rewrite map_app, concat_app. cbn in *. rewrite !Forall_app, Forall_cons in Hb.
    rewrite !Forall_app. naive_solver.
  - rewrite Hw, map_app, concat_app in Hb. rewrite map_app, concat_app. cbn in *. exact Hb.
  - rewrite Hw, map_app, concat_app in Hb. rewrite map_app, concat_app. cbn in *. exact Hb.
Qed.

(** An execution sends its results. *)
Lemma execution batch outputs : l = Execute batch outputs →
  batch ∈ batches s ∧ executor (map input batch) outputs ∧
  undelivered s' ≡ₚ deliveries batch outputs ++ undelivered s.
Proof.
  intros ->. inversion Hm as [| | | | | | | | | |? l1 ? l2 ? Hw Hex| | | | | |]; subst.
  split; [rewrite (batches_workers _ _ _ _ Hw); set_solver|]. split; [done|].
  unfold undelivered. cbn. rewrite Hw, !map_app, !concat_app. cbn. solve_Permutation.
Qed.

Lemma keep_executed batch outputs : Execute batch outputs ∈ ls ++ [l] → same_hash batch ∧ executor (map input batch) outputs.
Proof.
  intros [Hin|Hin%list_elem_of_singleton]%elem_of_app; [by apply (i_executed _ _ HI)|].
  destruct (execution batch outputs (eq_sym Hin)) as (Hb & Hex & _). split; [|done].
  pose proof (i_batches _ _ HI) as Hall. rewrite Forall_forall in Hall. by apply Hall.
Qed.

(** A batch that waits holds requests not executed, each once. *)
Lemma batch_unexecuted batch : batch ∈ batches s → NoDup (map requestor batch) ∧
  ∀ id, id ∈ map requestor batch → id ∉ map requestor (executed ls).
Proof.
  intros Hb. pose proof (i_nodup _ _ HI) as Hnd. rewrite map_app in Hnd. apply NoDup_app in Hnd as (_ & Hdis & Hnd).
  assert (Hsub : ∀ r, r ∈ batch → r ∈ unexecuted s).
  { intros r Hr. apply elem_of_app. right. apply elem_of_concat. eauto. }
  split.
  - apply list_elem_of_split in Hb as (b1 & b2 & Hb). unfold unexecuted in Hnd.
    rewrite Hb, concat_app, map_app, map_app in Hnd. cbn in Hnd. rewrite map_app in Hnd.
    apply NoDup_app in Hnd as (_ & _ & Hnd). apply NoDup_app in Hnd as (_ & _ & Hnd). by apply NoDup_app in Hnd as [Hnd _].
  - intros id (r & -> & Hr)%list_elem_of_fmap Hex. apply (Hdis _ Hex). apply list_elem_of_fmap. eauto.
Qed.

Lemma undelivered_executed id : id ∈ (undelivered s).*1 → id ∈ map requestor (executed ls).
Proof.
  intros ([i res] & -> & Hin)%list_elem_of_fmap. eapply answered_executed, (i_answers _ _ HI). left. exact Hin.
Qed.

Lemma keep_mail : NoDup (undelivered s').*1 ∧ ∀ id, id ∈ (undelivered s').*1 → requestors s' !! id = None.
Proof.
  pose proof (i_mail _ _ HI) as Hnd. pose proof (i_room _ _ HI) as Hroom. destruct (moves_mail _ _ _ Hm) as
    [Hu Hr|batch outputs -> Hb Hu Hr|i r -> Hu Hn Hr|i r -> Hu Hs Hr]; rewrite ?Hr.
  - by rewrite Hu.
  - pose proof (deliveries_ids batch outputs) as Hids. destruct (batch_unexecuted _ Hb) as [Hnb Hex].
    assert (Heq : (undelivered s').*1 ≡ₚ map requestor batch ++ (undelivered s).*1) by by rewrite Hu, fmap_app, Hids.
    split.
    + rewrite Heq. apply NoDup_app. split_and!; [done| |done]. intros id Hid Hu'%undelivered_executed. by apply (Hex id).
    + intros id. rewrite Heq. intros [Hid|Hid]%elem_of_app; [|by apply Hroom]. apply eq_None_not_Some. intros [res Hres].
      apply (Hex id Hid). eapply answered_executed, (i_answers _ _ HI). right. exact Hres.
  - rewrite Hu in Hnd. setoid_rewrite Hu in Hroom. cbn in Hnd. apply NoDup_cons in Hnd as [Hni Hnd]. split; [done|].
    intros id Hid. destruct (decide (i = id)) as [->|]; [done|]. rewrite lookup_insert_ne by done. apply Hroom. by right.
  - rewrite Hu. split; [done|]. intros id Hid. apply lookup_delete_None. right. by apply Hroom.
Qed.

Lemma keep_outstanding id : unreturned s' id →
  id ∈ map requestor (unexecuted s') ∨ id ∈ (undelivered s').*1 ∨ is_Some (requestors s' !! id).
Proof.
  intros Hun.
  assert (Hcase : (∃ r, r ∈ registered l ∧ requestor r = id) ∨ unreturned s id).
  { unfold unreturned in *. destruct (moves_callers _ _ _ Hm) as [E|i c E Hc']; rewrite E in Hun; [by right|].
    rewrite !lookup_insert_Some in Hun. destruct c as [| |res].
    - destruct Hc' as (_ & r & Hr & Hid & _). destruct Hun as [[[-> _]|[_ ?]]|[[? ?]|[_ ?]]]; [|by auto..].
      left. exists r. split; [rewrite Hr; by left|done].
    - destruct Hc' as (Hi & _). right. destruct Hun as [[[? ?]|[_ ?]]|[[-> _]|[_ ?]]]; by auto.
    - right. destruct Hun as [[[? ?]|[_ ?]]|[[? ?]|[_ ?]]]; by auto. }
  destruct Hcase as [(r & Hr & <-)|Hs].
  { left. apply list_elem_of_fmap. exists r. split; [done|].
    assert (Hk : r ∈ executed (ls ++ [l]) ++ unexecuted s') by (rewrite keep_known; set_solver).
    apply elem_of_app in Hk as [Hk|]; [exfalso|done]. unfold executed in Hk. rewrite map_app, concat_app, elem_of_app in Hk.
    apply registered_new in Hr as (Hn & -> & _). destruct Hk as [Hk|Hk]; [|cbn in Hk; by apply not_elem_of_nil in Hk].
    pose proof (i_added _ _ HI) as Ha. rewrite Forall_forall in Ha. destruct (Ha r) as (_ & _ & [c ?]); [|congruence].
    apply elem_of_app. by left. }
  destruct (i_outstanding _ _ HI id Hs) as [Hid|Hid].
  - apply list_elem_of_fmap in Hid as (r & -> & Hr).
    assert (Hk : r ∈ executed (ls ++ [l]) ++ unexecuted s') by (rewrite keep_known; set_solver).
    unfold executed in Hk. rewrite map_app, concat_app, !elem_of_app in Hk. destruct Hk as [[Hk|Hk]|Hk].
    + exfalso. pose proof (i_nodup _ _ HI) as Hnd. rewrite map_app in Hnd. apply NoDup_app in Hnd as (_ & Hdis & _).
      apply (Hdis (requestor r)); apply list_elem_of_fmap; exists r; done.
    + assert (Hex : ∃ batch outputs, l = Execute batch outputs ∧ r ∈ batch).
      { revert Hk. clear. destruct l; cbn; try by intros ?%not_elem_of_nil. rewrite (right_id_L [] (++)). eauto. }
      destruct Hex as (batch & outputs & Hl & Hr'). right. left.
      destruct (execution batch outputs Hl) as (_ & _ & Hu). rewrite Hu, fmap_app, deliveries_ids.
      apply elem_of_app. left. apply list_elem_of_fmap. by exists r.
    + left. apply list_elem_of_fmap. by exists r.
  - right. destruct (moves_mail _ _ _ Hm) as
      [Hu Hr|batch outputs -> Hb Hu Hr|i r -> Hu Hn Hr|i r -> Hu Hsome Hr]; rewrite ?Hr, ?Hu.
    + done.
    + rewrite fmap_app, elem_of_app. naive_solver.
    + rewrite Hu in Hid. cbn in Hid. rewrite elem_of_cons in Hid. destruct Hid as [[->|Hid]|Hid]; [|by left|].
      * right. by rewrite lookup_insert_eq.
      * right. destruct (decide (i = id)) as [->|]; [by rewrite lookup_insert_eq|by rewrite lookup_insert_ne].
    + destruct (decide (i = id)) as [->|]; [|by rewrite lookup_delete_ne].
      exfalso. inversion Hm; subst. unfold unreturned in Hun. cbn in Hun. rewrite lookup_insert_eq in Hun. naive_solver.
Qed.

Lemma keep_waiting r : r ∈ unexecuted s' → unreturned s' (requestor r).
Proof.
  intros Hr. assert (Hk : r ∈ registered l ++ executed ls ++ unexecuted s) by (rewrite <-keep_known; set_solver).
  apply elem_of_app in Hk as [Hk|Hk]; [left; by apply registered_new in Hk as (_ & _ & _ & ?)|].
  assert (Hnd : requestor r ∉ map requestor (executed (ls ++ [l]))).
  { pose proof keep_nodup as Hnd. rewrite map_app in Hnd. apply NoDup_app in Hnd as (_ & Hdis & _).
    intros Hx. apply (Hdis _ Hx). apply list_elem_of_fmap. eauto. }
  assert (Hs : unreturned s (requestor r)).
  { apply (i_waiting _ _ HI). apply elem_of_app in Hk as [Hk|]; [exfalso|done]. apply Hnd.
    unfold executed. rewrite map_app, concat_app, map_app. apply elem_of_app. left. apply list_elem_of_fmap. by exists r. }
  unfold unreturned in *. destruct (moves_callers _ _ _ Hm) as [->|id c -> Hc']; [done|].
  destruct (decide (id = requestor r)) as [->|]; [|by rewrite !lookup_insert_ne]. rewrite !lookup_insert_eq.
  destruct c as [| |res]; [by left|by right|exfalso].
  destruct Hc' as [(x & e & Hl & Hh & ->)|[Hl Hw]].
  - revert Hs. subst l. inversion Hm; subst; rewrite H2; naive_solver.
  - apply Hnd. eapply answered_executed, answered_later, (i_answers _ _ HI). right. subst l. by inversion Hm.
Qed.

Lemma keep_awake : awake s'.
Proof.
  pose proof (i_awake _ _ HI) as Ha. unfold awake in *.
  assert (Hother : ∀ id c, callers s !! id ≠ Some Triggering → (∃ i, callers s !! i = Some Triggering) →
    ∃ i, <[id := c]> (callers s) !! i = Some Triggering).
  { intros id c Hid [i Hi]. exists i. rewrite lookup_insert_ne; [done|]. intros ->. congruence. }
  destruct Hm as [s id x e Hid Hh|s id x h Hid Hh|s id Hid Ht|s id r Hid Hr|s Hs Ht
    |s n Hs Ho Ht|s n Hs|s bs Hs Hp|s b bs Hs Hst|s Hs|s l1 b l2 outs Hw Hex
    |s l1 id r res over l2 Hw Hr|s l1 l2 Hw|s l1 l2 Hw|s|s Hs Hd|s Hs Hw]; cbn; try exact Ha; try by auto 6.
  - destruct Ha as [|[|[|]]]; [by auto..| |by auto]. right; right; left. apply Hother; [congruence|done].
  - right; right; left. exists id. by rewrite lookup_insert_eq.
  - destruct Ha as [|[|[|]]]; [by auto..| |by auto]. right; right; left. apply Hother; [congruence|done].
  - rewrite Hs in Ha. naive_solver.
  - rewrite Hs in Ha. naive_solver.
Qed.

Lemma keep_over results : Delivering results true ∈ workers s' →
  ∃ inputs outputs, executor inputs outputs ∧ length inputs < length outputs.
Proof.
  pose proof (i_over _ _ HI) as Ho. destruct Hm as [s id x e Hid Hh|s id x h Hid Hh|s id Hid Ht|s id r Hid Hr|s Hs Ht
    |s n Hs Ho' Ht|s n Hs|s bs Hs Hp|s b bs Hs Hst|s Hs|s l1 b l2 outs Hw Hex
    |s l1 id r res over l2 Hw Hr|s l1 l2 Hw|s l1 l2 Hw|s|s Hs Hd|s Hs Hw]; cbn; try exact (Ho results).
  - intros [Hin|[Hin|Hin]%elem_of_cons]%elem_of_app; [by apply (Ho results)|done|by apply not_elem_of_nil in Hin].
  - rewrite Hw in Ho. intros [Hin|[[= _ Hover]|Hin]%elem_of_cons]%elem_of_app; [apply (Ho results); set_solver| |apply (Ho results); set_solver].
    exists (map input b), outs. split; [done|]. rewrite length_map. by apply Nat.ltb_lt.
  - rewrite Hw in Ho. intros [Hin|[[= _ <-]|Hin]%elem_of_cons]%elem_of_app; [apply (Ho results)|apply (Ho ((id, r) :: res))|apply (Ho results)]; set_solver.
  - rewrite Hw in Ho. intros Hin. apply (Ho results). set_solver.
Qed.

Lemma keep_stopping : run_at s' = Draining ∨ run_at s' = Stopped → ctx_done s' = true.
Proof.
  pose proof (i_stopping _ _ HI) as Hst. destruct Hm; cbn; try exact Hst; try (by intros [|]); auto.
Qed.

Lemma inv_kept : inv (ls ++ [l]) s'.
Proof.
  destruct keep_mail as [H1 H2]. split; [exact keep_nodup|exact keep_added|exact keep_answers|exact keep_returned
    |exact keep_pending|exact keep_batches|exact keep_executed|done|done|exact keep_outstanding|exact keep_waiting|exact keep_awake|exact keep_over|exact keep_stopping].
Qed.
End keep.

Lemma inv_initial : inv [] NewBatcher.
Proof.
  split; cbn; try done; try apply NoDup_nil_2; try apply Forall_nil_2.
  - by intros id res [H|H]; [apply not_elem_of_nil in H|].
  - by intros ? ? ?%not_elem_of_nil.
  - by intros id [|].
  - by intros r ?%not_elem_of_nil.
  - by left.
  - by intros ? ?%not_elem_of_nil.
  - by intros [|].
Qed.

(** What holds of every reachable state that has not crashed. *)
Lemma inv_reachable ls s : steps step NewBatcher ls s → crashed s = false → inv ls s.
Proof.
  intros Hs. apply (steps_trace_invariant step (λ ls s, crashed s = false → inv ls s) NewBatcher ls s);
    [|done|intros _; exact inv_initial].
  intros ls1 s1 l s2 HI Hstep Hc2. inversion Hstep as [? ? ? Hc Hm]; subst. eapply inv_kept; [exact Hm|done|by apply HI].
Qed.

(** ** The properties *)

(** The result of one execution for a call. *)
Definition own_result ls (id : nat) (x : T) (res : @Result U) : Prop :=
  ∃ batch outputs i r, Execute batch outputs ∈ ls ∧ executor (map input batch) outputs ∧
    batch !! i = Some r ∧ requestor r = id ∧ input r = x ∧ RequestHasher options x = Ok (hash r) ∧
    Forall (λ r', hash r' = hash r) batch ∧ result_at batch outputs i res.

Lemma returned_own ls s id res : inv ls s → callers s !! id = Some (Returned res) →
  ∃ x, Add id x ∈ ls ∧
    ((∃ e, RequestHasher options x = Err e ∧ res = hashing_failed e) ∨ own_result ls id x res).
Proof.
  intros HI Hreturned.
  destruct (i_returned _ _ HI id res Hreturned) as [(batch & outputs & i & r & He & Hb & Hid & Hres)|(x & e & Ha & Hh & ->)];
    [|by eauto 6].
  destruct (i_executed _ _ HI _ _ He) as [[_ [h Hh]] Hex].
  assert (Hr : r ∈ executed ls).
  { apply elem_of_concat. exists batch. split; [|by eapply list_elem_of_lookup_2].
    apply list_elem_of_fmap. by exists (Execute batch outputs). }
  pose proof (i_added _ _ HI) as Hadd. rewrite Forall_forall in Hadd.
  destruct (Hadd r) as (Hin & Hhash & _); [by apply elem_of_app; left|]. rewrite Hid in Hin.
  exists (input r). split; [done|]. right. exists batch, outputs, i, r. split_and!; try done.
  assert (hash r = h) as -> by (by rewrite Forall_lookup in Hh; eapply Hh). done.
Qed.

(** C33. Every call of [Add] that returns has its own answer: the error of its hash,
    or the result at its request's place in one execution of a batch of
    requests, all of the same hash, or the error of an executor that returned
    fewer results; and no request is executed twice. *)
Theorem answers_are_own ls s id res
    (Hreach : steps step NewBatcher ls s) (Halive : crashed s = false)
    (Hreturned : callers s !! id = Some (Returned res)) :
  NoDup (map requestor (executed ls)) ∧
  ∃ x, Add id x ∈ ls ∧
    ((∃ e, RequestHasher options x = Err e ∧ res = hashing_failed e) ∨ own_result ls id x res).
Proof.
  pose proof (inv_reachable _ _ Hreach Halive) as HI. split; [|by eapply returned_own].
  pose proof (i_nodup _ _ HI) as Hnd. rewrite map_app in Hnd. by apply NoDup_app in Hnd as [Hnd _].
Qed.

(** *** The work left *)
Local Arguments Nat.mul : simpl never.
Definition is_triggering (c : @caller U) : bool := match c with Triggering => true | _ => false end.
Definition triggering (m : gmap nat (@caller U)) : nat :=
  sum_list_with (λ c, if is_triggering c then 1 else 0) (map_to_list m).*2.

Lemma triggering_insert (m : gmap nat (@caller U)) id c c' : m !! id = Some c → is_triggering c' = false →
  triggering m = (if is_triggering c then 1 else 0) + triggering (<[id := c']> m).
Proof.
  intros Hm Hc. unfold triggering. rewrite <-(map_to_list_delete m _ _ Hm).
  rewrite <-insert_delete_eq, map_to_list_insert by apply lookup_delete_eq. cbn. by rewrite Hc.
Qed.

Definition runner_work (r : @runner T) : nat :=
  match r with
  | Selecting | Draining | Stopped => 0
  | InWindow _ => 6
  | Swapping => 5
  | Dispatching batches => 1 + sum_list_with (λ batch, 4 * length batch + 2) batches
  end.

Definition worker_work (w : @worker T U) : nat :=
  match w with Calling batch => 3 * length batch + 2 | Delivering results _ => 2 * length results + 1 end.

Definition work s : nat :=
  8 * triggering (callers s) + (if trigger s then 7 else 0) + runner_work (run_at s) +
  6 * length (pending (requests s)) + sum_list_with worker_work (workers s) + size (requestors s).

(** The steps of the goroutines that run: no new call, and the context goes on. *)
Definition internal (l : label) : bool := match l with Add _ _ | Cancel => false | _ => true end.

(** An executor that answers, with at most one result for each input. *)
Definition sized_executor : Prop :=
  ∀ inputs, (∃ outputs, executor inputs outputs) ∧ ∀ outputs, executor inputs outputs → length outputs ≤ length inputs.

Lemma sized_over (Hsized : sized_executor) ls s results : inv ls s → Delivering results true ∉ workers s.
Proof.
  intros HI Hin. destruct (i_over _ _ HI _ Hin) as (inputs & outputs & Hex & Hlt).
  pose proof (proj2 (Hsized inputs) outputs Hex). lia.
Qed.

Lemma sized_alive (Hsized : sized_executor) ls s l s' : inv ls s → step s l s' → crashed s' = false.
Proof.
  intros HI Hstep. inversion Hstep as [? ? ? Hc Hm]; subst. destruct Hm as [| | | | | | | | | | | |? ? ? Hw| | | |]; cbn; try done.
  exfalso. apply (sized_over Hsized ls s [] HI). rewrite Hw. set_solver.
Qed.

(** With such an executor no process ends in a panic. *)
Lemma sized_reachable (Hsized : sized_executor) ls s : steps step NewBatcher ls s → crashed s = false ∧ inv ls s.
Proof.
  intros Hs. apply (steps_trace_invariant step (λ ls s, crashed s = false ∧ inv ls s) NewBatcher ls s);
    [|done|split; [done|exact inv_initial]].
  intros ls1 s1 l s2 [_ HI] Hstep. pose proof (sized_alive Hsized _ _ _ _ HI Hstep) as Hc. split; [done|].
  inversion Hstep; subst. by eapply inv_kept.
Qed.

Lemma batches_work bs : Forall same_hash bs →
  sum_list_with (λ batch : list (@request T), 4 * length batch + 2) bs ≤ 6 * length (concat bs).
Proof.
  induction 1 as [|b bs [Hb _] _ IH]; cbn; [lia|]. rewrite length_app.
  destruct b; [done|]. cbn [length] in *. lia.
Qed.

Lemma work_decreases ls s l s' : inv ls s → step s l s' → crashed s' = false → ctx_done s = false → internal l = true →
  work s' < work s ∧ ctx_done s' = false.
Proof.
  intros HI Hstep Hc' Hd Hl. pose proof (i_batches _ _ HI) as Hb. pose proof (i_pending _ _ HI) as Hpend.
  inversion Hstep as [? ? ? Hc Hm]; subst. unfold work.
  destruct Hm as [s id x e Hid Hh|s id x h Hid Hh|s id Hid Ht|s id r Hid Hr|s Hs Ht
    |s n Hs Ho Ht|s n Hs|s bs Hs Hp|s b bs Hs Hst|s Hs|s l1 b l2 outs Hw Hex
    |s l1 id r res over l2 Hw Hr|s l1 l2 Hw|s l1 l2 Hw|s|s Hs Hdone|s Hs Hw]; try done; (split; [|done || congruence]); cbn in *.
  - rewrite (triggering_insert _ _ _ Waiting Hid eq_refl), Ht. cbn. lia.
  - rewrite (triggering_insert _ _ _ (Returned r) Hid eq_refl). cbn. rewrite (map_size_delete_Some id) by by eexists.
    assert (size (requestors s) ≠ 0). { intros Hz%map_size_empty_inv. rewrite Hz in Hr. by rewrite lookup_empty in Hr. } lia.
  - rewrite Hs, Ht. cbn. lia.
  - rewrite Hs, Ht. cbn. lia.
  - rewrite Hs. cbn. lia.
  - rewrite Hs. cbn. assert (Hall : Forall same_hash bs).
    { rewrite Hp. apply Forall_forall. intros b ([h l0] & -> & Hin)%list_elem_of_fmap. apply elem_of_map_to_list in Hin.
      destruct (Hpend h l0 Hin) as [Hne Hf]. split; [done|by exists h]. }
    pose proof (batches_work bs Hall) as Hw. assert (Hlen : length (concat bs) = length (pending (requests s))).
    { unfold pending. by rewrite Hp. }
    unfold pending at 1. rewrite map_to_list_empty. cbn. lia.
  - unfold batches in Hb. rewrite Hs in Hb |- *. cbn in *. apply Forall_cons in Hb as [[Hne _] _].
    rewrite sum_list_with_app. cbn. destruct b; [done|]. cbn [length]. lia.
  - rewrite Hs. cbn. lia.
  - rewrite Hw, !sum_list_with_app. cbn. 
    assert (length (deliveries b outs) = length b)
      by (rewrite <-(length_map requestor b), <-(deliveries_ids b outs); by rewrite length_fmap).
    assert (Hbb : b ∈ batches s) by (rewrite (batches_workers _ _ _ _ Hw); set_solver).
    rewrite Forall_forall in Hb. destruct (Hb b Hbb) as [Hne _]. destruct b; [done|]. cbn [length] in *. lia.
  - rewrite Hw, !sum_list_with_app. cbn. rewrite map_size_insert_None by done. lia.
  - rewrite Hw, !sum_list_with_app. cbn. lia.
  - congruence.
  - pose proof (i_stopping _ _ HI (or_introl Hs)). congruence.
Qed.

(** An execution of internal steps is no longer than the work left, and keeps the
    invariant. *)
Lemma internal_steps (Hsized : sized_executor) ls s ls' s' : inv ls s → ctx_done s = false →
  steps step s ls' s' → Forall (λ l, internal l = true) ls' →
  length ls' + work s' ≤ work s ∧ inv (ls ++ ls') s' ∧ ctx_done s' = false ∧ (ls' ≠ [] → crashed s' = false).
Proof.
  intros HI Hd Hsteps. revert ls HI Hd. induction Hsteps as [s|s1 l s2 ls' s3 H1 Hs IH]; intros ls HI Hd Hint.
  { rewrite (right_id_L [] (++)). split_and!; [cbn; lia|done|done|done]. }
  apply Forall_cons in Hint as [Hl Hint]. pose proof (sized_alive Hsized _ _ _ _ HI H1) as Hc.
  destruct (work_decreases _ _ _ _ HI H1 Hc Hd Hl) as [Hw Hd2].
  assert (HI2 : inv (ls ++ [l]) s2) by (inversion H1; subst; by eapply inv_kept).
  destruct (IH _ HI2 Hd2 Hint) as (Hlen & HI3 & Hd3 & Hc3). rewrite <-(assoc_L (++)) in HI3.
  split_and!; [cbn; lia|done|done|]. intros _. destruct ls'; [by inversion Hs; subst|by apply Hc3].
Qed.

(** A state in which nothing can move has answered every call. *)
Lemma stuck_answered (Hsized : sized_executor) ls s : inv ls s → ctx_done s = false → crashed s = false →
  (∀ l s', step s l s' → internal l = false) → ∀ id c, callers s !! id = Some c → ∃ res, c = Returned res.
Proof.
  intros HI Hd Hc Hstuck.
  assert (Hno : ∀ l s', moves s l s' → internal l = false) by (intros l s' Hm; eapply Hstuck; by constructor).
  assert (Hw : workers s = []).
  { destruct (workers s) as [|[batch|[|[id r] results] over] l2] eqn:Hw; [done|exfalso..].
    - destruct (Hsized (map input batch)) as [[outputs Hex] _].
      by specialize (Hno _ _ (execute _ _ s [] batch l2 outputs Hw Hex)).
    - destruct over; [|by specialize (Hno _ _ (finish _ _ s [] l2 Hw))]. by specialize (Hno _ _ (panics _ _ s [] l2 Hw)).
    - assert (Hid : id ∈ (undelivered s).*1).
      { unfold undelivered. rewrite Hw. cbn. by left. }
      by specialize (Hno _ _ (deliver _ _ s [] id r results over l2 Hw (i_room _ _ HI id Hid))). }
  assert (Hr : run_at s = Selecting).
  { destruct (run_at s) as [|n| |[|b bs]| |] eqn:Hr; [done|exfalso..].
    - by specialize (Hno _ _ (window_ends _ _ s n Hr)).
    - by specialize (Hno _ _ (swap _ _ s _ Hr (reflexivity _))).
    - by specialize (Hno _ _ (loop _ _ s Hr)).
    - assert (Hst : can_start options s = true).
      { unfold can_start, worker_limit. rewrite Hw. cbn. apply orb_true_iff. rewrite !Z.ltb_lt. destruct (Z.eqb_spec (MaxRequestWorkers options) 0); lia. }
      by specialize (Hno _ _ (dispatch _ _ s b bs Hr Hst)).
    - pose proof (i_stopping _ _ HI (or_introl Hr)). congruence.
    - pose proof (i_stopping _ _ HI (or_intror Hr)). congruence. }
  assert (Ht : trigger s = false).
  { destruct (trigger s) eqn:Ht; [exfalso|done]. by specialize (Hno _ _ (open_window _ _ s Hr Ht)). }
  assert (Htrig : ∀ id, callers s !! id ≠ Some Triggering).
  { intros id Hid. by specialize (Hno _ _ (send_trigger _ _ s id Hid Ht)). }
  intros id c Hid. destruct c as [| |res]; [by destruct (Htrig id)| |by eexists]. exfalso.
  destruct (i_outstanding _ _ HI id (or_intror Hid)) as [Hin|[Hin|[r Hin]]].
  - assert (He : requests s = ∅).
    { destruct (i_awake _ _ HI) as [|[|[[i Hi]|Hm]]]; [done|congruence|by destruct (Htrig i)|by rewrite Hr in Hm]. }
    revert Hin. unfold unexecuted, batches, pending. rewrite He, Hr, Hw, map_to_list_empty. cbn. by apply not_elem_of_nil.
  - revert Hin. unfold undelivered. rewrite Hw. cbn. by apply not_elem_of_nil.
  - by specialize (Hno _ _ (receive _ _ s id r Hid Hin)).
Qed.

(** C34. With an executor that answers, no call of [Add] waits for ever while the
    context lasts: from any reachable state every execution without new calls
    is finite, with a bound in the work left, and when nothing can move any more
    every call has returned.  No trigger is lost, and no interleaving blocks. *)
Theorem every_add_returns ls s
    (Hsized : sized_executor) (Hreach : steps step NewBatcher ls s) (Halive : crashed s = false)
    (Hcontext : ctx_done s = false) :
  ∀ ls' s', steps step s ls' s' → Forall (λ l, internal l = true) ls' →
    length ls' ≤ work s ∧
    ((∀ l s'', step s' l s'' → internal l = false) →
       ∀ id c, callers s' !! id = Some c → ∃ res, c = Returned res).
Proof.
  intros ls' s' Hsteps Hint. pose proof (inv_reachable _ _ Hreach Halive) as HI.
  destruct (internal_steps Hsized _ _ _ _ HI Hcontext Hsteps Hint) as (Hlen & HI' & Hd' & Hc').
  split; [lia|]. apply (stuck_answered Hsized _ _ HI' Hd'). destruct ls'; [by inversion Hsteps; subst|by apply Hc'].
Qed.

(** *** Shutdown *)
Definition stopping s : Prop := run_at s = Draining ∨ run_at s = Stopped.

(** A call whose request is still in the map when the runner leaves its loop
    never returns: [Add] looks neither at its own context nor at the
    batcher's. *)
Theorem stopped_never_answers ls s r
    (Hreach : steps step NewBatcher ls s) (Halive : crashed s = false)
    (Hstopping : stopping s) (Hpending : r ∈ pending (requests s)) :
  ∀ ls' s', steps step s ls' s' → ∀ res, callers s' !! requestor r ≠ Some (Returned res).
Proof.
  intros ls' s' Hsteps res Hres.
  enough (Hgen : unreturned s' (requestor r)) by (destruct Hgen; congruence).
  pose proof (inv_reachable _ _ Hreach Halive) as HI.
  set (I := λ ls' s', stopping s' ∧ r ∈ pending (requests s') ∧
    unreturned s' (requestor r) ∧ (crashed s' = false → inv (ls ++ ls') s')).
  enough (Hall : I ls' s') by (destruct Hall as (_ & _ & Hu & _); exact Hu). apply (steps_trace_invariant step I s ls' s'); [|done|].
  - intros ls1 s1 l s2 (Hst1 & Hp1 & Hu1 & HI1) Hstep. inversion Hstep as [? ? ? Hc Hm]; subst. specialize (HI1 Hc).
    assert (Hp2 : r ∈ pending (requests s2)).
    { unfold stopping in Hst1. destruct Hm; try exact Hp1; [|by destruct Hst1; congruence].
      cbn [requests set_caller set_requests]. rewrite pending_register. by right. }
    assert (HI2 : crashed s2 = false → inv (ls ++ ls1 ++ [l]) s2).
    { intros Hc2. rewrite (assoc_L (++)). by eapply inv_kept. }
    split_and!; [|done| |done].
    + unfold stopping in *. destruct Hm; cbn; try done; try (destruct Hst1; congruence); auto.
    + destruct (crashed s2) eqn:Hc2.
      * destruct Hm; try exact Hu1; exfalso; cbn in Hc2; congruence.
      * apply (i_waiting _ _ (HI2 eq_refl)). apply elem_of_app. by left.
  - split_and!; [done|done| |intros _; by rewrite (right_id_L [] (++))].
    apply (i_waiting _ _ HI). apply elem_of_app. by left.
Qed.
End spec.

(** ** An example

    Two calls share a window and a batch; a third one comes when the runner has
    left its loop. *)
Local Open Scope string_scope.

Definition lengths_options : @Options string :=
  {| MaxItems := 2; MaxRequestWorkers := 0;
     RequestHasher := λ x, if String.eqb x "" then Err (GoErrors.New "empty") else Ok 0%Z |}.
Definition lengths (inputs : list string) : list (@Result nat) :=
  map (λ x, {| Output := Some (String.length x); Err_ := None |}) inputs.
Definition lengths_executor (inputs : list string) (outputs : list (@Result nat)) : Prop := outputs = lengths inputs.

Lemma lengths_sized : sized_executor lengths_executor.
Proof.
  intros inputs. split; [by eexists|]. intros outputs ->. unfold lengths. by rewrite length_map.
Qed.

Local Abbreviation example_step := (step lengths_options lengths_executor).

(** The step of a rule. *)
Local Tactic Notation "go" uconstr(rule) :=
  eapply steps_cons; [apply step_moves; [reflexivity|eapply rule; vm_compute; reflexivity]|].

Lemma example_batch : ∃ ls s, steps example_step NewBatcher ls s ∧ crashed s = false ∧ ctx_done s = false ∧
  callers s !! 1 = Some (Returned {| Output := Some 2; Err_ := None |}) ∧ run_at s = Selecting ∧
  size (callers s) = 2 ∧ requests s = ∅.
Proof.
  eexists _, _. split.
  - go (add _ _ _ 0 "a").
    go (add _ _ _ 1 "bb").
    go (send_trigger _ _ _ 0).
    go open_window.
    go (send_trigger _ _ _ 1).
    go count_trigger. go window_ends.
    eapply steps_cons; [apply step_moves; [reflexivity|eapply swap; [reflexivity|vm_compute; reflexivity]]|].
    go dispatch. go loop.
    go (execute _ _ _ []).
    go (deliver _ _ _ []).
    go (deliver _ _ _ []).
    go (finish _ _ _ []).
    go (receive _ _ _ 1).
    constructor.
  - vm_compute. split_and!; reflexivity.
Qed.

Lemma answers_are_own_witness : ∃ ls s x, steps example_step NewBatcher ls s ∧ Add 1 x ∈ ls ∧
  callers s !! 1 = Some (Returned {| Output := Some 2; Err_ := None |}).
Proof.
  destruct example_batch as (ls & s & Hs & Hc & _ & Hr & _).
  destruct (answers_are_own _ _ ls s 1 _ Hs Hc Hr) as (_ & x & Hx & _). exists ls, s, x. exact (conj Hs (conj Hx Hr)).
Defined.

Lemma every_add_returns_witness : ∃ ls s, steps example_step NewBatcher ls s ∧ size (callers s) = 2 ∧
  ∀ ls' s', steps example_step s ls' s' → Forall (λ l, internal l = true) ls' → (length ls' ≤ work s)%nat.
Proof.
  destruct example_batch as (ls & s & Hs & Hc & Hd & _ & _ & Hsize & _). exists ls, s. split; [exact Hs|]. split; [exact Hsize|].
  intros ls' s' Hs' Hint. exact (proj1 (every_add_returns _ _ ls s lengths_sized Hs Hc Hd ls' s' Hs' Hint)).
Defined.

Lemma example_stopped : ∃ ls s r, steps example_step NewBatcher ls s ∧ crashed s = false ∧ stopping s ∧
  pending (requests s) = [r] ∧ requestor r = 7.
Proof.
  eexists _, _, _. split.
  - eapply steps_cons; [apply step_moves; [reflexivity|apply context_ends]|].
    go stop. go return_.
    go (add _ _ _ 7 "late").
    go (send_trigger _ _ _ 7).
    constructor.
  - split; [reflexivity|]. split; [by right|]. split; vm_compute; reflexivity.
Qed.

Lemma stopped_never_answers_witness : ∃ ls s, steps example_step NewBatcher ls s ∧
  ∀ ls' s', steps example_step s ls' s' → ∀ res, callers s' !! 7 ≠ Some (Returned res).
Proof.
  destruct example_stopped as (ls & s & r & Hs & Hc & Hst & Hp & Hid). exists ls, s. split; [exact Hs|].
  rewrite <-Hid. apply (stopped_never_answers _ _ ls s r Hs Hc Hst). rewrite Hp. by left.
Defined.
