(* ===== verification/Pricing.v ===== *)
(** * Pricing: the prices of the instance types

    [pkg/batcher/getpricing.go], the executor that turns a batch into one request
    per catalog entry, and [pkg/providers/common/pricing/ibm_provider.go], the
    prices the provider keeps and their refresh.  A critical section of the
    provider's mutex is one call, [Atomically], that carries what is done in it;
    its clock gives the readings of the time in it.  Metrics and logs are left
    out. *)
From stdpp Require Import prelude list strings gmap.
From Stdlib Require Import SpecFloat.
From S2P Require Import Prelude GoLib GoSort GoFloat Errors Prog GoWait Kube Batcher InstanceTypes.

Local Open Scope string_scope.
Local Open Scope Z_scope.
Local Open Scope prog_scope.

(** ** The answer of the catalog *)
Record AmountPrice := { ap_Price : option spec_float }.
Record Amount := { Currency : option string; Prices : list AmountPrice }.
Record Metric := { Amounts : list Amount }.
Record PricingGet := { Metrics : list Metric }.

(** ** The executor of a batch *)
Inductive catalog_call : Type → Type :=
  | CatalogGetPricing (catalogEntryID region : string) : catalog_call (option PricingGet * err).

Local Abbreviation price_result := (@Result PricingGet).

Definition nil_entry : price_result :=
  {| Output := None; Err_ := Some (GoErrors.New "nil catalog entry ID provided") |}.
Definition result_of (answer : option PricingGet * err) : price_result :=
  {| Output := fst answer; Err_ := snd answer |}.

Section executor.
Context `{MapRange} (region : string).

(** [groups]: the places of each entry, and the results so far: an error at the
    place of a nil input. *)
Fixpoint group_inputs (i : nat) (inputs : list (option string)) (groups : gmap string (list nat))
    (results : list price_result) : gmap string (list nat) * list price_result :=
  match inputs with
  | [] => (groups, results)
  | None :: inputs' => group_inputs (S i) inputs' groups (<[i := nil_entry]> results)
  | Some id :: inputs' => group_inputs (S i) inputs' (<[id := (default [] (groups !! id) ++ [i])%list]> groups) results
  end.

(** One request for each group, its answer at each of its places. *)
Fixpoint price_groups (groups : list (string * list nat)) (results : list price_result)
    : prog catalog_call (list price_result) :=
  match groups with
  | [] => Ret results
  | (catalogEntryID, indices) :: groups' =>
      answer ⟵ CatalogGetPricing catalogEntryID region;
      price_groups groups' (foldl (λ results i, <[i := result_of answer]> results) results indices)
  end.

Definition execPricingBatch (inputs : list (option string)) : prog catalog_call (list price_result) :=
  let results := replicate (length inputs) {| Output := None; Err_ := None |} in
  match inputs with
  | [] => Ret results
  | _ =>
      let '(groups, results) := group_inputs 0 inputs ∅ results in
      price_groups (map_range (map_to_list groups)) results
  end.

(** [pricingHasher] over the hash of the library. *)
Definition pricingHasher (Hash : string → result GoErrors.error Z) (catalogEntryID : option string)
    : result GoErrors.error Z :=
  match catalogEntryID with None => Ok 0 | Some id => Hash id end.

Definition pricing_options (Hash : string → result GoErrors.error Z) : @Options (option string) :=
  {| MaxItems := 200; MaxRequestWorkers := 0; RequestHasher := pricingHasher Hash |}.
End executor.

(** ** The provider *)
Record CatalogEntry := { ce_ID : option string; ce_Name : option string }.

(** What the mutex protects. *)
Record prices := {
  pricingMap : gmap string (gmap string spec_float);
  lastUpdate : Z;
}.

Inductive price_call : Type → Type :=
  | CacheGet (key : string) : price_call (option spec_float)
  | CacheSet (key : string) (price : spec_float) : price_call unit
  | Atomically {A : Type} (section : GoTime.clock → prices → A * prices) : price_call A
  | GetCatalogClient : price_call err
  | ListCatalogTypes : price_call (result GoErrors.error (list CatalogEntry))
  | PriceVPCClient : price_call (result GoErrors.error bool)
  | PriceRegionZones (region : string) :
      price_call (result GoErrors.error (option (option (list (option string)))))
  | BatcherGetPricing (catalogEntryID : string) : price_call (option PricingGet * err).

Local Abbreviation pp A := (prog price_call (result failure A)).
Definition price_failed {A} (message : string) : pp A := Ret (Err (Failed (GoErrors.New message))).
Definition price_failed_with {A} (prefix : string) (e : GoErrors.error) : pp A :=
  Ret (Err (Failed (wrapped_ prefix e))).

Record IBMPricingProvider := {
  has_client : bool;
  price_region : string;
  has_batcher : bool;
  price_ttl : Z;
}.

(** ** The price in an answer *)

(** The prices of the innermost loop, with the currency of their amount: a price
    in dollars ends the search, the first of another currency is kept. *)
Fixpoint scan_prices (usd : bool) (l : list AmountPrice) (fallbackPrice : option spec_float)
    : option spec_float + option spec_float :=
  match l with
  | [] => inr fallbackPrice
  | priceObj :: l' =>
      match ap_Price priceObj with
      | None => scan_prices usd l' fallbackPrice
      | Some price =>
          if usd then inl (Some price)
          else scan_prices usd l' (match fallbackPrice with None => Some price | Some _ => fallbackPrice end)
      end
  end.

Fixpoint scan_amounts (l : list Amount) (fallbackPrice : option spec_float) : option spec_float + option spec_float :=
  match l with
  | [] => inr fallbackPrice
  | amount :: l' =>
      match scan_prices (bool_decide (Currency amount = Some "USD")) (Prices amount) fallbackPrice with
      | inl price => inl price
      | inr fallbackPrice => scan_amounts l' fallbackPrice
      end
  end.

Fixpoint scan_metrics (l : list Metric) (fallbackPrice : option spec_float) : option spec_float :=
  match l with
  | [] => fallbackPrice
  | metric :: l' =>
      match scan_amounts (Amounts metric) fallbackPrice with
      | inl price => price
      | inr fallbackPrice => scan_metrics l' fallbackPrice
      end
  end.

Section provider.
Context (p : IBMPricingProvider).

Definition fetchPricingFromAPI (catalogEntryID : string) : pp spec_float :=
  if negb (has_batcher p) then price_failed "pricing batcher not initialized"
  else
    answer ⟵ BatcherGetPricing catalogEntryID;
    match answer with
    | (_, Some e) => price_failed_with "calling GetPricing API" e
    | (None, None) => Ret (Err Panicked)
    | (Some pricingData, None) =>
        match scan_metrics (Metrics pricingData) None with
        | Some price => Ret (Ok price)
        | None => price_failed "no pricing data found in API response"
        end
    end.

(** The name is set where this is called. *)
Definition fetchInstancePricing (name : string) (entry : CatalogEntry) : pp spec_float :=
  match ce_ID entry with
  | None => price_failed "catalog entry ID is nil"
  | Some catalogEntryID =>
      bind (fetchPricingFromAPI catalogEntryID) (λ price,
      match price with
      | Ok price => Ret (Ok price)
      | Err (Failed e) => price_failed_with ("fetching pricing for " ++ name) e
      | Err Panicked => Ret (Err Panicked)
      end)
  end.

Definition pricing_zones (region : string) : pp (list string) :=
  answer ⟵ PriceVPCClient;
  match answer with
  | Err e => price_failed_with "getting VPC client" e
  | Ok false => price_failed "VPC SDK client not available"
  | Ok true =>
      answer ⟵ PriceRegionZones region;
      match answer with
      | Err e => price_failed_with ("listing zones for region " ++ region) e
      | Ok None | Ok (Some None) => price_failed ("no zones found for region " ++ region)
      | Ok (Some (Some zones)) =>
          match zone_names zones with
          | [] => price_failed ("no zones found for region " ++ region)
          | names => Ret (Ok names)
          end
      end
  end.

Definition zone_prices (zones : list string) (price : spec_float) : gmap string spec_float :=
  foldl (λ m zone, <[zone := price]> m) ∅ zones.

(** The loop over the entries. *)
Fixpoint price_entries (zones : list string) (entries : list CatalogEntry)
    (m : gmap string (gmap string spec_float)) : pp (gmap string (gmap string spec_float)) :=
  match entries with
  | [] => Ret (Ok m)
  | entry :: entries' =>
      match ce_Name entry with
      | None => price_entries zones entries' m
      | Some name =>
          bind (fetchInstancePricing name entry) (λ price,
          match price with
          | Err Panicked => Ret (Err Panicked)
          | Err (Failed _) => price_entries zones entries' m
          | Ok price => price_entries zones entries' (<[name := zone_prices zones price]> m)
          end)
      end
  end.

Definition fetchPricingData : pp (gmap string (gmap string spec_float)) :=
  if negb (has_client p) then price_failed "IBM client not initialized"
  else
    e ⟵ GetCatalogClient;
    match e with
    | Some e => price_failed_with "getting catalog client" e
    | None =>
        answer ⟵ ListCatalogTypes;
        match answer with
        | Err e => price_failed_with "listing instance types" e
        | Ok instanceTypes =>
            bind (pricing_zones (price_region p)) (λ zones,
            match zones with
            | Ok zones => price_entries zones instanceTypes ∅
            | Err (Failed e) => price_failed_with ("getting zones for region " ++ price_region p) e
            | Err Panicked => Ret (Err Panicked)
            end)
        end
    end.

(** [time.Since(p.lastUpdate) > p.ttl] *)
Definition stale (now : Z) (s : prices) : bool := price_ttl p <? GoTime.Sub now (lastUpdate s).

(** The last critical section of [Refresh]. *)
Definition store_prices (newPricingMap : gmap string (gmap string spec_float)) (clk : GoTime.clock) (s : prices)
    : unit * prices :=
  if negb (stale (clk 0%nat) s) then (tt, s)
  else (tt, {| pricingMap := newPricingMap; lastUpdate := clk 1%nat |}).

Definition Refresh : pp unit :=
  is_stale ⟵ Atomically (λ clk s, (stale (clk 0%nat) s, s));
  if negb is_stale then Ret (Ok tt)
  else if negb (has_client p) then price_failed "IBM client not available for pricing API calls"
  else
    bind fetchPricingData (λ newPricingMap,
    match newPricingMap with
    | Err (Failed e) => price_failed_with "failed to fetch pricing data from IBM Cloud API" e
    | Err Panicked => Ret (Err Panicked)
    | Ok newPricingMap => _u ⟵ Atomically (store_prices newPricingMap); Ret (Ok tt)
    end).

Definition price_key (instanceType zone : string) : string := "price:" ++ instanceType ++ ":" ++ zone.

Definition price_in (instanceType zone : string) (s : prices) : option spec_float :=
  match pricingMap s !! instanceType with Some zoneMap => zoneMap !! zone | None => None end.

(** The first critical section of [GetPrice]: stale, or the lookup. *)
Definition read_price {A} (lookup : prices → A) (clk : GoTime.clock) (s : prices) : option A * prices :=
  (if stale (clk 0%nat) s then None else Some (lookup s), s).

(** Both lookups: under a read lock that is given up for a refresh. *)
Definition read_fresh {A} (lookup : prices → A) : prog price_call (result failure A) :=
  first ⟵ Atomically (read_price lookup);
  match first with
  | Some found => Ret (Ok found)
  | None =>
      bind Refresh (λ refreshed,
      match refreshed with
      | Err Panicked => Ret (Err Panicked)
      | _ => found ⟵ Atomically (λ _ s, (lookup s, s)); Ret (Ok found)
      end)
  end.

Definition GetPrice (instanceType zone : string) : pp spec_float :=
  cached ⟵ CacheGet (price_key instanceType zone);
  match cached with
  | Some price => Ret (Ok price)
  | None =>
      found ←! read_fresh (price_in instanceType zone);
      match found with
      | Some price => _u ⟵ CacheSet (price_key instanceType zone) price; Ret (Ok price)
      | None => price_failed ("no pricing data available for instance type " ++ instanceType ++ " in zone " ++ zone)
      end
  end.

Definition prices_in (zone : string) (s : prices) : gmap string spec_float :=
  omap (λ zoneMap : gmap string spec_float, zoneMap !! zone) (pricingMap s).

Definition GetPrices (zone : string) : pp (gmap string spec_float) :=
  found ←! read_fresh (prices_in zone);
  if decide (found = ∅) then price_failed ("no pricing data available for zone " ++ zone) else Ret (Ok found).
End provider.
