(* ===== verification/PricingSpec.v ===== *)
(** * PricingSpec: what the prices are

    The executor answers every place of a batch with the answer for its own
    entry; the price of an answer; the prices a refresh stores; and the batcher
    with this executor. *)
From stdpp Require Import prelude list strings gmap.
From Stdlib Require Import SpecFloat.
From S2P Require Import Prelude GoLib GoSort GoFloat Errors Prog GoWait Kube Batcher BatcherSpec InstanceTypes Pricing.

Local Open Scope nat_scope.
Local Open Scope list_scope.

(** ** The price of an answer *)

(** The prices of an answer in order, with whether they are in dollars. *)
Definition prices_of (m : Metric) : list (bool * spec_float) :=
  Amounts m ≫= λ a, omap (λ o, pair (bool_decide (Currency a = Some "USD"%string)) <$> ap_Price o) (Prices a).

Definition quoted (ms : list Metric) : list (bool * spec_float) := ms ≫= prices_of.

Definition first_usd (l : list (bool * spec_float)) : option spec_float := snd <$> List.find fst l.

(** The first dollar price, or else the fallback, or else the first price. *)
Definition chosen (l : list (bool * spec_float)) (fallback : option spec_float) : option spec_float :=
  match first_usd l with
  | Some price => Some price
  | None => match fallback with Some f => Some f | None => snd <$> head l end
  end.

Lemma first_usd_app l l' :
  first_usd (l ++ l') = match first_usd l with Some price => Some price | None => first_usd l' end.
Proof. unfold first_usd. induction l as [|[[] price] l IH]; [done..|]. exact IH. Qed.

Lemma chosen_app l l' f :
  chosen (l ++ l') f = match first_usd l with Some price => Some price | None => chosen l' (chosen l f) end.
Proof.
  unfold chosen. rewrite first_usd_app. destruct (first_usd l); [done|]. destruct (first_usd l'); [done|].
  destruct f; [done|]. by destruct l.
Qed.

Definition scan_result (l : list (bool * spec_float)) (f : option spec_float) : option spec_float + option spec_float :=
  match first_usd l with Some price => inl (Some price) | None => inr (chosen l f) end.

Lemma scan_prices_spec usd l f :
  scan_prices usd l f = scan_result (omap (λ o, pair usd <$> ap_Price o) l) f.
Proof.
  revert f. induction l as [|[[price|]] l IH]; intros f; cbn; [by destruct f| |apply IH].
  destruct usd; [done|]. rewrite IH. unfold scan_result, chosen, first_usd. cbn.
  destruct (List.find _ _); [done|]. by destruct f.
Qed.

Lemma scan_amounts_spec l f :
  scan_amounts l f = scan_result (l ≫= λ a, omap (λ o, pair (bool_decide (Currency a = Some "USD"%string)) <$> ap_Price o) (Prices a)) f.
Proof.
  revert f. induction l as [|a l IH]; intros f; cbn; [by destruct f|]. rewrite scan_prices_spec.
  unfold scan_result. rewrite first_usd_app, chosen_app. destruct (first_usd _); [done|]. apply IH.
Qed.

Lemma scan_metrics_spec ms f : scan_metrics ms f = chosen (quoted ms) f.
Proof.
  revert f. induction ms as [|m ms IH]; intros f; cbn; [by destruct f|]. rewrite scan_amounts_spec, chosen_app.
  unfold scan_result. fold (prices_of m). destruct (first_usd (prices_of m)); [done|]. apply IH.
Qed.

(** ** The batch *)
Section executor.
Context `{MapRange} (region : string).

(** Where the groups put a place. *)
Definition group_of (groups : gmap string (list nat)) (j : nat) (id : string) : Prop := j ∈ default [] (groups !! id).

Lemma group_inputs_spec inputs : ∀ i groups results groups' results',
  group_inputs i inputs groups results = (groups', results') →
  length results' = length results ∧
  (∀ j id, group_of groups' j id ↔ group_of groups j id ∨ ∃ k, j = i + k ∧ inputs !! k = Some (Some id)) ∧
  (∀ k, i + k < length results → inputs !! k = Some None → results' !! (i + k) = Some nil_entry) ∧
  (∀ j, (∀ k, j = i + k → inputs !! k ≠ Some None) → results' !! j = results !! j).
Proof.
  induction inputs as [|[id|] inputs IH]; intros i groups results groups' results'; cbn [group_inputs].
  - intros [= <- <-]. split_and!; try done. intros j id. split; [by left|]. by intros [|(k & _ & ?)].
  - intros (Hlen & Hg & Hn & Ho)%IH. split_and!; [done| | |].
    + intros j id'. rewrite Hg. unfold group_of. destruct (decide (id = id')) as [<-|Hne].
      * rewrite lookup_insert_eq. cbn. rewrite elem_of_app, list_elem_of_singleton. split.
        { intros [[?| ->]|(k & -> & Hk)]; [by left|right; exists 0; split; [lia|done]|right; exists (S k); split; [lia|done]]. }
        intros [?|([|k] & -> & Hk)]; [by left; left|left; right; lia|right; exists k; split; [lia|done]].
      * rewrite lookup_insert_ne by done. split.
        { intros [?|(k & -> & Hk)]; [by left|right; exists (S k); split; [lia|done]]. }
        intros [?|([|k] & -> & Hk)]; [by left|cbn in Hk; congruence|right; exists k; split; [lia|done]].
    + intros [|k] Hk Hin; [done|]. rewrite <-Nat.add_succ_comm. apply Hn; [lia|done].
    + intros j Hj. apply Ho. intros k ->. apply (Hj (S k)). lia.
  - intros (Hlen & Hg & Hn & Ho)%IH. rewrite length_insert in Hlen, Hn. split_and!; [done| | |].
    + intros j id'. rewrite Hg. split.
      * intros [?|(k & -> & Hk)]; [by left|right; exists (S k); split; [lia|done]].
      * intros [?|([|k] & -> & Hk)]; [by left|done|right; exists k; split; [lia|done]].
    + intros [|k] Hk Hin; [|rewrite <-Nat.add_succ_comm; apply Hn; [lia|done]].
      rewrite Ho by (intros k Hk'; lia). rewrite Nat.add_0_r in *. by apply list_lookup_insert_eq.
    + intros j Hj. rewrite Ho by (intros k ->; apply (Hj (S k)); lia). apply list_lookup_insert_ne.
      intros ->. apply (Hj 0); [lia|done].
Qed.

Lemma group_inputs_nonempty inputs : ∀ i groups results,
  map_Forall (λ _ l, l ≠ []) groups → map_Forall (λ _ l, l ≠ []) (fst (group_inputs i inputs groups results)).
Proof.
  induction inputs as [|[id|] inputs IH]; intros i groups results Hg; cbn [group_inputs]; [done| |by apply IH].
  apply IH. apply map_Forall_insert_2; [|done]. by destruct (default _ _).
Qed.

(** One answer at each of its places. *)
Lemma fill_spec (r : @Result PricingGet) indices : ∀ results,
  let results' := foldl (λ results i, <[i := r]> results) results indices in
  length results' = length results ∧
  ∀ j, j < length results → results' !! j = if decide (j ∈ indices) then Some r else results !! j.
Proof.
  induction indices as [|i indices IH]; intros results; cbn [foldl]; [split; [done|]|].
  { intros j _. destruct (decide _) as [Hin|]; [by apply not_elem_of_nil in Hin|done]. }
  specialize (IH (<[i := r]> results)). cbv zeta in *. rewrite length_insert in IH. destruct IH as [Hlen Hl]. split; [done|].
  intros j Hj. rewrite Hl by done. destruct (decide (j ∈ indices)), (decide (j ∈ i :: indices)) as [Hin|Hin]; try done.
  - by destruct Hin; right.
  - apply elem_of_cons in Hin as [->|]; [|done]. by apply list_lookup_insert_eq.
  - apply list_lookup_insert_ne. intros ->. apply Hin. by left.
Qed.

(** The entries a run asked for. *)
Definition asked_entry (ev : event catalog_call) : string :=
  match ev with @Did _ R e _ => match e in catalog_call T return string with CatalogGetPricing id _ => id end end.

Lemma price_groups_runs groups : ∀ results tr outputs,
  (∀ id idx id' idx' j, (id, idx) ∈ groups → (id', idx') ∈ groups → j ∈ idx → j ∈ idx' → id = id') →
  NoDup groups.*1 → runs (price_groups region groups results) tr outputs →
  length outputs = length results ∧ map asked_entry tr = groups.*1 ∧
  (∀ j, (∀ id idx, (id, idx) ∈ groups → j ∉ idx) → outputs !! j = results !! j) ∧
  (∀ j id idx, (id, idx) ∈ groups → j ∈ idx → j < length results →
     ∃ answer, asked tr (CatalogGetPricing id region) answer ∧ outputs !! j = Some (result_of answer)).
Proof.
  induction groups as [|[id idx] groups IH]; intros results tr outputs Hdis Hnd; cbn [price_groups].
  { intros [-> <-]. split_and!; try done. by intros ? ? ? ?%not_elem_of_nil. }
  intros (answer & tr' & -> & Hr). cbn in Hnd. apply NoDup_cons in Hnd as [Hni Hnd].
  destruct (fill_spec (result_of answer) idx results) as [Hlen Hfill].
  apply IH in Hr as (Hlen' & Hids & Hout & Hin); [|intros i1 x1 i2 x2 j H1 H2; apply (Hdis i1 x1 i2 x2 j); by right|done]. rewrite Hlen in *.
  split_and!; [done|cbn; by rewrite Hids| |].
  - intros j Hj. rewrite Hout by (intros id' idx' Hg; apply (Hj id' idx'); by right).
    destruct (decide (j < length results)) as [Hlt|Hge].
    + rewrite Hfill by done. rewrite decide_False; [done|]. apply (Hj id idx). by left.
    + rewrite !lookup_ge_None_2; [done|lia|cbv zeta in Hlen; lia].
  - intros j id' idx' Hg Hj Hlt. apply elem_of_cons in Hg as [[= -> ->]|Hg].
    + exists answer. split; [by left|]. rewrite Hout.
      * rewrite Hfill by done. by rewrite decide_True.
      * intros id' idx' Hg Hj'. apply Hni. rewrite (Hdis id idx id' idx' j); [|by left|by right|done|done].
        apply list_elem_of_fmap. by exists (id', idx').
    + destruct (Hin j id' idx' Hg Hj Hlt) as (a & Ha & Ho). exists a. split; [by right|done].
Qed.

Definition answers_each (inputs : list (option string)) (tr : history catalog_call) (outputs : list (@Result PricingGet)) : Prop :=
  length outputs = length inputs ∧
  NoDup (map asked_entry tr) ∧ (∀ id, id ∈ map asked_entry tr ↔ Some id ∈ inputs) ∧
  ∀ i, match inputs !! i with
       | Some (Some id) => ∃ answer, asked tr (CatalogGetPricing id region) answer ∧ outputs !! i = Some (result_of answer)
       | Some None => outputs !! i = Some nil_entry
       | None => True
       end.

(** One result for each input, in order: the answer of the catalog for that
    input's own entry, an error for a missing one; each distinct entry is asked
    for once. *)
Lemma batch_runs inputs tr outputs (Hrun : runs (execPricingBatch region inputs) tr outputs) :
  answers_each inputs tr outputs.
Proof.
  unfold answers_each.
  destruct inputs as [|x inputs].
  { cbn in Hrun. destruct Hrun as [-> <-]. cbn. split_and!; [done|constructor|by intros id; rewrite !elem_of_nil|done]. }
  unfold execPricingBatch in Hrun. destruct (group_inputs 0 (x :: inputs) ∅ _) as [groups results] eqn:Eg.
  assert (Hne : map_Forall (λ _ l, l ≠ []) groups).
  { pose proof (group_inputs_nonempty (x :: inputs) 0 ∅ (replicate (length (x :: inputs)) {| Output := None; Err_ := None |})
      (map_Forall_empty _)) as Hne. by rewrite Eg in Hne. }
  apply group_inputs_spec in Eg as (Hlen & Hg & Hn & _). rewrite length_replicate in *.
  assert (Hgr : ∀ id idx, (id, idx) ∈ map_range (map_to_list groups) → ∀ j, j ∈ idx ↔ (x :: inputs) !! j = Some (Some id)).
  { intros id idx Hin%map_range_elem_of%elem_of_map_to_list j. specialize (Hg j id). unfold group_of in Hg. rewrite Hin in Hg. cbn in Hg.
    rewrite Hg. split; [|intros Hj; right; by exists j]. intros [Hj|(k & -> & Hk)]; [|done].
    rewrite lookup_empty in Hj. by apply not_elem_of_nil in Hj. }
  assert (Hex : ∀ i id, (x :: inputs) !! i = Some (Some id) → ∃ idx, (id, idx) ∈ map_range (map_to_list groups) ∧ i ∈ idx).
  { intros i id Hi. assert (Hin : group_of groups i id) by (apply Hg; right; by exists i). unfold group_of in Hin.
    destruct (groups !! id) as [idx|] eqn:El; cbn in Hin; [|by apply not_elem_of_nil in Hin].
    exists idx. split; [by apply map_range_elem_of, elem_of_map_to_list|done]. }
  apply price_groups_runs in Hrun as (Hlo & Hids & Hout & Hin);
    [|intros id idx id' idx' j H1 H2 H3 H4; apply (Hgr id idx H1) in H3; apply (Hgr id' idx' H2) in H4; congruence
     |rewrite map_range_perm; apply NoDup_fst_map_to_list].
  split_and!.
  - lia.
  - rewrite Hids, map_range_perm. apply NoDup_fst_map_to_list.
  - intros id. rewrite Hids, list_elem_of_fmap. split.
    + intros ([id' idx] & -> & Hi). pose proof Hi as Hl. apply map_range_elem_of, elem_of_map_to_list in Hl.
      specialize (Hne id' idx Hl). destruct idx as [|j idx]; [done|]. cbn.
      assert (Hj : (x :: inputs) !! j = Some (Some id')) by (apply (Hgr id' (j :: idx) Hi); by left).
      by eapply list_elem_of_lookup_2.
    + intros [i Hi]%list_elem_of_lookup. destruct (Hex i id Hi) as (idx & Hidx & _). by exists (id, idx).
  - intros i. destruct ((x :: inputs) !! i) as [[id|]|] eqn:Hi; [| |done].
    + destruct (Hex i id Hi) as (idx & Hidx & Hi'). apply (Hin i id idx Hidx Hi'). rewrite Hlen. by eapply lookup_lt_Some.
    + rewrite Hout; [apply (Hn i); [by eapply lookup_lt_Some|done]|]. intros id idx Hidx Hi'%(Hgr id idx Hidx). congruence.
Qed.

(** ** The batcher with this executor *)

(** What an execution may return for its inputs. *)
Definition pricing_executor (inputs : list (option string)) (outputs : list (@Result PricingGet)) : Prop :=
  ∃ tr, runs (execPricingBatch region inputs) tr outputs.

Definition no_answer (R : Type) (e : catalog_call R) (s : unit) : R * unit :=
  match e in catalog_call T return T * unit with CatalogGetPricing _ _ => ((None, None), s) end.

Lemma pricing_sized : sized_executor pricing_executor.
Proof.
  intros inputs. split.
  - eexists _, _. exact (interp_runs no_answer (execPricingBatch region inputs) tt).
  - intros outputs [tr Hrun]. apply batch_runs in Hrun as [-> _]. done.
Qed.

Context (Hash : string → result GoErrors.error Z).
Local Abbreviation pricing_step := (step (pricing_options Hash) pricing_executor).

(** A call of [GetPricing] that returns gives the answer of the catalog for its
    own entry, from a request of one execution, or the error of the hash; the
    process never panics, and while the context lasts every call returns. *)
Theorem pricing_is_own ls s
    (Hreach : steps pricing_step NewBatcher ls s) :
  crashed s = false ∧
  (∀ id res, callers s !! id = Some (Returned res) →
     (∃ entry, Add id (Some entry) ∈ ls ∧
        ((∃ e, Hash entry = Err e ∧ res = hashing_failed e) ∨
         ∃ batch outputs tr answer, Execute batch outputs ∈ ls ∧
           runs (execPricingBatch region (map input batch)) tr outputs ∧
           asked tr (CatalogGetPricing entry region) answer ∧ res = result_of answer)) ∨
     (Add id None ∈ ls ∧ res = nil_entry)) ∧
  (ctx_done s = false → (∀ l s', pricing_step s l s' → internal l = false) →
     ∀ id c, callers s !! id = Some c → ∃ res, c = Returned res).
Proof.
  destruct (sized_reachable _ _ pricing_sized _ _ Hreach) as [Halive HI]. split_and!; [done| |].
  - intros id res Hret. destruct (returned_own _ _ _ _ _ _ HI Hret) as ([entry|] & Hadd & [(e & He & ->)|Hown]); [| |done|].
    + left. exists entry. split; [done|]. left. by exists e.
    + left. exists entry. split; [done|]. right. destruct Hown as (batch & outputs & i & r & He & [tr Hrun] & Hi & _ & Hx & _ & _ & Hres).
      pose proof (batch_runs _ _ _ Hrun) as (Hlen & _ & _ & Hall). specialize (Hall i).
      rewrite list_lookup_fmap, Hi in Hall. cbn in Hall. rewrite Hx in Hall. destruct Hall as (answer & Ha & Ho).
      exists batch, outputs, tr, answer. split_and!; try done.
      rewrite length_map in Hlen. apply lookup_lt_Some in Hi. destruct Hres as [Hres|[Hle _]]; [congruence|lia].
    + right. split; [done|]. destruct Hown as (batch & outputs & i & r & He & [tr Hrun] & Hi & _ & Hx & _ & _ & Hres).
      pose proof (batch_runs _ _ _ Hrun) as (Hlen & _ & _ & Hall). specialize (Hall i).
      rewrite list_lookup_fmap, Hi in Hall. cbn in Hall. rewrite Hx in Hall.
      rewrite length_map in Hlen. apply lookup_lt_Some in Hi. destruct Hres as [Hres|[Hle _]]; [congruence|lia].
  - intros Hd. by apply (stuck_answered _ _ pricing_sized _ _ HI Hd).
Qed.
End executor.

(** ** A refresh *)
Section refresh.
Context (p : IBMPricingProvider).
Local Abbreviation history := (history price_call).

Lemma zone_prices_lookup zones price zone :
  zone_prices zones price !! zone = if decide (zone ∈ zones) then Some price else None.
Proof.
  unfold zone_prices. enough (Hgen : ∀ m : gmap string spec_float,
    foldl (λ m zone, <[zone := price]> m) m zones !! zone = if decide (zone ∈ zones) then Some price else m !! zone).
  { rewrite Hgen. by rewrite lookup_empty. }
  induction zones as [|z zones IH]; intros m; cbn [foldl].
  - by destruct (decide _) as [?%not_elem_of_nil|].
  - rewrite IH. destruct (decide (zone ∈ zones)), (decide (zone ∈ z :: zones)) as [Hin|Hin]; try done.
    + by destruct Hin; right.
    + apply elem_of_cons in Hin as [->|]; [|done]. by rewrite lookup_insert_eq.
    + rewrite lookup_insert_ne; [done|]. intros ->. apply Hin. by left.
Qed.

(** The price an answer for the entry has. *)
Definition priced_by (tr : history) (entry : CatalogEntry) (price : spec_float) : Prop :=
  ∃ id data, ce_ID entry = Some id ∧ asked tr (BatcherGetPricing id) (Some data, None) ∧
    chosen (quoted (Metrics data)) None = Some price.

(** The entry has no identity, or its answer is an error or has no price. *)
Definition unpriced_by (tr : history) (entry : CatalogEntry) : Prop :=
  match ce_ID entry with
  | None => True
  | Some id => ∃ answer, asked tr (BatcherGetPricing id) answer ∧
      match answer with
      | (_, Some _) => True
      | (Some data, None) => chosen (quoted (Metrics data)) None = None
      | (None, None) => False
      end
  end ∨ has_batcher p = false.

Lemma fetchInstancePricing_runs name entry tr r : runs (fetchInstancePricing p name entry) tr r →
  match r with
  | Ok price => priced_by tr entry price
  | Err (Failed _) => unpriced_by tr entry
  | Err Panicked => True
  end.
Proof.
  unfold fetchInstancePricing, priced_by, unpriced_by. destruct (ce_ID entry) as [id|]; [|intros [_ <-]; by left].
  intros (tr1 & tr2 & q & -> & Hq & Hr)%runs_bind. unfold fetchPricingFromAPI in Hq.
  destruct (has_batcher p) eqn:Eb; cbn [negb] in Hq; [|destruct Hq as [_ <-]; destruct Hr as [_ <-]; by right].
  destruct Hq as (answer & tr3 & -> & Hq). assert (Ha : asked (Did (BatcherGetPricing id) answer :: tr3 ++ tr2) (BatcherGetPricing id) answer) by by left.
  destruct answer as [[data|] [e|]]; [|rewrite scan_metrics_spec in Hq; destruct (chosen (quoted (Metrics data)) None) as [price|] eqn:Ec|..];
    destruct Hq as [-> <-]; destruct Hr as [-> <-].
  - left. by eexists.
  - by exists id, data.
  - left. by eexists.
  - left. by eexists.
  - done.
Qed.

Lemma priced_mono tr tr' tr'' entry price : priced_by tr' entry price → priced_by (tr ++ tr' ++ tr'') entry price.
Proof.
  intros (id & data & Hid & Ha & Hc). exists id, data. split_and!; [done| |done]. unfold asked in *. set_solver.
Qed.
Lemma unpriced_mono tr tr' tr'' entry : unpriced_by tr' entry → unpriced_by (tr ++ tr' ++ tr'') entry.
Proof.
  intros [Hu|]; [left|by right]. destruct (ce_ID entry); [|done]. destruct Hu as (answer & Ha & Hu). exists answer.
  split; [|done]. unfold asked in *. set_solver.
Qed.

Lemma price_entries_runs zones entries : ∀ m tr m', runs (price_entries p zones entries m) tr (Ok m') →
  (∀ name zm, m' !! name = Some zm → m !! name = Some zm ∨
     ∃ entry price, entry ∈ entries ∧ ce_Name entry = Some name ∧ priced_by tr entry price ∧ zm = zone_prices zones price) ∧
  (∀ entry name, entry ∈ entries → ce_Name entry = Some name → is_Some (m' !! name) ∨ unpriced_by tr entry) ∧
  (∀ name, is_Some (m !! name) → is_Some (m' !! name)).
Proof.
  induction entries as [|entry entries IH]; intros m tr m'; cbn [price_entries].
  { intros [_ [= <-]]. split_and!; [by left|by intros ? ? ?%not_elem_of_nil|done]. }
  destruct (ce_Name entry) as [name|] eqn:En.
  2: { intros (H1 & H2 & H3)%IH. split_and!; [|intros e' name' [->|Hin]%elem_of_cons Hn; [congruence|by eapply H2]|done].
       intros name zm [|(e' & price & He & Hn & Hp & Hz)]%H1; [by left|right]. exists e', price. by split_and!; [right|..]. }
  intros (tr1 & tr2 & r & -> & Hf%fetchInstancePricing_runs & Hr)%runs_bind.
  assert (Hnil : tr2 = tr2 ++ []) by by rewrite (right_id_L [] (++)).
  destruct r as [price|[e|]]; [| |by destruct Hr]; apply IH in Hr as (H1 & H2 & H3); split_and!.
  - intros name' zm [Hm|(e' & price' & He & Hn & Hp & Hz)]%H1.
    + apply lookup_insert_Some in Hm as [[<- <-]|[_ Hm]]; [right|by left]. exists entry, price.
      split_and!; [by left|done|by apply (priced_mono [] tr1 tr2)|done].
    + right. exists e', price'. split_and!; [by right|done| |done]. rewrite Hnil. by apply priced_mono.
  - intros e' name' [->|Hin]%elem_of_cons Hn.
    + left. apply H3. assert (name' = name) as -> by congruence. by rewrite lookup_insert_eq.
    + destruct (H2 e' name' Hin Hn) as [|Hu]; [by left|right]. rewrite Hnil. by apply unpriced_mono.
  - intros name' Hs. apply H3. destruct (decide (name = name')) as [->|]; [by rewrite lookup_insert_eq|by rewrite lookup_insert_ne].
  - intros name' zm [Hm|(e' & price' & He & Hn & Hp & Hz)]%H1; [by left|right].
    exists e', price'. split_and!; [by right|done| |done]. rewrite Hnil. by apply priced_mono.
  - intros e' name' [->|Hin]%elem_of_cons Hn; [right; by apply (unpriced_mono [] tr1 tr2)|].
    destruct (H2 e' name' Hin Hn) as [|Hu]; [by left|right]. rewrite Hnil. by apply unpriced_mono.
  - done.
Qed.

(** The prices of a refresh: every price is that of a catalog entry of the name,
    its first price in dollars or else its first price at all, the same in all
    the region's zones and in no other; and every entry with a name is priced, unless
    it has no identity or its answer was an error or without a price. *)
Theorem refreshed_prices_exact tr m (Hrun : runs (fetchPricingData p) tr (Ok m)) :
  ∃ entries listed, asked tr ListCatalogTypes (Ok entries) ∧
    asked tr (PriceRegionZones (price_region p)) (Ok (Some (Some listed))) ∧ zone_names listed ≠ [] ∧
    (∀ name zm, m !! name = Some zm → ∃ entry price, entry ∈ entries ∧ ce_Name entry = Some name ∧
       priced_by tr entry price ∧ ∀ zone, zm !! zone = if decide (zone ∈ zone_names listed) then Some price else None) ∧
    (∀ entry name, entry ∈ entries → ce_Name entry = Some name → is_Some (m !! name) ∨ unpriced_by tr entry).
Proof.
  revert Hrun. unfold fetchPricingData. destruct (has_client p); cbn [negb]; [|by intros [_ ?]].
  intros ([e|] & tr1 & -> & Hr); [by destruct Hr|]. destruct Hr as ([entries|e] & tr2 & -> & Hr); [|by destruct Hr].
  apply runs_bind in Hr as (tr3 & tr4 & [zones|[e|]] & -> & Hz & Hr); [|by destruct Hr..].
  unfold pricing_zones in Hz. cbn in Hz. destruct Hz as ([[]|e] & tr5 & -> & Hz); [|by destruct Hz..].
  destruct Hz as ([[[listed|]|]|e] & tr6 & -> & Hz); try by destruct Hz.
  destruct (zone_names listed) as [|z zs] eqn:Ez; [by destruct Hz|]. destruct Hz as [-> [= <-]].
  apply price_entries_runs in Hr as (H1 & H2 & _). exists entries, listed. rewrite Ez.
  set (pre := [Did GetCatalogClient None; Did ListCatalogTypes (Ok entries)] ++
    [Did PriceVPCClient (Ok true); Did (PriceRegionZones (price_region p)) (Ok (Some (Some listed)))]).
  assert (Htr : Did GetCatalogClient None :: Did ListCatalogTypes (Ok entries) ::
    [Did PriceVPCClient (Ok true); Did (PriceRegionZones (price_region p)) (Ok (Some (Some listed)))] ++ tr4 = pre ++ tr4 ++ [])
    by by rewrite (right_id_L [] (++)).
  rewrite Htr. clear Htr. split_and!.
  - unfold pre, asked. set_solver.
  - unfold pre, asked. set_solver.
  - done.
  - intros name zm [Hm|(entry & price & He & Hn & Hp & ->)]%H1; [by rewrite lookup_empty in Hm|].
    exists entry, price. split_and!; [done|done|by apply priced_mono|]. intros zone. apply zone_prices_lookup.
  - intros entry name He Hn. destruct (H2 entry name He Hn); [by left|right]. by apply unpriced_mono.
Qed.
End refresh.

(** ** Examples *)
Local Open Scope string_scope.

Definition dollars (n : Z) : PricingGet :=
  {| Metrics := [{| Amounts := [{| Currency := Some "EUR"; Prices := [{| ap_Price := Some (Float.of_int (n + 1)) |}] |};
                                {| Currency := Some "USD"; Prices := [{| ap_Price := None |}; {| ap_Price := Some (Float.of_int n) |}] |}] |}] |}.

Definition catalog (id : string) : option PricingGet * err :=
  if String.eqb id "id-bx2" then (Some (dollars 2), None)
  else if String.eqb id "id-cx2" then (Some (dollars 1), None)
  else (None, Some (GoErrors.New "no such entry")).

Definition catalog_answers (R : Type) (e : catalog_call R) (s : unit) : R * unit :=
  match e in catalog_call T return T * unit with CatalogGetPricing id _ => (catalog id, s) end.

Definition one_bucket (id : string) : result GoErrors.error Z := Ok 0%Z.

Local Abbreviation example_step := (step (pricing_options one_bucket) (pricing_executor "us-south")).

Local Tactic Notation "go" uconstr(rule) :=
  eapply steps_cons; [apply step_moves; [reflexivity|eapply rule; vm_compute; reflexivity]|].

(** Two entries of one hash share an execution. *)
Lemma example_prices : ∃ ls s, steps example_step NewBatcher ls s ∧
  callers s !! 1 = Some (Returned {| Output := Some (dollars 1); Err_ := None |}).
Proof.
  eexists _, _. split.
  - go (add _ _ _ 0 (Some "id-bx2")). go (add _ _ _ 1 (Some "id-cx2")).
    go (send_trigger _ _ _ 0). go open_window. go window_ends.
    eapply steps_cons; [apply step_moves; [reflexivity|eapply swap; [reflexivity|vm_compute; reflexivity]]|].
    go dispatch. go loop.
    eapply steps_cons; [apply step_moves; [reflexivity|eapply (execute _ _ _ []);
      [vm_compute; reflexivity|eexists; exact (interp_runs catalog_answers _ tt)]]|].
    go (deliver _ _ _ []). go (deliver _ _ _ []). go (send_trigger _ _ _ 1). go (receive _ _ _ 1). constructor.
  - vm_compute. reflexivity.
Qed.

Lemma pricing_is_own_witness : ∃ ls s, steps example_step NewBatcher ls s ∧ crashed s = false ∧
  callers s !! 1 = Some (Returned {| Output := Some (dollars 1); Err_ := None |}) ∧
  (ctx_done s = false → (∀ l s', example_step s l s' → internal l = false) →
     ∀ id c, callers s !! id = Some c → ∃ res, c = Returned res).
Proof.
  destruct example_prices as (ls & s & Hs & Hr). exists ls, s. split; [exact Hs|].
  destruct (pricing_is_own "us-south" one_bucket ls s Hs) as (Hc & _ & Hall). split; [exact Hc|]. split; [exact Hr|exact Hall].
Defined.

Definition example_provider : IBMPricingProvider :=
  {| has_client := true; price_region := "us-south"; has_batcher := true; price_ttl := 12 * 60 * GoTime.Minute |}.

Definition price_env (R : Type) (e : price_call R) (s : prices) : R * prices :=
  match e in price_call T return T * prices with
  | CacheGet _ => (None, s)
  | CacheSet _ _ => (tt, s)
  | Atomically f => f (λ n, Z.of_nat n) s
  | GetCatalogClient => (None, s)
  | ListCatalogTypes =>
      (Ok [{| ce_ID := Some "id-bx2"; ce_Name := Some "bx2-2x8" |}; {| ce_ID := None; ce_Name := Some "odd" |};
           {| ce_ID := Some "id-cx2"; ce_Name := None |}; {| ce_ID := Some "gone"; ce_Name := Some "mx2-2x16" |}], s)
  | PriceVPCClient => (Ok true, s)
  | PriceRegionZones _ => (Ok (Some (Some [Some "us-south-1"; Some "us-south-2"])), s)
  | BatcherGetPricing id => (catalog id, s)
  end.

Definition example_fetch := interp price_env (fetchPricingData example_provider) {| pricingMap := ∅; lastUpdate := 0 |}.

Lemma refreshed_prices_exact_witness : ∃ m, snd (fst example_fetch) = Ok m ∧
  (map_to_list m).*1 = ["bx2-2x8"] ∧ m !! "bx2-2x8" ≫= lookup "us-south-2" = Some (Float.of_int 2) ∧
  ∃ entries, asked (fst (fst example_fetch)) ListCatalogTypes (Ok entries) ∧ 
    ∀ entry name, entry ∈ entries → ce_Name entry = Some name → is_Some (m !! name) ∨
      unpriced_by example_provider (fst (fst example_fetch)) entry.
Proof.
  pose proof (interp_runs price_env (fetchPricingData example_provider) {| pricingMap := ∅; lastUpdate := 0 |}) as Hrun.
  fold example_fetch in Hrun.
  assert (Hval : match snd (fst example_fetch) with
    | Ok m => (map_to_list m).*1 = ["bx2-2x8"] ∧ m !! "bx2-2x8" ≫= lookup "us-south-2" = Some (Float.of_int 2)
    | Err _ => False end) by (vm_compute; split; reflexivity).
  destruct (snd (fst example_fetch)) as [m|e]; [|destruct Hval].
  exists m. split; [reflexivity|]. split; [exact (proj1 Hval)|]. split; [exact (proj2 Hval)|].
  destruct (refreshed_prices_exact example_provider _ m Hrun) as (entries & listed & He & _ & _ & _ & Hall).
  exists entries. split; [exact He|exact Hall].
Defined.
