(* ===== verification/VpcApi.v ===== *)
(** * VpcApi: what the VPC backend talks to

    Instances of the VPC API as the provider reads them, the prototype it
    creates them from, and the calls of [pkg/providers/vpc/instance].  A field
    reached through a pointer, or through a reference and the pointer in it,
    is an [option]: [None] when either is nil, which the code never tells
    apart. *)
From stdpp Require Import prelude list strings gmap.
From Stdlib Require Import Ascii.
From S2P Require Import Prelude GoLib Errors NodeClass Prog Kube.

Open Scope string_scope.

Record Instance := {
  inst_ID : option string;
  inst_Name : option string;
  inst_Status : option string;
  inst_CRN : option string;
  inst_Profile : option string;
  inst_Zone : option string;
  inst_VPC : option string;
  inst_Image : option string;
  inst_ResourceGroup : option string;
  PrimaryNetworkAttachment : option string;   (* the subnet's ID *)
  PrimaryNetworkInterface : option string;    (* the subnet's ID *)
  AvailabilityClass : option string;
  CreatedAt : option Z;
  StatusReasons : list (option string);   (* the codes *)
}.

Definition InstanceStatusDeletingConst : string := "deleting".

(** [subnet.SubnetInfo] *)
Record SubnetInfo := {
  sub_ID : string;
  sub_Zone : string;
  CIDR : string;
  AvailableIPs : Z;
  sub_Tags : gmap string string;
  sub_State : string;
  TotalIPCount : Z;
  UsedIPCount : Z;
  ReservedIPCount : Z;
}.

(** ** The prototype of an instance *)
Record VolumePrototype := {
  vol_Name : string;
  vol_Capacity : option Z;
  vol_Profile : option string;
  vol_Iops : option Z;
  vol_Bandwidth : option Z;
  vol_EncryptionKey : option string;
  UserTags : list string;
}.

Record VolumeAttachment := {
  att_Name : option string;
  att_Volume : VolumePrototype;
  DeleteVolumeOnInstanceDelete : bool;
}.

Record VNIPrototype := {
  vni_Subnet : string;
  EnableInfrastructureNat : bool;
  AllowIPSpoofing : bool;
  ProtocolStateFilteringMode : string;
  vni_Name : string;
  AutoDelete : bool;
  vni_ResourceGroup : option string;
  vni_SecurityGroups : list string;
}.

(** [AvailabilityPolicy]: on host failure, or on preemption of a spot
    instance. *)
Inductive Policy :=
  | HostFailure (policy : string)
  | Preemption (policy : string).

Record InstancePrototype := {
  proto_Image : string;
  proto_Zone : string;
  AttachmentName : string;
  VirtualNetworkInterface : VNIPrototype;
  proto_VPC : string;
  proto_Name : string;
  proto_Profile : string;
  BootVolumeAttachment : VolumeAttachment;
  Availability : option string;
  AvailabilityPolicy : Policy;
  ReservationAffinity : option string;
  proto_PlacementTarget : option string;
  proto_ResourceGroup : option string;
  Keys : list string;
  proto_UserData : string;
  VolumeAttachments : list VolumeAttachment;
  MetadataService : option (bool * string * Z);   (* enabled, protocol, hop limit *)
}.

(** ** Calls *)

(** The calls to the VPC API carry the region of the client they are made
    with. *)
Inductive vpc_call : Type → Type :=
  (* Kubernetes *)
  | KGetClaim (name : string) : vpc_call (result GoErrors.error NodeClaim)
  | KGetClass (name : string) : vpc_call (result GoErrors.error IBMNodeClass)
  | KGetNamespace (name : string) : vpc_call (result GoErrors.error ObjectMeta)
  | KListNodes : vpc_call (result GoErrors.error (list Node))
  | KPatchClaim (stored fresh : NodeClaim) : vpc_call (result GoErrors.error NodeClaim)
  | KDeleteNode (node : Node) (uid : string) : vpc_call err
  (* the VPC API *)
  | ClientForRegion (region : string) : vpc_call err
  | ResolveAccount (region : string) : vpc_call (result GoErrors.error string)
  | ListInstancesByName (region name : string) : vpc_call (result GoErrors.error (list Instance))
  | ListInstances (region : string) : vpc_call (result GoErrors.error (list Instance))
  | GetInstance (region id : string) : vpc_call (option Instance * err)
  | CreateInstance (region : string) (prototype : InstancePrototype) : vpc_call (option Instance * err)
  | DeleteInstance (region id : string) : vpc_call err
  | UpdateInstanceTags (region id : string) (tags : gmap string string) : vpc_call err
  | GetDefaultSecurityGroup (region vpc : string)
      : vpc_call (result GoErrors.error (option string))   (* its ID *)
  | ValidateCreateInstance (region : string) (prototype : InstancePrototype) : vpc_call err
  (* building a prototype with the SDK client of the region, [None] when it is
     not one *)
  | SDKBuilder (region : string) : vpc_call (option err)
  (* other providers and services *)
  | GetResourceGroupIDByName (name : string) : vpc_call (result GoErrors.error string)
  | GetSubnet (id : string) : vpc_call (result GoErrors.error SubnetInfo)
  | SelectSubnets (vpc : string) (strategy : PlacementStrategy)
      : vpc_call (result GoErrors.error (list SubnetInfo))
  | ListSubnets (vpc : string) : vpc_call (result GoErrors.error (list SubnetInfo))
  | ResolveImage (region image : string) : vpc_call (result GoErrors.error string)
  | ResolveImageBySelector (region : string) (selector : ImageSelector)
      : vpc_call (result GoErrors.error string)
  (* the bootstrap provider, made on first use; its script *)
  | BootstrapProvider : vpc_call err
  | GetUserData (nodeClass : IBMNodeClass) (claim profile : string)
      : vpc_call (result GoErrors.error string)
  (* the process: the instance cache, the clock, [rand.IntN] *)
  | CacheGet (id : string) : vpc_call (option Node)
  | CacheSet (id : string) (node : Node) : vpc_call unit
  | CacheDelete (id : string) : vpc_call unit
  | VNow : vpc_call Z
  | IntN (n : nat) : vpc_call nat.
