(* ===== verification/Subnets.v ===== *)
(** * Subnets: the choice of subnets

    [pkg/providers/vpc/subnet/provider.go]: the subnets of a VPC as the
    provider caches them, their scores, and the selection of a placement
    strategy. *)
From stdpp Require Import prelude list strings gmap sorting.
From Stdlib Require Import Ascii SpecFloat.
From S2P Require Import Prelude GoLib GoSort GoFloat Errors NodeClass ProviderIDs Prog Kube VpcApi.
Import Strings.

Open Scope string_scope.
Open Scope nat_scope.
Open Scope prog_scope.

(** ** The calls of the provider *)

(** [vpcv1.Subnet]; the zone is its name. *)
Record VpcSubnet := {
  vs_ID : option string;
  vs_Zone : option string;
  Ipv4CIDRBlock : option string;
  vs_Status : option string;
  TotalIpv4AddressCount : option Z;
  AvailableIpv4AddressCount : option Z;
}.

(** What the provider puts in its cache. *)
Inductive cached_subnets :=
  | CachedList (subnets : list SubnetInfo)
  | CachedOne (subnet : SubnetInfo).

Inductive subnet_call : Type → Type :=
  | SubnetCacheGet (key : string) : subnet_call (option cached_subnets)
  | SubnetCacheSet (key : string) (value : cached_subnets) : subnet_call unit
  | SubnetCacheSetWithTTL (key : string) (value : cached_subnets) (ttl : Z) : subnet_call unit
  | GetVPCClient : subnet_call err
  | VPCListSubnets (vpc : string) : subnet_call (result GoErrors.error (list VpcSubnet))
  | VPCGetSubnet (id : string) : subnet_call (result GoErrors.error VpcSubnet)
  (* the subnet of the primary network interface, and its ID *)
  | VPCGetInstance (id : string) : subnet_call (result GoErrors.error (option (option string)))
  | ListNodes : subnet_call (result GoErrors.error (list Node))
  | CtxErr : subnet_call err.

Local Abbreviation sub A := (prog subnet_call (result GoErrors.error A)).

(** ** Subnets of the API *)

(** The conversion [int32(z)]. *)
Definition int32 (z : Z) : Z := ((z + 2 ^ 31) mod 2 ^ 32 - 2 ^ 31)%Z.

Definition convertVPCSubnetToSubnetInfo (s : VpcSubnet) : option SubnetInfo :=
  match vs_ID s, vs_Zone s, Ipv4CIDRBlock s, vs_Status s with
  | Some id, Some zone, Some cidr, Some status =>
      let total := default 0%Z (int32 <$> TotalIpv4AddressCount s) in
      let available := default 0%Z (int32 <$> AvailableIpv4AddressCount s) in
      Some {| sub_ID := id; sub_Zone := zone; CIDR := cidr; AvailableIPs := available; sub_Tags := ∅;
              sub_State := status; TotalIPCount := total; UsedIPCount := int32 (total - available);
              ReservedIPCount := 0 |}
  | _, _, _, _ => None
  end.

Section subnets.
Context `{SliceSorter}.

(** The provider value: whether its clients are set. *)
Record provider := {
  s_client : bool;
  s_kubeClient : bool;
}.
Context (p : provider).

Definition list_key (vpcID : string) : string := "vpc-subnets:" ++ vpcID.
Definition subnet_key (subnetID : string) : string := "subnet:" ++ subnetID.

Arguments list_key : simpl never.
Arguments subnet_key : simpl never.

Fixpoint convert_all (subnets : list VpcSubnet) : option (list SubnetInfo) :=
  match subnets with
  | [] => Some []
  | s :: subnets' =>
      match convertVPCSubnetToSubnetInfo s with
      | None => None
      | Some info => (cons info) <$> convert_all subnets'
      end
  end.

Definition type_assertion : string := "interface conversion: interface {} is of another type".

(** [ListSubnets] *)
Definition ListSubnets_ (vpcID : string) : sub (list SubnetInfo) :=
  if negb (s_client p) then fail "IBM client is not initialized"
  else
    cached ⟵ SubnetCacheGet (list_key vpcID);
    match cached with
    | Some (CachedList subnets) => Ret (Ok subnets)
    | Some (CachedOne _) => fail type_assertion
    | None =>
        e ⟵ GetVPCClient;
        match e with
        | Some err => fail_with err
        | None =>
            answer ⟵ VPCListSubnets vpcID;
            match answer with
            | Err err => fail_with (wrapped_ ("listing subnets for VPC " ++ vpcID) err)
            | Ok response =>
                match convert_all response with
                | None => fail nil_dereference
                | Some subnets =>
                    _u ⟵ SubnetCacheSet (list_key vpcID) (CachedList subnets);
                    Ret (Ok subnets)
                end
            end
        end
    end.

(** [GetSubnet] *)
Definition GetSubnet_ (subnetID : string) : sub SubnetInfo :=
  if negb (s_client p) then fail "IBM client is not initialized"
  else
    cached ⟵ SubnetCacheGet (subnet_key subnetID);
    match cached with
    | Some (CachedOne info) => Ret (Ok info)
    | Some (CachedList _) => fail type_assertion
    | None =>
        e ⟵ GetVPCClient;
        match e with
        | Some err => fail_with err
        | None =>
            answer ⟵ VPCGetSubnet subnetID;
            match answer with
            | Err err => fail_with (wrapped_ ("getting subnet " ++ subnetID) err)
            | Ok s =>
                match convertVPCSubnetToSubnetInfo s with
                | None => fail nil_dereference
                | Some info =>
                    _u ⟵ SubnetCacheSetWithTTL (subnet_key subnetID) (CachedOne info) (2 * GoTime.Minute);
                    Ret (Ok info)
                end
            end
        end
    end.

(** ** The subnets of the cluster's nodes *)

(** [getSubnetForInstance]: [""] when the instance cannot be read. *)
Definition getSubnetForInstance (instanceID : string) : sub string :=
  if negb (s_client p) then Ret (Ok "")
  else
    e ⟵ CtxErr;
    match e with
    | Some _ => Ret (Ok "")
    | None =>
        e ⟵ GetVPCClient;
        match e with
        | Some _ => Ret (Ok "")
        | None =>
            answer ⟵ VPCGetInstance instanceID;
            match answer with
            | Err _ | Ok None => Ret (Ok "")
            | Ok (Some None) => fail nil_dereference
            | Ok (Some (Some id)) => Ret (Ok id)
            end
        end
    end.

Definition parseSubnetFromProviderID (providerID : string) : sub string :=
  match subnet_instance providerID with
  | Some instanceID => getSubnetForInstance instanceID
  | None => Ret (Ok "")
  end.

(** The look for a subnet by address is not implemented in the code. *)
Definition findSubnetByIP (ipAddress : string) : string := "".

Fixpoint subnet_of_addresses (addresses : list string) : string :=
  match addresses with
  | [] => ""
  | address :: addresses' =>
      let subnetID := findSubnetByIP address in
      if negb (empty subnetID) then subnetID else subnet_of_addresses addresses'
  end.

Definition extractSubnetFromNode (node : Node) : sub string :=
  let by_address := subnet_of_addresses (InternalIPs (node_Status node)) in
  if negb (empty (node_ProviderID node)) then
    subnetID ←! parseSubnetFromProviderID (node_ProviderID node);
    Ret (Ok (if negb (empty subnetID) then subnetID else by_address))
  else Ret (Ok by_address).

Fixpoint count_subnets (nodes : list Node) (clusterSubnets : gmap string Z) : sub (gmap string Z) :=
  match nodes with
  | [] => Ret (Ok clusterSubnets)
  | node :: nodes' =>
      subnetID ←! extractSubnetFromNode node;
      count_subnets nodes'
        (if negb (empty subnetID)
         then <[subnetID := (default 0 (clusterSubnets !! subnetID) + 1)%Z]> clusterSubnets
         else clusterSubnets)
  end.

Definition getExistingClusterSubnets : sub (gmap string Z) :=
  if negb (s_kubeClient p) then Ret (Ok ∅)
  else
    answer ⟵ ListNodes;
    match answer with
    | Err _ => Ret (Ok ∅)
    | Ok nodes => count_subnets nodes ∅
    end.

(** ** Scores *)
Definition calculateSubnetScore (subnet : SubnetInfo) : spec_float :=
  if (TotalIPCount subnet =? 0)%Z then Float.zero
  else
    let total := Float.of_int (TotalIPCount subnet) in
    let capacityRatio := Float.div (Float.of_int (AvailableIPs subnet)) total in
    let score := Float.add Float.zero (Float.mul capacityRatio (Float.of_int 100)) in
    let fragmentationRatio :=
      Float.div (Float.of_int (int32 (UsedIPCount subnet + ReservedIPCount subnet))) total in
    Float.sub score (Float.mul fragmentationRatio (Float.of_int 50)).

Definition applyClusterAwareness (subnet : SubnetInfo) (baseScore : spec_float)
    (clusterSubnets : gmap string Z) : spec_float :=
  match clusterSubnets !! sub_ID subnet with
  | Some nodeCount =>
      let clusterBonus :=
        Float.add (Float.of_int 50) (Float.mul (Float.of_int nodeCount) (Float.of_int 10)) in
      Float.add baseScore clusterBonus
  | None =>
      if Nat.ltb 0 (size clusterSubnets) then Float.sub baseScore (Float.of_int 5) else baseScore
  end.

(** ** Selection *)
Definition eligible (strategy : PlacementStrategy) (subnet : SubnetInfo) : bool :=
  String.eqb (sub_State subnet) "available" &&
  match SubnetSelection strategy with
  | None => true
  | Some criteria =>
      negb ((0 <? MinimumAvailableIPs criteria)%Z && (AvailableIPs subnet <? MinimumAvailableIPs criteria)%Z) &&
      forallb (λ kv, String.eqb (get (sub_Tags subnet) kv.1) kv.2) (map_to_list (RequiredTags criteria))
  end.

Record subnetScore := {
  score_subnet : SubnetInfo;
  score : spec_float;
}.

Definition score_of (clusterSubnets : gmap string Z) (subnet : SubnetInfo) : subnetScore :=
  {| score_subnet := subnet;
     score := applyClusterAwareness subnet (calculateSubnetScore subnet) clusterSubnets |}.

(** [scores[i].score > scores[j].score] *)
Definition higher (x y : subnetScore) : bool := SFltb (score y) (score x).

(** One subnet per zone, in the order given, until there are [limit]. *)
Fixpoint one_per_zone (limit : option nat) (scores : list subnetScore) (seenZones : list string)
    (selected : nat) : list SubnetInfo :=
  match scores with
  | [] => []
  | s :: scores' =>
      if match limit with Some targetZones => Nat.leb targetZones selected | None => false end then []
      else
        let subnet := score_subnet s in
        if negb (existsb (String.eqb (sub_Zone subnet)) seenZones)
        then subnet :: one_per_zone limit scores' (sub_Zone subnet :: seenZones) (S selected)
        else one_per_zone limit scores' seenZones selected
  end.

(** The switch on the zone balance. *)
Definition balance (zoneBalance : string) (scores : list subnetScore) : list SubnetInfo :=
  if String.eqb zoneBalance "Balanced" then one_per_zone None scores [] 0
  else if String.eqb zoneBalance "AvailabilityFirst" then score_subnet <$> scores
  else if String.eqb zoneBalance "CostOptimized" then one_per_zone (Some 2) scores [] 0
  else [].

(** [SelectSubnets] past the reads. *)
Definition select (vpcID : string) (strategy : PlacementStrategy) (allSubnets : list SubnetInfo)
    (clusterSubnets : gmap string Z) : result GoErrors.error (list SubnetInfo) :=
  match List.filter (eligible strategy) allSubnets with
  | [] => Err (GoErrors.New ("no eligible subnets found in VPC " ++ vpcID))
  | eligibleSubnets =>
      let scores := sort_slice higher (score_of clusterSubnets <$> eligibleSubnets) in
      match balance (ZoneBalance strategy) scores with
      | [] => Err (GoErrors.New "no subnets selected after applying placement strategy")
      | selectedSubnets => Ok selectedSubnets
      end
  end.

Definition SelectSubnets_ (vpcID : string) (strategy : PlacementStrategy) : sub (list SubnetInfo) :=
  bind (ListSubnets_ vpcID) (λ r,
    match r with
    | Err err => fail_with (wrapped_ "failed to list subnets" err)
    | Ok allSubnets =>
        clusterSubnets ←! getExistingClusterSubnets;
        Ret (select vpcID strategy allSubnets clusterSubnets)
    end).

(** ** The scores are numbers *)
Definition is_int32 (z : Z) : Prop := (- 2 ^ 31 ≤ z < 2 ^ 31)%Z.

(** The fields of type int32. *)
Definition well_typed (s : SubnetInfo) : Prop :=
  is_int32 (AvailableIPs s) ∧ is_int32 (TotalIPCount s) ∧ is_int32 (UsedIPCount s) ∧ is_int32 (ReservedIPCount s).

(** A count of type int. *)
Definition is_count (n : Z) : Prop := (0 < n < 2 ^ 63)%Z.

Lemma int32_range z : is_int32 (int32 z).
Proof. unfold is_int32, int32. pose proof (Z.mod_pos_bound (z + 2 ^ 31) (2 ^ 32)). lia. Qed.

Lemma within_int32 z : is_int32 z → Float.within 33 (Float.of_int z).
Proof. unfold is_int32. intros Hz. apply (Float.of_int_within 32); lia. Qed.

(** A ratio of two counts of addresses. *)
Lemma within_ratio x y : is_int32 x → is_int32 y → y ≠ 0%Z →
  Float.within 34 (Float.div (Float.of_int x) (Float.of_int y)).
Proof.
  intros Hx Hy Hne. unfold is_int32 in Hy.
  destruct (Float.of_int_nonzero 32 y Hne) as (s & m & e & -> & Hm); [lia..|].
  apply (Float.div_within 33 1); [by apply within_int32|lia..].
Qed.

Lemma score_within subnet : well_typed subnet → Float.within 47 (calculateSubnetScore subnet).
Proof.
  intros (Ha & Ht & Hu & Hr). unfold calculateSubnetScore. case_match eqn:E; [done|].
  apply Z.eqb_neq in E. apply (Float.sub_within 45); [| |lia].
  - apply (Float.add_within 43); [done| |lia]. apply (Float.mul_within 34 8); [by apply within_ratio| |lia].
    apply (Float.of_int_within 7); lia.
  - eapply Float.within_mono; [apply (Float.mul_within 34 7); [| |lia]|lia].
    + apply within_ratio; [apply int32_range|done|done].
    + apply (Float.of_int_within 6); lia.
Qed.

Lemma awareness_within subnet f cs : Float.within 47 f → map_Forall (λ _ n, is_count n) cs →
  Float.within 74 (applyClusterAwareness subnet f cs).
Proof.
  intros Hf Hcs. unfold applyClusterAwareness. destruct (cs !! sub_ID subnet) as [n|] eqn:E.
  - specialize (Hcs _ _ E). unfold is_count in Hcs.
    apply (Float.add_within 72); [by eapply Float.within_mono| |lia].
    apply (Float.add_within 70); [|apply (Float.mul_within 64 5)|lia]; try lia.
    + eapply Float.within_mono; [apply (Float.of_int_within 6)|]; lia.
    + apply (Float.of_int_within 63); lia.
    + apply (Float.of_int_within 4); lia.
  - case_match; [|by eapply Float.within_mono].
    eapply Float.within_mono; [apply (Float.sub_within 47)|]; [done| |lia|lia].
    eapply Float.within_mono; [apply (Float.of_int_within 3)|]; lia.
Qed.

Lemma score_not_nan cs subnet : well_typed subnet → map_Forall (λ _ n, is_count n) cs →
  Float.is_nan (score (score_of cs subnet)) = false.
Proof.
  intros Hs Hcs. apply (Float.within_not_nan 74). apply awareness_within; [|done]. by apply score_within.
Qed.

Lemma higher_weak_order : weak_order_on (λ x, Float.is_nan (score x) = false) higher.
Proof. exact (weak_order_key score _ _ Float.weak_order). Qed.

(** ** What is selected *)

(** [s'] scores at least as high as [s]. *)
Definition outranks (cs : gmap string Z) (s' s : SubnetInfo) : Prop :=
  SFltb (score (score_of cs s')) (score (score_of cs s)) = false.

(** The best subnet of every zone, best first. *)
Definition best_per_zone (cs : gmap string Z) (ranked selected : list SubnetInfo) : Prop :=
  selected `sublist_of` ranked ∧ NoDup (sub_Zone <$> selected) ∧
  ∀ s, s ∈ ranked → ∃ s', s' ∈ selected ∧ sub_Zone s' = sub_Zone s ∧ outranks cs s' s.

Definition selection (strategy : PlacementStrategy) (all : list SubnetInfo) (cs : gmap string Z)
    (selected : list SubnetInfo) : Prop :=
  ∃ ranked, ranked ≡ₚ List.filter (eligible strategy) all ∧ StronglySorted (outranks cs) ranked ∧
  ((ZoneBalance strategy = "AvailabilityFirst" ∧ selected = ranked) ∨
   (ZoneBalance strategy = "Balanced" ∧ best_per_zone cs ranked selected) ∨
   (ZoneBalance strategy = "CostOptimized" ∧
    ∃ best, best_per_zone cs ranked best ∧ selected = firstn 2 best)).

Definition known_balance (b : string) : bool :=
  existsb (String.eqb b) ["Balanced"; "AvailabilityFirst"; "CostOptimized"].

(** The limited choice is the beginning of the unlimited one. *)
Lemma one_per_zone_limit n scores seen k : k ≤ n →
  one_per_zone (Some n) scores seen k = firstn (n - k) (one_per_zone None scores seen k).
Proof.
  revert seen k. induction scores as [|s scores IH]; intros seen k Hk; cbn [one_per_zone].
  { by rewrite take_nil. }
  destruct (Nat.leb_spec n k).
  { by replace (n - k) with 0 by lia. }
  destruct (negb _); [|by apply IH]. rewrite IH by lia.
  replace (n - k) with (S (n - S k)) by lia. done.
Qed.

Lemma one_per_zone_best cs ranked seen k :
  StronglySorted (outranks cs) ranked → Forall (λ s, outranks cs s s) ranked →
  let selected := one_per_zone None (score_of cs <$> ranked) seen k in
  selected `sublist_of` ranked ∧ NoDup (sub_Zone <$> selected) ∧
  Forall (λ s, sub_Zone s ∉ seen) selected ∧
  ∀ s, s ∈ ranked → sub_Zone s ∈ seen ∨
    ∃ s', s' ∈ selected ∧ sub_Zone s' = sub_Zone s ∧ outranks cs s' s.
Proof.
  intros Hs. revert seen k. induction Hs as [|s ranked Hs IH Hall]; intros seen k Hrefl; cbn.
  { split_and!; [done|constructor|constructor|by intros s ?%elem_of_nil]. }
  apply Forall_cons in Hrefl as [Hss Hrefl]. rewrite Forall_forall in Hall.
  destruct (existsb (String.eqb (sub_Zone s)) seen) eqn:E; cbn [negb].
  - apply existsb_eqb in E. destruct (IH seen k Hrefl) as (Hsub & Hnd & Hseen & Hbest).
    split_and!; [by apply sublist_cons|done|done|]. intros s' [->|Hs']%elem_of_cons; [by left|by apply Hbest].
  - assert (Hns : sub_Zone s ∉ seen) by (rewrite <-existsb_eqb; congruence).
    destruct (IH (sub_Zone s :: seen) (S k) Hrefl) as (Hsub & Hnd & Hseen & Hbest).
    rewrite Forall_forall in Hseen. split_and!.
    + by apply sublist_skip.
    + rewrite fmap_cons. constructor; [|done]. rewrite list_elem_of_fmap. intros (s' & Hz & Hs').
      apply (Hseen s' Hs'). rewrite <-Hz. by left.
    + constructor; [done|]. rewrite Forall_forall. intros s' Hs' Hin. apply (Hseen s' Hs'). by right.
    + intros s' [->|Hs']%elem_of_cons.
      * right. exists s. split_and!; [by left|done|done].
      * destruct (Hbest s' Hs') as [[Hz|Hz]%elem_of_cons|(t & Ht & Hz & Hr)]; [|by left|].
        -- right. exists s. split_and!; [by left|done|by apply Hall].
        -- right. exists t. split_and!; [by right|done|done].
Qed.

Lemma balance_spec b cs ranked : known_balance b = true → ranked ≠ [] → 
  balance b (score_of cs <$> ranked) ≠ [].
Proof.
  unfold known_balance, balance. cbn [existsb]. intros Hb Hne. destruct ranked as [|s ranked]; [done|].
  cbn [fmap list_fmap one_per_zone existsb negb]. repeat case_match; try done.
Qed.

Lemma fmap_score_subnet cs (l : list SubnetInfo) : score_subnet <$> (score_of cs <$> l) = l.
Proof. rewrite <-list_fmap_compose. induction l; cbn; congruence. Qed.

(** The sorted scores are those of the subnets, best first. *)
Lemma sort_scores cs l : Forall well_typed l → map_Forall (λ _ n, is_count n) cs →
  ∃ ranked, sort_slice higher (score_of cs <$> l) = score_of cs <$> ranked ∧ ranked ≡ₚ l ∧
    StronglySorted (outranks cs) ranked ∧ Forall (λ s, outranks cs s s) ranked.
Proof.
  intros Hl Hcs. set (scores := sort_slice higher _).
  assert (Hperm : scores ≡ₚ score_of cs <$> l) by apply sort_slice_perm.
  assert (Hsorted : less_sorted higher scores).
  { refine (sort_slice_sorted_on _ _ _ _ higher_weak_order).
    apply Forall_fmap. eapply Forall_impl; [exact Hl|]. intros s Hs. by apply score_not_nan. }
  exists (score_subnet <$> scores).
  assert (Hsc : scores = score_of cs <$> (score_subnet <$> scores)).
  { assert (Hf : Forall (λ x, x = score_of cs (score_subnet x)) scores).
    { rewrite Hperm. by apply Forall_fmap, Forall_true. }
    clear -Hf. induction Hf; cbn; congruence. }
  assert (Hranked : score_subnet <$> scores ≡ₚ l) by by rewrite Hperm, fmap_score_subnet.
  split_and!; [done|done| |].
  - unfold less_sorted, higher in Hsorted. revert Hsorted. rewrite Hsc at 1.
    generalize (score_subnet <$> scores) as r. clear. intros r. induction r as [|s r IH]; [constructor|].
    cbn. intros [Hs Hx]%StronglySorted_inv. constructor; [by apply IH|]. by apply Forall_fmap in Hx.
  - rewrite Hranked. eapply Forall_impl; [exact Hl|]. intros s Hs.
    apply (wo_irrefl Float.weak_order). by apply score_not_nan.
Qed.

Lemma select_spec vpcID strategy all cs :
  Forall well_typed all → map_Forall (λ _ n, is_count n) cs →
  match select vpcID strategy all cs with
  | Ok selected => selection strategy all cs selected
  | Err _ => List.filter (eligible strategy) all = [] ∨ known_balance (ZoneBalance strategy) = false
  end.
Proof.
  intros Hall Hcs. unfold select. destruct (List.filter (eligible strategy) all) as [|e1 el] eqn:Ef; [by left|].
  rewrite <-Ef. destruct (sort_scores cs (List.filter (eligible strategy) all)) as (ranked & -> & Hperm & Hst & Hrefl).
  { rewrite Forall_forall in Hall |- *. intros s Hs. apply list_elem_of_In, filter_In in Hs as [Hs _].
    apply Hall. by apply list_elem_of_In. }
  { done. }
  assert (Hne : ranked ≠ []) by (intros ->; rewrite Ef in Hperm; by apply Permutation_nil_l in Hperm).
  destruct (one_per_zone_best cs ranked [] 0 Hst Hrefl) as (Hsub & Hnd & _ & Hbest).
  assert (Hb : best_per_zone cs ranked (one_per_zone None (score_of cs <$> ranked) [] 0)).
  { split_and!; [done|done|]. intros s Hs. destruct (Hbest s Hs) as [?%elem_of_nil|]; done. }
  destruct (balance (ZoneBalance strategy) _) as [|b1 bl] eqn:Eb.
  - right. destruct (known_balance _) eqn:Ek; [|done]. by apply balance_spec in Eb.
  - rewrite <-Eb. exists ranked. split_and!; [done|done|]. unfold balance in *.
    destruct (String.eqb_spec (ZoneBalance strategy) "Balanced") as [E1|_]; [by right; left|].
    destruct (String.eqb_spec (ZoneBalance strategy) "AvailabilityFirst") as [E2|_].
    { left. by rewrite fmap_score_subnet. }
    destruct (String.eqb_spec (ZoneBalance strategy) "CostOptimized") as [E3|_]; [|done].
    right; right. split; [done|]. eexists. split; [exact Hb|]. by rewrite one_per_zone_limit by lia.
Qed.

(** ** Runs of the selection *)
Local Open Scope list_scope.
Local Abbreviation history := (history subnet_call).

(** The listings of the VPC's subnets a history has, from the cache or the API. *)
Definition listing (vpcID : string) (ev : event subnet_call) : option (list SubnetInfo) :=
  match ev with
  | Did e r =>
      match e in subnet_call T return T → option (list SubnetInfo) with
      | SubnetCacheGet key => λ cached,
          match cached with
          | Some (CachedList all) => if String.eqb key (list_key vpcID) then Some all else None
          | _ => None
          end
      | VPCListSubnets vpc => λ answer,
          match answer with
          | Ok response => if String.eqb vpc vpcID then convert_all response else None
          | Err _ => None
          end
      | _ => λ _, None
      end r
  end.

Definition listings (h : history) (vpcID : string) : list (list SubnetInfo) := omap (listing vpcID) h.

(** Counts of the subnets of the cluster's instances, as the run read them. *)
Definition counts (h : history) (bound : Z) (cs : gmap string Z) : Prop :=
  map_Forall (λ id n, (0 < n ≤ bound)%Z ∧ ∃ instance, asked h (VPCGetInstance instance) (Ok (Some (Some id)))) cs.

(** What is read back from the cache is a slice of subnets, and a slice has at
    most 2^63 - 1 elements. *)
Definition typed_read (ev : event subnet_call) : Prop :=
  match ev with
  | Did e r =>
      match e in subnet_call T return T → Prop with
      | SubnetCacheGet _ => λ cached,
          match cached with Some (CachedList all) => Forall well_typed all | _ => True end
      | ListNodes => λ answer,
          match answer with Ok nodes => (Z.of_nat (length nodes) < 2 ^ 63)%Z | Err _ => True end
      | _ => λ _, True
      end r
  end.

Lemma convert_well_typed response all : convert_all response = Some all → Forall well_typed all.
Proof.
  revert all. induction response as [|s response IH]; intros all; cbn; [by intros [= <-]|].
  destruct (convertVPCSubnetToSubnetInfo s) as [info|] eqn:E; [|done].
  destruct (convert_all response) as [l|]; [|done]. intros [= <-]. constructor; [|by apply IH].
  unfold convertVPCSubnetToSubnetInfo in E. repeat (case_match; [|done]). injection E as <-.
  assert (Hzero : is_int32 0) by (unfold is_int32; lia).
  unfold well_typed; cbn. split_and!; try done; try apply int32_range.
  - destruct (AvailableIpv4AddressCount s); cbn; [apply int32_range|done].
  - destruct (TotalIpv4AddressCount s); cbn; [apply int32_range|done].
Qed.

Lemma ListSubnets_wp G vpcID : (∀ h R e, G h R e) →
  wp G (ListSubnets_ vpcID) [] (λ h r,
    match r with
    | Ok all => listings h vpcID = [all] ∧ (Forall typed_read h → Forall well_typed all)
    | Err _ => listings h vpcID = []
    end).
Proof.
  intros HG. unfold ListSubnets_. destruct (negb _); [done|]. cbn. split; [done|].
  intros [[all|one]|]; cbn; [| |].
  - unfold listings. cbn. rewrite String.eqb_refl. split; [done|]. by intros [? _]%Forall_cons.
  - done.
  - split; [done|]. intros [err|]; [done|]. cbn. split; [done|]. intros [response|err]; [|done].
    destruct (convert_all response) as [all|] eqn:Ec; cbn.
    + split; [done|]. intros []. unfold listings. cbn. rewrite String.eqb_refl, Ec.
      split; [done|]. intros _. by apply (convert_well_typed response).
    + unfold listings. cbn. by rewrite String.eqb_refl, Ec.
Qed.

(** The scan of the nodes reads no listing. *)
Definition scan_call (R : Type) (e : subnet_call R) : bool :=
  match e with SubnetCacheGet _ | VPCListSubnets _ => false | _ => true end.

Lemma getSubnetForInstance_wp id h :
  wp (λ _ R e, scan_call R e = true) (getSubnetForInstance id) h (λ h' r,
    (∃ l, h' = l ++ h ∧ Forall (event_is scan_call) l) ∧
    match r with
    | Ok subnetID => subnetID = "" ∨ ∃ i, asked h' (VPCGetInstance i) (Ok (Some (Some subnetID)))
    | Err _ => ∃ i, asked h' (VPCGetInstance i) (Ok (Some None))
    end).
Proof.
  unfold getSubnetForInstance. destruct (negb _); cbn.
  { split; [by exists []|by left]. }
  split; [done|]. intros [e|]; cbn. { split; [|by left]. exists [Did CtxErr (Some e)]. by repeat constructor. }
  split; [done|]. intros [e|]; cbn.
  { split; [|by left]. eexists [_; _]. split; [done|]. by repeat constructor. }
  split; [done|]. intros [[[sid|]|]|e]; cbn;
    (split; [eexists [_; _; _]; split; [done|]; by repeat constructor|]); eauto with go_db.
Qed.

Lemma subnet_of_addresses_none addresses : subnet_of_addresses addresses = "".
Proof. by induction addresses. Qed.

(** A panic of the scan: an instance whose subnet has no identity. *)
Definition panicked (h : history) : Prop := ∃ i, asked h (VPCGetInstance i) (Ok (Some None)).

(** The scan extends the history without reading a listing. *)
Definition scanned (h h' : history) : Prop := ∃ l, h' = l ++ h ∧ Forall (event_is scan_call) l.

Lemma scanned_refl h : scanned h h.
Proof. by exists []. Qed.

Lemma scanned_trans h1 h2 h3 : scanned h1 h2 → scanned h2 h3 → scanned h1 h3.
Proof.
  intros (l & -> & Hl) (l' & -> & Hl'). exists (l' ++ l). rewrite <-(assoc_L (++)). split; [done|].
  apply Forall_app. by split.
Qed.

Lemma scanned_asked {R} h h' (e : subnet_call R) r : scanned h h' → asked h e r → asked h' e r.
Proof. intros (l & -> & _). apply asked_app. Qed.

Lemma extractSubnetFromNode_wp node h :
  wp (λ _ R e, scan_call R e = true) (extractSubnetFromNode node) h (λ h' r, scanned h h' ∧
    match r with
    | Ok subnetID => subnetID = "" ∨ ∃ i, asked h' (VPCGetInstance i) (Ok (Some (Some subnetID)))
    | Err _ => panicked h'
    end).
Proof.
  unfold extractSubnetFromNode. rewrite subnet_of_addresses_none.
  destruct (negb _); [|split; [apply scanned_refl|by left]].
  unfold parseSubnetFromProviderID. destruct (subnet_instance _) as [i|]; [|split; [apply scanned_refl|by left]].
  apply wp_try. eapply wp_mono; [|apply getSubnetForInstance_wp].
  intros h' [subnetID|e] [Hs Hr]; [|done]. split; [done|].
  destruct (String.eqb_spec subnetID "") as [->|Hne%String.eqb_neq]; [by left|].
  unfold empty. by rewrite Hne.
Qed.

Lemma counts_mono h h' k k' cs : scanned h h' → (k ≤ k')%Z → counts h k cs → counts h' k' cs.
Proof.
  intros Hs Hk Hc id n Hn. destruct (Hc id n Hn) as [? [i Hi]]. split; [lia|]. exists i. by eapply scanned_asked.
Qed.

Lemma count_subnets_wp nodes cs k h : (0 ≤ k)%Z → counts h k cs →
  wp (λ _ R e, scan_call R e = true) (count_subnets nodes cs) h (λ h' r, scanned h h' ∧
    match r with
    | Ok cs' => counts h' (k + Z.of_nat (length nodes)) cs'
    | Err _ => panicked h'
    end).
Proof.
  revert cs k h. induction nodes as [|node nodes IH]; intros cs k h Hk Hc; cbn [count_subnets].
  { split; [apply scanned_refl|]. by rewrite Z.add_0_r. }
  apply wp_try. eapply wp_mono; [|apply extractSubnetFromNode_wp].
  intros h1 [subnetID|e] [Hs Hr]; [|done].
  eapply wp_mono; [|apply (IH _ (k + 1)%Z h1); [lia|]].
  - intros h2 r [Hs2 Hr2]. split; [by eapply scanned_trans|]. destruct r as [cs'|]; [|done].
    replace (k + Z.of_nat (length (node :: nodes)))%Z with (k + 1 + Z.of_nat (length nodes))%Z; [done|].
    cbn [length]. lia.
  - assert (Hc1 : counts h1 (k + 1) cs) by (apply (counts_mono h _ k); [done|lia|done]).
    destruct (negb (empty subnetID)) eqn:E; [|done]. apply map_Forall_insert_2; [|done].
    destruct Hr as [->|[i Hi]]; [done|]. split; [|by exists i].
    destruct (cs !! subnetID) as [n|] eqn:En; cbn; [|lia].
    destruct (Hc _ _ En) as [? _]. unfold id. lia.
Qed.

Lemma getExistingClusterSubnets_wp h :
  wp (λ _ R e, scan_call R e = true) getExistingClusterSubnets h (λ h' r, scanned h h' ∧
    match r with
    | Ok cs => Forall typed_read h' → map_Forall (λ _ n, is_count n) cs
    | Err _ => panicked h'
    end).
Proof.
  unfold getExistingClusterSubnets. destruct (negb _); [split; [apply scanned_refl|done]|]. cbn.
  split; [done|]. intros [nodes|e].
  2:{ split; [|done]. exists [Did ListNodes (Err e)]. by repeat constructor. }
  eapply wp_mono; [|apply (count_subnets_wp nodes ∅ 0); [lia|done]].
  intros h' r [Hs Hr]. split.
  { eapply scanned_trans; [|exact Hs]. exists [Did ListNodes (Ok nodes)]. by repeat constructor. }
  destruct r as [cs|]; [|done]. intros Ht id n Hn. destruct (Hr id n Hn) as [? _].
  destruct Hs as (l & -> & _). apply Forall_app in Ht as [_ [Ht _]%Forall_cons]. cbn in Ht.
  unfold is_count. lia.
Qed.

Lemma scanned_listings h h' vpcID : scanned h h' → listings h' vpcID = listings h vpcID.
Proof.
  intros (l & -> & Hl). unfold listings. rewrite omap_app.
  replace (omap (listing vpcID) l) with (@nil (list SubnetInfo)); [done|].
  induction Hl as [|[R e r] l He Hl IH]; [done|]. cbn. rewrite <-IH. by destruct e.
Qed.

(** The runs of the selection, whatever is read. *)
Lemma SelectSubnets_wp vpcID strategy :
  wp (λ _ _ _, True) (SelectSubnets_ vpcID strategy) [] (λ h r,
    (is_ok r = false ∧ (listings h vpcID = [] ∨ panicked h)) ∨
    ∃ all cs, listings h vpcID = [all] ∧ r = select vpcID strategy all cs ∧
      (Forall typed_read h → Forall well_typed all ∧ map_Forall (λ _ n, is_count n) cs)).
Proof.
  unfold SelectSubnets_. apply wp_bind. eapply wp_mono; [|by apply ListSubnets_wp].
  intros h [all|e]; [|by left; split; [|left]]. intros [Hl Ht]. apply wp_try.
  eapply wp_mono; [|eapply wp_guard_mono, getExistingClusterSubnets_wp; done].
  intros h' [cs|e] [Hs Hr]; [|by left; split; [|right]]. right. exists all, cs.
  split_and!; [by rewrite (scanned_listings h)|done|]. intros Hty. split; [|by apply Hr].
  apply Ht. destruct Hs as (l & -> & _). by apply Forall_app in Hty as [_ ?].
Qed.

(** The subnets of a placement strategy: among the subnets of the VPC that are
    available and meet the criteria, the strategy for availability takes all,
    best score first; the balanced one takes exactly the best of every zone;
    and the one for cost takes the first two of those.  The scores are numbers
    whatever the API reports, so the ranking is well defined.  An error means
    that the listing failed, that no subnet is eligible, that the strategy is
    none of the three, or that an instance reported a subnet without identity. *)
Theorem placement_selects vpcID strategy tr r
    (Hrun : runs (SelectSubnets_ vpcID strategy) tr r) (Htyped : Forall typed_read tr) :
  match r with
  | Ok selected => ∃ all cs, listings (reverse tr) vpcID = [all] ∧ selection strategy all cs selected
  | Err _ => listings (reverse tr) vpcID = [] ∨ panicked (reverse tr) ∨
      known_balance (ZoneBalance strategy) = false ∨
      ∃ all, listings (reverse tr) vpcID = [all] ∧ List.filter (eligible strategy) all = []
  end.
Proof.
  destruct (wp_sound _ _ _ _ _ _ (SelectSubnets_wp vpcID strategy) Hrun) as [_ H'].
  rewrite (right_id_L [] (++)) in H'. destruct H' as [[Hr H']|(all & cs & Hl & -> & Ht)].
  { destruct r; naive_solver. }
  destruct Ht as [Hall Hcs]; [by apply Forall_reverse|].
  pose proof (select_spec vpcID strategy all cs Hall Hcs) as Hsel.
  destruct (select _ _ _ _) as [selected|e]; [by exists all, cs|]. right; right. naive_solver.
Qed.

(** ** Required tags *)

(** The cached subnets, if any, have no tags. *)
Definition untagged_read (ev : event subnet_call) : Prop :=
  match ev with
  | Did e r =>
      match e in subnet_call T return T → Prop with
      | SubnetCacheGet _ => λ cached,
          match cached with Some (CachedList all) => Forall (λ s, sub_Tags s = ∅) all | _ => True end
      | _ => λ _, True
      end r
  end.

Lemma convert_untagged response all : convert_all response = Some all → Forall (λ s, sub_Tags s = ∅) all.
Proof.
  revert all. induction response as [|s response IH]; intros all; cbn; [by intros [= <-]|].
  destruct (convertVPCSubnetToSubnetInfo s) as [info|] eqn:E; [|done].
  destruct (convert_all response) as [l|]; [|done]. intros [= <-]. constructor; [|by apply IH].
  unfold convertVPCSubnetToSubnetInfo in E. repeat (case_match; [|done]). by injection E as <-.
Qed.

Lemma listing_untagged vpcID h all :
  Forall untagged_read h → all ∈ listings h vpcID → Forall (λ s, sub_Tags s = ∅) all.
Proof.
  intros Hh ([R e r] & Hev & Hl)%list_elem_of_omap. rewrite Forall_forall in Hh. specialize (Hh _ Hev).
  destruct e; cbn in Hl, Hh; try done; repeat (case_match; try done); simplify_eq; [done|].
  by eapply convert_untagged.
Qed.

Lemma untagged_not_eligible strategy criteria k v s :
  SubnetSelection strategy = Some criteria → RequiredTags criteria !! k = Some v → v ≠ "" →
  sub_Tags s = ∅ → eligible strategy s = false.
Proof.
  intros Hc Hk Hv Hs. unfold eligible. rewrite Hc, Hs. apply andb_false_intro2, andb_false_intro2.
  apply not_true_iff_false. rewrite forallb_forall. intros Hall.
  specialize (Hall (k, v)). cbn in Hall. apply Hv. symmetry. apply String.eqb_eq, Hall.
  by apply list_elem_of_In, elem_of_map_to_list.
Qed.

(** The subnets of the API are read without their tags, so a strategy that
    requires a tag with a value never selects a subnet: unless the cache holds
    tagged subnets, which nothing stores, the selection always fails. *)
Theorem required_tags_exclude_all vpcID strategy criteria k v tr r
    (Hrun : runs (SelectSubnets_ vpcID strategy) tr r)
    (Hcriteria : SubnetSelection strategy = Some criteria) (Htag : RequiredTags criteria !! k = Some v)
    (Hvalue : v ≠ "") (Hcache : Forall untagged_read tr) :
  is_ok r = false.
Proof.
  destruct (wp_sound _ _ _ _ _ _ (SelectSubnets_wp vpcID strategy) Hrun) as [_ H'].
  rewrite (right_id_L [] (++)) in H'. destruct H' as [[Hr _]|(all & cs & Hl & -> & _)]; [done|].
  assert (Hall : Forall (λ s, sub_Tags s = ∅) all).
  { apply (listing_untagged vpcID (reverse tr)); [by apply Forall_reverse|]. rewrite Hl. by left. }
  unfold select. replace (List.filter (eligible strategy) all) with (@nil SubnetInfo); [done|].
  symmetry. apply filter_bool_nil. eapply Forall_impl; [exact Hall|]. intros s Hs.
  by eapply untagged_not_eligible.
Qed.
End subnets.

(** ** An example *)
Definition example_subnet (id zone : string) (total available : Z) : VpcSubnet :=
  {| vs_ID := Some id; vs_Zone := Some zone; Ipv4CIDRBlock := Some "10.0.0.0/24"; vs_Status := Some "available";
     TotalIpv4AddressCount := Some total; AvailableIpv4AddressCount := Some available |}.

Definition example_subnets : list VpcSubnet :=
  [example_subnet "a1" "zone-1" 256 100; example_subnet "b1" "zone-2" 256 200;
   example_subnet "a2" "zone-1" 256 250; example_subnet "c1" "zone-3" 256 10].

(** An empty cache, and a node in subnet c1. *)
Definition example_env (R : Type) (e : subnet_call R) (s : unit) : R * unit :=
  match e in subnet_call R return R * unit with
  | SubnetCacheGet _ => (None, s)
  | SubnetCacheSet _ _ => (tt, s)
  | SubnetCacheSetWithTTL _ _ _ => (tt, s)
  | GetVPCClient => (None, s)
  | VPCListSubnets _ => (Ok example_subnets, s)
  | VPCGetSubnet _ => (Err (GoErrors.New "not found"), s)
  | VPCGetInstance _ => (Ok (Some (Some "c1")), s)
  | ListNodes =>
      (Ok [{| node_meta := no_meta; node_ProviderID := "ibm:///us-south/instance-1"; Unschedulable := false; OwnerReferences := []; node_Status := no_status |}], s)
  | CtxErr => (None, s)
  end.

Definition example_run (zoneBalance : string) (criteria : option SubnetSelectionCriteria) :=
  interp example_env
    (SelectSubnets_ {| s_client := true; s_kubeClient := true |} "vpc-1"
      {| ZoneBalance := zoneBalance; SubnetSelection := criteria |}) tt.

(** The bonus of the node's subnet does not outweigh that it is almost full. *)
Example balanced_example :
  match (example_run "Balanced" None).1.2 with
  | Ok selected => sub_ID <$> selected = ["a2"; "b1"; "c1"]
  | Err _ => False
  end.
Proof. vm_compute. reflexivity. Qed.

(** A property of every event of a computed history. *)
Ltac reads_of :=
  match goal with |- Forall _ ?tr =>
    let t := eval vm_compute in tr in
    let E := fresh in assert (E : tr = t) by (vm_compute; reflexivity); rewrite E; repeat constructor
  end.

Lemma placement_selects_witness :
  let tr := (example_run "CostOptimized" None).1.1 in
  ∃ selected, (sub_ID <$> selected) = ["a2"; "b1"] ∧
  ∃ all cs, listings (reverse tr) "vpc-1" = [all] ∧
    selection {| ZoneBalance := "CostOptimized"; SubnetSelection := None |} all cs selected.
Proof.
  cbv zeta. unfold example_run. set (q := SelectSubnets_ _ _ _).
  assert (Hr : ∃ selected, (interp example_env q tt).1.2 = Ok selected ∧ (sub_ID <$> selected) = ["a2"; "b1"]).
  { vm_compute. eexists. split; reflexivity. }
  destruct Hr as (selected & Hr & Hids). exists selected. split; [exact Hids|].
  assert (Ht : Forall typed_read (interp example_env q tt).1.1) by reads_of.
  apply (placement_selects {| s_client := true; s_kubeClient := true |} "vpc-1"
    {| ZoneBalance := "CostOptimized"; SubnetSelection := None |} (interp example_env q tt).1.1 (Ok selected)).
  - rewrite <-Hr. apply interp_runs.
  - exact Ht.
Defined.

Lemma required_tags_exclude_all_witness :
  let criteria := {| MinimumAvailableIPs := 0; RequiredTags := {["team" := "a"]} |} in
  let run := example_run "Balanced" (Some criteria) in
  Forall untagged_read run.1.1 ∧ is_ok run.1.2 = false.
Proof.
  cbv zeta. unfold example_run. set (q := SelectSubnets_ _ _ _).
  assert (Ht : Forall untagged_read (interp example_env q tt).1.1) by reads_of.
  split; [exact Ht|].
  apply (required_tags_exclude_all {| s_client := true; s_kubeClient := true |} "vpc-1"
    {| ZoneBalance := "Balanced";
       SubnetSelection := Some {| MinimumAvailableIPs := 0; RequiredTags := {["team" := "a"]} |} |}
    {| MinimumAvailableIPs := 0; RequiredTags := {["team" := "a"]} |} "team" "a" (interp example_env q tt).1.1).
  - apply interp_runs.
  - reflexivity.
  - reflexivity.
  - discriminate.
  - exact Ht.
Defined.
