(* ===== verification/Images.v ===== *)
(** * Images: the resolution of images

    [pkg/providers/common/image/resolver.go]: from an identifier, a name or a
    selector to the image to boot. *)
From stdpp Require Import prelude list strings gmap sorting.
From Stdlib Require Import Ascii.
From S2P Require Import Prelude GoLib GoSort GoRegexp Errors NodeClass ProviderIDs Prog Kube.
Import Strings.

Open Scope string_scope.
Open Scope nat_scope.
Open Scope prog_scope.

(** [vpcv1.Image]; its creation time as [time.Parse] reads its text back,
    [None] when it does not parse. *)
Record Image := {
  img_ID : option string;
  img_Name : option string;
  img_Status : option string;
  img_CreatedAt : option (option Z);
  img_OperatingSystem : option string;
}.

Definition ImageStatusAvailableConst : string := "available".
Definition ImageStatusDeprecatedConst : string := "deprecated".

Inductive image_call : Type → Type :=
  | GetImage (id : string) : image_call err
  | ListImages (visibility : string) : image_call (result GoErrors.error (list Image)).

Local Abbreviation img A := (prog image_call (result GoErrors.error A)).

Record ImageInfo := {
  ii_ID : string;
  ii_Name : string;
  ii_CreatedAt : Z;
  ii_OperatingSystem : string;
  ii_Status : string;
}.

(** ** Names *)

Definition dash : ascii := "-".

(** [isImageID]: [r] and digits, then at least five more fields. *)
Definition isImageID (s : string) : bool :=
  if Nat.ltb (String.length s) 10 then false
  else if negb (HasPrefix s "r") then false
  else
    let parts := Split s dash in
    if Nat.ltb (length parts) 6 then false
    else
      let first := List.hd "" parts in
      if Nat.ltb (String.length first) 2 then false else all_chars is_digit (drop 1 first).

Definition matchesPattern (s pattern : string) : bool :=
  if String.eqb pattern "*" then true
  else if HasPrefix pattern "*" && HasSuffix pattern "*"
  then Contains s (take (String.length pattern - 2) (drop 1 pattern))
  else if HasPrefix pattern "*" then HasSuffix s (drop 1 pattern)
  else if HasSuffix pattern "*" then HasPrefix s (take (String.length pattern - 1) pattern)
  else String.eqb s pattern.

Definition matchesImageName (imageName pattern : string) : bool :=
  let imageName := ToLower imageName in
  let pattern := ToLower pattern in
  if String.eqb imageName pattern then true
  else if Contains imageName pattern then true
  else if Contains pattern "*" then matchesPattern imageName pattern
  else false.

(** A format is a sequence of captured fields between hyphens. *)
Definition fields (classes : list (ascii → bool)) : list pattern := map (λ cls, [Capture cls]) classes.
Definition ibm_format (classes : list (ascii → bool)) : pattern := sep_items dash ([Lit "ibm"] :: fields classes).

(** os, major, minor, patch, variant, architecture, build *)
Definition new_classes := [is_lower; is_digit; is_digit; is_digit; is_lower; is_lower_digit; is_digit].
Definition standard_classes := [is_lower; is_digit; is_digit; is_lower; is_lower_digit; is_digit].
Definition alt_classes := [is_lower; is_digit; is_digit; is_lower_digit; is_digit].
Definition simple_classes := [is_lower; is_digit; is_digit].

Definition ibmNewPattern : pattern := ibm_format new_classes.
Definition ibmPattern : pattern := ibm_format standard_classes.
Definition ibmAltPattern : pattern := ibm_format alt_classes.
Definition simplePattern : pattern := sep_items dash (fields simple_classes).

Definition components (os major minor variant architecture build : string) : gmap string string :=
  list_to_map [("os", os); ("majorVersion", major); ("minorVersion", minor); ("variant", variant);
               ("architecture", architecture); ("build", build)].

(** The components of a match of the right length. *)
Definition new_components (matches : option (list string)) : option (gmap string string) :=
  match matches with
  | Some [os; major; minor; patch; variant; arch; build] =>
      Some (<["patchVersion" := patch]> (components os major minor variant arch build))
  | _ => None
  end.
Definition standard_components (matches : option (list string)) : option (gmap string string) :=
  match matches with
  | Some [os; major; minor; variant; arch; build] => Some (components os major minor variant arch build)
  | _ => None
  end.
Definition alt_components (matches : option (list string)) : option (gmap string string) :=
  match matches with
  | Some [os; major; minor; arch; build] => Some (components os major minor "minimal" arch build)
  | _ => None
  end.
Definition simple_components (matches : option (list string)) : option (gmap string string) :=
  match matches with
  | Some [os; major; minor] => Some (components os major minor "minimal" "amd64" "1")
  | _ => None
  end.

Definition parseImageName (imageName : string) : option (gmap string string) :=
  match new_components (FindStringSubmatch ibmNewPattern imageName) with
  | Some c => Some c
  | None =>
  match standard_components (FindStringSubmatch ibmPattern imageName) with
  | Some c => Some c
  | None =>
  match alt_components (FindStringSubmatch ibmAltPattern imageName) with
  | Some c => Some c
  | None => simple_components (FindStringSubmatch simplePattern imageName)
  end end end.

(** ** Selection *)
Definition imageMatchesSelector (i : ImageInfo) (selector : ImageSelector) : bool :=
  match parseImageName (ii_Name i) with
  | None => false
  | Some c =>
      String.eqb (get c "os") (OS selector) &&
      String.eqb (get c "majorVersion") (MajorVersion selector) &&
      (empty (MinorVersion selector) || String.eqb (get c "minorVersion") (MinorVersion selector)) &&
      String.eqb (get c "architecture")
        (if empty (Architecture selector) then "amd64" else Architecture selector) &&
      (empty (Variant selector) || String.eqb (get c "variant") (Variant selector))
  end.

Definition filterImagesBySelector (images : list ImageInfo) (selector : ImageSelector) : list ImageInfo :=
  List.filter (λ i, imageMatchesSelector i selector) images.

Definition created_after (i j : ImageInfo) : bool := GoTime.After (ii_CreatedAt i) (ii_CreatedAt j).

(** [strconv.Atoi] with its error ignored. *)
Definition number (c : gmap string string) (key : string) : Z := fst (Strconv.Atoi (get c key)).

(** The comparison of [sortImagesByVersion]. *)
Definition newer_version (selector : ImageSelector) (i j : ImageInfo) : bool :=
  match parseImageName (ii_Name i), parseImageName (ii_Name j) with
  | Some c1, Some c2 =>
      let minor1 := number c1 "minorVersion" in
      let minor2 := number c2 "minorVersion" in
      if empty (MinorVersion selector) && negb (minor1 =? minor2)%Z then (minor2 <? minor1)%Z
      else
        let patch1 := number c1 "patchVersion" in
        let patch2 := number c2 "patchVersion" in
        if negb (patch1 =? patch2)%Z then (patch2 <? patch1)%Z
        else
          let build1 := number c1 "build" in
          let build2 := number c2 "build" in
          if negb (build1 =? build2)%Z then (build2 <? build1)%Z
          else created_after i j
  | _, _ => created_after i j
  end.

(** A usable image of a listing. *)
Definition info_of (nameFilter : string) (image : Image) : option ImageInfo :=
  match img_Name image, img_ID image, img_Status image with
  | Some name, Some id, Some status =>
      if negb (String.eqb status ImageStatusAvailableConst) && negb (String.eqb status ImageStatusDeprecatedConst)
      then None
      else if negb (empty nameFilter) && negb (Contains (ToLower name) (ToLower nameFilter)) then None
      else Some {| ii_ID := id; ii_Name := name;
                   ii_CreatedAt := match img_CreatedAt image with
                                   | Some (Some createdAt) => createdAt | _ => GoTime.zero_time end;
                   ii_OperatingSystem := default "" (img_OperatingSystem image); ii_Status := status |}
  | _, _, _ => None
  end.

Definition infos (nameFilter : string) (images : list Image) : list ImageInfo :=
  omap (info_of nameFilter) images.

Section resolver.
Context `{SliceSorter}.

Definition sortImagesByVersion (images : list ImageInfo) (selector : ImageSelector) : list ImageInfo :=
  sort_slice (newer_version selector) images.

Definition listImagesByVisibility (visibility nameFilter : string) : img (list ImageInfo) :=
  answer ⟵ ListImages visibility;
  match answer with
  | Err err => fail_with (wrapped_ ("listing " ++ visibility ++ " images") err)
  | Ok images => Ret (Ok (sort_slice created_after (infos nameFilter images)))
  end.

Definition ListAvailableImages (nameFilter : string) : img (list ImageInfo) :=
  listImagesByVisibility "public" nameFilter.

Definition no_match (selector : ImageSelector) : GoErrors.error :=
  GoErrors.New ("no images found matching selector: os=" ++ OS selector ++ ", majorVersion="
    ++ MajorVersion selector ++ ", minorVersion=" ++ MinorVersion selector ++ ", architecture="
    ++ Architecture selector ++ ", variant=" ++ Variant selector).

(** The end of [ResolveImageBySelector]. *)
Definition pick (candidates : list ImageInfo) (selector : ImageSelector) : img string :=
  match sortImagesByVersion candidates selector with
  | [] => fail_with (no_match selector)
  | i :: _ => Ret (Ok (ii_ID i))
  end.

Definition ResolveImageBySelector (selector : option ImageSelector) : img string :=
  match selector with
  | None => fail "image selector cannot be nil"
  | Some selector =>
      images ←! ListAvailableImages "";
      match filterImagesBySelector images selector with
      | [] =>
          privateImages ←! listImagesByVisibility "private" "";
          pick (filterImagesBySelector privateImages selector) selector
      | candidates => pick candidates selector
      end
  end.

(** ** Names to images *)

(** The comparison of [resolveImageByName]. *)
Definition newer_image (i j : Image) : bool :=
  match img_CreatedAt i, img_CreatedAt j with
  | Some (Some timeI), Some (Some timeJ) => GoTime.After timeI timeJ
  | _, _ => false
  end.

Definition named_images (images : list Image) (imageName : string) : list Image :=
  List.filter (λ image, match img_Name image with
                        | Some name => matchesImageName name imageName | None => false end) images.

Definition pick_named (candidates : list Image) (imageName : string) : img string :=
  match sort_slice newer_image candidates with
  | [] => fail ("no image found matching name '" ++ imageName ++ "'")
  | i :: _ =>
      match img_ID i with
      | None => fail ("image " ++ default "" (img_Name i) ++ " has no ID")
      | Some id => Ret (Ok id)
      end
  end.

Definition resolveImageByName (imageName : string) : img string :=
  answer ⟵ ListImages "public";
  match answer with
  | Err err => fail_with (wrapped_ "listing images" err)
  | Ok images =>
      match named_images images imageName with
      | [] =>
          answer ⟵ ListImages "private";
          match answer with
          | Err err => fail_with (wrapped_ "listing private images" err)
          | Ok images => pick_named (named_images images imageName) imageName
          end
      | candidates => pick_named candidates imageName
      end
  end.

Definition ResolveImage_ (imageIdentifier : string) : img string :=
  if empty imageIdentifier then fail "image identifier cannot be empty"
  else if isImageID imageIdentifier then
    e ⟵ GetImage imageIdentifier;
    match e with
    | None => Ret (Ok imageIdentifier)
    | Some err => fail_with (wrapped_ ("image ID " ++ imageIdentifier ++ " not found") err)
    end
  else resolveImageByName imageIdentifier.
End resolver.

(** ** The formats of a name *)

(** Every part is a nonempty word of its class. *)
Fixpoint accepts (classes : list (ascii → bool)) (parts : list string) : bool :=
  match classes, parts with
  | [], [] => true
  | cls :: classes', w :: parts' => nonempty w && all_chars cls w && accepts classes' parts'
  | _, _ => false
  end.

(** A name read by the fields between its hyphens: the number of fields decides
    the format. *)
Definition by_fields (parts : list string) : option (gmap string string) :=
  match parts with
  | [ibm; os; major; minor; patch; variant; arch; build] =>
      if String.eqb ibm "ibm" && accepts new_classes (List.tl parts)
      then Some (<["patchVersion" := patch]> (components os major minor variant arch build)) else None
  | [ibm; os; major; minor; variant; arch; build] =>
      if String.eqb ibm "ibm" && accepts standard_classes (List.tl parts) then Some (components os major minor variant arch build) else None
  | [ibm; os; major; minor; arch; build] =>
      if String.eqb ibm "ibm" && accepts alt_classes (List.tl parts) then Some (components os major minor "minimal" arch build) else None
  | [os; major; minor] =>
      if accepts simple_classes parts then Some (components os major minor "minimal" "amd64" "1") else None
  | _ => None
  end.

Lemma match_captures classes parts :
  match_fields (fields classes) parts = if accepts classes parts then Some parts else None.
Proof.
  revert parts. induction classes as [|cls classes IH]; intros [|w parts]; try done.
  cbn [fields map match_fields accepts]. unfold Capture. rewrite match_Rep_plus.
  destruct (nonempty w && all_chars cls w); cbn [andb]; [|done].
  cbn. fold (fields classes). rewrite IH. by destruct (accepts classes parts).
Qed.

Lemma fields_free classes : Forall (λ cls, cls dash = false) classes → Forall (Forall (item_free dash)) (fields classes).
Proof. induction 1; repeat constructor; done. Qed.

Lemma find_ibm classes s : Forall (λ cls, cls dash = false) classes →
  FindStringSubmatch (ibm_format classes) s =
  match Split s dash with
  | ibm :: parts => if String.eqb ibm "ibm" && accepts classes parts then Some parts else None
  | [] => None
  end.
Proof.
  intros Hc. unfold FindStringSubmatch, ibm_format. rewrite match_sep_items;
    [|done|constructor; [by repeat constructor|by apply fields_free]].
  destruct (Split s dash) as [|ibm parts]; [done|]. cbn [match_fields]. rewrite match_Lit, match_captures.
  destruct (String.eqb ibm "ibm"); [|done]. by destruct (accepts classes parts).
Qed.

Lemma find_simple s :
  FindStringSubmatch simplePattern s =
  if accepts simple_classes (Split s dash) then Some (Split s dash) else None.
Proof.
  unfold FindStringSubmatch, simplePattern. rewrite match_sep_items; [|done|by apply fields_free; repeat constructor].
  apply match_captures.
Qed.

Lemma accepts_length classes parts : accepts classes parts = true → length parts = length classes.
Proof.
  revert parts. induction classes as [|cls classes IH]; intros [|w parts]; try done.
  cbn. intros [_ H]%andb_true_iff. by rewrite (IH parts H).
Qed.

Lemma accepts_wrong_length classes parts :
  Nat.eqb (length parts) (length classes) = false → accepts classes parts = false.
Proof. intros Hl%Nat.eqb_neq. apply not_true_iff_false. by intros H%accepts_length. Qed.

Lemma parse_by_fields imageName : parseImageName imageName = by_fields (Split imageName dash).
Proof.
  unfold parseImageName, ibmNewPattern, ibmPattern, ibmAltPattern.
  rewrite !find_ibm, find_simple by (repeat constructor).
  destruct (Split imageName dash) as [|f1 [|f2 [|f3 [|f4 [|f5 [|f6 [|f7 [|f8 [|f9 l]]]]]]]]];
    cbn [by_fields List.tl];
    repeat match goal with |- context [accepts ?classes ?parts] =>
      rewrite (accepts_wrong_length classes parts) by reflexivity end;
    rewrite ?andb_false_r;
    lazymatch goal with
    | |- context [accepts ?classes ?parts] => destruct (accepts classes parts)
    | _ => idtac
    end;
    lazymatch goal with
    | |- context [String.eqb ?f "ibm"] => destruct (String.eqb f "ibm")
    | _ => idtac
    end; reflexivity.
Qed.

(** A name made of its fields is read back. *)
Lemma image_name_round_trip os major minor patch variant arch build :
  accepts new_classes [os; major; minor; patch; variant; arch; build] = true →
  parseImageName (Join ["ibm"; os; major; minor; patch; variant; arch; build] "-") =
  Some (<["patchVersion" := patch]> (components os major minor variant arch build)).
Proof.
  intros Ha. rewrite parse_by_fields. change "-"%string with (String dash "").
  assert (Hfree : ∀ classes parts, Forall (λ cls, cls dash = false) classes → accepts classes parts = true →
    Forall (λ w, free_of dash w = true) parts).
  { intros classes parts Hc. revert parts. induction Hc as [|cls classes Hc Hcs IH]; intros [|w parts]; try done.
    cbn. intros [[_ Hw]%andb_true_iff Hp]%andb_true_iff. constructor; [by eapply all_chars_free|by apply IH]. }
  rewrite Split_Join; [|done|constructor; [done|by apply (Hfree new_classes); [repeat constructor|]]].
  cbn [by_fields List.tl]. by rewrite Ha.
Qed.

(** ** Ranking *)

(** What ranks an image among those that match a selector: the minor version,
    unless the selector fixes it, the patch, the build and the age. *)
Definition version_key (selector : ImageSelector) (i : ImageInfo) : list Z :=
  match parseImageName (ii_Name i) with
  | None => []
  | Some c =>
      [(if empty (MinorVersion selector) then number c "minorVersion" else 0)%Z;
       number c "patchVersion"; number c "build"; ii_CreatedAt i]
  end.

Lemma newer_version_key selector i j :
  length (version_key selector i) = 4 → length (version_key selector j) = 4 →
  newer_version selector i j = lex_lt (version_key selector j) (version_key selector i).
Proof.
  unfold newer_version, version_key, created_after, GoTime.After.
  destruct (parseImageName (ii_Name i)) as [ci|], (parseImageName (ii_Name j)) as [cj|]; try done.
  intros _ _. cbn [lex_lt].
  assert (Heq : ∀ a b, Z.eqb b a = Z.eqb a b) by (intros; apply Z.eqb_sym).
  rewrite !(Heq (number cj _)).
  destruct (empty (MinorVersion selector)); cbn [andb Z.eqb];
    repeat match goal with |- context [Z.eqb ?a ?b] => destruct (Z.eqb_spec a b) as [->|]; cbn [negb] end;
    rewrite ?Z.ltb_irrefl; done.
Qed.

Lemma newer_version_weak_order selector :
  weak_order_on (λ i, length (version_key selector i) = 4) (newer_version selector).
Proof.
  eapply weak_order_ext; [apply newer_version_key|].
  exact (weak_order_key (version_key selector) _ _ (lex_lt_weak_order 4)).
Qed.

Lemma matches_key i selector : imageMatchesSelector i selector = true → length (version_key selector i) = 4.
Proof. unfold imageMatchesSelector, version_key. by destruct (parseImageName (ii_Name i)). Qed.

(** The image is the best of the listing for the selector. *)
Definition best_match (selector : ImageSelector) (images : list Image) (i : ImageInfo) : Prop :=
  i ∈ infos "" images ∧ imageMatchesSelector i selector = true ∧
  ∀ j, j ∈ infos "" images → imageMatchesSelector j selector = true →
    lex_lt (version_key selector i) (version_key selector j) = false.

Definition none_match (selector : ImageSelector) (images : list Image) : Prop :=
  ∀ i, i ∈ infos "" images → imageMatchesSelector i selector = false.

Section resolution.
Context `{SliceSorter}.

Lemma filter_sorted selector images :
  filterImagesBySelector (sort_slice created_after (infos "" images)) selector = [] → none_match selector images.
Proof.
  intros E%filter_bool_nil i Hi. rewrite Forall_forall in E. apply E. by apply sort_slice_elem_of.
Qed.

Lemma filter_elem selector images i :
  i ∈ filterImagesBySelector (sort_slice created_after (infos "" images)) selector ↔
  i ∈ infos "" images ∧ imageMatchesSelector i selector = true.
Proof.
  unfold filterImagesBySelector. rewrite !list_elem_of_In, filter_In, <-!list_elem_of_In. by rewrite sort_slice_elem_of.
Qed.

(** The first of the sorted candidates is the best. *)
Lemma pick_wp G selector images h (Q : history image_call → result GoErrors.error string → Prop) :
  (∀ i, best_match selector images i → Q h (Ok (ii_ID i))) →
  (none_match selector images → ∀ e, Q h (Err e)) →
  wp G (pick (filterImagesBySelector (sort_slice created_after (infos "" images)) selector) selector) h Q.
Proof.
  intros Hok Herr. unfold pick, sortImagesByVersion.
  set (candidates := filterImagesBySelector _ _).
  destruct (sort_slice (newer_version selector) candidates) as [|i l] eqn:E.
  - apply Herr. apply filter_sorted. by apply (sort_slice_nil (newer_version selector)).
  - apply Hok.
    assert (Hkey : ∀ j, j ∈ candidates → length (version_key selector j) = 4).
    { intros j [_ Hj]%filter_elem. by eapply matches_key. }
    destruct (sort_slice_head (newer_version selector) candidates i l) as [Hi Hbest].
    { destruct (newer_version_weak_order selector) as [H1 H2 H3]. split; eauto. }
    { done. }
    apply filter_elem in Hi as [Hi Hm]. split_and!; [done|done|]. intros j Hj Hmj.
    assert (Hjc : j ∈ candidates) by (by apply filter_elem).
    specialize (Hbest j Hjc). rewrite newer_version_key in Hbest; [done|by apply Hkey|].
    apply Hkey. by apply filter_elem.
Qed.

(** How a resolution ends, by the listings it made. *)
Inductive selector_outcome (selector : ImageSelector)
    : history image_call → result GoErrors.error string → Prop :=
  | public_failed err e :
      selector_outcome selector [Did (ListImages "public") (Err err)] (Err e)
  | public_best public i : best_match selector public i →
      selector_outcome selector [Did (ListImages "public") (Ok public)] (Ok (ii_ID i))
  | private_failed public err e : none_match selector public →
      selector_outcome selector
        [Did (ListImages "public") (Ok public); Did (ListImages "private") (Err err)] (Err e)
  | private_best public private i : none_match selector public → best_match selector private i →
      selector_outcome selector
        [Did (ListImages "public") (Ok public); Did (ListImages "private") (Ok private)] (Ok (ii_ID i))
  | nothing_matches public private e : none_match selector public → none_match selector private →
      selector_outcome selector
        [Did (ListImages "public") (Ok public); Did (ListImages "private") (Ok private)] (Err e).

(** An image resolved by a selector is usable, matches the selector, and none
    that matches has a higher version: minor version when the selector leaves it
    open, then patch, build and age.  Private images are looked at only when no
    public one matches, and the resolution fails only when a listing failed or
    nothing matches. *)
Theorem selector_resolves_best selector tr r
    (Hrun : runs (ResolveImageBySelector (Some selector)) tr r) :
  selector_outcome selector tr r.
Proof.
  assert (Hwp : wp (λ _ _ _, True) (ResolveImageBySelector (Some selector)) []
    (λ h r, selector_outcome selector (reverse h) r)).
  { cbn. split; [done|]. intros [public|e]; cbn; [|by constructor].
    destruct (filterImagesBySelector _ _) as [|c candidates] eqn:Ef.
    - pose proof (filter_sorted selector public Ef) as Hnone. cbn. split; [done|].
      intros [private|e]; cbn; [|by constructor].
      apply pick_wp; intros; by constructor.
    - rewrite <-Ef. apply pick_wp; [intros; by constructor|].
      intros Hn e. exfalso.
      assert (Hc : c ∈ filterImagesBySelector (sort_slice created_after (infos "" public)) selector)
        by (rewrite Ef; by left).
      apply filter_elem in Hc as [Hc Hm]. by rewrite (Hn c Hc) in Hm. }
  destruct (wp_sound _ _ _ _ _ _ Hwp Hrun) as [_ H'].
  by rewrite (right_id_L [] (++)%list), reverse_involutive in H'.
Qed.
End resolution.

(** ** Examples *)
Definition example_image (id name status : string) (created : Z) : Image :=
  {| img_ID := Some id; img_Name := Some name; img_Status := Some status; img_CreatedAt := Some (Some created);
     img_OperatingSystem := None |}.

Definition ubuntu : ImageSelector :=
  {| OS := "ubuntu"; MajorVersion := "24"; MinorVersion := ""; Architecture := "amd64"; Variant := "minimal" |}.

Definition example_images : list Image :=
  [example_image "r006-1" "ibm-ubuntu-24-04-minimal-amd64-9" "available" 30;
   example_image "r006-2" "ibm-ubuntu-24-04-6-minimal-amd64-7" "available" 10;
   example_image "r006-3" "ibm-ubuntu-24-04-6-minimal-amd64-8" "obsolete" 40;
   example_image "r006-4" "ibm-ubuntu-22-04-6-minimal-amd64-9" "available" 20].

Definition example_env (images : list Image) (R : Type) (e : image_call R) (s : unit) : R * unit :=
  match e in image_call R return R * unit with
  | GetImage _ => (None, s)
  | ListImages visibility => (Ok (if String.eqb visibility "public" then images else []), s)
  end.

Lemma selector_resolves_best_witness :
  selector_outcome ubuntu [Did (ListImages "public") (Ok example_images)] (Ok "r006-2").
Proof.
  apply (selector_resolves_best ubuntu [Did (ListImages "public") (Ok example_images)] (Ok "r006-2")).
  assert (Hi : interp (example_env example_images) (ResolveImageBySelector (Some ubuntu)) tt =
    ([Did (ListImages "public") (Ok example_images)], Ok "r006-2", tt)) by (vm_compute; reflexivity).
  pose proof (interp_runs (example_env example_images) (ResolveImageBySelector (Some ubuntu)) tt) as Hr.
  rewrite Hi in Hr. exact Hr.
Defined.

(** A name resolves to the newest image whose name contains it: another image
    than the one of exactly that name, and one that cannot be booted. *)
Definition named_example : list Image :=
  [example_image "r006-5" "ibm-ubuntu-24-04-minimal-amd64-1" "available" 10;
   example_image "r006-6" "ibm-ubuntu-24-04-minimal-amd64-12" "obsolete" 20].

Lemma exact_name_not_preferred :
  (interp (example_env named_example) (ResolveImage_ "ibm-ubuntu-24-04-minimal-amd64-1") tt).1.2 = Ok "r006-6".
Proof. vm_compute. reflexivity. Qed.
