(* ===== verification/VpcLaunch.v ===== *)
(** * VpcLaunch: the durable record of a VPC launch and its recovery

    [pkg/providers/vpc/instance/recovery.go]: the launch checkpoint kept in the
    claim's annotation, the checks of ownership and account, the search for
    the instance a launch may have created, and the cleanup of a launch that
    never got a provider ID. *)
From stdpp Require Import prelude list strings gmap.
From Stdlib Require Import Ascii.
From S2P Require Import Prelude GoLib GoSort GoRegexp Errors NodeClass ProviderIDs Ownership Prog Kube.
From S2P Require Import IksApi IksAllocation IksLaunch Drift VpcApi.
Import Strings.

Open Scope string_scope.
Open Scope nat_scope.
Open Scope prog_scope.

Definition LaunchAnnotation : string := "karpenter-ibm.sh/vpc-launch".
Definition LaunchFinalizer : string := "karpenter-ibm.sh/vpc-launch".
Definition LaunchImageAnnotation : string := "karpenter-ibm.sh/launch-image-id".
Definition launchResolutionWindow : Z := (15 * GoTime.Minute)%Z.

Definition errLaunchUnresolved : GoErrors.error :=
  GoErrors.foreignError GoErrors.LaunchUnresolved "launch outcome is not yet resolved" [].
(** [errors.Is(err, errLaunchUnresolved)] *)
Definition as_unresolved (err : GoErrors.error) : option unit :=
  match err with GoErrors.foreignError GoErrors.LaunchUnresolved _ _ => Some tt | _ => None end.
Definition is_unresolved (err : GoErrors.error) : bool := bool_decide (is_Some (GoErrors.As as_unresolved err)).

Record launchConfig := {
  lc_Name : string;
  lc_ClusterUID : string;
  lc_ClaimUID : string;
  lc_ClassUID : string;
  lc_AccountID : string;
  lc_ResourceGroup : string;
  lc_Region : string;
  lc_VPC : string;
  lc_Profile : string;
  lc_Zone : string;
  lc_Subnet : string;
  lc_Image : string;
  lc_CapacityType : string;
  lc_Hash : string;
  lc_HashVersion : string;
  lc_SecurityGroups : list string;
  Submitted : bool;
  Rejected : bool;
  SubmittedAt : Z;
  lc_Capacity : ResourceList;
  lc_Allocatable : ResourceList;
  lc_Tags : gmap string string;
}.

Definition with_outcome (c : launchConfig) (submitted rejected : bool) (t : Z) : launchConfig :=
  {| lc_Name := lc_Name c; lc_ClusterUID := lc_ClusterUID c; lc_ClaimUID := lc_ClaimUID c;
     lc_ClassUID := lc_ClassUID c; lc_AccountID := lc_AccountID c;
     lc_ResourceGroup := lc_ResourceGroup c; lc_Region := lc_Region c; lc_VPC := lc_VPC c;
     lc_Profile := lc_Profile c; lc_Zone := lc_Zone c; lc_Subnet := lc_Subnet c;
     lc_Image := lc_Image c; lc_CapacityType := lc_CapacityType c; lc_Hash := lc_Hash c;
     lc_HashVersion := lc_HashVersion c; lc_SecurityGroups := lc_SecurityGroups c;
     Submitted := submitted; Rejected := rejected; SubmittedAt := t;
     lc_Capacity := lc_Capacity c; lc_Allocatable := lc_Allocatable c; lc_Tags := lc_Tags c |}.

Definition submit (c : launchConfig) (t : Z) : launchConfig := with_outcome c true (Rejected c) t.
Definition reject (c : launchConfig) : launchConfig := with_outcome c (Submitted c) true (SubmittedAt c).

(** [encoding/json] on a [launchConfig], and [crypto/sha256]. *)
Class LaunchCodec := {
  MarshalLaunch : launchConfig → result GoErrors.error string;
  UnmarshalLaunch : string → result GoErrors.error launchConfig;
  LaunchSum256 : string → string;
}.

(** Their documented behaviour: what was encoded decodes to the same value,
    and a decoding error is one of [encoding/json]'s. *)
Class LaunchLaws `{LaunchCodec} : Prop := {
  unmarshal_launch : ∀ c s, MarshalLaunch c = Ok s → UnmarshalLaunch s = Ok c;
  unmarshal_error : ∀ s e, UnmarshalLaunch s = Err e → IsNodeClaimNotFoundError e = false;
}.

(** The provider: its clients, and the process environment. *)
Record VPCInstanceProvider := {
  v_apiReader : bool;
  v_kubeClient : bool;
  v_Getenv : string → string;
  v_Environ : list string;
}.

(** [rejectedCreate] of [recovery.go]: a status of the 4xx class that is
    definite. *)
Definition rejectedStatus (err : option GoErrors.IBMError) : bool :=
  match err with
  | None => false
  | Some e =>
      let code := GoErrors.Status e in
      (400 <=? code)%Z && (code <? 500)%Z && negb (code =? 408)%Z && negb (code =? 409)%Z
        && negb (code =? 429)%Z
  end.

(** [abandoned]: an absent instance proves that the launch created nothing. *)
Definition abandoned (config : launchConfig) (now : Z) : bool :=
  Rejected config || negb (Submitted config) || (launchResolutionWindow <? GoTime.Sub now (SubmittedAt config))%Z.

(** ** Volume tags *)
Section tags.
Context `{MapRange} `{SliceSorter}.

Definition tag_key (tag : string) : string :=
  match cut ":"%char tag with Some (key, _) => key | None => tag end.

Fixpoint first_invalid (tags : list string) : option GoErrors.error :=
  match tags with
  | [] => None
  | t :: tags' => match ValidateTag t with Some e => Some e | None => first_invalid tags' end
  end.

(** The closure [tags] of [tagVolumeAttachments]. *)
Definition volume_tags (ownershipTags : gmap string string) (custom : list string) (retained : bool)
    : result GoErrors.error (list string) :=
  let result :=
    (List.filter (λ t, negb (ReservedTag (tag_key t))) custom ++
     map (λ kv, tag_of kv.1 kv.2) (map_range (map_to_list ownershipTags)) ++
     (if retained then [tag_of RetainTag "true"] else []))%list in
  match first_invalid result with
  | Some err => Err err
  | None => Ok (sort_slice string_less result)
  end.

Definition tag_attachment (ownershipTags : gmap string string) (a : VolumeAttachment)
    : result GoErrors.error VolumeAttachment :=
  match volume_tags ownershipTags (UserTags (att_Volume a)) (negb (DeleteVolumeOnInstanceDelete a)) with
  | Err err => Err err
  | Ok tags =>
      Ok {| att_Name := att_Name a;
            att_Volume :=
              {| vol_Name := vol_Name (att_Volume a); vol_Capacity := vol_Capacity (att_Volume a);
                 vol_Profile := vol_Profile (att_Volume a); vol_Iops := vol_Iops (att_Volume a);
                 vol_Bandwidth := vol_Bandwidth (att_Volume a);
                 vol_EncryptionKey := vol_EncryptionKey (att_Volume a); UserTags := tags |};
            DeleteVolumeOnInstanceDelete := DeleteVolumeOnInstanceDelete a |}
  end.

Fixpoint tag_attachments (ownershipTags : gmap string string) (l : list VolumeAttachment)
    : result GoErrors.error (list VolumeAttachment) :=
  match l with
  | [] => Ok []
  | a :: l' =>
      match tag_attachment ownershipTags a with
      | Err err => Err err
      | Ok a => match tag_attachments ownershipTags l' with
                | Err err => Err err
                | Ok l => Ok (a :: l)
                end
      end
  end.

Definition tagVolumeAttachments (boot : VolumeAttachment) (data : list VolumeAttachment)
    (ownershipTags : gmap string string)
    : result GoErrors.error (VolumeAttachment * list VolumeAttachment) :=
  match tag_attachment ownershipTags boot with
  | Err err => Err err
  | Ok boot => match tag_attachments ownershipTags data with
               | Err err => Err err
               | Ok data => Ok (boot, data)
               end
  end.
End tags.

Section recovery.
Context `{LaunchCodec}.
Context (p : VPCInstanceProvider).

Local Abbreviation vpc A := (prog vpc_call (result GoErrors.error A)).
Local Abbreviation vpc_err := (prog vpc_call err).

Definition v_reader : bool := v_apiReader p || v_kubeClient p.

(** [x, err := q; if err != nil { return err }] in a function that returns
    only an error. *)
Definition vcheck {A} (q : vpc A) (f : A → vpc_err) : vpc_err :=
  bind q (λ r, match r with Ok a => f a | Err e => Ret (Some e) end).
(** [if err := q; err != nil { return nil, err }] *)
Definition guarded_by {A} (q : vpc_err) (k : vpc A) : vpc A :=
  bind q (λ e, match e with Some err => fail_with err | None => k end).

Definition decodeLaunch (value : string) : result GoErrors.error launchConfig :=
  match UnmarshalLaunch value with
  | Err err => Err (wrapped_ "invalid launch checkpoint" err)
  | Ok config =>
      if empty (lc_ClaimUID config) || empty (lc_ClusterUID config) || empty (lc_Region config) ||
         negb (String.eqb (lc_Name config)
                 (InstanceName LaunchSum256 (lc_ClusterUID config) (lc_ClaimUID config)))
      then Err (GoErrors.New "launch checkpoint has invalid ownership")
      else Ok config
  end.

(** ** The account *)
Definition resolveAccountID (region : string) : vpc string :=
  answer ⟵ ResolveAccount region;
  match answer with
  | Err err => fail_with err
  | Ok accountID =>
      let configured := v_Getenv p "IBM_ACCOUNT_ID" in
      if empty accountID then fail "VPC credential account could not be verified"
      else if negb (empty configured) && negb (String.eqb configured accountID)
      then fail "configured IBM account does not match the VPC credential account"
      else Ret (Ok accountID)
  end.

Definition validateAccountTarget (region birthAccount : string) : vpc_err :=
  if empty birthAccount
  then Ret (Some (GoErrors.New "VPC birth account is unproven; retaining allocation ownership"))
  else vcheck (resolveAccountID region) (λ accountID,
         Ret (if negb (String.eqb accountID birthAccount)
              then Some (GoErrors.New "VPC credential account differs from the immutable birth account; retaining ownership")
              else None)).

Definition VClusterUID : vpc string :=
  answer ⟵ KGetNamespace "kube-system";
  Ret (ClusterUID_of (Some answer)).

Definition validateLaunchTarget (claim : NodeClaim) (config : launchConfig) : vpc_err :=
  if negb v_reader then Ret (Some (GoErrors.New "kubernetes API reader is required for launch ownership"))
  else vcheck VClusterUID (λ clusterUID,
    if negb (String.eqb (lc_ClaimUID config) (UID (claim_meta claim))) ||
       negb (String.eqb (lc_ClusterUID config) clusterUID)
    then Ret (Some (GoErrors.New "launch checkpoint belongs to another claim or cluster"))
    else if negb (empty (claim_ProviderID claim)) &&
            negb (String.eqb (providerRegion (claim_ProviderID claim)) (lc_Region config))
    then Ret (Some (GoErrors.New "provider ID region does not match launch checkpoint"))
    else
      e ⟵ ClientForRegion (lc_Region config);
      match e with
      | Some err => Ret (Some err)
      | None => validateAccountTarget (lc_Region config) (lc_AccountID config)
      end).

Definition ValidateLaunchTarget (claim : option NodeClaim) : vpc_err :=
  match claim with
  | None => Ret (Some (GoErrors.New "NodeClaim launch checkpoint is required"))
  | Some claim =>
      let launch := get (Annotations (claim_meta claim)) LaunchAnnotation in
      if empty launch then
        let region := providerRegion (claim_ProviderID claim) in
        e ⟵ ClientForRegion region;
        match e with
        | Some err => Ret (Some err)
        | None => validateAccountTarget region (get (Annotations (claim_meta claim)) AccountIDAnnotation)
        end
      else
        match decodeLaunch launch with
        | Err err => Ret (Some err)
        | Ok config => validateLaunchTarget claim config
        end
  end.

(** The CRN names the account. *)
Definition verifyInstanceAccount (crn : option string) (accountID : string) : option GoErrors.error :=
  match crn with
  | None => Some (GoErrors.New "instance has no CRN to verify its account")
  | Some crn =>
      if empty crn then Some (GoErrors.New "instance has no CRN to verify its account")
      else match Split crn ":"%char with
           | [p0; _; _; _; _; _; p6; _; _; _] =>
               if negb (String.eqb p0 "crn") || negb (String.eqb p6 ("a/" ++ accountID))
               then Some (GoErrors.New "instance CRN does not match the verified credential account")
               else None
           | _ => Some (GoErrors.New "instance CRN does not match the verified credential account")
           end
  end.

(** ** The checkpoint *)
Definition launch_meta (m : ObjectMeta) (value region : string) : ObjectMeta :=
  {| Name := Name m; UID := UID m; ResourceVersion := ResourceVersion m;
     Generation := Generation m; DeletionTimestamp := DeletionTimestamp m;
     CreationTimestamp := CreationTimestamp m; Labels := Labels m;
     Annotations := <[RegionAnnotation := region]> (<[BackendAnnotation := "vpc"]>
       (<[LaunchAnnotation := value]> (Annotations m)));
     Finalizers := AddFinalizer (Finalizers m) LaunchFinalizer |}.

(** [updateLaunch]: the claim as the server returned it. *)
Definition updateLaunch (claim : NodeClaim) (config : launchConfig) : vpc NodeClaim :=
  match MarshalLaunch config with
  | Err err => fail_with err
  | Ok value =>
      call (KPatchClaim claim (set_meta claim (launch_meta (claim_meta claim) value (lc_Region config))))
  end.

(** [claim.ResourceVersion, claim.Annotations, claim.Finalizers = fresh...] *)
Definition adopt_meta (claim fresh : NodeClaim) : NodeClaim :=
  let m := claim_meta claim in
  set_meta claim
    {| Name := Name m; UID := UID m; ResourceVersion := ResourceVersion (claim_meta fresh);
       Generation := Generation m; DeletionTimestamp := DeletionTimestamp m;
       CreationTimestamp := CreationTimestamp m; Labels := Labels m;
       Annotations := Annotations (claim_meta fresh); Finalizers := Finalizers (claim_meta fresh) |}.

Definition checkpointLaunch (claim : NodeClaim) (config : launchConfig) : vpc NodeClaim :=
  fresh ←! call (KGetClaim (Name (claim_meta claim)));
  if negb (String.eqb (UID (claim_meta fresh)) (UID (claim_meta claim))) ||
     bool_decide (is_Some (DeletionTimestamp (claim_meta fresh))) ||
     negb (empty (get (Annotations (claim_meta fresh)) LaunchAnnotation))
  then fail "NodeClaim launch changed before submission"
  else
    updated ←! updateLaunch fresh config;
    Ret (Ok (adopt_meta claim updated)).

(** One attempt of [markLaunchRejected]. *)
Definition mark_rejected (claim : NodeClaim) (submitted : string) (config : launchConfig) : vpc NodeClaim :=
  fresh ←! call (KGetClaim (Name (claim_meta claim)));
  if negb (String.eqb (UID (claim_meta fresh)) (UID (claim_meta claim))) ||
     negb (String.eqb (get (Annotations (claim_meta fresh)) LaunchAnnotation) submitted)
  then fail "NodeClaim launch changed before rejection was recorded"
  else
    updated ←! updateLaunch fresh config;
    Ret (Ok (adopt_meta claim updated)).

(** [markLaunchRejected]: the claim as it then is; the configuration becomes
    [reject config]. *)
Definition markLaunchRejected (claim : NodeClaim) (config : launchConfig) : vpc NodeClaim :=
  match MarshalLaunch config with
  | Err err => fail_with err
  | Ok submitted => retry_on_conflict 4 (mark_rejected claim submitted (reject config))
  end.

Definition reset_meta (m : ObjectMeta) : ObjectMeta :=
  {| Name := Name m; UID := UID m; ResourceVersion := ResourceVersion m;
     Generation := Generation m; DeletionTimestamp := DeletionTimestamp m;
     CreationTimestamp := CreationTimestamp m; Labels := Labels m;
     Annotations := delete RegionAnnotation (delete BackendAnnotation
       (delete LaunchAnnotation (Annotations m)));
     Finalizers := RemoveFinalizer (Finalizers m) LaunchFinalizer |}.

Definition resetPreparedLaunch (claim : NodeClaim) : vpc_err :=
  vcheck (call (KPatchClaim claim (set_meta claim (reset_meta (claim_meta claim))))) (λ _, Ret None).

(** ** The instance of a launch *)
Definition named (name : string) (i : Instance) : bool :=
  match inst_Name i with Some n => String.eqb n name | None => false end.

Definition is_ (field : option string) (value : string) : bool :=
  match field with Some v => String.eqb v value | None => false end.

(** The loop of [findLaunch]: the instance of that name, as [GetInstance]
    returns it. *)
Fixpoint find_named (region name : string) (instances : list Instance) (found : option Instance)
    : vpc (option Instance) :=
  match instances with
  | [] => Ret (Ok found)
  | i :: instances' =>
      if negb (named name i) then find_named region name instances' found
      else match found with
           | Some _ => fail "multiple instances match launch identity"
           | None =>
               match inst_ID i with
               | None => fail "matching instance has no ID"
               | Some id =>
                   answer ⟵ GetInstance region id;
                   match answer with
                   | (_, Some err) => fail_with err
                   | (found, None) => find_named region name instances' found
                   end
               end
           end
  end.

(** The subnet of the primary interface, else of the primary attachment. *)
Definition instance_subnet (i : Instance) : string :=
  match PrimaryNetworkInterface i with
  | Some s => s
  | None => default "" (PrimaryNetworkAttachment i)
  end.

Definition matches_launch (config : launchConfig) (i : Instance) : option GoErrors.error :=
  if negb (is_ (inst_Name i) (lc_Name config)) || negb (is_ (inst_Profile i) (lc_Profile config)) ||
     negb (is_ (inst_Zone i) (lc_Zone config)) || negb (is_ (inst_VPC i) (lc_VPC config)) ||
     negb (is_ (inst_Image i) (lc_Image config))
  then Some (GoErrors.New "instance does not match its launch checkpoint")
  else if negb (String.eqb (instance_subnet i) (lc_Subnet config))
  then Some (GoErrors.New "instance subnet does not match launch checkpoint")
  else if negb (empty (lc_ResourceGroup config)) && negb (is_ (inst_ResourceGroup i) (lc_ResourceGroup config))
  then Some (GoErrors.New "instance resource group does not match launch checkpoint")
  else verifyInstanceAccount (inst_CRN i) (lc_AccountID config).

(** [findLaunch] with the client of a region. *)
Definition findLaunch (region : string) (config : launchConfig) : vpc (option Instance) :=
  instances ←! call (ListInstancesByName region (lc_Name config));
  found ←! find_named region (lc_Name config) instances None;
  match found with
  | None => Ret (Ok None)
  | Some i =>
      match matches_launch config i with
      | Some err => fail_with err
      | None => Ret (Ok (Some i))
      end
  end.

Definition config_node (config : launchConfig) (claim : NodeClaim) (instanceID : string) : Node :=
  {| node_meta :=
       {| Name := Name (claim_meta claim); UID := ""; ResourceVersion := ""; Generation := 0;
          DeletionTimestamp := None; CreationTimestamp := GoTime.zero_time;
          Labels := <[ManagedLabel := "true"]> (<[LabelInstanceTypeStable := lc_Profile config]>
            (<[LabelTopologyZone := lc_Zone config]> (<[LabelTopologyRegion := lc_Region config]>
            (<[CapacityTypeLabelKey := lc_CapacityType config]>
            {[NodePoolLabelKey := get (Labels (claim_meta claim)) NodePoolLabelKey]}))));
          Annotations :=
            let base :=
              <[BackendAnnotation := "vpc"]> (<[RegionAnnotation := lc_Region config]>
              (<[LaunchAnnotation := get (Annotations (claim_meta claim)) LaunchAnnotation]>
              (<[LaunchImageAnnotation := lc_Image config]>
              (<[AnnotationIBMNodeClaimImageID := lc_Image config]>
              (<[AnnotationIBMNodeClassHash := lc_Hash config]>
              (<[AnnotationIBMNodeClassHashVersion := lc_HashVersion config]>
              (<[AnnotationIBMNodeClaimSubnetID := lc_Subnet config]>
              {[AnnotationIBMNodeClaimSecurityGroups := Join (lc_SecurityGroups config) ","]}))))))) in
            if empty (lc_AccountID config) then base
            else <[AccountIDAnnotation := lc_AccountID config]> base;
          Finalizers := [] |};
     node_ProviderID := vpc_provider_id (lc_Region config) instanceID;
     Unschedulable := false; OwnerReferences := []; node_Status := {| st_Capacity := lc_Capacity config; st_Allocatable := lc_Allocatable config;
                       InternalIPs := []; node_Conditions := [] |} |}.

(** The tags of the checkpoint, without the reserved ones, and those of
    ownership. *)
Definition recovery_tags (config : launchConfig) : gmap string string :=
  filter (λ kv, ReservedTag kv.1 = false) (lc_Tags config) ∪
  VPCTags (lc_ClusterUID config) (lc_ClaimUID config) (lc_ClassUID config).

Definition is_deleting (i : Instance) : bool := is_ (inst_Status i) InstanceStatusDeletingConst.

Definition recoverLaunch (claim : NodeClaim) (config : launchConfig) : vpc Node :=
  guarded_by (validateLaunchTarget claim config) (
    e ⟵ ClientForRegion (lc_Region config);
    match e with
    | Some err => fail_with err
    | None =>
        instance ←! findLaunch (lc_Region config) config;
        match instance with
        | None => fail_with (GoErrors.wrap (GoErrors.Error errLaunchUnresolved ++ ": " ++ lc_Name config)
                               errLaunchUnresolved)
        | Some i =>
            match inst_ID i with
            | None => fail "launch instance is terminating"
            | Some id =>
                if is_deleting i then fail "launch instance is terminating"
                else
                  e ⟵ UpdateInstanceTags (lc_Region config) id (recovery_tags config);
                  match e with
                  | Some err => fail_with err
                  | None => Ret (Ok (config_node config claim id))
                  end
            end
        end
    end).

(** ** Cleanup of a launch without a provider ID *)

(** The nodes of the instance: whether one was found. *)
Fixpoint pending_nodes (providerID : string) (nodes : list Node) (foundNode : bool) : vpc bool :=
  match nodes with
  | [] => Ret (Ok foundNode)
  | node :: nodes' =>
      if negb (String.eqb (node_ProviderID node) providerID) then pending_nodes providerID nodes' foundNode
      else if negb (existsb (String.eqb TerminationFinalizer) (Finalizers (node_meta node)))
      then fail "pending instance has a Node without graceful termination ownership"
      else if bool_decide (is_Some (DeletionTimestamp (node_meta node)))
      then pending_nodes providerID nodes' true
      else
        deleteErr ⟵ KDeleteNode node (UID (node_meta node));
        match IgnoreNotFound deleteErr with
        | Some deleteErr => fail_with deleteErr
        | None => pending_nodes providerID nodes' true
        end
  end.

Definition is_absent (e : err) : bool := IBM.IsNotFound e.

(** The deletion and the look that confirms it. *)
Definition delete_pending (region id : string) : vpc bool :=
  deleteErr ⟵ DeleteInstance region id;
  match deleteErr with
  | Some e =>
      if negb (is_absent (Some e)) then fail_with e
      else
        answer ⟵ GetInstance region id;
        match snd answer with
        | None => Ret (Ok false)
        | Some err => if is_absent (Some err) then Ret (Ok true) else fail_with err
        end
  | None =>
      answer ⟵ GetInstance region id;
      match snd answer with
      | None => Ret (Ok false)
      | Some err => if is_absent (Some err) then Ret (Ok true) else fail_with err
      end
  end.

Definition CleanupPending (claim : NodeClaim) : vpc bool :=
  match decodeLaunch (get (Annotations (claim_meta claim)) LaunchAnnotation) with
  | Err err => fail_with err
  | Ok config =>
      guarded_by (validateLaunchTarget claim config) (
        e ⟵ ClientForRegion (lc_Region config);
        match e with
        | Some err => fail_with err
        | None =>
            instance ←! findLaunch (lc_Region config) config;
            match instance with
            | None => now ⟵ VNow; Ret (Ok (abandoned config now))
            | Some i =>
                match inst_ID i with
                | None => fail "pending instance has no ID"
                | Some id =>
                    nodes ←! call KListNodes;
                    foundNode ←! pending_nodes (vpc_provider_id (lc_Region config) id) nodes false;
                    if foundNode : bool then Ret (Ok false) else delete_pending (lc_Region config) id
                end
            end
        end)
  end.
End recovery.
