(* ===== verification/Bootstrap.v ===== *)
(** * Bootstrap: environment variables in a node's bootstrap script

    [InjectBootstrapEnvVars] of [pkg/providers/vpc/bootstrap/cloudinit.go]: the
    [BOOTSTRAP_*] variables of the controller become exports after the
    script's shebang. *)
From stdpp Require Import prelude list strings.
From Stdlib Require Import Ascii.
From S2P Require Import Prelude GoLib GoRegexp.
Import Strings.

Open Scope string_scope.
Open Scope nat_scope.

Definition newline : ascii := "010".
Definition dquote : ascii := "034".
Definition backslash : ascii := "092".
Definition nl : string := String newline "".

(** ** strconv.Quote, on ASCII *)
Definition lower_hex (n : nat) : ascii := ascii_of_nat (if Nat.ltb n 10 then 48 + n else 87 + n).

Definition escape (c : ascii) : string :=
  let n := nat_of_ascii c in
  let short d := String backslash (String d "") in
  if Ascii.eqb c dquote || Ascii.eqb c backslash then short c
  else if Nat.leb 32 n && Nat.ltb n 127 then String c ""
  else if Nat.eqb n 7 then short "a"%char
  else if Nat.eqb n 8 then short "b"%char
  else if Nat.eqb n 12 then short "f"%char
  else if Nat.eqb n 10 then short "n"%char
  else if Nat.eqb n 13 then short "r"%char
  else if Nat.eqb n 9 then short "t"%char
  else if Nat.eqb n 11 then short "v"%char
  else String backslash (String "x"%char (String (lower_hex (n / 16)) (String (lower_hex (n mod 16)) ""))).

Fixpoint escaped (s : string) : string :=
  match s with "" => "" | String c s' => escape c ++ escaped s' end.
Definition Quote (s : string) : string := String dquote (escaped s ++ String dquote "").

(** ** The exports *)
Definition export_line (env : string) : string :=
  if HasPrefix env "BOOTSTRAP_" then
    match cut "="%char env with
    | Some (varName, varValue) => "export " ++ varName ++ "=" ++ Quote varValue ++ nl
    | None => ""
    end
  else "".

Fixpoint bootstrap_exports (environ : list string) : string :=
  match environ with [] => "" | env :: environ' => export_line env ++ bootstrap_exports environ' end.

Definition shebang : string := "#!/bin/bash" ++ nl.
Definition strict_shebang : string := shebang ++ "set -euo pipefail" ++ nl.

(** [strings.Replace(script, old, new, 1)] where [old] starts the script. *)
Definition replace_prefix (script old new : string) : string := new ++ TrimPrefix script old.

Definition InjectBootstrapEnvVars (environ : list string) (script : string) : string :=
  let bootstrapVars := bootstrap_exports environ in
  if Nat.ltb 0 (String.length bootstrapVars) then
    if HasPrefix script strict_shebang then
      replace_prefix script strict_shebang (strict_shebang ++ nl ++ bootstrapVars)
    else if HasPrefix script shebang then
      replace_prefix script shebang (shebang ++ nl ++ bootstrapVars)
    else bootstrapVars ++ nl ++ script
  else script.
