(* ===== verification/VpcCreate.v ===== *)
(** * VpcCreate: creating a VPC instance

    [Create] of [pkg/providers/vpc/instance/provider.go], one definition for
    each of its parts: the launch an earlier call left, the class, the
    profile, the placement, the network interface, the image, the volumes and
    the prototype, and the submission of the prototype under the checkpoint.
    Logs and metrics, with the quota lookup made for them, change nothing else
    and are left out. *)
From stdpp Require Import prelude list strings gmap.
From Stdlib Require Import Ascii.
From S2P Require Import Prelude GoLib GoSort GoRegexp Errors NodeClass ProviderIDs Ownership Prog Kube.
From S2P Require Import IksApi IksAllocation IksLaunch Drift CapacityType VpcApi VpcLaunch Bootstrap.
Import Strings.

Open Scope string_scope.
Open Scope nat_scope.
Open Scope prog_scope.

(** [errors.As] to [*CreateInstanceNotSentError]. *)
Definition as_not_sent (err : GoErrors.error) : option unit :=
  match err with GoErrors.foreignError GoErrors.CreateInstanceNotSentError _ _ => Some tt | _ => None end.
Definition IsCreateInstanceNotSent (err : GoErrors.error) : bool :=
  bool_decide (is_Some (GoErrors.As as_not_sent err)).

(** [%w: %v] of the two errors. *)
Definition recording_failed (err checkpointErr : GoErrors.error) : GoErrors.error :=
  GoErrors.wrap ("recording rejected launch after " ++ GoErrors.Error err ++ ": "
    ++ GoErrors.Error checkpointErr) err.

(** ** Choices made from lists *)

(** The loop over the subnets of a zone: the best so far and its free
    addresses. *)
Definition best_in_zone (zone : string) (subnets : list SubnetInfo) : string :=
  fst (foldl (λ best s,
    if String.eqb (sub_Zone s) zone && String.eqb (sub_State s) "available"
       && (snd best <? AvailableIPs s)%Z
    then (sub_ID s, AvailableIPs s) else best) ("", -1)%Z subnets).

(** [zoneSubnets] and [zones] of [selectSubnetFromMultiZoneList]. *)
Definition by_zone (subnets : list SubnetInfo) : gmap string (list SubnetInfo) * list string :=
  foldl (λ '(zoneSubnets, zones) s,
    (<[sub_Zone s := (default [] (zoneSubnets !! sub_Zone s) ++ [s])%list]> zoneSubnets,
     match zoneSubnets !! sub_Zone s with Some _ => zones | None => (zones ++ [sub_Zone s])%list end))
    (∅, []) subnets.

Definition most_addresses (first : SubnetInfo) (l : list SubnetInfo) : SubnetInfo :=
  foldl (λ best s, if (AvailableIPs best <? AvailableIPs s)%Z then s else best) first l.

Definition no_subnet : SubnetInfo :=
  {| sub_ID := ""; sub_Zone := ""; CIDR := ""; AvailableIPs := 0; TotalIPCount := 0; UsedIPCount := 0; ReservedIPCount := 0;
     sub_Tags := ∅; sub_State := "" |}.

Definition out_of_range : string := "runtime error: index out of range".

(** ** Volumes *)
Definition general_purpose : string := "general-purpose".

Definition default_boot (instanceName : string) : VolumeAttachment :=
  {| att_Name := None;
     att_Volume := {| vol_Name := instanceName ++ "-boot"; vol_Capacity := Some 100%Z;
       vol_Profile := Some general_purpose; vol_Iops := None; vol_Bandwidth := None;
       vol_EncryptionKey := None; UserTags := [] |};
     DeleteVolumeOnInstanceDelete := true |}.

(** The volume of a specification: 100 GB of general-purpose by default. *)
Definition volume_of (name : string) (spec : VolumeSpec) : VolumePrototype :=
  {| vol_Name := name; vol_Capacity := Some (default 100%Z (Capacity spec));
     vol_Profile := Some (default general_purpose (Profile spec)); vol_Iops := IOPS spec;
     vol_Bandwidth := Bandwidth spec; vol_EncryptionKey := EncryptionKeyID spec;
     UserTags := vol_Tags spec |}.

Definition boot_of (instanceName : string) (mapping : BlockDeviceMapping) : VolumeAttachment :=
  match VolumeSpec_ mapping with
  | Some spec =>
      {| att_Name := DeviceName mapping; att_Volume := volume_of (instanceName ++ "-boot") spec;
         DeleteVolumeOnInstanceDelete := default true (DeleteOnTermination spec) |}
  | None =>
      {| att_Name := DeviceName mapping; att_Volume := att_Volume (default_boot instanceName);
         DeleteVolumeOnInstanceDelete := true |}
  end.

Definition data_of (instanceName : string) (index : nat) (mapping : BlockDeviceMapping)
    (spec : VolumeSpec) : VolumeAttachment :=
  let volumeName :=
    match DeviceName mapping with
    | Some name => name
    | None => instanceName ++ "-data-" ++ Strconv.Itoa (Z.of_nat index)
    end in
  {| att_Name := Some volumeName; att_Volume := volume_of volumeName spec;
     DeleteVolumeOnInstanceDelete := default true (DeleteOnTermination spec) |}.

(** The loop over the mappings: the boot volume, if one was seen, and the data
    volumes. *)
Fixpoint volumes_loop (instanceName : string) (mappings : list BlockDeviceMapping)
    (boot : option VolumeAttachment) (data : list VolumeAttachment)
    : option VolumeAttachment * list VolumeAttachment :=
  match mappings with
  | [] => (boot, data)
  | mapping :: mappings' =>
      if RootVolume mapping then volumes_loop instanceName mappings' (Some (boot_of instanceName mapping)) data
      else match VolumeSpec_ mapping with
           | None => volumes_loop instanceName mappings' boot data
           | Some spec => volumes_loop instanceName mappings' boot
                            (data ++ [data_of instanceName (length data) mapping spec])%list
           end
  end.

Definition buildVolumeAttachments (nodeClass : IBMNodeClass) (instanceName : string)
    : VolumeAttachment * list VolumeAttachment :=
  match BlockDeviceMappings (Spec nodeClass) with
  | [] => (default_boot instanceName, [])
  | mappings =>
      let '(boot, data) := volumes_loop instanceName mappings None [] in
      (default (default_boot instanceName) boot, data)
  end.

(** ** The tags of the instance *)
Section cloud_tags.
Context `{MapRange} `{SliceSorter}.

Definition instanceCloudTags (nodeClass : IBMNodeClass) (claim : NodeClaim) (clusterUID : string)
    : result GoErrors.error (gmap string string) :=
  let tags :=
    filter (λ kv, ReservedTag kv.1 = false) (Tags (Spec nodeClass)) ∪
    VPCTags clusterUID (UID (claim_meta claim)) (UID (nc_meta nodeClass)) in
  match FormatTags tags with
  | Err err => Err err
  | Ok _ => Ok tags
  end.
End cloud_tags.

(** [isHexString] *)
Definition is_hex (c : ascii) : bool := is_digit c || in_range "a" "f" c || in_range "A" "F" c.
Definition isHexString (s : string) : bool := negb (empty s) && all_chars is_hex s.

(** A VPC resource name with room for a suffix. *)
Definition resource_name (cloudName : string) : string := take 55 cloudName.

Section create.
Context `{Karpenter} `{LaunchCodec} `{MapRange} `{SliceSorter}.
Context (p : VPCInstanceProvider).

Local Abbreviation vpc A := (prog vpc_call (result GoErrors.error A)).

(** ** The class and the profile *)

(** [nodeClaim.Spec.NodeClassRef.Name], the class and its readiness. *)
Definition launch_class (ref : NodeClassReference) : vpc IBMNodeClass :=
  answer ⟵ KGetClass (ref_Name ref);
  match answer with
  | Err getErr => fail_with (wrapped_ ("getting NodeClass " ++ ref_Name ref) getErr)
  | Ok nodeClass =>
      if empty (UID (nc_meta nodeClass)) then fail "VPC launch requires a persisted NodeClass"
      else if existsb (λ c, String.eqb (cond_Type c) "Ready" && String.eqb (cond_Status c) "True"
                            && (ObservedGeneration c =? Generation (nc_meta nodeClass))%Z)
                (Conditions (Status nodeClass))
      then Ret (Ok nodeClass)
      else fail ("NodeClass generation " ++ Strconv.Itoa (Generation (nc_meta nodeClass))
                 ++ " has not been validated")
  end.

(** The first instance type and its checks. *)
Definition select_type (claim : NodeClaim) (nodeClass : IBMNodeClass) (types : list (option InstanceType))
    : result GoErrors.error InstanceType :=
  match types with
  | [] => Err (GoErrors.New ("no compatible instance types provided for nodeclaim " ++ Name (claim_meta claim)))
  | None :: _ => Err (GoErrors.New nil_dereference)
  | Some it :: _ =>
      if empty (it_Name it) then Err (GoErrors.New "selected instance type has empty name")
      else if empty (TrimSpace (it_Name it))
      then Err (GoErrors.New "instance profile is empty or whitespace-only")
      else if negb (empty (InstanceProfile (Spec nodeClass))) &&
              negb (String.eqb (it_Name it) (InstanceProfile (Spec nodeClass)))
      then Err (GoErrors.New ("selected instance profile " ++ it_Name it
             ++ " differs from the current NodeClass profile " ++ InstanceProfile (Spec nodeClass)))
      else Ok it
  end.

(** ** Placement *)
Definition selectSubnetFromStatusList (subnetIDs : list string) : vpc string :=
  match subnetIDs with
  | [] => Ret (Ok "")
  | [id] => Ret (Ok id)
  | _ =>
      index ⟵ IntN (length subnetIDs);
      match subnetIDs !! index with
      | Some id => Ret (Ok id)
      | None => fail out_of_range
      end
  end.

Definition selectSubnetFromMultiZoneList (subnets : list SubnetInfo) : vpc SubnetInfo :=
  match subnets with
  | [] => Ret (Ok no_subnet)
  | [s] => Ret (Ok s)
  | _ =>
      let '(zoneSubnets, zones) := by_zone subnets in
      zoneIndex ⟵ IntN (length zones);
      match zones !! zoneIndex with
      | None => fail out_of_range
      | Some zone =>
          match default [] (zoneSubnets !! zone) with
          | [] => fail out_of_range
          | first :: l => Ret (Ok (most_addresses first (first :: l)))
          end
      end
  end.

Definition subnet_zone (prefix id : string) : vpc string :=
  answer ⟵ GetSubnet id;
  match answer with
  | Err err => fail_with (wrapped_ prefix err)
  | Ok info => Ret (Ok (sub_Zone info))
  end.

(** Neither zone nor subnet is given: the placement strategy decides. *)
Definition place_by_strategy (nodeClass : IBMNodeClass) : vpc (string * string) :=
  match PlacementStrategy_ (Spec nodeClass) with
  | None => fail "zone selection requires either explicit zone/subnet or placement strategy"
  | Some strategy =>
      match SelectedSubnets (Status nodeClass) with
      | (_ :: _) as selected =>
          id ←! selectSubnetFromStatusList selected;
          zone ←! subnet_zone ("getting subnet info for selected subnet " ++ id) id;
          Ret (Ok (zone, id))
      | [] =>
          answer ⟵ SelectSubnets (VPC (Spec nodeClass)) strategy;
          match answer with
          | Err err => fail_with (wrapped_ "selecting subnets with placement strategy" err)
          | Ok [] => fail "no subnets selected by placement strategy"
          | Ok selected =>
              s ←! selectSubnetFromMultiZoneList selected;
              Ret (Ok (sub_Zone s, sub_ID s))
          end
      end
  end.

Definition place_in_zone (nodeClass : IBMNodeClass) (zone : string) : vpc (string * string) :=
  answer ⟵ ListSubnets (VPC (Spec nodeClass));
  match answer with
  | Err err => fail_with (wrapped_ "listing subnets for zone-based selection" err)
  | Ok subnets =>
      let best := best_in_zone zone subnets in
      if empty best then fail ("no available subnet found in zone " ++ zone)
      else Ret (Ok (zone, best))
  end.

(** The zone and the subnet of the instance. *)
Definition place (nodeClass : IBMNodeClass) : vpc (string * string) :=
  let zone := Zone (Spec nodeClass) in
  let subnet := Subnet (Spec nodeClass) in
  placed ←! (if empty zone && empty subnet then place_by_strategy nodeClass
             else if empty zone then
               zone ←! subnet_zone "getting subnet info for zone derivation" subnet;
               Ret (Ok (zone, subnet))
             else if empty subnet then place_in_zone nodeClass zone
             else Ret (Ok (zone, subnet)));
  if empty (fst placed) || empty (snd placed) then fail "both zone and subnet must be specified"
  else Ret (Ok placed).

(** ** The network interface *)
Definition resolveResourceGroupID (resourceGroupInput : string) : vpc string :=
  if Nat.eqb (String.length resourceGroupInput) 32 && isHexString resourceGroupInput
  then Ret (Ok resourceGroupInput)
  else
    answer ⟵ GetResourceGroupIDByName resourceGroupInput;
    match answer with
    | Err err => fail_with (wrapped_ ("failed to resolve resource group name '" ++ resourceGroupInput ++ "' to ID") err)
    | Ok id => Ret (Ok id)
    end.

(** A resource group where one is given. *)
Definition optional_group (prefix group : string) : vpc (option string) :=
  if empty group then Ret (Ok None)
  else bind (resolveResourceGroupID group) (λ r,
    match r with
    | Err err => fail_with (wrapped_ (prefix ++ group) err)
    | Ok id => Ret (Ok (Some id))
    end).

(** The security groups of the class, else the default one of its VPC. *)
Definition launch_groups (nodeClass : IBMNodeClass) : vpc (list string) :=
  match SecurityGroups (Spec nodeClass) with
  | [] =>
      answer ⟵ GetDefaultSecurityGroup (Region (Spec nodeClass)) (VPC (Spec nodeClass));
      match answer with
      | Err err => fail_with (wrapped_ ("getting default security group for VPC " ++ VPC (Spec nodeClass)) err)
      | Ok None => fail nil_dereference
      | Ok (Some id) => Ret (Ok [id])
      end
  | groups => Ret (Ok groups)
  end.

Definition interface_of (name subnet : string) (group : option string) (groups : list string) : VNIPrototype :=
  {| vni_Subnet := subnet; EnableInfrastructureNat := true; AllowIPSpoofing := false;
     ProtocolStateFilteringMode := "auto"; vni_Name := name ++ "-vni"; AutoDelete := true;
     vni_ResourceGroup := group; vni_SecurityGroups := groups |}.

(** ** The image *)
Definition launch_image (nodeClass : IBMNodeClass) : vpc string :=
  let region := Region (Spec nodeClass) in
  imageID ←!
    (if negb (empty (ResolvedImageID (Status nodeClass))) then Ret (Ok (ResolvedImageID (Status nodeClass)))
     else if negb (empty (Image (Spec nodeClass))) then
       answer ⟵ ResolveImage region (Image (Spec nodeClass));
       match answer with
       | Err err => fail_with (wrapped_ ("resolving image " ++ Image (Spec nodeClass)) err)
       | Ok id => Ret (Ok id)
       end
     else
       match ImageSelector_ (Spec nodeClass) with
       | Some selector =>
           answer ⟵ ResolveImageBySelector region selector;
           match answer with
           | Err err => fail_with (wrapped_ "resolving image using selector" err)
           | Ok id => Ret (Ok id)
           end
       | None => fail "neither image nor imageSelector specified in NodeClass"
       end);
  if empty imageID then fail "image resolution returned empty imageID" else Ret (Ok imageID).

(** ** User data *)
Definition generateBootstrapUserData (nodeClass : IBMNodeClass) (claim profile : string) : vpc string :=
  if negb (empty (UserData (Spec nodeClass)))
  then Ret (Ok (InjectBootstrapEnvVars (v_Environ p) (UserData (Spec nodeClass))))
  else
    answer ⟵ BootstrapProvider;
    match answer with
    | Some err => fail_with (wrapped_ "failed to create kubernetes client" err)
    | None =>
        answer ⟵ GetUserData nodeClass claim profile;
        match answer with
        | Err err => fail_with (wrapped_ "failed to generate bootstrap user data" err)
        | Ok userData => Ret (Ok userData)
        end
    end.

(** ** The prototype *)

(** [switch capacityType]: the availability class, the policy and the affinity. *)
Definition availability_of (capacityType : string) : option string * Policy * option string :=
  if String.eqb capacityType CapacityTypeSpot
  then (Some CapacityTypeSpot, Preemption "stop", Some "disabled")
  else (None, HostFailure "restart", None).

Definition prototype_of (nodeClass : IBMNodeClass) (cloudName capacityType zone image profile : string)
    (interface : VNIPrototype) (boot : VolumeAttachment) (data : list VolumeAttachment)
    (group : option string) (userData : string) : InstancePrototype :=
  let '(availability, policy, affinity) := availability_of capacityType in
  {| proto_Image := image; proto_Zone := zone; AttachmentName := resource_name cloudName ++ "-primary";
     VirtualNetworkInterface := interface; proto_VPC := VPC (Spec nodeClass); proto_Name := cloudName;
     proto_Profile := profile; BootVolumeAttachment := boot; Availability := availability;
     AvailabilityPolicy := policy; ReservationAffinity := affinity;
     proto_PlacementTarget := if empty (PlacementTarget (Spec nodeClass)) then None
                              else Some (PlacementTarget (Spec nodeClass));
     proto_ResourceGroup := group; Keys := SSHKeys (Spec nodeClass); proto_UserData := userData;
     VolumeAttachments := data; MetadataService := Some (true, "http", 2%Z) |}.

Definition non_empty_group (group : string) (id : option string) : result GoErrors.error (option string) :=
  match id with
  | Some "" => Err (GoErrors.New ("resource group " ++ group ++ " resolved to empty ID"))
  | _ => Ok id
  end.

Definition sdk_builder (region : string) : vpc unit :=
  answer ⟵ SDKBuilder region;
  match answer with
  | None => fail "failed to get VPC SDK client for builder function"
  | Some (Some err) => fail_with (wrapped_ "creating instance prototype with SDK builder" err)
  | Some None => Ret (Ok tt)
  end.

Definition validated (region : string) (prototype : InstancePrototype) : vpc unit :=
  e ⟵ ValidateCreateInstance region prototype;
  match e with Some err => fail_with err | None => Ret (Ok tt) end.

(** A pure step that may fail. *)
Definition lift {A} (r : result GoErrors.error A) : vpc A := Ret r.

(** The prototype and the configuration of a launch, the account aside. *)
Definition prepare (claim : NodeClaim) (nodeClass : IBMNodeClass) (clusterUID : string)
    (types : list (option InstanceType)) : vpc (InstancePrototype * launchConfig) :=
  let region := Region (Spec nodeClass) in
  let cloudName := InstanceName LaunchSum256 clusterUID (UID (claim_meta claim)) in
  let group := ResourceGroup (Spec nodeClass) in
  it ←! lift (select_type claim nodeClass types);
  capacityType ←! lift (match ResolveCapacityType claim types with
                        | Some c => Ok c | None => Err (GoErrors.New nil_dereference) end);
  placed ←! place nodeClass;
  let '(zone, subnet) := placed : string * string in
  vniGroup ←! optional_group "resolving resource group for VNI " group;
  groups ←! launch_groups nodeClass;
  image ←! launch_image nodeClass;
  let '(boot, data) := buildVolumeAttachments nodeClass (resource_name cloudName) in
  volumes ←! lift (tagVolumeAttachments boot data
    (VPCTags clusterUID (UID (claim_meta claim)) (UID (nc_meta nodeClass))));
  cloudTags ←! lift (instanceCloudTags nodeClass claim clusterUID);
  _u ←! sdk_builder region;
  resolved ←! optional_group "resolving resource group " group;
  id ←! lift (non_empty_group group resolved);
  userData ←! bind (generateBootstrapUserData nodeClass (Name (claim_meta claim)) (it_Name it)) (λ r,
    Ret (match r with Err err => Err (wrapped_ "generating bootstrap user data" err) | Ok d => Ok d end));
  let prototype :=
    prototype_of nodeClass cloudName capacityType zone image (it_Name it)
      (interface_of (resource_name cloudName) subnet vniGroup groups) (fst volumes) (snd volumes) id userData in
  _u ←! validated region prototype;
  hash ←! lift (match Hash.ProvisioningHash HashStructure nodeClass with
                | (_, Some err) => Err err | (hash, None) => Ok hash end);
  accountID ←! resolveAccountID p region;
  Ret (Ok (prototype,
    {| lc_Name := cloudName; lc_ClusterUID := clusterUID; lc_ClaimUID := UID (claim_meta claim);
       lc_ClassUID := UID (nc_meta nodeClass); lc_AccountID := accountID;
       lc_ResourceGroup := default "" id; lc_Region := region; lc_VPC := VPC (Spec nodeClass);
       lc_Profile := it_Name it; lc_Zone := zone; lc_Subnet := subnet; lc_Image := image;
       lc_CapacityType := capacityType; lc_Hash := hash; lc_HashVersion := IBMNodeClassHashVersion;
       lc_SecurityGroups := groups; Submitted := false; Rejected := false;
       SubmittedAt := GoTime.zero_time; lc_Capacity := it_Capacity it;
       lc_Allocatable := it_Allocatable it; lc_Tags := cloudTags |})).

(** ** Submission *)

(** After an error of [CreateInstance]. *)
Definition create_failed (claim : NodeClaim) (config : launchConfig) (err : GoErrors.error) : vpc Node :=
  let ibmErr := IBM.ParseError_ err in
  let recover (claim : NodeClaim) (config : launchConfig) : vpc Node :=
    bind (recoverLaunch p claim config) (λ r,
      match r with
      | Ok recovered => Ret (Ok recovered)
      | Err _ =>
          fail ("creating VPC instance failed: " ++ GoErrors.Error err ++ " (code: " ++ GoErrors.Code ibmErr
                ++ ", status: " ++ Strconv.Itoa (GoErrors.Status ibmErr) ++ ", instance_profile: "
                ++ lc_Profile config ++ ", zone: " ++ lc_Zone config ++ ", resolvedImageID: "
                ++ lc_Image config ++ ")")
      end) in
  if IsCreateInstanceNotSent err || rejectedStatus (Some ibmErr) then
    bind (markLaunchRejected claim config) (λ r,
      match r with
      | Err checkpointErr => fail_with (recording_failed err checkpointErr)
      | Ok claim => recover claim (reject config)
      end)
  else recover claim config.

(** After a success: the log reads the identity and the name. *)
Definition create_done (claim : NodeClaim) (config : launchConfig) (instance : option Instance) : vpc Node :=
  match instance with
  | None => fail nil_dereference
  | Some i =>
      match inst_ID i, inst_Name i with
      | Some id, Some _ =>
          match verifyInstanceAccount (inst_CRN i) (lc_AccountID config) with
          | Some err => fail_with err
          | None =>
              e ⟵ UpdateInstanceTags (lc_Region config) id (lc_Tags config);
              match e with
              | Some err => fail_with (wrapped_ "attaching instance ownership tags" err)
              | None => Ret (Ok (config_node config claim id))
              end
          end
      | _, _ => fail nil_dereference
      end
  end.

(** The checkpoint, the look for an instance of its name, the mark of the
    submission, and the request. *)
Definition submit_launch (claim : NodeClaim) (prototype : InstancePrototype) (config : launchConfig) : vpc Node :=
  claim ←! checkpointLaunch claim config;
  adopted ←! findLaunch (lc_Region config) config;
  match adopted with
  | Some _ => recoverLaunch p claim config
  | None =>
      now ⟵ VNow;
      let config := submit config now in
      claim ←! updateLaunch claim config;
      answer ⟵ CreateInstance (lc_Region config) prototype;
      match answer with
      | (_, Some err) => create_failed claim config err
      | (instance, None) => create_done claim config instance
      end
  end.

(** ** Create *)

(** A checkpoint of an earlier call: recovered, or discarded. *)
Definition discard_launch (claim : NodeClaim) (config : launchConfig) : vpc Node :=
  bind (resetPreparedLaunch claim) (λ e,
    match e with
    | Some err => fail_with err
    | None => fail ("discarded launch checkpoint " ++ lc_Name config ++ " that created no instance; retrying")
    end).

Definition resume_launch (claim : NodeClaim) (value : string) : vpc Node :=
  match decodeLaunch value with
  | Err err => fail_with err
  | Ok config =>
      if Submitted config && negb (Rejected config) then
        bind (recoverLaunch p claim config) (λ r,
          match r with
          | Ok node => Ret (Ok node)
          | Err recoverErr =>
              if negb (is_unresolved recoverErr) then fail_with recoverErr
              else
                now ⟵ VNow;
                if negb (abandoned config now) then fail_with recoverErr
                else discard_launch claim config
          end)
      else discard_launch claim config
  end.

Definition launch_client (region : string) : vpc unit :=
  e ⟵ ClientForRegion region;
  match e with Some err => fail_with err | None => Ret (Ok tt) end.

(** A new launch of the claim as it was read. *)
Definition start_launch (claim fresh : NodeClaim) (ref : NodeClassReference)
    (types : list (option InstanceType)) : vpc Node :=
  match types with
  | None :: _ => fail nil_dereference
  | _ =>
      if negb (v_kubeClient p) then fail "kubernetes client not set"
      else
        nodeClass ←! launch_class ref;
        clusterUID ←! VClusterUID;
        _u ←! launch_client (Region (Spec nodeClass));
        prepared ←! prepare claim nodeClass clusterUID types;
        submit_launch fresh (fst prepared) (snd prepared)
  end.

Definition Create (claim : option NodeClaim) (types : list (option InstanceType)) : vpc Node :=
  match claim with
  | None => fail "VPC launch requires a persisted NodeClaim"
  | Some claim =>
      match NodeClassRef claim with
      | None => fail "VPC launch requires a persisted NodeClaim"
      | Some ref =>
          if empty (UID (claim_meta claim)) then fail "VPC launch requires a persisted NodeClaim"
          else if negb (v_reader p) then fail nil_dereference
          else
            fresh ←! call (KGetClaim (Name (claim_meta claim)));
            if negb (String.eqb (UID (claim_meta fresh)) (UID (claim_meta claim))) ||
               bool_decide (is_Some (DeletionTimestamp (claim_meta fresh)))
            then fail "NodeClaim changed or is terminating"
            else
              let value := get (Annotations (claim_meta fresh)) LaunchAnnotation in
              if negb (empty value) then resume_launch fresh value
              else start_launch claim fresh ref types
      end
  end.

(** ** Delete, Get, List and UpdateTags *)
Local Abbreviation vpc_err := (prog vpc_call err).

Definition no_instance_id (providerID : string) : GoErrors.error :=
  GoErrors.New ("could not extract instance ID from provider ID: " ++ providerID).

(** The account a node was launched in. *)
Definition birth_account (node : Node) : result GoErrors.error string :=
  let value := get (Annotations (node_meta node)) LaunchAnnotation in
  if empty value then Ok (get (Annotations (node_meta node)) AccountIDAnnotation)
  else match decodeLaunch value with
       | Err decodeErr => Err decodeErr
       | Ok config => Ok (lc_AccountID config)
       end.

(** The look that confirms the deletion. *)
Definition confirm_deletion (region instanceID : string) : vpc_err :=
  _u ⟵ CacheDelete instanceID;
  answer ⟵ GetInstance region instanceID;
  match snd answer with
  | None => Ret None
  | Some getErr =>
      if is_absent (Some getErr)
      then Ret (Some (NodeClaimNotFound (GoErrors.New ("instance " ++ instanceID ++ " not found"))))
      else Ret (Some (wrapped_ "verifying instance deletion" getErr))
  end.

Definition Delete (node : Node) : vpc_err :=
  let instanceID := vpc_extractInstanceID (node_ProviderID node) in
  if empty instanceID then Ret (Some (no_instance_id (node_ProviderID node)))
  else
    let region := providerRegion (node_ProviderID node) in
    e ⟵ ClientForRegion region;
    match e with
    | Some err => Ret (Some err)
    | None =>
        match birth_account node with
        | Err decodeErr => Ret (Some decodeErr)
        | Ok birthAccount =>
            bind (validateAccountTarget p region birthAccount) (λ targetErr,
              match targetErr with
              | Some targetErr => Ret (Some targetErr)
              | None =>
                  e ⟵ DeleteInstance region instanceID;
                  match e with
                  | Some err =>
                      if negb (is_absent (Some err)) then Ret (Some (wrapped_ "deleting VPC instance" err))
                      else confirm_deletion region instanceID
                  | None => confirm_deletion region instanceID
                  end
              end)
        end
    end.

(** The instance as a node. *)
Definition node_of_instance (i : Instance) (name providerID accountID : string) : Node :=
  {| node_meta :=
       {| Name := name; UID := ""; ResourceVersion := ""; Generation := 0; DeletionTimestamp := None;
          CreationTimestamp := GoTime.zero_time;
          Labels :=
            let labels : gmap string string :=
              {[CapacityTypeLabelKey := GetCapacityTypeFromAvailabilityClass (default "" (AvailabilityClass i))]} in
            let labels := match inst_Profile i with
                          | Some profile => <[LabelInstanceTypeStable := profile]> labels | None => labels end in
            match inst_Zone i with
            | Some zone => <[LabelTopologyZone := zone]> labels | None => labels end;
          Annotations := {[AccountIDAnnotation := accountID]}; Finalizers := [] |};
     node_ProviderID := providerID; Unschedulable := false; OwnerReferences := []; node_Status := no_status |}.

Definition cache_unless_deleting (i : Instance) (id : string) (node : Node) (k : vpc Node) : vpc Node :=
  if is_deleting i then k else _u ⟵ CacheSet id node; k.

(** [get] past the cache. *)
Definition get_instance (providerID instanceID : string) : vpc Node :=
  let region := providerRegion providerID in
  _u ←! launch_client region;
  accountID ←! resolveAccountID p region;
  answer ⟵ GetInstance region instanceID;
  match answer with
  | (_, Some err) =>
      if is_absent (Some err)
      then fail_with (NodeClaimNotFound (GoErrors.New ("instance " ++ instanceID ++ " not found")))
      else fail_with (wrapped_ ("getting VPC instance " ++ instanceID) err)
  | (None, None) => fail "instance response has unexpected identity"
  | (Some i, None) =>
      match is_ (inst_ID i) instanceID, inst_Name i with
      | true, Some name =>
          match verifyInstanceAccount (inst_CRN i) accountID with
          | Some err => fail_with err
          | None =>
              let node := node_of_instance i name providerID accountID in
              cache_unless_deleting i instanceID node (Ret (Ok node))
          end
      | _, _ => fail "instance response has unexpected identity"
      end
  end.

Definition get_ (providerID : string) (useCache : bool) : vpc Node :=
  let instanceID := vpc_extractInstanceID providerID in
  if empty instanceID then fail_with (no_instance_id providerID)
  else if useCache then
    cached ⟵ CacheGet instanceID;
    match cached with
    | Some node => Ret (Ok node)
    | None => get_instance providerID instanceID
    end
  else get_instance providerID instanceID.

Definition Get (providerID : string) : vpc Node := get_ providerID true.
Definition GetFresh (providerID : string) : vpc Node := get_ providerID false.

(** The node of a listed instance, when it has an identity and a zone. *)
Definition listed_node (i : Instance) : option (string * Node) :=
  match inst_ID i, inst_Name i, inst_Zone i with
  | Some id, Some name, Some zone =>
      Some (id, {| node_meta :=
                     {| Name := name; UID := ""; ResourceVersion := ""; Generation := 0;
                        DeletionTimestamp := None; CreationTimestamp := GoTime.zero_time;
                        Labels := ∅; Annotations := ∅; Finalizers := [] |};
                   node_ProviderID := vpc_provider_id (ExtractRegionFromZone zone) id;
                   Unschedulable := false; OwnerReferences := []; node_Status := no_status |})
  | _, _, _ => None
  end.

Fixpoint list_instances (instances : list Instance) : vpc (list Node) :=
  match instances with
  | [] => Ret (Ok [])
  | i :: instances' =>
      match listed_node i with
      | None => list_instances instances'
      | Some (id, node) =>
          let rest : vpc (list Node) :=
            nodes ←! list_instances instances'; Ret (Ok (node :: nodes)) in
          if is_deleting i then rest else _u ⟵ CacheSet id node; rest
      end
  end.

(** The client of the process's own region is the one of region [""]. *)
Definition List_ : vpc (list Node) :=
  _u ←! launch_client "";
  answer ⟵ ListInstances "";
  match answer with
  | Err err => fail_with (wrapped_ "listing VPC instances" err)
  | Ok instances => list_instances instances
  end.

Definition UpdateTags (providerID : string) (tags : gmap string string) : vpc_err :=
  let instanceID := vpc_extractInstanceID providerID in
  if empty instanceID then Ret (Some (no_instance_id providerID))
  else
    e ⟵ ClientForRegion "";
    match e with
    | Some err => Ret (Some err)
    | None => call (UpdateInstanceTags "" instanceID tags)
    end.
End create.
