(* ===== verification/VpcVolumes.v ===== *)
(** * VpcVolumes: what the volumes and the placement of an instance satisfy

    The tags [tagVolumeAttachments] gives to the volumes of an instance, the
    volumes [buildVolumeAttachments] makes of the block device mappings, and
    the subnet the selection loops of [Create] pick. *)
From stdpp Require Import prelude list strings gmap.
From Stdlib Require Import Ascii.
From S2P Require Import Prelude GoLib GoSort GoRegexp Errors NodeClass ProviderIDs Ownership Prog Kube.
From S2P Require Import VpcApi VpcLaunch VpcCreate.
Import Strings.

Open Scope string_scope.
Open Scope list_scope.
Open Scope nat_scope.

(** ** Tags *)
Section tags.
Context `{MapRange} `{SliceSorter}.

Lemma first_invalid_None l : first_invalid l = None ↔ Forall (λ t, ValidateTag t = None) l.
Proof.
  induction l as [|t l IH]; cbn [first_invalid]; [by split; [constructor|]|].
  rewrite Forall_cons, <-IH. destruct (ValidateTag t); naive_solver.
Qed.

(** The tags of a volume: the user's, without the reserved ones; those of
    ownership; and the mark of a volume that outlives its instance. *)
Lemma volume_tags_spec ownership custom retained l :
  volume_tags ownership custom retained = Ok l →
  less_sorted string_less l ∧ Forall (λ t, ValidateTag t = None) l ∧
  ∀ t, t ∈ l ↔ t ∈ custom ∧ ReservedTag (tag_key t) = false
             ∨ (∃ k v, ownership !! k = Some v ∧ t = tag_of k v)
             ∨ retained = true ∧ t = tag_of RetainTag "true".
Proof.
  unfold volume_tags. cbv zeta. destruct (first_invalid _) eqn:E; [done|]. intros [= <-].
  apply first_invalid_None in E. split_and!.
  - apply sort_slice_sorted, swo_string.
  - rewrite Forall_forall in E |- *. intros t Ht%sort_slice_elem_of. by apply E.
  - intros t. rewrite sort_slice_elem_of, !elem_of_app.
    assert (t ∈ List.filter (λ t, negb (ReservedTag (tag_key t))) custom ↔
            t ∈ custom ∧ ReservedTag (tag_key t) = false) as ->.
    { rewrite !list_elem_of_In, filter_In. by rewrite negb_true_iff. }
    assert (t ∈ List.map (λ kv, tag_of kv.1 kv.2) (map_range (map_to_list ownership)) ↔
            ∃ k v, ownership !! k = Some v ∧ t = tag_of k v) as ->.
    { rewrite list_elem_of_In, in_map_iff. split.
      - intros ([k v] & <- & Hin%list_elem_of_In). exists k, v.
        by rewrite map_range_elem_of, elem_of_map_to_list in Hin.
      - intros (k & v & Hk & ->). exists (k, v). split; [done|].
        by rewrite <-list_elem_of_In, map_range_elem_of, elem_of_map_to_list. }
    destruct retained; rewrite ?list_elem_of_singleton, ?elem_of_nil; naive_solver.
Qed.

(** What tagging made of an attachment. *)
Definition tagged (ownership : gmap string string) (a a' : VolumeAttachment) : Prop :=
  att_Name a' = att_Name a ∧ DeleteVolumeOnInstanceDelete a' = DeleteVolumeOnInstanceDelete a ∧
  vol_Name (att_Volume a') = vol_Name (att_Volume a) ∧
  vol_Capacity (att_Volume a') = vol_Capacity (att_Volume a) ∧
  vol_Profile (att_Volume a') = vol_Profile (att_Volume a) ∧
  vol_EncryptionKey (att_Volume a') = vol_EncryptionKey (att_Volume a) ∧
  Forall (λ t, ValidateTag t = None) (UserTags (att_Volume a')) ∧
  ∀ t, t ∈ UserTags (att_Volume a') ↔
       t ∈ UserTags (att_Volume a) ∧ ReservedTag (tag_key t) = false
       ∨ (∃ k v, ownership !! k = Some v ∧ t = tag_of k v)
       ∨ DeleteVolumeOnInstanceDelete a = false ∧ t = tag_of RetainTag "true".

Lemma tag_attachment_tagged ownership a a' :
  tag_attachment ownership a = Ok a' → tagged ownership a a'.
Proof.
  unfold tag_attachment. destruct (volume_tags _ _ _) as [l|] eqn:E; [|done]. intros [= <-].
  apply volume_tags_spec in E as (_ & Hv & Ht). unfold tagged. cbn [att_Name att_Volume
    DeleteVolumeOnInstanceDelete vol_Name vol_Capacity vol_Profile vol_EncryptionKey UserTags].
  split_and!; try done. intros t. by rewrite Ht, negb_true_iff.
Qed.

Lemma tag_attachments_tagged ownership l l' :
  tag_attachments ownership l = Ok l' → Forall2 (tagged ownership) l l'.
Proof.
  revert l'. induction l as [|a l IH]; intros l'; cbn [tag_attachments]; [by intros [= <-]; constructor|].
  destruct (tag_attachment ownership a) as [a'|] eqn:Ea; [|done].
  destruct (tag_attachments ownership l) as [r|]; [|done]. intros [= <-].
  constructor; [by apply tag_attachment_tagged|by apply IH].
Qed.

Lemma tag_volumes_tagged ownership boot data boot' data' :
  tagVolumeAttachments boot data ownership = Ok (boot', data') →
  Forall2 (tagged ownership) (boot :: data) (boot' :: data').
Proof.
  unfold tagVolumeAttachments. destruct (tag_attachment ownership boot) as [b|] eqn:Eb; [|done].
  destruct (tag_attachments ownership data) as [d|] eqn:Ed; [|done]. intros [= <- <-].
  constructor; [by apply tag_attachment_tagged|by apply tag_attachments_tagged].
Qed.

(** Every volume of an instance, the boot volume and each data volume,
    carries the tags of ownership; the user's own tags survive unless they
    imitate a reserved key; a volume is marked as retained exactly when it is
    not deleted with its instance; every tag is a valid cloud tag; and tagging
    changes nothing else about the volumes. *)
Theorem volumes_are_owned ownership boot data boot' data'
    (Htag : tagVolumeAttachments boot data ownership = Ok (boot', data')) :
  Forall2 (tagged ownership) (boot :: data) (boot' :: data').
Proof.
  by apply tag_volumes_tagged.
Qed.
End tags.

(** ** Volumes *)

(** The mappings of data volumes, with their specifications. *)
Definition data_mapping (m : BlockDeviceMapping) : option (BlockDeviceMapping * VolumeSpec) :=
  if RootVolume m then None else pair m <$> VolumeSpec_ m.

Lemma volumes_loop_spec name mappings boot data :
  volumes_loop name mappings boot data =
  (match last (List.filter RootVolume mappings) with Some m => Some (boot_of name m) | None => boot end,
   data ++ imap (λ i ms, data_of name (length data + i) ms.1 ms.2) (omap data_mapping mappings)).
Proof.
  revert boot data. induction mappings as [|m ms IH]; intros boot data; cbn [volumes_loop];
    [by rewrite List.app_nil_r|].
  cbn [omap list_omap List.filter].
  destruct (RootVolume m) eqn:Em; [|destruct (VolumeSpec_ m) as [spec|] eqn:Ev]; rewrite IH.
  - assert (data_mapping m = None) as -> by (unfold data_mapping; by rewrite Em).
    apply (f_equal2 pair); [|done].
    destruct (List.filter RootVolume ms) as [|m' l]; [done|]. rewrite last_cons_cons.
    destruct (last (m' :: l)) eqn:El; [done|]. by apply last_None in El.
  - assert (data_mapping m = Some (m, spec)) as -> by (unfold data_mapping; by rewrite Em, Ev).
    apply (f_equal2 pair); [done|]. rewrite <-(assoc_L (++)). f_equal. cbn [app imap].
    f_equal; [by rewrite Nat.add_0_r|]. rewrite List.length_app. cbn [length].
    apply imap_ext. intros i x _. unfold compose. f_equal. lia.
  - by assert (data_mapping m = None) as -> by (unfold data_mapping; by rewrite Em, Ev).
Qed.

(** The volumes of an instance are those of its NodeClass: the boot volume
    is the last root mapping, or 100 GB of general-purpose storage deleted with
    the instance when there is none, and the data volumes are the other
    mappings that have a specification, in order, the i-th named after its
    device or else numbered i. *)
Theorem volumes_of_class nodeClass name :
  let mappings := BlockDeviceMappings (Spec nodeClass) in
  buildVolumeAttachments nodeClass name =
  (default (default_boot name) (boot_of name <$> last (List.filter RootVolume mappings)),
   imap (λ i ms, data_of name i ms.1 ms.2) (omap data_mapping mappings)).
Proof.
  cbv zeta. unfold buildVolumeAttachments. destruct (BlockDeviceMappings (Spec nodeClass)) as [|m ms]; [done|].
  rewrite volumes_loop_spec. cbn [app length Nat.add].
  by destruct (last (List.filter RootVolume (m :: ms))).
Qed.

(** ** Placement *)
Definition usable (zone : string) (s : SubnetInfo) : bool :=
  String.eqb (sub_Zone s) zone && String.eqb (sub_State s) "available".

Lemma best_in_zone_spec zone subnets :
  (best_in_zone zone subnets = "" ∧
   Forall (λ s, usable zone s = true → (AvailableIPs s ≤ -1)%Z) subnets) ∨
  (∃ s, s ∈ subnets ∧ usable zone s = true ∧ best_in_zone zone subnets = sub_ID s ∧
        Forall (λ s', usable zone s' = true → (AvailableIPs s' ≤ AvailableIPs s)%Z) subnets).
Proof.
  unfold best_in_zone. set (f := λ (best : string * Z) s, _).
  assert (Hgen : ∀ l best, snd (foldl f best l) = snd best ∧ foldl f best l = best ∧
      Forall (λ s, usable zone s = true → (AvailableIPs s ≤ snd best)%Z) l ∨
      ∃ s, s ∈ l ∧ usable zone s = true ∧ foldl f best l = (sub_ID s, AvailableIPs s) ∧
        (snd best < AvailableIPs s)%Z ∧
        Forall (λ s', usable zone s' = true → (AvailableIPs s' ≤ AvailableIPs s)%Z) l).
  { induction l as [|s l IH]; intros best; [by left|]. cbn [foldl].
    assert (Hf : f best s = if usable zone s && (snd best <? AvailableIPs s)%Z
                            then (sub_ID s, AvailableIPs s) else best) by done.
    destruct (usable zone s) eqn:Eu; cbn [andb] in Hf;
      [destruct (Z.ltb_spec (snd best) (AvailableIPs s))|]; rewrite Hf.
    - right. destruct (IH (sub_ID s, AvailableIPs s)) as [(_ & Hr & Hall)|(s' & Hs' & Hu & Hr & Hlt & Hall)].
      + exists s. rewrite Hr. cbn [snd] in *. split_and!; try done; [by left|by constructor].
      + exists s'. cbn [snd] in Hlt. split_and!; try done; [by right|lia|].
        constructor; [lia|done].
    - destruct (IH best) as [(E & Hr & Hall)|(s' & Hs' & Hu & Hr & Hlt & Hall)].
      + left. split_and!; try done. by constructor.
      + right. exists s'. split_and!; try done; [by right|]. constructor; [lia|done].
    - destruct (IH best) as [(E & Hr & Hall)|(s' & Hs' & Hu & Hr & Hlt & Hall)].
      + left. split_and!; try done. constructor; [congruence|done].
      + right. exists s'. split_and!; try done; [by right|]. constructor; [congruence|done]. }
  destruct (Hgen subnets ("", -1)%Z) as [(_ & Hr & Hall)|(s & Hs & Hu & Hr & _ & Hall)].
  - left. by rewrite Hr.
  - right. exists s. by rewrite Hr.
Qed.

Lemma most_addresses_spec first l :
  first ∈ l → most_addresses first l ∈ l ∧
  Forall (λ s, (AvailableIPs s ≤ AvailableIPs (most_addresses first l))%Z) l.
Proof.
  intros Hin. unfold most_addresses. set (f := λ (best : SubnetInfo) s, _).
  assert (Hgen : ∀ l best, (foldl f best l = best ∨ foldl f best l ∈ l) ∧
    (AvailableIPs best ≤ AvailableIPs (foldl f best l))%Z ∧
    Forall (λ s, (AvailableIPs s ≤ AvailableIPs (foldl f best l))%Z) l).
  { clear. induction l as [|s l IH]; intros best; [by split_and!; [left|done|constructor]|].
    cbn [foldl]. assert (Hf : f best s = if (AvailableIPs best <? AvailableIPs s)%Z then s else best) by done.
    destruct (Z.ltb_spec (AvailableIPs best) (AvailableIPs s)); rewrite Hf.
    - destruct (IH s) as ([->|Hin] & Hle & Hall); split_and!; try lia; try (constructor; [lia|done]).
      all: right; by constructor.
    - destruct (IH best) as ([E|Hin] & Hle & Hall); split_and!; try done; try (constructor; [lia|done]).
      + by left.
      + right. by constructor. }
  destruct (Hgen l first) as ([->|H'] & _ & Hall); by split.
Qed.

(** The table of zones: its keys are the zones of the subnets, and each entry
    has the zone's subnets in order. *)
Lemma by_zone_spec subnets :
  let '(zoneSubnets, zones) := by_zone subnets in
  NoDup zones ∧ (∀ z, z ∈ zones ↔ ∃ s, s ∈ subnets ∧ sub_Zone s = z) ∧
  (∀ z, is_Some (zoneSubnets !! z) ↔ z ∈ zones) ∧
  ∀ z, default [] (zoneSubnets !! z) = List.filter (λ s, String.eqb (sub_Zone s) z) subnets.
Proof.
  unfold by_zone. induction subnets as [|s subnets IH] using rev_ind.
  { cbn. split_and!; [constructor| |intros z; rewrite lookup_empty|done].
    - intros z. split; [by intros ?%elem_of_nil|by intros (s & ?%elem_of_nil & _)].
    - split; [by intros [? ?]|by intros ?%elem_of_nil]. }
  rewrite foldl_app. cbn [foldl]. destruct (foldl _ _ subnets) as [m zs].
  destruct IH as (Hnd & Hz & Hk & Hm).
  assert (Hnew : ∀ z, (∃ s', s' ∈ subnets ++ [s] ∧ sub_Zone s' = z) ↔ z ∈ zs ∨ z = sub_Zone s).
  { intros z. rewrite Hz. setoid_rewrite elem_of_app. setoid_rewrite list_elem_of_singleton. naive_solver. }
  assert (Hlast : ∀ z, List.filter (λ s, String.eqb (sub_Zone s) z) (subnets ++ [s]) =
    List.filter (λ s, String.eqb (sub_Zone s) z) subnets ++ (if String.eqb (sub_Zone s) z then [s] else [])).
  { intros z. rewrite List.filter_app. cbn [List.filter]. by destruct (String.eqb _ _). }
  split_and!.
  - destruct (m !! sub_Zone s) eqn:E; [done|]. apply NoDup_app. split_and!; [done| |apply NoDup_singleton].
    intros z Hin ->%list_elem_of_singleton. apply Hk in Hin. rewrite E in Hin. by destruct Hin.
  - intros z. rewrite Hnew. destruct (m !! sub_Zone s) eqn:E.
    + assert (sub_Zone s ∈ zs) by (apply Hk; by eexists). naive_solver.
    + by rewrite elem_of_app, list_elem_of_singleton.
  - intros z. rewrite lookup_insert_is_Some, Hk.
    assert (z ∈ (match m !! sub_Zone s with Some _ => zs | None => zs ++ [sub_Zone s] end) ↔
            z ∈ zs ∨ z = sub_Zone s) as ->.
    { destruct (m !! sub_Zone s) eqn:E; [|by rewrite elem_of_app, list_elem_of_singleton].
      assert (sub_Zone s ∈ zs) by (apply Hk; by eexists). naive_solver. }
    destruct (decide (sub_Zone s = z)); naive_solver.
  - intros z. rewrite Hlast, <-Hm. destruct (String.eqb_spec (sub_Zone s) z) as [<-|Hne].
    + by rewrite lookup_insert_eq.
    + by rewrite lookup_insert_ne, List.app_nil_r by done.
Qed.

(** The subnet of a zone with the most free addresses. *)
Definition best_of_zone (subnets : list SubnetInfo) (zone : string) (s : SubnetInfo) : Prop :=
  s ∈ subnets ∧ sub_Zone s = zone ∧
  ∀ s', s' ∈ subnets → sub_Zone s' = zone → (AvailableIPs s' ≤ AvailableIPs s)%Z.

(** Spreading over zones: among several subnets the code draws one index
    per zone, every zone of the subnets is drawn by exactly one index, and the
    subnet it takes is the one of that zone with the most free addresses; no
    index a draw can return makes it panic. *)
Theorem spread_over_zones subnets (Hmany : 1 < length subnets) :
  ∃ zones, NoDup zones ∧ (∀ z, z ∈ zones ↔ ∃ s, s ∈ subnets ∧ sub_Zone s = z) ∧
  ∀ tr r, runs (selectSubnetFromMultiZoneList subnets) tr r →
    ∃ i, tr = [Did (IntN (length zones)) i] ∧
      match zones !! i with
      | Some zone => ∃ s, r = Ok s ∧ best_of_zone subnets zone s
      | None => r = Err (GoErrors.New out_of_range)
      end.
Proof.
  pose proof (by_zone_spec subnets) as Hs.
  assert (Hsel : selectSubnetFromMultiZoneList subnets =
    let '(zoneSubnets, zones) := by_zone subnets in
    Call (IntN (length zones)) (λ i,
      match zones !! i with
      | None => fail out_of_range
      | Some zone => match default [] (zoneSubnets !! zone) with
                     | [] => fail out_of_range
                     | first :: l => Ret (Ok (most_addresses first (first :: l)))
                     end
      end)).
  { destruct subnets as [|s1 [|s2 l]]; cbn in Hmany; [lia|lia|done]. }
  rewrite Hsel. destruct (by_zone subnets) as [m zones]. destruct Hs as (Hnd & Hz & _ & Hm).
  exists zones. split_and!; [done|done|]. intros tr r (i & tr' & -> & Hr). exists i.
  destruct (zones !! i) as [zone|] eqn:Ei; [|by destruct Hr as [-> <-]].
  rewrite Hm in Hr. assert (Hin : zone ∈ zones) by (by eapply list_elem_of_lookup_2).
  destruct (List.filter _ subnets) as [|first l] eqn:Ef.
  { exfalso. apply filter_bool_nil in Ef. rewrite Forall_forall in Ef.
    apply Hz in Hin as (s & Hs & <-). specialize (Ef s Hs). cbn in Ef. by rewrite String.eqb_refl in Ef. }
  destruct Hr as [-> <-]. split; [done|]. eexists. split; [done|].
  destruct (most_addresses_spec first (first :: l)) as [Hmem Hall]; [by left|].
  revert Hmem Hall. generalize (most_addresses first (first :: l)) as b. intros b Hmem Hall.
  rewrite <-Ef in Hmem. apply list_elem_of_In, filter_In in Hmem as [Hmem Ez].
  split_and!; [by apply list_elem_of_In|by apply String.eqb_eq|].
  intros s' Hs' Ez'. rewrite Forall_forall in Hall.
  apply Hall. rewrite <-Ef. apply list_elem_of_In, filter_In. split; [by apply list_elem_of_In|]. by apply String.eqb_eq.
Qed.

Lemma spread_over_zones_witness :
  let s name zone n :=
    {| sub_ID := name; sub_Zone := zone; CIDR := ""; AvailableIPs := n; TotalIPCount := 256; UsedIPCount := 0; ReservedIPCount := 0;
       sub_Tags := ∅; sub_State := "available" |} in
  let subnets := [s "a1" "a" 10%Z; s "b1" "b" 5%Z; s "a2" "a" 20%Z] in
  1 < length subnets ∧
  ∃ zones, NoDup zones ∧ (∀ z, z ∈ zones ↔ ∃ s, s ∈ subnets ∧ sub_Zone s = z) ∧
  ∀ tr r, runs (selectSubnetFromMultiZoneList subnets) tr r →
    ∃ i, tr = [Did (IntN (length zones)) i] ∧
      match zones !! i with
      | Some zone => ∃ s, r = Ok s ∧ best_of_zone subnets zone s
      | None => r = Err (GoErrors.New out_of_range)
      end.
Proof. cbv zeta. split; [cbn; lia|]. apply spread_over_zones. cbn. lia. Defined.
