(* ===== verification/VpcSafety.v ===== *)
(** * VpcSafety: what every run of a VPC launch guarantees

    An instance is requested at most once per call, under a durable checkpoint
    whose submission was recorded first and after a listing that shows no
    instance of its name; a node is returned only for an instance whose account
    was verified and whose ownership tags were attached; a checkpoint is
    discarded only when it created nothing.  They hold for every answer the
    Kubernetes and VPC APIs may give. *)
From stdpp Require Import prelude list strings gmap.
From Stdlib Require Import Ascii.
From S2P Require Import Prelude GoLib GoSort GoRegexp Errors NodeClass ProviderIDs Ownership Prog Kube.
From S2P Require Import IksApi IksAllocation IksLaunch IksLaunchSafety Drift VpcApi VpcLaunch Bootstrap VpcCreate VpcVolumes.

Open Scope nat_scope.
Open Scope list_scope.

(** ** The calls that change something *)
Definition reads (R : Type) (e : vpc_call R) : bool :=
  match e with
  | CreateInstance _ _ | DeleteInstance _ _ | UpdateInstanceTags _ _ _ => false
  | KPatchClaim _ _ | KDeleteNode _ _ => false
  | _ => true
  end.

(** Those of a launch: everything but requests and deletions. *)
Definition no_request (R : Type) (e : vpc_call R) : bool :=
  match e with
  | CreateInstance _ _ | DeleteInstance _ _ | KDeleteNode _ _ => false
  | _ => true
  end.

(** Those of a recovery: reads and the attachment of tags. *)
Definition recovers (R : Type) (e : vpc_call R) : bool :=
  match e with
  | CreateInstance _ _ | DeleteInstance _ _ | KPatchClaim _ _ | KDeleteNode _ _ => false
  | _ => true
  end.

Definition looks (R : Type) (e : vpc_call R) : bool :=
  match e with GetInstance _ _ => true | _ => false end.

Lemma reads_no_request R (e : vpc_call R) : reads R e = true → no_request R e = true.
Proof. by destruct e. Qed.

(** No instance was requested. *)
Fixpoint no_create (h : history vpc_call) : bool :=
  match h with
  | [] => true
  | Did e _ :: h' => match e with CreateInstance _ _ => false | _ => no_create h' end
  end.

Lemma no_create_app l h : Forall (event_is no_request) l → no_create (l ++ h) = no_create h.
Proof. induction 1 as [|[R e r] l He Hl IH]; [done|]. cbn [app no_create]. by destruct e. Qed.

Definition unguarded : guard (E := vpc_call) := λ _ _ _, True.

Section quiet.
Context `{HK : Karpenter} `{HL : LaunchCodec} `{HM : MapRange} `{HS : SliceSorter}.
Context (p : VPCInstanceProvider).

Lemma launch_class_reads ref : only reads (launch_class ref).
Proof. unfold launch_class. solve_quiet. Qed.
Lemma cluster_reads : only reads VClusterUID.
Proof. unfold VClusterUID. solve_quiet. Qed.
Lemma client_reads region : only reads (launch_client region).
Proof. unfold launch_client. solve_quiet. Qed.
Lemma account_reads region : only reads (resolveAccountID p region).
Proof. unfold resolveAccountID. solve_quiet. Qed.
Lemma group_reads prefix group : only reads (optional_group prefix group).
Proof. unfold optional_group, resolveResourceGroupID. solve_quiet. Qed.
Lemma place_reads nc : only reads (place nc).
Proof.
  unfold place, place_by_strategy, place_in_zone, subnet_zone, selectSubnetFromStatusList,
    selectSubnetFromMultiZoneList.
  solve_quiet.
Qed.
Lemma groups_reads nc : only reads (launch_groups nc).
Proof. unfold launch_groups. solve_quiet. Qed.
Lemma image_reads nc : only reads (launch_image nc).
Proof. unfold launch_image. solve_quiet. Qed.
Lemma user_data_reads nc c pr : only reads (generateBootstrapUserData p nc c pr).
Proof. unfold generateBootstrapUserData. solve_quiet. Qed.
Lemma sdk_reads region : only reads (sdk_builder region).
Proof. unfold sdk_builder. solve_quiet. Qed.
Lemma lift_reads {A} (r : result GoErrors.error A) : only reads (lift r).
Proof. done. Qed.

Lemma prepare_reads claim nc uid types : only reads (prepare p claim nc uid types).
Proof.
  unfold prepare, validated. cbv zeta.
  solve_quiet; (apply lift_reads || apply place_reads || apply group_reads || apply groups_reads
    || apply image_reads || apply sdk_reads || apply account_reads || apply user_data_reads).
Qed.
End quiet.

(** ** What a prepared launch is *)

(** A volume carries the tags of ownership. *)
Definition owned_volume (tags : gmap string string) (a : VolumeAttachment) : Prop :=
  ∀ k v, tags !! k = Some v → tag_of k v ∈ UserTags (att_Volume a).

(** The prototype and its checkpoint describe the same instance. *)
Record describes (proto : InstancePrototype) (config : launchConfig) : Prop := {
  same_name : proto_Name proto = lc_Name config;
  same_profile : proto_Profile proto = lc_Profile config;
  same_zone : proto_Zone proto = lc_Zone config;
  same_vpc : proto_VPC proto = lc_VPC config;
  same_image : proto_Image proto = lc_Image config;
  same_subnet : vni_Subnet (VirtualNetworkInterface proto) = lc_Subnet config;
  same_groups : vni_SecurityGroups (VirtualNetworkInterface proto) = lc_SecurityGroups config;
  same_group : default ""%string (proto_ResourceGroup proto) = lc_ResourceGroup config;
}.

Section prepared.
Context `{HK : Karpenter} `{HL : LaunchCodec} `{HM : MapRange} `{HS : SliceSorter}.
Context (p : VPCInstanceProvider).

(** The checkpoint of a claim: its identities, the account that the credential
    of the region was shown to have, and the instance and volumes it owns. *)
Record prepared (h : history vpc_call) (claim : NodeClaim) (proto : InstancePrototype)
    (config : launchConfig) : Prop := {
  pr_describes : describes proto config;
  pr_claim : lc_ClaimUID config = UID (claim_meta claim);
  pr_name : lc_Name config = InstanceName LaunchSum256 (lc_ClusterUID config) (lc_ClaimUID config);
  pr_unsubmitted : Submitted config = false ∧ Rejected config = false;
  pr_account : lc_AccountID config ≠ ""%string ∧
    asked h (ResolveAccount (lc_Region config)) (Ok (lc_AccountID config));
  pr_valid : asked h (ValidateCreateInstance (lc_Region config) proto) None;
  pr_tags : VPCTags (lc_ClusterUID config) (lc_ClaimUID config) (lc_ClassUID config) ⊆ lc_Tags config;
  pr_volumes : Forall (owned_volume (VPCTags (lc_ClusterUID config) (lc_ClaimUID config) (lc_ClassUID config)))
    (BootVolumeAttachment proto :: VolumeAttachments proto);
}.

Lemma VPCTags_reserved a b c k v : VPCTags a b c !! k = Some v → ReservedTag k = true.
Proof.
  intros Hk. assert (k ∈ [ManagedTag; ProviderTag; ClusterUIDTag; ClaimUIDTag; NodeClassUIDTag]) as Hin.
  { unfold VPCTags in Hk. rewrite !lookup_insert_Some, lookup_singleton_Some in Hk.
    rewrite !elem_of_cons. naive_solver. }
  rewrite !elem_of_cons in Hin.
  destruct Hin as [->|[->|[->|[->|[->|Hin]]]]]; try reflexivity. by apply not_elem_of_nil in Hin.
Qed.

(** Tags that are not reserved leave the tags of ownership in place. *)
Lemma owned_tags_subseteq a b c (user : gmap string string) :
  VPCTags a b c ⊆ filter (λ kv, ReservedTag kv.1 = false) user ∪ VPCTags a b c.
Proof.
  apply map_subseteq_spec. intros k v Hk. apply lookup_union_Some_raw. right. split; [|done].
  apply map_lookup_filter_None. right. intros v' _. cbn. apply VPCTags_reserved in Hk. congruence.
Qed.

Lemma cloud_tags_owned nc claim uid tags :
  instanceCloudTags nc claim uid = Ok tags →
  VPCTags uid (UID (claim_meta claim)) (UID (nc_meta nc)) ⊆ tags.
Proof.
  unfold instanceCloudTags. cbv zeta. destruct (FormatTags _); [|done]. intros [= <-].
  apply owned_tags_subseteq.
Qed.

Lemma tagged_owned tags l l' : Forall2 (tagged tags) l l' → Forall (owned_volume tags) l'.
Proof.
  induction 1 as [|a a' l l' Ha Hl IH]; constructor; [|done].
  intros k v Hk. destruct Ha as (_ & _ & _ & _ & _ & _ & _ & Ht). apply Ht. right. left. eauto.
Qed.

Lemma account_wp region h :
  wp unguarded (resolveAccountID p region) h (λ h' r,
    match r with
    | Ok a => a ≠ ""%string ∧ asked h' (ResolveAccount region) (Ok a)
    | Err _ => True
    end).
Proof.
  unfold resolveAccountID. split; [done|]. intros [a|e]; [|done]. cbv zeta.
  unfold empty at 1. destruct (String.eqb_spec a "") as [->|Hne]; [done|]. cbn [wp].
  split_if; [done|]. split; [done|apply asked_here].
Qed.

Lemma validated_wp region proto h :
  wp unguarded (validated region proto) h (λ h' r,
    match r with Ok _ => asked h' (ValidateCreateInstance region proto) None | Err _ => True end).
Proof. unfold validated. split; [done|]. intros [e|]; [done|apply asked_here]. Qed.

Lemma lift_wp {A} (r : result GoErrors.error A) h :
  wp unguarded (lift r) h (λ h' r', h' = h ∧ r' = r).
Proof. done. Qed.
End prepared.

Lemma wp_try_lift {A B} (G : guard) (r : result GoErrors.error A)
    (f : A → prog vpc_call (result GoErrors.error B)) h Q :
  (∀ a, r = Ok a → wp G (f a) h Q) → (∀ e, Q h (Err e)) → wp G (try (lift r) f) h Q.
Proof. intros Hf He. destruct r as [a|e]; cbn; [by apply Hf|apply He]. Qed.

(** One step of a preparation whose answer is not needed. *)
Ltac step lem := apply (wp_try_any reads); [done|apply lem| |done]; intros ? ? _.

Section prepare.
Context `{HK : Karpenter} `{HL : LaunchCodec} `{HM : MapRange} `{HS : SliceSorter}.
Context (p : VPCInstanceProvider).

Lemma describes_prototype nc cloudName capacityType zone image profile interface boot data id userData config :
  lc_Name config = cloudName → lc_Profile config = profile → lc_Zone config = zone →
  lc_VPC config = VPC (Spec nc) → lc_Image config = image → vni_Subnet interface = lc_Subnet config →
  vni_SecurityGroups interface = lc_SecurityGroups config → lc_ResourceGroup config = default ""%string id →
  describes (prototype_of nc cloudName capacityType zone image profile interface boot data id userData) config.
Proof.
  intros. unfold prototype_of. destruct (availability_of capacityType) as [[? ?] ?]. by constructor.
Qed.

Lemma prototype_volumes nc cloudName capacityType zone image profile interface boot data id userData :
  BootVolumeAttachment (prototype_of nc cloudName capacityType zone image profile interface boot data id userData)
    :: VolumeAttachments (prototype_of nc cloudName capacityType zone image profile interface boot data id userData)
  = boot :: data.
Proof. unfold prototype_of. by destruct (availability_of capacityType) as [[? ?] ?]. Qed.

(** What a launch takes from its NodeClass: its hash, its resolved image, its
    subnet or one of its selection, and its security groups. *)
Record of_class (nc : IBMNodeClass) (config : launchConfig) : Prop := {
  oc_hash : Hash.ProvisioningHash HashStructure nc = (lc_Hash config, None) ∧
            lc_HashVersion config = IBMNodeClassHashVersion;
  oc_image : ResolvedImageID (Status nc) ≠ ""%string → lc_Image config = ResolvedImageID (Status nc);
  oc_placed : lc_Zone config ≠ ""%string ∧ lc_Subnet config ≠ ""%string;
  oc_subnet : Subnet (Spec nc) ≠ ""%string → lc_Subnet config = Subnet (Spec nc);
  oc_selected : Subnet (Spec nc) = ""%string → Zone (Spec nc) = ""%string →
    SelectedSubnets (Status nc) ≠ [] → lc_Subnet config ∈ SelectedSubnets (Status nc);
  oc_groups : SecurityGroups (Spec nc) ≠ [] → lc_SecurityGroups config = SecurityGroups (Spec nc);
}.

Definition placed_by (nc : IBMNodeClass) (placed : string * string) : Prop :=
  (Subnet (Spec nc) ≠ ""%string → snd placed = Subnet (Spec nc)) ∧
  (Subnet (Spec nc) = ""%string → Zone (Spec nc) = ""%string →
   SelectedSubnets (Status nc) ≠ [] → snd placed ∈ SelectedSubnets (Status nc)).

Lemma from_status_wp ids h :
  wp unguarded (selectSubnetFromStatusList ids) h (λ _ r,
    match r with Ok id => ids ≠ [] → id ∈ ids | Err _ => True end).
Proof.
  unfold selectSubnetFromStatusList. destruct ids as [|a [|b l]]; [by cbn|by cbn; intros _; apply list_elem_of_singleton|].
  split; [done|]. intros i. destruct ((a :: b :: l) !! i) as [id|] eqn:E.
  - intros _. by eapply list_elem_of_lookup_2.
  - done.
Qed.

Lemma place_wp nc h :
  wp unguarded (place nc) h (λ _ r,
    match r with
    | Ok placed => placed_by nc placed ∧ fst placed ≠ ""%string ∧ snd placed ≠ ""%string
    | Err _ => True
    end).
Proof.
  unfold place, empty. cbv zeta. apply wp_try.
  assert (Hend : ∀ h' placed, placed_by nc placed →
    wp unguarded (if String.eqb (fst placed) "" || String.eqb (snd placed) "" then
        fail "both zone and subnet must be specified" else Ret (Ok placed)) h'
      (λ _ r, match r with
              | Ok placed => placed_by nc placed ∧ fst placed ≠ ""%string ∧ snd placed ≠ ""%string
              | Err _ => True end)).
  { intros h' placed Hp. split_if; [done|]. by bool_to_prop. }
  destruct (String.eqb_spec (Zone (Spec nc)) "") as [Ez|Ez], (String.eqb_spec (Subnet (Spec nc)) "") as [Es|Es];
    cbn [andb].
  - unfold place_by_strategy. destruct (PlacementStrategy_ (Spec nc)); [|done].
    destruct (SelectedSubnets (Status nc)) as [|s l] eqn:Esel.
    + split; [done|]. intros [[|a m]|e]; [done| |done]. apply wp_try.
      eapply wp_mono; [|apply wp_trivial]. intros h' [s|e] _; [|done].
      apply Hend. split; [done|]. by rewrite Esel.
    + apply wp_try. eapply wp_mono; [|apply from_status_wp]. intros h' [id|e]; [|done]. intros Hid.
      unfold subnet_zone. split; [done|]. intros [info|e]; [|done]. apply Hend.
      split; [done|]. intros _ _ _. rewrite Esel. by apply Hid.
  - unfold subnet_zone. split; [done|]. intros [info|e]; [|done]. apply Hend. by split.
  - unfold place_in_zone. split; [done|]. intros [l|e]; [|done]. split_if; [done|]. apply Hend. by split.
  - apply Hend. by split.
Qed.

Lemma image_wp nc h :
  wp unguarded (launch_image nc) h (λ _ r,
    match r with
    | Ok id => ResolvedImageID (Status nc) ≠ ""%string → id = ResolvedImageID (Status nc)
    | Err _ => True
    end).
Proof.
  unfold launch_image, empty. cbv zeta. apply wp_try.
  destruct (String.eqb_spec (ResolvedImageID (Status nc)) "") as [E|E]; cbn [negb]; [|cbn [wp try bind]; by split_if].
  eapply wp_mono; [|apply wp_trivial]. intros h' [id|e] _; [|done]. split_if; [done|by intros Hne].
Qed.

Lemma groups_wp nc h :
  wp unguarded (launch_groups nc) h (λ _ r,
    match r with
    | Ok groups => SecurityGroups (Spec nc) ≠ [] → groups = SecurityGroups (Spec nc)
    | Err _ => True
    end).
Proof.
  unfold launch_groups. destruct (SecurityGroups (Spec nc)); [|done]. split; [done|].
  intros [[id|]|e]; [by intros Hne|done|done].
Qed.

Lemma prepare_wp claim nc uid types h :
  wp unguarded (prepare p claim nc uid types) h (λ h' r,
    match r with
    | Ok (proto, config) => prepared h' claim proto config ∧ lc_ClusterUID config = uid ∧
                            lc_ClassUID config = UID (nc_meta nc) ∧ lc_Region config = Region (Spec nc) ∧
                            of_class nc config
    | Err _ => True
    end).
Proof.
  unfold prepare. cbv zeta.
  apply wp_try_lift; [|done]. intros it _. apply wp_try_lift; [|done]. intros capacityType _.
  eapply (wp_try_post reads); [done|apply place_reads|apply place_wp| |done].
  intros lp [zone subnet] _ ([Hsub Hsel] & Hz & Hs). step group_reads. rename a into vniGroup.
  eapply (wp_try_post reads); [done|apply groups_reads|apply groups_wp| |done]. intros lg groups _ Hgroups.
  eapply (wp_try_post reads); [done|apply image_reads|apply image_wp| |done]. intros li image _ Himage.
  destruct (buildVolumeAttachments nc _) as [boot data].
  apply wp_try_lift; [|done]. intros [boot' data'] Hvol. apply wp_try_lift; [|done]. intros tags Htags.
  step sdk_reads. step group_reads. apply wp_try_lift; [|done]. intros id _.
  apply (wp_try_any reads); [done|apply only_bind; [apply user_data_reads|done]| |done]. intros ? userData _.
  eapply (wp_try_post reads); [done|unfold validated; solve_quiet|apply validated_wp| |done].
  intros lv [] _ Hvalid. apply wp_try_lift; [|done]. intros hash Hhash.
  eapply (wp_try_post reads); [done|apply account_reads|apply account_wp| |done].
  intros la account _ [Hne Hacc]. cbn [wp]. split_and!; [|done|done|done|].
  2:{ constructor; cbn [lc_Hash lc_HashVersion lc_Image lc_Zone lc_Subnet lc_SecurityGroups]; try done. split; [|done].
      destruct (Hash.ProvisioningHash _ nc) as [hash' [e|]]; [done|]. by injection Hhash as ->. }
  constructor; cbn [lc_Name lc_ClusterUID lc_ClaimUID lc_ClassUID lc_AccountID lc_Region lc_Tags Submitted Rejected].
  - by apply describes_prototype.
  - done.
  - done.
  - done.
  - done.
  - by apply asked_app.
  - by apply cloud_tags_owned.
  - rewrite prototype_volumes. eapply tagged_owned, tag_volumes_tagged, Hvol.
Qed.
End prepare.

(** ** The checkpoint and the look for the instance *)
Section checkpoint.
Context `{HK : Karpenter} `{HL : LaunchCodec} `{HM : MapRange} `{HS : SliceSorter}.
Context (p : VPCInstanceProvider).

(** The claim with a configuration written to it. *)
Definition written (claim : NodeClaim) (config : launchConfig) (value : string) : NodeClaim :=
  set_meta claim (launch_meta (claim_meta claim) value (lc_Region config)).

Lemma updateLaunch_wp claim config h :
  wp unguarded (updateLaunch claim config) h (λ h' r,
    match r with
    | Ok durable => ∃ value, MarshalLaunch config = Ok value ∧
        h' = Did (KPatchClaim claim (written claim config value)) (Ok durable) :: h
    | Err _ => True
    end).
Proof.
  unfold updateLaunch. destruct (MarshalLaunch config) as [value|e]; [|done].
  split; [done|]. intros [durable|e]; [|done]. by exists value.
Qed.

(** What a prepared checkpoint leaves in the history. *)
Definition checkpointed (h h' : history vpc_call) (claim : NodeClaim) (config : launchConfig)
    (claim' : NodeClaim) : Prop :=
  ∃ stored updated value,
    UID (claim_meta stored) = UID (claim_meta claim) ∧ DeletionTimestamp (claim_meta stored) = None ∧
    get (Annotations (claim_meta stored)) LaunchAnnotation = ""%string ∧
    MarshalLaunch config = Ok value ∧ claim' = adopt_meta claim updated ∧
    h' = Did (KPatchClaim stored (written stored config value)) (Ok updated)
         :: Did (KGetClaim (Name (claim_meta claim))) (Ok stored) :: h.

Lemma checkpointLaunch_wp claim config h :
  wp unguarded (checkpointLaunch claim config) h (λ h' r,
    match r with Ok claim' => checkpointed h h' claim config claim' | Err _ => True end).
Proof.
  unfold checkpointLaunch. split; [done|]. intros [stored|e]; [|done]. cbn [bind].
  split_if; [done|]. bool_to_prop. apply wp_bind.
  eapply wp_mono; [|apply updateLaunch_wp]. intros h' [updated|e]; [|done]. intros (value & Hv & ->).
  exists stored, updated, value. unfold empty in *. bool_to_prop. split_and!; try done.
  destruct (DeletionTimestamp (claim_meta stored)) eqn:Ed; [|done]. exfalso. eauto.
Qed.

(** No instance of the name, as far as a listing and the looks after it go. *)
Definition none_named (l : history vpc_call) (region name : string) (instances : list Instance) : Prop :=
  ∀ i, i ∈ instances → named name i = true →
    ∃ id, inst_ID i = Some id ∧ Did (GetInstance region id) (None, None) ∈ l.

Lemma find_named_wp region name instances found h :
  wp unguarded (find_named region name instances found) h (λ h' r,
    ∃ l, h' = l ++ h ∧ Forall (event_is looks) l ∧
      match r with
      | Ok None => found = None ∧ none_named l region name instances
      | Ok (Some i) => found = Some i ∨ ∃ id, Did (GetInstance region id) (Some i, None) ∈ l
      | Err _ => True
      end).
Proof.
  revert found h. induction instances as [|i instances IH]; intros found h; cbn [find_named].
  { exists []. split_and!; [done|constructor|]. destruct found; [by left|]. split; [done|].
    by intros i ?%elem_of_nil. }
  destruct (named name i) eqn:En; cbn [negb].
  - destruct found as [j|]; [by exists []|]. destruct (inst_ID i) as [id|] eqn:Ei; [|by exists []].
    split; [done|]. intros [found [e|]].
    + exists [Did (GetInstance region id) (found, Some e)]. by repeat constructor.
    + eapply wp_mono; [|apply IH]. intros h' r (l & -> & Hl & Hr).
      exists (l ++ [Did (GetInstance region id) (found, None)]).
      rewrite <-(assoc_L (++)). split_and!; [done|apply Forall_app; split; [done|by repeat constructor]|].
      destruct r as [[j|]|e]; [|destruct Hr as [-> Hn]; split; [done|]|done].
      * destruct Hr as [->|(id' & Hid')]; right.
        -- exists id. apply elem_of_app. right. by left.
        -- exists id'. apply elem_of_app. by left.
      * intros i' [->|Hi']%elem_of_cons Hname.
        -- exists id. split; [done|]. apply elem_of_app. right. by left.
        -- destruct (Hn i' Hi' Hname) as (id' & ? & ?). exists id'. split; [done|].
           apply elem_of_app. by left.
  - eapply wp_mono; [|apply IH]. intros h' r (l & -> & Hl & Hr). exists l. split_and!; try done.
    destruct r as [[j|]|e]; [done| |done]. destruct Hr as [-> Hn]. split; [done|].
    intros i' [->|Hi']%elem_of_cons Hname; [congruence|by apply Hn].
Qed.

(** The history after a search. *)
Definition searched (h h' : history vpc_call) (region : string) (config : launchConfig)
    (found : option Instance) : Prop :=
  ∃ instances l, Forall (event_is looks) l ∧
    h' = l ++ Did (ListInstancesByName region (lc_Name config)) (Ok instances) :: h ∧
    match found with
    | None => none_named l region (lc_Name config) instances
    | Some i => matches_launch config i = None ∧ ∃ id, Did (GetInstance region id) (Some i, None) ∈ l
    end.

Lemma findLaunch_wp region config h :
  wp unguarded (findLaunch region config) h (λ h' r,
    match r with Ok found => searched h h' region config found | Err _ => True end).
Proof.
  unfold findLaunch. split; [done|]. intros [instances|e]; [|done]. cbn [bind]. apply wp_bind.
  eapply wp_mono; [|apply find_named_wp]. intros h' [[i|]|e] (l & -> & Hl & Hr); [|..|done].
  - destruct Hr as [?|Hr]; [done|]. destruct (matches_launch config i) eqn:Em; [done|].
    by exists instances, l.
  - destruct Hr as [_ Hn]. by exists instances, l.
Qed.
End checkpoint.

(** ** Recovery *)

(** The error an answer carries. *)
Definition error_of {R} (e : vpc_call R) : R → err :=
  match e with
  | KGetClaim _ | KPatchClaim _ _ => λ r, err_of r
  | KGetClass _ => λ r, err_of r
  | KGetNamespace _ => λ r, err_of r
  | KListNodes => λ r, err_of r
  | KDeleteNode _ _ | ClientForRegion _ | DeleteInstance _ _ | UpdateInstanceTags _ _ _ => λ r, r
  | ResolveAccount _ => λ r, err_of r
  | ListInstancesByName _ _ => λ r, err_of r
  | GetInstance _ _ => λ r, snd r
  | CreateInstance _ _ => λ r, snd r
  | _ => λ _, None
  end.

(** An error of a kind that only the provider makes. *)
Definition is_own {T} (sel : GoErrors.error → option T) (e : GoErrors.error) : bool :=
  bool_decide (is_Some (GoErrors.As sel e)).

(** No answer carries such an error, which no other code can return. *)
Definition foreign_answer {T} (sel : GoErrors.error → option T) (ev : event vpc_call) : Prop :=
  match ev with Did e r => match error_of e r with Some err => is_own sel err = false | None => True end end.

(** Kinds of errors that [fmt.Errorf] does not make. *)
Class OwnKind {T} (sel : GoErrors.error → option T) : Prop :=
  own_plain : ∀ s causes, sel (GoErrors.foreignError GoErrors.Plain s causes) = None.
#[export] Instance unresolved_own : OwnKind as_unresolved.
Proof. done. Qed.
#[export] Instance claim_not_found_own : OwnKind GoErrors.as_claim_not_found.
Proof. done. Qed.

(** An error that cannot be mistaken for one of that kind. *)
Definition resolved {T} (sel : GoErrors.error → option T) (h : history vpc_call) (e : GoErrors.error) : Prop :=
  Forall (foreign_answer sel) h → is_own sel e = false.

Section own.
Context {T : Type} (sel : GoErrors.error → option T) `{Hown : !OwnKind sel}.

Lemma resolved_New h s : resolved sel h (GoErrors.New s).
Proof. intros _. unfold is_own. cbn. by rewrite own_plain. Qed.
Lemma resolved_wrap h s e : resolved sel h e → resolved sel h (GoErrors.wrap s e).
Proof.
  intros He Hh. unfold is_own. rewrite GoErrors.As_wrap by apply own_plain. by apply He.
Qed.
Lemma resolved_answer {R} (c : vpc_call R) r h e : error_of c r = Some e → resolved sel (Did c r :: h) e.
Proof. intros He [Hc _]%Forall_cons. cbn in Hc. by rewrite He in Hc. Qed.
Lemma resolved_later ev h e : resolved sel h e → resolved sel (ev :: h) e.
Proof. intros He [_ Hh]%Forall_cons. by apply He. Qed.
End own.

#[export] Hint Resolve resolved_New resolved_wrap resolved_later : go_db.
#[export] Hint Extern 1 (resolved _ (Did _ _ :: _) _) => (apply resolved_answer; reflexivity) : go_db.

Section recovery.
Context `{HK : Karpenter} `{HL : LaunchCodec} `{HM : MapRange} `{HS : SliceSorter}.
Context (p : VPCInstanceProvider).

(** The credential of the region was shown to be the configuration's account. *)
Definition account_verified (h : history vpc_call) (config : launchConfig) : Prop :=
  lc_AccountID config ≠ ""%string ∧ asked h (ResolveAccount (lc_Region config)) (Ok (lc_AccountID config)).

Lemma account_resolved {T} (sel : GoErrors.error → option T) `{!OwnKind sel} region h :
  wp unguarded (resolveAccountID p region) h (λ h' r,
    match r with
    | Ok a => a ≠ ""%string ∧ asked h' (ResolveAccount region) (Ok a)
    | Err e => resolved sel h' e
    end).
Proof.
  unfold resolveAccountID. split; [done|]. intros [a|e]; [|cbn; auto with go_db]. cbv zeta.
  unfold empty at 1. destruct (String.eqb_spec a "") as [->|Hne]; [cbn; auto with go_db|]. cbn [wp].
  split_if; [cbn; auto with go_db|]. split; [done|apply asked_here].
Qed.

Lemma accountTarget_wp {T} (sel : GoErrors.error → option T) `{!OwnKind sel} region birth h :
  wp unguarded (validateAccountTarget p region birth) h (λ h' r,
    match r with
    | None => birth ≠ ""%string ∧ asked h' (ResolveAccount region) (Ok birth)
    | Some e => resolved sel h' e
    end).
Proof.
  unfold validateAccountTarget, empty. destruct (String.eqb_spec birth "") as [->|Hne]; [cbn; auto with go_db|].
  unfold vcheck. apply wp_bind. eapply wp_mono; [|apply (account_resolved sel)].
  intros h' [a|e]; [|done]. intros [_ Ha]. cbn.
  destruct (String.eqb_spec a birth) as [->|]; cbn; [done|auto with go_db].
Qed.

Lemma cluster_wp {T} (sel : GoErrors.error → option T) `{!OwnKind sel} h :
  wp unguarded VClusterUID h (λ h' r, match r with Ok _ => True | Err e => resolved sel h' e end).
Proof.
  unfold VClusterUID. split; [done|]. intros [ns|e]; cbn; [|auto with go_db].
  destruct (String.eqb (UID ns) ""); cbn; auto with go_db.
Qed.

Lemma launchTarget_wp {T} (sel : GoErrors.error → option T) `{!OwnKind sel} claim config h :
  wp unguarded (validateLaunchTarget p claim config) h (λ h' r,
    match r with
    | None => lc_ClaimUID config = UID (claim_meta claim) ∧ account_verified h' config
    | Some e => resolved sel h' e
    end).
Proof.
  unfold validateLaunchTarget. split_if; [cbn; auto with go_db|]. unfold vcheck. apply wp_bind.
  eapply wp_mono; [|apply (cluster_wp sel)]. intros h' [uid|e]; [|done]. intros _.
  destruct (negb (String.eqb (lc_ClaimUID config) (UID (claim_meta claim))) || _) eqn:Eid; [cbn; auto with go_db|].
  split_if; [cbn; auto with go_db|]. split; [done|]. intros [e|]; [cbn; auto with go_db|].
  eapply wp_mono; [|apply (accountTarget_wp sel)]. intros h'' [e|]; [done|]. intros [Hne Ha].
  bool_to_prop. done.
Qed.

Lemma launchTarget_reads claim config : only reads (validateLaunchTarget p claim config).
Proof.
  unfold validateLaunchTarget, vcheck, validateAccountTarget, VClusterUID, vcheck, resolveAccountID. solve_quiet.
Qed.

Lemma find_named_looks region name instances found : only looks (find_named region name instances found).
Proof. revert found. induction instances as [|i l IH]; intros found; cbn [find_named]; solve_quiet; apply IH. Qed.

Lemma findLaunch_reads region config : only reads (findLaunch region config).
Proof.
  unfold findLaunch. solve_quiet. eapply only_weaken; [|apply find_named_looks]. by intros R [].
Qed.

(** Errors of a search. *)
Lemma find_named_resolved {T} (sel : GoErrors.error → option T) `{!OwnKind sel} region name instances found h :
  wp unguarded (find_named region name instances found) h (λ h' r,
    match r with Ok _ => True | Err e => resolved sel h' e end).
Proof.
  revert found h. induction instances as [|i l IH]; intros found h; cbn [find_named]; [done|].
  split_if; [apply IH|]. destruct found; [cbn; auto with go_db|].
  destruct (inst_ID i); [|cbn; auto with go_db]. split; [done|].
  intros [found [e|]]; [cbn; auto with go_db|apply IH].
Qed.

Lemma verify_account_New crn account e :
  verifyInstanceAccount crn account = Some e → ∃ s, e = GoErrors.New s.
Proof.
  unfold verifyInstanceAccount. repeat case_match; intros ?; simplify_eq; eauto.
Qed.
Lemma matches_launch_New config i e : matches_launch config i = Some e → ∃ s, e = GoErrors.New s.
Proof.
  unfold matches_launch. intros Hm. repeat (case_match; [simplify_eq; by eauto|]). by eapply verify_account_New.
Qed.

Lemma findLaunch_resolved {T} (sel : GoErrors.error → option T) `{!OwnKind sel} region config h :
  wp unguarded (findLaunch region config) h (λ h' r,
    match r with Ok _ => True | Err e => resolved sel h' e end).
Proof.
  unfold findLaunch. split; [done|]. intros [instances|e]; [|cbn; auto with go_db]. cbn [bind].
  apply wp_bind. eapply wp_mono; [|apply (find_named_resolved sel)].
  intros h' [[i|]|e]; [|done|done]. intros _. destruct (matches_launch config i) as [e|] eqn:Em; [|done].
  apply matches_launch_New in Em as [s ->]. cbn. auto with go_db.
Qed.

(** What a recovered node stands for. *)
Record recovered (h : history vpc_call) (claim : NodeClaim) (config : launchConfig) (node : Node)
    (id : string) (i : Instance) : Prop := {
  rec_node : node = config_node config claim id;
  rec_id : inst_ID i = Some id;
  rec_instance : matches_launch config i = None ∧ is_deleting i = false;
  rec_claim : lc_ClaimUID config = UID (claim_meta claim);
  rec_account : account_verified h config;
  rec_seen : ∃ id', asked h (GetInstance (lc_Region config) id') (Some i, None);
  rec_tags : asked h (UpdateInstanceTags (lc_Region config) id (recovery_tags config)) None;
}.

Lemma account_verified_app config l h : account_verified h config → account_verified (l ++ h) config.
Proof. intros [? ?]. split; [done|]. by apply asked_app. Qed.

Lemma recoverLaunch_recovers claim config : only recovers (recoverLaunch p claim config).
Proof.
  assert (Hw : ∀ A (q : prog vpc_call A), only reads q → only recovers q).
  { intros A q. apply only_weaken. by intros R []. }
  unfold recoverLaunch, guarded_by.
  apply only_bind; [apply Hw, launchTarget_reads|]. intros [e|]; [done|]. split; [done|]. intros [e|]; [done|].
  apply only_try; [apply Hw, findLaunch_reads|]. intros [i|]; [|done]. solve_quiet.
Qed.

Lemma recoverLaunch_no_request claim config : only no_request (recoverLaunch p claim config).
Proof. eapply only_weaken; [|apply recoverLaunch_recovers]. by intros R []. Qed.

Lemma recoverLaunch_wp claim config h :
  wp unguarded (recoverLaunch p claim config) h (λ h' r,
    match r with
    | Ok node => ∃ id i, recovered h' claim config node id i
    | Err e => is_unresolved e = true → Forall (foreign_answer as_unresolved) h' →
               ∃ h0, searched h0 h' (lc_Region config) config None
    end).
Proof.
  assert (Hno : ∀ h' e, resolved as_unresolved h' e → is_unresolved e = true → Forall (foreign_answer as_unresolved) h' →
    ∃ h0, searched h0 h' (lc_Region config) config None).
  { intros h' e He Hu Hf. specialize (He Hf). unfold is_own in He. unfold is_unresolved in Hu. congruence. }
  unfold recoverLaunch, guarded_by. apply wp_bind.
  eapply wp_mono; [|apply (wp_only_post reads); [done|apply launchTarget_reads|apply (launchTarget_wp as_unresolved)]].
  intros h1 [e|] [Ht _]; [exact (Hno _ _ Ht)|]. destruct Ht as [Hclaim Hacc].
  split; [done|]. intros [e|]; [exact (Hno _ _ (resolved_answer as_unresolved (ClientForRegion _) (Some e) _ _ eq_refl))|].
  apply wp_bind. eapply wp_mono; [|apply wp_and; [apply findLaunch_wp|apply (findLaunch_resolved as_unresolved)]].
  intros h2 [[i|]|e] [Hs He]; [|by intros _ _; eexists|exact (Hno _ _ He)].
  destruct Hs as (instances & l & Hl & -> & Hm & id' & Hid').
  destruct (inst_ID i) as [id|] eqn:Ei; [|exact (Hno _ _ (resolved_New as_unresolved _ _))].
  split_if; [exact (Hno _ _ (resolved_New as_unresolved _ _))|].
  split; [done|]. intros [e|];
    [exact (Hno _ _ (resolved_answer as_unresolved (UpdateInstanceTags _ _ _) (Some e) _ _ eq_refl))|].
  exists id, i. constructor; try done.
  - by apply (account_verified_app _ [_]), (account_verified_app _ l), (account_verified_app _ [_; _]).
  - exists id'. right. apply elem_of_app. by left.
  - apply asked_here.
Qed.
End recovery.

(** ** The request *)
Section request.
Context `{HK : Karpenter} `{HL : LaunchCodec} `{HM : MapRange} `{HS : SliceSorter}.
Context (p : VPCInstanceProvider).

(** The claim as the call first read it: the same claim, not being deleted,
    with no launch to resume. *)
Definition fresh_read (h : history vpc_call) (claim fresh : NodeClaim) : Prop :=
  asked h (KGetClaim (Name (claim_meta claim))) (Ok fresh) ∧
  UID (claim_meta fresh) = UID (claim_meta claim) ∧ DeletionTimestamp (claim_meta fresh) = None ∧
  get (Annotations (claim_meta fresh)) LaunchAnnotation = ""%string.

(** What precedes a request for an instance, newest first: the durable mark of
    the submission with its time, a listing and looks that show no instance of
    the name, and the durable checkpoint on a claim that had none and is not
    being deleted; before them the preparation.  Nothing was requested yet. *)
Definition request_ready (claim : NodeClaim) (h : history vpc_call) (region : string)
    (proto : InstancePrototype) : Prop :=
  ∃ config now value claim1 durable h2 h1 h0 fresh,
    no_create h = true ∧ prepared h0 claim proto config ∧ region = lc_Region config ∧
    fresh_read h0 claim fresh ∧
    checkpointed h0 h1 fresh config claim1 ∧
    searched h1 h2 region config None ∧
    MarshalLaunch (submit config now) = Ok value ∧
    h = Did (KPatchClaim claim1 (written claim1 (submit config now) value)) (Ok durable)
        :: Did VNow now :: h2.

Definition create_guard (claim : NodeClaim) : guard := λ h R e,
  match e with
  | CreateInstance region proto => request_ready claim h region proto
  | DeleteInstance _ _ | KDeleteNode _ _ => False
  | _ => True
  end.

(** A returned node is an instance of the claim's launch, in the account of the
    launch, with the tags of ownership attached: the one the request returned,
    or one that matches the checkpoint in every respect. *)
Definition owned_node (h : history vpc_call) (claim : NodeClaim) (node : Node) : Prop :=
  ∃ config claim' id i,
    node = config_node config claim' id ∧ inst_ID i = Some id ∧
    lc_ClaimUID config = UID (claim_meta claim) ∧ account_verified h config ∧
    verifyInstanceAccount (inst_CRN i) (lc_AccountID config) = None ∧
    (∃ tags, VPCTags (lc_ClusterUID config) (lc_ClaimUID config) (lc_ClassUID config) ⊆ tags ∧
             asked h (UpdateInstanceTags (lc_Region config) id tags) None) ∧
    ((∃ proto, describes proto config ∧ asked h (CreateInstance (lc_Region config) proto) (Some i, None)) ∨
     (matches_launch config i = None ∧ ∃ id', asked h (GetInstance (lc_Region config) id') (Some i, None))).

Lemma guard_no_request claim h R (e : vpc_call R) : no_request R e = true → create_guard claim h R e.
Proof. by destruct e. Qed.
Lemma guard_reads claim h R (e : vpc_call R) : reads R e = true → create_guard claim h R e.
Proof. by destruct e. Qed.

Lemma matches_account config i :
  matches_launch config i = None → verifyInstanceAccount (inst_CRN i) (lc_AccountID config) = None.
Proof. unfold matches_launch. intros Hm. by repeat (case_match; [done|]). Qed.

Lemma recovered_owned h claim claim' config node id i :
  lc_ClaimUID config = UID (claim_meta claim) → recovered h claim' config node id i → owned_node h claim node.
Proof.
  intros Hc [-> Hi [Hm _] _ Hacc Hseen Htags]. exists config, claim', id, i.
  split_and!; try done; [by apply matches_account| |by right].
  exists (recovery_tags config). split; [apply owned_tags_subseteq|done].
Qed.

Lemma updateLaunch_no_request claim config : only no_request (updateLaunch claim config).
Proof. unfold updateLaunch. solve_quiet. Qed.

Lemma marks_no_request claim config : only no_request (markLaunchRejected claim config).
Proof.
  unfold markLaunchRejected. destruct (MarshalLaunch config); [|done].
  apply retry_on_conflict_only. unfold mark_rejected, updateLaunch. solve_quiet.
Qed.

(** Recovery under the guard, for the configuration of the claim. *)
Lemma recover_guarded claim claim' config h :
  lc_ClaimUID config = UID (claim_meta claim) →
  wp (create_guard claim) (recoverLaunch p claim' config) h (λ h' r,
    match r with Ok node => owned_node h' claim node | Err _ => True end).
Proof.
  intros Hc. eapply wp_mono; [|apply (wp_only_post no_request);
    [apply guard_no_request|apply recoverLaunch_no_request|apply recoverLaunch_wp]].
  intros h' [node|e]; [|done]. intros [(id & i & Hr) _]. by eapply recovered_owned.
Qed.

Lemma create_failed_wp claim claim' config err h :
  lc_ClaimUID config = UID (claim_meta claim) →
  wp (create_guard claim) (create_failed p claim' config err) h (λ h' r,
    match r with Ok node => owned_node h' claim node | Err _ => True end).
Proof.
  intros Hc. unfold create_failed. cbv zeta.
  assert (Hrec : ∀ h claim' config, lc_ClaimUID config = UID (claim_meta claim) →
    wp (create_guard claim) (bind (recoverLaunch p claim' config) (λ r,
      match r with Ok recovered => Ret (Ok recovered)
      | Err _ => fail ("creating VPC instance failed: " ++ GoErrors.Error err ++ " (code: "
                ++ GoErrors.Code (IBM.ParseError_ err) ++ ", status: "
                ++ Strconv.Itoa (GoErrors.Status (IBM.ParseError_ err)) ++ ", instance_profile: "
                ++ lc_Profile config ++ ", zone: " ++ lc_Zone config ++ ", resolvedImageID: "
                ++ lc_Image config ++ ")")%string end)) h
      (λ h' r, match r with Ok node => owned_node h' claim node | Err _ => True end)).
  { intros h1 c1 g1 Hg. apply wp_bind. eapply wp_mono; [|by apply recover_guarded].
    by intros h2 [node|e]. }
  split_if; [|by apply Hrec]. apply wp_bind.
  eapply wp_mono; [|apply (wp_only no_request); [apply guard_no_request|apply marks_no_request]].
  intros h1 [c|e] _; [|done]. by apply Hrec.
Qed.

Lemma describes_submit proto config now : describes proto config → describes proto (submit config now).
Proof. intros []. by constructor. Qed.

Lemma create_done_wp claim claim' config proto i h :
  lc_ClaimUID config = UID (claim_meta claim) → describes proto config → account_verified h config →
  VPCTags (lc_ClusterUID config) (lc_ClaimUID config) (lc_ClassUID config) ⊆ lc_Tags config →
  asked h (CreateInstance (lc_Region config) proto) (i, None) →
  wp (create_guard claim) (create_done claim' config i) h (λ h' r,
    match r with Ok node => owned_node h' claim node | Err _ => True end).
Proof.
  intros Hc Hd Ha Ht Hasked. unfold create_done. destruct i as [i|]; [|done].
  destruct (inst_ID i) as [id|] eqn:Ei; [|done]. destruct (inst_Name i); [|done].
  destruct (verifyInstanceAccount _ _) eqn:Ev; [done|]. split; [done|]. intros [e|]; [done|].
  exists config, claim', id, i. split_and!; try done.
  - by apply (account_verified_app _ [_]).
  - exists (lc_Tags config). split; [done|apply asked_here].
  - left. exists proto. split; [done|]. by apply asked_later.
Qed.

Lemma submit_launch_wp claim fresh proto config h :
  fresh_read h claim fresh → prepared h claim proto config → no_create h = true →
  wp (create_guard claim) (submit_launch p fresh proto config) h (λ h' r,
    match r with Ok node => owned_node h' claim node | Err _ => True end).
Proof.
  intros Hu Hp Hn. unfold submit_launch.
  apply (wp_try_post no_request _ _ _ _ _ (λ h' r,
    match r with Ok claim' => checkpointed h h' fresh config claim' | Err _ => True end));
    [apply guard_no_request|unfold checkpointLaunch, updateLaunch; solve_quiet|apply checkpointLaunch_wp| |done].
  intros l1 claim1 Hl1 Hck. apply (wp_try_post reads _ _ _ _ _ (λ h' r,
    match r with Ok found => searched (l1 ++ h) h' (lc_Region config) config found | Err _ => True end));
    [apply guard_reads|apply findLaunch_reads|apply findLaunch_wp| |done].
  intros l2 [i|] Hl2 Hs; [apply recover_guarded, Hp|]. split; [done|]. intros now. cbv zeta.
  eapply (wp_try_post no_request); [apply guard_no_request|apply updateLaunch_no_request|apply updateLaunch_wp| |done].
  intros l3 durable _ (value & Hv & E). rewrite E. clear l3 E.
  assert (Hn2 : no_create (l2 ++ l1 ++ h) = true).
  { rewrite !no_create_app; [done|done|]. eapply Forall_impl; [exact Hl2|].
    intros [R e r]. apply reads_no_request. }
  split.
  { exists config, now, value, claim1, durable, (l2 ++ l1 ++ h), (l1 ++ h), h, fresh.
    split_and!; try done. }
  intros [i [e|]]; [apply create_failed_wp, Hp|].
  eapply create_done_wp; [apply Hp|apply describes_submit, Hp| |apply Hp|apply asked_here].
  do 3 apply (account_verified_app _ [_]). do 2 apply account_verified_app. apply Hp.
Qed.

Lemma resume_no_request fresh value : only no_request (resume_launch p fresh value).
Proof.
  assert (Hd : ∀ c, only no_request (discard_launch fresh c)).
  { intros c. unfold discard_launch, resetPreparedLaunch, vcheck. solve_quiet. }
  unfold resume_launch. destruct (decodeLaunch value) as [config|]; [|done]. split_if; [|apply Hd].
  apply only_bind; [apply recoverLaunch_no_request|]. intros [node|e]; [done|]. split_if; [done|].
  split; [done|]. intros now. split_if; [done|apply Hd].
Qed.

Lemma resume_wp claim fresh value h :
  UID (claim_meta fresh) = UID (claim_meta claim) →
  wp unguarded (resume_launch p fresh value) h (λ h' r,
    match r with Ok node => owned_node h' claim node | Err _ => True end).
Proof.
  intros Hu. assert (Hd : ∀ c h, wp unguarded (discard_launch fresh c) h (λ h' r,
    match r with Ok node => owned_node h' claim node | Err _ => True end)).
  { intros c h1. unfold discard_launch, resetPreparedLaunch, vcheck. split; [done|]. by intros [? | ?]. }
  unfold resume_launch. destruct (decodeLaunch value) as [config|]; [|done]. split_if; [|apply Hd].
  apply wp_bind. eapply wp_mono; [|apply recoverLaunch_wp]. intros h' [node|e].
  - intros (id & i & Hr). eapply recovered_owned; [|exact Hr]. rewrite <-Hu. apply Hr.
  - intros _. split_if; [done|]. split; [done|]. intros now. split_if; [done|apply Hd].
Qed.

Lemma start_launch_wp claim fresh ref types h :
  fresh_read h claim fresh → no_create h = true →
  wp (create_guard claim) (start_launch p claim fresh ref types) h (λ h' r,
    match r with Ok node => owned_node h' claim node | Err _ => True end).
Proof.
  intros Hf Hn.
  assert (Hl : ∀ l, Forall (event_is reads) l → Forall (event_is no_request) l).
  { intros l Hl. eapply Forall_impl; [exact Hl|]. intros [R e r]. apply reads_no_request. }
  unfold start_launch.
  assert (Hmain : wp (create_guard claim)
    (if negb (v_kubeClient p) then fail "kubernetes client not set"
     else try (launch_class ref) (λ nodeClass, try VClusterUID (λ clusterUID,
       try (launch_client (Region (Spec nodeClass))) (λ _, try (prepare p claim nodeClass clusterUID types)
         (λ prepared, submit_launch p fresh (fst prepared) (snd prepared)))))) h
    (λ h' r, match r with Ok node => owned_node h' claim node | Err _ => True end)).
  { split_if; [done|].
    apply (wp_try_any reads); [apply guard_reads|apply launch_class_reads| |done]. intros l1 nc H1.
    apply (wp_try_any reads); [apply guard_reads|apply cluster_reads| |done]. intros l2 uid H2.
    apply (wp_try_any reads); [apply guard_reads|apply client_reads| |done]. intros l3 _u H3.
    eapply (wp_try_post reads); [apply guard_reads|apply prepare_reads|apply prepare_wp| |done].
    intros l4 [proto config] H4 (Hp & _). apply submit_launch_wp; [|done|].
    - destruct Hf as (Ha & Hf). split; [|done]. by do 4 apply asked_app.
    - by rewrite !no_create_app by auto. }
  destruct types as [|[it|] types]; [exact Hmain|exact Hmain|done].
Qed.

Lemma create_wp claim types :
  wp (create_guard claim) (Create p (Some claim) types) [] (λ h' r,
    match r with Ok node => owned_node h' claim node | Err _ => True end).
Proof.
  unfold Create. destruct (NodeClassRef claim) as [ref|]; [|done]. do 2 (split_if; [done|]).
  split; [done|]. intros [fresh|e]; [|done]. cbn [bind]. split_if; [done|]. cbv zeta. bool_to_prop.
  split_if.
  - eapply wp_mono; [|apply (wp_only_post no_request);
      [apply guard_no_request|apply resume_no_request|by apply (resume_wp claim)]].
    intros h' r [Hr _]. exact Hr.
  - apply start_launch_wp; [|done]. unfold empty in *. bool_to_prop.
    split_and!; [apply asked_here|done| |done].
    destruct (DeletionTimestamp (claim_meta fresh)); [|done]. exfalso. eauto.
Qed.

(** C1. A launch requests an instance at most once, and only when no other
    request can have produced one for the claim: the claim was read without a
    launch to resume; a checkpoint that describes exactly the requested
    instance, names it after the cluster and the claim and records the verified
    account was durably written to the claim, which still had none and was not
    being deleted; after that a listing showed no instance of the name; and
    then the submission and its time were durably recorded.  Nothing is ever
    deleted.  A node that is returned is owned: its instance belongs to the
    claim's launch and account and has the tags of ownership. *)
Theorem create_requests_once claim types tr r
    (Hrun : runs (Create p (Some claim) types) tr r) :
  guarded (create_guard claim) tr [] ∧
  ∀ node, r = Ok node → owned_node (reverse tr) claim node.
Proof.
  destruct (wp_sound _ _ _ _ _ _ (create_wp claim types) Hrun) as [Hg Hr].
  rewrite List.app_nil_r in Hr. split; [done|]. by intros node ->.
Qed.
End request.

(** ** Discarding a checkpoint *)
Section discard.
Context `{HK : Karpenter} `{HL : LaunchCodec} `{HM : MapRange} `{HS : SliceSorter}.
Context (p : VPCInstanceProvider).

(** The launch created nothing: it was never submitted, or the request was
    definitely rejected, or its window has passed and a listing shows no
    instance. *)
Definition created_nothing (h : history vpc_call) (config : launchConfig) : Prop :=
  Submitted config = false ∨ Rejected config = true ∨
  ∃ now h0 h1, h = Did VNow now :: h1 ∧ searched h0 h1 (lc_Region config) config None ∧
    (launchResolutionWindow < now - SubmittedAt config)%Z.

Definition discard_guard (fresh : NodeClaim) (config : launchConfig) : guard := λ h R e,
  match e with
  | CreateInstance _ _ | DeleteInstance _ _ | KDeleteNode _ _ => False
  | KPatchClaim stored cleared =>
      Forall (foreign_answer as_unresolved) h →
      stored = fresh ∧ cleared = set_meta fresh (reset_meta (claim_meta fresh)) ∧ created_nothing h config
  | _ => True
  end.

Lemma discard_wp fresh config h :
  created_nothing h config →
  wp (discard_guard fresh config) (discard_launch fresh config) h (λ h' r, ∀ node, r ≠ Ok node).
Proof.
  intros Hn. unfold discard_launch, resetPreparedLaunch, vcheck. split; [done|]. by intros [c|e].
Qed.

Lemma resume_discards fresh value config h :
  decodeLaunch value = Ok config →
  wp (discard_guard fresh config) (resume_launch p fresh value) h (λ _ _, True).
Proof.
  intros Hd. unfold resume_launch. rewrite Hd.
  split_if; [|eapply wp_mono; [|apply discard_wp]; [done|]].
  - apply wp_bind. eapply wp_mono; [|apply (wp_only_post recovers);
      [by intros ? ? []|apply recoverLaunch_recovers|apply recoverLaunch_wp]].
    intros h1 [node|e] [Hr _]; [done|]. split_if; [done|]. split; [done|]. intros now. split_if; [done|].
    bool_to_prop.
    assert (Hsafe : Forall (foreign_answer as_unresolved) h1 → created_nothing (Did VNow now :: h1) config).
    { intros Hf. destruct (Hr ltac:(done) Hf) as [h0 Hs]. right. right. exists now, h0, h1.
      split_and!; [done|done|]. unfold abandoned in *.
      destruct (Rejected config); [done|]. destruct (Submitted config); [|done]. cbn [orb negb] in *.
      unfold launchResolutionWindow, GoTime.Sub, GoTime.min_duration, GoTime.Minute, GoTime.Second,
        GoTime.Millisecond in *. lia. }
    unfold discard_launch, resetPreparedLaunch, vcheck. split; [|by intros [c|e']].
    intros [_ Hf]%Forall_cons. split_and!; [done|done|by apply Hsafe].
  - destruct (Submitted config) eqn:Es; [|by left]. destruct (Rejected config) eqn:Er; [|done].
    right. by left.
Qed.

(** The answer of a reading of a claim. *)
Definition claim_read (ev : event vpc_call) : option (result GoErrors.error NodeClaim) :=
  match ev with
  | Did e r => match e in vpc_call R return R → option (result GoErrors.error NodeClaim) with
               | KGetClaim _ => λ r, Some r
               | _ => λ _, None
               end r
  end.

(** C3. A checkpoint is discarded only when its launch created nothing, and a
    call that finds a checkpoint requests no instance: for every checkpoint the
    claim is read with, the only change the call can make to the claim removes
    it, and then the launch was never submitted, or the request was definitely
    rejected, or fifteen minutes have passed since the submission and a listing
    after the account was verified shows no instance of its name. *)
Theorem discarded_launch_created_nothing claim types fresh config tr r
    (Hrun : runs (Create p (Some claim) types) (Did (KGetClaim (Name (claim_meta claim))) (Ok fresh) :: tr) r)
    (Hckpt : get (Annotations (claim_meta fresh)) LaunchAnnotation ≠ ""%string)
    (Hdec : decodeLaunch (get (Annotations (claim_meta fresh)) LaunchAnnotation) = Ok config) :
  guarded (discard_guard fresh config) tr [Did (KGetClaim (Name (claim_meta claim))) (Ok fresh)].
Proof.
  unfold Create in Hrun. destruct (NodeClassRef claim) as [ref|]; [|by destruct Hrun].
  do 2 (case_match; [by destruct Hrun|]). destruct Hrun as (x & tr' & E & Hrun).
  assert (x = Ok fresh ∧ tr' = tr) as [-> ->].
  { split; [|by apply (f_equal tail) in E].
    apply (f_equal (λ l, l !! 0 ≫= claim_read)) in E. by injection E. }
  cbn [bind] in Hrun. case_match; [by destruct Hrun as [-> _]|]. cbv zeta in Hrun.
  unfold empty in Hrun. rewrite (proj2 (String.eqb_neq _ _) Hckpt) in Hrun. cbn [negb] in Hrun.
  by destruct (wp_sound _ _ _ _ _ _ (resume_discards fresh _ config
    [Did (KGetClaim (Name (claim_meta claim))) (Ok fresh)] Hdec) Hrun).
Qed.
End discard.
