(* ===== verification/VpcCleanupSafety.v ===== *)
(** * VpcCleanupSafety: what every run of a VPC cleanup, deletion or lookup guarantees

    The cleanup of a launch that never got a provider ID deletes only the
    instance of the launch, and only when no Node is left on it; a deletion is
    made with the credential of the account the node was launched in; and an
    instance is reported gone only when the API says so. *)
From stdpp Require Import prelude list strings gmap.
From Stdlib Require Import Ascii.
From S2P Require Import Prelude GoLib GoSort GoRegexp Errors NodeClass ProviderIDs Ownership Prog Kube.
From S2P Require Import IksApi IksAllocation IksLaunch IksLaunchSafety Drift VpcApi VpcLaunch Bootstrap VpcCreate VpcSafety.

Open Scope nat_scope.
Open Scope list_scope.

Section cleanup.
Context `{HL : LaunchCodec}.
Context (p : VPCInstanceProvider).

(** The instance of a launch, as it was found and verified. *)
Definition launch_instance (h : history vpc_call) (config : launchConfig) (id : string) : Prop :=
  ∃ i id', inst_ID i = Some id ∧ matches_launch config i = None ∧
    asked h (GetInstance (lc_Region config) id') (Some i, None) ∧ account_verified h config.

(** A Node of the instance that may be deleted: it drains gracefully and is not
    on its way out already. *)
Definition drains (id : string) (config : launchConfig) (node : Node) : Prop :=
  node_ProviderID node = vpc_provider_id (lc_Region config) id ∧
  TerminationFinalizer ∈ Finalizers (node_meta node) ∧ DeletionTimestamp (node_meta node) = None.

Definition pending_guard (config : launchConfig) : guard := λ h R e,
  match e with
  | CreateInstance _ _ | KPatchClaim _ _ | UpdateInstanceTags _ _ _ => False
  | KDeleteNode node uid =>
      uid = UID (node_meta node) ∧
      ∃ id nodes, launch_instance h config id ∧ asked h KListNodes (Ok nodes) ∧ node ∈ nodes ∧ drains id config node
  | DeleteInstance region id =>
      region = lc_Region config ∧ launch_instance h config id ∧
      ∃ nodes, asked h KListNodes (Ok nodes) ∧
               ∀ node, node ∈ nodes → node_ProviderID node ≠ vpc_provider_id region id
  | _ => True
  end.

(** The instance was deleted and then not found. *)
Definition seen_gone (h : history vpc_call) (region id : string) : Prop :=
  ∃ answer e deleteErr h0,
    h = Did (GetInstance region id) (answer, Some e) :: Did (DeleteInstance region id) deleteErr :: h0 ∧
    is_absent (Some e) = true ∧ (deleteErr = None ∨ is_absent deleteErr = true).

(** The launch is over: its instance is gone, or none was ever created. *)
Definition finished (h : history vpc_call) (config : launchConfig) : Prop :=
  (∃ id, seen_gone h (lc_Region config) id) ∨
  ∃ now h0 h1, h = Did VNow now :: h1 ∧ searched h0 h1 (lc_Region config) config None ∧
               abandoned config now = true.

Lemma launch_instance_app l h config id : launch_instance h config id → launch_instance (l ++ h) config id.
Proof.
  intros (i & id' & ? & ? & ? & ?). exists i, id'. split_and!; try done; [by apply asked_app|].
  by apply account_verified_app.
Qed.

Lemma delete_pending_wp config id h :
  pending_guard config h _ (DeleteInstance (lc_Region config) id) →
  wp (pending_guard config) (delete_pending (lc_Region config) id) h (λ h' r,
    r = Ok true → seen_gone h' (lc_Region config) id).
Proof.
  intros Hg. unfold delete_pending. split; [exact Hg|]. intros [e|].
  - split_if; [done|]. bool_to_prop. split; [done|]. intros [a [e'|]]; [|done]. cbn [snd].
    split_if; [|done]. intros _. exists a, e', (Some e), h. split_and!; auto.
  - split; [done|]. intros [a [e'|]]; [|done]. cbn [snd].
    split_if; [|done]. intros _. exists a, e', None, h. split_and!; auto.
Qed.

Lemma pending_nodes_wp config id nodes0 nodes found h :
  launch_instance h config id → asked h KListNodes (Ok nodes0) → (∀ n, n ∈ nodes → n ∈ nodes0) →
  wp (pending_guard config) (pending_nodes (vpc_provider_id (lc_Region config) id) nodes found) h
    (λ h' r, (∃ l, h' = l ++ h) ∧ (r = Ok false → found = false ∧
       ∀ n, n ∈ nodes → node_ProviderID n ≠ vpc_provider_id (lc_Region config) id)).
Proof.
  revert found h. induction nodes as [|n nodes IH]; intros found h Hi Hn Hin; cbn [pending_nodes].
  { split; [by exists []|]. intros [= ->]. split; [done|]. by intros n ?%elem_of_nil. }
  assert (Hin' : ∀ m, m ∈ nodes → m ∈ nodes0) by (intros m Hm; apply Hin; by right).
  destruct (String.eqb_spec (node_ProviderID n) (vpc_provider_id (lc_Region config) id)) as [Eid|Hne]; cbn [negb].
  2:{ eapply wp_mono; [|by apply IH]. intros h' r [Hl Hr]. split; [done|]. intros E.
      destruct (Hr E) as [-> Hall]. split; [done|]. intros m [->|Hm]%elem_of_cons; [done|by apply Hall]. }
  destruct (existsb _ _) eqn:Ef; cbn [negb]; [|split; [by exists []|done]].
  case_bool_decide as Hdel.
  { eapply wp_mono; [|by apply IH]. intros h' r [Hl Hr]. split; [done|]. intros E. by destruct (Hr E). }
  split.
  { split; [done|]. exists id, nodes0. split_and!; try done; [apply Hin; by left|].
    split_and!; [done|by apply existsb_eqb_In|]. by apply eq_None_not_Some. }
  intros e. destruct (IgnoreNotFound e) as [e'|].
  { split; [by eexists [_]|done]. }
  eapply wp_mono; [|apply IH; [by apply (launch_instance_app [_])|by apply asked_later|done]].
  intros h' r [(l & ->) Hr]. split; [eexists (l ++ [_]); by rewrite <-(assoc_L (++))|].
  intros E. by destruct (Hr E).
Qed.

Lemma pending_reads config h R (e : vpc_call R) : reads R e = true → pending_guard config h R e.
Proof. by destruct e. Qed.

Lemma CleanupPending_wp claim config h :
  decodeLaunch (get (Annotations (claim_meta claim)) LaunchAnnotation) = Ok config →
  wp (pending_guard config) (CleanupPending p claim) h (λ h' r, r = Ok true → finished h' config).
Proof.
  intros Hd. unfold CleanupPending. rewrite Hd. unfold guarded_by. apply wp_bind.
  eapply wp_mono; [|apply (wp_only_post reads); [apply pending_reads|apply launchTarget_reads|
    apply (launchTarget_wp p as_unresolved)]].
  intros h1 [e|] [Ht _]; [done|]. destruct Ht as [Hclaim Hacc]. split; [done|]. intros [e|]; [done|].
  eapply (wp_try_post reads); [apply pending_reads|apply findLaunch_reads|apply findLaunch_wp| |done].
  intros l [i|] Hl Hs.
  2:{ split; [done|]. intros now [= Hab]. right. by eexists now, _, _. }
  destruct Hs as (instances & l' & Hl' & E & Hm & id' & Hid'). rewrite E.
  destruct (inst_ID i) as [id|] eqn:Ei; [|done]. apply wp_try. split; [done|]. intros [nodes|e]; [|done].
  assert (Hi : launch_instance (Did KListNodes (Ok nodes) :: l' ++
    Did (ListInstancesByName (lc_Region config) (lc_Name config)) (Ok instances)
    :: Did (ClientForRegion (lc_Region config)) None :: h1) config id).
  { exists i, id'. split_and!; try done; [right; apply elem_of_app; by left|].
    by apply (account_verified_app _ [_]), (account_verified_app _ l'), (account_verified_app _ [_; _]). }
  apply wp_try. eapply wp_mono; [|eapply (pending_nodes_wp _ _ nodes); [exact Hi|apply asked_here|done]].
  intros h2 [[]|e] [(l2 & ->) Hr]; [done| |done]. destruct (Hr eq_refl) as [_ Hnone].
  eapply wp_mono; [|apply delete_pending_wp].
  - intros h3 r Hg E'. left. exists id. by apply Hg.
  - split_and!; [done|by apply launch_instance_app|]. exists nodes. split; [|done]. by apply asked_app, asked_here.
Qed.

(** C4. The cleanup of a claim that has a launch checkpoint but no provider ID
    touches only the instance of that launch, found by its name and matching
    the checkpoint in every respect, in the verified account: a Node is deleted
    only if it is one of that instance, will drain and is not being deleted
    already; the instance is deleted only when a listing showed no Node of it;
    and the claim is reported clean only when the instance was deleted and then
    not found, or when there is none and the launch is past creating one. *)
Theorem pending_cleanup_safe claim config tr r
    (Hdec : decodeLaunch (get (Annotations (claim_meta claim)) LaunchAnnotation) = Ok config)
    (Hrun : runs (CleanupPending p claim) tr r) :
  guarded (pending_guard config) tr [] ∧ (r = Ok true → finished (reverse tr) config).
Proof.
  destruct (wp_sound _ _ _ _ _ _ (CleanupPending_wp claim config [] Hdec) Hrun) as [Hg Hr].
  by rewrite List.app_nil_r in Hr.
Qed.
End cleanup.

(** ** Deletion *)
Section delete.
Context `{HL : LaunchCodec} `{HW : !LaunchLaws}.
Context (p : VPCInstanceProvider).

(** A deletion is made of the node's own instance, with a credential that was
    shown to belong to the account the node was launched in. *)
Definition delete_guard (node : Node) : guard (E := vpc_call) := λ h R e,
  match e with
  | CreateInstance _ _ | KPatchClaim _ _ | UpdateInstanceTags _ _ _ | KDeleteNode _ _ => False
  | DeleteInstance region id =>
      region = providerRegion (node_ProviderID node) ∧ id = vpc_extractInstanceID (node_ProviderID node) ∧
      ∃ account, birth_account node = Ok account ∧ account ≠ ""%string ∧
                 asked h (ResolveAccount region) (Ok account)
  | _ => True
  end.

(** The last look at an instance that was deleted, and the cache before it. *)
Definition looked (h : history vpc_call) (region id : string) (answer : option Instance * err) : Prop :=
  ∃ deleteErr h0,
    h = Did (GetInstance region id) answer :: Did (CacheDelete id) tt
        :: Did (DeleteInstance region id) deleteErr :: h0 ∧
    (deleteErr = None ∨ is_absent deleteErr = true).

Definition deletion_result (h : history vpc_call) (node : Node) (r : err) : Prop :=
  let region := providerRegion (node_ProviderID node) in
  let id := vpc_extractInstanceID (node_ProviderID node) in
  match r with
  | None => ∃ answer, looked h region id (answer, None)
  | Some e =>
      IsNodeClaimNotFoundError e = true → Forall (foreign_answer GoErrors.as_claim_not_found) h →
      ∃ answer getErr, looked h region id (answer, Some getErr) ∧ is_absent (Some getErr) = true
  end.

Lemma own_claim_not_found e : IsNodeClaimNotFoundError e = is_own GoErrors.as_claim_not_found e.
Proof.
  unfold IsNodeClaimNotFoundError, is_own.
  destruct (GoErrors.As _ e); symmetry; [by apply bool_decide_eq_true; eexists|].
  apply bool_decide_eq_false. by intros [? ?].
Qed.

(** A result that cannot be mistaken for the absence of the instance. *)
Lemma resolved_result h node e :
  resolved GoErrors.as_claim_not_found h e → deletion_result h node (Some e).
Proof. intros He Hn Hf. rewrite own_claim_not_found, (He Hf) in Hn. done. Qed.

Lemma confirm_wp node deleteErr h :
  let region := providerRegion (node_ProviderID node) in
  let id := vpc_extractInstanceID (node_ProviderID node) in
  deleteErr = None ∨ is_absent deleteErr = true →
  wp (delete_guard node) (confirm_deletion region id) (Did (DeleteInstance region id) deleteErr :: h)
    (λ h' r, deletion_result h' node r).
Proof.
  cbv zeta. intros Hd. unfold confirm_deletion. split; [done|]. intros []. split; [done|].
  intros [a [e|]]; cbn [snd].
  - split_if.
    + intros _ _. exists a, e. split; [|done]. by exists deleteErr, h.
    + apply resolved_result. unfold wrapped_. auto with go_db typeclass_instances.
  - by exists a, deleteErr, h.
Qed.

Lemma delete_reads node h R (e : vpc_call R) : reads R e = true → delete_guard node h R e.
Proof. by destruct e. Qed.

Lemma accountTarget_reads region birth : only reads (validateAccountTarget p region birth).
Proof. unfold validateAccountTarget, vcheck, resolveAccountID. solve_quiet. Qed.

Lemma decode_error value e h : decodeLaunch value = Err e → resolved GoErrors.as_claim_not_found h e.
Proof.
  unfold decodeLaunch. destruct (UnmarshalLaunch value) as [c|e'] eqn:E.
  - case_match; [|done]. intros [= <-]. apply resolved_New, _.
  - intros [= <-]. apply resolved_wrap; [apply _|]. intros _. rewrite <-own_claim_not_found.
    by apply (unmarshal_error value).
Qed.

Lemma birth_error node e h : birth_account node = Err e → resolved GoErrors.as_claim_not_found h e.
Proof. unfold birth_account. case_match; [done|]. case_match; [done|]. intros [= <-]. by eapply decode_error. Qed.

Lemma delete_wp node :
  wp (delete_guard node) (Delete p node) [] (λ h' r, deletion_result h' node r).
Proof.
  unfold Delete. split_if; [by apply resolved_result, resolved_New, _|]. split; [done|].
  intros [e|]; [by apply resolved_result, resolved_answer|].
  destruct (birth_account node) as [birth|e] eqn:Eb; [|by eapply resolved_result, birth_error].
  apply wp_bind. eapply wp_mono; [|apply (wp_only_post reads); [apply delete_reads|apply accountTarget_reads|
    apply (accountTarget_wp p GoErrors.as_claim_not_found)]].
  intros h [e|] [Ht _]; [by apply resolved_result|]. destruct Ht as [Hne Ha].
  split; [by split_and!; [done..|exists birth]|]. intros [e|]; [|apply confirm_wp; by left].
  split_if; [|apply confirm_wp; right; by apply negb_false_iff].
  apply resolved_result. unfold wrapped_. auto with go_db typeclass_instances.
Qed.

(** C5. Deleting a node asks for the deletion of exactly its instance, with a
    credential that was shown to belong to the account the node was launched
    in, and of nothing else.  It ends without an error only when the instance
    was still seen after the deletion was accepted, so that it will be asked
    for again; it reports the instance gone only when the API did not find it
    after the deletion. *)
Theorem delete_only_own_instance node tr r (Hrun : runs (Delete p node) tr r) :
  guarded (delete_guard node) tr [] ∧ deletion_result (reverse tr) node r.
Proof.
  destruct (wp_sound _ _ _ _ _ _ (delete_wp node) Hrun) as [Hg Hr].
  by rewrite List.app_nil_r in Hr.
Qed.
End delete.

(** ** Lookup *)
Section lookup.
Context `{HL : LaunchCodec}.
Context (p : VPCInstanceProvider).

(** The instance of a provider ID as the API returned it, in an account the
    credential was shown to have, and the node made of it. *)
Definition seen_instance (h : history vpc_call) (providerID : string) (i : Instance) (node : Node) : Prop :=
  let region := providerRegion providerID in
  let id := vpc_extractInstanceID providerID in
  ∃ name account, inst_ID i = Some id ∧ inst_Name i = Some name ∧
    asked h (GetInstance region id) (Some i, None) ∧
    asked h (ResolveAccount region) (Ok account) ∧ account ≠ ""%string ∧
    verifyInstanceAccount (inst_CRN i) account = None ∧
    node = node_of_instance i name providerID account.

Definition lookup_guard (providerID : string) : guard (E := vpc_call) := λ h R e,
  match e with
  | CreateInstance _ _ | DeleteInstance _ _ | KPatchClaim _ _ | UpdateInstanceTags _ _ _ | KDeleteNode _ _ => False
  | CacheSet id node =>
      id = vpc_extractInstanceID providerID ∧ ∃ i, seen_instance h providerID i node ∧ is_deleting i = false
  | _ => True
  end.

Definition lookup_result (h : history vpc_call) (providerID : string) (useCache : bool)
    (r : result GoErrors.error Node) : Prop :=
  let region := providerRegion providerID in
  let id := vpc_extractInstanceID providerID in
  match r with
  | Ok node =>
      (useCache = true ∧ asked h (CacheGet id) (Some node)) ∨ ∃ i, seen_instance h providerID i node
  | Err e =>
      IsNodeClaimNotFoundError e = true → Forall (foreign_answer GoErrors.as_claim_not_found) h →
      (∃ answer getErr, asked h (GetInstance region id) (answer, Some getErr) ∧ is_absent (Some getErr) = true) ∧
      ∃ account, account ≠ ""%string ∧ asked h (ResolveAccount region) (Ok account)
  end.

Lemma resolved_lookup h providerID useCache e :
  resolved GoErrors.as_claim_not_found h e → lookup_result h providerID useCache (Err e).
Proof. intros He Hn Hf. rewrite own_claim_not_found, (He Hf) in Hn. done. Qed.

(** Calls of a lookup before it may fill the cache. *)
Definition quiet_lookup (R : Type) (e : vpc_call R) : bool :=
  match e with ClientForRegion _ | ResolveAccount _ => true | _ => false end.

Lemma quiet_lookup_guard providerID h R (e : vpc_call R) : quiet_lookup R e = true → lookup_guard providerID h R e.
Proof. by destruct e. Qed.

Lemma client_wp region h :
  wp (λ _ _ _, True) (launch_client region) h (λ h' r,
    match r with Ok _ => True | Err e => resolved GoErrors.as_claim_not_found h' e end).
Proof. unfold launch_client. split; [done|]. intros [e|]; cbn; auto with go_db. Qed.

Lemma get_instance_wp providerID useCache h :
  wp (lookup_guard providerID) (get_instance p providerID (vpc_extractInstanceID providerID)) h
    (λ h' r, lookup_result h' providerID useCache r).
Proof.
  unfold get_instance. cbv zeta.
  eapply (wp_try_post quiet_lookup); [apply quiet_lookup_guard|unfold launch_client; solve_quiet|apply client_wp| |].
  2:{ intros l e _ He. by apply resolved_lookup. }
  intros l1 [] _ _.
  eapply (wp_try_post quiet_lookup); [apply quiet_lookup_guard|unfold resolveAccountID; solve_quiet|
    apply (account_resolved p GoErrors.as_claim_not_found)| |].
  2:{ intros l e _ He. by apply resolved_lookup. }
  intros l2 account _ [Hne Hacc]. split; [done|]. intros [i [e|]].
  { destruct i; (split_if; [|by apply resolved_lookup; unfold wrapped_; auto with go_db typeclass_instances]);
      intros _ _; (split; [do 2 eexists; split; [apply asked_here|done]|]);
      exists account; (split; [done|by apply asked_later]). }
  destruct i as [i|]; [|by apply resolved_lookup, resolved_New, _].
  destruct (is_ (inst_ID i) _) eqn:Eid; [|by apply resolved_lookup, resolved_New, _].
  destruct (inst_Name i) as [name|] eqn:En; [|by apply resolved_lookup, resolved_New, _].
  destruct (verifyInstanceAccount _ _) as [e|] eqn:Ev.
  { apply verify_account_New in Ev as [s ->]. by apply resolved_lookup, resolved_New, _. }
  assert (Hseen : ∀ l, seen_instance (l ++ Did (GetInstance (providerRegion providerID)
    (vpc_extractInstanceID providerID)) (Some i, None) :: l2 ++ l1 ++ h) providerID i
    (node_of_instance i name providerID account)).
  { intros l. exists name, account. unfold is_ in Eid. destruct (inst_ID i) as [id|]; [|done].
    apply String.eqb_eq in Eid as ->. split_and!; try done; [by apply asked_app, asked_here|].
    by apply asked_app, asked_later. }
  unfold cache_unless_deleting. split_if; [right; exists i; apply (Hseen [])|]. split.
  - split; [done|]. exists i. split; [apply (Hseen [])|done].
  - intros []. right. exists i. apply (Hseen [_]).
Qed.

Lemma lookup_wp providerID useCache h :
  wp (lookup_guard providerID) (get_ p providerID useCache) h (λ h' r, lookup_result h' providerID useCache r).
Proof.
  unfold get_. split_if; [by apply resolved_lookup, resolved_New, _|].
  destruct useCache; [|apply get_instance_wp]. split; [done|].
  intros [node|]; [left; split; [done|apply asked_here]|apply get_instance_wp].
Qed.

(** A lookup of an instance changes nothing but the cache, and the cache
    only ever takes an instance that is not being deleted; a node is what the
    cache held, where the cache may be used, or the instance the API returned
    under its own identity, in an account the credential was shown to have; and
    an instance is reported gone only when the API did not find it and the
    account of the credential was verified. *)
Theorem lookup_is_verified providerID useCache tr r (Hrun : runs (get_ p providerID useCache) tr r) :
  guarded (lookup_guard providerID) tr [] ∧ lookup_result (reverse tr) providerID useCache r.
Proof.
  destruct (wp_sound _ _ _ _ _ _ (lookup_wp _ _ []) Hrun) as [Hg Hr].
  by rewrite List.app_nil_r in Hr.
Qed.
End lookup.
