(* ===== verification/VpcDrift.v ===== *)
(** * VpcDrift: a new VPC node against its NodeClass

    The launch of [VpcCreate], the claim [CloudProvider] makes of its node and
    the drift checks of [Drift], composed: when a claim is drifted from the
    NodeClass it was just launched from. *)
From stdpp Require Import prelude list strings gmap.
From Stdlib Require Import Ascii.
From S2P Require Import Prelude GoLib GoSort GoRegexp Errors NodeClass ProviderIDs Ownership Prog Kube.
From S2P Require Import IksApi IksAllocation IksLaunch Drift CloudProvider VpcApi VpcLaunch Bootstrap VpcCreate VpcSafety.
Import Strings.

Open Scope string_scope.
Open Scope list_scope.
Open Scope nat_scope.

Section drift.
Context `{HK : Karpenter} `{HD : HashDeps} `{HC : ClaimStatus}
  `{HL : LaunchCodec} `{HM : MapRange} `{HS : SliceSorter}.

(** The annotations the launch writes that the drift checks read. *)
Definition drift_annotations (config : launchConfig) : gmap string string :=
  <[AnnotationIBMNodeClaimImageID := lc_Image config]>
  (<[AnnotationIBMNodeClassHash := lc_Hash config]>
  (<[AnnotationIBMNodeClassHashVersion := IBMNodeClassHashVersion]>
  (<[AnnotationIBMNodeClaimSubnetID := lc_Subnet config]>
  {[AnnotationIBMNodeClaimSecurityGroups := Join (lc_SecurityGroups config) ","]}))).

Lemma node_annotations config claim id :
  lc_HashVersion config = IBMNodeClassHashVersion →
  drift_annotations config ⊆ Annotations (node_meta (config_node config claim id)).
Proof.
  intros Hv. unfold drift_annotations, config_node. cbn [node_meta Annotations]. rewrite Hv.
  apply map_subseteq_spec. intros k v Hk.
  assert (Hin : k ∈ [AnnotationIBMNodeClaimImageID; AnnotationIBMNodeClassHash; AnnotationIBMNodeClassHashVersion;
    AnnotationIBMNodeClaimSubnetID; AnnotationIBMNodeClaimSecurityGroups]).
  { rewrite !lookup_insert_Some, lookup_singleton_Some in Hk. rewrite !elem_of_cons. naive_solver. }
  rewrite !elem_of_cons, elem_of_nil in Hin.
  destruct Hin as [->|[->|[->|[->|[->|[]]]]]]; revert Hk; (case_match; vm_compute; done).
Qed.

(** The claim made of the node carries them. *)
Lemma claim_annotations claim0 config claim1 id compatible nc claim' :
  Hash.ProvisioningHash HashStructure nc = (lc_Hash config, None) →
  lc_HashVersion config = IBMNodeClassHashVersion →
  nodeClaimForNode claim0 (config_node config claim1 id) compatible (Some nc) = Ok claim' →
  drift_annotations config ⊆ Annotations (claim_meta claim').
Proof.
  intros Hh Hv. unfold nodeClaimForNode.
  destruct (launch_annotations _ _) as [ann|] eqn:El; [|done]. intros [= <-].
  cbn [claim_meta Annotations]. etrans; [|apply map_union_subseteq_l].
  pose proof (node_annotations config claim1 id Hv) as Hn. revert El. unfold launch_annotations. rewrite Hh.
  case_match; intros [= <-]; [|done].
  apply map_subseteq_spec. intros k v Hk. rewrite map_subseteq_spec in Hn. specialize (Hn k v Hk).
  unfold drift_annotations in Hk. rewrite !lookup_insert_Some, lookup_singleton_Some in Hk.
  rewrite !lookup_insert_Some. naive_solver.
Qed.

Lemma get_subseteq (m m' : gmap string string) k v : m ⊆ m' → m !! k = Some v → get m' k = v.
Proof. intros Hm Hk. unfold get. by rewrite (lookup_weaken _ _ _ _ Hk Hm). Qed.

Lemma subnet_result annotations nc :
  isSubnetDrifted annotations nc = "" ∨ isSubnetDrifted annotations nc = SubnetDrift.
Proof. unfold isSubnetDrifted. repeat case_match; auto. Qed.

(** The launch chose a subnet of the class's zone that is not among the selected ones. *)
Definition placed_outside (nc : IBMNodeClass) (config : launchConfig) : bool :=
  bool_decide (Subnet (Spec nc) = "" ∧ Zone (Spec nc) ≠ "" ∧ SelectedSubnets (Status nc) ≠ [] ∧
               lc_Subnet config ∉ SelectedSubnets (Status nc)).

(** The groups of the launch as they are read back from the annotation, where
    one with a comma falls apart. *)
Definition groups_read (config : launchConfig) : list string := mjoin ((λ g, Split g comma) <$> lc_SecurityGroups config).

(** The status of the class has groups, and not those that the launch used. *)
Definition groups_apart (nc : IBMNodeClass) (config : launchConfig) : bool :=
  bool_decide (lc_SecurityGroups config ≠ [] ∧ lc_SecurityGroups config ≠ [""] ∧ ResolvedSecurityGroups (Status nc) ≠ [] ∧
               (list_to_set (groups_read config) : gset string) ≠ list_to_set (ResolvedSecurityGroups (Status nc))).

(** The groups of the launch are read back as they are, when no name has a comma. *)
Lemma groups_together nc config :
  Forall (λ g, free_of comma g = true) (lc_SecurityGroups config) →
  ResolvedSecurityGroups (Status nc) = lc_SecurityGroups config → groups_apart nc config = false.
Proof.
  intros Hf Hr. apply bool_decide_eq_false. intros (_ & _ & _ & Hn). destruct Hn. rewrite Hr. f_equal.
  unfold groups_read. clear Hr. induction Hf as [|g l Hg _ IH]; [done|].
  cbn [fmap list_fmap mjoin list_join]. rewrite Split_free by done. cbn [app]. f_equal. exact IH.
Qed.

Lemma Split_Join_all l : l ≠ [] → Split (Join l ",") comma = mjoin ((λ g, Split g comma) <$> l).
Proof.
  induction l as [|g [|g' l] IH]; intros Hne; [done|cbn; by rewrite (right_id_L [] (++))|].
  cbn [Join fmap list_fmap mjoin list_join]. change ("," ++ ?s)%string with (String comma s).
  rewrite Split_app. f_equal. by apply IH.
Qed.

Lemma Join_empty l : Join l "," = "" ↔ l = [] ∨ l = [""].
Proof.
  destruct l as [|g [|g' l]]; [by split; [left|]|cbn; naive_solver|].
  split; [|naive_solver]. cbn [Join]. by destruct g.
Qed.

(** C30. A claim is not drifted from the NodeClass it was just launched from, with
    two exceptions: its subnet is outside the class's selection, when the class
    names a zone without a subnet and the selection lacks the one the launch chose
    in that zone; or else the class's status has security groups, and as a set
    they are not those of the launch, as the annotation gives them back.  Its
    recorded hash, image and subnet, read back through the annotations, are the
    class's own. *)
Theorem new_claim_drifts_exactly (p : VPCInstanceProvider) claim nc uid types tr proto config now
    claim0 claim1 id compatible claim'
    (Hrun : runs (prepare p claim nc uid types) tr (Ok (proto, config)))
    (Hnode : nodeClaimForNode claim0 (config_node (submit config now) claim1 id) compatible (Some nc) = Ok claim') :
  drift_of (Annotations (claim_meta claim')) nc =
    if placed_outside nc config then (SubnetDrift, None)
    else if groups_apart nc config then (SecurityGroupDrift, None) else ("", None).
Proof.
  destruct (wp_sound _ _ _ _ _ _ (prepare_wp p claim nc uid types []) Hrun) as [_ (_ & _ & _ & _ & Hc)].
  destruct Hc as [[Hh Hv] Himg [_ Hne] Hsub Hsel _].
  assert (Ha : drift_annotations config ⊆ Annotations (claim_meta claim'))
    by (by eapply (claim_annotations _ (submit config now))).
  assert (Hget : ∀ k v, drift_annotations config !! k = Some v → get (Annotations (claim_meta claim')) k = v).
  { intros k v Hk. by eapply get_subseteq. }
  assert (Hver : get (Annotations (claim_meta claim')) AnnotationIBMNodeClassHashVersion = "2") by by apply Hget.
  unfold drift_of.
  assert (isNodeClassHashVersionDrifted (Annotations (claim_meta claim')) = "") as ->.
  { unfold isNodeClassHashVersionDrifted. by rewrite Hver. }
  rewrite (hash_2 _ _ _ Hver Hh), (Hget AnnotationIBMNodeClassHash _ eq_refl), String.eqb_refl. cbn [empty negb String.eqb].
  rewrite bool_decide_eq_false_2 by (by intros [? ?]). cbn [orb negb empty String.eqb].
  rewrite (proj2 (image_drift_iff _ nc)).
  2:{ unfold image_changed. rewrite (Hget AnnotationIBMNodeClaimImageID _ eq_refl). naive_solver. }
  assert (Hg : areSecurityGroupsDrifted (Annotations (claim_meta claim')) nc =
    if groups_apart nc config then SecurityGroupDrift else "").
  { unfold areSecurityGroupsDrifted, groups_apart, groups_read.
    rewrite (Hget AnnotationIBMNodeClaimSecurityGroups _ eq_refl). cbv zeta.
    pose proof (Join_empty (lc_SecurityGroups config)) as Hj. unfold empty.
    destruct (String.eqb_spec (Join (lc_SecurityGroups config) ",") "") as [E|E].
    { rewrite bool_decide_eq_false_2; [done|]. naive_solver. }
    rewrite <-Split_Join_all by naive_solver.
    destruct (ResolvedSecurityGroups (Status nc)); repeat case_bool_decide; naive_solver. }
  cbn [empty negb String.eqb].
  assert (Hs : subnet_changed (Annotations (claim_meta claim')) nc ↔
    Subnet (Spec nc) = "" ∧ Zone (Spec nc) ≠ "" ∧ SelectedSubnets (Status nc) ≠ [] ∧
    lc_Subnet config ∉ SelectedSubnets (Status nc)).
  { unfold subnet_changed. rewrite (Hget AnnotationIBMNodeClaimSubnetID _ eq_refl). cbv zeta.
    destruct (decide (Zone (Spec nc) = "")); naive_solver. }
  unfold placed_outside. case_bool_decide as Hb.
  - apply Hs in Hb. destruct (subnet_result (Annotations (claim_meta claim')) nc) as [E| ->]; [|done].
    by apply subnet_drift_iff in E.
  - rewrite (proj2 (subnet_drift_iff _ nc)) by (by rewrite Hs). rewrite Hg. by destruct (groups_apart nc config).
Qed.
End drift.
