(* ===== verification/VpcExample.v ===== *)
(** * VpcExample: the VPC programs run against a concrete cloud

    A small model of the VPC API, one claim and its NodeClass, and a codec for
    its checkpoints.  The launch, its recovery and cleanup, the deletion and
    the lookup are run on it, and the theorems of [VpcSafety],
    [VpcCleanupSafety] and [VpcDrift] are applied to those runs. *)
From stdpp Require Import prelude list strings gmap.
From Stdlib Require Import Ascii SpecFloat.
From S2P Require Import Prelude GoLib GoSort GoRegexp Errors NodeClass ProviderIDs Ownership Prog Kube.
From S2P Require Import IksApi IksAllocation IksLaunch IksExample Drift CloudProvider VpcApi VpcLaunch Bootstrap VpcCreate.
From S2P Require Import VpcVolumes VpcSafety VpcCleanupSafety VpcDrift.
Import Strings.

Open Scope string_scope.
Open Scope list_scope.

(** ** The class *)
Definition vpc_spec : IBMNodeClassSpec :=
  {| Region := "us-south"; Zone := "us-south-1"; InstanceProfile := ""; InstanceRequirements := None;
     Image := "ubuntu"; ImageSelector_ := None; VPC := "vpc-1"; Subnet := "subnet-1";
     PlacementStrategy_ := None; SecurityGroups := []; UserData := "#!/bin/bash"; UserDataAppend := "";
     SSHKeys := ["key-1"]; ResourceGroup := ""; PlacementTarget := ""; Tags := {["team" := "a"]};
     BootstrapMode := None; APIServerEndpoint := ""; IKSClusterID := ""; IKSWorkerPoolID := "";
     IKSDynamicPools := None; LoadBalancerIntegration_ := None;
     BlockDeviceMappings := [{| DeviceName := None; RootVolume := false;
       VolumeSpec_ := Some {| Capacity := Some 200%Z; Profile := None; IOPS := None; Bandwidth := None;
         EncryptionKeyID := None; DeleteOnTermination := Some false; vol_Tags := ["disk:data"; "karpenter.sh.managed:no"] |} |}];
     Kubelet := None |}.

Definition vpc_class : IBMNodeClass :=
  {| nc_meta := nc_meta class0; Spec := vpc_spec;
     Status :=
       {| LastValidationTime := 0; ValidationError := ""; SelectedInstanceTypes := [];
          SelectedSubnets := []; ResolvedSecurityGroups := ["sg-1"]; ResolvedImageID := "image-1";
          Conditions := Conditions (Status class0) |} |}.

Definition launch_name : string := InstanceName toy_sum "uid-cluster" "uid-claim".

(** Its checkpoint, the outcome aside. *)
Definition config0 : launchConfig :=
  {| lc_Name := launch_name; lc_ClusterUID := "uid-cluster"; lc_ClaimUID := "uid-claim";
     lc_ClassUID := "uid-class"; lc_AccountID := account; lc_ResourceGroup := ""; lc_Region := "us-south";
     lc_VPC := "vpc-1"; lc_Profile := "bx2.2x8"; lc_Zone := "us-south-1"; lc_Subnet := "subnet-1";
     lc_Image := "image-1"; lc_CapacityType := "spot"; lc_Hash := "42"; lc_HashVersion := "2";
     lc_SecurityGroups := ["sg-1"]; Submitted := false; Rejected := false;
     SubmittedAt := GoTime.zero_time; lc_Capacity := resources; lc_Allocatable := resources;
     lc_Tags := <["team" := "a"]> (VPCTags "uid-cluster" "uid-claim" "uid-class") |}.

(** ** A codec for its checkpoints *)
#[export] Instance launchConfig_eq_dec : EqDecision launchConfig.
Proof. solve_decision. Defined.

Definition flag (b : bool) : ascii := if b then "1" else "0".
Definition of_flag (c : ascii) : bool := Ascii.eqb c "1".

Definition toy_marshal_launch (c : launchConfig) : result GoErrors.error string :=
  if decide (with_outcome c false false GoTime.zero_time = config0) then
    if decide (SubmittedAt c = GoTime.zero_time)
    then Ok (String (flag (Submitted c)) (String (flag (Rejected c)) "-"))
    else if decide (0 ≤ SubmittedAt c)%Z
    then Ok (String (flag (Submitted c)) (String (flag (Rejected c)) (bits (Z.to_pos (SubmittedAt c + 1)))))
    else Err (GoErrors.New "not encoded")
  else Err (GoErrors.New "not encoded").

Definition toy_unmarshal_launch (s : string) : result GoErrors.error launchConfig :=
  match s with
  | String a (String b t) =>
      Ok (with_outcome config0 (of_flag a) (of_flag b)
            (if String.eqb t "-" then GoTime.zero_time else (Zpos (of_bits t) - 1)%Z))
  | _ => Err (GoErrors.New "not a checkpoint")
  end.

#[export] Instance toy_launch : LaunchCodec :=
  {| MarshalLaunch := toy_marshal_launch; UnmarshalLaunch := toy_unmarshal_launch; LaunchSum256 := toy_sum |}.

Lemma of_flag_flag b : of_flag (flag b) = b.
Proof. by destruct b. Qed.

Lemma bits_not_dash n : String.eqb (bits n) "-" = false.
Proof. by destruct n. Qed.

Lemma outcome_base c : with_outcome c false false GoTime.zero_time = config0 →
  with_outcome config0 (Submitted c) (Rejected c) (SubmittedAt c) = c.
Proof. intros <-. by destruct c. Qed.

#[export] Instance toy_launch_laws : LaunchLaws.
Proof.
  split.
  - intros c s. cbn. unfold toy_marshal_launch.
    destruct (decide _) as [Hb|]; [|done]. apply outcome_base in Hb.
    destruct (decide (SubmittedAt c = GoTime.zero_time)) as [Hz|Hz].
    + intros [= <-]. cbn. rewrite !of_flag_flag, <-Hz. by f_equal.
    + destruct (decide _) as [Hp|]; [|done]. intros [= <-]. cbn.
      rewrite !of_flag_flag, bits_not_dash, of_bits_bits, Z2Pos.id by lia.
      by replace (SubmittedAt c + 1 - 1)%Z with (SubmittedAt c) by lia; f_equal.
  - intros s e. cbn. unfold toy_unmarshal_launch. destruct s as [|? [|? ?]]; [| |done]; by intros [= <-].
Qed.

#[export] Instance toy_hash_deps : HashDeps :=
  {| HashSpec := λ _, Ok 41%Z; UnmarshalMigration := λ _, Err (GoErrors.New "no migration") |}.
#[export] Instance toy_status : ClaimStatus := {| launched_conditions := λ _, [] |}.

(** ** The VPC API and the cluster *)
Record vcloud := {
  vc_claim : NodeClaim;
  vc_instance : option Instance;
  vc_nodes : list Node;
  vc_now : Z;
}.

Definition the_instance : Instance :=
  {| inst_ID := Some "instance-1"; inst_Name := Some launch_name; inst_Status := Some "running";
     inst_CRN := Some ("crn:v1:bluemix:public:is:us-south-1:a/" ++ account ++ "::instance:instance-1")%string;
     inst_Profile := Some "bx2.2x8"; inst_Zone := Some "us-south-1"; inst_VPC := Some "vpc-1";
     inst_Image := Some "image-1"; inst_ResourceGroup := None;
     PrimaryNetworkAttachment := Some "subnet-1"; PrimaryNetworkInterface := None;
     AvailabilityClass := Some "spot"; CreatedAt := Some 0%Z; StatusReasons := [] |}.

Definition with_claim (s : vcloud) (c : NodeClaim) : vcloud :=
  {| vc_claim := c; vc_instance := vc_instance s; vc_nodes := vc_nodes s; vc_now := vc_now s |}.
Definition with_instance (s : vcloud) (i : option Instance) : vcloud :=
  {| vc_claim := vc_claim s; vc_instance := i; vc_nodes := vc_nodes s; vc_now := vc_now s |}.

Definition vserve (R : Type) (e : vpc_call R) : vcloud → R * vcloud :=
  match e in vpc_call R return vcloud → R * vcloud with
  | KGetClaim _ => λ s, (Ok (vc_claim s), s)
  | KGetClass _ => λ s, (Ok vpc_class, s)
  | KGetNamespace _ => λ s, (Ok kube_system, s)
  | KListNodes => λ s, (Ok (vc_nodes s), s)
  | KPatchClaim _ fresh => λ s, (Ok fresh, with_claim s fresh)
  | KDeleteNode _ _ => λ s, (None, s)
  | ClientForRegion _ => λ s, (None, s)
  | ResolveAccount _ => λ s, (Ok account, s)
  | ListInstancesByName _ _ => λ s, (Ok (option_list (vc_instance s)), s)
  | ListInstances _ => λ s, (Ok (option_list (vc_instance s)), s)
  | GetInstance _ _ => λ s, (match vc_instance s with Some i => (Some i, None) | None => (None, Some not_found) end, s)
  | CreateInstance _ _ => λ s, ((Some the_instance, None), with_instance s (Some the_instance))
  | DeleteInstance _ _ => λ s, (None, with_instance s None)
  | UpdateInstanceTags _ _ _ => λ s, (None, s)
  | GetDefaultSecurityGroup _ _ => λ s, (Ok (Some "sg-1"), s)
  | ValidateCreateInstance _ _ => λ s, (None, s)
  | SDKBuilder _ => λ s, (Some None, s)
  | GetResourceGroupIDByName _ => λ s, (Ok "group-1", s)
  | GetSubnet _ => λ s, (Err not_found, s)
  | SelectSubnets _ _ => λ s, (Ok [], s)
  | ListSubnets _ => λ s, (Ok [], s)
  | ResolveImage _ _ => λ s, (Ok "image-1", s)
  | ResolveImageBySelector _ _ => λ s, (Ok "image-1", s)
  | BootstrapProvider => λ s, (None, s)
  | GetUserData _ _ _ => λ s, (Ok "", s)
  | CacheGet _ => λ s, (None, s)
  | CacheSet _ _ => λ s, (tt, s)
  | CacheDelete _ => λ s, (tt, s)
  | VNow => λ s, (vc_now s, s)
  | IntN _ => λ s, (0, s)
  end.

Definition vpc0 : VPCInstanceProvider :=
  {| v_apiReader := true; v_kubeClient := true; v_Getenv := λ _, "";
     v_Environ := ["BOOTSTRAP_CNI=calico"; "HOME=/root"] |}.

Definition vrun {A} (q : prog vpc_call A) (s : vcloud) : history vpc_call * A * vcloud := interp vserve q s.
Definition vtrace {A} (q : prog vpc_call A) (s : vcloud) : history vpc_call := (vrun q s).1.1.
Definition vanswer {A} (q : prog vpc_call A) (s : vcloud) : A := (vrun q s).1.2.

Lemma vran {A} (q : prog vpc_call A) s : runs q (vtrace q s) (vanswer q s).
Proof. apply interp_runs. Qed.

Definition requested (ev : event vpc_call) : bool :=
  match ev with Did e _ => match e with CreateInstance _ _ => true | _ => false end end.
Definition removed (ev : event vpc_call) : bool :=
  match ev with Did e _ => match e with DeleteInstance _ _ => true | _ => false end end.
Definition cleared (ev : event vpc_call) : bool :=
  match ev with Did e _ => match e with KPatchClaim _ _ => true | _ => false end end.

Definition start : vcloud := {| vc_claim := claim0; vc_instance := None; vc_nodes := []; vc_now := 1000%Z |}.

(** ** The theorems at these runs *)
Lemma create_requests_once_witness :
  let q := Create vpc0 (Some claim0) [Some the_type] in
  existsb requested (vtrace q start) = true ∧ is_ok (vanswer q start) = true ∧
  guarded (create_guard claim0) (vtrace q start) [] ∧
  ∀ node, vanswer q start = Ok node → owned_node (reverse (vtrace q start)) claim0 node.
Proof.
  cbv zeta. do 2 (split; [vm_compute; reflexivity|]).
  apply (create_requests_once vpc0 claim0 [Some the_type]), vran.
Defined.

(** The claim after a call that stopped before it submitted. *)
Definition with_checkpoint (c : launchConfig) : NodeClaim :=
  match MarshalLaunch c with
  | Ok value => set_meta claim0 (launch_meta claim_meta0 value "us-south")
  | Err _ => claim0
  end.
Definition found_claim (c : launchConfig) (i : option Instance) : vcloud :=
  {| vc_claim := with_checkpoint c; vc_instance := i; vc_nodes := []; vc_now := (2 * GoTime.Hour)%Z |}.

Lemma discarded_launch_created_nothing_witness :
  let s := found_claim (submit config0 0) None in
  let q := Create vpc0 (Some claim0) [Some the_type] in
  existsb cleared (vtrace q s) = true ∧
  guarded (discard_guard (vc_claim s) (submit config0 0)) (tail (vtrace q s))
    [Did (KGetClaim "claim-1") (Ok (vc_claim s))].
Proof.
  cbv zeta. split; [vm_compute; reflexivity|].
  apply (discarded_launch_created_nothing vpc0 claim0 [Some the_type] (vc_claim (found_claim (submit config0 0) None))
    (submit config0 0) _ (vanswer (Create vpc0 (Some claim0) [Some the_type]) (found_claim (submit config0 0) None))).
  - assert (Ht : Did (KGetClaim (Name (claim_meta claim0))) (Ok (vc_claim (found_claim (submit config0 0) None)))
        :: tail (vtrace (Create vpc0 (Some claim0) [Some the_type]) (found_claim (submit config0 0) None))
      = vtrace (Create vpc0 (Some claim0) [Some the_type]) (found_claim (submit config0 0) None))
      by (vm_compute; reflexivity).
    rewrite Ht. apply vran.
  - vm_compute. discriminate.
  - vm_compute. reflexivity.
Defined.

Lemma pending_cleanup_safe_witness :
  let s := found_claim (submit config0 0) (Some the_instance) in
  let q := CleanupPending vpc0 (vc_claim s) in
  existsb removed (vtrace q s) = true ∧ vanswer q s = Ok true ∧
  guarded (pending_guard (submit config0 0)) (vtrace q s) [] ∧
  (vanswer q s = Ok true → finished (reverse (vtrace q s)) (submit config0 0)).
Proof.
  cbv zeta. do 2 (split; [vm_compute; reflexivity|]).
  apply (pending_cleanup_safe vpc0 (vc_claim (found_claim (submit config0 0) (Some the_instance))) (submit config0 0)); [vm_compute; reflexivity|apply vran].
Defined.

Definition node1 : Node :=
  {| node_meta :=
       {| Name := "node-1"; UID := "uid-node"; ResourceVersion := ""; Generation := 0;
          DeletionTimestamp := None; CreationTimestamp := 0; Labels := ∅;
          Annotations := {[AccountIDAnnotation := account]}; Finalizers := [] |};
     node_ProviderID := "ibm:///us-south/instance-1"; Unschedulable := false; OwnerReferences := []; node_Status := no_status |}.

Lemma delete_only_own_instance_witness :
  let s := found_claim config0 (Some the_instance) in
  existsb removed (vtrace (Delete vpc0 node1) s) = true ∧
  guarded (delete_guard node1) (vtrace (Delete vpc0 node1) s) [] ∧
  deletion_result (reverse (vtrace (Delete vpc0 node1) s)) node1 (vanswer (Delete vpc0 node1) s).
Proof.
  cbv zeta. split; [vm_compute; reflexivity|].
  apply (delete_only_own_instance vpc0 node1), vran.
Defined.

Lemma lookup_is_verified_witness :
  let s := found_claim config0 (Some the_instance) in
  let q := get_ vpc0 "ibm:///us-south/instance-1" true in
  is_ok (vanswer q s) = true ∧
  guarded (lookup_guard "ibm:///us-south/instance-1") (vtrace q s) [] ∧
  lookup_result (reverse (vtrace q s)) "ibm:///us-south/instance-1" true (vanswer q s).
Proof.
  cbv zeta. split; [vm_compute; reflexivity|].
  apply (lookup_is_verified vpc0 "ibm:///us-south/instance-1" true), vran.
Defined.

Lemma volumes_are_owned_witness :
  let '(boot, data) := buildVolumeAttachments vpc_class launch_name in
  ∃ boot' data',
    tagVolumeAttachments boot data (VPCTags "c" "n" "k") = Ok (boot', data') ∧
    Forall2 (tagged (VPCTags "c" "n" "k")) (boot :: data) (boot' :: data').
Proof.
  cbn [buildVolumeAttachments]. do 2 eexists. split; [|apply volumes_are_owned]; vm_compute; reflexivity.
Defined.

Definition prepared_proto : InstancePrototype :=
  match vanswer (prepare vpc0 claim0 vpc_class "uid-cluster" [Some the_type]) start with
  | Ok (proto, _) => proto
  | Err _ => prototype_of vpc_class "" "" "" "" "" (interface_of "" "" None []) (default_boot "") [] None ""
  end.

Definition new_claim : NodeClaim :=
  match nodeClaimForNode claim0 (config_node (submit config0 0) claim0 "instance-1") [the_type] (Some vpc_class) with
  | Ok claim => claim
  | Err _ => claim0
  end.

Lemma new_claim_drifts_exactly_witness :
  claim_ProviderID new_claim = "ibm:///us-south/instance-1" ∧
  drift_of (Annotations (claim_meta new_claim)) vpc_class =
    (if placed_outside vpc_class config0 then (SubnetDrift, None)
     else if groups_apart vpc_class config0 then (SecurityGroupDrift, None) else ("", None)) ∧
  placed_outside vpc_class config0 = false ∧ groups_apart vpc_class config0 = false.
Proof.
  split; [vm_compute; reflexivity|]. split; [|split; vm_compute; reflexivity].
  assert (Hp : vanswer (prepare vpc0 claim0 vpc_class "uid-cluster" [Some the_type]) start
               = Ok (prepared_proto, config0)) by (vm_compute; reflexivity).
  apply (new_claim_drifts_exactly vpc0 claim0 vpc_class "uid-cluster" [Some the_type]
    (vtrace (prepare vpc0 claim0 vpc_class "uid-cluster" [Some the_type]) start) prepared_proto config0 0
    claim0 claim0 "instance-1" [the_type] new_claim).
  - rewrite <-Hp. apply vran.
  - vm_compute. reflexivity.
Defined.
