(* ===== verification/CloudExample.v ===== *)
(** * CloudExample: the operations of the cloud provider run on concrete answers

    A cluster with one claim, and an instance provider that creates, finds and
    deletes instances; the theorems of [CloudProviderSafety] and [Drift] are
    applied to runs of Create, Delete and Get on it. *)
From stdpp Require Import prelude list strings gmap.
From Stdlib Require Import Ascii.
From S2P Require Import Prelude GoLib GoSort CircuitBreaker GoRegexp Errors NodeClass ProviderIDs Ownership Prog Kube.
From S2P Require Import IksApi IksAllocation IksLaunch IksExample Drift CloudProvider CloudProviderSafety VpcApi VpcLaunch VpcCreate VpcExample.
Import Strings.

Open Scope string_scope.
Open Scope list_scope.

(** A claim of a release that did not record its account. *)
Definition legacy : NodeClaim :=
  {| claim_meta := claim_meta0; NodeClassRef := NodeClassRef claim0; Requests := Requests claim0;
     Requirements := []; claim_ProviderID := "ibm:///us-south/instance-1"; claim_NodeName := "";
     claim_ImageID := ""; claim_Capacity := ∅; claim_Allocatable := ∅; claim_Conditions := [] |}.

Record answers := {
  an_claim : NodeClaim;
  an_get : option Node * err;
}.

Definition cserve (R : Type) (e : cp_call R) : answers → R * answers :=
  match e in cp_call R return answers → R * answers with
  | ReadClaim _ => λ s, (Ok (an_claim s), s)
  | ReadClass _ => λ s, (Ok vpc_class, s)
  | ReadClaims => λ s, (Ok [an_claim s], s)
  | ReadNodes => λ s, (Ok [], s)
  | PatchClaim _ fresh => λ s, (Ok fresh, {| an_claim := fresh; an_get := an_get s |})
  | ProviderOf _ => λ s, (None, s)
  | ProviderCreate _ _ _ => λ s, (Returned (Some node1, None), s)
  | ProviderDelete _ _ => λ s, (Some (NodeClaimNotFound not_found), s)
  | ProviderGet _ _ => λ s, (an_get s, {| an_claim := an_claim s; an_get := (None, Some (NodeClaimNotFound not_found)) |})
  | ValidateLaunchTarget_ _ => λ s, (None, s)
  | ListInstanceTypes _ => λ s, (Ok [the_type], s)
  | BreakerCanProvision _ _ => λ s, (None, s)
  | BreakerSuccess _ _ => λ s, (tt, s)
  | BreakerFailure _ _ _ => λ s, (tt, s)
  | BreakerPending _ _ => λ s, (tt, s)
  end.

Definition crun {A} (q : prog cp_call A) (s : answers) : history cp_call * A * answers := interp cserve q s.
Definition ctrace {A} (q : prog cp_call A) (s : answers) : history cp_call := (crun q s).1.1.
Definition canswer {A} (q : prog cp_call A) (s : answers) : A := (crun q s).1.2.

Lemma cran {A} (q : prog cp_call A) s : runs q (ctrace q s) (canswer q s).
Proof. apply interp_runs. Qed.

Definition no_env : string → string := λ _, "".
Definition create0 : prog cp_call (result GoErrors.error NodeClaim) := CloudProvider.Create no_env claim0.
Definition fresh_answers : answers := {| an_claim := claim0; an_get := (Some node1, None) |}.

Lemma create_follows_protocol_witness :
  breaker_events "default" "us-south" (ctrace create0 fresh_answers) = [EvAllow; EvSuccess] ∧
  is_ok (canswer create0 fresh_answers) = true ∧
  create_history no_env claim0 (reverse (ctrace create0 fresh_answers)) (canswer create0 fresh_answers).
Proof.
  do 2 (split; [vm_compute; reflexivity|]).
  apply (create_follows_protocol no_env claim0 (ctrace create0 fresh_answers) (canswer create0 fresh_answers)), cran.
Defined.

(** Two creations at once, recorded in turn. *)
Definition overlapping : list CircuitBreaker.event := [EvAllow; EvAllow; EvSuccess; EvSuccess].

Lemma overlapping_run : ∃ x, steps brk_step (new_exec demo_cfg 0) overlapping x.
Proof.
  eexists.
  eapply steps_cons; [eapply (step_allow _ (GoTime.frozen 0)); [apply GoTime.frozen_monotone|done|reflexivity]|].
  eapply steps_cons; [eapply (step_allow _ (GoTime.frozen (30 * GoTime.Second)));
    [apply GoTime.frozen_monotone|done|reflexivity]|].
  eapply steps_cons; [eapply (step_success _ (GoTime.frozen (31 * GoTime.Second)));
    [apply GoTime.frozen_monotone|done|done]|].
  eapply steps_cons; [eapply (step_success _ (GoTime.frozen (32 * GoTime.Second)));
    [apply GoTime.frozen_monotone|done|done]|].
  apply steps_nil.
Qed.

Lemma creates_return_their_slots_witness :
  ∃ x, steps brk_step (new_exec demo_cfg 0) overlapping x ∧ concurrentInstances (ex_cb x) = 0%Z.
Proof.
  destruct overlapping_run as [x Hx]. exists x. split; [exact Hx|].
  apply (creates_return_their_slots no_env demo_cfg 0 "default" "us-south"
    [ctrace create0 fresh_answers; ctrace create0 fresh_answers] overlapping x); [done| |vm_compute|exact Hx].
  - repeat constructor; eexists _, _; apply cran.
  - constructor. apply perm_swap.
Defined.

Definition legacy_answers (get : option Node * err) : answers := {| an_claim := legacy; an_get := get |}.
Definition delete0 : prog cp_call err := CloudProvider.Delete no_env legacy.

Definition is_delete (ev : event cp_call) : bool :=
  match ev with Did e _ => match e with ProviderDelete _ _ => true | _ => false end end.

(** The account of the legacy claim is recorded first, then the instance is
    deleted. *)
Lemma delete_is_verified_witness :
  let tr := ctrace delete0 (legacy_answers (Some node1, None)) in
  let r := canswer delete0 (legacy_answers (Some node1, None)) in
  existsb is_delete tr = true ∧
  (∀ before mode node answer after,
     tr = before ++ Did (ProviderDelete mode node) answer :: after →
     after = [] ∧ r = answer ∧ may_delete_instance no_env (reverse before) legacy mode node) ∧
  (∀ before stored fresh answer after,
     tr = before ++ Did (PatchClaim stored fresh) answer :: after →
     ∃ nodeClass mode, classForProviderID (claim_ProviderID legacy) = Ok (nodeClass, mode) ∧
       may_record (reverse before) mode legacy stored fresh) ∧
  (clean_cp (reverse tr) → ∀ e, r = Some e → IsNodeClaimNotFoundError e = true →
     ∃ mode node before, tr = before ++ [Did (ProviderDelete mode node) (Some e)]).
Proof.
  cbv zeta. split; [vm_compute; reflexivity|]. apply (delete_is_verified no_env legacy), cran.
Defined.

(** The recorded claim, whose instance is gone. *)
Definition recorded : NodeClaim :=
  set_meta legacy (with_annotations claim_meta0 {[AccountIDAnnotation := account]}).
Definition gone_answers : answers :=
  {| an_claim := recorded; an_get := (None, Some (NodeClaimNotFound not_found)) |}.
Definition get0 : prog cp_call (result GoErrors.error NodeClaim) := CloudProvider.Get no_env true "ibm:///us-south/instance-1".
Definition get_error : GoErrors.error :=
  match canswer get0 gone_answers with Err e => e | Ok _ => not_found end.

Definition clean_cp_event (ev : event cp_call) : bool :=
  match ev with Did e r => match cp_error e r with Some x => negb (IsNodeClaimNotFoundError x) | None => true end end.

Lemma clean_cp_test h : forallb clean_cp_event h = true → clean_cp h.
Proof.
  intros Hf. apply Forall_forall. intros [R e r] Hin.
  rewrite forallb_forall in Hf. specialize (Hf _ (proj1 (list_elem_of_In _ _) Hin)). cbn in Hf.
  intros x Hx. rewrite Hx in Hf. by apply negb_true_iff.
Qed.

Lemma absence_is_verified_witness :
  IsNodeClaimNotFoundError get_error = true ∧
  verified_absence no_env (reverse (ctrace get0 gone_answers)) "ibm:///us-south/instance-1".
Proof.
  split; [vm_compute; reflexivity|].
  assert (Ha : canswer get0 gone_answers = Err get_error) by (vm_compute; reflexivity).
  apply (absence_is_verified no_env true "ibm:///us-south/instance-1" (ctrace get0 gone_answers) get_error).
  - reflexivity.
  - rewrite <-Ha. apply cran.
  - apply clean_cp_test. vm_compute. reflexivity.
  - vm_compute. reflexivity.
Defined.

(** A claim whose subnet is no longer the class's is drifted. *)
Definition old_annotations : gmap string string :=
  <[AnnotationIBMNodeClassHashVersion := "2"]> (<[AnnotationIBMNodeClassHash := "42"]>
  {[AnnotationIBMNodeClaimSubnetID := "subnet-9"]}).

Lemma drift_exact_witness :
  drift_of old_annotations vpc_class = (SubnetDrift, None) ∧
  (drift_of old_annotations vpc_class).2 = None ∧
  (drift_of old_annotations vpc_class = ("", None) ↔
    get old_annotations AnnotationIBMNodeClassHash = "42" ∧ ¬ image_changed old_annotations vpc_class ∧
    ¬ subnet_changed old_annotations vpc_class ∧ ¬ groups_changed old_annotations vpc_class).
Proof.
  split; [vm_compute; reflexivity|].
  apply (drift_exact old_annotations vpc_class "42"); vm_compute; reflexivity.
Defined.
