(* ===== verification/ControllerApi.v ===== *)
(** * ControllerApi: what the controllers talk to

    The reconcilers of [pkg/controllers] read and write Kubernetes objects, ask
    the cloud provider and the VPC API, and read the clock.  A controller reads
    either through the cache of its client or through the API reader; both are
    the same call here, since a theorem holds for every answer. *)
From stdpp Require Import prelude list strings gmap.
From S2P Require Import Prelude GoLib Errors NodeClass Ownership Prog Kube IksAllocation VpcApi.

Open Scope string_scope.

(** A page of [ListTagsWithContext]: the names of its tags, and the total. *)
Record TagList := {
  tag_Items : list (option string);
  TotalCount : option Z;
}.

Inductive ctl_call : Type → Type :=
  (* Kubernetes: reads *)
  | CListNodes : ctl_call (result GoErrors.error (list Node))
  | CListNodesOfClass (class : string) : ctl_call (result GoErrors.error (list Node))
  | CGetNode (name : string) : ctl_call (result GoErrors.error Node)
  | CListClaims : ctl_call (result GoErrors.error (list NodeClaim))
  | CGetClaim (name : string) : ctl_call (result GoErrors.error NodeClaim)
  | CGetClass (name : string) : ctl_call (result GoErrors.error IBMNodeClass)
  | CListClasses : ctl_call (result GoErrors.error (list IBMNodeClass))
  | CGetNamespace (name : string) : ctl_call (result GoErrors.error ObjectMeta)
  (* Kubernetes: writes; a patch under the optimistic lock carries the object it
     was computed from, a deletion the UID and the resource version it requires *)
  | CPatchNode (stored fresh : Node) : ctl_call (result GoErrors.error Node)
  | CPatchClaim (stored fresh : NodeClaim) : ctl_call (result GoErrors.error NodeClaim)
  | CPatchClass (stored fresh : IBMNodeClass) : ctl_call (result GoErrors.error IBMNodeClass)
  | CPatchClassUnlocked (stored fresh : IBMNodeClass) : ctl_call (result GoErrors.error IBMNodeClass)
  | CDeleteNode (node : Node) (preconditions : option (string * string)) : ctl_call err
  | CDeleteClaim (claim : NodeClaim) : ctl_call err
  (* the cloud provider *)
  | CloudList : ctl_call (result GoErrors.error (list NodeClaim))
  | CloudGet (providerID : string) : ctl_call err
  (* the VPC API and the tags of Global Tagging *)
  | CVPCClient : ctl_call err
  | CListInstances : ctl_call (result GoErrors.error (list Instance))
  | CListSpotInstances : ctl_call (result GoErrors.error (list Instance))
  | CGetInstance (id : string) : ctl_call (option Instance * err)
  | CDeleteInstance (id : string) : ctl_call err
  | CRegionClient (region : string) : ctl_call err
  | CUpdateInstanceTags (region id : string) (tags : gmap string string) : ctl_call err
  | CListTags (crn : string) (offset : Z) : ctl_call (result GoErrors.error (option TagList))
  (* the process *)
  | CMarkUnavailable (key : string) (until : Z) : ctl_call unit
  | CNow : ctl_call Z.

Abbreviation ctl A := (prog ctl_call (result GoErrors.error A)).
Abbreviation ctl_err := (prog ctl_call err).
Abbreviation ctl_history := (history ctl_call).

(** A [reconcile.Result]: when to run again. *)
Record Result := { RequeueAfter : Z }.
Definition no_requeue : Result := {| RequeueAfter := 0 |}.

(** [ownership.ClusterUID] *)
Definition cluster_uid : ctl string :=
  bind (call (CGetNamespace "kube-system")) (λ answer, Ret (ClusterUID_of (Some answer))).

(** [reconcile.Result{}, client.IgnoreNotFound(err)] *)
Definition end_of {E} (e : GoErrors.error) : prog E (result GoErrors.error Result) :=
  match IgnoreNotFound (Some e) with Some e => fail_with e | None => Ret (Ok no_requeue) end.

(** An error that ends the handler, else go on. *)
Definition check_err {A} (e : err) (k : ctl A) : ctl A :=
  match e with Some e => fail_with e | None => k end.

(** The error that a check reports, else go on. *)
Definition or_err (q : ctl_err) (k : ctl_err) : ctl_err :=
  bind q (λ e, match e with Some e => Ret (Some e) | None => k end).

(** Calls that change nothing. *)
Definition reads (R : Type) (e : ctl_call R) : bool :=
  match e with
  | CPatchNode _ _ | CPatchClaim _ _ | CPatchClass _ _ | CPatchClassUnlocked _ _ => false
  | CDeleteNode _ _ | CDeleteClaim _ | CDeleteInstance _ | CMarkUnavailable _ _ | CUpdateInstanceTags _ _ _ => false
  | _ => true
  end.

Lemma end_of_wp {E} (G : guard (E := E)) e h (Q : history E → result GoErrors.error Result → Prop) :
  (∀ x, Q h (Err x)) → (kube_IsNotFound e = true → Q h (Ok no_requeue)) → wp G (end_of e) h Q.
Proof. intros He Hn. unfold end_of. cbn. destruct (kube_IsNotFound e); cbn; auto. Qed.

(** ** A world that does not change, for examples *)
Record world := {
  w_nodes : list Node;
  w_claims : list NodeClaim;
  w_classes : list IBMNodeClass;
  w_cluster : ObjectMeta;
  w_instances : list Instance;
  w_tags : list (option string);
  w_absent : err;
  w_now : Z;
}.

Definition found {A} (l : list A) (f : A → bool) : result GoErrors.error A :=
  match List.find f l with
  | Some a => Ok a
  | None => Err (GoErrors.foreignError (GoErrors.KubeStatus "NotFound") "not found" [])
  end.

Definition world_handle (w : world) (R : Type) (e : ctl_call R) (s : unit) : R * unit :=
  (match e in ctl_call R return R with
   | CListNodes => Ok (w_nodes w)
   | CListNodesOfClass class =>
       Ok (List.filter (λ n, String.eqb (get (Labels (node_meta n)) NodeClassLabelKey) class) (w_nodes w))
   | CGetNode name => found (w_nodes w) (λ n, String.eqb (Name (node_meta n)) name)
   | CListClaims => Ok (w_claims w)
   | CGetClaim name => found (w_claims w) (λ c, String.eqb (Name (claim_meta c)) name)
   | CGetClass name => found (w_classes w) (λ c, String.eqb (Name (nc_meta c)) name)
   | CListClasses => Ok (w_classes w)
   | CGetNamespace _ => Ok (w_cluster w)
   | CPatchNode _ fresh => Ok fresh
   | CPatchClaim _ fresh => Ok fresh
   | CPatchClass _ fresh => Ok fresh
   | CPatchClassUnlocked _ fresh => Ok fresh
   | CDeleteNode _ _ => None
   | CDeleteClaim _ => None
   | CloudList => Ok []
   | CloudGet _ => w_absent w
   | CVPCClient => None
   | CListInstances => Ok (w_instances w)
   | CListSpotInstances => Ok (w_instances w)
   | CGetInstance id => (List.find (λ i, bool_decide (inst_ID i = Some id)) (w_instances w), None)
   | CDeleteInstance _ => None
   | CRegionClient _ => None
   | CUpdateInstanceTags _ _ _ => None
   | CListTags _ offset =>
       Ok (Some {| tag_Items := firstn 100 (skipn (Z.to_nat offset) (w_tags w));
                   TotalCount := Some (Z.of_nat (length (w_tags w))) |})
   | CMarkUnavailable _ _ => tt
   | CNow => w_now w
   end, s).

Definition empty_world : world :=
  {| w_nodes := []; w_claims := []; w_classes := []; w_cluster := no_meta; w_instances := []; w_tags := [];
     w_absent := None; w_now := 0 |}.

(** The deletions of a run, in order. *)
Inductive deletion :=
  | DeletedNode (name : string) (preconditions : option (string * string))
  | DeletedClaim (name : string)
  | DeletedInstance (id : string).

Definition deletion_of {R} (e : ctl_call R) : option deletion :=
  match e with
  | CDeleteNode node preconditions => Some (DeletedNode (Name (node_meta node)) preconditions)
  | CDeleteClaim claim => Some (DeletedClaim (Name (claim_meta claim)))
  | CDeleteInstance id => Some (DeletedInstance id)
  | _ => None
  end.
Definition deletions (tr : ctl_history) : list deletion :=
  omap (λ ev, match ev with Did e _ => deletion_of e end) tr.

Lemma deletions_instance tr id :
  DeletedInstance id ∈ deletions tr → ∃ before answer after, tr = (before ++ Did (CDeleteInstance id) answer :: after)%list.
Proof.
  unfold deletions. rewrite list_elem_of_omap. intros ([R e r] & Hin & Hd).
  apply list_elem_of_split in Hin as (before & after & ->).
  destruct e; try done. injection Hd as ->. by exists before, r, after.
Qed.
