(* ===== verification/GarbageCollection.v ===== *)
(** * GarbageCollection: nodes whose instance is gone

    [pkg/controllers/nodeclaim/garbagecollection/controller.go]: nodes that
    Karpenter manages, that are not ready and whose instance the cloud no longer
    has, are deleted.  A node is deleted only after its instance was confirmed
    gone twice, the second time after the node was read again. *)
From stdpp Require Import prelude list strings gmap.
From S2P Require Import Prelude GoLib GoRegexp Errors NodeClass ProviderIDs Ownership Prog Kube IksAllocation.
From S2P Require Import ControllerApi.
Import Strings.

Open Scope string_scope.
Local Open Scope prog_scope.

(** ** The controller *)
Definition isKarpenterManagedNode (node : Node) : bool :=
  bool_decide (is_Some (Labels (node_meta node) !! NodePoolLabelKey)) ||
  bool_decide (is_Some (Labels (node_meta node) !! NodeClassLabelKey)).

Definition NodeReady : string := "Ready".

Definition nodeReady (node : Node) : bool :=
  match List.find (λ c, String.eqb (cond_Type c) NodeReady) (node_Conditions (node_Status node)) with
  | Some condition => String.eqb (cond_Status condition) "True"
  | None => false
  end.

(** The instances of the cloud, by normalized provider ID. *)
Definition present_ids (cloudNodeClaims : list NodeClaim) : gset string :=
  list_to_set (map (λ claim, normalizeProviderID (claim_ProviderID claim)) cloudNodeClaims).

Definition not_orphaned (present : gset string) (node : Node) : bool :=
  negb (HasPrefix (node_ProviderID node) "ibm://") || negb (isKarpenterManagedNode node) ||
  nodeReady node || bool_decide (normalizeProviderID (node_ProviderID node) ∈ present).

(** The first loop of [handleOrphanedNodes]: the candidates and the errors. *)
Fixpoint find_candidates (present : gset string) (nodes : list Node)
    : prog ctl_call (list Node * list GoErrors.error) :=
  match nodes with
  | [] => Ret ([], [])
  | node :: nodes' =>
      if not_orphaned present node then find_candidates present nodes'
      else
        e ⟵ CloudGet (node_ProviderID node);
        bind (find_candidates present nodes') (λ '(candidates, errs),
        match e with
        | Some e =>
            if IsNodeClaimNotFoundError e then Ret (node :: candidates, errs)
            else Ret (candidates, wrapped_ ("confirming instance absence for node " ++ Name (node_meta node)) e :: errs)
        | None => Ret (candidates, errs)
        end)
  end.

Definition deletePreconditions (node : Node) : option (string * string) :=
  Some (UID (node_meta node), ResourceVersion (node_meta node)).

(** A candidate read again that is no longer one. *)
Definition candidate_changed (candidate node : Node) : bool :=
  negb (String.eqb (UID (node_meta node)) (UID (node_meta candidate))) ||
  negb (String.eqb (node_ProviderID node) (node_ProviderID candidate)) ||
  nodeReady node || negb (isKarpenterManagedNode node) ||
  bool_decide (is_Some (DeletionTimestamp (node_meta node))).

(** One round of the second loop. *)
Definition collect_candidate (candidate : Node) : ctl_err :=
  answer ⟵ CGetNode (Name (node_meta candidate));
  match answer with
  | Err e => Ret (IgnoreNotFound (Some e))
  | Ok node =>
      if candidate_changed candidate node then Ret None
      else
        e ⟵ CloudGet (node_ProviderID node);
        match e with
        | None => Ret None
        | Some e =>
            if negb (IsNodeClaimNotFoundError e)
            then Ret (Some (wrapped_ ("rechecking instance absence for node " ++ Name (node_meta node)) e))
            else
              e ⟵ CDeleteNode node (deletePreconditions node);
              Ret (IgnoreNotFound e)
        end
  end.

Fixpoint collect_candidates (candidates : list Node) : prog ctl_call (list GoErrors.error) :=
  match candidates with
  | [] => Ret []
  | candidate :: candidates' =>
      bind (collect_candidate candidate) (λ e,
      bind (collect_candidates candidates') (λ errs,
      Ret (match e with Some e => e :: errs | None => errs end)))
  end.

Definition handleOrphanedNodes (nodes : list Node) (cloudNodeClaims : list NodeClaim) : ctl_err :=
  bind (find_candidates (present_ids cloudNodeClaims) nodes) (λ '(candidates, errs),
  match Combine errs with
  | Some e => Ret (Some e)
  | None => bind (collect_candidates candidates) (λ errs, Ret (Combine errs))
  end).

(** [Reconcile], with the counter of its successes before and after it: the first
    twenty run again after ten seconds, later ones after two minutes. *)
Definition gc_Reconcile (successfulCount : Z) : ctl (Result * Z) :=
  answer ⟵ CloudList;
  match answer with
  | Err e => fail_with (wrapped_ "listing cloudprovider nodeclaims" e)
  | Ok cloudNodeClaims =>
      answer ⟵ CListNodes;
      match answer with
      | Err e => fail_with e
      | Ok nodes =>
          bind (handleOrphanedNodes nodes cloudNodeClaims) (λ e,
          match e with
          | Some e => fail_with e
          | None =>
              let count := ((successfulCount + 1) mod 2 ^ 64)%Z in
              Ret (Ok ({| RequeueAfter :=
                            if (count <=? 20)%Z then (10 * GoTime.Second)%Z else (2 * GoTime.Minute)%Z |}, count))
          end)
      end
  end.

(** ** What it guarantees *)
Local Open Scope list_scope.

(** A confirmation of the first loop that lets the controller go on. *)
Definition confirmed (ev : event ctl_call) : Prop :=
  match ev with
  | Did e r =>
      match e in ctl_call R return R → Prop with
      | CloudGet _ => λ answer, match answer with Some e => IsNodeClaimNotFoundError e = true | None => True end
      | _ => λ _, False
      end r
  end.

(** The history, newest first, in which a node may be deleted. *)
Definition may_collect (h : ctl_history) (node : Node) (preconditions : option (string * string)) : Prop :=
  ∃ claims nodes candidate e1 e2 first second,
    h = Did (CloudGet (node_ProviderID node)) (Some e2) :: Did (CGetNode (Name (node_meta candidate))) (Ok node) ::
        second ++ first ++ [Did CListNodes (Ok nodes); Did CloudList (Ok claims)] ∧
    Forall confirmed first ∧
    candidate ∈ nodes ∧ not_orphaned (present_ids claims) candidate = false ∧
    Did (CloudGet (node_ProviderID node)) (Some e1) ∈ first ∧
    IsNodeClaimNotFoundError e1 = true ∧ IsNodeClaimNotFoundError e2 = true ∧
    candidate_changed candidate node = false ∧
    preconditions = Some (UID (node_meta node), ResourceVersion (node_meta node)).

Definition gc_guard : guard := λ h R e,
  match e with
  | CDeleteNode node preconditions => may_collect h node preconditions
  | _ => reads R e = true
  end.

(** What became of a candidate. *)
Definition settled (h : ctl_history) (candidate : Node) : Prop :=
  (∃ e, asked h (CGetNode (Name (node_meta candidate))) (Err e) ∧ kube_IsNotFound e = true) ∨
  ∃ node, asked h (CGetNode (Name (node_meta candidate))) (Ok node) ∧
    (candidate_changed candidate node = true ∨ asked h (CloudGet (node_ProviderID node)) None ∨
     ∃ answer, asked h (CDeleteNode node (deletePreconditions node)) answer ∧ IgnoreNotFound answer = None).

Definition handled (h : ctl_history) (node : Node) : Prop :=
  asked h (CloudGet (node_ProviderID node)) None ∨ settled h node.

Lemma find_candidates_wp present nodes h :
  wp gc_guard (find_candidates present nodes) h (λ h' '(candidates, errs), ∃ l, h' = l ++ h ∧
    (errs = [] → Forall confirmed l) ∧
    Forall (λ c, c ∈ nodes ∧ not_orphaned present c = false ∧
      ∃ e, Did (CloudGet (node_ProviderID c)) (Some e) ∈ l ∧ IsNodeClaimNotFoundError e = true) candidates ∧
    (errs = [] → ∀ node, node ∈ nodes → not_orphaned present node = false →
      asked l (CloudGet (node_ProviderID node)) None ∨ node ∈ candidates)).
Proof.
  revert h. induction nodes as [|node nodes IH]; intros h; cbn [find_candidates].
  { exists []. split_and!; [done|by constructor..|]. intros _ node Hn. by apply elem_of_nil in Hn. }
  destruct (not_orphaned present node) eqn:Eo.
  - eapply wp_mono; [|apply IH]. intros h' [candidates errs] (l & -> & H1 & H2 & H3).
    exists l. split_and!; try done.
    + eapply Forall_impl; [exact H2|]. intros c (? & ? & ?). split_and!; [by right|done..].
    + intros Hn n [->|Hin]%elem_of_cons He; [congruence|by apply H3].
  - split; [done|]. intros e. apply wp_bind. eapply wp_mono; [|apply IH].
    intros h' [candidates errs] (l & -> & H1 & H2 & H3).
    set (ev := Did (CloudGet (node_ProviderID node)) e).
    assert (Hl : l ++ ev :: h = (l ++ [ev]) ++ h) by (by rewrite <-(assoc_L (++))).
    assert (H2' : Forall (λ c, c ∈ node :: nodes ∧ not_orphaned present c = false ∧
      ∃ e, Did (CloudGet (node_ProviderID c)) (Some e) ∈ l ++ [ev] ∧ IsNodeClaimNotFoundError e = true) candidates).
    { eapply Forall_impl; [exact H2|]. intros c (? & ? & e' & ? & ?). split_and!; [by right|done|].
      exists e'. split; [apply elem_of_app; by left|done]. }
    assert (Hev : ev ∈ l ++ [ev]) by (apply elem_of_app; right; by left).
    assert (Hold : errs = [] → ∀ n, n ∈ nodes → not_orphaned present n = false →
      asked (l ++ [ev]) (CloudGet (node_ProviderID n)) None ∨ n ∈ candidates).
    { intros Hn n Hin He. destruct (H3 Hn n Hin He); [|by right]. left. apply elem_of_app. by left. }
    destruct e as [e|]; [destruct (IsNodeClaimNotFoundError e) eqn:Ee|].
    + exists (l ++ [ev]). split_and!; [done| | |].
      * intros Hn. apply Forall_app. split; [by apply H1|]. by repeat constructor.
      * constructor; [|done]. split_and!; [by left|done|by exists e].
      * intros Hn n [->|Hin]%elem_of_cons He; [right; by left|].
        destruct (Hold Hn n Hin He); [by left|right; by right].
    + exists (l ++ [ev]). by split_and!.
    + exists (l ++ [ev]). split_and!; [done| |done|].
      * intros Hn. apply Forall_app. split; [by apply H1|]. by repeat constructor.
      * intros Hn n [->|Hin]%elem_of_cons He; [by left|by apply Hold].
Qed.

Section collect.
Context (claims : list NodeClaim) (nodes : list Node) (first : ctl_history).
Context (Hfirst : Forall confirmed first).
Local Abbreviation start := (first ++ [Did CListNodes (Ok nodes); Did CloudList (Ok claims)]).

(** A candidate of the first loop. *)
Definition is_candidate (c : Node) : Prop :=
  c ∈ nodes ∧ not_orphaned (present_ids claims) c = false ∧
  ∃ e, Did (CloudGet (node_ProviderID c)) (Some e) ∈ first ∧ IsNodeClaimNotFoundError e = true.

Lemma collect_candidate_wp c second :
  is_candidate c →
  wp gc_guard (collect_candidate c) (second ++ start) (λ h' e, ∃ l, h' = l ++ start ∧
    (∀ ev, ev ∈ second → ev ∈ l) ∧ (e = None → settled l c)).
Proof.
  intros (Hin & Ho & e1 & He1 & Hn1). unfold collect_candidate. split; [done|]. intros [node|e].
  2:{ exists (Did (CGetNode (Name (node_meta c))) (Err e) :: second). split_and!; [done|by right|].
      cbn. destruct (kube_IsNotFound e) eqn:Ee; [|done]. intros _. left. exists e. split; [by left|done]. }
  destruct (candidate_changed c node) eqn:Ec.
  { exists (Did (CGetNode (Name (node_meta c))) (Ok node) :: second). split_and!; [done|by right|].
    intros _. right. exists node. split; [by left|by left]. }
  split; [done|]. intros [e2|].
  2:{ eexists (Did (CloudGet (node_ProviderID node)) None :: Did (CGetNode (Name (node_meta c))) (Ok node) :: second).
      split_and!; [done|by do 2 right|]. intros _. right. exists node. split; [right; by left|].
      right. left. by left. }
  destruct (IsNodeClaimNotFoundError e2) eqn:Ee2; cbn [negb].
  2:{ eexists (Did (CloudGet (node_ProviderID node)) (Some e2) :: Did (CGetNode (Name (node_meta c))) (Ok node) :: second).
      split_and!; [done|by do 2 right|done]. }
  assert (Hid : node_ProviderID node = node_ProviderID c).
  { revert Ec. unfold candidate_changed. intros Ec. by bool_to_prop. }
  split.
  - exists claims, nodes, c, e1, e2, first, second. rewrite Hid. by split_and!.
  - intros answer. exists (Did (CDeleteNode node (deletePreconditions node)) answer
      :: Did (CloudGet (node_ProviderID node)) (Some e2) :: Did (CGetNode (Name (node_meta c))) (Ok node) :: second).
    split_and!; [done|by do 3 right|]. intros Ha. right. exists node. split; [do 2 right; by left|].
    do 2 right. exists answer. split; [by left|done].
Qed.

Lemma settled_mono l l' c : (∀ ev, ev ∈ l → ev ∈ l') → settled l c → settled l' c.
Proof.
  intros Hl [(e & He & Hn)|(node & Hg & Hs)]; [left; exists e; by split; [apply Hl|]|].
  right. exists node. split; [by apply Hl|].
  destruct Hs as [|[|(a & Ha & Hi)]]; [by left|right; left; by apply Hl|].
  do 2 right. exists a. by split; [apply Hl|].
Qed.

Lemma collect_candidates_wp candidates second :
  Forall is_candidate candidates →
  wp gc_guard (collect_candidates candidates) (second ++ start) (λ h' errs, ∃ l, h' = l ++ start ∧
    (∀ ev, ev ∈ second → ev ∈ l) ∧ (errs = [] → Forall (settled l) candidates)).
Proof.
  intros Hc. revert second. induction Hc as [|c candidates Hc _ IH]; intros second; cbn [collect_candidates].
  { exists second. split_and!; [done|done|by constructor]. }
  apply wp_bind. eapply wp_mono; [|by apply collect_candidate_wp].
  intros h' e (l & -> & Hl & Hs). apply wp_bind. eapply wp_mono; [|apply IH].
  intros h' errs (l' & -> & Hl' & Hs'). cbn. exists l'. split_and!; [done|eauto|].
  destruct e; [done|]. intros He. constructor; [by apply (settled_mono l), Hs|by apply Hs'].
Qed.
End collect.

Lemma handled_mono l l' node : (∀ ev, ev ∈ l → ev ∈ l') → handled l node → handled l' node.
Proof. intros Hl [Hh|Hs]; [left; by apply Hl|right; by eapply settled_mono]. Qed.

(** What a success says about the nodes that were listed. *)
Definition all_handled (h : ctl_history) : Prop :=
  ∃ claims nodes, asked h CloudList (Ok claims) ∧ asked h CListNodes (Ok nodes) ∧
    ∀ node, node ∈ nodes → not_orphaned (present_ids claims) node = false → handled h node.

Lemma gc_wp count :
  wp gc_guard (gc_Reconcile count) [] (λ h r, match r with Ok _ => all_handled h | Err _ => True end).
Proof.
  unfold gc_Reconcile. split; [done|]. intros [claims|e]; [|done]. split; [done|]. intros [nodes|e]; [|done].
  apply wp_bind. unfold handleOrphanedNodes. apply wp_bind.
  eapply wp_mono; [|apply find_candidates_wp]. intros h' [candidates errs] (first & -> & H1 & H2 & H3).
  destruct (Combine errs) as [e|] eqn:Ec; [done|]. apply Combine_nil in Ec as ->.
  specialize (H1 eq_refl). specialize (H3 eq_refl). apply wp_bind.
  eapply wp_mono; [|by apply (collect_candidates_wp claims nodes first H1 candidates [])].
  intros h' errs (l & -> & _ & Hs). destruct (Combine errs) as [e|] eqn:Ec; [done|]. apply Combine_nil in Ec as ->.
  exists claims, nodes. specialize (Hs eq_refl). rewrite Forall_forall in Hs.
  split_and!; [apply elem_of_app; right; apply elem_of_app; right; by right; left|
    apply elem_of_app; right; apply elem_of_app; right; by left|].
  intros node Hin Ho. destruct (H3 node Hin Ho) as [Ha|Ha].
  - left. apply elem_of_app. right. apply elem_of_app. by left.
  - right. apply (settled_mono l); [|by apply Hs]. intros ev Hev. apply elem_of_app. by left.
Qed.

(** C11. Garbage collection deletes a node only when it was listed as managed, not
    ready and without an instance in the cloud's listing, no confirmation of the
    first round failed, its instance was confirmed gone in that round and again
    after the node was read once more unchanged, and only in that version; it
    changes nothing else.  When it succeeds, every such node was
    confirmed to have an instance, or is gone, changed, or was deleted. *)
Theorem gc_deletes_only_gone count tr r (Hrun : runs (gc_Reconcile count) tr r) :
  (∀ before R (e : ctl_call R) answer after,
     tr = before ++ Did e answer :: after → gc_guard (reverse before) R e) ∧
  match r with Ok _ => all_handled tr | Err _ => True end.
Proof.
  destruct (guarded_run _ _ _ _ _ (gc_wp count) Hrun) as [Hg HQ]. split; [done|].
  destruct r; [|done]. destruct HQ as (claims & nodes & H1 & H2 & H3).
  assert (Hr : ∀ ev, ev ∈ reverse tr → ev ∈ tr) by (intros ev; by rewrite elem_of_reverse).
  exists claims, nodes. split_and!; [by apply Hr..|].
  intros node Hin Ho. eapply handled_mono; [exact Hr|by apply H3].
Qed.

(** A cluster with a node that lost its instance. *)
Definition lost_node : Node :=
  {| node_meta :=
       {| Name := "node-1"; UID := "uid-node"; ResourceVersion := "7"; Generation := 1; DeletionTimestamp := None;
          CreationTimestamp := 0; Labels := {[NodePoolLabelKey := "default"%string]}; Annotations := ∅; Finalizers := [] |};
     node_ProviderID := "ibm:///us-south/instance-1"; Unschedulable := false; OwnerReferences := []; node_Status := no_status |}.

Definition lost_world : world :=
  {| w_nodes := [lost_node]; w_claims := []; w_classes := []; w_cluster := no_meta; w_instances := []; w_tags := [];
     w_absent := Some (NodeClaimNotFound (GoErrors.New "gone")); w_now := 0 |}.

Lemma gc_deletes_only_gone_witness : ∃ tr r, runs (gc_Reconcile 20) tr r ∧
  deletions tr = [DeletedNode "node-1" (Some ("uid-node", "7"))]%string ∧
  r = Ok ({| RequeueAfter := (2 * GoTime.Minute)%Z |}, 21%Z) ∧ all_handled tr.
Proof.
  pose proof (interp_runs (world_handle lost_world) (gc_Reconcile 20) tt) as Hrun.
  eexists _, _. split_and!; [exact Hrun|by vm_compute|by vm_compute|].
  pose proof (gc_deletes_only_gone 20 _ _ Hrun) as [_ H]. exact H.
Defined.
