(* ===== verification/OrphanCleanup.v ===== *)
(** * OrphanCleanup: instances that nothing in the cluster knows

    [pkg/controllers/node/orphancleanup/controller.go]: VPC instances with the
    ownership tags of this cluster, old enough, that no Node and no NodeClaim
    refers to, are deleted.  The tags of an instance come in pages, whose number
    the service decides: the loop over them has fuel, and [None] is a loop that
    has not ended with it. *)
From stdpp Require Import prelude list strings gmap.
From S2P Require Import Prelude GoLib GoSort GoRegexp Errors NodeClass ProviderIDs Ownership Prog Kube.
From S2P Require Import IksAllocation VpcApi ControllerApi.
Import Strings.

Open Scope string_scope.
Local Open Scope prog_scope.

(** ** Configuration *)
Definition DefaultOrphanTimeout : Z := (10 * GoTime.Minute)%Z.
Definition OrphanCheckInterval : Z := (5 * GoTime.Minute)%Z.
Definition MinimumOrphanTimeout : Z := (5 * GoTime.Minute)%Z.

(** [getOrphanTimeoutFromEnv]; the minutes are multiplied in an int64. *)
Definition getOrphanTimeoutFromEnv (Getenv : string → string) : Z :=
  let value := Getenv "KARPENTER_ORPHAN_TIMEOUT_MINUTES" in
  if empty value then DefaultOrphanTimeout
  else
    let '(minutes, ok) := Strconv.Atoi value in
    if ok && (0 <? minutes)%Z then
      let timeout := Retry.wrap64 (minutes * GoTime.Minute) in
      if (timeout <? MinimumOrphanTimeout)%Z then MinimumOrphanTimeout else timeout
    else DefaultOrphanTimeout.

Definition isOrphanCleanupEnabled (Getenv : string → string) : bool :=
  String.eqb (Getenv "KARPENTER_ENABLE_ORPHAN_CLEANUP") "true".

(** [Controller]: whether it has its clients, and its timeout. *)
Record controller := {
  has_ibmClient : bool;
  has_globalTagging : bool;
  orphanTimeout : Z;
}.

(** ** Tags *)
Definition Colon : Ascii.ascii := Ascii.ascii_of_nat 58.

(** The loop over the tags of a page. *)
Fixpoint add_tags (items : list (option string)) (tags : gmap string string)
    : result GoErrors.error (gmap string string) :=
  match items with
  | [] => Ok tags
  | None :: items' => add_tags items' tags
  | Some name :: items' =>
      match cut Colon name with
      | None => add_tags items' tags
      | Some (key, value) =>
          match tags !! key with
          | Some existing =>
              if negb (String.eqb existing value) && ReservedTag key
              then Err (GoErrors.New ("conflicting ownership values for " ++ key))
              else add_tags items' (<[key := value]> tags)
          | None => add_tags items' (<[key := value]> tags)
          end
      end
  end.

Definition page_limit : nat := 100.

Fixpoint tags_loop (fuel : nat) (crn : string) (offset : Z) (tags : gmap string string)
    : prog ctl_call (option (result GoErrors.error (gmap string string))) :=
  match fuel with
  | O => Ret None
  | S fuel' =>
      answer ⟵ CListTags crn offset;
      match answer with
      | Err e => Ret (Some (Err (wrapped_ "listing resource ownership tags" e)))
      | Ok None => Ret (Some (Ok ∅))
      | Ok (Some results) =>
          match add_tags (tag_Items results) tags with
          | Err e => Ret (Some (Err e))
          | Ok tags =>
              let items := length (tag_Items results) in
              let offset := (offset + Z.of_nat items)%Z in
              match TotalCount results with
              | Some total =>
                  if (total <=? offset)%Z then Ret (Some (Ok tags))
                  else if Nat.eqb items 0
                  then Ret (Some (Err (GoErrors.New "incomplete ownership tag listing")))
                  else tags_loop fuel' crn offset tags
              | None => if Nat.ltb items page_limit then Ret (Some (Ok tags)) else tags_loop fuel' crn offset tags
              end
          end
      end
  end.

Section controller.
Context `{MapRange} (c : controller) (fuel : nat).

Definition instanceTags (crn : option string) : prog ctl_call (option (result GoErrors.error (gmap string string))) :=
  match crn with
  | Some crn => if empty crn || negb (has_globalTagging c) then Ret (Some (Ok ∅)) else tags_loop fuel crn 0 ∅
  | None => Ret (Some (Ok ∅))
  end.

Definition tags_ours (tags : gmap string string) : bool :=
  String.eqb (get tags ManagedTag) "true" && String.eqb (get tags ProviderTag) "vpc" &&
  negb (empty (get tags ClaimUIDTag)) && negb (empty (get tags NodeClassUIDTag)).

Definition ownsTags (tags : gmap string string) : ctl bool :=
  if negb (tags_ours tags) then Ret (Ok false)
  else clusterUID ←! cluster_uid; Ret (Ok (String.eqb (get tags ClusterUIDTag) clusterUID)).

(** Whether an instance may be an orphan by its age. *)
Definition old_enough (i : Instance) : prog ctl_call bool :=
  match CreatedAt i with
  | None => Ret false
  | Some created =>
      if (created =? GoTime.zero_time)%Z then Ret false
      else now ⟵ CNow; Ret (negb (GoTime.Sub now created <? orphanTimeout c)%Z)
  end.

(** A step whose loop may be unfinished. *)
Definition ended {A B} (q : prog ctl_call (option A)) (f : A → prog ctl_call (option B)) : prog ctl_call (option B) :=
  bind q (λ r, match r with Some a => f a | None => Ret None end).

Definition claim_knows (claimUID id : string) (claim : NodeClaim) : bool :=
  String.eqb (UID (claim_meta claim)) claimUID ||
  String.eqb (orphan_extractInstanceID (claim_ProviderID claim)) id.
Definition node_knows (id : string) (node : Node) : bool :=
  String.eqb (orphan_extractInstanceID (node_ProviderID node)) id.

(** The last looks before the deletion. *)
Definition delete_unknown (id : string) (tags : gmap string string) : ctl_err :=
  answer ⟵ CListClaims;
  match answer with
  | Err e => Ret (Some e)
  | Ok claims =>
      if existsb (claim_knows (get tags ClaimUIDTag) id) claims then Ret None
      else
        answer ⟵ CListNodes;
        match answer with
        | Err e => Ret (Some e)
        | Ok nodes =>
            if existsb (node_knows id) nodes then Ret None
            else
              e ⟵ CDeleteInstance id;
              Ret (if IBM.IsNotFound e then None else e)
        end
  end.

Definition processOrphanedInstance (id : string) : prog ctl_call (option err) :=
  e ⟵ CVPCClient;
  match e with
  | Some e => Ret (Some (Some e))
  | None =>
      answer ⟵ CGetInstance id;
      match answer with
      | (_, Some e) => Ret (Some (if IBM.IsNotFound (Some e) then None else Some e))
      | (None, None) => Ret (Some (Some (GoErrors.New "instance lookup returned no instance")))
      | (Some i, None) =>
          if negb (bool_decide (inst_ID i = Some id)) then Ret (Some None)
          else
            bind (old_enough i) (λ old,
            if negb old then Ret (Some None)
            else
              ended (instanceTags (inst_CRN i)) (λ tags,
              match tags with
              | Err e => Ret (Some (Some e))
              | Ok tags =>
                  bind (ownsTags tags) (λ owned,
                  match owned with
                  | Err e => Ret (Some (Some e))
                  | Ok false => Ret (Some None)
                  | Ok true => bind (delete_unknown id tags) (λ e, Ret (Some e))
                  end)
              end))
      end
  end.

(** ** The sweep *)

(** The instances by their ID; a later one of the same ID replaces it. *)
Definition instances_by_id (instances : list Instance) : gmap string Instance :=
  foldl (λ m i, match inst_ID i with
                | Some id => if empty id then m else <[id := i]> m
                | None => m
                end) ∅ instances.

Definition getAllVPCInstances : ctl (gmap string Instance) :=
  e ⟵ CVPCClient;
  match e with
  | Some e => fail_with (wrapped_ "getting VPC client" e)
  | None => instances ←! call CListInstances; Ret (Ok (instances_by_id instances))
  end.

(** The instances that Nodes and NodeClaims refer to. *)
Definition expected_ids (nodes : list Node) (claims : list NodeClaim) : gset string :=
  list_to_set (map (λ node, orphan_extractInstanceID (node_ProviderID node)) nodes ++
               map (λ claim, orphan_extractInstanceID (claim_ProviderID claim)) claims)%list.

(** One round of the loop over the instances: its error. *)
Definition consider (expected : gset string) (id : string) (i : Instance) : prog ctl_call (option err) :=
  if bool_decide (id ∈ expected) then Ret (Some None)
  else
    bind (old_enough i) (λ old,
    if negb old then Ret (Some None)
    else
      ended (instanceTags (inst_CRN i)) (λ tags,
      match tags with
      | Err e => Ret (Some (Some e))
      | Ok tags =>
          bind (ownsTags tags) (λ owned,
          match owned with
          | Err e => Ret (Some (Some e))
          | Ok false => Ret (Some None)
          | Ok true => processOrphanedInstance id
          end)
      end)).

Fixpoint consider_all (expected : gset string) (instances : list (string * Instance))
    : prog ctl_call (option (list GoErrors.error)) :=
  match instances with
  | [] => Ret (Some [])
  | (id, i) :: instances' =>
      ended (consider expected id i) (λ e,
      ended (consider_all expected instances') (λ errs,
      Ret (Some (match e with Some e => e :: errs | None => errs end))))
  end.

Definition orphan_Reconcile (Getenv : string → string) : prog ctl_call (option (Result * err)) :=
  let result := {| RequeueAfter := OrphanCheckInterval |} in
  let failed e := Ret (Some (no_requeue, Some e)) in
  if negb (isOrphanCleanupEnabled Getenv) || negb (has_ibmClient c) || negb (has_globalTagging c)
  then Ret (Some (result, None))
  else
    bind cluster_uid (λ uid,
    match uid with
    | Err e => failed e
    | Ok _ =>
        bind getAllVPCInstances (λ instances,
        match instances with
        | Err e => failed e
        | Ok instances =>
            answer ⟵ CListNodes;
            match answer with
            | Err e => failed e
            | Ok nodes =>
                answer ⟵ CListClaims;
                match answer with
                | Err e => failed e
                | Ok claims =>
                    ended (consider_all (expected_ids nodes claims) (map_range (map_to_list instances))) (λ errs,
                    Ret (Some (result, Combine errs)))
                end
            end
        end)
    end).
End controller.

(** ** What the tags mean *)
Local Open Scope list_scope.

(** A tag of the key and value is among the items. *)
Definition item_has (items : list (option string)) (k v : string) : Prop :=
  ∃ name, Some name ∈ items ∧ cut Colon name = Some (k, v).

(** The page that an event answered. *)
Definition page_of (ev : event ctl_call) : option TagList :=
  match ev with
  | Did e r =>
      match e in ctl_call R return R → option TagList with
      | CListTags _ _ => λ answer, match answer with Ok page => page | Err _ => None end
      | _ => λ _, None
      end r
  end.

(** The tags listed in a history. *)
Definition listed (l : ctl_history) (k v : string) : Prop :=
  ∃ ev page, ev ∈ l ∧ page_of ev = Some page ∧ item_has (tag_Items page) k v.

(** The one value of a key. *)
Definition tagged (l : ctl_history) (k v : string) : Prop :=
  listed l k v ∧ ∀ v', listed l k v' → v' = v.

Lemma item_has_nil k v : ¬ item_has [] k v.
Proof. intros (name & Hin & _). by apply elem_of_nil in Hin. Qed.

Lemma item_has_cons item items k v :
  item_has (item :: items) k v ↔ (∃ name, item = Some name ∧ cut Colon name = Some (k, v)) ∨ item_has items k v.
Proof. unfold item_has. setoid_rewrite elem_of_cons. naive_solver. Qed.

(** A reserved key keeps one value. *)
Lemma add_tags_spec items tags tags' k v :
  add_tags items tags = Ok tags' → ReservedTag k = true →
  tags' !! k = Some v ↔ tags !! k = Some v ∨ item_has items k v.
Proof.
  intros Ha Hk. revert tags Ha. induction items as [|[name|] items IH]; intros tags; cbn [add_tags].
  - intros [= ->]. split; [by left|]. by intros [|?%item_has_nil].
  - intros Ha. rewrite item_has_cons. destruct (cut Colon name) as [[key value]|] eqn:Ec.
    2:{ rewrite (IH _ Ha). naive_solver. }
    assert (add_tags items (<[key := value]> tags) = Ok tags' ∧
      (key = k → tags !! k = None ∨ tags !! k = Some value)) as [Hrest Hsame].
    { destruct (tags !! key) as [existing|] eqn:Et; [|split; [done|]; intros <-; by left].
      destruct (negb _ && _) eqn:Eb; [done|]. split; [done|]. intros ->. right. rewrite Et.
      rewrite Hk, andb_true_r in Eb. by bool_to_prop; simplify_eq. }
    rewrite (IH _ Hrest). destruct (decide (key = k)) as [->|Hne].
    + rewrite lookup_insert_eq. specialize (Hsame eq_refl). naive_solver congruence.
    + rewrite lookup_insert_ne by done. naive_solver.
  - intros Ha. rewrite item_has_cons, (IH _ Ha). naive_solver.
Qed.

Lemma add_tags_app items1 items2 tags :
  add_tags (items1 ++ items2) tags =
  match add_tags items1 tags with Ok tags' => add_tags items2 tags' | Err e => Err e end.
Proof.
  revert tags. induction items1 as [|[name|] items1 IH]; intros tags; cbn [add_tags app]; [done| |done].
  destruct (cut Colon name) as [[key value]|]; [|done].
  destruct (tags !! key); [destruct (negb _ && _)|]; done.
Qed.

Lemma listed_cons ev l k v :
  listed (ev :: l) k v ↔ (∃ page, page_of ev = Some page ∧ item_has (tag_Items page) k v) ∨ listed l k v.
Proof. unfold listed. setoid_rewrite elem_of_cons. naive_solver. Qed.

Lemma listed_mono l l' k v : (∀ ev, ev ∈ l → ev ∈ l') → listed l k v → listed l' k v.
Proof. intros Hl (ev & page & Hin & Hp & Hi). exists ev, page. split_and!; auto. Qed.

Lemma tagged_reverse l k v : tagged (reverse l) k v ↔ tagged l k v.
Proof.
  assert (H : ∀ l v, listed (reverse l) k v ↔ listed l k v).
  { intros l' v'. split; apply listed_mono; intros ev; by rewrite elem_of_reverse. }
  unfold tagged. rewrite H. by setoid_rewrite H.
Qed.

(** The pages of one instance. *)
Definition tags_only (crn : string) (R : Type) (e : ctl_call R) : bool :=
  match e with CListTags crn' _ => String.eqb crn' crn | _ => false end.

Lemma tags_loop_only fuel crn offset tags : only (tags_only crn) (tags_loop fuel crn offset tags).
Proof.
  revert offset tags. induction fuel as [|fuel IH]; intros offset tags; cbn [tags_loop]; [done|].
  split; [apply String.eqb_refl|]. intros [[results|]|e]; [|done|done].
  destruct (add_tags _ _); [|done]. cbv zeta. destruct (TotalCount results).
  - destruct (_ <=? _)%Z; [done|]. destruct (Nat.eqb _ 0); [done|apply IH].
  - destruct (Nat.ltb _ _); [done|apply IH].
Qed.

(** What a finished listing says of a reserved key. *)
Lemma tags_loop_spec fuel crn offset tags tr tags' k :
  runs (tags_loop fuel crn offset tags) tr (Some (Ok tags')) → ReservedTag k = true → is_Some (tags' !! k) →
  ∀ v, tags' !! k = Some v ↔ tags !! k = Some v ∨ listed tr k v.
Proof.
  intros Hr Hk Hs. revert offset tags tr Hr. induction fuel as [|fuel IH]; intros offset tags tr; cbn [tags_loop].
  { by intros [_ ?]. }
  intros ([[results|]|e] & tr' & -> & Hr) v; [|destruct Hr as [_ [= <-]]; by rewrite lookup_empty in Hs; destruct Hs|by destruct Hr].
  destruct (add_tags (tag_Items results) tags) as [tags1|e] eqn:Ea; [|by destruct Hr].
  assert (Hgen : tags' !! k = Some v ↔ tags1 !! k = Some v ∨ listed tr' k v).
  { assert (Hend : tags1 = tags' → tr' = [] → tags' !! k = Some v ↔ tags1 !! k = Some v ∨ listed tr' k v).
    { intros -> ->. split; [by left|]. intros [|(ev & _ & Hin & _)]; [done|by apply elem_of_nil in Hin]. }
    cbv zeta in Hr. destruct (TotalCount results).
    - destruct (_ <=? _)%Z; [destruct Hr as [-> [= ->]]; by apply Hend|].
      destruct (Nat.eqb _ 0); [by destruct Hr|by eapply IH].
    - destruct (Nat.ltb _ _); [destruct Hr as [-> [= ->]]; by apply Hend|by eapply IH]. }
  rewrite Hgen, (add_tags_spec _ _ _ _ _ Ea Hk), listed_cons. cbn [page_of]. naive_solver.
Qed.

Lemma get_tagged fuel crn tr tags k :
  runs (tags_loop fuel crn 0 ∅) tr (Some (Ok tags)) → ReservedTag k = true → get tags k ≠ ""%string →
  tagged tr k (get tags k).
Proof.
  intros Hr Hk Hne. unfold get in *. destruct (tags !! k) as [v|] eqn:Ev; [|done]. cbn [default].
  pose proof (tags_loop_spec _ _ _ _ _ _ _ Hr Hk (mk_is_Some _ _ Ev)) as H.
  split; [apply H in Ev as [Ev|]; [by rewrite lookup_empty in Ev|done]|].
  intros v' Hv'. assert (Hv : tags !! k = Some v') by (apply H; by right).
  rewrite Ev in Hv. by injection Hv.
Qed.

(** ** The safety of a sweep *)
Lemma empty_neq s : empty s = false → s ≠ ""%string.
Proof. unfold empty. intros He. by bool_to_prop. Qed.

Section safety.
Context `{MapRange} (c : controller) (fuel : nat) (Getenv : string → string).

(** The tags of a cluster's own instance. *)
Record owned_by (l : ctl_history) (clusterUID claimUID : string) : Prop := {
  ob_managed : tagged l ManagedTag "true";
  ob_provider : tagged l ProviderTag "vpc";
  ob_cluster : clusterUID ≠ ""%string ∧ tagged l ClusterUIDTag clusterUID;
  ob_claim : claimUID ≠ ""%string ∧ tagged l ClaimUIDTag claimUID;
  ob_class : ∃ classUID, classUID ≠ ""%string ∧ tagged l NodeClassUIDTag classUID;
}.

(** An instance old enough at the time [now]. *)
Definition aged (i : Instance) (now : Z) : Prop :=
  ∃ created, CreatedAt i = Some created ∧ created ≠ GoTime.zero_time ∧ (orphanTimeout c ≤ GoTime.Sub now created)%Z.

(** The first look: listed by the cloud, and no Node and no NodeClaim refers
    to it. *)
Definition first_look (h : ctl_history) (id : string) : Prop :=
  ∃ instances i nodes claims, asked h CListInstances (Ok instances) ∧ i ∈ instances ∧ inst_ID i = Some id ∧
    asked h CListNodes (Ok nodes) ∧ asked h CListClaims (Ok claims) ∧ id ∉ expected_ids nodes claims.

(** The history, newest first, in which an instance may be deleted. *)
Definition may_delete_orphan (h : ctl_history) (id : string) : Prop :=
  ∃ nodes claims namespace pages now i claimUID before,
    h = Did CListNodes (Ok nodes) :: Did CListClaims (Ok claims)
        :: Did (CGetNamespace "kube-system") (Ok namespace) :: pages
        ++ Did CNow now :: Did (CGetInstance id) (Some i, None) :: before ∧
    first_look before id ∧ inst_ID i = Some id ∧ aged i now ∧
    (∃ crn, inst_CRN i = Some crn ∧ Forall (event_is (tags_only crn)) pages) ∧
    owned_by pages (UID namespace) claimUID ∧
    (∀ claim, claim ∈ claims → UID (claim_meta claim) ≠ claimUID ∧
       orphan_extractInstanceID (claim_ProviderID claim) ≠ id) ∧
    (∀ node, node ∈ nodes → orphan_extractInstanceID (node_ProviderID node) ≠ id).

Definition orphan_guard : guard := λ h R e,
  match e with
  | CDeleteInstance id => isOrphanCleanupEnabled Getenv = true ∧ may_delete_orphan h id
  | _ => reads R e = true
  end.

Context (Henabled : isOrphanCleanupEnabled Getenv = true).

Lemma reads_allowed h R (e : ctl_call R) : reads R e = true → orphan_guard h R e.
Proof. by destruct e. Qed.

Lemma tags_reads crn R (e : ctl_call R) : tags_only crn R e = true → reads R e = true.
Proof. by destruct e. Qed.

Lemma instanceTags_wp crn h :
  wp orphan_guard (instanceTags c fuel crn) h (λ h' r, ∃ l, h' = l ++ h ∧
    match r with
    | Some (Ok tags) => tags = ∅ ∨ ∃ crn', crn = Some crn' ∧ Forall (event_is (tags_only crn')) l ∧
        runs (tags_loop fuel crn' 0 ∅) (reverse l) (Some (Ok tags))
    | _ => True
    end).
Proof.
  unfold instanceTags. destruct crn as [crn|]; [|by exists []; split; [|left]].
  destruct (_ || _); [by exists []; split; [|left]|].
  eapply wp_mono; [|apply wp_and; [apply (wp_only (tags_only crn))|apply (wp_runs (tags_only crn))];
    [by intros; apply reads_allowed, (tags_reads crn)|apply tags_loop_only|
     by intros; apply reads_allowed, (tags_reads crn)|apply tags_loop_only]].
  intros h' r [(l & -> & Hl) (l' & Heq & Hr)]. apply (inj (.++ h)) in Heq as <-.
  exists l. split; [done|]. destruct r as [[tags|]|]; [|done|done]. right. by exists crn.
Qed.

Lemma old_enough_wp i h :
  wp orphan_guard (old_enough c i) h (λ h' old,
    if old then ∃ now, h' = Did CNow now :: h ∧ aged i now else ∃ l, h' = l ++ h).
Proof.
  unfold old_enough. destruct (CreatedAt i) as [created|] eqn:Ec; [|by exists []].
  destruct (Z.eqb_spec created GoTime.zero_time); [by exists []|]. split; [done|]. intros now. cbn.
  destruct (Z.ltb_spec (GoTime.Sub now created) (orphanTimeout c)); cbn; [by exists [Did CNow now]|].
  exists now. split; [done|]. by exists created.
Qed.

(** The deletion after the last looks. *)
Lemma delete_unknown_wp id tags namespace pages now i crn before :
  tags_ours tags = true → get tags ClusterUIDTag = UID namespace → UID namespace ≠ ""%string →
  runs (tags_loop fuel crn 0 ∅) (reverse pages) (Some (Ok tags)) →
  Forall (event_is (tags_only crn)) pages → inst_CRN i = Some crn →
  first_look before id → inst_ID i = Some id → aged i now →
  wp orphan_guard (delete_unknown id tags)
    (Did (CGetNamespace "kube-system") (Ok namespace) :: pages
       ++ Did CNow now :: Did (CGetInstance id) (Some i, None) :: before) (λ _ _, True).
Proof.
  intros Hours Hcl Hns Hruns Hpages Hcrn Hfirst Hid Haged. unfold delete_unknown.
  split; [done|]. intros [claims|e]; [|done]. destruct (existsb _ claims) eqn:Eclaims; [done|].
  split; [done|]. intros [nodes|e]; [|done]. destruct (existsb _ nodes) eqn:Enodes; [done|].
  apply existsb_false_Forall in Eclaims, Enodes. rewrite Forall_forall in Eclaims. rewrite Forall_forall in Enodes.
  split; [|done]. split; [done|]. unfold tags_ours in Hours. bool_to_prop.
  assert (Htag : ∀ k, ReservedTag k = true → get tags k ≠ ""%string → tagged pages k (get tags k)).
  { intros k Hk Hne. rewrite <-tagged_reverse. by eapply get_tagged. }
  exists nodes, claims, namespace, pages, now, i, (get tags ClaimUIDTag), before.
  split_and!; try done.
  - by exists crn.
  - constructor.
    + replace "true"%string with (get tags ManagedTag) by done. apply Htag; [by vm_compute|congruence].
    + replace "vpc"%string with (get tags ProviderTag) by done. apply Htag; [by vm_compute|congruence].
    + split; [done|]. rewrite <-Hcl. apply Htag; [by vm_compute|congruence].
    + split; [by apply empty_neq|]. apply Htag; [by vm_compute|by apply empty_neq].
    + exists (get tags NodeClassUIDTag). split; [by apply empty_neq|]. apply Htag; [by vm_compute|by apply empty_neq].
  - intros claim Hin. apply Eclaims in Hin. unfold claim_knows in Hin. by bool_to_prop.
  - intros node Hin. apply Enodes in Hin. unfold node_knows in Hin. by bool_to_prop.
Qed.

Lemma first_look_grows l h id : first_look h id → first_look (l ++ h) id.
Proof.
  intros (instances & i & nodes & claims & ? & ? & ? & ? & ? & ?).
  exists instances, i, nodes, claims. split_and!; try done; by apply asked_app.
Qed.

Lemma tags_empty_not_ours : tags_ours ∅ = false.
Proof. by vm_compute. Qed.

(** What [ownsTags] found. *)
Lemma ownsTags_wp tags h :
  wp orphan_guard (ownsTags tags) h (λ h' r,
    match r with
    | Ok true => ∃ namespace, h' = Did (CGetNamespace "kube-system") (Ok namespace) :: h ∧ tags_ours tags = true ∧
        get tags ClusterUIDTag = UID namespace ∧ UID namespace ≠ ""%string
    | _ => True
    end).
Proof.
  unfold ownsTags. destruct (tags_ours tags) eqn:Et; [|done]. cbn [negb]. apply wp_try. split; [done|].
  intros [namespace|e]; [|done]. cbn. destruct (String.eqb_spec (UID namespace) ""); [done|].
  cbn. destruct (String.eqb_spec (get tags ClusterUIDTag) (UID namespace)); [|done]. by exists namespace.
Qed.

Lemma process_wp id h :
  first_look h id → wp orphan_guard (processOrphanedInstance c fuel id) h (λ _ _, True).
Proof.
  intros Hf. unfold processOrphanedInstance. split; [done|]. intros [e|]; [done|]. split; [done|].
  intros [[i|] [e|]]; try done. case_bool_decide as Hid; [cbn [negb]|done].
  apply wp_bind. eapply wp_mono; [|apply old_enough_wp]. intros h' [|]; [|done]. intros (now & -> & Ha).
  cbn [negb]. apply wp_bind. eapply wp_mono; [|apply instanceTags_wp].
  intros h' [[tags|e]|]; [|done|done]. intros (pages & -> & Ht). apply wp_bind.
  eapply wp_mono; [|apply ownsTags_wp]. intros h' [[|]|e]; [|done|done].
  intros (namespace & -> & Hours & Hcl & Hns).
  destruct Ht as [->|(crn & Hcrn & Hpages & Hruns)]; [by rewrite tags_empty_not_ours in Hours|].
  apply wp_bind. eapply wp_mono; [|by eapply delete_unknown_wp; first
    [exact Hours|exact Hcl|exact Hns|exact Hruns|exact Hpages|exact Hcrn|exact Hid|exact Ha|
     apply (first_look_grows [Did CVPCClient None])]]. done.
Qed.

Lemma consider_wp expected id i h :
  (id ∉ expected → first_look h id) → wp orphan_guard (consider c fuel expected id i) h (λ _ _, True).
Proof.
  intros Hf. unfold consider. case_bool_decide as Hin; [done|]. specialize (Hf Hin).
  apply wp_bind. eapply wp_mono; [|apply old_enough_wp]. intros h' [|]; [|done]. intros (now & -> & _).
  cbn [negb]. apply wp_bind. eapply wp_mono; [|apply instanceTags_wp].
  intros h' [[tags|e]|]; [|done|done]. intros (pages & -> & _). apply wp_bind.
  eapply wp_mono; [|apply ownsTags_wp]. intros h' [[|]|e]; [|done|done].
  intros (namespace & -> & _). apply process_wp.
  apply (first_look_grows (Did (CGetNamespace "kube-system") (Ok namespace) :: pages ++ [Did CNow now])) in Hf.
  revert Hf. cbn [app]. by rewrite <-(assoc_L (++)).
Qed.

Lemma consider_all_wp expected instances h :
  Forall (λ p, fst p ∉ expected → first_look h (fst p)) instances →
  wp orphan_guard (consider_all c fuel expected instances) h (λ _ _, True).
Proof.
  revert h. induction instances as [|[id i] instances IH]; intros h Hall; cbn [consider_all]; [done|].
  inversion Hall as [|? ? H1 H2]; subst. apply wp_bind.
  eapply wp_mono; [|apply wp_grows, consider_wp, H1]. intros h' [e|] [_ [l ->]]; [|done].
  apply wp_bind. eapply wp_mono; [|apply IH]; [by intros ? [|]|].
  eapply Forall_impl; [exact H2|]. intros p Hp Hin. by apply first_look_grows, Hp.
Qed.

Lemma instances_by_id_lookup instances id i :
  instances_by_id instances !! id = Some i → i ∈ instances ∧ inst_ID i = Some id.
Proof.
  revert id i. unfold instances_by_id.
  apply (foldl_invariant _ (λ m : gmap string Instance, ∀ id i, m !! id = Some i → i ∈ instances ∧ inst_ID i = Some id)).
  { intros id i. by rewrite lookup_empty. }
  intros m j Hj Hm id i. destruct (inst_ID j) as [idj|] eqn:Ej; [|apply Hm]. destruct (empty idj); [apply Hm|].
  intros [[<- <-]|[_ ?%Hm]]%lookup_insert_Some; done.
Qed.

Lemma orphan_wp : wp orphan_guard (orphan_Reconcile c fuel Getenv) [] (λ _ _, True).
Proof.
  unfold orphan_Reconcile. destruct (_ || _); [done|]. apply wp_bind. split; [done|]. intros namespace. cbn [bind wp].
  destruct (ClusterUID_of (Some namespace)) as [uid|e]; [|done].
  apply wp_bind. unfold getAllVPCInstances. split; [done|]. intros [e|]; [done|]. apply wp_try. split; [done|].
  intros [instances|e]; [|done]. cbn [wp]. split; [done|]. intros [nodes|e]; [|done].
  split; [done|]. intros [claims|e]; [|done]. apply wp_bind.
  eapply wp_mono; [|apply consider_all_wp]; [by intros ? [|]|].
  apply Forall_forall. intros [id i] Hin Hne. cbn [fst] in *.
  rewrite map_range_elem_of, elem_of_map_to_list in Hin. apply instances_by_id_lookup in Hin as [Hi Hid].
  exists instances, i, nodes, claims. split_and!; try done;
    [do 2 right; by left|right; by left|by left].
Qed.
End safety.

(** C10. Orphan cleanup is off unless it was enabled, and deletes an instance only
    when the cloud listed it and no Node or NodeClaim referred to it, it is at
    least the timeout old when read again, its tags, of which each ownership
    tag has one value, name this cluster, a claim and a class, the claim is
    none of the cluster's, and, looked up last, no claim and no Node refers to the
    instance.  It changes nothing else. *)
Theorem orphan_deletes_only_unknown `{MapRange} c fuel Getenv tr r
    (Hrun : runs (orphan_Reconcile c fuel Getenv) tr r) :
  ∀ before R (e : ctl_call R) answer after,
    tr = before ++ Did e answer :: after → orphan_guard c Getenv (reverse before) R e.
Proof.
  destruct (isOrphanCleanupEnabled Getenv) eqn:He.
  - by destruct (guarded_run _ _ _ _ _ (orphan_wp c fuel Getenv He) Hrun).
  - revert Hrun. unfold orphan_Reconcile. rewrite He. cbn. intros [-> _] before R e answer after Heq.
    by destruct before.
Qed.

(** A cluster with one instance that lost its claim. *)
Definition orphan : Instance :=
  {| inst_ID := Some "instance-1"; inst_Name := Some "karpenter-1"; inst_Status := Some "running";
     inst_CRN := Some "crn:1"; inst_Profile := Some "bx2.2x8"; inst_Zone := Some "us-south-1"; inst_VPC := Some "vpc-1";
     inst_Image := None; inst_ResourceGroup := None; PrimaryNetworkAttachment := None;
     PrimaryNetworkInterface := None; AvailabilityClass := None; CreatedAt := Some 0%Z; StatusReasons := [] |}%string.

Definition orphan_world : world :=
  {| w_nodes := []; w_claims := []; w_classes := [];
     w_cluster := {| Name := "kube-system"; UID := "uid-cluster"; ResourceVersion := "1"; Generation := 1;
       DeletionTimestamp := None; CreationTimestamp := 0; Labels := ∅; Annotations := ∅; Finalizers := [] |}%string;
     w_instances := [orphan];
     w_tags := [Some (ManagedTag +:+ ":true"); None; Some (ProviderTag +:+ ":vpc"); Some "team:infra"; Some "plain";
       Some (ClusterUIDTag +:+ ":uid-cluster"); Some (ClaimUIDTag +:+ ":uid-claim");
       Some (NodeClassUIDTag +:+ ":uid-class")]%string;
     w_absent := None; w_now := GoTime.Hour |}.

Definition orphan_controller : controller :=
  {| has_ibmClient := true; has_globalTagging := true; orphanTimeout := DefaultOrphanTimeout |}.

Lemma orphan_deletes_only_unknown_witness : ∃ tr r before, runs (orphan_Reconcile orphan_controller 2 (λ _, "true"%string)) tr r ∧
  deletions tr = [DeletedInstance "instance-1"%string] ∧
  may_delete_orphan orphan_controller (reverse before) "instance-1"%string.
Proof.
  pose proof (interp_runs (world_handle orphan_world) (orphan_Reconcile orphan_controller 2 (λ _, "true"%string)) tt) as Hrun.
  remember (interp _ _ _).1.1 as tr eqn:Htr. remember (interp _ _ _).1.2 as r eqn:Hr in Hrun.
  assert (Hd : deletions tr = [DeletedInstance "instance-1"%string]) by (rewrite Htr; by vm_compute).
  destruct (deletions_instance tr "instance-1"%string) as (before & answer & after & Hsplit); [rewrite Hd; by left|].
  exists tr, r, before. split_and!; [done|done|].
  by destruct (orphan_deletes_only_unknown orphan_controller 2 (λ _, "true"%string) tr r Hrun
    before _ (CDeleteInstance "instance-1"%string) answer after Hsplit).
Defined.

(** ** The listing of tags is complete *)
Local Open Scope nat_scope.
Local Open Scope list_scope.

(** A service that has the tags [all] of an instance, and answers a page from
    the offset: with the total, and at least one tag as long as there is one; or
    without, and then full pages but the last. *)
Definition serves (all : list (option string)) (ev : event ctl_call) : Prop :=
  match ev with
  | Did e r =>
      match e in ctl_call R return R → Prop with
      | CListTags crn offset => λ answer, ∃ n page, answer = Ok (Some page) ∧
          tag_Items page = firstn n (skipn (Z.to_nat offset) all) ∧
          (TotalCount page = Some (Z.of_nat (length all)) ∧ 0 < n ∨ TotalCount page = None ∧ n = page_limit)
      | _ => λ _, True
      end r
  end.

Lemma tags_loop_complete all fuel crn offset tags tr r :
  runs (tags_loop fuel crn (Z.of_nat offset) tags) tr r → Forall (serves all) tr →
  offset ≤ length all → length all - offset < fuel → r = Some (add_tags (skipn offset all) tags).
Proof.
  revert offset tags tr. induction fuel as [|fuel IH]; intros offset tags tr Hr Hall Ho Hf; [lia|].
  cbn [tags_loop runs] in Hr. destruct Hr as (answer & tr' & -> & Hr).
  inversion Hall as [|? ? Hserve Hall']; subst. destruct Hserve as (n & page & -> & Hitems & Htotal).
  rewrite Nat2Z.id in Hitems. cbv zeta in Hr.
  set (rest := skipn offset all) in *.
  assert (Hlen : length rest = length all - offset) by apply length_skipn.
  assert (Hitemslen : length (tag_Items page) = n `min` length rest) by (rewrite Hitems; apply length_firstn).
  assert (Hsplit : add_tags rest tags = match add_tags (tag_Items page) tags with
    | Ok tags' => add_tags (skipn (offset + length (tag_Items page)) all) tags' | Err e => Err e end).
  { rewrite <-(firstn_skipn n rest) at 1. rewrite add_tags_app, <-Hitems.
    destruct (add_tags (tag_Items page) tags) as [tags'|]; [|done]. f_equal.
    unfold rest. rewrite skipn_skipn, Hitemslen.
    destruct (decide (n ≤ length rest)); [f_equal; lia|].
    rewrite !skipn_all2; [done|lia|lia]. }
  rewrite Hsplit. destruct (add_tags (tag_Items page) tags) as [tags'|e]; [|by destruct Hr as [_ <-]].
  assert (Hend : length all ≤ offset + length (tag_Items page) →
    runs (Ret (Some (Ok tags'))) tr' r → r = Some (add_tags (skipn (offset + length (tag_Items page)) all) tags')).
  { intros Hge [_ <-]. by rewrite skipn_all2. }
  assert (Hnext : offset + length (tag_Items page) ≤ length all → 0 < length (tag_Items page) →
    runs (tags_loop fuel crn (Z.of_nat offset + Z.of_nat (length (tag_Items page))) tags') tr' r →
    r = Some (add_tags (skipn (offset + length (tag_Items page)) all) tags')).
  { intros Hle Hpos Hrun. rewrite <-Nat2Z.inj_add in Hrun. eapply IH; [exact Hrun|done|lia|lia]. }
  destruct Htotal as [[Ht Hn]|[Ht ->]]; rewrite Ht in Hr.
  - destruct (Z.leb_spec (Z.of_nat (length all)) (Z.of_nat offset + Z.of_nat (length (tag_Items page)))); [apply Hend; [lia|done]|].
    destruct (Nat.eqb_spec (length (tag_Items page)) 0); [lia|]. apply Hnext; [lia|lia|done].
  - destruct (Nat.ltb_spec (length (tag_Items page)) page_limit); [apply Hend; [unfold page_limit in *; lia|done]|].
    apply Hnext; [lia|unfold page_limit in *; lia|done].
Qed.

(** The loop over the pages of an instance's tags ends, and with what all its
    tags say: with more fuel than the instance has tags, whatever the
    size of the pages and whether or not the service tells the total. *)
Theorem tags_listing_complete c fuel crn all tr r
    (Htagging : has_globalTagging c = true) (Hcrn : crn ≠ ""%string) (Hfuel : length all < fuel)
    (Hrun : runs (instanceTags c fuel (Some crn)) tr r) (Hserves : Forall (serves all) tr) :
  r = Some (add_tags all ∅).
Proof.
  unfold instanceTags, empty in Hrun. rewrite Htagging in Hrun.
  destruct (String.eqb_spec crn ""); [done|]. cbn [orb negb] in Hrun.
  apply (tags_loop_complete all fuel crn 0 ∅ tr r Hrun Hserves); lia.
Qed.

Lemma tags_listing_complete_witness : ∃ tr r, runs (instanceTags orphan_controller 9 (Some "crn:1"%string)) tr r ∧
  r = Some (add_tags (w_tags orphan_world) ∅) ∧
  match r with Some (Ok tags) => tags_ours tags = true | _ => False end.
Proof.
  pose proof (interp_runs (world_handle orphan_world) (instanceTags orphan_controller 9 (Some "crn:1"%string)) tt) as Hrun.
  eexists _, _. split_and!; [exact Hrun| |by vm_compute].
  apply (tags_listing_complete orphan_controller 9 "crn:1"%string (w_tags orphan_world) _ _ eq_refl
    ltac:(done) ltac:(cbn; lia) Hrun).
  apply Forall_forall. intros ev Hin.
  assert (Hd : (interp (world_handle orphan_world) (instanceTags orphan_controller 9 (Some "crn:1"%string)) tt).1.1
    = [Did (CListTags "crn:1"%string 0) (Ok (Some {| tag_Items := w_tags orphan_world; TotalCount := Some 8%Z |}))])
    by (by vm_compute).
  rewrite Hd in Hin. apply list_elem_of_singleton in Hin as ->.
  exists 100, {| tag_Items := w_tags orphan_world; TotalCount := Some 8%Z |}. split_and!; [done|done|left; split; [done|lia]].
Defined.
