(* ===== verification/PoolCleanup.v ===== *)
(** * PoolCleanup: the controller of empty worker pools

    [pkg/controllers/iks/poolcleanup/controller.go] around [TryDeleteEmptyPool]
    of IksCleanup: it remembers since when a pool was seen empty, deletes the
    pool once that is the class's time to live ago, and releases the
    reservations of deleted pools.  The memory of the controller is passed from
    pass to pass. *)
From stdpp Require Import prelude list strings gmap.
From S2P Require Import Prelude GoLib GoSort GoDuration GoRegexp Errors NodeClass ProviderIDs Ownership Prog Kube.
From S2P Require Import IksApi IksAllocation IksLaunch IksLaunchSafety IksCleanup IksCleanupSafety IksExample ControllerApi.
Import Strings.

Open Scope string_scope.
Local Open Scope prog_scope.

(** The calls of the IKS backend and the listings of the controller. *)
Inductive pool_call : Type → Type :=
  | PIks {R} (e : iks_call R) : pool_call R
  | PListClasses : pool_call (result GoErrors.error (list IBMNodeClass))
  | PListWorkerPools (clusterID : string) : pool_call (result GoErrors.error (list (option WorkerPool)))
  | PListReservations (namespace clusterUID : string) : pool_call (result GoErrors.error (list ConfigMap)).

Local Abbreviation history := (history pool_call).
Local Abbreviation prog := (prog pool_call).
Local Abbreviation pl A := (prog (result GoErrors.error A)).

Definition iks_event : event iks_call → event pool_call := embed_event (λ R e, PIks e).

(** Since when a pool has been seen empty, by cluster and pool. *)
Abbreviation tracking := (gmap string Z).
Definition pool_key (clusterID poolID : string) : string := clusterID ++ "/" ++ poolID.

Definition DefaultEmptyPoolTTL : Z := (15 * GoTime.Minute)%Z.

Section controller.
Context `{Stdlib} `{Karpenter} `{MapRange} (Getenv : string → string).

Definition namespace : string :=
  let namespace := Getenv "POD_NAMESPACE" in if empty namespace then "karpenter" else namespace.

Definition pools_enabled (c : IBMNodeClass) : bool :=
  match IKSDynamicPools (Spec c) with Some config => Enabled config | None => false end.
Definition isCleanupEnabled (c : IBMNodeClass) : bool :=
  match IKSDynamicPools (Spec c) with
  | Some config =>
      match CleanupPolicy config with
      | Some policy => match DeleteOnEmpty policy with Some b => b | None => true end
      | None => true
      end
  | None => true
  end.
Definition getEmptyPoolTTL (c : IBMNodeClass) : Z :=
  match IKSDynamicPools (Spec c) with
  | Some config =>
      match CleanupPolicy config with
      | Some policy =>
          match Duration.ParseDuration (EmptyPoolTTL policy) with
          | Some ttl => if (0 <=? ttl)%Z then ttl else DefaultEmptyPoolTTL
          | None => DefaultEmptyPoolTTL
          end
      | None => DefaultEmptyPoolTTL
      end
  | None => DefaultEmptyPoolTTL
  end.

Definition isKarpenterManaged (pool : WorkerPool) : bool :=
  String.eqb (get (pool_Labels pool) ManagedLabel) "true".

(** [target]: the account and region of the client. *)
Definition client_target (client : IKSClient) : result GoErrors.error (string * string) :=
  match target client with
  | Some (accountID, region) =>
      if empty accountID || empty region
      then Err (GoErrors.New "IKS pool cleanup client has no account and region identity")
      else Ok (accountID, region)
  | None => Err (GoErrors.New "IKS pool cleanup client has no account and region identity")
  end.

Definition reader_ClusterUID : pl string :=
  bind (call (PIks (GetNamespace "kube-system"))) (λ answer, Ret (ClusterUID_of (Some answer))).

(** A pool of this cluster and class that belongs to no claim. *)
Definition class_pool (clusterUID : string) (nodeClass : IBMNodeClass) (pool : WorkerPool) : bool :=
  isKarpenterManaged pool && String.eqb (get (pool_Labels pool) ProviderLabel) "iks" &&
  String.eqb (get (pool_Labels pool) ClusterUIDLabel) clusterUID && negb (empty (UID (nc_meta nodeClass))) &&
  String.eqb (get (pool_Labels pool) NodeClassUIDLabel) (UID (nc_meta nodeClass)) &&
  empty (get (pool_Labels pool) ClaimUIDLabel).

Definition pool_empty (pool : WorkerPool) : bool := ((SizePerZone pool =? 0) && (ActualSize pool =? 0))%Z.

(** The class is still the one that was listed, and still wants the cleanup. *)
Definition class_unchanged (nodeClass fresh : IBMNodeClass) (clusterID : string) : bool :=
  String.eqb (UID (nc_meta fresh)) (UID (nc_meta nodeClass)) &&
  String.eqb (IKSClusterID (Spec fresh)) clusterID && isCleanupEnabled fresh && pools_enabled fresh.

(** The deletion of a pool that has been empty for long enough. *)
Definition delete_pool (nodeClass : IBMNodeClass) (clusterID clusterUID accountID region : string)
    (pool : WorkerPool) (m : tracking) : prog (tracking * list GoErrors.error) :=
  answer ⟵ PIks (GetNodeClass (Name (nc_meta nodeClass)));
  match answer with
  | Err e => Ret (m, [e])
  | Ok fresh =>
      if negb (class_unchanged nodeClass fresh clusterID) then Ret (m, [])
      else
        bind (embed (λ R e, PIks e)
                (TryDeleteEmptyPool true true clusterID clusterUID (UID (nc_meta nodeClass)) namespace
                   (Some pool) accountID region)) (λ deleted,
        match deleted with
        | Err e => Ret (m, [e])
        | Ok true => Ret (delete (pool_key clusterID (pool_ID pool)) m, [])
        | Ok false => Ret (m, [])
        end)
  end.

(** One round of the loop over the pools. *)
Definition visit_pool (nodeClass : IBMNodeClass) (clusterID clusterUID accountID region : string)
    (pool : option WorkerPool) (m : tracking) : prog (tracking * list GoErrors.error) :=
  match pool with
  | None => Ret (m, [])
  | Some pool =>
      if negb (class_pool clusterUID nodeClass pool) then Ret (m, [])
      else
        let key := pool_key clusterID (pool_ID pool) in
        if negb (pool_empty pool) then Ret (delete key m, [])
        else
          match m !! key with
          | None => now ⟵ PIks Now; Ret (<[key := now]> m, [])
          | Some since =>
              now ⟵ PIks Now;
              if (GoTime.Sub now since <? getEmptyPoolTTL nodeClass)%Z then Ret (m, [])
              else delete_pool nodeClass clusterID clusterUID accountID region pool m
          end
  end.

Fixpoint visit_pools (nodeClass : IBMNodeClass) (clusterID clusterUID accountID region : string)
    (pools : list (option WorkerPool)) (m : tracking) : prog (tracking * list GoErrors.error) :=
  match pools with
  | [] => Ret (m, [])
  | pool :: pools' =>
      bind (visit_pool nodeClass clusterID clusterUID accountID region pool m) (λ '(m, errs),
      bind (visit_pools nodeClass clusterID clusterUID accountID region pools' m) (λ '(m, errs'),
      Ret (m, (errs ++ errs')%list)))
  end.

Definition cleanupEmptyPools (client : IKSClient) (nodeClass : IBMNodeClass) (m : tracking) : prog (tracking * err) :=
  let clusterID := IKSClusterID (Spec nodeClass) in
  match client_target client with
  | Err e => Ret (m, Some e)
  | Ok (accountID, region) =>
      if negb (String.eqb region (Region (Spec nodeClass)))
      then Ret (m, Some (GoErrors.New "IKS pool cleanup client region differs from NodeClass region"))
      else
        bind reader_ClusterUID (λ uid,
        match uid with
        | Err e => Ret (m, Some e)
        | Ok clusterUID =>
            answer ⟵ PListWorkerPools clusterID;
            match answer with
            | Err e => Ret (m, Some (wrapped_ "listing worker pools" e))
            | Ok pools =>
                bind (visit_pools nodeClass clusterID clusterUID accountID region pools m) (λ '(m, errs),
                Ret (m, JoinErrors errs))
            end
        end)
  end.

(** The loop over the classes. *)
Definition wants_cleanup (c : IBMNodeClass) : bool :=
  pools_enabled c && isCleanupEnabled c && negb (empty (IKSClusterID (Spec c))).

Fixpoint cleanup_classes (client : IKSClient) (classes : list IBMNodeClass) (m : tracking)
    : prog (tracking * list GoErrors.error) :=
  match classes with
  | [] => Ret (m, [])
  | nodeClass :: classes' =>
      if negb (wants_cleanup nodeClass) then cleanup_classes client classes' m
      else
        bind (cleanupEmptyPools client nodeClass m) (λ '(m, e),
        bind (cleanup_classes client classes' m) (λ '(m, errs),
        Ret (m, match e with Some e => e :: errs | None => errs end)))
  end.

(** ** Reservations of deleted pools *)
Definition releasable (cm : ConfigMap) : bool :=
  String.eqb (get (Data cm) ReservationCleanupKey) "true" &&
  String.eqb (get (Data cm) ReservationPhaseKey) "deleting" &&
  negb (empty (get (Data cm) ReservationClusterIDKey)) && negb (empty (get (Data cm) ReservationPoolIDKey)).

Fixpoint release_all (accountID region : string) (reservations : list ConfigMap) : prog err :=
  match reservations with
  | [] => Ret None
  | cm :: reservations' =>
      if negb (releasable cm) then release_all accountID region reservations'
      else if negb (String.eqb (get (Data cm) ReservationAccountIDKey) accountID) ||
              negb (String.eqb (get (Data cm) ReservationRegionKey) region)
      then Ret (Some (GoErrors.New "IKS pool cleanup target changed; retaining reservation"))
      else
        answer ⟵ PIks (GetWorkerPool (get (Data cm) ReservationClusterIDKey) (get (Data cm) ReservationPoolIDKey));
        match snd answer with
        | None => release_all accountID region reservations'
        | Some e =>
            if negb (IsNotFound (Some e)) then Ret (Some e)
            else
              e ⟵ PIks (DeleteConfigMap cm (UID (cm_meta cm)) (ResourceVersion (cm_meta cm)));
              match IgnoreNotFound e with
              | Some e => Ret (Some e)
              | None => release_all accountID region reservations'
              end
        end
  end.

Definition releaseDeletedReservations (client : IKSClient) : prog err :=
  match client_target client with
  | Err e => Ret (Some e)
  | Ok (accountID, region) =>
      bind reader_ClusterUID (λ uid,
      match uid with
      | Err e => Ret (Some e)
      | Ok clusterUID =>
          answer ⟵ PListReservations namespace clusterUID;
          match answer with
          | Err e => Ret (Some e)
          | Ok reservations => release_all accountID region reservations
          end
      end)
  end.

(** [Reconcile]; the IKS client the controller was given, and whether it has an
    IBM client to get one from. *)
Definition pool_Reconcile (iksClient : option IKSClient) (has_ibmClient : bool) (m : tracking)
    : prog (tracking * (Result * err)) :=
  let result := {| RequeueAfter := GoTime.Minute |} in
  let with_client client :=
    answer ⟵ PListClasses;
    match answer with
    | Err e => Ret (m, (no_requeue, Some e))
    | Ok classes =>
        bind (cleanup_classes client classes m) (λ '(m, errs),
        bind (releaseDeletedReservations client) (λ e,
        Ret (m, (result, JoinErrors (errs ++ option_list e)%list))))
    end in
  match iksClient with
  | Some client => with_client client
  | None =>
      if negb has_ibmClient then Ret (m, (result, None))
      else
        answer ⟵ PIks GetIKSClient;
        match answer with
        | Err e => Ret (m, (no_requeue, Some e))
        | Ok client => with_client client
        end
  end.
End controller.

(** ** What it guarantees *)
Local Open Scope list_scope.

Section safety.
Context `{Stdlib} `{Karpenter} `{MapRange} (Getenv : string → string).
Context (iksClient : option IKSClient) (has_ibmClient : bool).

(** A pool of the key was listed as empty, then the clock said [since]. *)
Definition seen_empty (h : history) (key : string) (since : Z) : Prop :=
  ∃ later before clusterID pools pool, h = later ++ Did (PIks Now) since :: before ∧
    asked before (PListWorkerPools clusterID) (Ok pools) ∧ Some pool ∈ pools ∧ pool_empty pool = true ∧
    pool_key clusterID (pool_ID pool) = key.

(** What the controller remembers was seen. *)
Definition remembered (m : tracking) (h : history) : Prop :=
  ∀ key since, m !! key = Some since → seen_empty h key since.

(** The history, newest first, in which a pool may be deleted: that of
    [TryDeleteEmptyPool], after the class was read again unchanged, when the
    pool, listed as empty in this pass, was seen empty its time to live ago. *)
Definition may_delete_pool (h : history) (c id : string) : Prop :=
  ∃ attempt before nodeClass fresh classes pools pool clusterUID accountID region now since,
    h = map iks_event attempt ++ Did (PIks (GetNodeClass (Name (nc_meta nodeClass)))) (Ok fresh)
        :: Did (PIks Now) now :: before ∧
    may_delete_empty c clusterUID (UID (nc_meta nodeClass)) (namespace Getenv) accountID region pool attempt c id ∧
    id = pool_ID pool ∧
    asked before PListClasses (Ok classes) ∧ nodeClass ∈ classes ∧ wants_cleanup nodeClass = true ∧
    class_unchanged nodeClass fresh c = true ∧
    asked before (PListWorkerPools c) (Ok pools) ∧ Some pool ∈ pools ∧ pool_empty pool = true ∧
    class_pool clusterUID nodeClass pool = true ∧
    seen_empty before (pool_key c id) since ∧ (getEmptyPoolTTL nodeClass ≤ GoTime.Sub now since)%Z.

Definition is_client (h : history) (client : IKSClient) : Prop :=
  iksClient = Some client ∨ iksClient = None ∧ asked h (PIks GetIKSClient) (Ok client).

(** The history in which a reservation may be deleted: it was marked for its
    pool's deletion by this account and region, and the pool is gone. *)
Definition may_release_reservation (h : history) (cm : ConfigMap) (uid version : string) : Prop :=
  ∃ client clusterUID reservations answer e before,
    h = Did (PIks (GetWorkerPool (get (Data cm) ReservationClusterIDKey) (get (Data cm) ReservationPoolIDKey))) (answer, Some e)
        :: before ∧
    IsNotFound (Some e) = true ∧ is_client before client ∧
    client_target client = Ok (get (Data cm) ReservationAccountIDKey, get (Data cm) ReservationRegionKey) ∧
    asked before (PListReservations (namespace Getenv) clusterUID) (Ok reservations) ∧ cm ∈ reservations ∧
    releasable cm = true ∧ uid = UID (cm_meta cm) ∧ version = ResourceVersion (cm_meta cm).

Definition pool_guard : guard := λ h R e,
  match e with
  | PIks e =>
      match e with
      | DeleteWorkerPool c id => may_delete_pool h c id
      | DeleteConfigMap cm uid version => may_release_reservation h cm uid version
      | CreateWorkerPool _ _ | DeleteNode _ _ => False
      | _ => True
      end
  | _ => True
  end.

Lemma seen_grows l h key since : seen_empty h key since → seen_empty (l ++ h) key since.
Proof.
  intros (later & before & c & pools & pool & -> & Hs). exists (l ++ later), before, c, pools, pool.
  by rewrite (assoc_L (++)).
Qed.

Lemma remembered_grows m l h : remembered m h → remembered m (l ++ h).
Proof. intros Hm key since Hk. by apply seen_grows, Hm. Qed.

Lemma remembered_delete m h key : remembered m h → remembered (delete key m) h.
Proof. intros Hm k since [_ Hk]%lookup_delete_Some. by apply Hm. Qed.

(** The postcondition of every step: the memory is still justified. *)
Local Abbreviation keeps h := (λ h' '((m', _) : tracking * list GoErrors.error), remembered m' h' ∧ ∃ l, h' = l ++ h).

Section pass.
Context (nodeClass : IBMNodeClass) (clusterUID accountID region : string) (pools : list (option WorkerPool)).
Local Abbreviation clusterID := (IKSClusterID (Spec nodeClass)).

(** The listings of this pass. *)
Definition listings (h : history) : Prop :=
  (∃ classes, asked h PListClasses (Ok classes) ∧ nodeClass ∈ classes) ∧ wants_cleanup nodeClass = true ∧
  asked h (PListWorkerPools clusterID) (Ok pools).

Lemma listings_grow l h : listings h → listings (l ++ h).
Proof.
  intros ((classes & ? & ?) & ? & ?). split_and!; [exists classes; split|..]; try done; by apply asked_app.
Qed.

Lemma delete_pool_wp pool m now since h :
  listings h → Some pool ∈ pools → pool_empty pool = true → class_pool clusterUID nodeClass pool = true →
  seen_empty h (pool_key clusterID (pool_ID pool)) since → (getEmptyPoolTTL nodeClass ≤ GoTime.Sub now since)%Z →
  remembered m h →
  wp pool_guard (delete_pool Getenv nodeClass clusterID clusterUID accountID region pool m)
    (Did (PIks Now) now :: h) (keeps h).
Proof.
  intros ((classes & Hc & Hin) & Hw & Hp) Hpool Hempty Hours Hseen Httl Hm. unfold delete_pool.
  assert (Hkeep : ∀ l, remembered m (l ++ h) ∧ ∃ l', l ++ h = l' ++ h).
  { intros l. split; [by apply remembered_grows|by exists l]. }
  split; [done|]. intros [fresh|e]; [|exact (Hkeep [_; _])].
  destruct (class_unchanged nodeClass fresh clusterID) eqn:Eu; cbn [negb]; [|exact (Hkeep [_; _])].
  apply wp_bind. eapply wp_mono; [|apply (wp_embed _ (empty_guard clusterID clusterUID (UID (nc_meta nodeClass))
    (namespace Getenv) accountID region pool) pool_guard _ []); [|apply try_delete_pool_wp]].
  - intros h' [[|]|e] (attempt & -> & _);
      rewrite (assoc_L (++) (map _ attempt) [_; _] h : _ ++ _ :: _ :: h = _); split;
      try apply remembered_delete; try apply Hkeep; by eexists.
  - intros attempt R e Hg. destruct e; try done. cbn in Hg. cbn.
    pose proof Hg as (? & ? & ? & ? & ? & ? & ? & ? & ? & _ & Hid1 & Hid2 & _). rewrite Hid1, Hid2 in Hg |- *.
    exists attempt, h, nodeClass, fresh, classes, pools, pool, clusterUID, accountID, region, now, since.
    by split_and!.
Qed.

Lemma visit_pool_wp pool m h :
  listings h → pool ∈ pools → remembered m h →
  wp pool_guard (visit_pool Getenv nodeClass clusterID clusterUID accountID region pool m) h (keeps h).
Proof.
  intros Hl Hpool Hm. assert (Hdone : remembered m h ∧ ∃ l, h = l ++ h) by (split; [done|by exists []]).
  unfold visit_pool. destruct pool as [pool|]; [|done].
  destruct (class_pool clusterUID nodeClass pool) eqn:Ec; cbn [negb]; [|done].
  destruct (pool_empty pool) eqn:Ee; cbn [negb].
  2:{ split; [by apply remembered_delete|by exists []]. }
  destruct (m !! _) as [since|] eqn:Em.
  - split; [done|]. intros now. destruct (Z.ltb_spec (GoTime.Sub now since) (getEmptyPoolTTL nodeClass)).
    + split; [by apply (remembered_grows _ [_])|by exists [Did (PIks Now) now]].
    + by eapply delete_pool_wp; eauto.
  - split; [done|]. intros now. split; [|by exists [Did (PIks Now) now]].
    intros key since Hk. destruct (decide (pool_key clusterID (pool_ID pool) = key)) as [<-|Hne].
    + rewrite lookup_insert_eq in Hk. injection Hk as <-. destruct Hl as (_ & _ & Hp).
      exists [], h, clusterID, pools, pool. by split_and!.
    + rewrite lookup_insert_ne in Hk by done. by apply (seen_grows [_]), Hm.
Qed.

Lemma visit_pools_wp visited m h :
  listings h → (∀ pool, pool ∈ visited → pool ∈ pools) → remembered m h →
  wp pool_guard (visit_pools Getenv nodeClass clusterID clusterUID accountID region visited m) h (keeps h).
Proof.
  revert m h. induction visited as [|pool visited IH]; intros m h Hl Hin Hm; cbn [visit_pools].
  { split; [done|by exists []]. }
  apply wp_bind. eapply wp_mono; [|apply visit_pool_wp; [done|apply Hin; by left|done]].
  intros h' [m' errs] [Hm' [l ->]]. apply wp_bind.
  eapply wp_mono; [|apply IH; [by apply listings_grow|intros; apply Hin; by right|done]].
  intros h' [m'' errs'] [Hm'' [l' ->]]. split; [done|]. exists (l' ++ l). by rewrite (assoc_L (++)).
Qed.
End pass.

Lemma uid_wp h (Q : history → result GoErrors.error string → Prop) :
  (∀ l r, Q (l ++ h) r) → wp pool_guard reader_ClusterUID h Q.
Proof. intros HQ. split; [done|]. intros r. exact (HQ [_] _). Qed.

Lemma cleanup_classes_wp client classes visited m h :
  asked h PListClasses (Ok classes) → (∀ c, c ∈ visited → c ∈ classes) → remembered m h →
  wp pool_guard (cleanup_classes Getenv client visited m) h (keeps h).
Proof.
  revert m h. induction visited as [|nodeClass visited IH]; intros m h Hc Hin Hm; cbn [cleanup_classes].
  { split; [done|by exists []]. }
  destruct (wants_cleanup nodeClass) eqn:Ew; cbn [negb]; [|apply IH; [done|intros; apply Hin; by right|done]].
  apply wp_bind. apply (wp_mono _ _ _ (λ h' '((m', _) : tracking * err), remembered m' h' ∧ ∃ l, h' = l ++ h)).
  { intros h' [m' e] [Hm' [l ->]]. apply wp_bind.
    eapply wp_mono; [|apply IH; [by apply asked_app|intros; apply Hin; by right|done]].
    intros h' [m'' errs] [Hm'' [l' ->]]. split; [done|]. exists (l' ++ l). by rewrite (assoc_L (++)). }
  assert (Hkeep : ∀ l, remembered m (l ++ h) ∧ ∃ l', l ++ h = l' ++ h).
  { intros l. split; [by apply remembered_grows|by exists l]. }
  unfold cleanupEmptyPools. cbv zeta. destruct (client_target client) as [[accountID region]|e]; [|exact (Hkeep [])].
  destruct (negb _); [exact (Hkeep [])|]. apply wp_bind, uid_wp. intros l [clusterUID|e]; [|exact (Hkeep l)].
  split; [done|]. intros [pools|e]; [|exact (Hkeep (_ :: l))]. apply wp_bind.
  eapply wp_mono; [|apply (visit_pools_wp nodeClass clusterUID accountID region pools)]; [| |done|].
  - intros h' [m' errs] [Hm' [l' ->]]. split; [done|].
    exists (l' ++ Did (PListWorkerPools (IKSClusterID (Spec nodeClass))) (Ok pools) :: l). by rewrite <-(assoc_L (++)).
  - split_and!; [|done|by left]. exists classes. split; [|apply Hin; by left]. right. by apply asked_app.
  - exact (proj1 (Hkeep (_ :: l))).
Qed.

Lemma release_all_wp client clusterUID accountID region reservations visited h :
  client_target client = Ok (accountID, region) → is_client h client →
  asked h (PListReservations (namespace Getenv) clusterUID) (Ok reservations) →
  (∀ cm, cm ∈ visited → cm ∈ reservations) →
  wp pool_guard (release_all accountID region visited) h (λ h' _, ∃ l, h' = l ++ h).
Proof.
  intros Ht. revert h. induction visited as [|cm visited IH]; intros h Hcl Hr Hin; cbn [release_all].
  { by exists []. }
  assert (Hrest : ∀ l, wp pool_guard (release_all accountID region visited) (l ++ h) (λ h' _, ∃ l, h' = l ++ h)).
  { intros l. eapply wp_mono; [|apply IH; [|by apply asked_app|intros; apply Hin; by right]].
    - intros h' _ [l' ->]. exists (l' ++ l). by rewrite (assoc_L (++)).
    - destruct Hcl as [|[]]; [by left|right; split; [done|by apply asked_app]]. }
  destruct (releasable cm) eqn:Er; cbn [negb]; [|exact (Hrest [])].
  destruct (_ || _) eqn:Ed; [by exists []|]. bool_to_prop.
  split; [done|]. intros [answer [e|]]; cbn [snd]; [|exact (Hrest [_])].
  destruct (IsNotFound (Some e)) eqn:En; cbn [negb]; [|by eexists [_]].
  split.
  - exists client, clusterUID, reservations, answer, e, h. split_and!; try done; [congruence|apply Hin; by left].
  - intros e'. destruct (IgnoreNotFound e'); [|exact (Hrest [_; _])].
    by eexists [_; _].
Qed.

Lemma pool_wp m h :
  remembered m h →
  wp pool_guard (pool_Reconcile Getenv iksClient has_ibmClient m) h (λ h' '(m', _), remembered m' h').
Proof.
  intros Hm. unfold pool_Reconcile. cbv zeta.
  assert (Hwith : ∀ l client, is_client (l ++ h) client →
    wp pool_guard (answer ⟵ PListClasses;
      match answer with
      | Err e => Ret (m, (no_requeue, Some e))
      | Ok classes =>
          bind (cleanup_classes Getenv client classes m) (λ '(m, errs),
          bind (releaseDeletedReservations Getenv client) (λ e,
          Ret (m, ({| RequeueAfter := GoTime.Minute |}, JoinErrors (errs ++ option_list e)))))
      end)%prog (l ++ h) (λ h' '(m', _), remembered m' h')).
  { intros l client Hcl. split; [done|]. intros [classes|e]; [|by apply (remembered_grows m (_ :: l))].
    apply wp_bind. eapply wp_mono; [|apply (cleanup_classes_wp client classes); [by left|done|
      by apply (remembered_grows m (_ :: l))]].
    intros h' [m' errs] [Hm' [l' ->]]. apply wp_bind.
    apply (wp_mono _ _ _ (λ h'' _, ∃ l'', h'' = l'' ++ l' ++ Did PListClasses (Ok classes) :: l ++ h)).
    { intros h'' e [l'' ->]. by apply remembered_grows. }
    unfold releaseDeletedReservations. destruct (client_target client) as [[accountID region]|e] eqn:Et; [|by exists []].
    apply wp_bind, uid_wp. intros l2 [clusterUID|e]; [|by exists l2]. split; [done|].
    intros [reservations|e]; [|by exists (Did (PListReservations (namespace Getenv) clusterUID) (Err e) :: l2)].
    eapply wp_mono; [|apply (release_all_wp client clusterUID accountID region reservations)]; [|done| |by left|done].
    - intros h'' _ [l3 ->]. exists (l3 ++ Did (PListReservations (namespace Getenv) clusterUID) (Ok reservations) :: l2).
      by rewrite <-(assoc_L (++)).
    - destruct Hcl as [|[]]; [by left|right; split; [done|]]. right. do 2 apply asked_app. right. done. }
  destruct iksClient as [client|] eqn:Ei; [apply (Hwith []); by left; rewrite Ei|].
  destruct has_ibmClient; [|done]. cbn [negb]. split; [done|]. intros [client|e]; [|by apply (remembered_grows m [_])].
  apply (Hwith [Did (PIks GetIKSClient) (Ok client)]). right. split; [done|by left].
Qed.

(** ** Passes *)

(** The history and the memory after some passes of a fresh controller. *)
Inductive passes : history → tracking → Prop :=
  | fresh_controller : passes [] ∅
  | one_pass h m tr m' r :
      passes h m → runs (pool_Reconcile Getenv iksClient has_ibmClient m) tr (m', r) → passes (reverse tr ++ h) m'.

Lemma passes_justified h m : passes h m → justified pool_guard h ∧ remembered m h.
Proof.
  induction 1 as [|h m tr m' r _ [Hj Hm] Hrun]; [split; [apply justified_nil|by intros key since; rewrite lookup_empty]|].
  destruct (wp_sound _ _ _ _ _ _ (pool_wp m h Hm) Hrun) as [Hg HQ]. split; [by apply justified_run|done].
Qed.
End safety.

(** C12. Over any passes of a fresh controller, a pool is deleted only when the
    pass listed it as empty and as a pool of its class and of no claim, it had
    been seen empty at least the class's time to live before, the class was
    read again unchanged, and under all that [TryDeleteEmptyPool] requires; a
    reservation is deleted only when it was left for such a deletion by this account
    and region and its pool is gone, and no pool is created and no node deleted. *)
Theorem pools_deleted_after_ttl `{Stdlib} `{Karpenter} `{MapRange} Getenv iksClient has_ibmClient h m
    (Hpasses : passes Getenv iksClient has_ibmClient h m) :
  ∀ later R (e : pool_call R) answer before,
    h = later ++ Did e answer :: before → pool_guard Getenv iksClient before R e.
Proof.
  intros later R e answer before Heq. destruct (passes_justified _ _ _ _ _ Hpasses) as [Hj _].
  exact (Hj later (Did e answer) before Heq).
Qed.

(** ** Two passes, a quarter of an hour apart *)
Definition pool_serve (now : Z) (R : Type) (e : pool_call R) : cloud → R * cloud :=
  match e in pool_call R return cloud → R * cloud with
  | PIks e =>
      match e in iks_call R return cloud → R * cloud with
      | Now => λ s, (now, s)
      | e => serve _ e
      end
  | PListClasses => λ s, (Ok [class0], s)
  | PListWorkerPools _ => λ s, (Ok [pool_ s], s)
  | PListReservations _ _ => λ s, (Ok [], s)
  end.

Definition pool_client : IKSClient := {| target := Some (account, "us-south"%string) |}.
Definition pass (now : Z) (m : tracking) (s : cloud) :=
  interp (pool_serve now) (pool_Reconcile (λ _, ""%string) (Some pool_client) false m) s.

Definition pass1 := pass 0 ∅ empty_cloud.
Definition pass2 := pass (15 * GoTime.Minute) pass1.1.2.1 pass1.2.
Definition two_passes : history := reverse pass2.1.1 ++ reverse pass1.1.1 ++ [].

Definition pool_deletions (h : history) : list string :=
  omap (λ ev, match ev with
              | Did e _ => match e with PIks e => match e with DeleteWorkerPool _ id => Some id | _ => None end | _ => None end
              end) h.

Lemma pool_deletions_at h id :
  id ∈ pool_deletions h → ∃ later c answer before, h = later ++ Did (PIks (DeleteWorkerPool c id)) answer :: before.
Proof.
  unfold pool_deletions. rewrite list_elem_of_omap. intros ([R e r] & Hin & Hd).
  apply list_elem_of_split in Hin as (later & before & ->). destruct e as [R e| | |]; try done.
  destruct e; try done. injection Hd as ->. by eexists later, _, r, before.
Qed.

Lemma pools_deleted_after_ttl_witness :
  pool_deletions (reverse pass1.1.1) = [] ∧ pool_deletions two_passes = ["pool-9"%string] ∧
  ∃ before c, may_delete_pool (λ _, ""%string) before c "pool-9"%string.
Proof.
  assert (Hp : passes (λ _, ""%string) (Some pool_client) false two_passes pass2.1.2.1).
  { unfold two_passes. apply (one_pass _ _ _ _ pass1.1.2.1 pass2.1.1 _ pass2.1.2.2).
    - apply (one_pass _ _ _ [] ∅ pass1.1.1 _ pass1.1.2.2); [constructor|].
      pose proof (interp_runs (pool_serve 0) (pool_Reconcile (λ _, ""%string) (Some pool_client) false ∅) empty_cloud) as Hr.
      fold (pass 0 ∅ empty_cloud) pass1 in Hr. by destruct pass1.1.2.
    - pose proof (interp_runs (pool_serve (15 * GoTime.Minute))
        (pool_Reconcile (λ _, ""%string) (Some pool_client) false pass1.1.2.1) pass1.2) as Hr.
      fold (pass (15 * GoTime.Minute) pass1.1.2.1 pass1.2) pass2 in Hr. by destruct pass2.1.2. }
  assert (Hd : pool_deletions two_passes = ["pool-9"%string]) by (by vm_compute).
  split_and!; [by vm_compute|done|].
  destruct (pool_deletions_at two_passes "pool-9"%string) as (later & c & answer & before & Heq); [rewrite Hd; by left|].
  exists before, c.
  exact (pools_deleted_after_ttl (λ _, ""%string) (Some pool_client) false _ _ Hp later _
    (PIks (DeleteWorkerPool c "pool-9"%string)) answer before Heq).
Defined.
