(* ===== verification/Interruption.v ===== *)
(** * Interruption: nodes that IBM Cloud interrupts, and preempted instances

    [pkg/controllers/interruption/controller.go]: a node with an interruption
    signal is cordoned and, unless IKS replaces it, deleted in the version
    whose signal was evaluated.  [pkg/controllers/spot/preemption/controller.go]:
    spot instances stopped by preemption are deleted with their claims. *)
From stdpp Require Import prelude list strings gmap.
From S2P Require Import Prelude GoLib GoRegexp Errors NodeClass ProviderIDs Ownership Prog Kube IksAllocation.
From S2P Require Import CapacityType VpcApi IksExample ControllerApi.
Import Strings.

Open Scope string_scope.
Local Open Scope prog_scope.

(** ** Reasons *)
Inductive InterruptionReason :=
  | CapacityUnavailable
  | HostMaintenance
  | InstanceHealthFailed
  | NetworkResourceLimit
  | StorageFailure.

Definition reason_name (r : InterruptionReason) : string :=
  match r with
  | CapacityUnavailable => "capacity-unavailable"
  | HostMaintenance => "host-maintenance"
  | InstanceHealthFailed => "instance-health-failed"
  | NetworkResourceLimit => "network-resource-limit"
  | StorageFailure => "storage-failure"
  end.

Definition InterruptionAnnotation : string := "karpenter-ibm.sh/interruption-detected".
Definition InterruptionReasonAnnotation : string := "karpenter-ibm.sh/interruption-reason".
Definition InterruptionTimeAnnotation : string := "karpenter-ibm.sh/interruption-time".
Definition InterruptionCompletedAnnotation : string := "karpenter-ibm.sh/interruption-completed".

Definition isCapacityRelated (r : InterruptionReason) : bool :=
  match r with CapacityUnavailable | NetworkResourceLimit => true | _ => false end.

(** [None] is the empty reason. *)
Definition parseInterruptionReason (value : string) : option InterruptionReason :=
  List.find (λ r, String.eqb (ToLower (TrimSpace value)) (reason_name r))
    [CapacityUnavailable; NetworkResourceLimit; HostMaintenance; InstanceHealthFailed; StorageFailure].

(** One of the two annotations. *)
Definition signal_of (value : string) : option InterruptionReason :=
  let value := ToLower (TrimSpace value) in
  if String.eqb value "capacity unavailable" then Some CapacityUnavailable
  else if String.eqb value "network resources unavailable" then Some NetworkResourceLimit
  else parseInterruptionReason value.

Definition checkCapacitySignals (node : Node) : option InterruptionReason :=
  let annotations := Annotations (node_meta node) in
  match signal_of (get annotations "ibm-cloud.kubernetes.io/status") with
  | Some r => Some r
  | None =>
      match signal_of (get annotations "ibm-cloud.kubernetes.io/error") with
      | Some r => Some r
      | None =>
          if String.eqb (get annotations "ibm-cloud.kubernetes.io/maintenance") "true"
          then Some HostMaintenance else None
      end
  end.

Definition isNodeInterrupted (node : Node) : option InterruptionReason :=
  if String.eqb (get (Annotations (node_meta node)) InterruptionCompletedAnnotation) "true" then None
  else checkCapacitySignals node.

(** ** Handling *)
Section interruption.
Context `{Stdlib} (has_unavailable : bool).

Definition cordoned (node : Node) : Node :=
  {| node_meta := node_meta node; node_ProviderID := node_ProviderID node; Unschedulable := true; OwnerReferences := OwnerReferences node;
     node_Status := node_Status node |}.

(** One attempt of [cordon]: [None] when the node no longer exists. *)
Definition cordon_once (node : Node) : ctl (option Node) :=
  answer ⟵ CGetNode (Name (node_meta node));
  match answer with
  | Err e => if kube_IsNotFound e then Ret (Ok None) else fail_with e
  | Ok current =>
      if negb (String.eqb (UID (node_meta current)) (UID (node_meta node)))
      then fail "node UID changed before cordon"
      else if Unschedulable current then Ret (Ok (Some current))
      else current ←! call (CPatchNode current (cordoned current)); Ret (Ok (Some current))
  end.

Definition cordon (node : Node) : ctl (option Node) := retry_on_conflict 4 (cordon_once node).

Definition deleteIfStillInterrupted (node : Node) : ctl_err :=
  match isNodeInterrupted node with
  | None => Ret (Some (GoErrors.New "interruption signal cleared before delete"))
  | Some _ =>
      e ⟵ CDeleteNode node (Some (UID (node_meta node), ResourceVersion (node_meta node)));
      Ret (match IgnoreNotFound e with Some e => Some (wrapped_ "failed to delete node" e) | None => None end)
  end.

(** The offering of the node. *)
Definition node_offering (node : Node) : option string :=
  let labels := Labels (node_meta node) in
  let instanceType := get labels LabelInstanceTypeStable in
  let zone := get labels LabelTopologyZone in
  let capacityType := get labels CapacityTypeLabelKey in
  let capacityType := if empty capacityType then CapacityTypeOnDemand else capacityType in
  if negb (empty instanceType) && negb (empty zone)
  then Some (instanceType ++ ":" ++ zone ++ ":" ++ capacityType) else None.

Definition mark_offering (node : Node) (r : InterruptionReason) (k : ctl_err) : ctl_err :=
  match node_offering node with
  | Some key =>
      if isCapacityRelated r && has_unavailable
      then now ⟵ CNow; _u ⟵ CMarkUnavailable key (GoTime.Add now GoTime.Hour); k
      else k
  | None => k
  end.

Definition handleVPCInterruption (node : Node) (r : InterruptionReason) : ctl_err :=
  mark_offering node r (bind (cordon node) (λ answer,
  match answer with
  | Err e => Ret (Some e)
  | Ok None => Ret None
  | Ok (Some current) => deleteIfStillInterrupted current
  end)).

Definition handleIKSInterruption (node : Node) (r : InterruptionReason) : ctl_err :=
  mark_offering node r (bind (cordon node) (λ answer,
  match answer with
  | Err e => Ret (Some e)
  | Ok None => Ret None
  | Ok (Some current) => if isCapacityRelated r then Ret None else deleteIfStillInterrupted current
  end)).

Definition node_mode (node : Node) : ProviderMode :=
  inferModeFromNode (get (Annotations (node_meta node)) BackendAnnotation) (node_ProviderID node).

Definition handleInterruption (node : Node) (r : InterruptionReason) : ctl_err :=
  match node_mode node with
  | IKSMode => handleIKSInterruption node r
  | VPCMode => handleVPCInterruption node r
  end.

Definition marked (node : Node) (r : InterruptionReason) (now : Z) : Node :=
  {| node_meta := with_annotations (node_meta node)
       (<[InterruptionTimeAnnotation := FormatRFC3339 now]>
       (<[InterruptionReasonAnnotation := reason_name r]>
       (<[InterruptionCompletedAnnotation := "true"]>
       (<[InterruptionAnnotation := "true"]> (Annotations (node_meta node))))));
     node_ProviderID := node_ProviderID node; Unschedulable := Unschedulable node; OwnerReferences := OwnerReferences node;
     node_Status := node_Status node |}.

Definition mark_once (node : Node) (r : InterruptionReason) : ctl unit :=
  answer ⟵ CGetNode (Name (node_meta node));
  match answer with
  | Err e => match IgnoreNotFound (Some e) with Some e => fail_with e | None => Ret (Ok tt) end
  | Ok current =>
      if negb (String.eqb (UID (node_meta current)) (UID (node_meta node)))
      then fail "node UID changed while handling interruption"
      else now ⟵ CNow; _n ←! call (CPatchNode current (marked current r now)); Ret (Ok tt)
  end.

Definition markNodeAsInterrupted (node : Node) (r : InterruptionReason) : ctl_err :=
  bind (retry_on_conflict 4 (mark_once node r)) (λ answer, Ret (err_of answer)).

Definition eligible (node : Node) : bool :=
  negb (empty (get (Labels (node_meta node)) NodePoolLabelKey)) && HasPrefix (node_ProviderID node) "ibm://".

(** One round of the loop of [Reconcile]. *)
Definition visit_node (node : Node) : ctl_err :=
  if negb (eligible node) then Ret None
  else match isNodeInterrupted node with
       | None => Ret None
       | Some r =>
           bind (handleInterruption node r) (λ e,
           match e with
           | Some e => Ret (Some (wrapped_ ("handling interruption for " ++ Name (node_meta node)) e))
           | None => markNodeAsInterrupted node r
           end)
       end.

Fixpoint visit_nodes (nodes : list Node) : prog ctl_call (list GoErrors.error) :=
  match nodes with
  | [] => Ret []
  | node :: nodes' =>
      bind (visit_node node) (λ e,
      bind (visit_nodes nodes') (λ errs,
      Ret (match e with Some e => e :: errs | None => errs end)))
  end.

Definition interruption_Reconcile : ctl Result :=
  answer ⟵ CListNodes;
  match answer with
  | Err e => fail_with e
  | Ok nodes =>
      bind (visit_nodes nodes) (λ failures,
      match JoinErrors failures with
      | Some e => fail_with e
      | None => Ret (Ok {| RequeueAfter := GoTime.Minute |})
      end)
  end.
End interruption.

(** ** Preemption *)

(** [buildNodeClaimMap]; a later claim of the same instance replaces it. *)
Definition claims_by_instance (claims : list NodeClaim) : gmap string NodeClaim :=
  foldl (λ m claim,
    if empty (claim_ProviderID claim) then m
    else match preemption_instance (claim_ProviderID claim) with Some id => <[id := claim]> m | None => m end) ∅ claims.

Definition preempted (code : option string) : bool := bool_decide (code = Some "stopped_by_preemption").

(** The identity, type and zone of an instance that has them. *)
Definition instance_fields (i : Instance) : option (string * string * string) :=
  match inst_ID i, inst_Profile i, inst_Zone i with
  | Some id, Some instanceType, Some zone => Some (id, instanceType, zone)
  | _, _, _ => None
  end.

(** What a reason of preemption leads to. *)
Definition preempt (claimsByInstanceID : gmap string NodeClaim) (i : Instance) : prog ctl_call unit :=
  match instance_fields i with
  | None => Ret tt
  | Some (id, instanceType, zone) =>
      match claimsByInstanceID !! id with
      | None => Ret tt
      | Some claim =>
          now ⟵ CNow;
          _u ⟵ CMarkUnavailable (instanceType ++ ":" ++ zone ++ ":" ++ CapacityTypeSpot) (GoTime.Add now GoTime.Hour);
          _e ⟵ CDeleteInstance id;
          _e ⟵ CDeleteClaim claim;
          Ret tt
      end
  end.

Fixpoint visit_reasons (claimsByInstanceID : gmap string NodeClaim) (i : Instance) (reasons : list (option string))
    : prog ctl_call unit :=
  match reasons with
  | [] => Ret tt
  | code :: reasons' =>
      bind (if preempted code then preempt claimsByInstanceID i else Ret tt) (λ _,
      visit_reasons claimsByInstanceID i reasons')
  end.

Fixpoint visit_instances (claimsByInstanceID : gmap string NodeClaim) (instances : list Instance) : prog ctl_call unit :=
  match instances with
  | [] => Ret tt
  | i :: instances' =>
      bind (if bool_decide (inst_Status i = Some "stopped")
            then visit_reasons claimsByInstanceID i (StatusReasons i) else Ret tt) (λ _,
      visit_instances claimsByInstanceID instances')
  end.

Definition SpotPreemptionCheckInterval : Z := GoTime.Minute.

Definition preemption_Reconcile : ctl Result :=
  e ⟵ CVPCClient;
  match e with
  | Some e => fail_with e
  | None =>
      instances ←! call CListSpotInstances;
      claims ←! call CListClaims;
      bind (visit_instances (claims_by_instance claims) instances) (λ _,
      Ret (Ok {| RequeueAfter := SpotPreemptionCheckInterval |}))
  end.

(** ** What the interruption controller guarantees *)
Local Open Scope list_scope.

Section interruption_safety.
Context `{Stdlib} (has_unavailable : bool).

(** A node of the listing with a signal. *)
Definition signalled (h : ctl_history) (node : Node) (r : InterruptionReason) : Prop :=
  ∃ nodes, asked h CListNodes (Ok nodes) ∧ node ∈ nodes ∧ eligible node = true ∧ isNodeInterrupted node = Some r.

(** The history, newest first, in which the listed node is cordoned: it was read
    so, or it was read and patched. *)
Definition cordoned_in (h : ctl_history) (listed node : Node) : Prop :=
  (∃ before, h = Did (CGetNode (Name (node_meta listed))) (Ok node) :: before ∧
     UID (node_meta node) = UID (node_meta listed) ∧ Unschedulable node = true) ∨
  (∃ current before, h = Did (CPatchNode current (cordoned current)) (Ok node)
       :: Did (CGetNode (Name (node_meta listed))) (Ok current) :: before ∧
     UID (node_meta current) = UID (node_meta listed) ∧ Unschedulable current = false).

Definition may_delete_interrupted (h : ctl_history) (node : Node) (preconditions : option (string * string)) : Prop :=
  ∃ listed r, signalled h listed r ∧ cordoned_in h listed node ∧ is_Some (isNodeInterrupted node) ∧
    preconditions = Some (UID (node_meta node), ResourceVersion (node_meta node)) ∧
    (node_mode listed = IKSMode → isCapacityRelated r = false).

(** The patches: the cordon of a node just read, and the mark that the
    interruption was handled. *)
Definition may_patch_interrupted (h : ctl_history) (stored fresh : Node) : Prop :=
  ∃ listed r, signalled h listed r ∧ UID (node_meta stored) = UID (node_meta listed) ∧
    ((∃ before, h = Did (CGetNode (Name (node_meta listed))) (Ok stored) :: before ∧ fresh = cordoned stored) ∨
     (∃ now before, h = Did CNow now :: Did (CGetNode (Name (node_meta listed))) (Ok stored) :: before ∧
        fresh = marked stored r now)).

Definition may_mark_interrupted (h : ctl_history) (key : string) (until : Z) : Prop :=
  ∃ listed r now before, h = Did CNow now :: before ∧ signalled before listed r ∧ isCapacityRelated r = true ∧
    node_offering listed = Some key ∧ until = GoTime.Add now GoTime.Hour ∧ has_unavailable = true.

Definition interruption_guard : guard := λ h R e,
  match e with
  | CDeleteNode node preconditions => may_delete_interrupted h node preconditions
  | CPatchNode stored fresh => may_patch_interrupted h stored fresh
  | CMarkUnavailable key until => may_mark_interrupted h key until
  | _ => reads R e = true
  end.

(** What a success says of a node that was signalled. *)
Definition node_gone (h : ctl_history) (listed : Node) : Prop :=
  ∃ e, asked h (CGetNode (Name (node_meta listed))) (Err e) ∧ kube_IsNotFound e = true.

Definition was_cordoned (h : ctl_history) (listed node : Node) : Prop :=
  ∃ later before, h = later ++ before ∧ cordoned_in before listed node.

Definition cleared (h : ctl_history) (listed : Node) (r : InterruptionReason) : Prop :=
  node_gone h listed ∨ ∃ node, was_cordoned h listed node ∧
    (node_mode listed = IKSMode ∧ isCapacityRelated r = true ∨
     ∃ answer, asked h (CDeleteNode node (Some (UID (node_meta node), ResourceVersion (node_meta node)))) answer ∧
       IgnoreNotFound answer = None).

Definition recorded (h : ctl_history) (listed : Node) (r : InterruptionReason) : Prop :=
  node_gone h listed ∨ ∃ stored now node, asked h (CPatchNode stored (marked stored r now)) (Ok node) ∧
    UID (node_meta stored) = UID (node_meta listed).

Lemma signalled_grows l h node r : signalled h node r → signalled (l ++ h) node r.
Proof. intros (nodes & ? & ? & ? & ?). exists nodes. split_and!; try done. by apply asked_app. Qed.

Lemma gone_grows l h node : node_gone h node → node_gone (l ++ h) node.
Proof. intros (e & ? & ?). exists e. split; [by apply asked_app|done]. Qed.

Lemma cleared_grows l h node r : cleared h node r → cleared (l ++ h) node r.
Proof.
  intros [Hg|(n & (later & before & -> & Hc) & Ho)]; [left; by apply gone_grows|]. right. exists n. split.
  - exists (l ++ later), before. by rewrite (assoc_L (++)).
  - destruct Ho as [|(a & Ha & Hi)]; [by left|right]. exists a. split; [by apply asked_app|done].
Qed.

Lemma recorded_grows l h node r : recorded h node r → recorded (l ++ h) node r.
Proof.
  intros [Hg|(stored & now & n & ? & ?)]; [left; by apply gone_grows|right]. exists stored, now, n.
  split; [by apply asked_app|done].
Qed.

Lemma cordon_wp listed r h :
  signalled h listed r →
  wp interruption_guard (cordon listed) h (λ h' answer, (∃ l, h' = l ++ h) ∧
    match answer with
    | Ok (Some node) => cordoned_in h' listed node
    | Ok None => node_gone h' listed
    | Err _ => True
    end).
Proof.
  intros Hs. eapply wp_mono; [|apply wp_grows, (wp_retry _ _ _ _ (λ h' answer,
    match answer with
    | Ok (Some node) => cordoned_in h' listed node
    | Ok None => node_gone h' listed
    | Err _ => True
    end))]; [by intros h' answer [? ?]; split|].
  intros l. unfold cordon_once. split; [done|]. intros [current|e].
  - destruct (String.eqb_spec (UID (node_meta current)) (UID (node_meta listed))) as [Hu|]; [cbn [negb]|done].
    destruct (Unschedulable current) eqn:Ec.
    + left. by exists (l ++ h).
    + apply wp_try. split.
      * exists listed, r. split_and!; [by apply (signalled_grows (_ :: l))|done|]. left. by exists (l ++ h).
      * intros [node|e]; [|done]. right. by exists current, (l ++ h).
  - destruct (kube_IsNotFound e) eqn:Ee; [|done]. exists e. split; [by left|done].
Qed.

Lemma delete_interrupted_wp listed r node h :
  signalled h listed r → cordoned_in h listed node → (node_mode listed = IKSMode → isCapacityRelated r = false) →
  wp interruption_guard (deleteIfStillInterrupted node) h (λ h' e, e = None → cleared h' listed r).
Proof.
  intros Hs Hc Hm. unfold deleteIfStillInterrupted. destruct (isNodeInterrupted node) eqn:Ei; [|done].
  split; [by exists listed, r|]. intros answer. cbn. destruct (IgnoreNotFound answer) eqn:Ea; [done|]. intros _.
  right. exists node. split; [by eexists [_], h|]. right. exists answer. split; [by left|done].
Qed.

Lemma mark_offering_wp listed r k h (Q : ctl_history → err → Prop) :
  signalled h listed r → (∀ l, wp interruption_guard k (l ++ h) Q) →
  wp interruption_guard (mark_offering has_unavailable listed r k) h Q.
Proof.
  intros Hs Hk. unfold mark_offering. destruct (node_offering listed) as [key|] eqn:Eo; [|exact (Hk [])].
  destruct (isCapacityRelated r && has_unavailable) eqn:Eb; [|exact (Hk [])]. bool_to_prop.
  split; [done|]. intros now. split; [by exists listed, r, now, h|]. intros []. exact (Hk [_; _]).
Qed.

Lemma handle_wp listed r h :
  signalled h listed r →
  wp interruption_guard (handleInterruption has_unavailable listed r) h (λ h' e, e = None → cleared h' listed r).
Proof.
  intros Hs. unfold handleInterruption.
  destruct (node_mode listed) eqn:Em; apply mark_offering_wp; [done| |done|]; intros l; apply wp_bind;
    (eapply wp_mono; [|by apply (cordon_wp listed r), signalled_grows]);
    intros h' [[node|]|e] [[l' ->] Hc]; try done; try (by intros _; left).
  - apply delete_interrupted_wp; [by do 2 apply signalled_grows|done|by rewrite Em].
  - destruct (isCapacityRelated r) eqn:Er.
    + intros _. right. exists node. split; [by exists [], (l' ++ l ++ h)|by left].
    + apply delete_interrupted_wp; [by do 2 apply signalled_grows|done|done].
Qed.

Lemma mark_wp listed r h :
  signalled h listed r →
  wp interruption_guard (markNodeAsInterrupted listed r) h (λ h' e, e = None → recorded h' listed r).
Proof.
  intros Hs. apply wp_bind. apply (wp_mono _ _ _ (λ h' answer,
    match answer with Ok _ => recorded h' listed r | Err _ => True end)).
  { intros h' [u|e] Hr; cbn; [by intros _|by intros ?]. }
  apply wp_retry. intros l. unfold mark_once. split; [done|]. intros [current|e].
  - destruct (String.eqb_spec (UID (node_meta current)) (UID (node_meta listed))) as [Hu|]; [cbn [negb]|done].
    split; [done|]. intros now. apply wp_try. split.
    + exists listed, r. split_and!; [by apply (signalled_grows (_ :: _ :: l))|done|]. right. by exists now, (l ++ h).
    + intros [node|e]; [|done]. right. exists current, now, node. split; [by left|done].
  - cbn. destruct (kube_IsNotFound e) eqn:Ee; [|done]. left. exists e. split; [by left|done].
Qed.

(** A listed node after a round without an error. *)
Definition handled_node (h : ctl_history) (node : Node) : Prop :=
  ∀ r, eligible node = true → isNodeInterrupted node = Some r → cleared h node r ∧ recorded h node r.

Lemma handled_grows l h node : handled_node h node → handled_node (l ++ h) node.
Proof. intros Hh r He Hr. destruct (Hh r He Hr). by split; [apply cleared_grows|apply recorded_grows]. Qed.

Lemma visit_node_wp node nodes h :
  asked h CListNodes (Ok nodes) → node ∈ nodes →
  wp interruption_guard (visit_node has_unavailable node) h (λ h' e, e = None → handled_node h' node).
Proof.
  intros Ha Hin. unfold visit_node, handled_node. destruct (eligible node) eqn:Ee; cbn [negb]; [|by intros _ r].
  destruct (isNodeInterrupted node) as [r|] eqn:Ei; [|by intros _ r].
  assert (Hs : signalled h node r) by (by exists nodes).
  apply wp_bind. eapply wp_mono; [|apply wp_grows, (handle_wp node r h Hs)].
  intros h' [e|] [Hc [l ->]]; [done|]. eapply wp_mono; [|apply wp_grows, (mark_wp node r), signalled_grows, Hs].
  intros h' e [Hr [l' ->]] He r' _ [= <-]. split; [by apply cleared_grows, Hc|by apply Hr].
Qed.

Lemma visit_nodes_wp visited nodes h :
  asked h CListNodes (Ok nodes) → (∀ n, n ∈ visited → n ∈ nodes) →
  wp interruption_guard (visit_nodes has_unavailable visited) h (λ h' errs, errs = [] → Forall (handled_node h') visited).
Proof.
  revert h. induction visited as [|node visited IH]; intros h Ha Hin; cbn [visit_nodes]; [by constructor|].
  apply wp_bind. eapply wp_mono; [|apply wp_grows, (visit_node_wp node nodes); [done|apply Hin; by left]].
  intros h' e [He [l ->]]. apply wp_bind.
  eapply wp_mono; [|apply wp_grows, IH; [by apply asked_app|intros; apply Hin; by right]].
  intros h' errs [Hr [l' ->]]. destruct e; [done|]. intros Herrs. constructor; [|by apply Hr].
  by apply handled_grows, He.
Qed.

Lemma interruption_wp :
  wp interruption_guard (interruption_Reconcile has_unavailable) [] (λ h r,
    match r with Ok _ => ∃ nodes, asked h CListNodes (Ok nodes) ∧ Forall (handled_node h) nodes | Err _ => True end).
Proof.
  unfold interruption_Reconcile. split; [done|]. intros [nodes|e]; [|done]. apply wp_bind.
  eapply wp_mono; [|apply wp_grows, (visit_nodes_wp nodes nodes); [by left|done]].
  intros h' errs [Hr [l ->]]. destruct (JoinErrors errs) eqn:Ej; [done|]. apply JoinErrors_nil in Ej.
  exists nodes. split; [apply asked_app; by left|by apply Hr].
Qed.
End interruption_safety.

(** C13. The interruption controller deletes a node only when it was listed with a
    signal, it has been cordoned, its last version still has a signal, and
    only in that version; never for a capacity signal of an IKS worker.  It
    patches a node only to cordon it or to record the signal, and marks only the
    offering of a node with a capacity signal, for an hour.  When it succeeds, every
    signalled node is gone, or cordoned and, unless left to IKS, deleted, and is
    recorded. *)
Theorem interruption_deletes_only_signalled `{Stdlib} has_unavailable tr r
    (Hrun : runs (interruption_Reconcile has_unavailable) tr r) :
  (∀ before R (e : ctl_call R) answer after,
     tr = before ++ Did e answer :: after → interruption_guard has_unavailable (reverse before) R e) ∧
  match r with
  | Ok _ => ∃ nodes, asked tr CListNodes (Ok nodes) ∧ Forall (handled_node (reverse tr)) nodes
  | Err _ => True
  end.
Proof.
  destruct (guarded_run _ _ _ _ _ (interruption_wp has_unavailable) Hrun) as [Hg HQ]. split; [done|].
  destruct r; [|done]. destruct HQ as (nodes & Ha & Hn). exists nodes. split; [|done].
  unfold asked in *. by rewrite elem_of_reverse in Ha.
Qed.

(** A VPC node with a maintenance signal, and an IKS node short of capacity. *)
Definition signalled_node (name providerID key value : string) : Node :=
  {| node_meta :=
       {| Name := name; UID := "uid-" +:+ name; ResourceVersion := "7"; Generation := 1; DeletionTimestamp := None;
          CreationTimestamp := 0;
          Labels := <[NodePoolLabelKey := "default"]> (<[LabelInstanceTypeStable := "bx2.2x8"]> {[LabelTopologyZone := "us-south-1"]});
          Annotations := {[key := value]}; Finalizers := [] |};
     node_ProviderID := providerID; Unschedulable := false; OwnerReferences := []; node_Status := no_status |}%string.

Definition signal_world : world :=
  {| w_nodes := [signalled_node "vpc" "ibm:///us-south/instance-1" "ibm-cloud.kubernetes.io/maintenance" "true";
       signalled_node "iks" "ibm://acct///cluster/worker" "ibm-cloud.kubernetes.io/status" " Capacity Unavailable "];
     w_claims := []; w_classes := []; w_cluster := no_meta; w_instances := []; w_tags := [];
     w_absent := None; w_now := 5 |}%string.

Definition marks (tr : ctl_history) : list (string * Z) :=
  omap (λ ev, match ev with Did e _ => match e with CMarkUnavailable key until => Some (key, until) | _ => None end end) tr.

Lemma interruption_deletes_only_signalled_witness : ∃ tr r, runs (interruption_Reconcile true) tr r ∧
  deletions tr = [DeletedNode "vpc" (Some ("uid-vpc", "7"))]%string ∧
  marks tr = [("bx2.2x8:us-south-1:on-demand"%string, (5 + GoTime.Hour)%Z)] ∧
  ∃ nodes, asked tr CListNodes (Ok nodes) ∧ Forall (handled_node (reverse tr)) nodes.
Proof.
  pose proof (interp_runs (world_handle signal_world) (interruption_Reconcile true) tt) as Hrun.
  eexists _, _. split_and!; [exact Hrun|by vm_compute|by vm_compute|].
  pose proof (interruption_deletes_only_signalled true _ _ Hrun) as [_ Hr]. exact Hr.
Defined.

(** ** What preemption does *)

Inductive preemption_change :=
  | MarkedOffering (key : string)
  | DeletedInstanceOf (id : string)
  | DeletedClaimOf (claim : NodeClaim).

Definition preemption_changes (tr : ctl_history) : list preemption_change :=
  omap (λ ev, match ev with
              | Did e _ =>
                  match e with
                  | CMarkUnavailable key _ => Some (MarkedOffering key)
                  | CDeleteInstance id => Some (DeletedInstanceOf id)
                  | CDeleteClaim claim => Some (DeletedClaimOf claim)
                  | _ => None
                  end
              end) tr.

(** The changes for a stopped instance with a claim, once for each of its
    reasons that is a preemption. *)
Definition preemption_of (m : gmap string NodeClaim) (i : Instance) : list preemption_change :=
  if bool_decide (inst_Status i = Some "stopped"%string) then
    match instance_fields i with
    | Some (id, instanceType, zone) =>
        match m !! id with
        | Some claim =>
            concat (map (λ _, [MarkedOffering (instanceType +:+ ":" +:+ zone +:+ ":" +:+ CapacityTypeSpot);
              DeletedInstanceOf id; DeletedClaimOf claim]) (List.filter preempted (StatusReasons i)))
        | None => []
        end
    | None => []
    end
  else [].

Lemma changes_app tr1 tr2 : preemption_changes (tr1 ++ tr2) = preemption_changes tr1 ++ preemption_changes tr2.
Proof. apply omap_app. Qed.

Lemma preempt_runs m i tr u :
  runs (preempt m i) tr u →
  preemption_changes tr =
    match instance_fields i with
    | Some (id, instanceType, zone) =>
        match m !! id with
        | Some claim => [MarkedOffering (instanceType +:+ ":" +:+ zone +:+ ":" +:+ CapacityTypeSpot);
            DeletedInstanceOf id; DeletedClaimOf claim]
        | None => []
        end
    | None => []
    end.
Proof.
  unfold preempt. destruct (instance_fields i) as [[[id instanceType] zone]|]; [|by intros [-> _]].
  destruct (m !! id) as [claim|]; [|by intros [-> _]].
  intros (now & tr1 & -> & ? & tr2 & -> & ? & tr3 & -> & ? & tr4 & -> & -> & _). done.
Qed.

Lemma visit_reasons_runs m i reasons tr u :
  runs (visit_reasons m i reasons) tr u →
  preemption_changes tr =
    match instance_fields i with
    | Some (id, instanceType, zone) =>
        match m !! id with
        | Some claim => concat (map (λ _, [MarkedOffering (instanceType +:+ ":" +:+ zone +:+ ":" +:+ CapacityTypeSpot);
            DeletedInstanceOf id; DeletedClaimOf claim]) (List.filter preempted reasons))
        | None => []
        end
    | None => []
    end.
Proof.
  revert tr. induction reasons as [|code reasons IH]; intros tr; cbn [visit_reasons].
  { intros [-> _]. destruct (instance_fields i) as [[[id ?] ?]|]; [by destruct (m !! id)|done]. }
  intros (tr1 & tr2 & [] & -> & H1 & H2%IH)%runs_bind. rewrite changes_app, H2. cbn [List.filter].
  destruct (preempted code); [apply preempt_runs in H1 as ->|destruct H1 as [-> _]; done].
  destruct (instance_fields i) as [[[id ?] ?]|]; [|done]. by destruct (m !! id).
Qed.

Lemma visit_instances_runs m instances tr u :
  runs (visit_instances m instances) tr u → preemption_changes tr = concat (map (preemption_of m) instances).
Proof.
  revert tr. induction instances as [|i instances IH]; intros tr; cbn [visit_instances]; [by intros [-> _]|].
  intros (tr1 & tr2 & [] & -> & H1 & H2%IH)%runs_bind. rewrite changes_app, H2. cbn [map concat]. f_equal.
  unfold preemption_of. case_bool_decide; [by apply visit_reasons_runs in H1|by destruct H1 as [-> _]].
Qed.

Lemma claims_by_instance_lookup claims id claim :
  claims_by_instance claims !! id = Some claim →
  claim ∈ claims ∧ preemption_instance (claim_ProviderID claim) = Some id.
Proof.
  revert id claim. unfold claims_by_instance.
  apply (foldl_invariant _ (λ m : gmap string NodeClaim, ∀ id claim, m !! id = Some claim →
    claim ∈ claims ∧ preemption_instance (claim_ProviderID claim) = Some id)).
  { intros id claim. by rewrite lookup_empty. }
  intros m c Hc Hm id claim. destruct (empty _); [apply Hm|]. destruct (preemption_instance (claim_ProviderID c)) as [i|] eqn:Ei; [|apply Hm].
  intros [[<- <-]|[_ ?%Hm]]%lookup_insert_Some; done.
Qed.

(** Preemption handling does exactly this, in this order: for each listed spot
    instance that is stopped, each reason of preemption, when a claim's provider ID
    names the instance, marks its offering unavailable, deletes the instance and
    deletes that claim. *)
Theorem preemption_exact tr result (Hrun : runs preemption_Reconcile tr (Ok result)) :
  ∃ instances claims, asked tr CListSpotInstances (Ok instances) ∧ asked tr CListClaims (Ok claims) ∧
    preemption_changes tr = concat (map (preemption_of (claims_by_instance claims)) instances) ∧
    ∀ id claim, claims_by_instance claims !! id = Some claim →
      claim ∈ claims ∧ preemption_instance (claim_ProviderID claim) = Some id.
Proof.
  revert Hrun. unfold preemption_Reconcile. intros ([e|] & tr1 & -> & Hr); [by destruct Hr|].
  cbn [runs try bind call] in Hr. destruct Hr as ([instances|e] & tr2 & -> & Hr); [|by destruct Hr].
  cbn [runs try bind call] in Hr. destruct Hr as ([claims|e] & tr3 & -> & Hr); [|by destruct Hr].
  apply runs_bind in Hr as (tr4 & tr5 & [] & -> & Hv & [-> _]).
  exists instances, claims. split_and!; [right; by left|do 2 right; by left| |apply claims_by_instance_lookup].
  rewrite (right_id_L [] (++)). cbn [preemption_changes omap list_omap]. by eapply visit_instances_runs.
Qed.

Definition stopped_instance : Instance :=
  {| inst_ID := Some "instance-1"; inst_Name := Some "karpenter-1"; inst_Status := Some "stopped";
     inst_CRN := None; inst_Profile := Some "bx2.2x8"; inst_Zone := Some "us-south-1"; inst_VPC := None;
     inst_Image := None; inst_ResourceGroup := None; PrimaryNetworkAttachment := None;
     PrimaryNetworkInterface := None; VpcApi.AvailabilityClass := Some "spot"; CreatedAt := None;
     StatusReasons := [Some "other"; Some "stopped_by_preemption"] |}%string.

Definition spot_claim : NodeClaim :=
  {| claim_meta := no_meta; NodeClassRef := None; Requests := ∅; Requirements := [];
     claim_ProviderID := "ibm:///us-south/instance-1"; claim_NodeName := ""; claim_ImageID := "";
     claim_Capacity := ∅; claim_Allocatable := ∅; claim_Conditions := [] |}%string.

Definition spot_world : world :=
  {| w_nodes := []; w_claims := [spot_claim]; w_classes := []; w_cluster := no_meta;
     w_instances := [stopped_instance]; w_tags := []; w_absent := None; w_now := 0 |}.

Lemma preemption_exact_witness : ∃ tr result, runs preemption_Reconcile tr (Ok result) ∧
  preemption_changes tr = [MarkedOffering "bx2.2x8:us-south-1:spot"; DeletedInstanceOf "instance-1";
    DeletedClaimOf spot_claim]%string ∧
  ∃ instances claims, asked tr CListSpotInstances (Ok instances) ∧ asked tr CListClaims (Ok claims) ∧
    preemption_changes tr = concat (map (preemption_of (claims_by_instance claims)) instances).
Proof.
  pose proof (interp_runs (world_handle spot_world) preemption_Reconcile tt) as Hrun.
  eexists _, _. split_and!; [exact Hrun|by vm_compute|].
  pose proof (preemption_exact _ _ Hrun) as (instances & claims & ? & ? & ? & _). exists instances, claims. by split_and!.
Defined.
