(* ===== verification/NodeClassControllers.v ===== *)
(** * NodeClassControllers: the hash and the termination of a NodeClass

    [pkg/controllers/nodeclass/hash/controller.go] keeps the provisioning hash of
    a class in its annotations, and restamps the claims hashed by an older
    version of the program; [pkg/controllers/nodeclass/termination/controller.go]
    holds a class with a finalizer until its nodes are gone. *)
From stdpp Require Import prelude list strings gmap.
From S2P Require Import Prelude GoLib GoRegexp Errors NodeClass ProviderIDs Ownership Prog Kube.
From S2P Require Import IksAllocation IksLaunch IksExample Drift VpcLaunch ControllerApi.
Import Strings.

Open Scope string_scope.
Local Open Scope prog_scope.

(** [json.Marshal] of a migration, which [json.Unmarshal] reads back. *)
Class MigrationCodec `{HashDeps} := {
  MarshalMigration : Hash.HashMigration → result GoErrors.error string;
  unmarshal_migration : ∀ m s, MarshalMigration m = Ok s → s ≠ "" ∧ UnmarshalMigration s = Ok m;
}.

Definition set_class_meta (c : IBMNodeClass) (m : ObjectMeta) : IBMNodeClass :=
  {| nc_meta := m; Spec := Spec c; Status := Status c |}.
Definition class_annotations (c : IBMNodeClass) (f : gmap string string → gmap string string) : IBMNodeClass :=
  set_class_meta c (with_annotations (nc_meta c) (f (Annotations (nc_meta c)))).

(** ** The hash *)
Section hash.
Context `{Karpenter} `{HashDeps} `{!MigrationCodec}.

Definition checkpointed (nc : IBMNodeClass) (value : string) : IBMNodeClass :=
  class_annotations nc (<[Hash.HashMigrationAnnotation := value]>).

Definition stamped (nc : IBMNodeClass) (hashString : string) : IBMNodeClass :=
  class_annotations nc (λ a, <[AnnotationIBMNodeClassHashVersion := IBMNodeClassHashVersion]>
    (<[AnnotationIBMNodeClassHash := hashString]> (delete Hash.HashMigrationAnnotation a))).

Definition ConditionTypeDrifted : string := "Drifted".

Definition is_drifted (claim : NodeClaim) : bool :=
  condition_true (claim_Conditions claim) ConditionTypeDrifted.

(** A claim of the class that was hashed under version 1, of the specification
    the migration pinned. *)
Definition to_migrate (nc : IBMNodeClass) (migration : Hash.HashMigration) (claim : NodeClaim) : bool :=
  match NodeClassRef claim with
  | None => false
  | Some ref =>
      String.eqb (ref_Name ref) (Name (nc_meta nc)) && String.eqb (ref_Group ref) Group &&
      String.eqb (get (Annotations (claim_meta claim)) AnnotationIBMNodeClassHashVersion) "1" &&
      String.eqb (get (Annotations (claim_meta claim)) AnnotationIBMNodeClassHash) (Hash.m_LegacyHash migration) &&
      negb (is_drifted claim)
  end.

Definition restamped (claim : NodeClaim) (migration : Hash.HashMigration) : NodeClaim :=
  set_meta claim (with_annotations (claim_meta claim)
    (<[AnnotationIBMNodeClassHashVersion := IBMNodeClassHashVersion]>
    (<[AnnotationIBMNodeClassHash := Hash.m_ProvisioningHash migration]> (Annotations (claim_meta claim))))).

Fixpoint restamp_all (nc : IBMNodeClass) (migration : Hash.HashMigration) (claims : list NodeClaim) : ctl unit :=
  match claims with
  | [] => Ret (Ok tt)
  | claim :: claims' =>
      if negb (to_migrate nc migration claim) then restamp_all nc migration claims'
      else
        answer ⟵ CPatchClaim claim (restamped claim migration);
        match answer with
        | Err e => fail_with (wrapped_ ("migrating hash for NodeClaim " ++ Name (claim_meta claim)) e)
        | Ok _ => restamp_all nc migration claims'
        end
  end.

(** The migration of the checkpoint, stored when there is none, and the class
    as it then is. *)
Definition pin_migration (nc : IBMNodeClass) (legacyHash hashString : string)
    : ctl (IBMNodeClass * Hash.HashMigration) :=
  match Hash.ReadHashMigration UnmarshalMigration nc with
  | Err e => fail_with e
  | Ok (Some migration) => Ret (Ok (nc, migration))
  | Ok None =>
      let migration := {| Hash.m_LegacyHash := legacyHash; Hash.m_ProvisioningHash := hashString |} in
      match MarshalMigration migration with
      | Err e => fail_with e
      | Ok value => nc ←! call (CPatchClass nc (checkpointed nc value)); Ret (Ok (nc, migration))
      end
  end.

Definition migrateClaims (nc : IBMNodeClass) (hashString : string) : ctl IBMNodeClass :=
  match Hash.LegacyHash HashSpec nc with
  | (_, Some e) => fail_with (wrapped_ "computing legacy hash" e)
  | (legacyHash, None) =>
      pinned ←! pin_migration nc legacyHash hashString;
      let '(nc, migration) := pinned in
      claims ←! call CListClaims;
      _u ←! restamp_all nc migration claims;
      Ret (Ok nc)
  end.

Definition store_hash (nc : IBMNodeClass) (hashString : string) : ctl unit :=
  answer ⟵ CPatchClass nc (stamped nc hashString);
  match answer with
  | Err e => fail_with (wrapped_ "failed to patch annotations" e)
  | Ok _ => Ret (Ok tt)
  end.

Definition hash_current (nc : IBMNodeClass) (hashString : string) : bool :=
  String.eqb (get (Annotations (nc_meta nc)) AnnotationIBMNodeClassHash) hashString &&
  empty (get (Annotations (nc_meta nc)) Hash.HashMigrationAnnotation).
Definition version_current (nc : IBMNodeClass) : bool :=
  String.eqb (get (Annotations (nc_meta nc)) AnnotationIBMNodeClassHashVersion) IBMNodeClassHashVersion.

Definition hash_Reconcile (name : string) : ctl unit :=
  answer ⟵ CGetClass name;
  match answer with
  | Err e => match IgnoreNotFound (Some e) with Some e => fail_with e | None => Ret (Ok tt) end
  | Ok nc =>
      if is_terminating (nc_meta nc) then Ret (Ok tt)
      else match Hash.ProvisioningHash HashStructure nc with
           | (_, Some e) => fail_with (wrapped_ "computing provisioning hash" e)
           | (hashString, None) =>
               if negb (version_current nc)
               then nc ←! migrateClaims nc hashString; store_hash nc hashString
               else if hash_current nc hashString then Ret (Ok tt)
               else store_hash nc hashString
           end
  end.
End hash.

(** ** Termination *)
Definition IBMNodeClassTerminationFinalizer : string := "termination.nodeclass.karpenter-ibm.sh/finalizer".

Definition class_finalizers (c : IBMNodeClass) (l : list string) : IBMNodeClass :=
  set_class_meta c (with_finalizers (nc_meta c) l).

Fixpoint delete_nodes (nodes : list Node) : ctl_err :=
  match nodes with
  | [] => Ret None
  | node :: nodes' =>
      e ⟵ CDeleteNode node None;
      match IgnoreNotFound e with Some e => Ret (Some e) | None => delete_nodes nodes' end
  end.

Definition patch_finalizers (nc : IBMNodeClass) (l : list string) (what : string) : ctl Result :=
  answer ⟵ CPatchClassUnlocked nc (class_finalizers nc l);
  match answer with
  | Err e => fail_with (wrapped_ what e)
  | Ok _ => Ret (Ok no_requeue)
  end.

Definition termination_Reconcile (name : string) : ctl Result :=
  answer ⟵ CGetClass name;
  match answer with
  | Err e => match IgnoreNotFound (Some e) with Some e => fail_with e | None => Ret (Ok no_requeue) end
  | Ok nc =>
      let finalizers := Finalizers (nc_meta nc) in
      match DeletionTimestamp (nc_meta nc) with
      | None =>
          if ContainsFinalizer finalizers IBMNodeClassTerminationFinalizer then Ret (Ok no_requeue)
          else patch_finalizers nc (AddFinalizer finalizers IBMNodeClassTerminationFinalizer) "adding finalizer"
      | Some _ =>
          nodes ←! call (CListNodesOfClass (Name (nc_meta nc)));
          bind (delete_nodes nodes) (λ e,
          match e with
          | Some e => fail_with e
          | None =>
              remaining ←! call (CListNodesOfClass (Name (nc_meta nc)));
              match remaining with
              | [] => patch_finalizers nc (RemoveFinalizer finalizers IBMNodeClassTerminationFinalizer) "removing finalizer"
              | _ => Ret (Ok {| RequeueAfter := (5 * GoTime.Second)%Z |})
              end
          end)
      end
  end.

(** ** A migration changes no verdict *)
Local Open Scope list_scope.

Section migration.
Context `{Karpenter} `{HashDeps} `{!MigrationCodec}.

Lemma checkpointed_spec nc value : Spec (checkpointed nc value) = Spec nc.
Proof. done. Qed.

Lemma provisioning_spec nc nc' :
  Spec nc = Spec nc' → Hash.ProvisioningHash HashStructure nc = Hash.ProvisioningHash HashStructure nc'.
Proof. intros Hs. apply Hash.ProvisioningHash_ext. by rewrite Hs. Qed.

(** A claim hashed under version 1, of the pinned specification, is drifted by
    its hash exactly when it is drifted after it was restamped: when the class
    no longer has the specification the migration pinned. *)
Lemma restamped_verdict c c' migration claim hash :
  Hash.ReadHashMigration UnmarshalMigration c = Ok (Some migration) →
  Hash.ProvisioningHash HashStructure c = (hash, None) →
  to_migrate c' migration claim = true →
  isNodeClassHashDrifted (Annotations (claim_meta (restamped claim migration))) c =
    isNodeClassHashDrifted (Annotations (claim_meta claim)) c ∧
  isNodeClassHashDrifted (Annotations (claim_meta claim)) c =
    (if String.eqb hash (Hash.m_ProvisioningHash migration) then "" else NodeClassHashChangedDrift, None)%string.
Proof.
  intros Hread Hhash Hm. unfold to_migrate in Hm. destruct (NodeClassRef claim) as [ref|]; [|done]. bool_to_prop.
  unfold isNodeClassHashDrifted. rewrite Hhash, Hread.
  replace (get (Annotations (claim_meta claim)) AnnotationIBMNodeClassHashVersion) with "1"%string by done.
  replace (get (Annotations (claim_meta claim)) AnnotationIBMNodeClassHash) with (Hash.m_LegacyHash migration) by done.
  cbn [String.eqb Ascii.eqb Bool.eqb]. rewrite String.eqb_refl.
  assert (Hv : get (Annotations (claim_meta (restamped claim migration))) AnnotationIBMNodeClassHashVersion
    = IBMNodeClassHashVersion) by (unfold get, restamped; cbn; by rewrite lookup_insert_eq).
  assert (Hh : get (Annotations (claim_meta (restamped claim migration))) AnnotationIBMNodeClassHash
    = Hash.m_ProvisioningHash migration).
  { unfold get, restamped. cbn. rewrite lookup_insert_ne by done. by rewrite lookup_insert_eq. }
  rewrite Hv, Hh. change (String.eqb IBMNodeClassHashVersion "1") with false. cbn [compare_hash].
  rewrite String.eqb_refl. by destruct (String.eqb hash (Hash.m_ProvisioningHash migration)).
Qed.

(** A claim of the class, and what the migration makes of it. *)
Definition refers_to (claim : NodeClaim) (nc : IBMNodeClass) : Prop :=
  ∃ ref, NodeClassRef claim = Some ref ∧ ref_Name ref = Name (nc_meta nc) ∧ ref_Group ref = Group.
Definition migrated (nc : IBMNodeClass) (migration : Hash.HashMigration) (claim : NodeClaim) : NodeClaim :=
  if to_migrate nc migration claim then restamped claim migration else claim.

(** A claim that was not drifted is drifted by its hash, from the class as it is
    stored under the new version and without the checkpoint, exactly when it was
    from the class with the checkpoint: whether it was restamped, or left as it
    is because its hash is another one or of the new version. *)
Definition keeps_verdict (c nc : IBMNodeClass) (migration : Hash.HashMigration) (claim : NodeClaim) : Prop :=
  ∀ hash, Hash.ProvisioningHash HashStructure c = (hash, None) → Spec nc = Spec c →
    refers_to claim nc → is_drifted claim = false →
    isNodeClassHashDrifted (Annotations (claim_meta (migrated nc migration claim))) (stamped nc hash) =
      isNodeClassHashDrifted (Annotations (claim_meta claim)) c.

Lemma stamped_no_migration nc hash : Hash.ReadHashMigration UnmarshalMigration (stamped nc hash) = Ok None.
Proof.
  unfold Hash.ReadHashMigration, stamped. cbn. unfold get.
  by rewrite !lookup_insert_ne, lookup_delete_eq by done.
Qed.

Lemma legacy_spec nc nc' : Spec nc = Spec nc' → Hash.LegacyHash HashSpec nc = Hash.LegacyHash HashSpec nc'.
Proof. unfold Hash.LegacyHash. by intros ->. Qed.

Lemma migration_keeps_verdict c nc migration claim :
  Hash.ReadHashMigration UnmarshalMigration c = Ok (Some migration) → keeps_verdict c nc migration claim.
Proof.
  intros Hread hash Hhash Hspec (ref & Hr & Hn & Hg) Hd. unfold migrated.
  assert (Hp : Hash.ProvisioningHash HashStructure (stamped nc hash) = (hash, None)).
  { rewrite <-Hhash. by apply provisioning_spec. }
  destruct (to_migrate nc migration claim) eqn:Em.
  - destruct (restamped_verdict c nc migration claim hash Hread Hhash Em) as [<- _].
    unfold isNodeClassHashDrifted. rewrite Hp, Hhash.
    assert (get (Annotations (claim_meta (restamped claim migration))) AnnotationIBMNodeClassHashVersion
      = IBMNodeClassHashVersion) as -> by (unfold get, restamped; cbn; by rewrite lookup_insert_eq).
    done.
  - unfold to_migrate in Em. rewrite Hr, Hn, Hg, Hd, !String.eqb_refl in Em. cbn [andb negb] in Em. rewrite andb_true_r in Em.
    unfold isNodeClassHashDrifted. rewrite Hp, Hhash, Hread, stamped_no_migration.
    destruct (String.eqb (get (Annotations (claim_meta claim)) AnnotationIBMNodeClassHashVersion) "1"); [|done].
    cbn [andb] in Em. rewrite Em. by rewrite (legacy_spec (stamped nc hash) c).
Qed.

(** A stored checkpoint reads back. *)
Lemma checkpoint_reads nc value migration :
  MarshalMigration migration = Ok value → Hash.m_LegacyHash migration ≠ ""%string →
  Hash.m_ProvisioningHash migration ≠ ""%string →
  Hash.ReadHashMigration UnmarshalMigration (checkpointed nc value) = Ok (Some migration).
Proof.
  intros Hm Hl Hp. apply unmarshal_migration in Hm as [Hne Hu]. unfold Hash.ReadHashMigration, checkpointed.
  cbn. unfold get. rewrite lookup_insert_eq. cbn. apply String.eqb_neq in Hne as ->. rewrite Hu.
  apply String.eqb_neq in Hl as ->. by apply String.eqb_neq in Hp as ->.
Qed.
End migration.

(** ** The safety of the hash controller *)
Section hash_safety.
Context `{Karpenter} `{HashDeps} `{!MigrationCodec} (name : string).

(** The migration in effect, and the class with it: the class carried it when
    it was read, or this run stored the hashes of the class before. *)
Definition pinned (h : ctl_history) (read c nc : IBMNodeClass) (migration : Hash.HashMigration) : Prop :=
  asked h (CGetClass name) (Ok read) ∧ Hash.ReadHashMigration UnmarshalMigration c = Ok (Some migration) ∧
  (c = read ∧ nc = read ∨
   ∃ value, c = checkpointed read value ∧ asked h (CPatchClass read c) (Ok nc) ∧
     Hash.ProvisioningHash HashStructure read = (Hash.m_ProvisioningHash migration, None) ∧
     Hash.LegacyHash HashSpec read = (Hash.m_LegacyHash migration, None)).

(** A claim may be restamped when it was listed, is one of the migration, and
    nothing changes about its drift. *)
Definition may_restamp (h : ctl_history) (stored fresh : NodeClaim) : Prop :=
  ∃ read c nc migration claims, pinned h read c nc migration ∧ asked h CListClaims (Ok claims) ∧ stored ∈ claims ∧
    to_migrate nc migration stored = true ∧ fresh = restamped stored migration ∧
    isNodeClassHashDrifted (Annotations (claim_meta fresh)) c = isNodeClassHashDrifted (Annotations (claim_meta stored)) c.

(** Every listed claim of the migration was restamped, and the verdict on every
    listed claim of the class is kept. *)
Definition all_restamped (h : ctl_history) (read nc : IBMNodeClass) : Prop :=
  ∃ c migration claims, pinned h read c nc migration ∧ asked h CListClaims (Ok claims) ∧
    ∀ claim, claim ∈ claims → keeps_verdict c nc migration claim ∧
      (to_migrate nc migration claim = true →
       ∃ answer, asked h (CPatchClaim claim (restamped claim migration)) (Ok answer)).

(** The class is patched to store a checkpoint, before any claim is, or to store
    its hash under the new version, after all of them. *)
Definition may_patch_class (h : ctl_history) (stored fresh : IBMNodeClass) : Prop :=
  (∃ value, h = [Did (CGetClass name) (Ok stored)] ∧ fresh = checkpointed stored value ∧ version_current stored = false) ∨
  ∃ read hash, asked h (CGetClass name) (Ok read) ∧ Hash.ProvisioningHash HashStructure read = (hash, None) ∧
    fresh = stamped stored hash ∧
    (version_current read = true ∧ stored = read ∨ all_restamped h read stored).

Definition hash_guard : guard := λ h R e,
  match e with
  | CPatchClaim stored fresh => may_restamp h stored fresh
  | CPatchClass stored fresh => may_patch_class h stored fresh
  | _ => reads R e = true
  end.

Lemma pinned_grows l h read c nc migration : pinned h read c nc migration → pinned (l ++ h) read c nc migration.
Proof.
  intros (Ha & Hr & Ho). split_and!; [by apply asked_app|done|].
  destruct Ho as [?|(value & ? & ? & ? & ?)]; [by left|right]. exists value. split_and!; try done. by apply asked_app.
Qed.

Lemma restamp_all_wp read c nc migration claims visited hash h :
  pinned h read c nc migration → Hash.ProvisioningHash HashStructure c = (hash, None) →
  asked h CListClaims (Ok claims) → (∀ claim, claim ∈ visited → claim ∈ claims) →
  wp hash_guard (restamp_all nc migration visited) h (λ h' r, (∃ l, h' = l ++ h) ∧
    match r with
    | Ok _ => ∀ claim, claim ∈ visited → to_migrate nc migration claim = true →
        ∃ answer, asked h' (CPatchClaim claim (restamped claim migration)) (Ok answer)
    | Err _ => True
    end).
Proof.
  revert h. induction visited as [|claim visited IH]; intros h Hp Hh Hl Hin; cbn [restamp_all].
  { split; [by exists []|]. intros claim Hc. by apply elem_of_nil in Hc. }
  destruct (to_migrate nc migration claim) eqn:Et; cbn [negb].
  - split.
    + exists read, c, nc, migration, claims. split_and!; try done; [apply Hin; by left|].
      destruct Hp as (_ & Hr & _). by destruct (restamped_verdict c nc migration claim hash Hr Hh Et).
    + intros [answer|e]; [|split; [by eexists [_]|done]].
      eapply wp_mono; [|apply IH; [by apply (pinned_grows [_])|done|by right|intros; apply Hin; by right]].
      intros h' r [[l ->] Hr]. split; [by exists (l ++ [Did (CPatchClaim claim (restamped claim migration)) (Ok answer)]);
        rewrite <-(assoc_L (++))|].
      destruct r; [|done]. intros claim' [->|Hc]%elem_of_cons Hm; [|by apply Hr].
      exists answer. apply asked_app. by left.
  - eapply wp_mono; [|apply IH; [done|done|done|intros; apply Hin; by right]].
    intros h' r [Hl' Hr]. split; [done|]. destruct r; [|done].
    intros claim' [->|Hc]%elem_of_cons Hm; [congruence|by apply Hr].
Qed.

Lemma pin_migration_wp read legacy hash :
  version_current read = false → Hash.ProvisioningHash HashStructure read = (hash, None) →
  Hash.LegacyHash HashSpec read = (legacy, None) →
  wp hash_guard (pin_migration read legacy hash) [Did (CGetClass name) (Ok read)] (λ h' r,
    match r with
    | Ok (nc, migration) => ∃ c, pinned h' read c nc migration ∧ Spec c = Spec read
    | Err _ => True
    end).
Proof.
  intros Hv Hhash Hleg. unfold pin_migration.
  destruct (Hash.ReadHashMigration UnmarshalMigration read) as [[migration|]|e] eqn:Er; [| |done].
  { exists read. split; [|done]. split_and!; [by left|done|by left]. }
  destruct (MarshalMigration _) as [value|e] eqn:Em; [|done]. apply wp_try. split.
  - left. by exists value.
  - intros [nc|e]; [|done]. exists (checkpointed read value). split; [|done].
    split_and!; [right; by left| |].
    + apply checkpoint_reads; [done| |]; cbn.
      * unfold Hash.LegacyHash in Hleg. destruct (HashSpec (Spec read)); [|done]. injection Hleg as <-. apply Strconv.Itoa_nonempty.
      * unfold Hash.ProvisioningHash in Hhash. destruct (HashStructure _); [|done]. injection Hhash as <-. apply Strconv.Itoa_nonempty.
    + right. exists value. split_and!; try done. by left.
Qed.

(** What a success means for the class. *)
Definition hash_stored (h : ctl_history) : Prop :=
  (∃ e, asked h (CGetClass name) (Err e) ∧ kube_IsNotFound e = true) ∨
  ∃ read, asked h (CGetClass name) (Ok read) ∧
    (is_terminating (nc_meta read) = true ∨
     ∃ hash, Hash.ProvisioningHash HashStructure read = (hash, None) ∧
       (version_current read = true ∧ hash_current read hash = true ∨
        ∃ stored answer, asked h (CPatchClass stored (stamped stored hash)) (Ok answer) ∧
          (version_current read = true ∧ stored = read ∨ all_restamped h read stored))).

Lemma all_restamped_grows l h read nc : all_restamped h read nc → all_restamped (l ++ h) read nc.
Proof.
  intros (c & migration & claims & Hp & Hl & Hall). exists c, migration, claims.
  split_and!; [by apply pinned_grows|by apply asked_app|]. intros claim Hc.
  destruct (Hall claim Hc) as [Hv Ha]. split; [done|]. intros Hm. destruct (Ha Hm) as [answer ?]. exists answer. by apply asked_app.
Qed.

Lemma store_hash_wp read stored hash h :
  asked h (CGetClass name) (Ok read) → Hash.ProvisioningHash HashStructure read = (hash, None) →
  (version_current read = true ∧ stored = read ∨ all_restamped h read stored) →
  wp hash_guard (store_hash stored hash) h (λ h' r, match r with Ok _ => hash_stored h' | Err _ => True end).
Proof.
  intros Ha Hhash Ho. unfold store_hash. split.
  - right. exists read, hash. by split_and!.
  - intros [answer|e]; [|done]. right. exists read. split; [by right|]. right. exists hash. split; [done|].
    right. exists stored, answer. split; [by left|].
    destruct Ho; [by left|right]. by apply (all_restamped_grows [_]).
Qed.

Lemma migrate_wp read hash :
  version_current read = false → Hash.ProvisioningHash HashStructure read = (hash, None) →
  wp hash_guard (migrateClaims read hash) [Did (CGetClass name) (Ok read)] (λ h' r,
    match r with
    | Ok nc => asked h' (CGetClass name) (Ok read) ∧ all_restamped h' read nc
    | Err _ => True
    end).
Proof.
  intros Hv Hhash. unfold migrateClaims. destruct (Hash.LegacyHash HashSpec read) as [legacy [e|]] eqn:Hleg; [done|].
  apply wp_try. eapply wp_mono; [|apply wp_grows, (pin_migration_wp read legacy hash Hv Hhash Hleg)].
  intros h' [[nc migration]|e] [Hp [l ->]]; [|done]. destruct Hp as (c & Hp & Hspec).
  apply wp_try. split; [done|]. intros [claims|e]; [|done]. apply wp_try.
  eapply wp_mono; [|apply (restamp_all_wp read c nc migration claims claims hash)].
  - intros h' [[]|e] [[l' ->] Hall]; [|done]. split.
    + apply asked_app. right. apply asked_app. by left.
    + exists c, migration, claims. split_and!; [apply pinned_grows; by apply (pinned_grows [_])|
        apply asked_app; by left|]. intros claim Hc. split; [|by apply Hall].
      destruct Hp as (_ & Hr & _). by apply migration_keeps_verdict.
  - by apply (pinned_grows [_]).
  - rewrite <-Hhash. by apply provisioning_spec.
  - by left.
  - done.
Qed.

Lemma hash_wp : wp hash_guard (hash_Reconcile name) [] (λ h r, match r with Ok _ => hash_stored h | Err _ => True end).
Proof.
  unfold hash_Reconcile. split; [done|]. intros [read|e].
  2:{ cbn. destruct (kube_IsNotFound e) eqn:Ee; [|done]. left. exists e. split; [by left|done]. }
  destruct (is_terminating (nc_meta read)) eqn:Et.
  { right. exists read. split; [by left|by left]. }
  destruct (Hash.ProvisioningHash HashStructure read) as [hash [e|]] eqn:Hhash; [done|].
  destruct (version_current read) eqn:Ev; cbn [negb].
  - destruct (hash_current read hash) eqn:Ec.
    + right. exists read. split; [by left|right]. exists hash. split; [done|by left].
    + apply (store_hash_wp read); [by left|done|by left].
  - apply wp_try. eapply wp_mono; [|by apply migrate_wp]. intros h' [nc|e]; [|done]. intros (Ha & Hall).
    apply (store_hash_wp read); [done|done|by right].
Qed.
End hash_safety.

(** C31. The hash controller restamps a claim only when it is listed, of the class,
    not marked drifted, and hashed under version 1 with the legacy hash of a pinned
    migration; the claim is then drifted by its hash if and only if it was before.
    The checkpoint is stored before any claim is restamped, and the class gets its
    hash under the new version only after every such claim; the claims that are
    marked drifted or have another hash keep theirs.  The verdict on every listed
    claim that is not marked drifted, restamped or not, is the same from the class
    so stored, without the checkpoint, as it was with it: a new version of the hash
    drifts nothing.  On success the class has its hash. *)
Theorem hash_migration_keeps_verdicts `{Karpenter} `{HashDeps} `{!MigrationCodec} name tr r
    (Hrun : runs (hash_Reconcile name) tr r) :
  (∀ before R (e : ctl_call R) answer after,
     tr = before ++ Did e answer :: after → hash_guard name (reverse before) R e) ∧
  match r with Ok _ => hash_stored name (reverse tr) | Err _ => True end.
Proof. by destruct (guarded_run _ _ _ _ _ (hash_wp name) Hrun). Qed.

(** *** A class and a claim of the release before *)
Definition migration_bar : Ascii.ascii := Ascii.ascii_of_nat 124.

Definition example_deps : HashDeps :=
  {| HashSpec := λ _, Ok 41%Z;
     UnmarshalMigration := λ s,
       match cut migration_bar s with
       | Some (l, p) => Ok {| Hash.m_LegacyHash := l; Hash.m_ProvisioningHash := p |}
       | None => Err (GoErrors.New "no migration")
       end |}.

#[refine] Definition example_codec : @MigrationCodec example_deps :=
  {| MarshalMigration := λ m,
       if free_of migration_bar (Hash.m_LegacyHash m)
       then Ok (Hash.m_LegacyHash m +:+ String migration_bar (Hash.m_ProvisioningHash m))
       else Err (GoErrors.New "not a hash") |}.
Proof.
  intros m s. destruct (free_of migration_bar (Hash.m_LegacyHash m)) eqn:Ef; [|done]. intros [= <-]. split.
  - by destruct (Hash.m_LegacyHash m).
  - cbn. replace (cut migration_bar _) with (Some (Hash.m_LegacyHash m, Hash.m_ProvisioningHash m))
      by (symmetry; by apply cut_Some). by destruct m.
Defined.

Definition old_claim : NodeClaim :=
  {| claim_meta :=
       {| Name := "claim-1"; UID := "uid-claim"; ResourceVersion := "1"; Generation := 1; DeletionTimestamp := None;
          CreationTimestamp := 0; Labels := ∅;
          Annotations := <[AnnotationIBMNodeClassHashVersion := "1"]> {[AnnotationIBMNodeClassHash := "41"]};
          Finalizers := [] |};
     NodeClassRef := Some {| ref_Group := Group; ref_Kind := "IBMNodeClass"; ref_Name := "default" |};
     Requests := ∅; Requirements := []; claim_ProviderID := ""; claim_NodeName := ""; claim_ImageID := "";
     claim_Capacity := ∅; claim_Allocatable := ∅; claim_Conditions := [] |}%string.

Definition old_world : world :=
  {| w_nodes := []; w_claims := [old_claim]; w_classes := [class0]; w_cluster := no_meta; w_instances := [];
     w_tags := []; w_absent := None; w_now := 0 |}.

Definition patched_claims (tr : ctl_history) : list (string * string) :=
  omap (λ ev, match ev with
              | Did e _ => match e with
                           | CPatchClaim _ fresh => Some (Name (claim_meta fresh), get (Annotations (claim_meta fresh)) AnnotationIBMNodeClassHash)
                           | _ => None
                           end
              end) tr.

Lemma hash_migration_keeps_verdicts_witness : ∃ tr r,
  runs (@hash_Reconcile toy_karpenter example_deps example_codec "default") tr r ∧
  patched_claims tr = [("claim-1", "42")]%string ∧ r = Ok tt ∧
  @hash_stored toy_karpenter example_deps "default" (reverse tr).
Proof.
  pose proof (interp_runs (world_handle old_world) (@hash_Reconcile toy_karpenter example_deps example_codec "default") tt) as Hrun.
  eexists _, _. split_and!; [exact Hrun|by vm_compute|by vm_compute|].
  pose proof (@hash_migration_keeps_verdicts toy_karpenter example_deps example_codec "default"%string _ _ Hrun) as [_ Hs].
  exact Hs.
Defined.

(** ** The safety of termination *)

(** The nodes of the class are deleted only while the class is. *)
Definition may_delete_class_node (h : ctl_history) (name : string) (node : Node) (preconditions : option (string * string)) : Prop :=
  ∃ nc nodes, asked h (CGetClass name) (Ok nc) ∧ is_Some (DeletionTimestamp (nc_meta nc)) ∧
    asked h (CListNodesOfClass (Name (nc_meta nc))) (Ok nodes) ∧ node ∈ nodes ∧ preconditions = None.

(** The finalizer is added to a class that is not being deleted, and removed
    when every node that was listed was deleted and then no node is listed. *)
Definition may_patch_finalizers (h : ctl_history) (name : string) (stored fresh : IBMNodeClass) : Prop :=
  (DeletionTimestamp (nc_meta stored) = None ∧ h = [Did (CGetClass name) (Ok stored)] ∧
     ¬ (IBMNodeClassTerminationFinalizer ∈ Finalizers (nc_meta stored)) ∧
     fresh = class_finalizers stored (Finalizers (nc_meta stored) ++ [IBMNodeClassTerminationFinalizer])) ∨
  (∃ nodes deleted,
    h = Did (CListNodesOfClass (Name (nc_meta stored))) (Ok []) :: deleted
        ++ [Did (CListNodesOfClass (Name (nc_meta stored))) (Ok nodes); Did (CGetClass name) (Ok stored)] ∧
    is_Some (DeletionTimestamp (nc_meta stored)) ∧
    (∀ node, node ∈ nodes → ∃ answer, asked deleted (CDeleteNode node None) answer ∧ IgnoreNotFound answer = None) ∧
    fresh = class_finalizers stored (RemoveFinalizer (Finalizers (nc_meta stored)) IBMNodeClassTerminationFinalizer)).

Definition termination_guard (name : string) : guard := λ h R e,
  match e with
  | CDeleteNode node preconditions => may_delete_class_node h name node preconditions
  | CPatchClassUnlocked stored fresh => may_patch_finalizers h name stored fresh
  | _ => reads R e = true
  end.

Lemma delete_nodes_wp name nc nodes visited h :
  asked h (CGetClass name) (Ok nc) → is_Some (DeletionTimestamp (nc_meta nc)) →
  asked h (CListNodesOfClass (Name (nc_meta nc))) (Ok nodes) → (∀ n, n ∈ visited → n ∈ nodes) →
  wp (termination_guard name) (delete_nodes visited) h (λ h' e, ∃ deleted, h' = deleted ++ h ∧
    (e = None → ∀ node, node ∈ visited → ∃ answer, asked deleted (CDeleteNode node None) answer ∧ IgnoreNotFound answer = None)).
Proof.
  revert h. induction visited as [|node visited IH]; intros h Hc Hd Hl Hin; cbn [delete_nodes].
  { exists []. split; [done|]. intros _ node Hn. by apply elem_of_nil in Hn. }
  split; [exists nc, nodes; split_and!; try done; apply Hin; by left|]. intros answer.
  destruct (IgnoreNotFound answer) eqn:Ea; [by eexists [_]|].
  eapply wp_mono; [|apply IH; [by right|done|by right|intros; apply Hin; by right]].
  intros h' e (deleted & -> & Hall). exists (deleted ++ [Did (CDeleteNode node None) answer]).
  split; [by rewrite <-(assoc_L (++))|]. intros He n [->|Hn]%elem_of_cons.
  - exists answer. split; [apply asked_app; by left|done].
  - destruct (Hall He n Hn) as (a & ? & ?). exists a. split; [apply elem_of_app; by left|done].
Qed.

Lemma termination_wp name : wp (termination_guard name) (termination_Reconcile name) [] (λ _ _, True).
Proof.
  unfold termination_Reconcile. split; [done|]. intros [nc|e]; [|by cbn; destruct (kube_IsNotFound e)].
  destruct (DeletionTimestamp (nc_meta nc)) as [t|] eqn:Ed.
  - apply wp_try. split; [done|]. intros [nodes|e]; [|done]. apply wp_bind.
    eapply wp_mono; [|apply (delete_nodes_wp name nc nodes nodes); [right; by left|by rewrite Ed|by left|done]].
    intros h' [e|] (deleted & -> & Hall); [done|]. specialize (Hall eq_refl).
    apply wp_try. split; [done|]. intros [[|? ?]|e]; [|done|done].
    split; [|by intros [|]]. right. exists nodes, deleted. split_and!; [done|by rewrite Ed|done|done].
  - destruct (ContainsFinalizer _ _) eqn:Ef; [done|]. split; [|by intros [|]]. left. split_and!; [done|done| |].
    + by apply ContainsFinalizer_false.
    + unfold AddFinalizer. by rewrite Ef.
Qed.

(** C32. The termination controller adds its finalizer to a live class, deletes
    nodes only while their class is being deleted, and lets the class go only when every
    node that was listed was deleted and, listed again, there is none. *)
Theorem class_outlives_its_nodes name tr r (Hrun : runs (termination_Reconcile name) tr r) :
  ∀ before R (e : ctl_call R) answer after,
    tr = before ++ Did e answer :: after → termination_guard name (reverse before) R e.
Proof. by destruct (guarded_run _ _ _ _ _ (termination_wp name) Hrun). Qed.

Definition ending_class : IBMNodeClass :=
  set_class_meta class0
    {| Name := "default"; UID := "uid-class"; ResourceVersion := "4"; Generation := 2; DeletionTimestamp := Some 9%Z;
       CreationTimestamp := 0; Labels := ∅; Annotations := ∅; Finalizers := ["other"; IBMNodeClassTerminationFinalizer] |}%string.

Definition ending_world : world :=
  {| w_nodes := []; w_claims := []; w_classes := [ending_class]; w_cluster := no_meta; w_instances := [];
     w_tags := []; w_absent := None; w_now := 0 |}.

Lemma class_outlives_its_nodes_witness :
  let before := [Did (CGetClass "default"%string) (Ok ending_class); Did (CListNodesOfClass "default"%string) (Ok []);
    Did (CListNodesOfClass "default"%string) (Ok [])] in
  let fresh := class_finalizers ending_class ["other"%string] in
  ∃ tr r, runs (termination_Reconcile "default"%string) tr r ∧
    tr = before ++ [Did (CPatchClassUnlocked ending_class fresh) (Ok fresh)] ∧
    may_patch_finalizers (reverse before) "default"%string ending_class fresh.
Proof.
  intros before fresh.
  pose proof (interp_runs (world_handle ending_world) (termination_Reconcile "default"%string) tt) as Hrun.
  assert (Htr : (interp (world_handle ending_world) (termination_Reconcile "default"%string) tt).1.1
    = before ++ [Did (CPatchClassUnlocked ending_class fresh) (Ok fresh)]) by (by vm_compute).
  eexists _, _. split_and!; [exact Hrun|exact Htr|].
  exact (class_outlives_its_nodes "default"%string _ _ Hrun before _ (CPatchClassUnlocked ending_class fresh) (Ok fresh) [] Htr).
Defined.
