(* ===== verification/AllocationControllers.v ===== *)
(** * AllocationControllers: the controllers that release a claim's allocation

    [pkg/controllers/iks/allocation/controller.go] and
    [pkg/controllers/nodeclaim/allocation/controller.go] hold a NodeClaim with a
    finalizer until what it launched is gone: the isolated pool of an IKS claim,
    the instance of a VPC claim.  Both call the instance provider of their
    backend, so that the programs here are over the calls of IksApi and of
    VpcApi, and the theorems compose those of the providers. *)
From stdpp Require Import prelude list strings gmap.
From S2P Require Import Prelude GoLib GoSort Errors NodeClass ProviderIDs Prog Kube.
From S2P Require Import IksApi IksAllocation IksLaunch IksLaunchSafety IksCleanup IksCleanupSafety IksExample.
From S2P Require Import VpcApi VpcLaunch VpcCreate VpcSafety VpcCleanupSafety VpcExample ControllerApi.

Open Scope string_scope.
Local Open Scope prog_scope.

(** The claim without the finalizer. *)
Definition without_finalizer (claim : NodeClaim) (f : string) : NodeClaim :=
  set_meta claim (with_finalizers (claim_meta claim) (RemoveFinalizer (Finalizers (claim_meta claim)) f)).

(** A claim that waits for the controller: it is being deleted and has the
    finalizer. *)
Definition awaits_release (claim : NodeClaim) (f : string) : bool :=
  is_terminating (claim_meta claim) && ContainsFinalizer (Finalizers (claim_meta claim)) f.

(** ** IKS *)
Section iks.
Context `{Stdlib} `{Karpenter} `{MapRange}.

Local Abbreviation iks A := (prog iks_call (result GoErrors.error A)).

(** The finalizer is taken off under the optimistic lock. *)
Definition drop_allocation (claim : NodeClaim) : iks Result :=
  answer ⟵ PatchNodeClaim claim (without_finalizer claim AllocationFinalizer);
  match answer with
  | Ok _ => Ret (Ok no_requeue)
  | Err e => if kube_IsConflict e then Ret (Ok {| RequeueAfter := GoTime.Second |}) else end_of e
  end.

Definition release_iks (p : IKSWorkerPoolProvider) (claim : NodeClaim) : prog iks_call err :=
  if empty (claim_ProviderID claim) then IksCleanup.Cleanup p claim else ConfirmGone p claim.

(** [provider] is the controller's own, or the one the factory gives. *)
Definition iks_allocation_Reconcile (provider : result GoErrors.error IKSWorkerPoolProvider) (name : string) : iks Result :=
  answer ⟵ GetNodeClaim name;
  match answer with
  | Err e => end_of e
  | Ok claim =>
      if negb (awaits_release claim AllocationFinalizer) then Ret (Ok no_requeue)
      else
        match provider with
        | Err e => fail_with e
        | Ok p =>
            bind (release_iks p claim) (λ e,
            match e with
            | None => Ret (Ok {| RequeueAfter := 5 * GoTime.Second |}%Z)
            | Some e => if IsNodeClaimNotFoundError e then drop_allocation claim else fail_with e
            end)
        end
  end.
End iks.

(** ** VPC *)
Section vpc.
Context `{HL : LaunchCodec}.

Local Abbreviation vpc A := (prog vpc_call (result GoErrors.error A)).

Definition drop_launch (claim : NodeClaim) : vpc Result :=
  answer ⟵ KPatchClaim claim (without_finalizer claim LaunchFinalizer);
  match answer with Ok _ => Ret (Ok no_requeue) | Err e => fail_with e end.

(** Whether the launch is over: the instance of a bound claim is gone, or the
    pending launch was cleaned up. *)
Definition launch_complete (p : VPCInstanceProvider) (claim : NodeClaim) : vpc bool :=
  if negb (empty (claim_ProviderID claim)) then
    bind (GetFresh p (claim_ProviderID claim)) (λ answer,
    match answer with
    | Ok _ => Ret (Ok false)
    | Err e => if IsNodeClaimNotFoundError e then Ret (Ok true) else fail_with e
    end)
  else CleanupPending p claim.

Definition vpc_allocation_Reconcile (provider : result GoErrors.error VPCInstanceProvider) (name : string) : vpc Result :=
  answer ⟵ KGetClaim name;
  match answer with
  | Err e => end_of e
  | Ok claim =>
      if negb (awaits_release claim LaunchFinalizer) then Ret (Ok no_requeue)
      else
        match provider with
        | Err e => fail_with e
        | Ok p =>
            bind (ValidateLaunchTarget p (Some claim)) (λ e,
            match e with
            | Some e => fail_with e
            | None =>
                complete ←! launch_complete p claim;
                if complete : bool then drop_launch claim else Ret (Ok {| RequeueAfter := 10 * GoTime.Second |}%Z)
            end)
        end
  end.
End vpc.

(** ** Theorems *)
Local Open Scope nat_scope.
Local Open Scope list_scope.

Lemma awaits_release_true claim f :
  awaits_release claim f = true ↔ is_terminating (claim_meta claim) = true ∧ f ∈ Finalizers (claim_meta claim).
Proof. unfold awaits_release. by rewrite andb_true_iff, ContainsFinalizer_true. Qed.

Section iks_safety.
Context `{Stdlib} `{!CodecErrors} `{Karpenter} `{MapRange}.

(** What the provider may do for the claim: [pending_guard] of a claim without a
    provider ID, [confirm_guard] of a bound one. *)
Definition release_guard (claim : NodeClaim) : guard (E := iks_call) :=
  if empty (claim_ProviderID claim) then IksCleanupSafety.pending_guard claim else confirm_guard claim.

(** Nothing of the allocation is left. *)
Definition allocation_gone (claim : NodeClaim) (h : history iks_call) : Prop :=
  if empty (claim_ProviderID claim) then nothing_pending claim h else confirmed_gone claim h.

Lemma release_iks_wp p claim :
  wp (release_guard claim) (release_iks p claim) []
    (λ h r, clean h → ∀ e, r = Some e → IsNodeClaimNotFoundError e = true → allocation_gone claim h).
Proof.
  unfold release_iks, release_guard, allocation_gone. destruct (empty (claim_ProviderID claim)) eqn:Ep.
  - apply Cleanup_wp. by apply String.eqb_eq.
  - apply ConfirmGone_wp.
Qed.

(** The provider does not touch the claim. *)
Definition no_claim_patch (R : Type) (e : iks_call R) : bool :=
  match e with PatchNodeClaim _ _ => false | _ => true end.

Lemma owned_loop_no_patch a nodes found : only no_claim_patch (owned_loop a nodes found).
Proof. revert found. induction nodes as [|n nodes IH]; intros found; cbn [owned_loop]; solve_quiet. Qed.

Lemma release_no_patch p claim : only no_claim_patch (release_iks p claim).
Proof.
  unfold release_iks, IksCleanup.Cleanup, ConfirmGone, cleanup, locked, confirm_locked, cleanup_locked, confirm_absent.
  unfold pool_absent, pool_present, release, check, error_with, error_, no_error.
  unfold ClusterUID_, getIKSClient, reserve, owned_reservation, updateReservation.
  solve_quiet; apply owned_loop_no_patch.
Qed.

(** The history before a step of the controller: the first read; a step of the
    provider for the claim that was read; or the patch that takes the finalizer
    off the claim as it was read. *)
Definition allocation_guard (name : string) : guard (E := iks_call) := λ h R e,
  match e with
  | GetNodeClaim _ => h = [] ∨ ∃ claim l, h = l ++ [Did (GetNodeClaim name) (Ok claim)] ∧ release_guard claim l R e
  | PatchNodeClaim stored fresh =>
      is_terminating (claim_meta stored) = true ∧ AllocationFinalizer ∈ Finalizers (claim_meta stored) ∧
      fresh = without_finalizer stored AllocationFinalizer ∧
      (clean h → ∃ l, h = l ++ [Did (GetNodeClaim name) (Ok stored)] ∧ allocation_gone stored l)
  | _ => ∃ claim l, h = l ++ [Did (GetNodeClaim name) (Ok claim)] ∧ release_guard claim l R e
  end.

(** A run that does not come back: there is nothing to release, or the finalizer
    is off. *)
Definition nothing_to_release (name : string) (h : history iks_call) : Prop :=
  (∃ e, h = [Did (GetNodeClaim name) (Err e)] ∧ kube_IsNotFound e = true) ∨
  (∃ claim, h = [Did (GetNodeClaim name) (Ok claim)] ∧ awaits_release claim AllocationFinalizer = false) ∨
  ∃ claim answer h', h = Did (PatchNodeClaim claim (without_finalizer claim AllocationFinalizer)) answer :: h' ∧
    match answer with Ok _ => True | Err e => kube_IsNotFound e = true end.

Lemma allocation_wp provider name :
  wp (allocation_guard name) (iks_allocation_Reconcile provider name) []
    (λ h r, r = Ok no_requeue → nothing_to_release name h).
Proof.
  unfold iks_allocation_Reconcile. split; [by left|]. intros [claim|e].
  2:{ apply end_of_wp; [by intros x [=]|]. intros He _. left. by exists e. }
  destruct (awaits_release claim AllocationFinalizer) eqn:Ea; cbn [negb].
  2:{ intros _. right; left. by exists claim. }
  destruct provider as [p|e]; [|by intros [=]]. apply wp_bind.
  eapply wp_mono; [|eapply wp_guard_mono; [|apply (wp_after
    (λ h R e, release_guard claim h R e ∧ no_claim_patch R e = true) _ [Did (GetNodeClaim name) (Ok claim)]),
    wp_restrict, release_iks_wp; apply release_no_patch]].
  2:{ intros h R e (l & -> & Hg & Hp). destruct e; try done; try (right; by exists claim, l); by exists claim, l. }
  apply awaits_release_true in Ea as [Hterm Hfin].
  intros h [e|] (l & -> & Hl); [|by intros [=]].
  destruct (IsNodeClaimNotFoundError e) eqn:En; [|by intros [=]]. unfold drop_allocation. split.
  { split_and!; try done. intros Hc. exists l. split; [done|]. apply (Hl (clean_app _ _ Hc) e); done. }
  intros [c|e'].
  - intros _. right; right. by eexists claim, _, _.
  - destruct (kube_IsConflict e'); [by intros [=]|]. apply end_of_wp; [by intros x [=]|].
    intros He _. right; right. by eexists claim, _, _.
Qed.

(** C15. The IKS allocation controller takes its finalizer off a claim only from
    the version of the claim that it read being deleted with the finalizer, and
    only after the provider showed that nothing of the allocation is left: the
    claim never had one; or no Node of it was listed and its reservation was
    released with the pool and its worker absent from IKS; or, for a bound claim,
    IKS has neither the pool nor the worker and the reservation is gone.  All the
    provider does in between is within the guarantees of its own theorems.  A
    claim that is being deleted with the finalizer is looked at again unless the
    finalizer was taken off or the claim is gone. *)
Theorem iks_finalizer_outlives_allocation provider name tr r
    (Hrun : runs (iks_allocation_Reconcile provider name) tr r) :
  (∀ before R (e : iks_call R) answer after,
     tr = before ++ Did e answer :: after → allocation_guard name (reverse before) R e) ∧
  (r = Ok no_requeue → nothing_to_release name (reverse tr)).
Proof. apply (guarded_run _ _ _ _ _ (allocation_wp provider name) Hrun). Qed.
End iks_safety.

Section vpc_safety.
Context `{HL : LaunchCodec}.

(** The launch is over: the API does not find the instance of a bound claim, in
    an account that was verified; the launch of a pending one is [finished]. *)
Definition launch_over (claim : NodeClaim) (h : history vpc_call) : Prop :=
  if negb (empty (claim_ProviderID claim)) then
    ∃ e, IsNodeClaimNotFoundError e = true ∧ lookup_result h (claim_ProviderID claim) false (Err e)
  else
    ∃ config, decodeLaunch (get (Annotations (claim_meta claim)) LaunchAnnotation) = Ok config ∧ finished h config.

(** What the provider may do for the claim. *)
Definition launch_guard (claim : NodeClaim) : guard (E := vpc_call) := λ h R e,
  if negb (empty (claim_ProviderID claim)) then lookup_guard (claim_ProviderID claim) h R e
  else ∃ config, decodeLaunch (get (Annotations (claim_meta claim)) LaunchAnnotation) = Ok config ∧
                 pending_guard config h R e.

Lemma complete_wp p claim h :
  wp (launch_guard claim) (launch_complete p claim) h (λ h' r, r = Ok true → launch_over claim h').
Proof.
  unfold launch_complete, launch_guard, launch_over.
  destruct (negb (empty (claim_ProviderID claim))) eqn:Ep.
  - apply wp_bind. eapply wp_mono; [|apply lookup_wp]. intros h' [node|e]; [by intros _ [=]|].
    intros Hl. destruct (IsNodeClaimNotFoundError e) eqn:En; [|by intros [=]]. intros _. by exists e.
  - destruct (decodeLaunch _) as [config|e] eqn:Ed.
    + eapply wp_mono; [|eapply wp_guard_mono; [|by apply CleanupPending_wp]].
      * intros h' r Hf Hr. exists config. split; [done|]. by apply Hf.
      * intros h' R e Hg. by exists config.
    + unfold CleanupPending. rewrite Ed. by intros [=].
Qed.

Definition vpc_allocation_guard (name : string) : guard (E := vpc_call) := λ h R e,
  match e with
  | KPatchClaim stored fresh =>
      is_terminating (claim_meta stored) = true ∧ LaunchFinalizer ∈ Finalizers (claim_meta stored) ∧
      fresh = without_finalizer stored LaunchFinalizer ∧
      (∃ l, h = l ++ [Did (KGetClaim name) (Ok stored)]) ∧ launch_over stored h
  | _ => VpcSafety.reads R e = true ∨ ∃ claim l, h = l ++ [Did (KGetClaim name) (Ok claim)] ∧ launch_guard claim h R e
  end.

(** A run that does not come back. *)
Definition no_launch_left (name : string) (h : history vpc_call) : Prop :=
  (∃ e, h = [Did (KGetClaim name) (Err e)] ∧ kube_IsNotFound e = true) ∨
  (∃ claim, h = [Did (KGetClaim name) (Ok claim)] ∧ awaits_release claim LaunchFinalizer = false) ∨
  ∃ claim claim' h', h = Did (KPatchClaim claim (without_finalizer claim LaunchFinalizer)) (Ok claim') :: h'.

Lemma validate_reads p claim : only VpcSafety.reads (ValidateLaunchTarget p (Some claim)).
Proof. unfold ValidateLaunchTarget. solve_quiet; apply accountTarget_reads || apply launchTarget_reads. Qed.

Lemma allocation_reads name h R (e : vpc_call R) : VpcSafety.reads R e = true → vpc_allocation_guard name h R e.
Proof. intros He. destruct e; try done; by left. Qed.

Lemma vpc_allocation_wp provider name :
  wp (vpc_allocation_guard name) (vpc_allocation_Reconcile provider name) []
    (λ h r, r = Ok no_requeue → no_launch_left name h).
Proof.
  unfold vpc_allocation_Reconcile. split; [by left|]. intros [claim|e].
  2:{ apply end_of_wp; [by intros x [=]|]. intros He _. left. by exists e. }
  destruct (awaits_release claim LaunchFinalizer) eqn:Ea; cbn [negb].
  2:{ intros _. right; left. by exists claim. }
  apply awaits_release_true in Ea as [Hterm Hfin].
  destruct provider as [p|e]; [|by intros [=]]. apply wp_bind.
  eapply wp_mono; [|apply (wp_only VpcSafety.reads), validate_reads; apply allocation_reads].
  intros h [e|] (l1 & -> & _); [by intros [=]|]. apply wp_try.
  eapply wp_mono; [|eapply wp_guard_mono; [|apply wp_extends, wp_grows, (complete_wp p claim)]].
  2:{ intros h R e [Hg [l2 ->]]. destruct e; try (right; exists claim, (l2 ++ l1); by rewrite <-(assoc_L (++))).
      unfold launch_guard in Hg. destruct (negb _); [done|]. by destruct Hg as (? & ? & ?). }
  intros h [[]|e] [Hover [l2 ->]]; [| by intros [=]|by intros [=]]. split.
  { split_and!; try done; [|by apply Hover]. exists (l2 ++ l1). by rewrite <-(assoc_L (++)). }
  intros [c|e]; [|by intros [=]]. intros _. right; right. by eexists claim, c, _.
Qed.

(** C16. The VPC allocation controller takes its finalizer off a claim only from
    the version of the claim that it read being deleted with the finalizer, and
    only when its launch is over: the API does not find the instance of a bound
    claim, in a verified account; a pending launch was cleaned up, its instance
    deleted and then not found, or there is none and none can still come.
    Before that only the instance of the launch and its nodes are touched.  A
    claim that is being deleted with the finalizer is looked at again unless the
    finalizer was taken off or the claim is gone. *)
Theorem vpc_finalizer_outlives_launch provider name tr r
    (Hrun : runs (vpc_allocation_Reconcile provider name) tr r) :
  (∀ before R (e : vpc_call R) answer after,
     tr = before ++ Did e answer :: after → vpc_allocation_guard name (reverse before) R e) ∧
  (r = Ok no_requeue → no_launch_left name (reverse tr)).
Proof. apply (guarded_run _ _ _ _ _ (vpc_allocation_wp provider name) Hrun). Qed.
End vpc_safety.

(** ** The theorems at concrete runs *)
Definition ending (m : ObjectMeta) : ObjectMeta :=
  {| Name := Name m; UID := UID m; ResourceVersion := ResourceVersion m; Generation := Generation m;
     DeletionTimestamp := Some 5%Z; CreationTimestamp := CreationTimestamp m; Labels := Labels m;
     Annotations := Annotations m; Finalizers := Finalizers m |}.
Definition ending_claim : NodeClaim := set_meta pending_claim (ending (claim_meta pending_claim)).

(** The cloud of IksExample, whose claim is being deleted. *)
Definition serve_ending (R : Type) (e : iks_call R) : cloud → R * cloud :=
  match e in iks_call R return cloud → R * cloud with
  | GetNodeClaim _ => λ s, (Ok ending_claim, s)
  | e' => serve _ e'
  end.

Definition iks_allocation0 : iks_prog (result GoErrors.error Result) :=
  iks_allocation_Reconcile (Ok provider0) "claim-1".
Definition pass1 := interp serve_ending iks_allocation0 launched_cloud.
Definition pass2 := interp serve_ending iks_allocation0 pass1.2.
Definition drops (ev : event iks_call) : bool :=
  match ev with Did e _ => match e with PatchNodeClaim _ _ => true | _ => false end end.

(** The first run deletes the pool and comes back; the second takes the
    finalizer off. *)
Lemma iks_finalizer_outlives_allocation_witness :
  existsb deleted pass1.1.1 = true ∧ existsb drops pass1.1.1 = false ∧
  pass1.1.2 = Ok {| RequeueAfter := 5 * GoTime.Second |}%Z ∧
  existsb releases pass2.1.1 = true ∧ existsb drops pass2.1.1 = true ∧ pass2.1.2 = Ok no_requeue ∧
  (∀ before R (e : iks_call R) answer after, pass2.1.1 = before ++ Did e answer :: after →
     allocation_guard "claim-1" (reverse before) R e) ∧
  (pass2.1.2 = Ok no_requeue → nothing_to_release "claim-1" (reverse pass2.1.1)).
Proof.
  do 6 (split; [vm_compute; reflexivity|]).
  apply (iks_finalizer_outlives_allocation (Ok provider0) "claim-1"), interp_runs.
Defined.

Definition ending_launch (i : option Instance) : vcloud :=
  {| vc_claim := set_meta (with_checkpoint (submit config0 0)) (ending (claim_meta (with_checkpoint (submit config0 0))));
     vc_instance := i; vc_nodes := []; vc_now := (2 * GoTime.Hour)%Z |}.

Lemma vpc_finalizer_outlives_launch_witness :
  let q := vpc_allocation_Reconcile (Ok vpc0) "claim-1" in
  let s := ending_launch (Some the_instance) in
  existsb removed (vtrace q s) = true ∧ existsb cleared (vtrace q s) = true ∧ vanswer q s = Ok no_requeue ∧
  (∀ before R (e : vpc_call R) answer after, vtrace q s = before ++ Did e answer :: after →
     vpc_allocation_guard "claim-1" (reverse before) R e) ∧
  (vanswer q s = Ok no_requeue → no_launch_left "claim-1" (reverse (vtrace q s))).
Proof.
  cbv zeta. do 3 (split; [vm_compute; reflexivity|]).
  apply (vpc_finalizer_outlives_launch (Ok vpc0) "claim-1"), vran.
Defined.
