(* ===== verification/NodeClaimControllers.v ===== *)
(** * NodeClaimControllers: registration, startup taints and tags of claims

    [pkg/controllers/nodeclaim/registration/controller.go] and
    [nodeclaim/startuptaint/controller.go] migrate the claims and nodes an older
    version of the program left: the finalizers and labels it used are taken off,
    and the nodes of registered claims get the termination finalizer and the
    owner reference that version never set.
    [pkg/controllers/nodeclaim/tagging/controller.go] writes the tags a claim
    asks for to its VPC instance.  Each is a program over the calls of
    ControllerApi. *)
From stdpp Require Import prelude list strings gmap.
From S2P Require Import Prelude GoLib Errors NodeClass ProviderIDs Ownership Prog Kube IksAllocation ControllerApi.

Open Scope string_scope.
Local Open Scope prog_scope.

(** A conflict is tried again at once, an object that is gone needs nothing. *)
Definition end_of_patch {A} (answer : result GoErrors.error A) : ctl Result :=
  match answer with
  | Ok _ => Ret (Ok no_requeue)
  | Err e => if kube_IsConflict e then Ret (Ok {| RequeueAfter := GoTime.Millisecond |}) else end_of e
  end.

(** ** Registration *)
Definition NodeClaimRegistrationFinalizer : string := "registration.nodeclaim.ibm.sh/finalizer".
Definition ConditionTypeRegistered : string := "Registered".

Definition set_owners (node : Node) (l : list OwnerReference) : Node :=
  {| node_meta := node_meta node; OwnerReferences := l; node_ProviderID := node_ProviderID node;
     Unschedulable := Unschedulable node; node_Status := node_Status node |}.

Definition claim_without (claim : NodeClaim) (f : string) : NodeClaim :=
  set_meta claim (with_finalizers (claim_meta claim) (RemoveFinalizer (Finalizers (claim_meta claim)) f)).
Definition node_without (node : Node) (f : string) : Node :=
  set_node_meta node (with_finalizers (node_meta node) (RemoveFinalizer (Finalizers (node_meta node)) f)).

(** The node of the claim, when it is there under the claim's provider ID. *)
Definition findNodeForNodeClaim (claim : NodeClaim) : ctl (option Node) :=
  if empty (claim_ProviderID claim) || empty (claim_NodeName claim) then Ret (Ok None)
  else
    answer ⟵ CGetNode (claim_NodeName claim);
    match answer with
    | Err e => match IgnoreNotFound (Some e) with Some e => fail_with e | None => Ret (Ok None) end
    | Ok node =>
        if negb (String.eqb (node_ProviderID node) (claim_ProviderID claim)) then Ret (Ok None)
        else Ret (Ok (Some node))
    end.

(** The node without the finalizer of the older version, [None] when it is gone. *)
Definition removeLegacyNodeFinalizer (node : Node) : ctl (option Node) :=
  if negb (ContainsFinalizer (Finalizers (node_meta node)) NodeClaimRegistrationFinalizer) then Ret (Ok (Some node))
  else
    answer ⟵ CGetNode (Name (node_meta node));
    match answer with
    | Err e => match IgnoreNotFound (Some e) with Some e => fail_with e | None => Ret (Ok None) end
    | Ok current =>
        if negb (String.eqb (UID (node_meta current)) (UID (node_meta node))) ||
           negb (String.eqb (node_ProviderID current) (node_ProviderID node))
        then fail "node identity changed while cleaning registration finalizer"
        else if negb (ContainsFinalizer (Finalizers (node_meta current)) NodeClaimRegistrationFinalizer)
        then Ret (Ok (Some current))
        else
          answer ⟵ CPatchNode current (node_without current NodeClaimRegistrationFinalizer);
          match answer with
          | Ok patched => Ret (Ok (Some patched))
          | Err e => match IgnoreNotFound (Some e) with Some e => fail_with e | None => Ret (Ok None) end
          end
    end.

Definition owner_of (claim : NodeClaim) : OwnerReference :=
  {| ref_APIVersion := "karpenter.sh/v1"; owner_Kind := "NodeClaim"; owner_Name := Name (claim_meta claim);
     owner_UID := UID (claim_meta claim); BlockOwnerDeletion := Some true |}.

Definition owned_by_claim (claim : NodeClaim) (node : Node) : bool :=
  existsb (λ r, String.eqb (owner_UID r) (UID (claim_meta claim))) (OwnerReferences node).

(** The node as core registration would have left it. *)
Definition adopted (claim : NodeClaim) (node : Node) : Node :=
  let node := set_node_meta node
    (with_finalizers (node_meta node) (AddFinalizer (Finalizers (node_meta node)) TerminationFinalizer)) in
  if owned_by_claim claim node then node else set_owners node (OwnerReferences node ++ [owner_of claim])%list.

(** [equality.Semantic.DeepEqual], of nodes that differ in nothing else. *)
Definition same_node (node node' : Node) : bool :=
  bool_decide (Finalizers (node_meta node) = Finalizers (node_meta node')) &&
  bool_decide (OwnerReferences node = OwnerReferences node').

(** The migration of a node that has a registered claim. *)
Definition adopt_node (claim : NodeClaim) (node : Node) : ctl Result :=
  if is_terminating (claim_meta claim) || is_terminating (node_meta node) then Ret (Ok no_requeue)
  else if negb (condition_true (claim_Conditions claim) ConditionTypeRegistered) then Ret (Ok no_requeue)
  else if same_node node (adopted claim node) then Ret (Ok no_requeue)
  else
    answer ⟵ CPatchNode node (adopted claim node);
    end_of_patch answer.

(** After the claim's own finalizer is off. *)
Definition migrate_node (claim : NodeClaim) : ctl Result :=
  node ←! findNodeForNodeClaim claim;
  match node with
  | None => Ret (Ok no_requeue)
  | Some node =>
      bind (removeLegacyNodeFinalizer node) (λ answer,
      match answer with
      | Err e => if kube_IsConflict e then Ret (Ok {| RequeueAfter := GoTime.Millisecond |}) else fail_with e
      | Ok None => Ret (Ok no_requeue)
      | Ok (Some node) => adopt_node claim node
      end)
  end.

Definition registration_Reconcile (name : string) : ctl Result :=
  answer ⟵ CGetClaim name;
  match answer with
  | Err e => end_of e
  | Ok claim =>
      if negb (is_ibm_claim claim) then Ret (Ok no_requeue)
      else if ContainsFinalizer (Finalizers (claim_meta claim)) NodeClaimRegistrationFinalizer then
        answer ⟵ CPatchClaim claim (claim_without claim NodeClaimRegistrationFinalizer);
        match answer with
        | Err e => end_of_patch (Err e : result GoErrors.error NodeClaim)
        | Ok claim => migrate_node claim
        end
      else migrate_node claim
  end.

(** The second controller, over the nodes that still have the finalizer. *)
Definition reconcileNode (name : string) : ctl Result :=
  answer ⟵ CGetNode name;
  match answer with
  | Err e => end_of e
  | Ok node =>
      bind (removeLegacyNodeFinalizer node) (λ answer,
      match answer with Err e => fail_with e | Ok _ => Ret (Ok no_requeue) end)
  end.

(** ** Startup taints *)
Definition StartupTaintLifecycleFinalizer : string := "startuptaint.nodeclaim.ibm.sh/finalizer".
Definition StartupTaintsAppliedLabel : string := "karpenter-ibm.sh/startup-taints-applied".
Definition RegularTaintsAppliedLabel : string := "karpenter-ibm.sh/regular-taints-applied".

Definition legacy_labels : list string :=
  [StartupTaintsAppliedLabel; RegularTaintsAppliedLabel; "karpenter-ibm.sh/startup-taint-lifecycle"].

(** The labels that are left, and whether any was removed. *)
Definition removeLegacyLabels (labels : gmap string string) : gmap string string * bool :=
  foldl (λ '(labels, changed) label,
    match labels !! label with Some _ => (delete label labels, true) | None => (labels, changed) end)
    (labels, false) legacy_labels.
Arguments removeLegacyLabels : simpl never.

Definition relabeled_node (node : Node) : Node :=
  set_node_meta node (with_labels (node_meta node) (removeLegacyLabels (Labels (node_meta node))).1).

Definition removeNodeLabels (claim : NodeClaim) : ctl_err :=
  if empty (claim_NodeName claim) || empty (claim_ProviderID claim) then Ret None
  else
    answer ⟵ CGetNode (claim_NodeName claim);
    match answer with
    | Err e => Ret (IgnoreNotFound (Some e))
    | Ok node =>
        if negb (String.eqb (node_ProviderID node) (claim_ProviderID claim)) then Ret None
        else if negb (removeLegacyLabels (Labels (node_meta node))).2 then Ret None
        else
          answer ⟵ CPatchNode node (relabeled_node node);
          match answer with Ok _ => Ret None | Err e => Ret (IgnoreNotFound (Some e)) end
    end.

(** The claim without the finalizer and the labels. *)
Definition untainted (claim : NodeClaim) : NodeClaim :=
  let m := claim_meta claim in
  set_meta claim (with_labels (with_finalizers m (RemoveFinalizer (Finalizers m) StartupTaintLifecycleFinalizer))
    (removeLegacyLabels (Labels m)).1).
Definition is_tainted (claim : NodeClaim) : bool :=
  ContainsFinalizer (Finalizers (claim_meta claim)) StartupTaintLifecycleFinalizer ||
  (removeLegacyLabels (Labels (claim_meta claim))).2.

Definition startuptaint_Reconcile (name : string) : ctl Result :=
  answer ⟵ CGetClaim name;
  match answer with
  | Err e => end_of e
  | Ok claim =>
      if negb (is_ibm_claim claim) then Ret (Ok no_requeue)
      else
        bind (removeNodeLabels claim) (λ e,
        match e with
        | Some e => if kube_IsConflict e then Ret (Ok {| RequeueAfter := GoTime.Millisecond |}) else fail_with e
        | None =>
            if negb (is_tainted claim) then Ret (Ok no_requeue)
            else
              answer ⟵ CPatchClaim claim (untainted claim);
              end_of_patch answer
        end)
  end.

(** ** Tags *)
Definition isVPCMode (c : IBMNodeClass) : bool :=
  if negb (empty (IKSClusterID (Spec c))) then false
  else
    match BootstrapMode (Spec c) with
    | Some "iks-api" => false
    | Some "cloud-init" => true
    | _ => negb (empty (VPC (Spec c)))
    end.

(** The backend the claim was launched with wins over the class. *)
Definition tagsVPCInstance (claim : NodeClaim) (c : IBMNodeClass) : bool :=
  match get (Annotations (claim_meta claim)) BackendAnnotation with
  | "iks" => false
  | "" => isVPCMode c
  | _ => true
  end.

Definition add_tag (tags : gmap string string) (value : string) : gmap string string :=
  match Strings.Cut value "=" with
  | Some (key, tagValue) => if ReservedTag key then tags else <[key := tagValue]> tags
  | None => tags
  end.

Definition requirementTags (claim : NodeClaim) : gmap string string :=
  foldl (λ tags r, if String.eqb (req_Key r) "karpenter-ibm.sh/tags" then foldl add_tag tags (Values r) else tags)
    ∅ (Requirements claim).

Definition updateVPCInstanceTags (providerID : string) (tags : gmap string string) : ctl_err :=
  match tagging_target providerID with
  | None => Ret (Some (GoErrors.New "invalid VPC provider ID"))
  | Some (region, id) =>
      e ⟵ CVPCClient;
      match e with
      | Some e => Ret (Some e)
      | None =>
          e ⟵ CRegionClient region;
          match e with
          | Some e => Ret (Some e)
          | None => call (CUpdateInstanceTags region id tags)
          end
      end
  end.

(** One round of the loop: the error that ends it, or [None].  Other errors are
    only logged. *)
Definition tag_claim (claim : NodeClaim) : ctl_err :=
  if empty (claim_NodeName claim) then Ret None
  else
    answer ⟵ CGetNode (claim_NodeName claim);
    match answer with
    | Err e => Ret (IgnoreNotFound (Some e))
    | Ok node =>
        if empty (node_ProviderID node) then Ret None
        else
          match NodeClassRef claim with
          | None => Ret (Some (GoErrors.New nil_dereference))
          | Some ref =>
              answer ⟵ CGetClass (ref_Name ref);
              match answer with
              | Err _ => Ret None
              | Ok c =>
                  if negb (tagsVPCInstance claim c) then Ret None
                  else bind (updateVPCInstanceTags (node_ProviderID node) (requirementTags claim)) (λ _, Ret None)
              end
          end
    end.

Fixpoint tag_claims (claims : list NodeClaim) : ctl_err :=
  match claims with
  | [] => Ret None
  | claim :: claims' => or_err (tag_claim claim) (tag_claims claims')
  end.

Definition tagging_Reconcile : ctl Result :=
  claims ←! call CListClaims;
  bind (tag_claims claims) (λ e, match e with Some e => fail_with e | None => Ret (Ok no_requeue) end).

(** ** Theorems *)
Local Open Scope list_scope.

(** *** Registration *)
Lemma AddFinalizer_in l f : f ∈ AddFinalizer l f.
Proof.
  unfold AddFinalizer. destruct (ContainsFinalizer l f) eqn:E; [by apply ContainsFinalizer_true|].
  apply elem_of_app. right. by left.
Qed.

Lemma AddFinalizer_keeps l f g : g ∈ l → g ∈ AddFinalizer l f.
Proof. unfold AddFinalizer. destruct (ContainsFinalizer l f); [done|]. intros. apply elem_of_app. by left. Qed.

(** A node that core registration need not complete. *)
Definition is_adopted (claim : NodeClaim) (node : Node) : Prop :=
  TerminationFinalizer ∈ Finalizers (node_meta node) ∧ owned_by_claim claim node = true.

Lemma adopted_is_adopted claim node : is_adopted claim (adopted claim node).
Proof.
  unfold is_adopted, adopted. cbv zeta. destruct (owned_by_claim claim _) eqn:E.
  - split; [apply AddFinalizer_in|done].
  - split; [apply AddFinalizer_in|]. unfold owned_by_claim. cbn. rewrite existsb_app. cbn.
    by rewrite String.eqb_refl, orb_true_r.
Qed.

Lemma same_node_adopted claim node : same_node node (adopted claim node) = true ↔ is_adopted claim node.
Proof.
  split.
  - intros [Hf Ho]%andb_true_iff. apply bool_decide_eq_true in Hf, Ho.
    destruct (adopted_is_adopted claim node) as [? Hown]. split; [by rewrite Hf|].
    unfold owned_by_claim in *. by rewrite Ho.
  - intros [Hf Ho]. unfold same_node, adopted. cbv zeta.
    unfold owned_by_claim in *. cbn. rewrite Ho. cbn. unfold AddFinalizer.
    apply ContainsFinalizer_true in Hf as ->. by rewrite !bool_decide_eq_true_2.
Qed.

(** The object as it was last read or written. *)
Definition claim_seen (h : ctl_history) (name : string) (claim : NodeClaim) : Prop :=
  asked h (CGetClaim name) (Ok claim) ∨ ∃ stored fresh, asked h (CPatchClaim stored fresh) (Ok claim).
Definition node_seen (h : ctl_history) (node : Node) : Prop :=
  (∃ name, asked h (CGetNode name) (Ok node)) ∨ ∃ stored fresh, asked h (CPatchNode stored fresh) (Ok node).

Lemma claim_seen_app l h name claim : claim_seen h name claim → claim_seen (l ++ h) name claim.
Proof. intros [Hc|(s & f & Hc)]; [left|right; exists s, f]; by apply asked_app. Qed.
Lemma node_seen_app l h node : node_seen h node → node_seen (l ++ h) node.
Proof. intros [[n Hc]|(s & f & Hc)]; [left; exists n|right; exists s, f]; by apply asked_app. Qed.

Definition may_unhold (h : ctl_history) (stored fresh : Node) : Prop :=
  node_seen h stored ∧ NodeClaimRegistrationFinalizer ∈ Finalizers (node_meta stored) ∧
  fresh = node_without stored NodeClaimRegistrationFinalizer.
Definition may_adopt (h : ctl_history) (name : string) (stored fresh : Node) : Prop :=
  ∃ claim, claim_seen h name claim ∧ node_seen h stored ∧
    is_terminating (claim_meta claim) = false ∧ is_terminating (node_meta stored) = false ∧
    condition_true (claim_Conditions claim) ConditionTypeRegistered = true ∧
    ¬ is_adopted claim stored ∧ fresh = adopted claim stored.

Definition registration_guard (name : string) : guard := λ h R e,
  match e with
  | CPatchClaim stored fresh =>
      asked h (CGetClaim name) (Ok stored) ∧ is_ibm_claim stored = true ∧
      NodeClaimRegistrationFinalizer ∈ Finalizers (claim_meta stored) ∧
      fresh = claim_without stored NodeClaimRegistrationFinalizer
  | CPatchNode stored fresh => may_unhold h stored fresh ∨ may_adopt h name stored fresh
  | _ => reads R e = true
  end.

(** Nothing is left to do for the node of the claim. *)
Definition node_settled (h : ctl_history) (claim : NodeClaim) : Prop :=
  claim_ProviderID claim = "" ∨ claim_NodeName claim = "" ∨
  (∃ node, asked h (CGetNode (claim_NodeName claim)) (Ok node) ∧ node_ProviderID node ≠ claim_ProviderID claim) ∨
  (∃ name e, asked h (CGetNode name) (Err e) ∧ kube_IsNotFound e = true) ∨
  (∃ stored fresh e, asked h (CPatchNode stored fresh) (Err e) ∧ kube_IsNotFound e = true) ∨
  is_terminating (claim_meta claim) = true ∨
  condition_true (claim_Conditions claim) ConditionTypeRegistered = false ∨
  ∃ node, node_seen h node ∧
    (is_terminating (node_meta node) = true ∨ is_adopted claim node ∨
     ∃ node', asked h (CPatchNode node (adopted claim node)) (Ok node')).

Definition registration_done (name : string) (h : ctl_history) : Prop :=
  (∃ e, asked h (CGetClaim name) (Err e) ∧ kube_IsNotFound e = true) ∨
  (∃ stored fresh e, asked h (CPatchClaim stored fresh) (Err e) ∧ kube_IsNotFound e = true) ∨
  ∃ claim, claim_seen h name claim ∧ (is_ibm_claim claim = false ∨ node_settled h claim).

Lemma registration_reads name h R (e : ctl_call R) : ControllerApi.reads R e = true → registration_guard name h R e.
Proof. by destruct e. Qed.

Lemma end_of_patch_wp {A} (G : guard) (answer : result GoErrors.error A) h Q :
  (∀ x, Q h (Err x)) → Q h (Ok {| RequeueAfter := GoTime.Millisecond |}) →
  ((∃ a, answer = Ok a) ∨ (∃ e, answer = Err e ∧ kube_IsNotFound e = true) → Q h (Ok no_requeue)) →
  wp G (end_of_patch answer) h Q.
Proof.
  intros He Hr Hd. unfold end_of_patch. destruct answer as [a|e]; [cbn; eauto|].
  destruct (kube_IsConflict e); [done|]. apply end_of_wp; [done|]. intros. apply Hd. right. by exists e.
Qed.

(** What holds when a run that does not come back. *)
Definition unless_back (P : ctl_history → Prop) (h : ctl_history) (r : result GoErrors.error Result) : Prop :=
  r = Ok no_requeue → P h.
Lemma unless_back_err P h e : unless_back P h (Err e).
Proof. by intros [=]. Qed.
Lemma unless_back_later P h : unless_back P h (Ok {| RequeueAfter := GoTime.Millisecond |}).
Proof. by intros [=]. Qed.
#[local] Hint Resolve unless_back_err unless_back_later : go_db.

Lemma adopt_node_wp name claim node h :
  claim_seen h name claim → node_seen h node →
  wp (registration_guard name) (adopt_node claim node) h (unless_back (registration_done name)).
Proof.
  intros Hc Hn. unfold adopt_node.
  assert (Hdone : node_settled h claim → registration_done name h) by (intros ?; right; right; eauto).
  destruct (is_terminating (claim_meta claim)) eqn:Etc; cbn [orb].
  { intros _. apply Hdone. unfold node_settled. rewrite Etc. tauto. }
  destruct (is_terminating (node_meta node)) eqn:Etn.
  { intros _. apply Hdone. do 7 right. eauto. }
  destruct (condition_true _ _) eqn:Er; cbn [negb].
  2:{ intros _. apply Hdone. unfold node_settled. rewrite Er. tauto. }
  destruct (same_node _ _) eqn:Es.
  { apply same_node_adopted in Es. intros _. apply Hdone. do 7 right. eauto. }
  split.
  { right. exists claim. split_and!; try done. intros Ha%same_node_adopted. congruence. }
  intros answer. apply end_of_patch_wp; auto with go_db. intros Ha _.
  destruct Ha as [[node' ->]|(e & -> & He)]; right; right; exists claim;
    (split; [by apply (claim_seen_app [_])|]); right.
  - do 7 right. exists node. split; [by apply (node_seen_app [_])|]. right; right. exists node'. apply asked_here.
  - do 4 right. left. do 3 eexists. split; [apply asked_here|done].
Qed.

Lemma unhold_wp name node h :
  node_seen h node →
  wp (registration_guard name) (removeLegacyNodeFinalizer node) h (λ h' r, (∃ l, h' = l ++ h) ∧
    match r with
    | Err _ => True
    | Ok (Some node') => node_seen h' node'
    | Ok None =>
        (∃ name e, asked h' (CGetNode name) (Err e) ∧ kube_IsNotFound e = true) ∨
        (∃ stored fresh e, asked h' (CPatchNode stored fresh) (Err e) ∧ kube_IsNotFound e = true)
    end).
Proof.
  intros Hn. unfold removeLegacyNodeFinalizer. destruct (negb _); [split; [by exists []|done]|].
  split; [done|]. intros [current|e].
  2:{ cbn. destruct (kube_IsNotFound e) eqn:He; (split; [by eexists [_]|]); [|done]. left. do 2 eexists.
      split; [apply asked_here|done]. }
  destruct (_ || _); [split; [by eexists [_]|done]|].
  assert (Hcur : ∀ l, node_seen (l ++ Did (CGetNode (Name (node_meta node))) (Ok current) :: h) current).
  { intros l. left. eexists. apply asked_app, asked_here. }
  destruct (negb _) eqn:Ef; [split; [by eexists [_]|apply (Hcur [])]|].
  apply negb_false_iff, ContainsFinalizer_true in Ef.
  split; [left; split_and!; [apply (Hcur [])|done|done]|]. intros [patched|e].
  - split; [by eexists [_; _]|]. right. do 2 eexists. apply asked_here.
  - cbn. destruct (kube_IsNotFound e) eqn:He; (split; [by eexists [_; _]|]); [|done]. right. do 3 eexists.
    split; [apply asked_here|done].
Qed.

Lemma migrate_node_wp name claim h :
  claim_seen h name claim →
  wp (registration_guard name) (migrate_node claim) h (unless_back (registration_done name)).
Proof.
  intros Hc. unfold migrate_node. apply wp_try.
  assert (Hdone : ∀ l, node_settled (l ++ h) claim → registration_done name (l ++ h)).
  { intros l ?. right; right. exists claim. split; [by apply claim_seen_app|]. by right. }
  unfold findNodeForNodeClaim. destruct (_ || _) eqn:Ee.
  { intros _. apply (Hdone []). unfold node_settled.
    apply orb_true_iff in Ee as [Ee%String.eqb_eq|Ee%String.eqb_eq]; tauto. }
  split; [done|]. intros [node|e].
  2:{ cbn. destruct (kube_IsNotFound e) eqn:He; [|apply unless_back_err]. intros _. apply (Hdone [_]). do 3 right. left.
      do 2 eexists. split; [apply asked_here|done]. }
  destruct (String.eqb_spec (node_ProviderID node) (claim_ProviderID claim)) as [Ep|Ep]; cbn [negb].
  2:{ intros _. apply (Hdone [_]). do 2 right. left. exists node. split; [apply asked_here|done]. }
  apply wp_bind. eapply wp_mono; [|apply unhold_wp; left; eexists; apply asked_here].
  intros h' [[node'|]|e] [[l ->] Hr].
  - apply adopt_node_wp; [|done]. by apply claim_seen_app, (claim_seen_app [_]).
  - intros _. rewrite cons_middle, (assoc_L (++)) in Hr |- *. apply Hdone. unfold node_settled. tauto.
  - destruct (kube_IsConflict e); by intros [=].
Qed.

(** The registration controller changes two things only: it takes the finalizer
    of the older version off a claim or node, as it was last read or written; and
    it completes, with the termination finalizer and the owner reference, the
    node of a registered claim when neither is being deleted.  A run that does
    not come back left nothing to do. *)
Theorem registration_migrates name tr r (Hrun : runs (registration_Reconcile name) tr r) :
  (∀ before R (e : ctl_call R) answer after,
     tr = before ++ Did e answer :: after → registration_guard name (reverse before) R e) ∧
  (r = Ok no_requeue → registration_done name (reverse tr)).
Proof.
  refine (guarded_run _ _ _ _ (unless_back (registration_done name)) _ Hrun).
  unfold registration_Reconcile. split; [done|]. intros [claim|e].
  2:{ apply end_of_wp; [auto with go_db|]. intros He _. left. exists e. split; [apply asked_here|done]. }
  destruct (is_ibm_claim claim) eqn:Ei; cbn [negb].
  2:{ intros _. right; right. exists claim. split; [left; apply asked_here|by left]. }
  destruct (ContainsFinalizer _ _) eqn:Ef.
  2:{ apply migrate_node_wp. left. apply asked_here. }
  split; [split_and!; [apply asked_here|done|by apply ContainsFinalizer_true|done]|].
  intros [claim'|e]; [apply migrate_node_wp; right; exists claim; eexists; apply asked_here|].
  apply end_of_patch_wp; auto with go_db. intros Ha _. right; left.
  destruct Ha as [[? ?]|(e' & Ea & He)]; [done|]. injection Ea as <-. do 3 eexists. split; [apply asked_here|done].
Qed.

(** *** Startup taints *)
Lemma removeLegacyLabels_lookup labels k :
  (removeLegacyLabels labels).1 !! k = if bool_decide (k ∈ legacy_labels) then None else labels !! k.
Proof.
  unfold removeLegacyLabels. assert (Hgen : ∀ l m b,
    (foldl (λ '(labels, changed) label,
       match labels !! label with Some _ => (delete label labels, true) | None => (labels, changed) end) (m, b) l).1
       !! k = if bool_decide (k ∈ l) then None else (m : gmap string string) !! k).
  { induction l as [|x l IH]; intros m b; [done|]. cbn [foldl].
    destruct (decide (k = x)) as [->|Hne].
    - rewrite (bool_decide_eq_true_2 (x ∈ x :: l)) by (by left).
      destruct (m !! x) eqn:Em; rewrite IH; case_bool_decide; rewrite ?lookup_delete_eq; done.
    - rewrite (bool_decide_ext (k ∈ x :: l) (k ∈ l)) by (rewrite elem_of_cons; naive_solver).
      destruct (m !! x); rewrite IH; case_bool_decide; rewrite ?lookup_delete_ne; done. }
  apply Hgen.
Qed.

Lemma removeLegacyLabels_changed labels :
  (removeLegacyLabels labels).2 = true ↔ ∃ k, k ∈ legacy_labels ∧ is_Some (labels !! k).
Proof.
  unfold removeLegacyLabels. assert (Hgen : ∀ l (m : gmap string string) b, NoDup l →
    (foldl (λ '(labels, changed) label,
       match labels !! label with Some _ => (delete label labels, true) | None => (labels, changed) end) (m, b) l).2
       = true ↔ b = true ∨ ∃ k, k ∈ l ∧ is_Some (m !! k)).
  { induction l as [|x l IH]; intros m b Hl; cbn [foldl].
    { split; [by left|]. intros [|(k & Hk & _)]; [done|]. by apply elem_of_nil in Hk. }
    apply NoDup_cons in Hl as [Hx Hl]. destruct (m !! x) eqn:Em; rewrite IH by done; split.
    - intros _. right. exists x. split; [by left|]. by eexists.
    - intros _. by left.
    - intros [|(k & ? & ?)]; [by left|]. right. exists k. split; [by right|done].
    - intros [|(k & [->|?]%elem_of_cons & Hs)]; [by left| |right; eauto]. rewrite Em in Hs. by destruct Hs. }
  rewrite Hgen; [naive_solver|]. apply (bool_decide_unpack _). vm_compute. exact I.
Qed.

(** Nothing of the older version is left on the object. *)
Definition no_legacy_labels (m : ObjectMeta) : Prop := ∀ k, k ∈ legacy_labels → Labels m !! k = None.
Definition no_taint_marks (claim : NodeClaim) : Prop :=
  (StartupTaintLifecycleFinalizer ∉ Finalizers (claim_meta claim)) ∧ no_legacy_labels (claim_meta claim).

Lemma unlabeled m : (removeLegacyLabels (Labels m)).2 = false ↔ no_legacy_labels m.
Proof.
  rewrite <-not_true_iff_false, removeLegacyLabels_changed. unfold no_legacy_labels. split.
  - intros Hn k Hk. apply eq_None_not_Some. intros Hs. apply Hn. by exists k.
  - intros Hn (k & Hk & [v Hv]). by rewrite (Hn k Hk) in Hv.
Qed.

Lemma is_tainted_false claim : is_tainted claim = false ↔ no_taint_marks claim.
Proof.
  unfold is_tainted, no_taint_marks. by rewrite orb_false_iff, ContainsFinalizer_false, unlabeled.
Qed.

Lemma untainted_clean claim : no_taint_marks (untainted claim).
Proof.
  split; cbn.
  - rewrite elem_of_RemoveFinalizer. naive_solver.
  - intros k Hk. cbn. by rewrite removeLegacyLabels_lookup, bool_decide_eq_true_2.
Qed.

Lemma relabeled_clean node : no_legacy_labels (node_meta (relabeled_node node)).
Proof. intros k Hk. cbn. by rewrite removeLegacyLabels_lookup, bool_decide_eq_true_2. Qed.

Definition startuptaint_guard (name : string) : guard := λ h R e,
  match e with
  | CPatchNode stored fresh =>
      ∃ claim, asked h (CGetClaim name) (Ok claim) ∧ is_ibm_claim claim = true ∧
        asked h (CGetNode (claim_NodeName claim)) (Ok stored) ∧ node_ProviderID stored = claim_ProviderID claim ∧
        ¬ no_legacy_labels (node_meta stored) ∧ fresh = relabeled_node stored
  | CPatchClaim stored fresh =>
      asked h (CGetClaim name) (Ok stored) ∧ is_ibm_claim stored = true ∧
      ¬ no_taint_marks stored ∧ fresh = untainted stored
  | _ => ControllerApi.reads R e = true
  end.

(** The node of the claim is clean, or not there. *)
Definition node_untainted (h : ctl_history) (claim : NodeClaim) : Prop :=
  claim_NodeName claim = "" ∨ claim_ProviderID claim = "" ∨
  (∃ e, asked h (CGetNode (claim_NodeName claim)) (Err e) ∧ kube_IsNotFound e = true) ∨
  ∃ node, asked h (CGetNode (claim_NodeName claim)) (Ok node) ∧
    (node_ProviderID node ≠ claim_ProviderID claim ∨ no_legacy_labels (node_meta node) ∨
     ∃ answer, asked h (CPatchNode node (relabeled_node node)) answer ∧
       match answer with Ok _ => True | Err e => kube_IsNotFound e = true end).

Definition untainted_in (name : string) (h : ctl_history) : Prop :=
  (∃ e, asked h (CGetClaim name) (Err e) ∧ kube_IsNotFound e = true) ∨
  ∃ claim, asked h (CGetClaim name) (Ok claim) ∧
    (is_ibm_claim claim = false ∨
     node_untainted h claim ∧
     (no_taint_marks claim ∨
      ∃ answer, asked h (CPatchClaim claim (untainted claim)) answer ∧
        match answer with Ok _ => True | Err e => kube_IsNotFound e = true end)).

Lemma labels_wp name claim h :
  asked h (CGetClaim name) (Ok claim) → is_ibm_claim claim = true →
  wp (startuptaint_guard name) (removeNodeLabels claim) h (λ h' e,
    (∃ l, h' = l ++ h) ∧ (e = None → node_untainted h' claim)).
Proof.
  intros Hc Hi. unfold removeNodeLabels. destruct (_ || _) eqn:Ee.
  { split; [by exists []|]. intros _. apply orb_true_iff in Ee as [Ee%String.eqb_eq|Ee%String.eqb_eq];
      unfold node_untainted; tauto. }
  split; [done|]. intros [node|e].
  2:{ split; [by eexists [_]|]. cbn. destruct (kube_IsNotFound e) eqn:He; [|done]. intros _. right; right; left.
      exists e. split; [apply asked_here|done]. }
  assert (Hnode : ∀ l, asked (l ++ Did (CGetNode (claim_NodeName claim)) (Ok node) :: h)
    (CGetNode (claim_NodeName claim)) (Ok node)) by (intros; apply asked_app, asked_here).
  destruct (String.eqb_spec (node_ProviderID node) (claim_ProviderID claim)) as [Ep|Ep]; cbn [negb].
  2:{ split; [by eexists [_]|]. intros _. do 3 right. exists node. split; [apply (Hnode [])|by left]. }
  destruct (removeLegacyLabels (Labels (node_meta node))).2 eqn:Eu; cbn [negb].
  2:{ split; [by eexists [_]|]. intros _. do 3 right. exists node. split; [apply (Hnode [])|].
      right; left. by apply unlabeled. }
  split.
  { exists claim. split_and!; [by apply asked_later|done|apply (Hnode [])|done| |done].
    intros Hn%unlabeled. by rewrite Hn in Eu. }
  intros answer.
  assert (Hdone : match answer with Ok _ => True | Err e => kube_IsNotFound e = true end →
    node_untainted (Did (CPatchNode node (relabeled_node node)) answer
                    :: Did (CGetNode (claim_NodeName claim)) (Ok node) :: h) claim).
  { intros Ha. do 3 right. exists node. split; [apply (Hnode [_])|]. right; right. exists answer.
    split; [apply asked_here|done]. }
  destruct answer as [node'|e]; (split; [by eexists [_; _]|]); [intros _; by apply Hdone|].
  cbn. destruct (kube_IsNotFound e) eqn:He; [|done]. intros _. by apply Hdone.
Qed.

(** The startup taint controller takes nothing but the finalizer and the three
    labels of the older version off claims of an IBMNodeClass and off their
    nodes, from the versions it read; a run that does not come back left none
    of them. *)
Theorem startup_taints_removed name tr r (Hrun : runs (startuptaint_Reconcile name) tr r) :
  (∀ before R (e : ctl_call R) answer after,
     tr = before ++ Did e answer :: after → startuptaint_guard name (reverse before) R e) ∧
  (r = Ok no_requeue → untainted_in name (reverse tr)).
Proof.
  refine (guarded_run _ _ _ _ (unless_back (untainted_in name)) _ Hrun).
  unfold startuptaint_Reconcile. split; [done|]. intros [claim|e].
  2:{ apply end_of_wp; [by intros x [=]|]. intros He _. left. exists e. split; [apply asked_here|done]. }
  destruct (is_ibm_claim claim) eqn:Ei; cbn [negb].
  2:{ intros _. right. exists claim. split; [apply asked_here|by left]. }
  apply wp_bind. eapply wp_mono; [|apply labels_wp; [apply asked_here|done]].
  intros h [e|] [[l ->] Hn]; [destruct (kube_IsConflict e); by intros [=]|]. specialize (Hn eq_refl).
  assert (Hc : ∀ l', asked (l' ++ l ++ [Did (CGetClaim name) (Ok claim)]) (CGetClaim name) (Ok claim))
    by (intros; apply asked_app, asked_app, asked_here).
  destruct (is_tainted claim) eqn:Et; cbn [negb].
  2:{ intros _. right. exists claim. split; [apply (Hc [])|]. right. split; [done|]. left. by apply is_tainted_false. }
  split; [split_and!; [apply (Hc [])|done| |done]; intros Hm%is_tainted_false; congruence|].
  intros answer. apply end_of_patch_wp; [by intros x [=]|by intros [=]|]. intros Ha _. right. exists claim.
  split; [apply (Hc [_])|]. right. split.
  - destruct Hn as [?|[?|[(e & ? & ?)|(node & ? & Hn)]]]; unfold node_untainted; [tauto|tauto| |].
    + do 2 right; left. exists e. split; [by apply asked_later|done].
    + do 3 right. exists node. split; [by apply asked_later|].
      destruct Hn as [?|[?|(a & ? & ?)]]; [by left|by right; left|]. right; right. exists a.
      split; [by apply asked_later|done].
  - right. exists answer. split; [apply asked_here|]. by destruct Ha as [[c ->]|(e & -> & He)].
Qed.

(** *** Tags *)

(** A tag a claim asks for: [key=value] in a requirement on the tags key, where
    the key is none of the program's own. *)
Definition asks_for_tag (claim : NodeClaim) (k v : string) : Prop :=
  ReservedTag k = false ∧
  ∃ r value, r ∈ Requirements claim ∧ req_Key r = "karpenter-ibm.sh/tags" ∧ value ∈ Values r ∧
             Strings.Cut value "=" = Some (k, v).

Lemma requirementTags_asked claim : map_Forall (asks_for_tag claim) (requirementTags claim).
Proof.
  unfold requirementTags. apply foldl_invariant; [apply map_Forall_empty|].
  intros tags r Hr Ht. destruct (String.eqb_spec (req_Key r) "karpenter-ibm.sh/tags"); [|done].
  apply foldl_invariant; [done|]. intros tags' value Hv Ht'. unfold add_tag.
  destruct (Strings.Cut value "=") as [[k v]|] eqn:Ec; [|done]. destruct (ReservedTag k) eqn:Er; [done|].
  apply map_Forall_insert_2; [|done]. split; [done|]. by exists r, value.
Qed.

(** A request to tag: the instance of a node of a listed claim that VPC backs,
    with the tags the claim asks for. *)
Definition may_tag (h : ctl_history) (region id : string) (tags : gmap string string) : Prop :=
  ∃ claims claim node ref c, asked h CListClaims (Ok claims) ∧ claim ∈ claims ∧
    asked h (CGetNode (claim_NodeName claim)) (Ok node) ∧ tagging_target (node_ProviderID node) = Some (region, id) ∧
    NodeClassRef claim = Some ref ∧ asked h (CGetClass (ref_Name ref)) (Ok c) ∧ tagsVPCInstance claim c = true ∧
    tags = requirementTags claim ∧ map_Forall (asks_for_tag claim) tags.

Definition tagging_guard : guard := λ h R e,
  match e with
  | CUpdateInstanceTags region id tags => may_tag h region id tags ∧ asked h (CRegionClient region) None
  | _ => ControllerApi.reads R e = true
  end.

Lemma tag_claim_wp claims claim h :
  asked h CListClaims (Ok claims) → claim ∈ claims →
  wp tagging_guard (tag_claim claim) h (λ h' _, ∃ l, h' = l ++ h).
Proof.
  intros Hl Hin. unfold tag_claim. destruct (empty (claim_NodeName claim)); [by exists []|].
  split; [done|]. intros [node|e]; [|by eexists [_]]. destruct (empty (node_ProviderID node)); [by eexists [_]|].
  destruct (NodeClassRef claim) as [ref|] eqn:Er; [|by eexists [_]]. split; [done|].
  intros [c|e]; [|by eexists [_; _]]. destruct (tagsVPCInstance claim c) eqn:Et; cbn [negb]; [|by eexists [_; _]].
  apply wp_bind. unfold updateVPCInstanceTags.
  destruct (tagging_target (node_ProviderID node)) as [[region id]|] eqn:Eg; [|by eexists [_; _]].
  split; [done|]. intros [e|]; [by eexists [_; _; _]|]. split; [done|]. intros [e|]; [by eexists [_; _; _; _]|].
  split; [|intros answer; by eexists [_; _; _; _; _]]. split; [|apply asked_here].
  exists claims, claim, node, ref, c. split_and!; auto 6 with go_db. apply requirementTags_asked.
Qed.

Lemma tag_claims_wp claims rest h :
  asked h CListClaims (Ok claims) → (∀ c, c ∈ rest → c ∈ claims) →
  wp tagging_guard (tag_claims rest) h (λ _ _, True).
Proof.
  revert h. induction rest as [|claim rest IH]; intros h Hl Hin; cbn [tag_claims]; [done|].
  apply wp_bind. eapply wp_mono; [|apply (tag_claim_wp claims); [done|apply Hin; by left]].
  intros h' [e|] [l ->]; [done|]. apply IH; [by apply asked_app|]. intros c Hc. apply Hin. by right.
Qed.

(** The tagging controller writes tags only to the instance of a node of a listed
    claim whose backend is VPC, in the region its provider ID names, and only
    tags the claim asks for; none of them is one of the program's own, whatever
    the case it is written in. *)
Theorem tags_are_asked_for tr r (Hrun : runs tagging_Reconcile tr r) :
  ∀ before R (e : ctl_call R) answer after,
    tr = before ++ Did e answer :: after → tagging_guard (reverse before) R e.
Proof.
  refine (proj1 (guarded_run tagging_guard _ _ _ (λ _ _, True) _ Hrun)).
  unfold tagging_Reconcile. apply wp_try. split; [done|]. intros [claims|e]; [|done]. apply wp_bind.
  eapply wp_mono; [|apply (tag_claims_wp claims); [apply asked_here|done]]. by intros h [e|].
Qed.
