(* ===== verification/LoadBalancer.v ===== *)
(** * LoadBalancer: members of load balancer pools

    [pkg/providers/loadbalancer/provider.go] registers the instance of a claim
    with the pools its NodeClass names, and takes it out of them;
    [healthcheck.go] computes the health check of a pool;
    [pkg/controllers/nodeclaim/loadbalancer/controller.go] calls both, under a
    finalizer on the claim.  They are programs over the calls below.  The wait for
    a healthy member is left out: the NodeClass it looks for in the context is
    never put there, so it is not reached. *)
From stdpp Require Import prelude list strings gmap.
From S2P Require Import Prelude GoLib Errors NodeClass ProviderIDs Prog Kube IksAllocation IksExample ControllerApi.
Import Strings.

Open Scope string_scope.
Local Open Scope prog_scope.

(** ** The API *)
Record HealthMonitor := {
  Delay : option Z;
  MaxRetries : option Z;
  hm_Timeout : option Z;
  hm_Type : option string;
  URLPath : option string;
}.

(** A pool; its monitor is [None] when it is not of the SDK's type.  The identity
    of a pool and of a member, which the code dereferences, is required by the
    API's schema. *)
Record Pool := {
  lbp_ID : string;
  lbp_Name : option string;
  lbp_Protocol : option string;
  lbp_Monitor : option HealthMonitor;
}.

(** A member; [mem_Target] is the identity of its target, [None] when it has
    none or it is not of the SDK's type. *)
Record Member := {
  mem_ID : string;
  mem_Target : option string;
}.

Record MonitorPatch := {
  patch_delay : Z;
  patch_max_retries : Z;
  patch_timeout : Z;
  patch_type : string;
  patch_url_path : option string;
}.
Record PoolPatch := {
  patch_protocol : option string;
  patch_monitor : option MonitorPatch;
}.

Inductive lb_call : Type → Type :=
  | GetLoadBalancer (lb : string) : lb_call err
  | ListLoadBalancerPools (lb : string) : lb_call (result GoErrors.error (list Pool))
  | GetLoadBalancerPool (lb pool : string) : lb_call (result GoErrors.error Pool)
  | UpdateLoadBalancerPool (lb pool : string) (patch : PoolPatch) : lb_call err
  | CreateLoadBalancerPoolMember (lb pool instance : string) (port weight : Z) : lb_call (result GoErrors.error Member)
  | DeleteLoadBalancerPoolMember (lb pool member : string) : lb_call err
  | ListLoadBalancerPoolMembers (lb pool : string) : lb_call (result GoErrors.error (list Member))
  (* Kubernetes; an update requires the resource version of the object *)
  | LGetClaim (name : string) : lb_call (result GoErrors.error NodeClaim)
  | LGetClass (name : string) : lb_call (result GoErrors.error IBMNodeClass)
  | LGetNode (name : string) : lb_call (result GoErrors.error Node)
  | LListClaims : lb_call (result GoErrors.error (list NodeClaim))
  | LUpdateClaim (claim : NodeClaim) : lb_call err
  | LNow : lb_call Z.

Local Abbreviation lb A := (prog lb_call (result GoErrors.error A)).
Local Abbreviation lb_err := (prog lb_call err).

(** ** The provider *)
Definition integration (c : IBMNodeClass) : option LoadBalancerIntegration :=
  match LoadBalancerIntegration_ (Spec c) with
  | Some i => if lb_Enabled i then Some i else None
  | None => None
  end.

(** The first pool of the name. *)
Definition findPoolByName (loadBalancerID poolName : string) : lb string :=
  answer ⟵ ListLoadBalancerPools loadBalancerID;
  match answer with
  | Err e => fail_with (wrapped_ "listing load balancer pools" e)
  | Ok pools =>
      match List.find (λ p, bool_decide (lbp_Name p = Some poolName)) pools with
      | Some p => Ret (Ok (lbp_ID p))
      | None => fail ("pool with name " ++ poolName ++ " not found in load balancer " ++ loadBalancerID)
      end
  end.

(** The first member of the instance, "" when there is none. *)
Definition findMemberByInstanceID (loadBalancerID poolID instanceID : string) : lb string :=
  answer ⟵ ListLoadBalancerPoolMembers loadBalancerID poolID;
  match answer with
  | Err e => fail_with (wrapped_ "listing load balancer pool members" e)
  | Ok members =>
      match List.find (λ m, bool_decide (mem_Target m = Some instanceID)) members with
      | Some m => Ret (Ok (mem_ID m))
      | None => Ret (Ok "")
      end
  end.

Definition registerInstanceInTarget (target : LoadBalancerTarget) (instanceID : string) : lb_err :=
  bind (findPoolByName (LoadBalancerID target) (PoolName target)) (λ pool,
  match pool with
  | Err e => Ret (Some (wrapped_ "finding pool by name" e))
  | Ok poolID =>
      member ⟵ CreateLoadBalancerPoolMember (LoadBalancerID target) poolID instanceID (Port target)
                 (default 50%Z (Weight target));
      match member with
      | Err e => Ret (Some (wrapped_ "creating load balancer pool member" e))
      | Ok _ => Ret None
      end
  end).

Definition deregisterInstanceFromTarget (target : LoadBalancerTarget) (instanceID : string) : lb_err :=
  bind (findPoolByName (LoadBalancerID target) (PoolName target)) (λ pool,
  match pool with
  | Err e => Ret (Some (wrapped_ "finding pool by name" e))
  | Ok poolID =>
      bind (findMemberByInstanceID (LoadBalancerID target) poolID instanceID) (λ member,
      match member with
      | Err e => Ret (Some (wrapped_ "finding member by instance ID" e))
      | Ok memberID =>
          if empty memberID then Ret None
          else
            e ⟵ DeleteLoadBalancerPoolMember (LoadBalancerID target) poolID memberID;
            match e with
            | Some e => Ret (Some (wrapped_ "deleting load balancer pool member" e))
            | None => Ret None
            end
      end)
  end).

(** The errors of the targets, all of which are visited. *)
Fixpoint each_target (f : LoadBalancerTarget → lb_err) (targets : list LoadBalancerTarget)
    : prog lb_call (list GoErrors.error) :=
  match targets with
  | [] => Ret []
  | target :: targets' =>
      bind (f target) (λ e, bind (each_target f targets') (λ errs,
      Ret (match e with Some e => e :: errs | None => errs end)))
  end.

Definition some_failed (what : string) (errs : list GoErrors.error) (targets : list LoadBalancerTarget) : err :=
  match JoinErrors errs with
  | None => None
  | Some joined =>
      Some (wrapped_ ("failed to " ++ what ++ " " ++ Strconv.Itoa (Z.of_nat (length errs)) ++ "/" ++ Strconv.Itoa (Z.of_nat (length targets)) ++ " targets") joined)
  end.

Definition RegisterInstance (c : IBMNodeClass) (instanceID : string) : lb_err :=
  match integration c with
  | None => Ret None
  | Some i =>
      bind (each_target (λ t, registerInstanceInTarget t instanceID) (TargetGroups i)) (λ errs,
      Ret (some_failed "register instance in" errs (TargetGroups i)))
  end.

Definition DeregisterInstance (c : IBMNodeClass) (instanceID : string) : lb_err :=
  match integration c with
  | None => Ret None
  | Some i =>
      if negb (default true (AutoDeregister i)) then Ret None
      else
        bind (each_target (λ t, deregisterInstanceFromTarget t instanceID) (TargetGroups i)) (λ errs,
        Ret (some_failed "deregister instance from" errs (TargetGroups i)))
  end.

Fixpoint validate_targets (i : nat) (targets : list LoadBalancerTarget) : lb_err :=
  match targets with
  | [] => Ret None
  | target :: targets' =>
      e ⟵ GetLoadBalancer (LoadBalancerID target);
      match e with
      | Some e =>
          Ret (Some (wrapped_ ("target group " ++ Strconv.Itoa (Z.of_nat i) ++ ": load balancer " ++ LoadBalancerID target ++ " not found") e))
      | None =>
          bind (findPoolByName (LoadBalancerID target) (PoolName target)) (λ pool,
          match pool with
          | Err e => Ret (Some (wrapped_ ("target group " ++ Strconv.Itoa (Z.of_nat i)) e))
          | Ok _ => validate_targets (S i) targets'
          end)
      end
  end.

Definition ValidateLoadBalancerConfiguration (c : IBMNodeClass) : lb_err :=
  match integration c with None => Ret None | Some i => validate_targets 0 (TargetGroups i) end.

(** ** Health checks *)
Definition is_http (protocol : string) : bool := String.eqb protocol "http" || String.eqb protocol "https".

Definition wanted_protocol (desired : LoadBalancerHealthCheck) : string :=
  if empty (Protocol desired) then "tcp" else Protocol desired.

(** The monitor as the patch writes it. *)
Definition wanted_monitor (desired : LoadBalancerHealthCheck) : MonitorPatch :=
  {| patch_delay := default 30%Z (Interval desired); patch_max_retries := default 2%Z (RetryCount desired);
     patch_timeout := default 5%Z (Timeout desired); patch_type := wanted_protocol desired;
     patch_url_path := if is_http (wanted_protocol desired) && negb (empty (Path desired)) then Some (Path desired) else None |}.

Definition monitor_differs (w : MonitorPatch) (hm : HealthMonitor) : bool :=
  negb (bool_decide (Delay hm = Some (patch_delay w))) || negb (bool_decide (MaxRetries hm = Some (patch_max_retries w))) ||
  negb (bool_decide (hm_Timeout hm = Some (patch_timeout w))) || negb (bool_decide (hm_Type hm = Some (patch_type w))) ||
  match patch_url_path w with Some path => negb (bool_decide (URLPath hm = Some path)) | None => false end.

Definition buildHealthCheckPatch (desired : LoadBalancerHealthCheck) (current : Pool) : PoolPatch :=
  {| patch_protocol :=
       if bool_decide (lbp_Protocol current = Some (wanted_protocol desired)) then None else Some (wanted_protocol desired);
     patch_monitor :=
       match lbp_Monitor current with
       | Some hm => if monitor_differs (wanted_monitor desired) hm then Some (wanted_monitor desired) else None
       | None => Some (wanted_monitor desired)
       end |}.

Definition needs_update (patch : PoolPatch) : bool :=
  match patch_protocol patch, patch_monitor patch with None, None => false | _, _ => true end.

Definition ConfigureHealthCheck (target : LoadBalancerTarget) (poolID : string) : lb_err :=
  match HealthCheck target with
  | None => Ret None
  | Some desired =>
      answer ⟵ GetLoadBalancerPool (LoadBalancerID target) poolID;
      match answer with
      | Err e => Ret (Some (wrapped_ "getting load balancer pool" e))
      | Ok pool =>
          let patch := buildHealthCheckPatch desired pool in
          if negb (needs_update patch) then Ret None
          else
            e ⟵ UpdateLoadBalancerPool (LoadBalancerID target) poolID patch;
            match e with
            | Some e => Ret (Some (wrapped_ "updating load balancer pool health check" e))
            | None => Ret None
            end
      end
  end.

Definition isValidPath (path : string) : bool := HasPrefix path "/".

Definition outside (v : option Z) (low high : Z) : bool :=
  match v with Some v => (v <? low)%Z || (high <? v)%Z | None => false end.

Definition ValidateHealthCheck (healthCheck : option LoadBalancerHealthCheck) : err :=
  match healthCheck with
  | None => None
  | Some hc =>
      if negb (existsb (String.eqb (Protocol hc)) [""; "tcp"; "http"; "https"])
      then Some (GoErrors.New ("invalid health check protocol: " ++ Protocol hc))
      else if is_http (Protocol hc) && empty (Path hc)
      then Some (GoErrors.New "path is required for HTTP/HTTPS health checks")
      else if negb (empty (Path hc)) && negb (isValidPath (Path hc))
      then Some (GoErrors.New ("invalid health check path: " ++ Path hc))
      else if outside (Interval hc) 5 300 then Some (GoErrors.New "health check interval must be between 5 and 300 seconds")
      else if outside (Timeout hc) 1 60 then Some (GoErrors.New "health check timeout must be between 1 and 60 seconds")
      else if outside (RetryCount hc) 1 10 then Some (GoErrors.New "health check retry count must be between 1 and 10")
      else
        match Interval hc, Timeout hc with
        | Some interval, Some timeout =>
            if (interval <=? timeout)%Z
            then Some (GoErrors.New ("health check timeout (" ++ Strconv.Itoa timeout ++
                         ") must be less than interval (" ++ Strconv.Itoa interval ++ ")"))
            else None
        | _, _ => None
        end
  end.

(** ** The controller *)
Section controller.
Context `{Stdlib}.

Definition LoadBalancerFinalizer : string := "loadbalancer.nodeclaim.ibm.sh/finalizer".
Definition LoadBalancerRegisteredAnnotation : string := "loadbalancer.ibm.sh/registered".
Definition LoadBalancerLastRegistrationTimeAnnotation : string := "loadbalancer.ibm.sh/last-registration".

Definition later (seconds : Z) : Result := {| RequeueAfter := (seconds * GoTime.Second)%Z |}.

(** [None] for a claim of another kind of class. *)
Definition getNodeClass (claim : NodeClaim) : lb (option IBMNodeClass) :=
  match NodeClassRef claim with
  | None => fail "nodeclaim has no nodeclass reference"
  | Some ref =>
      if negb (String.eqb (ref_Kind ref) "IBMNodeClass") then Ret (Ok None)
      else
        answer ⟵ LGetClass (ref_Name ref);
        match answer with
        | Err e => fail_with (wrapped_ ("getting nodeclass " ++ ref_Name ref) e)
        | Ok c => Ret (Ok (Some c))
        end
  end.

Definition getNode (claim : NodeClaim) : lb (option Node) :=
  if empty (claim_NodeName claim) then Ret (Ok None)
  else
    answer ⟵ LGetNode (claim_NodeName claim);
    match answer with
    | Err e => if kube_IsNotFound e then Ret (Ok None) else fail_with (wrapped_ ("getting node " ++ claim_NodeName claim) e)
    | Ok node => Ret (Ok (Some node))
    end.

Definition getNodeInternalIP (node : Node) : string := default "" (head (InternalIPs (node_Status node))).

Definition isAlreadyRegistered (claim : NodeClaim) : bool :=
  String.eqb (get (Annotations (claim_meta claim)) LoadBalancerRegisteredAnnotation) "true".

Definition registered (claim : NodeClaim) (now : Z) : NodeClaim :=
  set_meta claim (with_annotations (claim_meta claim)
    (<[LoadBalancerLastRegistrationTimeAnnotation := FormatRFC3339 now]>
    (<[LoadBalancerRegisteredAnnotation := "true"]> (Annotations (claim_meta claim))))).

Definition markAsRegistered (claim : NodeClaim) : lb_err :=
  now ⟵ LNow;
  call (LUpdateClaim (registered claim now)).

Definition handleRegistration (claim : NodeClaim) (c : IBMNodeClass) : lb Result :=
  if empty (claim_ProviderID claim) then Ret (Ok (later 30))
  else
    match lb_extractInstanceID (claim_ProviderID claim) with
    | Err _ => Ret (Ok (later 30))
    | Ok instanceID =>
        bind (getNode claim) (λ answer,
        match answer with
        | Err _ | Ok None => Ret (Ok (later 30))
        | Ok (Some node) =>
            if empty (getNodeInternalIP node) then Ret (Ok (later 30))
            else if isAlreadyRegistered claim then Ret (Ok no_requeue)
            else
              bind (RegisterInstance c instanceID) (λ e,
              match e with
              | Some _ => Ret (Ok (later 30))
              | None =>
                  bind (markAsRegistered claim) (λ e,
                  match e with Some _ => Ret (Ok (later 10)) | None => Ret (Ok no_requeue) end)
              end)
        end)
    end.

Definition unheld (claim : NodeClaim) : NodeClaim :=
  set_meta claim (with_finalizers (claim_meta claim) (RemoveFinalizer (Finalizers (claim_meta claim)) LoadBalancerFinalizer)).
Definition held_claim (claim : NodeClaim) : NodeClaim :=
  set_meta claim (with_finalizers (claim_meta claim) (AddFinalizer (Finalizers (claim_meta claim)) LoadBalancerFinalizer)).
Definition is_held (claim : NodeClaim) : bool := ContainsFinalizer (Finalizers (claim_meta claim)) LoadBalancerFinalizer.

Definition updated (what : string) (e : err) (r : Result) : lb Result :=
  match e with Some e => fail_with (wrapped_ what e) | None => Ret (Ok r) end.

(** A failed deregistration is only logged. *)
Definition deregister_claim (claim : NodeClaim) (c : IBMNodeClass) : prog lb_call unit :=
  if empty (claim_ProviderID claim) then Ret tt
  else
    match lb_extractInstanceID (claim_ProviderID claim) with
    | Err _ => Ret tt
    | Ok instanceID => bind (DeregisterInstance c instanceID) (λ _, Ret tt)
    end.

Definition handleDeletion (claim : NodeClaim) (c : IBMNodeClass) : lb Result :=
  if negb (is_held claim) then Ret (Ok no_requeue)
  else
    bind (deregister_claim claim c) (λ _,
    e ⟵ LUpdateClaim (unheld claim);
    updated "removing finalizer" e no_requeue).

Definition lb_Reconcile (name : string) : lb Result :=
  answer ⟵ LGetClaim name;
  match answer with
  | Err e => if kube_IsNotFound e then Ret (Ok no_requeue) else fail_with (wrapped_ "getting nodeclaim" e)
  | Ok claim =>
      bind (getNodeClass claim) (λ answer,
      match answer with
      | Err _ => Ret (Ok (later 30))
      | Ok found =>
          match (match found with Some c => match integration c with Some _ => Some c | None => None end | None => None end) with
          | None =>
              if is_held claim then e ⟵ LUpdateClaim (unheld claim); match e with Some e => fail_with e | None => Ret (Ok no_requeue) end
              else Ret (Ok no_requeue)
          | Some c =>
              if is_terminating (claim_meta claim) then handleDeletion claim c
              else if negb (is_held claim) then
                e ⟵ LUpdateClaim (held_claim claim);
                updated "adding finalizer" e (later 1)
              else handleRegistration claim c
          end
      end)
  end.

(** The claim of a node that changed. *)
Definition nodeToNodeClaim (node : Node) : prog lb_call (list string) :=
  answer ⟵ LListClaims;
  match answer with
  | Err _ => Ret []
  | Ok claims =>
      match List.find (λ c, String.eqb (claim_NodeName c) (Name (node_meta node))) claims with
      | Some c => Ret [Name (claim_meta c)]
      | None => Ret []
      end
  end.
End controller.

(** ** Theorems *)
Local Open Scope list_scope.

(** *** Health checks *)

(** The pool as the API has it after a patch. *)
Definition patch_pool (p : Pool) (patch : PoolPatch) : Pool :=
  {| lbp_ID := lbp_ID p; lbp_Name := lbp_Name p;
     lbp_Protocol := match patch_protocol patch with Some q => Some q | None => lbp_Protocol p end;
     lbp_Monitor :=
       match patch_monitor patch with
       | Some m => Some {| Delay := Some (patch_delay m); MaxRetries := Some (patch_max_retries m);
                           hm_Timeout := Some (patch_timeout m); hm_Type := Some (patch_type m);
                           URLPath := match patch_url_path m with
                                      | Some path => Some path
                                      | None => match lbp_Monitor p with Some hm => URLPath hm | None => None end
                                      end |}
       | None => lbp_Monitor p
       end |}.

(** The pool checks health as the class asks. *)
Definition checks_as_wanted (desired : LoadBalancerHealthCheck) (p : Pool) : Prop :=
  lbp_Protocol p = Some (wanted_protocol desired) ∧
  ∃ hm, lbp_Monitor p = Some hm ∧ monitor_differs (wanted_monitor desired) hm = false.

Lemma monitor_differs_false w hm :
  monitor_differs w hm = false ↔
  Delay hm = Some (patch_delay w) ∧ MaxRetries hm = Some (patch_max_retries w) ∧
  hm_Timeout hm = Some (patch_timeout w) ∧ hm_Type hm = Some (patch_type w) ∧
  ∀ path, patch_url_path w = Some path → URLPath hm = Some path.
Proof.
  unfold monitor_differs. rewrite !orb_false_iff, !negb_false_iff, !bool_decide_eq_true.
  destruct (patch_url_path w) as [path|]; [|naive_solver].
  rewrite negb_false_iff, bool_decide_eq_true. naive_solver.
Qed.

(** The patch is empty exactly when the pool already checks health as the class
    asks, and the patched pool does. *)
Lemma health_check_patch_exact desired p :
  (needs_update (buildHealthCheckPatch desired p) = false ↔ checks_as_wanted desired p) ∧
  checks_as_wanted desired (patch_pool p (buildHealthCheckPatch desired p)).
Proof.
  unfold checks_as_wanted, needs_update, buildHealthCheckPatch. cbn. split.
  - case_bool_decide as Ep; destruct (lbp_Monitor p) as [hm|] eqn:Em; try (destruct (monitor_differs _ hm) eqn:Ed);
      cbn; naive_solver.
  - split; [by case_bool_decide|]. destruct (lbp_Monitor p) as [hm|]; cbn.
    + destruct (monitor_differs _ hm) eqn:Ed; [|by exists hm]. eexists. split; [done|].
      apply monitor_differs_false. cbn. split_and!; try done. by intros path ->.
    + eexists. split; [done|]. apply monitor_differs_false. cbn. split_and!; try done. by intros path ->.
Qed.

(** An accepted health check is one the documentation allows. *)
Lemma validated_health_check hc :
  ValidateHealthCheck (Some hc) = None ↔
  Protocol hc ∈ ["" ; "tcp"; "http"; "https"]%string ∧
  (is_http (Protocol hc) = true → Path hc ≠ ""%string) ∧
  (Path hc ≠ ""%string → HasPrefix (Path hc) "/" = true) ∧
  (∀ v, Interval hc = Some v → (5 ≤ v ≤ 300)%Z) ∧ (∀ v, Timeout hc = Some v → (1 ≤ v ≤ 60)%Z) ∧
  (∀ v, RetryCount hc = Some v → (1 ≤ v ≤ 10)%Z) ∧
  (∀ i t, Interval hc = Some i → Timeout hc = Some t → (t < i)%Z).
Proof.
  assert (Ho : ∀ v low high, outside v low high = false ↔ ∀ x, v = Some x → (low ≤ x ≤ high)%Z).
  { intros [x|] low high; cbn; [|naive_solver]. rewrite orb_false_iff, !Z.ltb_ge. naive_solver. }
  assert (Hp : existsb (String.eqb (Protocol hc)) ["" ; "tcp"; "http"; "https"]%string = true ↔
    Protocol hc ∈ ["" ; "tcp"; "http"; "https"]%string) by apply existsb_eqb.
  assert (H1 : (is_http (Protocol hc) = true → Path hc ≠ ""%string) ↔ is_http (Protocol hc) && empty (Path hc) = false).
  { clear. unfold empty. destruct (is_http _), (String.eqb_spec (Path hc) ""); cbn; naive_solver. }
  assert (H2 : (Path hc ≠ ""%string → HasPrefix (Path hc) "/" = true) ↔
    negb (empty (Path hc)) && negb (isValidPath (Path hc)) = false).
  { clear. unfold isValidPath, empty. destruct (HasPrefix _ _), (String.eqb_spec (Path hc) ""); cbn; naive_solver. }
  assert (H3 : (∀ i t, Interval hc = Some i → Timeout hc = Some t → (t < i)%Z) ↔
    match Interval hc, Timeout hc with Some i, Some t => (i <=? t)%Z | _, _ => false end = false).
  { destruct (Interval hc) as [i|], (Timeout hc) as [t|]; try (by split; [|intros _ ? ? [=] [=]]).
    rewrite Z.leb_gt. split; [intros Hx; by apply Hx|by intros Hx ? ? [= <-] [= <-]]. }
  rewrite <-Hp, H1, H2, H3, <-(Ho (Interval hc) 5 300)%Z, <-(Ho (Timeout hc) 1 60)%Z, <-(Ho (RetryCount hc) 1 10)%Z.
  clear. unfold ValidateHealthCheck.
  repeat match goal with
  | |- context [if negb ?b then Some _ else _] => destruct b; cbn [negb]
  | |- context [if ?b then Some _ else _] => destruct b; cbn [negb]
  end; try (split; [done|]; naive_solver).
  destruct (Interval hc) as [i|], (Timeout hc) as [t|]; try destruct (i <=? t)%Z;
    (split; [intros; try done; by split_and!|try done; by intros (_ & _ & _ & _ & _ & _ & ?)]).
Qed.

(** *** The controller *)
Section protocol.
Context `{Stdlib}.
Context (name : string).

(** The claim of the run, and its class with the integration enabled. *)
Definition integrated (h : history lb_call) (claim : NodeClaim) (i : LoadBalancerIntegration) : Prop :=
  ∃ ref c, asked h (LGetClaim name) (Ok claim) ∧ NodeClassRef claim = Some ref ∧ ref_Kind ref = "IBMNodeClass"%string ∧
    asked h (LGetClass (ref_Name ref)) (Ok c) ∧ integration c = Some i.

(** The pool of a target, as it was listed. *)
Definition pool_of (h : history lb_call) (target : LoadBalancerTarget) (poolID : string) : Prop :=
  ∃ pools p, asked h (ListLoadBalancerPools (LoadBalancerID target)) (Ok pools) ∧ p ∈ pools ∧
    lbp_Name p = Some (PoolName target) ∧ lbp_ID p = poolID.

(** Every target was asked to let the instance go: it has no such pool or
    member, or the member's deletion was requested, or an answer failed. *)
Definition member_handled (h : history lb_call) (instanceID : string) (target : LoadBalancerTarget) : Prop :=
  (∃ e, asked h (ListLoadBalancerPools (LoadBalancerID target)) (Err e)) ∨
  (∃ pools, asked h (ListLoadBalancerPools (LoadBalancerID target)) (Ok pools) ∧
            ∀ p, p ∈ pools → lbp_Name p ≠ Some (PoolName target)) ∨
  ∃ poolID, pool_of h target poolID ∧
    ((∃ e, asked h (ListLoadBalancerPoolMembers (LoadBalancerID target) poolID) (Err e)) ∨
     ∃ members, asked h (ListLoadBalancerPoolMembers (LoadBalancerID target) poolID) (Ok members) ∧
       ((∀ m, m ∈ members → mem_Target m ≠ Some instanceID) ∨
        ∃ m, m ∈ members ∧ mem_Target m = Some instanceID ∧
             (mem_ID m = ""%string ∨
              ∃ answer, asked h (DeleteLoadBalancerPoolMember (LoadBalancerID target) poolID (mem_ID m)) answer))).

(** A member of the instance was created in the target's pool. *)
Definition member_created (h : history lb_call) (instanceID : string) (target : LoadBalancerTarget) : Prop :=
  ∃ poolID m, pool_of h target poolID ∧
    asked h (CreateLoadBalancerPoolMember (LoadBalancerID target) poolID instanceID (Port target)
               (default 50%Z (Weight target))) (Ok m).

Definition instance_of (claim : NodeClaim) (instanceID : string) : Prop :=
  claim_ProviderID claim ≠ ""%string ∧ lb_extractInstanceID (claim_ProviderID claim) = Ok instanceID.

Definition may_create_member (h : history lb_call) (lbID poolID instanceID : string) (port weight : Z) : Prop :=
  ∃ claim i target, integrated h claim i ∧ target ∈ TargetGroups i ∧ instance_of claim instanceID ∧
    is_held claim = true ∧ is_terminating (claim_meta claim) = false ∧ isAlreadyRegistered claim = false ∧
    lbID = LoadBalancerID target ∧ pool_of h target poolID ∧ port = Port target ∧ weight = default 50%Z (Weight target).

Definition may_delete_member (h : history lb_call) (lbID poolID memberID : string) : Prop :=
  ∃ claim i target instanceID members m, integrated h claim i ∧ target ∈ TargetGroups i ∧
    instance_of claim instanceID ∧ is_terminating (claim_meta claim) = true ∧ is_held claim = true ∧
    default true (AutoDeregister i) = true ∧ lbID = LoadBalancerID target ∧ pool_of h target poolID ∧
    asked h (ListLoadBalancerPoolMembers lbID poolID) (Ok members) ∧ m ∈ members ∧
    mem_Target m = Some instanceID ∧ mem_ID m = memberID.

(** The claim's class does not ask for the integration. *)
Definition not_integrated (h : history lb_call) (claim : NodeClaim) : Prop :=
  asked h (LGetClaim name) (Ok claim) ∧ ∃ ref, NodeClassRef claim = Some ref ∧
    (ref_Kind ref ≠ "IBMNodeClass"%string ∨
     ∃ c, asked h (LGetClass (ref_Name ref)) (Ok c) ∧ integration c = None).

Definition deregistered (h : history lb_call) (claim : NodeClaim) (i : LoadBalancerIntegration) : Prop :=
  default true (AutoDeregister i) = false ∨
  ∀ instanceID, instance_of claim instanceID → ∀ target, target ∈ TargetGroups i → member_handled h instanceID target.

Definition may_update_claim (h : history lb_call) (fresh : NodeClaim) : Prop :=
  ∃ claim, 
    (fresh = held_claim claim ∧ is_held claim = false ∧ is_terminating (claim_meta claim) = false ∧
     ∃ i, integrated h claim i) ∨
    (fresh = unheld claim ∧ is_held claim = true ∧
     (not_integrated h claim ∨
      is_terminating (claim_meta claim) = true ∧ ∃ i, integrated h claim i ∧ deregistered h claim i)) ∨
    (∃ i instanceID now, fresh = registered claim now ∧ integrated h claim i ∧ instance_of claim instanceID ∧
       is_held claim = true ∧ is_terminating (claim_meta claim) = false ∧
       ∀ target, target ∈ TargetGroups i → member_created h instanceID target).

Definition lb_guard : guard (E := lb_call) := λ h R e,
  match e with
  | CreateLoadBalancerPoolMember lbID poolID instanceID port weight => may_create_member h lbID poolID instanceID port weight
  | DeleteLoadBalancerPoolMember lbID poolID memberID => may_delete_member h lbID poolID memberID
  | UpdateLoadBalancerPool _ _ _ => False
  | LUpdateClaim fresh => may_update_claim h fresh
  | _ => True
  end.

Lemma integrated_app l h claim i : integrated h claim i → integrated (l ++ h) claim i.
Proof. intros (ref & c & ? & ? & ? & ? & ?). exists ref, c. split_and!; try done; by apply asked_app. Qed.
Lemma pool_of_app l h target poolID : pool_of h target poolID → pool_of (l ++ h) target poolID.
Proof. intros (pools & p & ? & ?). exists pools, p. split; [by apply asked_app|done]. Qed.
Lemma member_created_app l h id target : member_created h id target → member_created (l ++ h) id target.
Proof. intros (poolID & m & ? & ?). exists poolID, m. split; [by apply pool_of_app|by apply asked_app]. Qed.
Lemma member_handled_app l h id target : member_handled h id target → member_handled (l ++ h) id target.
Proof.
  intros [[e ?]|[(pools & ? & ?)|(poolID & ? & Hm)]].
  - left. exists e. by apply asked_app.
  - right; left. exists pools. split; [by apply asked_app|done].
  - right; right. exists poolID. split; [by apply pool_of_app|].
    destruct Hm as [[e ?]|(ms & ? & Hm)]; [left; exists e; by apply asked_app|]. right. exists ms.
    split; [by apply asked_app|]. destruct Hm as [?|(m & ? & ? & [?|[a ?]])]; [by left|right; exists m..].
    + split_and!; try done. by left.
    + split_and!; try done. right. exists a. by apply asked_app.
Qed.

Lemma find_pool_wp target h :
  wp lb_guard (findPoolByName (LoadBalancerID target) (PoolName target)) h (λ h' r, (∃ l, h' = l ++ h) ∧
    match r with
    | Ok poolID => pool_of h' target poolID
    | Err _ => ∀ id, member_handled h' id target
    end).
Proof.
  unfold findPoolByName. split; [done|]. intros [pools|e].
  2:{ split; [by eexists [_]|]. intros id. left. exists e. apply asked_here. }
  destruct (List.find _ pools) as [p|] eqn:Ef.
  - apply List.find_some in Ef as [Hin Hp%bool_decide_eq_true]. split; [by eexists [_]|]. exists pools, p.
    split_and!; [apply asked_here|by apply list_elem_of_In|done|done].
  - split; [by eexists [_]|]. intros id. right; left. exists pools. split; [apply asked_here|].
    intros p Hin. apply (bool_decide_eq_false_1 _), (List.find_none _ _ Ef), list_elem_of_In, Hin.
Qed.

(** The loop over the targets, for what holds of a target once it was visited. *)
Lemma each_target_wp f (P : history lb_call → LoadBalancerTarget → err → Prop) targets h :
  (∀ l h t e, P h t e → P (l ++ h) t e) →
  (∀ l t, t ∈ targets → wp lb_guard (f t) (l ++ h) (λ h' e, (∃ l', h' = l' ++ l ++ h) ∧ P h' t e)) →
  wp lb_guard (each_target f targets) h (λ h' errs, (∃ l, h' = l ++ h) ∧
    (∀ t, t ∈ targets → ∃ e, P h' t e) ∧ (errs = [] → ∀ t, t ∈ targets → P h' t None)).
Proof.
  intros Happ. revert h. induction targets as [|t targets IH]; intros h Hf; cbn [each_target].
  { split_and!; [by exists []| |]; [|intros _]; intros t Ht; by apply elem_of_nil in Ht. }
  apply wp_bind. eapply wp_mono; [|apply (Hf [] t); by left]. intros h1 e [[l1 ->] He].
  apply wp_bind. eapply wp_mono; [|apply IH].
  2:{ intros l t' Ht'. cbn [app]. rewrite (assoc_L (++)). eapply wp_mono; [|apply Hf; by right].
      intros h' e' [[l' ->] HP]. split; [|done]. exists l'. by rewrite !(assoc_L (++)). }
  intros h2 errs [[l2 ->] [Hall Hnil]]. cbn [wp app] in *. split_and!.
  - exists (l2 ++ l1). by rewrite <-(assoc_L (++)).
  - intros t' [->|Ht']%elem_of_cons; [|by apply Hall]. exists e. by apply Happ.
  - destruct e as [e|]; [done|]. intros -> t' [->|Ht']%elem_of_cons; [by apply Happ|by apply Hnil].
Qed.

Lemma register_target_wp claim i instanceID target h :
  integrated h claim i → target ∈ TargetGroups i → instance_of claim instanceID →
  is_held claim = true → is_terminating (claim_meta claim) = false → isAlreadyRegistered claim = false →
  wp lb_guard (registerInstanceInTarget target instanceID) h (λ h' e, (∃ l, h' = l ++ h) ∧
    (e = None → member_created h' instanceID target)).
Proof.
  intros Hi Ht Hid Hh Hterm Hr. unfold registerInstanceInTarget. apply wp_bind.
  eapply wp_mono; [|apply find_pool_wp]. intros h1 [poolID|e] [[l ->] Hp]; [|split; [by exists l|done]].
  split.
  { exists claim, i, target. split_and!; try done. by apply integrated_app. }
  intros [m|e]; (split; [by eexists (_ :: l)|]); [|done]. intros _. exists poolID, m.
  split; [by apply (pool_of_app [_])|apply asked_here].
Qed.

Lemma deregister_target_wp claim i instanceID target h :
  integrated h claim i → target ∈ TargetGroups i → instance_of claim instanceID →
  is_held claim = true → is_terminating (claim_meta claim) = true → default true (AutoDeregister i) = true →
  wp lb_guard (deregisterInstanceFromTarget target instanceID) h (λ h' _, (∃ l, h' = l ++ h) ∧
    member_handled h' instanceID target).
Proof.
  intros Hi Ht Hid Hh Hterm Ha. unfold deregisterInstanceFromTarget. apply wp_bind.
  eapply wp_mono; [|apply find_pool_wp]. intros h1 [poolID|e] [[l ->] Hp]; [|split; [by exists l|apply Hp]].
  apply wp_bind. unfold findMemberByInstanceID. split; [done|]. intros [members|e].
  2:{ split; [by eexists (_ :: l)|]. right; right. exists poolID. split; [by apply (pool_of_app [_])|].
      left. exists e. apply asked_here. }
  assert (Hdone : ∀ l', (∀ m, m ∈ members → mem_Target m ≠ Some instanceID) ∨
      (∃ m, m ∈ members ∧ mem_Target m = Some instanceID ∧ (mem_ID m = ""%string ∨
        ∃ answer, asked (l' ++ Did (ListLoadBalancerPoolMembers (LoadBalancerID target) poolID) (Ok members) :: l ++ h)
          (DeleteLoadBalancerPoolMember (LoadBalancerID target) poolID (mem_ID m)) answer)) →
    member_handled (l' ++ Did (ListLoadBalancerPoolMembers (LoadBalancerID target) poolID) (Ok members) :: l ++ h)
      instanceID target).
  { intros l' Hm. right; right. exists poolID. split; [by apply pool_of_app, (pool_of_app [_])|]. right.
    exists members. split; [apply asked_app, asked_here|done]. }
  destruct (List.find _ members) as [m|] eqn:Ef.
  - apply List.find_some in Ef as [Hin%list_elem_of_In Hm%bool_decide_eq_true]. cbn [wp].
    destruct (empty (mem_ID m)) eqn:Em.
    { split; [by eexists (_ :: l)|]. apply (Hdone []). right. exists m. split_and!; try done. left.
      by apply String.eqb_eq. }
    split.
    { exists claim, i, target, instanceID, members, m. split_and!; try done.
      - by apply (integrated_app [_]), integrated_app.
      - by apply (pool_of_app [_]).
      - apply asked_here. }
    intros [e|]; (split; [by eexists (_ :: _ :: l)|]); apply (Hdone [_]); right; exists m; (split_and!; try done);
      right; eexists; apply asked_here.
  - split; [by eexists (_ :: l)|]. apply (Hdone []). left. intros m Hin.
    apply (bool_decide_eq_false_1 _), (List.find_none _ _ Ef), list_elem_of_In, Hin.
Qed.

Lemma some_failed_None what errs targets : some_failed what errs targets = None → errs = [].
Proof. unfold some_failed. by destruct errs. Qed.

Lemma handleDeletion_wp claim c i h :
  integrated h claim i → integration c = Some i → is_terminating (claim_meta claim) = true →
  wp lb_guard (handleDeletion claim c) h (λ _ _, True).
Proof.
  intros Hi Hc Hterm. unfold handleDeletion. destruct (is_held claim) eqn:Eh; [|done]. cbn [negb]. apply wp_bind.
  assert (Hdrop : ∀ l, deregistered (l ++ h) claim i → wp lb_guard (e ⟵ LUpdateClaim (unheld claim);
    updated "removing finalizer" e no_requeue) (l ++ h) (λ _ _, True)).
  { intros l Hd. split; [|by intros [e|]]. exists claim. right; left. split_and!; try done. right.
    split; [done|]. exists i. split; [by apply integrated_app|done]. }
  unfold deregister_claim. destruct (empty (claim_ProviderID claim)) eqn:Ep.
  { apply (Hdrop []). right. intros id [Hne _]. by apply String.eqb_eq in Ep. }
  destruct (lb_extractInstanceID (claim_ProviderID claim)) as [id|e] eqn:Eid.
  2:{ apply (Hdrop []). right. intros id [_ Hid]. congruence. }
  apply wp_bind. unfold DeregisterInstance. rewrite Hc.
  destruct (default true (AutoDeregister i)) eqn:Ea; cbn [negb]; [|by apply (Hdrop []); left].
  assert (Hid : instance_of claim id) by (split; [by apply String.eqb_neq|done]).
  apply wp_bind. eapply wp_mono; [|apply (each_target_wp _ (λ h' t _, member_handled h' id t))].
  - intros h' errs [[l ->] [Hall _]]. apply Hdrop. right. intros id' [_ Hid']. destruct Hid as [_ Hid].
    rewrite Hid in Hid'. injection Hid' as <-. intros t Ht. by destruct (Hall t Ht).
  - intros. by apply member_handled_app.
  - intros l t Ht. apply (deregister_target_wp claim i); try done. by apply integrated_app.
Qed.

Lemma getNode_wp claim h : wp lb_guard (getNode claim) h (λ h' _, ∃ l, h' = l ++ h).
Proof.
  unfold getNode. destruct (empty _); [by exists []|]. split; [done|].
  intros [node|e]; [by eexists [_]|]. destruct (kube_IsNotFound e); by eexists [_].
Qed.

Lemma handleRegistration_wp claim c i h :
  integrated h claim i → integration c = Some i → is_held claim = true → is_terminating (claim_meta claim) = false →
  wp lb_guard (handleRegistration claim c) h (λ _ _, True).
Proof.
  intros Hi Hc Hh Hterm. unfold handleRegistration. destruct (empty (claim_ProviderID claim)) eqn:Ep; [done|].
  destruct (lb_extractInstanceID (claim_ProviderID claim)) as [id|e] eqn:Eid; [|done].
  assert (Hid : instance_of claim id) by (split; [by apply String.eqb_neq|done]).
  apply wp_bind. eapply wp_mono; [|apply getNode_wp]. intros h1 [[node|]|e] [l1 ->]; [|done|done].
  destruct (empty (getNodeInternalIP node)); [done|]. destruct (isAlreadyRegistered claim) eqn:Er; [done|].
  apply wp_bind. unfold RegisterInstance. rewrite Hc. apply wp_bind.
  eapply wp_mono; [|apply (each_target_wp _ (λ h' t e, e = None → member_created h' id t))].
  - intros h2 errs [[l2 ->] [_ Hall]]. cbn [wp].
    destruct (some_failed _ _ _) as [x|] eqn:Es; [done|]. apply some_failed_None in Es. specialize (Hall Es).
    apply wp_bind. unfold markAsRegistered. split; [done|]. intros now. split; [|by intros [e|]].
    exists claim. right; right. exists i, id, now. split_and!; try done.
    + by apply (integrated_app [_]), integrated_app, integrated_app.
    + intros t Ht. by apply (member_created_app [_]), Hall.
  - intros l h' t e HP He. by apply member_created_app, HP.
  - intros l t Ht. apply (register_target_wp claim i); try done. by apply integrated_app, integrated_app.
Qed.

Lemma lb_wp : wp lb_guard (lb_Reconcile name) [] (λ _ _, True).
Proof.
  unfold lb_Reconcile. split; [done|]. intros [claim|e]; [|by destruct (kube_IsNotFound e)]. apply wp_bind.
  unfold getNodeClass. destruct (NodeClassRef claim) as [ref|] eqn:Er; [|done].
  assert (Hdrop : ∀ h, not_integrated h claim → wp lb_guard (if is_held claim
      then e ⟵ LUpdateClaim (unheld claim); match e with Some e => fail_with e | None => Ret (Ok no_requeue) end
      else Ret (Ok no_requeue)) h (λ _ _, True)).
  { intros h Hn. destruct (is_held claim) eqn:Eh; [|done]. split; [|by intros [e|]]. exists claim. right; left.
    split_and!; try done. by left. }
  destruct (String.eqb_spec (ref_Kind ref) "IBMNodeClass") as [Ek|Ek]; cbn [negb].
  2:{ apply Hdrop. split; [apply asked_here|]. exists ref. split; [done|by left]. }
  split; [done|]. intros [c|e]; [|done]. cbn [wp]. destruct (integration c) as [i|] eqn:Ei.
  2:{ apply Hdrop. split; [apply asked_later, asked_here|]. exists ref. split; [done|]. right. exists c.
      split; [apply asked_here|done]. }
  assert (Hi : integrated [Did (LGetClass (ref_Name ref)) (Ok c); Did (LGetClaim name) (Ok claim)] claim i).
  { exists ref, c. split_and!; auto with go_db. }
  destruct (is_terminating (claim_meta claim)) eqn:Et; [by eapply handleDeletion_wp|].
  destruct (is_held claim) eqn:Eh; cbn [negb]; [by eapply handleRegistration_wp|].
  split; [|by intros [e|]]. exists claim. left. split_and!; try done. by exists i.
Qed.

(** C17. The load balancer controller creates a member only for the instance of a
    claim that it holds, that is not being deleted and not yet registered, in the
    pool of a target of the claim's class, with that target's port and weight;
    deletes only a member of that instance, in such a pool, and only of a held
    claim that is being deleted, unless the class keeps members, and never because
    the instance is unhealthy; marks a claim registered only when every target has
    a new member.  It lets a held claim go in two cases only: its class does not ask
    for load balancing, or no longer, and then no target is asked; or it is being
    deleted and every target was asked for the instance's member, with the member's
    deletion requested when it was found with an identity, whatever came of it;
    there is nothing to ask when the class keeps members or the claim has no
    provider ID that names an instance. *)
Theorem members_follow_claims tr r (Hrun : runs (lb_Reconcile name) tr r) :
  ∀ before R (e : lb_call R) answer after,
    tr = before ++ Did e answer :: after → lb_guard (reverse before) R e.
Proof. apply (proj1 (guarded_run _ _ _ _ _ lb_wp Hrun)). Qed.
End protocol.

(** *** The theorem at concrete runs *)
Definition lb_target (lbID : string) : LoadBalancerTarget :=
  {| LoadBalancerID := lbID; PoolName := "ingress"; Port := 443; Weight := None; HealthCheck := None |}.
Definition lb_class : IBMNodeClass :=
  {| nc_meta := no_meta;
     Spec := {| Region := ""; Zone := ""; InstanceProfile := ""; InstanceRequirements := None; Image := ""; ImageSelector_ := None;
       VPC := ""; Subnet := ""; PlacementStrategy_ := None; SecurityGroups := []; UserData := ""; UserDataAppend := "";
       SSHKeys := []; ResourceGroup := ""; PlacementTarget := ""; Tags := ∅; BootstrapMode := None; APIServerEndpoint := "";
       IKSClusterID := ""; IKSWorkerPoolID := ""; IKSDynamicPools := None;
       LoadBalancerIntegration_ := Some {| lb_Enabled := true; TargetGroups := [lb_target "lb-1"; lb_target "lb-2"];
         AutoDeregister := None; RegistrationTimeout := None |};
       BlockDeviceMappings := []; Kubelet := None |}%string;
     Status := empty_status |}.
Definition lb_claim (deleted : option Z) : NodeClaim :=
  {| claim_meta := {| Name := "claim-1"; UID := "u"; ResourceVersion := "1"; Generation := 1; DeletionTimestamp := deleted;
       CreationTimestamp := 0; Labels := ∅; Annotations := ∅; Finalizers := [LoadBalancerFinalizer] |};
     NodeClassRef := Some {| ref_Group := Group; ref_Kind := "IBMNodeClass"; ref_Name := "default" |};
     Requests := ∅; Requirements := []; claim_ProviderID := "ibm:///us-south/instance-1"; claim_NodeName := "node-1";
     claim_ImageID := ""; claim_Capacity := ∅; claim_Allocatable := ∅; claim_Conditions := [] |}%string.
Definition lb_node : Node :=
  {| node_meta := no_meta; OwnerReferences := []; node_ProviderID := "ibm:///us-south/instance-1"; Unschedulable := false;
     node_Status := {| st_Capacity := ∅; st_Allocatable := ∅; InternalIPs := ["10.0.0.4"]; node_Conditions := [] |} |}%string.

(** Each load balancer has a pool of the name, with one member. *)
Definition lb_serve (claim : NodeClaim) (R : Type) (e : lb_call R) (s : unit) : R * unit :=
  (match e in lb_call R return R with
   | GetLoadBalancer _ => None
   | ListLoadBalancerPools _ => Ok [{| lbp_ID := "pool-1"; lbp_Name := Some "ingress"; lbp_Protocol := None; lbp_Monitor := None |}]
   | GetLoadBalancerPool _ _ => Err (GoErrors.New "not asked")
   | UpdateLoadBalancerPool _ _ _ => None
   | CreateLoadBalancerPoolMember _ _ instance _ _ => Ok {| mem_ID := "member-1"; mem_Target := Some instance |}
   | DeleteLoadBalancerPoolMember _ _ _ => None
   | ListLoadBalancerPoolMembers _ _ =>
       Ok [{| mem_ID := "member-0"; mem_Target := Some "instance-0" |}; {| mem_ID := "member-1"; mem_Target := Some "instance-1" |}]
   | LGetClaim _ => Ok claim
   | LGetClass _ => Ok lb_class
   | LGetNode _ => Ok lb_node
   | LListClaims => Ok [claim]
   | LUpdateClaim _ => None
   | LNow => 0%Z
   end%string, s).

Definition lb_run (deleted : option Z) := interp (lb_serve (lb_claim deleted)) (lb_Reconcile "claim-1") tt.

(** The changes of a run, in order. *)
Inductive lb_change :=
  | Created (lb pool instance : string) (port weight : Z)
  | Removed (lb pool member : string)
  | Finalized (finalizers : list string).
Definition lb_changes (tr : history lb_call) : list lb_change :=
  omap (λ ev, match ev with
    | Did e _ => match e with
      | CreateLoadBalancerPoolMember l p i port w => Some (Created l p i port w)
      | DeleteLoadBalancerPoolMember l p m => Some (Removed l p m)
      | LUpdateClaim c => Some (Finalized (Finalizers (claim_meta c)))
      | _ => None
      end end) tr.

Lemma members_follow_claims_witness :
  lb_changes (lb_run None).1.1 =
    [Created "lb-1" "pool-1" "instance-1" 443 50; Created "lb-2" "pool-1" "instance-1" 443 50;
     Finalized [LoadBalancerFinalizer]]%string ∧
  lb_changes (lb_run (Some 5%Z)).1.1 =
    [Removed "lb-1" "pool-1" "member-1"; Removed "lb-2" "pool-1" "member-1"; Finalized []]%string ∧
  (∀ before R (e : lb_call R) answer after, (lb_run (Some 5%Z)).1.1 = before ++ Did e answer :: after →
     lb_guard "claim-1" (reverse before) R e).
Proof.
  do 2 (split; [vm_compute; reflexivity|]).
  exact (members_follow_claims "claim-1" _ _ (interp_runs (lb_serve (lb_claim (Some 5%Z))) (lb_Reconcile "claim-1") tt)).
Defined.
