(* ===== verification/VpcClient.v ===== *)
(** * VpcClient: the client of the VPC API

    [pkg/cloudprovider/ibm/vpc.go]: the methods of [VPCClient] over the SDK, the
    pages of a listing, the tags of an instance, and the clients of other
    regions; [pkg/utils/vpcclient/manager.go]: the cached client.  The theorems:
    a listing is the concatenation of the pages its cursors lead through, and
    ends; an error that says a request was not sent means just that; tags are
    attached to the instance's own resource; the client of a region keeps the
    credential. *)
From stdpp Require Import prelude list strings gmap.
From S2P Require Import Prelude GoLib GoSort GoRegexp Errors NodeClass ProviderIDs Ownership Prog Kube VpcApi InstanceTypes.
From S2P Require Bootstrap Subnets Images VpcCreate LoadBalancer.
Import Strings.

Open Scope string_scope.
Open Scope nat_scope.
Local Open Scope prog_scope.

Module Client.
Import GoErrors.

(** ** Pages

    A page of a collection; [page_next] is what its [GetNextStart] returns. *)
Record Page (T : Type) := {
  page_Items : list T;
  page_next : result error (option string);
}.
Arguments page_Items {T}. Arguments page_next {T}.

Section paginate.
Context {E : Type → Type} {T : Type}.

(** [fetchPage] at the cursor that [setStart] stored. *)
Context (fetchPage : option string → prog E (result error (list T * option string))).

(** The loop, which ends when the service does; [None] when [fuel] runs out. *)
Fixpoint paginate_loop (fuel : nat) (start : option string) (seen : list string) (all : list T)
    : prog E (option (result error (list T))) :=
  match fuel with
  | O => Ret None
  | S fuel' =>
      bind (fetchPage start) (λ page,
      match page with
      | Err err => Ret (Some (Err err))
      | Ok (items, None) => Ret (Some (Ok (all ++ items)%list))
      | Ok (items, Some next) =>
          if existsb (String.eqb next) seen
          then Ret (Some (Err (New ("repeated pagination token " ++ Bootstrap.Quote next))))
          else paginate_loop fuel' (Some next) (next :: seen) (all ++ items)%list
      end)
  end.

Definition paginate (fuel : nat) : prog E (option (result error (list T))) := paginate_loop fuel None [] [].
End paginate.

(** ** The SDK

    The options the callers set; a nil page is [None].  [SdkGetVPC] answers with
    the name and the identity of the default security group. *)
Record ListInstancesOptions := {
  li_Name : option string;
  li_AvailabilityClass : option string;
  li_Limit : option Z;
  li_Start : option string;
}.
Record ListImagesOptions := {
  lim_Visibility : option string;
  lim_Limit : option Z;
  lim_Start : option string;
}.
Record ListInstanceProfilesOptions := {
  lip_Limit : option Z;
  lip_Start : option string;
}.
Record VPC_ := {
  vpc_Name : option string;
  vpc_DefaultSecurityGroup : option string;
}.

(** The result of tagging one resource. *)
Record TagResult := {
  tr_ResourceID : option string;
  tr_IsError : option bool;
}.

Inductive sdk_call : Type → Type :=
  | SdkCreateInstance (prototype : InstancePrototype)
      : sdk_call (result (error * option DetailedResponse) (option Instance))
  | SdkValidateOptions (prototype : InstancePrototype) : sdk_call (option error)
  | SdkEncode (prototype : InstancePrototype) : sdk_call (option error)
  | SdkDeleteInstance (id : string) : sdk_call (option error)
  | SdkGetInstance (id : string) : sdk_call (result error (option Instance))
  | SdkListInstances (options : ListInstancesOptions) : sdk_call (result error (option (Page Instance)))
  | SdkListSubnets (vpc : string) : sdk_call (result error (list Subnets.VpcSubnet))
  | SdkGetSubnet (id : string) : sdk_call (result error Subnets.VpcSubnet)
  | SdkGetVPC (id : string) (resourceGroup : option string) : sdk_call (result error VPC_)
  | SdkGetImage (id : string) : sdk_call (result error Images.Image)
  | SdkListImages (options : ListImagesOptions) : sdk_call (result error (option (Page Images.Image)))
  | SdkListInstanceProfiles (options : ListInstanceProfilesOptions)
      : sdk_call (result error (option (Page InstanceProfile)) * option DetailedResponse)
  | SdkGetInstanceProfile (name : string) : sdk_call (result error InstanceProfile)
  | SdkGetLoadBalancer (id : string) : sdk_call (option error)
  | SdkGetLoadBalancerPool (lb pool : string) : sdk_call (result error LoadBalancer.Pool)
  | SdkListLoadBalancerPools (lb : string) : sdk_call (result error (list LoadBalancer.Pool))
  | SdkCreateLoadBalancerPoolMember (lb pool instance : string) (port weight : Z)
      : sdk_call (result error LoadBalancer.Member)
  | SdkDeleteLoadBalancerPoolMember (lb pool member : string) : sdk_call (option error)
  | SdkListLoadBalancerPoolMembers (lb pool : string) : sdk_call (result error (list LoadBalancer.Member))
  | SdkUpdateLoadBalancerPool (lb pool : string) (patch : LoadBalancer.PoolPatch)
      : sdk_call (result error LoadBalancer.Pool)
  | SdkDeleteVolume (id : string) : sdk_call (option error)
  | SdkDeleteVirtualNetworkInterface (id : string) : sdk_call (option error)
  (* Global Tagging: the resource, the tags, and whether to update *)
  | AttachTag (resource : string) (names : list string) (update : bool)
      : sdk_call (result error (option (list TagResult))).

Local Abbreviation vpc A := (prog sdk_call (result error A)).
Local Abbreviation vpc_err := (prog sdk_call (option error)).

Definition not_initialized : error := New "VPC client not initialized".
Definition defaultPageLimit : Z := 100.

Section client.
Context `{MapRange} `{SliceSorter}.

(** The fields [client] and [tagging] are set; [resourceGroupID]; the fuel of a
    listing. *)
Context (has_client has_tagging : bool) (resourceGroupID : string) (fuel : nat).

(** The shape of most methods: the client, the call, and its error wrapped. *)
Definition ask {A} (e : sdk_call (result error A)) (prefix : string) : vpc A :=
  if negb has_client then fail_with not_initialized
  else
    answer ⟵ e;
    match answer with
    | Err err => fail_with (wrapped_ prefix err)
    | Ok a => Ret (Ok a)
    end.

Definition ask_err (e : sdk_call (option error)) (prefix : string) : vpc_err :=
  if negb has_client then Ret (Some not_initialized)
  else
    answer ⟵ e;
    match answer with
    | Some err => Ret (Some (wrapped_ prefix err))
    | None => Ret None
    end.

(** *** Instances *)
Definition not_sent (cause : error) : error :=
  foreignError CreateInstanceNotSentError ("instance request was not sent: " ++ Error cause) [cause].

Definition ValidateCreateInstance (prototype : InstancePrototype) : vpc_err :=
  if negb has_client then Ret (Some (not_sent not_initialized))
  else
    e ⟵ SdkValidateOptions prototype;
    match e with
    | Some err => Ret (Some (not_sent err))
    | None =>
        e ⟵ SdkEncode prototype;
        match e with Some err => Ret (Some (not_sent err)) | None => Ret None end
    end.

(** The error of a rejected request, with the response it came with. *)
Definition creation_error (err : error) (response : option DetailedResponse) : error :=
  match response with
  | Some r =>
      if (400 <=? StatusCode r)%Z
      then default err (ibmError <$> IBM.ParseErrorResponse (Some err) (Some r))
      else wrapped_ "creating instance" err
  | None => wrapped_ "creating instance" err
  end.

Definition CreateInstance (prototype : InstancePrototype) : vpc (option Instance) :=
  bind (ValidateCreateInstance prototype) (λ e,
  match e with
  | Some err => fail_with err
  | None =>
      answer ⟵ SdkCreateInstance prototype;
      match answer with
      | Err (err, response) => fail_with (creation_error err response)
      | Ok instance => Ret (Ok instance)
      end
  end).

Definition DeleteInstance (id : string) : vpc_err := ask_err (SdkDeleteInstance id) "deleting instance".
Definition GetInstance (id : string) : vpc (option Instance) := ask (SdkGetInstance id) "getting instance".

Definition with_li_Start (o : ListInstancesOptions) (start : option string) : ListInstancesOptions :=
  {| li_Name := li_Name o; li_AvailabilityClass := li_AvailabilityClass o; li_Limit := li_Limit o; li_Start := start |}.

Definition instances_page (options : ListInstancesOptions) (resourceType : string) (start : option string)
    : vpc (list Instance * option string) :=
  answer ⟵ SdkListInstances (with_li_Start options start);
  match answer with
  | Err err => fail_with (wrapped_ ("listing " ++ resourceType) err)
  | Ok None => fail ("listing " ++ resourceType ++ " returned no collection")
  | Ok (Some page) =>
      match page_next page with
      | Err err => fail_with (wrapped_ "parsing next page token" err)
      | Ok next => Ret (Ok (page_Items page, next))
      end
  end.

(** The caller's options with a limit. *)
Definition listing_options (options : option ListInstancesOptions) : ListInstancesOptions :=
  let opts := default {| li_Name := None; li_AvailabilityClass := None; li_Limit := None; li_Start := None |} options in
  {| li_Name := li_Name opts; li_AvailabilityClass := li_AvailabilityClass opts;
     li_Limit := Some (default defaultPageLimit (li_Limit opts)); li_Start := li_Start opts |}.

(** The first page is at the start of the options, which no caller sets. *)
Definition listInstances (options : option ListInstancesOptions) (resourceType : string)
    : prog sdk_call (option (result error (list Instance))) :=
  if negb has_client then Ret (Some (Err not_initialized))
  else
    let opts := listing_options options in
    paginate_loop (instances_page opts resourceType) fuel (li_Start opts) [] [].

Definition ListInstances := listInstances None "instances".
Definition ListInstancesByName (name : string) :=
  listInstances (Some {| li_Name := Some name; li_AvailabilityClass := None; li_Limit := None; li_Start := None |}) "instances".
Definition ListSpotInstances :=
  listInstances (Some {| li_Name := None; li_AvailabilityClass := Some "spot"; li_Limit := None; li_Start := None |})
    "spot instances".

(** *** Tags *)

(** What the result of the tagging says. *)
Definition tagging_error (id crn : string) (results : option (list TagResult)) : option error :=
  match results with
  | Some [r] =>
      if negb (bool_decide (tr_ResourceID r = Some crn)) then Some (New "tagging returned another resource")
      else if default false (tr_IsError r) then Some (New ("tagging instance " ++ id ++ " failed"))
      else None
  | _ => Some (New ("tagging instance " ++ id ++ " returned no resource result"))
  end.

Definition UpdateInstanceTags (id : string) (tags : gmap string string) : vpc_err :=
  if negb has_client then Ret (Some not_initialized)
  else if bool_decide (tags = ∅) then Ret None
  else
    match FormatTags tags with
    | Err err => Ret (Some err)
    | Ok names =>
        if negb has_tagging then Ret (Some (New "tagging client not initialized"))
        else
          bind (GetInstance id) (λ answer,
          match answer with
          | Err err => Ret (Some err)
          | Ok instance =>
              match instance ≫= inst_CRN with
              | None => Ret (Some (New ("instance " ++ id ++ " has no CRN")))
              | Some crn =>
                  if empty crn then Ret (Some (New ("instance " ++ id ++ " has no CRN")))
                  else
                    answer ⟵ AttachTag crn names true;
                    match answer with
                    | Err err => Ret (Some (wrapped_ "attaching instance tags" err))
                    | Ok results => Ret (tagging_error id crn results)
                    end
              end
          end)
    end.

(** *** Networks and images *)
Definition ListSubnets (vpcID : string) : vpc (list Subnets.VpcSubnet) := ask (SdkListSubnets vpcID) "listing subnets".
Definition GetSubnet (subnetID : string) : vpc Subnets.VpcSubnet := ask (SdkGetSubnet subnetID) "getting subnet".

(** The resource group of the request, or the client's; a VPC without a name
    panics in the log. *)
Definition GetVPCWithResourceGroup (vpcID resourceGroup : string) : vpc VPC_ :=
  if negb has_client then fail_with not_initialized
  else
    let effective := if empty resourceGroup then resourceGroupID else resourceGroup in
    answer ⟵ SdkGetVPC vpcID (if empty effective then None else Some effective);
    match answer with
    | Err err => fail_with (wrapped_ "getting VPC" err)
    | Ok v => match vpc_Name v with Some _ => Ret (Ok v) | None => fail nil_dereference end
    end.

Definition GetVPC (vpcID resourceGroup : string) : vpc VPC_ := GetVPCWithResourceGroup vpcID resourceGroup.

Definition GetDefaultSecurityGroup (vpcID : string) : vpc string :=
  if negb has_client then fail_with not_initialized
  else
    answer ⟵ SdkGetVPC vpcID None;
    match answer with
    | Err err => fail_with (wrapped_ ("getting VPC " ++ vpcID) err)
    | Ok v =>
        match vpc_DefaultSecurityGroup v with
        | Some id => Ret (Ok id)
        | None => fail ("VPC " ++ vpcID ++ " has no default security group")
        end
    end.

Definition GetImage (imageID : string) : vpc Images.Image := ask (SdkGetImage imageID) "getting image".

(** A nil page is dereferenced. *)
Definition images_page (options : ListImagesOptions) (start : option string) : vpc (list Images.Image * option string) :=
  answer ⟵ SdkListImages {| lim_Visibility := lim_Visibility options; lim_Limit := lim_Limit options; lim_Start := start |};
  match answer with
  | Err err => fail_with err
  | Ok None => fail nil_dereference
  | Ok (Some page) =>
      match page_next page with
      | Err err => fail_with (wrapped_ "parsing next page token" err)
      | Ok next => Ret (Ok (page_Items page, next))
      end
  end.

Definition ListImages (options : option ListImagesOptions) : prog sdk_call (option (result error (list Images.Image))) :=
  if negb has_client then Ret (Some (Err not_initialized))
  else
    let opts := default {| lim_Visibility := None; lim_Limit := None; lim_Start := None |} options in
    let opts := {| lim_Visibility := lim_Visibility opts; lim_Limit := Some (default defaultPageLimit (lim_Limit opts));
                   lim_Start := lim_Start opts |} in
    paginate_loop (images_page opts) fuel (lim_Start opts) [] [].

Definition profiles_page (options : ListInstanceProfilesOptions) (start : option string)
    : vpc (list InstanceProfile * option string) :=
  answer ⟵ SdkListInstanceProfiles {| lip_Limit := lip_Limit options; lip_Start := start |};
  match answer.1 with
  | Err err => fail_with err
  | Ok None => fail nil_dereference
  | Ok (Some page) =>
      match page_next page with
      | Err err => fail_with (wrapped_ "parsing next page token" err)
      | Ok next => Ret (Ok (page_Items page, next))
      end
  end.

(** The profiles of all pages. *)
Definition ListInstanceProfiles (options : option ListInstanceProfilesOptions)
    : prog sdk_call (option (result error (list InstanceProfile))) :=
  if negb has_client then Ret (Some (Err not_initialized))
  else
    let opts := default {| lip_Limit := None; lip_Start := None |} options in
    let opts := {| lip_Limit := Some (default defaultPageLimit (lip_Limit opts)); lip_Start := lip_Start opts |} in
    paginate_loop (profiles_page opts) fuel (lip_Start opts) [] [].

Definition GetInstanceProfile (profileName : string) : vpc InstanceProfile :=
  ask (SdkGetInstanceProfile profileName) ("getting instance profile " ++ profileName).

(** *** Volumes and network interfaces *)
Definition DeleteVolume (volumeID : string) : vpc_err := ask_err (SdkDeleteVolume volumeID) ("deleting volume " ++ volumeID).
Definition DeleteVirtualNetworkInterface (vniID : string) : vpc_err :=
  ask_err (SdkDeleteVirtualNetworkInterface vniID) ("deleting virtual network interface " ++ vniID).

(** *** Load balancers *)
Definition GetLoadBalancer (loadBalancerID : string) : vpc_err :=
  ask_err (SdkGetLoadBalancer loadBalancerID) ("getting load balancer " ++ loadBalancerID).
Definition GetLoadBalancerPool (loadBalancerID poolID : string) : vpc LoadBalancer.Pool :=
  ask (SdkGetLoadBalancerPool loadBalancerID poolID) ("getting load balancer pool " ++ loadBalancerID ++ "/" ++ poolID).
Definition ListLoadBalancerPools (loadBalancerID : string) : vpc (list LoadBalancer.Pool) :=
  ask (SdkListLoadBalancerPools loadBalancerID) ("listing load balancer pools for " ++ loadBalancerID).
Definition CreateLoadBalancerPoolMember (loadBalancerID poolID instance : string) (port weight : Z) : vpc LoadBalancer.Member :=
  ask (SdkCreateLoadBalancerPoolMember loadBalancerID poolID instance port weight)
    ("creating load balancer pool member in " ++ loadBalancerID ++ "/" ++ poolID).
Definition DeleteLoadBalancerPoolMember (loadBalancerID poolID memberID : string) : vpc_err :=
  ask_err (SdkDeleteLoadBalancerPoolMember loadBalancerID poolID memberID)
    ("deleting load balancer pool member " ++ memberID ++ " from " ++ loadBalancerID ++ "/" ++ poolID).
Definition ListLoadBalancerPoolMembers (loadBalancerID poolID : string) : vpc (list LoadBalancer.Member) :=
  ask (SdkListLoadBalancerPoolMembers loadBalancerID poolID)
    ("listing load balancer pool members for " ++ loadBalancerID ++ "/" ++ poolID).
Definition UpdateLoadBalancerPool (loadBalancerID poolID : string) (updates : LoadBalancer.PoolPatch) : vpc LoadBalancer.Pool :=
  ask (SdkUpdateLoadBalancerPool loadBalancerID poolID updates)
    ("updating load balancer pool " ++ loadBalancerID ++ "/" ++ poolID).
End client.
End Client.

(** ** The clients of the regions *)

(** A client by what it is made of; the map [regionClients] is apart. *)
Record VPCClient := {
  baseURL : string;
  authType : string;
  apiKey : string;
  vc_region : string;
  vc_resourceGroupID : string;
}.

(** [net/url]: [Parse], [Hostname], the [Host] field, [String]. *)
Class URLs := {
  URL : Type;
  Parse : string → result GoErrors.error URL;
  Hostname : URL → string;
  Host : URL → string;
  set_Host : URL → string → URL;
  URL_String : URL → string;
}.

(** [strings.Replace(s, old, new, 1)] *)
Definition Replace1 (s old new : string) : string :=
  match Cut s old with Some (before, after) => before ++ new ++ after | None => s end.

Definition regionPattern : pattern := [Exactly is_lower 2; Lit "-"; Plus is_lower].

Section regions.
Context `{URLs}.

(** What the SDK says of a URL, and of its tagging client. *)
Context (NewVpcV1 : string → option GoErrors.error) (NewGlobalTagging : option GoErrors.error).

Definition NewVPCClient (url auth key region resourceGroup : string) : result GoErrors.error VPCClient :=
  match NewVpcV1 url with
  | Some err => Err (wrapped_ "creating VPC client" err)
  | None =>
      match NewGlobalTagging with
      | Some err => Err (wrapped_ "creating tagging client" err)
      | None =>
          Ok {| baseURL := url; authType := auth; apiKey := key; vc_region := region; vc_resourceGroupID := resourceGroup |}
      end
  end.

(** The endpoint of another region. *)
Definition regional_url (c : VPCClient) (region : string) : result GoErrors.error string :=
  match Parse (baseURL c) with
  | Err err => Err (wrapped_ "invalid VPC endpoint" err)
  | Ok endpoint =>
      let host := Hostname endpoint in
      if negb (String.eqb host (vc_region c ++ ".iaas.cloud.ibm.com")) &&
         negb (String.eqb host (vc_region c ++ ".private.iaas.cloud.ibm.com"))
      then Err (GoErrors.New "custom VPC endpoint cannot be routed to another region")
      else Ok (URL_String (set_Host endpoint (Replace1 (Host endpoint) (vc_region c ++ ".") (region ++ "."))))
  end.

(** Under [regionMu] once the region is another one: one step. *)
Definition ForRegion (c : VPCClient) (clients : gmap string VPCClient) (region : string)
    : gmap string VPCClient * result GoErrors.error VPCClient :=
  if negb (empty region) && negb (MatchString regionPattern region)
  then (clients, Err (GoErrors.New "invalid IBM region"))
  else if empty region || String.eqb region (vc_region c) || String.eqb (vc_region c) "test" then (clients, Ok c)
  else
    match clients !! region with
    | Some client => (clients, Ok client)
    | None =>
        match regional_url c region with
        | Err err => (clients, Err err)
        | Ok url =>
            match NewVPCClient url (authType c) (apiKey c) region (vc_resourceGroupID c) with
            | Err err => (clients, Err err)
            | Ok regional => (<[region := regional]> clients, Ok regional)
            end
        end
    end.
End regions.

(** ** The cached client *)

(** [vpcclient.Manager]; [m_client] tells whether its IBM client is set. *)
Record Manager := {
  m_client : bool;
  cachedClient : option VPCClient;
  cacheTime : Z;
  cacheTTL : Z;
}.

Definition NewManager (client : bool) (ttl : Z) : Manager :=
  {| m_client := client; cachedClient := None; cacheTime := GoTime.zero_time;
     cacheTTL := if (ttl =? 0)%Z then (30 * GoTime.Minute)%Z else ttl |}.

(** The check both paths make. *)
Definition valid_client (now : Z) (m : Manager) : option VPCClient :=
  match cachedClient m with
  | Some client => if (GoTime.Sub now (cacheTime m) <? cacheTTL m)%Z then Some client else None
  | None => None
  end.

(** [GetVPCClient] under the read lock gives [valid_client], if any; otherwise
    this under the write lock.  Readings: 0 the check, 1 the time stored. *)
Definition refresh_client (clk : GoTime.clock) (fetched : result GoErrors.error VPCClient) (m : Manager)
    : Manager * result GoErrors.error VPCClient :=
  match valid_client (clk 0) m with
  | Some client => (m, Ok client)
  | None =>
      if negb (m_client m) then (m, Err (GoErrors.New "getting VPC client: IBM client is nil"))
      else
        match fetched with
        | Err err => (m, Err (wrapped_ "getting VPC client" err))
        | Ok client =>
            ({| m_client := m_client m; cachedClient := Some client; cacheTime := clk 1; cacheTTL := cacheTTL m |}, Ok client)
        end
  end.

Definition InvalidateCache (m : Manager) : Manager :=
  {| m_client := m_client m; cachedClient := None; cacheTime := GoTime.zero_time; cacheTTL := cacheTTL m |}.

Definition HandleVPCError (e : err) (operation : string) : err := wrapped_ operation <$> e.

(** [ibm.Client.GetVPCClient]: the client made once, from the API key of the
    credential store. *)
Definition client_of_key (new : string → result GoErrors.error VPCClient) (stored : option VPCClient)
    (key : result GoErrors.error string) : option VPCClient * result GoErrors.error VPCClient :=
  match stored with
  | Some client => (stored, Ok client)
  | None =>
      match key with
      | Err e => (None, Err (wrapped_ "getting VPC API key" e))
      | Ok key =>
          match new key with
          | Err e => (None, Err e)
          | Ok client => (Some client, Ok client)
          end
      end
  end.

(** ** Theorems *)
Local Open Scope nat_scope.
Local Open Scope list_scope.

Module ClientSpec.
Import Client GoErrors.

Section pages.
Context {E : Type → Type} {T : Type} (fetchPage : option string → prog E (result error (list T * option string))).

(** The full pages from one cursor to another, their items and the cursors
    they handed out. *)
Inductive leads : option string → history E → list T → list string → option string → Prop :=
  | leads_nil start : leads start [] [] [] start
  | leads_cons start tr items next tr' items' tokens stop :
      runs (fetchPage start) tr (Ok (items, Some next)) → leads (Some next) tr' items' tokens stop →
      leads start (tr ++ tr') (items ++ items') (next :: tokens) stop.

Definition repeated (next : string) : error := New ("repeated pagination token " ++ Bootstrap.Quote next).

(** How the loop ends, after full pages with cursors of their own. *)
Definition ending (fuel : nat) (seen : list string) (all items : list T) (tokens : list string) (stop : option string)
    (tr : history E) (r : option (result error (list T))) : Prop :=
  match r with
  | None => tr = [] ∧ length tokens = fuel
  | Some (Ok l) => ∃ last, runs (fetchPage stop) tr (Ok (last, None)) ∧ l = all ++ items ++ last
  | Some (Err e) =>
      runs (fetchPage stop) tr (Err e) ∨
      ∃ last next, runs (fetchPage stop) tr (Ok (last, Some next)) ∧ (next ∈ tokens ∨ next ∈ seen) ∧ e = repeated next
  end.

Lemma paginate_runs fuel start seen all tr r :
  runs (paginate_loop fetchPage fuel start seen all) tr r →
  ∃ tr1 tr2 items tokens stop, tr = tr1 ++ tr2 ∧ leads start tr1 items tokens stop ∧
    NoDup tokens ∧ (∀ t, t ∈ tokens → t ∉ seen) ∧ ending fuel seen all items tokens stop tr2 r.
Proof.
  revert start seen all tr. induction fuel as [|fuel IH]; intros start seen all tr.
  { intros [-> <-]. exists [], [], [], [], start. split_and!; try done; [constructor|constructor|].
    intros t Ht. by apply elem_of_nil in Ht. }
  assert (Hnow : ∀ r, ending (S fuel) seen all [] [] start tr r → ∃ tr1 tr2 items tokens stop, tr = tr1 ++ tr2 ∧
    leads start tr1 items tokens stop ∧ NoDup tokens ∧ (∀ t, t ∈ tokens → t ∉ seen) ∧ ending (S fuel) seen all items tokens stop tr2 r).
  { intros r' Hr. exists [], tr, [], [], start. split_and!; try done; [constructor|constructor|].
    intros t Ht. by apply elem_of_nil in Ht. }
  cbn [paginate_loop]. intros (tr1 & tr2 & [[items [next|]]|e] & -> & Hf & Hr)%runs_bind.
  - destruct (existsb (String.eqb next) seen) eqn:Es.
    + destruct Hr as [-> <-]. rewrite (right_id_L [] (++)) in *. apply Hnow. right. exists items, next.
      split_and!; [done| |done]. right. by apply existsb_eqb.
    + apply IH in Hr as (tr3 & tr4 & items' & tokens & stop & -> & Hl & Hnd & Hns & He).
      assert (Hnew : next ∉ seen) by (rewrite <-existsb_eqb, Es; done).
      exists (tr1 ++ tr3), tr4, (items ++ items'), (next :: tokens), stop. split_and!.
      * by rewrite (assoc_L (++)).
      * by econstructor.
      * constructor; [|done]. intros Hin. apply (Hns _ Hin). by left.
      * intros t [->|Ht]%elem_of_cons; [done|]. intros Hin. apply (Hns _ Ht). by right.
      * destruct r as [[l|e]|]; cbn [ending] in *.
        -- destruct He as (last & Hlast & ->). exists last. split; [done|]. by rewrite !(assoc_L (++)).
        -- destruct He as [He|(last & n & Hlast & Hin & ->)]; [by left|]. right. exists last, n.
           split_and!; [done| |done]. rewrite !elem_of_cons in *. naive_solver.
        -- destruct He as [-> <-]. by split.
  - destruct Hr as [-> <-]. rewrite (right_id_L [] (++)) in *. apply Hnow. exists items. by split.
  - destruct Hr as [-> <-]. rewrite (right_id_L [] (++)) in *. apply Hnow. by left.
Qed.
End pages.

(** *** Listings of instances *)
Section instances.
Context (opts : ListInstancesOptions) (resourceType : string).

Definition request (start : option string) : sdk_call (result error (option (Page Instance))) :=
  SdkListInstances (with_li_Start opts start).

Lemma page_runs start tr a :
  runs (instances_page opts resourceType start) tr a → ∃ answer, tr = [Did (request start) answer] ∧
    match answer with
    | Err err => a = Err (wrapped_ ("listing " ++ resourceType)%string err)
    | Ok None => a = Err (New ("listing " ++ resourceType ++ " returned no collection")%string)
    | Ok (Some page) =>
        match page_next page with
        | Err err => a = Err (wrapped_ "parsing next page token" err)
        | Ok next => a = Ok (page_Items page, next)
        end
    end.
Proof.
  unfold instances_page. intros (answer & tr' & -> & Hr). exists answer.
  destruct answer as [[page|]|e]; [destruct (page_next page)|..]; by destruct Hr as [-> <-].
Qed.

(** The trace is that of the pages, each at the cursor the one before it
    handed out, the first at [start]; [last] is the cursor after them. *)
Fixpoint follows (start : option string) (pages : list (Page Instance)) (tr : history sdk_call) (last : option string) : Prop :=
  match pages with
  | [] => tr = [] ∧ last = start
  | page :: pages' => ∃ next tr', tr = Did (request start) (Ok (Some page)) :: tr' ∧ page_next page = Ok (Some next) ∧
      follows (Some next) pages' tr' last
  end.

Definition cursors (pages : list (Page Instance)) : list string :=
  omap (λ p, match page_next p with Ok next => next | Err _ => None end) pages.

Lemma leads_follows start tr items tokens stop :
  leads (instances_page opts resourceType) start tr items tokens stop →
  ∃ pages, follows start pages tr stop ∧ items = concat (page_Items <$> pages) ∧ tokens = cursors pages.
Proof.
  induction 1 as [|start tr items next tr' items' tokens stop Hr Hl (pages & Hf & -> & ->)]; [by exists []|].
  apply page_runs in Hr as ([[page|]|e] & -> & Ha); [|done|done].
  destruct (page_next page) as [n|e] eqn:En; [|done]. injection Ha as -> <-.
  exists (page :: pages). split_and!.
  - exists next, tr'. by split_and!.
  - done.
  - unfold cursors. cbn. by rewrite En.
Qed.

(** The cursor a call was answered with. *)
Definition cursor_of (ev : event sdk_call) : option string :=
  match ev with
  | Did e answer =>
      match e in sdk_call R return R → option string with
      | SdkListInstances _ => λ answer,
          match answer with
          | Ok (Some page) => match page_next page with Ok next => next | Err _ => None end
          | _ => None
          end
      | _ => λ _, None
      end answer
  end.

(** Every cursor of the run is known. *)
Definition hands_out (tr : history sdk_call) (known : list string) : Prop :=
  ∀ t, t ∈ omap cursor_of tr → t ∈ known.

Lemma follows_hands_out start pages tr stop tr' known :
  follows start pages tr stop → hands_out (tr ++ tr') known → ∀ t, t ∈ cursors pages → t ∈ known.
Proof.
  revert start tr. induction pages as [|page pages IH]; intros start tr Hf Hk t; [by intros ?%elem_of_nil|].
  destruct Hf as (next & tr0 & -> & Hn & Hf). unfold cursors, hands_out in *. cbn in *. rewrite Hn in *.
  intros [->|Ht]%elem_of_cons; [apply Hk; by left|]. apply (IH _ _ Hf); [|done]. intros t' Ht'. apply Hk. by right.
Qed.
End instances.

(** C21. A listing of instances that succeeds is the concatenation, in order, of
    the pages from the start through the cursors to a page that hands out none,
    each asked for once with the caller's filter and a limit; no cursor is
    followed twice.  It fails only when a page does, or hands out a cursor that
    was followed before.  It ends, with any fuel above the number of the cursors
    the service knows. *)
Theorem listing_follows_pages has_client fuel options resourceType known tr r
    (Hrun : runs (listInstances has_client fuel options resourceType) tr r)
    (Hknown : hands_out tr known) (Hfuel : length known < fuel) :
  (has_client = false ∧ tr = [] ∧ r = Some (Err not_initialized)) ∨
  ∃ pages stop tr', has_client = true ∧ let opts := listing_options options in
    follows opts (li_Start opts) pages tr' stop ∧ NoDup (cursors pages) ∧
    ∃ answer, tr = tr' ++ [Did (request opts stop) answer] ∧
    match answer, r with
    | Ok (Some page), Some (Ok l) => page_next page = Ok None ∧ l = concat (page_Items <$> pages ++ [page])
    | Ok (Some page), Some (Err e) =>
        match page_next page with
        | Ok (Some next) => next ∈ cursors pages ∧ e = repeated next
        | Ok None => False
        | Err e' => e = wrapped_ "parsing next page token" e'
        end
    | Ok None, Some (Err e) => e = New ("listing " ++ resourceType ++ " returned no collection")%string
    | Err e', Some (Err e) => e = wrapped_ ("listing " ++ resourceType)%string e'
    | _, _ => False
    end.
Proof.
  unfold listInstances in Hrun. destruct has_client; cbn [negb] in Hrun; [right|left; destruct Hrun as [-> <-]; done].
  apply paginate_runs in Hrun as (tr1 & tr2 & items & tokens & stop & -> & Hl & Hnd & _ & He).
  apply leads_follows in Hl as (pages & Hf & -> & ->). set (opts := listing_options options) in *.
  exists pages, stop, tr1. split; [done|]. split; [done|]. split; [done|].
  destruct r as [[l|e]|]; cbn [ending] in He.
  - destruct He as (last & Hr & ->). apply page_runs in Hr as (answer & -> & Ha). exists answer. split; [done|].
    destruct answer as [[page|]|e]; [|done|done]. destruct (page_next page) as [n|e]; [|done].
    injection Ha as -> <-. split; [done|].
    rewrite fmap_app, concat_app. cbn. by rewrite (right_id_L [] (++)).
  - destruct He as [Hr|(last & next & Hr & Hin & ->)];
      apply page_runs in Hr as (answer & -> & Ha); exists answer; (split; [done|]);
      (destruct answer as [[page|]|e']; [|try naive_solver..]).
    + destruct (page_next page); naive_solver.
    + destruct (page_next page) as [n|e]; [|done]. injection Ha as -> <-. split; [|done].
      destruct Hin as [Hin|Hin]; [done|by apply elem_of_nil in Hin].
  - exfalso. destruct He as [-> Hlen]. pose proof (NoDup_submseteq _ known Hnd) as Hsub.
    assert (Hle : length (cursors pages) ≤ length known).
    { apply submseteq_length, Hsub. by eapply follows_hands_out. }
    unfold history in *. lia.
Qed.

(** *** Creation *)

(** Whether the call asks VPC for an instance, and what it answered. *)
Definition creates (ev : event sdk_call) : bool :=
  match ev with Did e _ => match e with SdkCreateInstance _ => true | _ => false end end.

Definition creation_answer (ev : event sdk_call) : option (result (error * option DetailedResponse) (option Instance)) :=
  match ev with
  | Did e answer =>
      match e in sdk_call R return R → option _ with SdkCreateInstance _ => λ answer, Some answer | _ => λ _, None end answer
  end.

Lemma creation_error_sent err response : As VpcCreate.as_not_sent err = None →
  VpcCreate.IsCreateInstanceNotSent (creation_error err response) = false.
Proof.
  intros Hs. unfold VpcCreate.IsCreateInstanceNotSent. apply bool_decide_eq_false_2.
  assert (Hn : ∀ e, As VpcCreate.as_not_sent e = None → ¬ is_Some (As VpcCreate.as_not_sent e)).
  { intros e ->. apply is_Some_None. }
  apply Hn. assert (Hw : As VpcCreate.as_not_sent (wrapped_ "creating instance" err) = None).
  { unfold wrapped_, wrap. cbn. by rewrite Hs. }
  unfold creation_error. destruct response as [r|]; [|done]. destruct (400 <=? StatusCode r)%Z; [|done].
  cbn. unfold IBM.parse_response. destruct (match IBM.error_details r with Some _ => _ | None => _ end) as [code more].
  destruct (Strconv.Atoi _) as [after ok]. cbn. by rewrite Hs.
Qed.

(** C20. [CreateInstance] asks VPC for the instance at most once, and its error
    says that the request was not sent exactly when it was not: it checks the
    client, the options and the encoding before.  This is what the recovery of a
    launch relies on, when it forgets a launch that was not sent.  The SDK's own
    errors are assumed not to be the program's error type. *)
Theorem not_sent_is_not_sent has_client prototype tr r
    (Hrun : runs (CreateInstance has_client prototype) tr r)
    (Hsdk : ∀ ev err response, ev ∈ tr → creation_answer ev = Some (Err (err, response)) → As VpcCreate.as_not_sent err = None) :
  length (List.filter creates tr) ≤ 1 ∧
  match r with
  | Ok _ => List.filter creates tr ≠ []
  | Err e => VpcCreate.IsCreateInstanceNotSent e = true ↔ List.filter creates tr = []
  end.
Proof.
  assert (Hnot : ∀ cause, VpcCreate.IsCreateInstanceNotSent (not_sent cause) = true) by done.
  unfold CreateInstance, ValidateCreateInstance in Hrun. destruct has_client; cbn in Hrun.
  2:{ destruct Hrun as [-> <-]. split; [cbn; lia|]. by rewrite Hnot. }
  destruct Hrun as ([e|] & tr1 & -> & Hrun); cbn in Hrun.
  { destruct Hrun as [-> <-]. split; [cbn; lia|]. by rewrite Hnot. }
  destruct Hrun as ([e|] & tr2 & -> & Hrun); cbn in Hrun.
  { destruct Hrun as [-> <-]. split; [cbn; lia|]. by rewrite Hnot. }
  destruct Hrun as ([i|[err response]] & tr3 & -> & -> & <-); (split; [cbn; lia|]); [done|].
  rewrite creation_error_sent; [done|]. eapply Hsdk; [by right; right; left|done].
Qed.

(** *** Tags *)
Section tags.
Context `{MapRange} `{SliceSorter}.

(** The one result is about the resource and not an error. *)
Definition tagged (crn : string) (results : option (list TagResult)) : Prop :=
  ∃ result, results = Some [result] ∧ tr_ResourceID result = Some crn ∧ tr_IsError result ≠ Some true.

Lemma tagging_error_None id crn results : tagging_error id crn results = None ↔ tagged crn results.
Proof.
  unfold tagging_error, tagged. destruct results as [[|r [|]]|]; try naive_solver.
  destruct (bool_decide_reflect (tr_ResourceID r = Some crn)); cbn [negb]; [|naive_solver].
  destruct (tr_IsError r) as [[]|] eqn:Ee; cbn; naive_solver.
Qed.

(** A request to Global Tagging: the instance was read and has this resource
    name, and the tags are the formatted ones. *)
Definition attach_guard (id : string) (tags : gmap string string) : guard (E := sdk_call) := λ h R e,
  match e with
  | AttachTag crn names update =>
      update = true ∧ FormatTags tags = Ok names ∧ crn ≠ ""%string ∧
      ∃ i, h = [Did (SdkGetInstance id) (Ok (Some i))] ∧ inst_CRN i = Some crn
  | SdkGetInstance id' => id' = id ∧ h = []
  | _ => False
  end.

Lemma update_tags_wp has_client has_tagging id tags :
  wp (attach_guard id tags) (UpdateInstanceTags has_client has_tagging id tags) []
    (λ h e, e = None → tags = ∅ ∨ ∃ crn names results h', h = Did (AttachTag crn names true) (Ok results) :: h' ∧ tagged crn results).
Proof.
  unfold UpdateInstanceTags. destruct has_client; [|done]. cbn [negb].
  case_bool_decide as Ht; [by left|]. destruct (FormatTags tags) as [names|err] eqn:Ef; [|done].
  destruct has_tagging; [|done]. cbn [negb]. unfold GetInstance, ask. cbn [negb bind wp]. split; [done|].
  intros [i|e]; [|done]. cbn [bind wp]. destruct (i ≫= inst_CRN) as [crn|] eqn:Ec; [|done].
  destruct i as [i|]; [cbn in Ec|done]. destruct (String.eqb_spec crn "") as [->|Hne]; [done|].
  unfold empty. rewrite (proj2 (String.eqb_neq _ _) Hne). split; [by split_and!; [..|exists i]|].
  intros [results|err]; [|done]. intros He%tagging_error_None. right. by eexists crn, names, results, _.
Qed.

(** [UpdateInstanceTags] asks Global Tagging only to update the resource of
    the instance it just read, with exactly the formatted tags, and succeeds
    only when there is nothing to tag or the one result is about that resource
    and not an error. *)
Theorem tags_on_own_resource has_client has_tagging id tags tr r
    (Hrun : runs (UpdateInstanceTags has_client has_tagging id tags) tr r) :
  (∀ before R (e : sdk_call R) answer after,
     tr = before ++ Did e answer :: after → attach_guard id tags (reverse before) R e) ∧
  (r = None → tags = ∅ ∨ ∃ crn names results h',
     reverse tr = Did (AttachTag crn names true) (Ok results) :: h' ∧ tagged crn results).
Proof. apply (guarded_run _ _ _ _ _ (update_tags_wp has_client has_tagging id tags) Hrun). Qed.
End tags.

(** *** Regions *)
Section regions.
Context `{URLs} (NewVpcV1 : string → option error) (NewGlobalTagging : option error).

Definition same_credential (c client : VPCClient) : Prop :=
  apiKey client = apiKey c ∧ authType client = authType c ∧ vc_resourceGroupID client = vc_resourceGroupID c.

(** The stored clients are those of their regions. *)
Definition regional (c : VPCClient) (clients : gmap string VPCClient) : Prop :=
  map_Forall (λ region client, vc_region client = region ∧ same_credential c client ∧
    MatchString regionPattern region = true ∧ regional_url c region = Ok (baseURL client)) clients.

(** [ForRegion] gives the client itself, or one for the region: with the same
    credential, at the endpoint of the region, and the same at every later
    call.  An error stores nothing. *)
Theorem region_keeps_credential c clients region (Hinv : regional c clients) :
  let '(clients', r) := ForRegion NewVpcV1 NewGlobalTagging c clients region in
  regional c clients' ∧ clients ⊆ clients' ∧
  match r with
  | Err _ => clients' = clients
  | Ok client =>
      (client = c ∧ (region = "" ∨ region = vc_region c ∨ vc_region c = "test")%string) ∨
      (vc_region client = region ∧ same_credential c client ∧ regional_url c region = Ok (baseURL client) ∧
       ForRegion NewVpcV1 NewGlobalTagging c clients' region = (clients', Ok client))
  end.
Proof.
  unfold ForRegion. destruct (negb (empty region) && negb (MatchString regionPattern region)) eqn:Ep; [done|].
  destruct (empty region || _ || _) eqn:Eo.
  { split_and!; [done|done|]. left. split; [done|]. unfold empty in Eo.
    apply orb_true_iff in Eo as [[E|E]%orb_true_iff|E]; apply String.eqb_eq in E; naive_solver. }
  destruct (clients !! region) as [client|] eqn:El.
  { split_and!; [done|done|]. right. destruct (Hinv _ _ El) as (Hr & Hs & _ & Hu). split_and!; try done. by rewrite El. }
  destruct (regional_url c region) as [url|e] eqn:Eu; [|done].
  unfold NewVPCClient. destruct (NewVpcV1 url) as [e|]; [done|]. destruct NewGlobalTagging as [e|]; [done|].
  apply orb_false_iff in Eo as [[Er _]%orb_false_iff _]. rewrite Er in Ep. cbn [negb andb] in Ep.
  split_and!.
  - apply map_Forall_insert_2; [|done]. split_and!; try done. by apply negb_false_iff.
  - by apply insert_subseteq.
  - right. split_and!; try done. by rewrite lookup_insert_eq.
Qed.
End regions.

(** Three pages, the last without a cursor. *)
Definition listed (id : string) : Instance :=
  {| inst_ID := Some id; inst_Name := None; inst_Status := None; inst_CRN := None; inst_Profile := None; inst_Zone := None;
     inst_VPC := None; inst_Image := None; inst_ResourceGroup := None; PrimaryNetworkAttachment := None;
     PrimaryNetworkInterface := None; VpcApi.AvailabilityClass := None; CreatedAt := None; StatusReasons := [] |}.
Definition three_pages (start : option string) : Page Instance :=
  match start with
  | None => {| page_Items := [listed "i-1"; listed "i-2"]%string; page_next := Ok (Some "p2"%string) |}
  | Some "p2"%string => {| page_Items := [listed "i-3"%string]; page_next := Ok (Some "p3"%string) |}
  | Some _ => {| page_Items := [listed "i-4"%string]; page_next := Ok None |}
  end.

(** A service that lists these pages, knows one instance and tags it. *)
Definition sdk_serve (R : Type) (e : sdk_call R) (s : unit) : R * unit :=
  (match e in sdk_call R return R with
   | SdkListInstances o => Ok (Some (three_pages (li_Start o)))
   | SdkCreateInstance _ => Ok (Some (listed "i-5"%string))
   | SdkValidateOptions _ | SdkEncode _ => None
   | SdkDeleteInstance _ | SdkGetLoadBalancer _ | SdkDeleteLoadBalancerPoolMember _ _ _ | SdkDeleteVolume _
   | SdkDeleteVirtualNetworkInterface _ => None
   | SdkGetInstance id => Ok (Some (listed id))
   | SdkListInstanceProfiles _ => (Ok None, None)
   | AttachTag crn _ _ => Ok (Some [{| tr_ResourceID := Some crn; tr_IsError := None |}])
   | SdkListSubnets _ | SdkListLoadBalancerPools _ | SdkListLoadBalancerPoolMembers _ _ => Ok []
   | SdkListImages _ => Ok None
   | _ => Err (New "not served"%string)
   end, s).

Definition example_listing := interp sdk_serve (ListInstances true 4) tt.

Lemma listing_follows_pages_witness :
  hands_out example_listing.1.1 ["p2"; "p3"]%string ∧
  match example_listing.1.2 with
  | Some (Ok l) => inst_ID <$> l = [Some "i-1"; Some "i-2"; Some "i-3"; Some "i-4"]%string
  | _ => False
  end ∧
  ∃ pages stop, follows (listing_options None) None pages (firstn 2 example_listing.1.1) stop ∧ NoDup (cursors pages).
Proof.
  assert (Hk : hands_out example_listing.1.1 ["p2"; "p3"]%string).
  { intros t Ht. vm_compute in Ht. exact Ht. }
  split; [exact Hk|]. split; [vm_compute; reflexivity|].
  destruct (listing_follows_pages true 4 None "instances" ["p2"; "p3"]%string _ _
    (interp_runs sdk_serve (ListInstances true 4) tt) Hk ltac:(cbn; lia)) as [[[=] _]|(pages & stop & tr' & _ & Hf & Hnd & answer & Htr & _)].
  exists pages, stop. split; [|exact Hnd].
  assert (Ht : tr' = firstn 2 example_listing.1.1).
  { assert (Hl : length example_listing.1.1 = 3) by reflexivity.
    change (interp sdk_serve (ListInstances true 4) tt) with example_listing in Htr.
    rewrite Htr, List.length_app in Hl. cbn in Hl. rewrite Htr. rewrite take_app_length' by lia. done. }
  rewrite <-Ht. exact Hf.
Defined.

Definition example_prototype : InstancePrototype :=
  {| proto_Image := "image-1"; proto_Zone := "us-south-1"; AttachmentName := "eth0";
     VirtualNetworkInterface := {| vni_Subnet := "subnet-1"; EnableInfrastructureNat := true; AllowIPSpoofing := false;
       ProtocolStateFilteringMode := "auto"; vni_Name := "vni-1"; AutoDelete := true; vni_ResourceGroup := None;
       vni_SecurityGroups := [] |};
     proto_VPC := "vpc-1"; proto_Name := "node-1"; proto_Profile := "bx2-2x8";
     BootVolumeAttachment := VpcCreate.default_boot "node-1"; Availability := None;
     AvailabilityPolicy := HostFailure "restart"; ReservationAffinity := None; proto_PlacementTarget := None;
     proto_ResourceGroup := None; Keys := []; proto_UserData := ""; VolumeAttachments := []; MetadataService := None |}%string.

(** A service that rejects the options. *)
Definition sdk_reject (R : Type) (e : sdk_call R) (s : unit) : R * unit :=
  match e in sdk_call R return R * unit with
  | SdkValidateOptions _ => (Some (New "invalid options"%string), s)
  | e => sdk_serve _ e s
  end.

Lemma not_sent_is_not_sent_witness :
  match interp sdk_reject (CreateInstance true example_prototype) tt with
  | (tr, Err e, _) => VpcCreate.IsCreateInstanceNotSent e = true ∧ List.filter creates tr = []
  | _ => False
  end ∧
  length (List.filter creates (interp sdk_serve (CreateInstance true example_prototype) tt).1.1) ≤ 1.
Proof.
  split.
  - assert (Hv : VpcCreate.IsCreateInstanceNotSent (not_sent (New "invalid options"%string)) = true) by (vm_compute; reflexivity).
    split; [exact Hv|].
    apply (not_sent_is_not_sent true example_prototype _ _ (interp_runs sdk_reject (CreateInstance true example_prototype) tt)); [|exact Hv].
    intros ev err response Hin. cbn in Hin. apply list_elem_of_singleton in Hin as ->. intros [=].
  - apply (not_sent_is_not_sent true example_prototype _ _ (interp_runs sdk_serve (CreateInstance true example_prototype) tt)).
    intros ev err response Hin. cbn in Hin. rewrite !elem_of_cons in Hin.
    destruct Hin as [->|[->|[->|Hin]]]; [intros [=]..|]. by apply elem_of_nil in Hin.
Defined.
End ClientSpec.
