(* ===== verification/NodeClassStatus.v ===== *)
(** * NodeClassStatus: the validation of a NodeClass

    [pkg/controllers/nodeclass/status/controller.go]: the checks of the fields,
    the region, the VPC, the subnets, the image, the security groups and the SSH
    keys, and the Ready condition they lead to.  The subnets, the images and the
    VPC are read by the programs of Subnets, Images and VpcClient, embedded in
    the calls here, so that the theorem says what those were answered. *)
From stdpp Require Import prelude list strings gmap.
From Stdlib Require Import Ascii SpecFloat.
From S2P Require Import Prelude GoLib GoSort GoFloat Errors NodeClass ProviderIDs Prog Kube IksApi VpcApi ControllerApi.
From S2P Require Import GoRegexp VpcClient.
From S2P Require Subnets Images.
Import Strings.

Open Scope string_scope.
Open Scope nat_scope.
Local Open Scope prog_scope.

(** A region as the API lists it: name and status. *)
Record RegionInfo := {
  reg_Name : option string;
  reg_Status : option string;
}.

(** The calls of the programs it runs carry the client they are made with. *)
Inductive status_call : Type → Type :=
  | CacheGetClass (name : string) : status_call (result GoErrors.error IBMNodeClass)
  | ReaderGetClass (name : string) : status_call (result GoErrors.error IBMNodeClass)
  | PatchStatus (stored fresh : IBMNodeClass) : status_call (result GoErrors.error IBMNodeClass)
  (* the clients: of the manager, of the IBM client, of another region *)
  | ManagerClient : status_call (result GoErrors.error VPCClient)
  | IBMClient : status_call (result GoErrors.error VPCClient)
  | RegionClient (c : VPCClient) (region : string) : status_call (result GoErrors.error VPCClient)
  | ListRegions (c : VPCClient) : status_call (result GoErrors.error (option (option (list RegionInfo))))
  (* the VPC of the group, if it has one *)
  | GetSecurityGroup (c : VPCClient) (id : string) : status_call (result GoErrors.error (option string))
  | GetKey (c : VPCClient) (id : string) : status_call err
  | OfSDK (c : VPCClient) {R : Type} (e : Client.sdk_call R) : status_call R
  | OfImages (c : VPCClient) {R : Type} (e : Images.image_call R) : status_call R
  | OfSubnets {R : Type} (e : Subnets.subnet_call R) : status_call R
  (* the cached zone of a subnet *)
  | ZoneCacheGet (key : string) : status_call (option string)
  | ZoneCacheSet (key zone : string) (ttl : Z) : status_call unit
  (* [rand.Float64], the wait with the end of the context, the clock *)
  | RandFloat64 : status_call spec_float
  | Sleep (d : Z) : status_call err
  | SNow : status_call Z.

Local Abbreviation st A := (prog status_call (result GoErrors.error A)).
Local Abbreviation st_err := (prog status_call err).

(** ** Fields *)
Definition blank (s : string) : bool := empty (TrimSpace s).

Definition missing_fields (spec : IBMNodeClassSpec) : list string :=
  (if blank (Region spec) then ["region"] else []) ++
  (if blank (Image spec) && match ImageSelector_ spec with None => true | Some _ => false end
   then ["image or imageSelector"] else []) ++
  (if blank (VPC spec) then ["vpc"] else []).

Definition validateRequiredFields (spec : IBMNodeClassSpec) : err :=
  match missing_fields spec with
  | [] => None
  | missing => Some (GoErrors.New ("required fields missing: " ++ Join missing ", "))
  end.

Definition region_char (c : ascii) : bool := is_lower c || Ascii.eqb c "-".

Definition validateRegionFormat (region : string) : err :=
  if negb (Contains region "-") || (len region <? 5)%Z || (10 <? len region)%Z
  then Some (GoErrors.New ("invalid region format: " ++ region ++ ", expected format like 'us-south' or 'eu-de'"))
  else if negb (all_chars region_char region)
  then Some (GoErrors.New ("invalid region format: " ++ region ++ ", regions must contain only lowercase letters and hyphens"))
  else None.

(** An identifier that cannot be one. *)
Definition malformed_id (id : string) : bool := negb (empty id) && (negb (Contains id "-") || (len id <? 10)%Z).

Definition validateFieldFormats (spec : IBMNodeClassSpec) : err :=
  let vpcID := TrimSpace (VPC spec) in
  let subnetID := TrimSpace (Subnet spec) in
  let imageID := TrimSpace (Image spec) in
  let region := TrimSpace (Region spec) in
  let zone := TrimSpace (Zone spec) in
  if malformed_id vpcID
  then Some (GoErrors.New ("VPC ID format invalid, expected format like 'r006-<uuid>', got: " ++ vpcID))
  else if malformed_id subnetID
  then Some (GoErrors.New ("subnet ID format invalid, expected format like '0717-<uuid>', got: " ++ subnetID))
  else if negb (empty imageID) && HasPrefix imageID "image-" && (len imageID <? 10)%Z
  then Some (GoErrors.New ("image ID appears invalid: " ++ imageID))
  else
    match (if empty region then None else validateRegionFormat region) with
    | Some e => Some e
    | None =>
        if negb (empty zone) && negb (HasPrefix zone (region ++ "-"))
        then Some (GoErrors.New ("zone " ++ zone ++ " must start with region prefix " ++ region ++ "-"))
        else None
    end.

Definition validZoneBalances : list string := ["Balanced"; "AvailabilityFirst"; "CostOptimized"].

Definition validatePlacementStrategy (strategy : option PlacementStrategy) : err :=
  match strategy with
  | None => None
  | Some strategy =>
      if negb (existsb (String.eqb (ZoneBalance strategy)) validZoneBalances)
      then Some (GoErrors.New ("invalid ZoneBalance: " ++ ZoneBalance strategy ++ ", must be one of: " ++ Join validZoneBalances ", "))
      else
        match SubnetSelection strategy with
        | Some criteria =>
            if (MinimumAvailableIPs criteria <? 0)%Z
            then Some (GoErrors.New ("MinimumAvailableIPs must be non-negative: " ++ Strconv.Itoa (MinimumAvailableIPs criteria)))
            else None
        | None => None
        end
  end.

(** ** The retry *)

(** Go's conversion of a float that is in range: towards zero. *)
Definition Trunc (f : spec_float) : Z :=
  match f with
  | S754_finite s m e =>
      let z := if (0 <=? e)%Z then (Zpos m * 2 ^ e)%Z else (Zpos m / 2 ^ (- e))%Z in
      if s then (- z)%Z else z
  | _ => 0%Z
  end.

Definition backoff_delay (baseDelay : Z) (attempt : nat) : Z :=
  Z.min (Trunc (Float.mul (Float.of_int baseDelay) (Float.of_int (2 ^ Z.of_nat attempt)))) (30 * GoTime.Second).

(** A quarter of the delay, either way. *)
Definition jitter (delay : Z) (random : spec_float) : Z :=
  Trunc (Float.mul (Float.mul (Float.of_int delay) (Float.div (Float.of_int 1) (Float.of_int 4)))
    (Float.sub (Float.mul (Float.of_int 2) random) (Float.of_int 1))).

(** [remaining] attempts from the one numbered [attempt]. *)
Fixpoint retry_from (attempt remaining : nat) (baseDelay : Z) (fn : st_err) : st_err :=
  match remaining with
  | O => Ret None
  | S remaining' =>
      bind fn (λ e,
      match e, remaining' with
      | None, _ => Ret None
      | Some err, O => Ret (Some err)
      | Some err, S _ =>
          let delay := backoff_delay baseDelay attempt in
          random ⟵ RandFloat64;
          stopped ⟵ Sleep (delay + jitter delay random);
          match stopped with
          | Some e => Ret (Some e)
          | None => retry_from (S attempt) remaining' baseDelay fn
          end
      end)
  end.

Definition retryWithExponentialBackoff (maxRetries : nat) (baseDelay : Z) (fn : st_err) : st_err :=
  retry_from 0 maxRetries baseDelay fn.

(** The message for an error, by what its text contains. *)
Definition says (e : GoErrors.error) (texts : list string) : bool := existsb (Contains (GoErrors.Error e)) texts.
Definition explained (absent denied network generic : string) (e : GoErrors.error) : GoErrors.error :=
  if says e ["404"; "not found"] then GoErrors.New absent
  else if says e ["403"; "forbidden"; "unauthorized"] then GoErrors.New denied
  else if says e ["timeout"; "connection"] then wrapped_ network e
  else wrapped_ generic e.

(** ** Checks against the API *)

(** [meta.SetStatusCondition]: the condition of the type is the new one, with
    the time of its last transition, and the others stay. *)
Definition condition_of (l : list Condition) (type : string) : option Condition :=
  List.find (λ c, String.eqb (cond_Type c) type) l.
Class StatusConditions := {
  SetStatusCondition : list Condition → Condition → list Condition;
  SetStatusCondition_same : ∀ l c, ∃ c', condition_of (SetStatusCondition l c) (cond_Type c) = Some c' ∧
    cond_Status c' = cond_Status c ∧ cond_Reason c' = cond_Reason c ∧ cond_Message c' = cond_Message c ∧
    ObservedGeneration c' = ObservedGeneration c;
  SetStatusCondition_other : ∀ l c type, type ≠ cond_Type c →
    condition_of (SetStatusCondition l c) type = condition_of l type;
}.

Section controller.
Context `{SliceSorter} `{StatusConditions}.

(** The fields of the controller that may be nil; whether a client's SDK client
    is set. *)
Record controller := {
  has_apiReader : bool;
  has_ibmClient : bool;
  has_subnetProvider : bool;
  has_manager : bool;
}.
Context (c : controller) (has_sdk : VPCClient → bool) (p : Subnets.provider).

(** The region is the one stored in the context. *)
Definition validationVPCClient (region : string) : st VPCClient :=
  answer ⟵ ManagerClient;
  match answer with
  | Err e => fail_with e
  | Ok vpc => call (RegionClient vpc region)
  end.

(** The first listed region of the name decides. *)
Definition region_error (region : string) (regions : list RegionInfo) : err :=
  match List.find (λ r, bool_decide (reg_Name r = Some region)) regions with
  | Some r =>
      match reg_Status r with
      | Some status =>
          if String.eqb status "available" then None
          else Some (GoErrors.New ("region " ++ region ++ " exists but is not available (status: " ++ status ++ ")"))
      | None => None
      end
  | None => Some (GoErrors.New ("region " ++ region ++ " not found in VPC API"))
  end.

Definition validateRegion (region : string) : st_err :=
  if empty region then Ret (Some (GoErrors.New "region is required"))
  else
    match validateRegionFormat region with
    | Some e => Ret (Some e)
    | None =>
        answer ⟵ ManagerClient;
        match answer with
        | Err e => Ret (Some (wrapped_ "getting VPC client" e))
        | Ok vpc =>
            if negb (has_sdk vpc) then Ret (Some (GoErrors.New "VPC SDK client not available"))
            else
              answer ⟵ ListRegions vpc;
              match answer with
              | Err e => Ret (Some (wrapped_ "listing regions from VPC API" e))
              | Ok None | Ok (Some None) => Ret (Some (GoErrors.New "no regions found in VPC API"))
              | Ok (Some (Some regions)) => Ret (region_error region regions)
              end
        end
    end.

Definition createRegionVPCClient (region : string) : st VPCClient :=
  if negb (has_ibmClient c) then fail "IBM client not available"
  else
    answer ⟵ IBMClient;
    match answer with
    | Err e => fail_with (wrapped_ "getting VPC client" e)
    | Ok vpc => call (RegionClient vpc region)
    end.

(** [vpcClient.GetVPCWithResourceGroup] *)
Definition get_vpc (vpc : VPCClient) (vpcID resourceGroupID : string) : st Client.VPC_ :=
  embed (λ R e, OfSDK vpc e) (Client.GetVPCWithResourceGroup (has_sdk vpc) (vc_resourceGroupID vpc) vpcID resourceGroupID).

Definition validateVPCInRegion (vpcID resourceGroupID region : string) : st_err :=
  bind (createRegionVPCClient region) (λ answer,
  match answer with
  | Err e => Ret (Some (wrapped_ ("creating region-specific VPC client for " ++ region) e))
  | Ok vpc =>
      bind (retryWithExponentialBackoff 3 GoTime.Second (bind (get_vpc vpc vpcID resourceGroupID) (λ r, Ret (err_of r)))) (λ e,
      Ret (explained
        ("VPC " ++ vpcID ++ " does not exist in region " ++ region ++ ". Please verify the VPC ID and ensure it exists in the correct region")
        ("VPC " ++ vpcID ++ " exists but is not accessible in region " ++ region ++ ". Please check IAM permissions and resource group access")
        ("VPC validation failed due to network issues accessing VPC " ++ vpcID ++ " in region " ++ region)
        ("VPC " ++ vpcID ++ " validation failed in region " ++ region) <$> e))
  end).

(** [c.subnetProvider.GetSubnet] and [ListSubnets] *)
Definition get_subnet (subnetID : string) : st SubnetInfo := embed (λ R e, OfSubnets e) (Subnets.GetSubnet_ p subnetID).
Definition list_subnets (vpcID : string) : st (list SubnetInfo) := embed (λ R e, OfSubnets e) (Subnets.ListSubnets_ p vpcID).

Definition subnet_error (subnetID expectedRegion : string) (s : SubnetInfo) : err :=
  let subnetRegion := ExtractRegionFromZone (sub_Zone s) in
  if negb (String.eqb subnetRegion expectedRegion)
  then Some (GoErrors.New ("subnet " ++ subnetID ++ " is in region " ++ subnetRegion ++ " but NodeClass expects region " ++ expectedRegion ++
               " (subnet zone: " ++ sub_Zone s ++ "). Cross-region subnet references are not supported"))
  else if negb (String.eqb (sub_State s) "available")
  then Some (GoErrors.New ("subnet " ++ subnetID ++ " is not in available state: " ++ sub_State s))
  else if (AvailableIPs s <? 10)%Z
  then Some (GoErrors.New ("subnet " ++ subnetID ++ " has insufficient available IPs (" ++ Strconv.Itoa (AvailableIPs s) ++ ")"))
  else None.

Definition validateSubnet (subnetID vpcID expectedRegion : string) : st_err :=
  bind (get_subnet subnetID) (λ answer,
  match answer with
  | Err e => Ret (Some (wrapped_ ("subnet " ++ subnetID ++ " not found or not accessible") e))
  | Ok s => Ret (subnet_error subnetID expectedRegion s)
  end).

Definition usable_subnet (zone : string) (s : SubnetInfo) : bool :=
  String.eqb (sub_State s) "available" && (10 <? AvailableIPs s)%Z && (empty zone || String.eqb (sub_Zone s) zone).

Definition validateSubnetsAvailable (vpcID zone : string) : st_err :=
  bind (list_subnets vpcID) (λ answer,
  match answer with
  | Err e => Ret (Some (wrapped_ ("failed to list subnets in VPC " ++ vpcID) e))
  | Ok subnets =>
      if existsb (usable_subnet zone) subnets then Ret None
      else if negb (empty zone)
      then Ret (Some (GoErrors.New ("no available subnets found in VPC " ++ vpcID ++ " for zone " ++ zone)))
      else Ret (Some (GoErrors.New ("no available subnets found in VPC " ++ vpcID)))
  end).

Definition zone_key (subnetID : string) : string := "subnet-zone-" ++ subnetID.

(** A cached zone is compared, and nothing else is checked then. *)
Definition validateZoneSubnetCompatibility (zone subnetID : string) : st_err :=
  if negb (has_subnetProvider c) then Ret None
  else
    cached ⟵ ZoneCacheGet (zone_key subnetID);
    match cached with
    | Some cachedZone =>
        if negb (String.eqb cachedZone zone)
        then Ret (Some (GoErrors.New ("subnet " ++ subnetID ++ " is in zone " ++ cachedZone ++ ", but requested zone is " ++ zone)))
        else Ret None
    | None =>
        bind (get_subnet subnetID) (λ answer,
        match answer with
        | Err e => Ret (Some (wrapped_ "failed to get subnet information" e))
        | Ok s =>
            _u ⟵ ZoneCacheSet (zone_key subnetID) (sub_Zone s) (15 * GoTime.Minute);
            if negb (String.eqb (sub_Zone s) zone)
            then Ret (Some (GoErrors.New ("subnet " ++ subnetID ++ " is in zone " ++ sub_Zone s ++ ", but requested zone is " ++ zone ++
                        ". Subnets cannot span multiple zones in IBM Cloud VPC")))
            else if negb (String.eqb (sub_State s) "available")
            then Ret (Some (GoErrors.New ("subnet " ++ subnetID ++ " in zone " ++ zone ++ " is not in available state (current state: " ++ sub_State s ++ ")")))
            else Ret None
        end)
    end.

(** [imageResolver.ResolveImage] and [ResolveImageBySelector] *)
Definition resolve_image (vpc : VPCClient) (image : string) : st string := embed (λ R e, OfImages vpc e) (Images.ResolveImage_ image).
Definition resolve_selector (vpc : VPCClient) (selector : ImageSelector) : st string :=
  embed (λ R e, OfImages vpc e) (Images.ResolveImageBySelector (Some selector)).

(** The resolved image. *)
Definition validateImageConfiguration (spec : IBMNodeClassSpec) : st string :=
  vpc ←! validationVPCClient (Region spec);
  if negb (empty (Image spec)) then
    bind (resolve_image vpc (Image spec)) (λ answer,
    match answer with
    | Err e => fail_with (wrapped_ ("image " ++ Image spec ++ " not found or not accessible in region " ++ Region spec) e)
    | Ok image => Ret (Ok image)
    end)
  else
    match ImageSelector_ spec with
    | Some s =>
        bind (resolve_selector vpc s) (λ answer,
        match answer with
        | Err e =>
            fail_with (wrapped_ ("no images found matching selector (os=" ++ OS s ++ ", majorVersion=" ++ MajorVersion s ++ ", minorVersion=" ++
              MinorVersion s ++ ", architecture=" ++ Architecture s ++ ", variant=" ++ Variant s ++ ") in region " ++ Region spec) e)
        | Ok image => Ret (Ok image)
        end)
    | None => fail "either image or imageSelector must be specified"
    end.

(** The group exists, and is of the VPC when it names one. *)
Definition check_group (vpc : VPCClient) (vpcID region sgID : string) : st_err :=
  bind (retryWithExponentialBackoff 3 GoTime.Second (answer ⟵ GetSecurityGroup vpc sgID; Ret (err_of answer))) (λ e,
  match e with
  | Some e =>
      Ret (Some (explained
        ("security group " ++ sgID ++ " does not exist in region " ++ region ++ ". Please verify the security group ID")
        ("security group " ++ sgID ++ " exists but is not accessible in region " ++ region ++ ". Please check IAM permissions")
        ("security group validation failed due to network issues accessing " ++ sgID ++ " in region " ++ region)
        ("security group " ++ sgID ++ " validation failed in region " ++ region) e))
  | None =>
      answer ⟵ GetSecurityGroup vpc sgID;
      match answer with
      | Err e => Ret (Some (wrapped_ ("failed to get security group details for " ++ sgID) e))
      | Ok (Some sgVPC) =>
          if negb (String.eqb sgVPC vpcID)
          then Ret (Some (GoErrors.New ("security group " ++ sgID ++ " belongs to VPC " ++ sgVPC ++ " but NodeClass specifies VPC " ++ vpcID ++
                      ". Security groups must be in the same VPC as instances")))
          else Ret None
      | Ok None => Ret None
      end
  end).

Definition check_key (vpc : VPCClient) (region keyID : string) : st_err :=
  bind (retryWithExponentialBackoff 3 GoTime.Second (call (GetKey vpc keyID))) (λ e,
  Ret (explained
    ("SSH key " ++ keyID ++ " does not exist in region " ++ region ++ ". Please verify the SSH key ID")
    ("SSH key " ++ keyID ++ " exists but is not accessible in region " ++ region ++ ". Please check IAM permissions")
    ("SSH key validation failed due to network issues accessing " ++ keyID ++ " in region " ++ region)
    ("SSH key " ++ keyID ++ " validation failed in region " ++ region) <$> e)).

(** The loop of both: the first error ends it, blank entries are skipped. *)
Fixpoint check_each (check : string → st_err) (ids : list string) : st_err :=
  match ids with
  | [] => Ret None
  | id :: ids' =>
      if blank id then check_each check ids'
      else bind (check (TrimSpace id)) (λ e, match e with Some e => Ret (Some e) | None => check_each check ids' end)
  end.

(** With a client of the region, or nothing without a manager. *)
Definition with_sdk (region : string) (k : VPCClient → st_err) : st_err :=
  if negb (has_manager c) then Ret None
  else
    bind (validationVPCClient region) (λ answer,
    match answer with
    | Err e => Ret (Some (wrapped_ "getting VPC client" e))
    | Ok vpc => if negb (has_sdk vpc) then Ret (Some (GoErrors.New "VPC SDK client not available")) else k vpc
    end).

Definition validateSecurityGroups (securityGroupIDs : list string) (vpcID region : string) : st_err :=
  with_sdk region (λ vpc, check_each (check_group vpc vpcID region) securityGroupIDs).

Definition validateSSHKeys (sshKeyIDs : list string) (region : string) : st_err :=
  with_sdk region (λ vpc, check_each (check_key vpc region) sshKeyIDs).

(** [vpcClient.GetDefaultSecurityGroup] *)
Definition default_group (vpc : VPCClient) (vpcID : string) : st string :=
  embed (λ R e, OfSDK vpc e) (Client.GetDefaultSecurityGroup (has_sdk vpc) vpcID).

Definition resolveDefaultSecurityGroup (vpcID region : string) : st string :=
  bind (validationVPCClient region) (λ answer,
  match answer with
  | Err e => fail_with (wrapped_ "getting VPC client" e)
  | Ok vpc => default_group vpc vpcID
  end).

(** ** The status *)
Definition set_status (nc : IBMNodeClass) (s : IBMNodeClassStatus) : IBMNodeClass :=
  {| nc_meta := nc_meta nc; Spec := Spec nc; Status := s |}.

Definition with_image (nc : IBMNodeClass) (image : string) : IBMNodeClass :=
  let s := Status nc in
  set_status nc {| LastValidationTime := LastValidationTime s; ValidationError := ValidationError s;
    SelectedInstanceTypes := SelectedInstanceTypes s; SelectedSubnets := SelectedSubnets s;
    ResolvedSecurityGroups := ResolvedSecurityGroups s; ResolvedImageID := image; Conditions := Conditions s |}.

Definition with_groups (nc : IBMNodeClass) (groups : list string) : IBMNodeClass :=
  let s := Status nc in
  set_status nc {| LastValidationTime := LastValidationTime s; ValidationError := ValidationError s;
    SelectedInstanceTypes := SelectedInstanceTypes s; SelectedSubnets := SelectedSubnets s;
    ResolvedSecurityGroups := groups; ResolvedImageID := ResolvedImageID s; Conditions := Conditions s |}.

(** The Ready condition, and the outcome of the validation, at two readings of
    the clock. *)
Definition ready (nc : IBMNodeClass) (status reason message : string) (now : Z) : Condition :=
  {| cond_Type := "Ready"; cond_Status := status; LastTransitionTime := Some now; cond_Reason := reason;
     cond_Message := message; ObservedGeneration := Generation (nc_meta nc) |}.

Definition with_outcome (nc : IBMNodeClass) (error : string) (ready : Condition) (now : Z) : IBMNodeClass :=
  let s := Status nc in
  set_status nc {| LastValidationTime := now; ValidationError := error;
    SelectedInstanceTypes := SelectedInstanceTypes s; SelectedSubnets := SelectedSubnets s;
    ResolvedSecurityGroups := ResolvedSecurityGroups s; ResolvedImageID := ResolvedImageID s;
    Conditions := SetStatusCondition (Conditions s) ready |}.

(** ** The validation

    What is resolved stays in the class when a later check fails. *)
Local Abbreviation validation := (prog status_call (IBMNodeClass * err)).

Definition require (nc : IBMNodeClass) (q : st_err) (prefix : string) (k : validation) : validation :=
  bind q (λ e, match e with Some e => Ret (nc, Some (wrapped_ prefix e)) | None => k end).

(** The checks from the security groups on. *)
Definition validate_access (nc : IBMNodeClass) : validation :=
  let spec := Spec nc in
  let keys (nc : IBMNodeClass) : validation :=
    match SSHKeys spec with
    | [] => Ret (nc, None)
    | keys => require nc (validateSSHKeys keys (Region spec)) "SSH key validation failed" (Ret (nc, None))
    end in
  match SecurityGroups spec with
  | [] =>
      bind (resolveDefaultSecurityGroup (VPC spec) (Region spec)) (λ answer,
      match answer with
      | Err e => Ret (nc, Some (wrapped_ "failed to resolve default security group" e))
      | Ok defaultSGID => keys (with_groups nc [defaultSGID])
      end)
  | groups =>
      require nc (validateSecurityGroups groups (VPC spec) (Region spec)) "security group validation failed"
        (keys (with_groups nc groups))
  end.

Definition validateIBMCloudResources (nc : IBMNodeClass) : validation :=
  let spec := Spec nc in
  if negb (has_ibmClient c) || negb (has_subnetProvider c) then Ret (nc, None)
  else
    require nc (validateRegion (Region spec)) "region validation failed" (
    require nc (validateVPCInRegion (VPC spec) (ResourceGroup spec) (Region spec)) "VPC validation failed" (
    require nc
      (if negb (empty (Subnet spec)) then validateSubnet (Subnet spec) (VPC spec) (Region spec)
       else validateSubnetsAvailable (VPC spec) (Zone spec))
      (if negb (empty (Subnet spec)) then "subnet validation failed" else "subnet availability validation failed") (
    bind (validateImageConfiguration spec) (λ answer,
    match answer with
    | Err e => Ret (nc, Some (wrapped_ "image validation failed" e))
    | Ok image => validate_access (with_image nc image)
    end)))).

Definition validateBusinessLogic (nc : IBMNodeClass) : st_err :=
  let spec := Spec nc in
  bind (if negb (empty (Zone spec)) && negb (empty (Subnet spec))
        then validateZoneSubnetCompatibility (Zone spec) (Subnet spec) else Ret None) (λ e,
  match e with
  | Some e => Ret (Some (wrapped_ "zone-subnet compatibility validation failed" e))
  | None => Ret (wrapped_ "placement strategy validation failed" <$> validatePlacementStrategy (PlacementStrategy_ spec))
  end).

Definition validateNodeClass (nc : IBMNodeClass) : validation :=
  match validateRequiredFields (Spec nc) with
  | Some e => Ret (nc, Some (wrapped_ "field validation failed" e))
  | None =>
      match validateFieldFormats (Spec nc) with
      | Some e => Ret (nc, Some (wrapped_ "format validation failed" e))
      | None =>
          bind (validateIBMCloudResources nc) (λ '(nc, e),
          match e with
          | Some e => Ret (nc, Some (wrapped_ "IBM Cloud resource validation failed" e))
          | None => require nc (validateBusinessLogic nc) "business logic validation failed" (Ret (nc, None))
          end)
      end
  end.

(** ** The loop *)
Definition nodeClassStatusRefreshInterval : Z := 24 * GoTime.Hour.

(** The class from the cache, or from the API when the cache does not have it. *)
Definition read_class (name : string) : st IBMNodeClass :=
  answer ⟵ CacheGetClass name;
  match answer with
  | Ok nc => Ret (Ok nc)
  | Err e => if kube_IsNotFound e && has_apiReader c then call (ReaderGetClass name) else fail_with e
  end.

(** The patch under the optimistic lock. *)
Definition patch_status (stored fresh : IBMNodeClass) : st Result :=
  answer ⟵ PatchStatus stored fresh;
  match answer with
  | Ok _ => Ret (Ok {| RequeueAfter := nodeClassStatusRefreshInterval |})
  | Err e => if kube_IsConflict e then Ret (Ok {| RequeueAfter := GoTime.Millisecond |}) else fail_with e
  end.

Definition status_Reconcile (name : string) : st Result :=
  bind (read_class name) (λ answer,
  match answer with
  | Err e => end_of e
  | Ok stored =>
      bind (validateNodeClass stored) (λ '(nc, e),
      now ⟵ SNow;
      transition ⟵ SNow;
      match e with
      | Some e =>
          patch_status stored (with_outcome nc (GoErrors.Error e) (ready nc "False" "ValidationFailed" (GoErrors.Error e) transition) now)
      | None => patch_status stored (with_outcome nc "" (ready nc "True" "Ready" "NodeClass is ready" transition) now)
      end)
  end).
End controller.

(** ** Theorems *)
Local Open Scope list_scope.
Local Open Scope nat_scope.

Section safety.
Context `{SliceSorter} `{StatusConditions}.
Context (c : controller) (has_sdk : VPCClient → bool) (p : Subnets.provider).

Local Abbreviation tr_t := (history status_call).

Lemma err_of_None {A} (r : result GoErrors.error A) : err_of r = None → ∃ a, r = Ok a.
Proof. destruct r; naive_solver. Qed.

Local Ltac step := step_within.

(** A retry that succeeds made an attempt that did. *)
Lemma retry_ok attempt remaining baseDelay fn (tr : tr_t) :
  within (retry_from attempt remaining baseDelay fn) tr None → remaining = 0 ∨ within fn tr None.
Proof.
  revert attempt. induction remaining as [|n IH]; intros attempt; [by left|]. intros (e & Hfn & Hr)%within_bind. right.
  destruct e as [err|]; [|done]. destruct n as [|n]; [by apply within_ret in Hr|].
  apply within_call in Hr as (random & _ & ([e|] & _ & Hr)%within_call); [by apply within_ret in Hr|].
  by destruct (IH _ Hr).
Qed.

Lemma retried_ok n baseDelay fn (tr : tr_t) : within (retryWithExponentialBackoff (S n) baseDelay fn) tr None → within fn tr None.
Proof. by intros [?|?]%retry_ok. Qed.

(** The region is listed, and its status, if given, is available. *)
Definition region_available (tr : tr_t) (region : string) : Prop :=
  ∃ vpc regions r, asked tr (ListRegions vpc) (Ok (Some (Some regions))) ∧ r ∈ regions ∧
    reg_Name r = Some region ∧ (∀ status, reg_Status r = Some status → status = "available"%string).

Lemma validateRegion_ok region (tr : tr_t) :
  within (validateRegion has_sdk region) tr None → region_available tr region.
Proof.
  unfold validateRegion. intros Hr. repeat step; try done.
  match goal with Hr : region_error _ ?l = None, Ha : asked _ (ListRegions ?v) _ |- _ =>
    exists v, l; unfold region_error in Hr; destruct (List.find _ l) as [r|] eqn:Ef; [|done];
    apply List.find_some in Ef as [Hin%list_elem_of_In Hn%bool_decide_eq_true]; exists r; split_and!; try done
  end.
  intros status Hs. rewrite Hs in *. by destruct (String.eqb_spec status "available").
Qed.

(** A client of the region of the class. *)
Definition client_of (tr : tr_t) (region : string) (vpc : VPCClient) : Prop :=
  ∃ main, asked tr (RegionClient main region) (Ok vpc).

Lemma validation_client_ok region (tr : tr_t) vpc : within (validationVPCClient region) tr (Ok vpc) → client_of tr region vpc.
Proof. unfold validationVPCClient. intros Hr. repeat step. by eexists. Qed.

(** The VPC is read with a client of the region. *)
Definition vpc_found (tr : tr_t) (vpcID resourceGroupID region : string) : Prop :=
  ∃ vpc v, client_of tr region vpc ∧
    ran (λ R e, OfSDK vpc e) (Client.GetVPCWithResourceGroup (has_sdk vpc) (vc_resourceGroupID vpc) vpcID resourceGroupID) tr (Ok v).

Lemma validateVPC_ok vpcID group region (tr : tr_t) :
  within (validateVPCInRegion c has_sdk vpcID group region) tr None → vpc_found tr vpcID group region.
Proof.
  unfold validateVPCInRegion, createRegionVPCClient. intros Hr. repeat step.
  match goal with Hm : _ <$> ?e = None |- _ => destruct e; [done|] end.
  match goal with Hq : within (retryWithExponentialBackoff _ _ _) _ None |- _ => apply retried_ok in Hq; repeat step end.
  match goal with Hq : err_of _ = None |- _ => apply err_of_None in Hq as [v ->] end.
  match goal with Hq : within (get_vpc _ ?vpc _ _) _ _ |- _ => exists vpc, v; split; [by eexists|by apply within_embed] end.
Qed.

(** The subnet of the class as it was read, or a subnet of the VPC that can
    take nodes. *)
Definition subnet_read (tr : tr_t) (subnetID : string) (s : SubnetInfo) : Prop :=
  ran (λ R e, OfSubnets e) (Subnets.GetSubnet_ p subnetID) tr (Ok s).
Definition subnet_usable (tr : tr_t) (spec : IBMNodeClassSpec) : Prop :=
  if negb (empty (Subnet spec)) then
    ∃ s, subnet_read tr (Subnet spec) s ∧ ExtractRegionFromZone (sub_Zone s) = Region spec ∧
      sub_State s = "available"%string ∧ (10 ≤ AvailableIPs s)%Z
  else
    ∃ subnets s, ran (λ R e, OfSubnets e) (Subnets.ListSubnets_ p (VPC spec)) tr (Ok subnets) ∧ s ∈ subnets ∧
      sub_State s = "available"%string ∧ (10 < AvailableIPs s)%Z ∧ (Zone spec ≠ "" → sub_Zone s = Zone spec)%string.

Lemma subnet_error_None subnetID region s : subnet_error subnetID region s = None →
  ExtractRegionFromZone (sub_Zone s) = region ∧ sub_State s = "available"%string ∧ (10 ≤ AvailableIPs s)%Z.
Proof.
  unfold subnet_error. destruct (String.eqb_spec (ExtractRegionFromZone (sub_Zone s)) region); [|done].
  destruct (String.eqb_spec (sub_State s) "available"); [|done]. cbn [negb].
  destruct (Z.ltb_spec (AvailableIPs s) 10); [done|]. intros _. by split_and!.
Qed.

Lemma validate_subnets_ok spec (tr : tr_t) :
  within (if negb (empty (Subnet spec)) then validateSubnet p (Subnet spec) (VPC spec) (Region spec)
          else validateSubnetsAvailable p (VPC spec) (Zone spec)) tr None → subnet_usable tr spec.
Proof.
  unfold subnet_usable, validateSubnet, validateSubnetsAvailable.
  destruct (negb (empty (Subnet spec))); intros Hr; repeat step.
  - match goal with Hs : within (get_subnet _ _) _ (Ok ?s), He : subnet_error _ _ _ = None |- _ =>
      exists s; split; [by apply within_embed|by apply (subnet_error_None (Subnet spec))] end.
  - match goal with Hs : within (list_subnets _ _) _ (Ok ?l), He : existsb _ _ = true |- _ =>
      apply existsb_exists in He as (s & Hin%list_elem_of_In & Hu); exists l, s; split; [by apply within_embed|] end.
    unfold usable_subnet in *. apply andb_true_iff in Hu as [[Hst Hip]%andb_true_iff Hz].
    apply String.eqb_eq in Hst. apply Z.ltb_lt in Hip. split_and!; try done. intros Hne.
    apply orb_true_iff in Hz as [Hz%String.eqb_eq|Hz%String.eqb_eq]; [done|done].
Qed.

(** The image that the resolver gave, with a client of the region. *)
Definition image_resolved (tr : tr_t) (spec : IBMNodeClassSpec) (image : string) : Prop :=
  ∃ vpc, client_of tr (Region spec) vpc ∧
  ((Image spec ≠ "" ∧ ran (λ R e, OfImages vpc e) (Images.ResolveImage_ (Image spec)) tr (Ok image)) ∨
   (Image spec = "" ∧ ∃ selector, ImageSelector_ spec = Some selector ∧
     ran (λ R e, OfImages vpc e) (Images.ResolveImageBySelector (Some selector)) tr (Ok image)))%string.

Lemma validateImage_ok spec (tr : tr_t) image :
  within (validateImageConfiguration spec) tr (Ok image) → image_resolved tr spec image.
Proof.
  unfold validateImageConfiguration. intros (answer & Hc & Hr)%within_bind. destruct answer as [vpc|e]; [|by apply within_ret in Hr].
  apply validation_client_ok in Hc. exists vpc. split; [done|]. unfold empty in Hr.
  destruct (String.eqb_spec (Image spec) "") as [E|E]; cbn [negb] in Hr; repeat step.
  - right. split; [done|]. match goal with Hs : within (resolve_selector _ _) _ (Ok ?i), Hi : Ok ?i = Ok _ |- _ =>
      injection Hi as <-; eexists; split; [done|by apply within_embed] end.
  - left. split; [done|]. match goal with Hs : within (resolve_image _ _) _ (Ok ?i), Hi : Ok ?i = Ok _ |- _ =>
      injection Hi as <-; by apply within_embed end.
Qed.

(** The loop visits every entry that is not blank. *)
Lemma check_each_ok check ids (tr : tr_t) :
  within (check_each check ids) tr None → ∀ id, id ∈ ids → blank id = false → within (check (TrimSpace id)) tr None.
Proof.
  induction ids as [|i ids IH]; intros Hr id; [by intros ?%elem_of_nil|]. cbn [check_each] in Hr.
  destruct (blank i) eqn:Eb.
  - intros [->|Hin]%elem_of_cons Hb; [congruence|by apply IH].
  - apply within_bind in Hr as ([e|] & Hc & Hr); [by apply within_ret in Hr|].
    intros [->|Hin]%elem_of_cons Hb; [done|by apply IH].
Qed.

Definition group_found (tr : tr_t) (vpcID region id : string) : Prop :=
  ∃ vpc sgVPC, client_of tr region vpc ∧ asked tr (GetSecurityGroup vpc (TrimSpace id)) (Ok sgVPC) ∧
    (∀ v, sgVPC = Some v → v = vpcID).
Definition key_found (tr : tr_t) (region id : string) : Prop :=
  ∃ vpc, client_of tr region vpc ∧ asked tr (GetKey vpc (TrimSpace id)) None.

Lemma with_sdk_ok region k (tr : tr_t) : has_manager c = true → within (with_sdk c has_sdk region k) tr None →
  ∃ vpc, client_of tr region vpc ∧ within (k vpc) tr None.
Proof.
  intros Hm. unfold with_sdk. rewrite Hm. cbn [negb]. intros (answer & Hc & Hr)%within_bind.
  destruct answer as [vpc|e]; [|by apply within_ret in Hr]. apply validation_client_ok in Hc.
  destruct (negb (has_sdk vpc)); [by apply within_ret in Hr|]. by exists vpc.
Qed.

Lemma validateSecurityGroups_ok ids vpcID region (tr : tr_t) : has_manager c = true →
  within (validateSecurityGroups c has_sdk ids vpcID region) tr None →
  ∀ id, id ∈ ids → blank id = false → group_found tr vpcID region id.
Proof.
  intros Hm (vpc & Hc & Hr)%with_sdk_ok id Hin Hb; [|done]. apply (check_each_ok _ _ _ Hr id Hin) in Hb. clear Hr.
  unfold check_group in Hb. repeat step; eexists vpc, _; (split_and!; [done|done|]); [|done].
  intros v [= ->]. match goal with E : negb (String.eqb ?a ?b) = false |- _ => by apply negb_false_iff, String.eqb_eq in E end.
Qed.

Lemma validateSSHKeys_ok ids region (tr : tr_t) : has_manager c = true →
  within (validateSSHKeys c has_sdk ids region) tr None →
  ∀ id, id ∈ ids → blank id = false → key_found tr region id.
Proof.
  intros Hm (vpc & Hc & Hr)%with_sdk_ok id Hin Hb; [|done]. apply (check_each_ok _ _ _ Hr id Hin) in Hb. clear Hr.
  unfold check_key in Hb. apply within_bind in Hb as ([e|] & Hb & Hr); [by apply within_ret in Hr|].
  apply retried_ok in Hb. repeat step. by exists vpc.
Qed.

(** The groups of the class, all of which were found, or the default group of
    its VPC. *)
Definition groups_resolved (tr : tr_t) (spec : IBMNodeClassSpec) (groups : list string) : Prop :=
  match SecurityGroups spec with
  | [] => ∃ vpc id, client_of tr (Region spec) vpc ∧ groups = [id] ∧
      ran (λ R e, OfSDK vpc e) (Client.GetDefaultSecurityGroup (has_sdk vpc) (VPC spec)) tr (Ok id)
  | ids => groups = ids ∧ ∀ id, id ∈ ids → blank id = false → group_found tr (VPC spec) (Region spec) id
  end.

(** The subnet is in the zone, by the cache or as it was read, and then
    available. *)
Definition zone_matches (tr : tr_t) (zone subnetID : string) : Prop :=
  asked tr (ZoneCacheGet (zone_key subnetID)) (Some zone) ∨
  ∃ s, subnet_read tr subnetID s ∧ sub_Zone s = zone ∧ sub_State s = "available"%string.

(** What a run shows of a class that it declares ready. *)
Record validated (tr : tr_t) (spec : IBMNodeClassSpec) (image : string) (groups : list string) : Prop := {
  v_fields : missing_fields spec = [];
  v_formats : validateFieldFormats spec = None;
  v_region : region_available tr (Region spec);
  v_vpc : vpc_found tr (VPC spec) (ResourceGroup spec) (Region spec);
  v_subnet : subnet_usable tr spec;
  v_image : image_resolved tr spec image;
  v_groups : groups_resolved tr spec groups;
  v_keys : ∀ id, id ∈ SSHKeys spec → blank id = false → key_found tr (Region spec) id;
  v_zone : Zone spec ≠ ""%string → Subnet spec ≠ ""%string → zone_matches tr (Zone spec) (Subnet spec);
  v_strategy : validatePlacementStrategy (PlacementStrategy_ spec) = None;
}.

Lemma require_ok nc q prefix k nc' (tr : tr_t) :
  within (require nc q prefix k) tr (nc', None) → within q tr None ∧ within k tr (nc', None).
Proof. intros ([e|] & Hq & Hk)%within_bind; [by apply within_ret in Hk|done]. Qed.

Lemma keys_ok nc (spec : IBMNodeClassSpec) nc' (tr : tr_t) : has_manager c = true →
  within (match SSHKeys spec with
    | [] => Ret (nc, None)
    | keys => require nc (validateSSHKeys c has_sdk keys (Region spec)) "SSH key validation failed" (Ret (nc, None))
    end) tr (nc', None) →
  nc' = nc ∧ ∀ id, id ∈ SSHKeys spec → blank id = false → key_found tr (Region spec) id.
Proof.
  intros Hm. destruct (SSHKeys spec) as [|k ks].
  - intros [= <-]%within_ret. split; [done|]. by intros id ?%elem_of_nil.
  - intros [Hq [= <-]%within_ret]%require_ok. split; [done|]. by apply validateSSHKeys_ok.
Qed.

Lemma validate_access_ok nc nc' (tr : tr_t) : has_manager c = true →
  within (validate_access c has_sdk nc) tr (nc', None) → ∃ groups, nc' = with_groups nc groups ∧
    groups_resolved tr (Spec nc) groups ∧ ∀ id, id ∈ SSHKeys (Spec nc) → blank id = false → key_found tr (Region (Spec nc)) id.
Proof.
  intros Hm. unfold validate_access, groups_resolved. destruct (SecurityGroups (Spec nc)) as [|g gs].
  - intros ([id|e] & Hd & Hr)%within_bind; [|by apply within_ret in Hr].
    apply keys_ok in Hr as [-> Hk]; [|done]. exists [id]. split; [done|]. split; [|done].
    unfold resolveDefaultSecurityGroup in Hd. apply within_bind in Hd as ([vpc|e] & Hc & Hd); [|by apply within_ret in Hd].
    exists vpc, id. split_and!; [by apply validation_client_ok|done|by apply within_embed].
  - intros [Hg [-> Hk]%keys_ok]%require_ok; [|done]. exists (g :: gs). split_and!; try done.
    by apply validateSecurityGroups_ok.
Qed.

Lemma zone_ok zone subnetID (tr : tr_t) : has_subnetProvider c = true →
  within (validateZoneSubnetCompatibility c p zone subnetID) tr None → zone_matches tr zone subnetID.
Proof.
  intros Hs. unfold validateZoneSubnetCompatibility. rewrite Hs. cbn [negb]. intros Hr. repeat step; [left|right].
  - match goal with E : negb (String.eqb ?a ?b) = false |- _ => apply negb_false_iff, String.eqb_eq in E; by subst end.
  - match goal with Hq : within (get_subnet _ _) _ (Ok ?s) |- _ => exists s; split; [by apply within_embed|] end.
    repeat match goal with E : negb (String.eqb ?a ?b) = false |- _ => apply negb_false_iff, String.eqb_eq in E end. done.
Qed.

Lemma missing_None spec : validateRequiredFields spec = None → missing_fields spec = [].
Proof. unfold validateRequiredFields. by destruct (missing_fields spec). Qed.

Lemma validate_ok nc nc' (tr : tr_t) :
  has_ibmClient c = true → has_subnetProvider c = true → has_manager c = true →
  within (validateNodeClass c has_sdk p nc) tr (nc', None) → ∃ image groups,
    nc' = with_groups (with_image nc image) groups ∧ validated tr (Spec nc) image groups.
Proof.
  intros Hi Hs Hm. unfold validateNodeClass.
  destruct (validateRequiredFields _) eqn:Ef; [by intros Hr%within_ret|].
  destruct (validateFieldFormats _) eqn:Eo; [by intros Hr%within_ret|].
  intros ([nc1 [e|]] & Hr & Hb)%within_bind; [by apply within_ret in Hb|].
  apply require_ok in Hb as [Hb [= <-]%within_ret].
  unfold validateIBMCloudResources in Hr. rewrite Hi, Hs in Hr. cbn [negb orb] in Hr.
  apply require_ok in Hr as [Hregion Hr]. apply require_ok in Hr as [Hvpc Hr]. apply require_ok in Hr as [Hsub Hr].
  apply within_bind in Hr as ([image|e] & Himage & Hr); [|by apply within_ret in Hr].
  apply validate_access_ok in Hr as (groups & -> & Hg & Hk); [|done]. exists image, groups. split; [done|].
  unfold validateBusinessLogic in Hb. apply within_bind in Hb as ([e|] & Hz & Hb); [by apply within_ret in Hb|].
  split; try done.
  - by apply missing_None.
  - by apply validateRegion_ok.
  - by apply validateVPC_ok.
  - by apply validate_subnets_ok.
  - by apply validateImage_ok.
  - intros Hz1%String.eqb_neq Hz2%String.eqb_neq. change (Spec (with_groups (with_image nc image) groups)) with (Spec nc) in Hz.
    unfold empty in Hz. rewrite Hz1, Hz2 in Hz. by apply zone_ok.
  - apply within_ret in Hb. change (Spec (with_groups (with_image nc image) groups)) with (Spec nc) in Hb.
    by destruct (validatePlacementStrategy _).
Qed.

(** The validation touches only the two resolved fields. *)
Definition only_resolved (nc nc' : IBMNodeClass) : Prop :=
  nc_meta nc' = nc_meta nc ∧ Spec nc' = Spec nc ∧ Conditions (Status nc') = Conditions (Status nc).

Lemma require_same nc0 nc q prefix k nc' e (tr : tr_t) : only_resolved nc0 nc →
  (∀ nc' e, within k tr (nc', e) → only_resolved nc0 nc') →
  within (require nc q prefix k) tr (nc', e) → only_resolved nc0 nc'.
Proof. intros Hnc Hk ([x|] & Hq & Hr)%within_bind; [by injection (within_ret _ _ _ Hr) as <- _|by eapply Hk]. Qed.

Lemma validate_access_same nc0 nc nc' e (tr : tr_t) : only_resolved nc0 nc →
  within (validate_access c has_sdk nc) tr (nc', e) → only_resolved nc0 nc'.
Proof.
  intros Hnc. unfold validate_access.
  assert (Hkeys : ∀ nc nc' e, only_resolved nc0 nc → within (match SSHKeys (Spec nc0) with
    | [] => Ret (nc, None)
    | keys => require nc (validateSSHKeys c has_sdk keys (Region (Spec nc0))) "SSH key validation failed" (Ret (nc, None))
    end) tr (nc', e) → only_resolved nc0 nc').
  { intros nc1 nc2 e1 H1. destruct (SSHKeys (Spec nc0)); [by intros [= <- _]%within_ret|].
    apply require_same; [done|]. by intros nc3 e3 [= <- _]%within_ret. }
  rewrite (proj1 (proj2 Hnc)). destruct (SecurityGroups (Spec nc0)) as [|g gs].
  - intros ([id|x] & _ & Hr)%within_bind; [|by injection (within_ret _ _ _ Hr) as <- _]. eapply Hkeys, Hr. done.
  - apply require_same; [done|]. intros nc1 e1. by apply Hkeys.
Qed.

Lemma validate_same nc nc' e (tr : tr_t) :
  within (validateNodeClass c has_sdk p nc) tr (nc', e) → only_resolved nc nc'.
Proof.
  assert (Hnc : only_resolved nc nc) by done. unfold validateNodeClass.
  destruct (validateRequiredFields _); [by intros [= <- _]%within_ret|].
  destruct (validateFieldFormats _); [by intros [= <- _]%within_ret|].
  intros ([nc1 x] & Hr & Hb)%within_bind.
  assert (Hnc1 : only_resolved nc nc1).
  { revert Hr. unfold validateIBMCloudResources. destruct (_ || _); [by intros [= <- _]%within_ret|].
    apply require_same; [done|]. intros ? ?. apply require_same; [done|]. intros ? ?. apply require_same; [done|].
    intros ? ? ([image|y] & _ & Hi)%within_bind; [by eapply validate_access_same; [|exact Hi]|].
    by injection (within_ret _ _ _ Hi) as <- _. }
  destruct x as [x|]; [by injection (within_ret _ _ _ Hb) as <- _|].
  revert Hb. apply require_same; [done|]. by intros ? ? [= <- _]%within_ret.
Qed.

(** ** The loop *)
Definition no_patch (R : Type) (e : status_call R) : bool := match e with PatchStatus _ _ => false | _ => true end.

Lemma only_embedded {F : Type → Type} {A} (f : ∀ R, F R → status_call R) (q : prog F A) :
  (∀ R e, no_patch R (f R e) = true) → only no_patch (embed f q).
Proof. intros Hf. induction q as [x|R e k IH]; cbn; [done|]. split; [apply Hf|done]. Qed.

Lemma retry_quiet attempt n baseDelay fn : only no_patch fn → only no_patch (retry_from attempt n baseDelay fn).
Proof.
  intros Hf. revert attempt. induction n as [|n IH]; intros attempt; cbn [retry_from]; [done|].
  apply only_bind; [done|]. intros [e|]; [|done]. destruct n as [|n]; [done|].
  split; [done|]. intros random. split; [done|]. intros [x|]; [done|apply IH].
Qed.

Lemma each_quiet check ids : (∀ id, only no_patch (check id)) → only no_patch (check_each check ids).
Proof.
  intros Hf. induction ids as [|id ids IH]; cbn [check_each]; [done|]. destruct (blank id); [done|].
  apply only_bind; [done|]. by intros [e|].
Qed.

Lemma validate_quiet nc : only no_patch (validateNodeClass c has_sdk p nc).
Proof.
  unfold validateNodeClass, validateIBMCloudResources, validateBusinessLogic, validate_access, require.
  unfold validateRegion, validateVPCInRegion, createRegionVPCClient, validateSubnet, validateSubnetsAvailable.
  unfold validateZoneSubnetCompatibility, validateImageConfiguration, validateSecurityGroups, validateSSHKeys, with_sdk.
  unfold resolveDefaultSecurityGroup, validationVPCClient.
  unfold get_subnet, list_subnets, resolve_image, resolve_selector, default_group.
  solve_quiet; first [by apply only_embedded|apply each_quiet; intros id; unfold check_group, check_key; solve_quiet|idtac].
  all: apply retry_quiet; unfold get_vpc; solve_quiet; by apply only_embedded.
Qed.

Definition class_read (name : string) (h : tr_t) (stored : IBMNodeClass) : Prop :=
  asked h (CacheGetClass name) (Ok stored) ∨ asked h (ReaderGetClass name) (Ok stored).

(** The class declares its generation ready, or not. *)
Definition declares (nc : IBMNodeClass) (status : string) : Prop :=
  ∃ cond, condition_of (Conditions (Status nc)) "Ready" = Some cond ∧ cond_Status cond = status ∧
    ObservedGeneration cond = Generation (nc_meta nc).

(** What the trace of a validation lets the status say. *)
Definition earned (tr : tr_t) (stored fresh : IBMNodeClass) : Prop :=
  (declares fresh "True" ∧ ValidationError (Status fresh) = ""%string ∧
   validated tr (Spec stored) (ResolvedImageID (Status fresh)) (ResolvedSecurityGroups (Status fresh))) ∨
  (declares fresh "False" ∧ ∃ nc e, runs (validateNodeClass c has_sdk p stored) tr (nc, Some e) ∧
   ValidationError (Status fresh) = GoErrors.Error e).

Definition status_guard (name : string) : guard (E := status_call) := λ h R e,
  match e with
  | PatchStatus stored fresh =>
      class_read name h stored ∧ nc_meta fresh = nc_meta stored ∧ Spec fresh = Spec stored ∧
      (∀ type, type ≠ "Ready"%string →
         condition_of (Conditions (Status fresh)) type = condition_of (Conditions (Status stored)) type) ∧
      ∃ l1 tr l2, h = l1 ++ reverse tr ++ l2 ∧ earned tr stored fresh
  | _ => True
  end.

(** A run without an error: the class is gone, or its status was written. *)
Definition settled (name : string) (h : tr_t) (r : result GoErrors.error Result) : Prop :=
  match r with
  | Err _ => True
  | Ok _ =>
      (∃ e, (asked h (CacheGetClass name) (Err e) ∨ asked h (ReaderGetClass name) (Err e)) ∧ kube_IsNotFound e = true) ∨
      ∃ stored fresh answer h', h = Did (PatchStatus stored fresh) answer :: h'
  end.

Lemma with_outcome_declares nc error status reason message t1 t2 :
  let fresh := with_outcome nc error (ready nc status reason message t1) t2 in
  declares fresh status ∧ ∀ type, type ≠ "Ready"%string →
    condition_of (Conditions (Status fresh)) type = condition_of (Conditions (Status nc)) type.
Proof.
  cbn. split.
  - destruct (SetStatusCondition_same (Conditions (Status nc)) (ready nc status reason message t1)) as (cond & Hc & Hs & _ & _ & Hg).
    exists cond. by split_and!.
  - intros type Ht. by apply SetStatusCondition_other.
Qed.

Lemma read_class_wp name : wp (status_guard name) (read_class c name) [] (λ h r,
  match r with
  | Ok stored => class_read name h stored
  | Err e => asked h (CacheGetClass name) (Err e) ∨ asked h (ReaderGetClass name) (Err e)
  end).
Proof.
  unfold read_class. split; [done|]. intros [nc|e]; [left; apply asked_here|].
  destruct (kube_IsNotFound e && has_apiReader c); [|left; apply asked_here].
  split; [done|]. intros [nc|e']; right; apply asked_here.
Qed.

Lemma class_read_app name l h stored : class_read name h stored → class_read name (l ++ h) stored.
Proof. intros [H1|H1]; [left|right]; by apply asked_app. Qed.

Context (Hi : has_ibmClient c = true) (Hs : has_subnetProvider c = true) (Hm : has_manager c = true).

(** The two readings of the clock and the patch. *)
Lemma report_wp name h l stored nc e :
  class_read name (l ++ h) stored → runs (validateNodeClass c has_sdk p stored) (reverse l) (nc, e) →
  wp (status_guard name)
    (now ⟵ SNow; transition ⟵ SNow;
     match e with
     | Some e =>
         patch_status stored (with_outcome nc (GoErrors.Error e) (ready nc "False" "ValidationFailed" (GoErrors.Error e) transition) now)
     | None => patch_status stored (with_outcome nc "" (ready nc "True" "Ready" "NodeClass is ready" transition) now)
     end) (l ++ h) (λ h' r, settled name h' r).
Proof.
  intros Hread Hrun. split; [done|]. intros now. split; [done|]. intros transition.
  destruct (validate_same stored nc e _ (runs_within _ _ _ Hrun)) as (Hmeta & Hspec & Hconds).
  assert (Hpatch : ∀ fresh, status_guard name (Did SNow transition :: Did SNow now :: l ++ h) _ (PatchStatus stored fresh) →
    wp (status_guard name) (patch_status stored fresh) (Did SNow transition :: Did SNow now :: l ++ h) (λ h' r, settled name h' r)).
  { intros fresh Hg. split; [done|].
    intros [nc'|x]; [right; by eexists _, _, _, _|]. destruct (kube_IsConflict x); [right; by eexists _, _, _, _|done]. }
  assert (Hh : ∃ l1 l2, Did SNow transition :: Did SNow now :: l ++ h = l1 ++ reverse (reverse l) ++ l2).
  { exists [Did SNow transition; Did SNow now], h. by rewrite reverse_involutive. }
  destruct Hh as (l1 & l2 & Hh).
  destruct e as [e|]; apply Hpatch; (split_and!; [by apply (class_read_app _ [_; _])|done|done|..]).
  - intros type Ht. rewrite <-Hconds. by apply with_outcome_declares.
  - exists l1, (reverse l), l2. split; [done|]. right. split; [by apply with_outcome_declares|]. by exists nc, e.
  - intros type Ht. rewrite <-Hconds. by apply with_outcome_declares.
  - exists l1, (reverse l), l2. split; [done|]. left. split; [by apply with_outcome_declares|]. split; [done|].
    destruct (validate_ok stored nc (reverse l) Hi Hs Hm (runs_within _ _ _ Hrun)) as (image & groups & -> & Hv). done.
Qed.

Lemma status_wp name : wp (status_guard name) (status_Reconcile c has_sdk p name) [] (λ h r, settled name h r).
Proof.
  unfold status_Reconcile. apply wp_bind. eapply wp_mono; [|apply read_class_wp]. intros h [stored|e] Hread.
  - apply wp_bind. eapply wp_mono; [|apply (wp_runs no_patch); [|apply validate_quiet]].
    + intros h' [nc e] (l & -> & Hrun). apply report_wp; [by apply class_read_app|done].
    + intros h' R [] Hp; done.
  - apply end_of_wp; [done|]. intros Hn. left. by exists e.
Qed.

(** C18. The status controller declares a NodeClass ready only when, in this run
    and for the very specification it read: the fields are there and well formed;
    the region is listed and available; the VPC was read with a client of the
    region; the subnet was read available, in the region, with ten addresses, or
    the VPC has such a subnet in the zone; the image it stores is the one the
    resolver gave; the groups it stores are those of the class, each found and of
    the VPC, or the VPC's default; every key was found; the subnet is in the zone;
    and the placement strategy is a known one.  Otherwise it declares the class
    not ready, with the error of the validation.  It writes nothing else of the
    class, and a run without error has written the status or found no class. *)
Theorem ready_is_validated name tr r (Hrun : runs (status_Reconcile c has_sdk p name) tr r) :
  (∀ before R (e : status_call R) answer after,
     tr = before ++ Did e answer :: after → status_guard name (reverse before) R e) ∧
  settled name (reverse tr) r.
Proof. apply (guarded_run _ _ _ _ _ (status_wp name) Hrun). Qed.
End safety.

(** ** The theorem at concrete runs *)

(** The condition in place of the one of its type, which keeps its time when
    the status stays. *)
Definition updated_condition (old new : Condition) : Condition :=
  {| cond_Type := cond_Type new; cond_Status := cond_Status new;
     LastTransitionTime := if String.eqb (cond_Status old) (cond_Status new) then LastTransitionTime old else LastTransitionTime new;
     cond_Reason := cond_Reason new; cond_Message := cond_Message new; ObservedGeneration := ObservedGeneration new |}.
Fixpoint set_condition (l : list Condition) (new : Condition) : list Condition :=
  match l with
  | [] => [new]
  | old :: l' => if String.eqb (cond_Type old) (cond_Type new) then updated_condition old new :: l' else old :: set_condition l' new
  end.

#[refine] Instance conditions_in_place : StatusConditions := {| SetStatusCondition := set_condition |}.
Proof.
  - intros l new. induction l as [|old l (cond & Hc & Hrest)]; cbn.
    + exists new. by rewrite String.eqb_refl.
    + destruct (String.eqb_spec (cond_Type old) (cond_Type new)) as [E|E]; cbn.
      * exists (updated_condition old new). by rewrite String.eqb_refl.
      * exists cond. split; [|done]. destruct (String.eqb_spec (cond_Type old) (cond_Type new)); [done|exact Hc].
  - intros l new type Ht. induction l as [|old l IH]; cbn.
    + destruct (String.eqb_spec (cond_Type new) type); [congruence|done].
    + destruct (String.eqb_spec (cond_Type old) (cond_Type new)) as [E|E]; cbn.
      * rewrite E. destruct (String.eqb_spec (cond_Type new) type); [congruence|done].
      * destruct (String.eqb (cond_Type old) type); [done|exact IH].
Defined.

Definition status_class : IBMNodeClass :=
  {| nc_meta := {| Name := "default"; UID := "u"; ResourceVersion := "1"; Generation := 7; DeletionTimestamp := None;
       CreationTimestamp := 0; Labels := ∅; Annotations := ∅; Finalizers := [] |};
     Spec := {| Region := "us-south"; Zone := "us-south-1"; InstanceProfile := ""; InstanceRequirements := None; Image := "ubuntu";
       ImageSelector_ := None; VPC := "r006-vpc-000001"; Subnet := "0717-subnet-01"; PlacementStrategy_ := None;
       SecurityGroups := ["group-1"]; UserData := ""; UserDataAppend := ""; SSHKeys := [" key-1"]; ResourceGroup := "";
       PlacementTarget := ""; Tags := ∅; BootstrapMode := None; APIServerEndpoint := ""; IKSClusterID := ""; IKSWorkerPoolID := "";
       IKSDynamicPools := None; LoadBalancerIntegration_ := None; BlockDeviceMappings := []; Kubelet := None |};
     Status := empty_status |}%string.

Definition status_client : VPCClient :=
  {| baseURL := "https://us-south.iaas.cloud.ibm.com/v1"; authType := "iam"; apiKey := "key"; vc_region := "us-south";
     vc_resourceGroupID := "" |}%string.

(** Everything is there; the VPC does not answer at once, and the group is of
    the VPC [groupVPC]. *)
Definition status_serve (groupVPC : string) (R : Type) (e : status_call R) (n : nat) : R * nat :=
  match e in status_call R return R * nat with
  | CacheGetClass _ | ReaderGetClass _ => (Ok status_class, n)
  | PatchStatus _ fresh => (Ok fresh, n)
  | ManagerClient | IBMClient | RegionClient _ _ => (Ok status_client, n)
  | ListRegions _ => (Ok (Some (Some [{| reg_Name := Some "eu-de"; reg_Status := None |};
                                      {| reg_Name := Some "us-south"; reg_Status := Some "available" |}]))%string, n)
  | GetSecurityGroup _ _ => (Ok (Some groupVPC), n)
  | GetKey _ _ => (None, n)
  | OfSDK _ e =>
      match e in Client.sdk_call R return R * nat with
      | Client.SdkGetVPC _ _ =>
          (if Nat.eqb n 0 then Err (GoErrors.New "timeout") else Ok {| Client.vpc_Name := Some "vpc"; Client.vpc_DefaultSecurityGroup := Some "group-0" |}, S n)
      | e => ((ClientSpec.sdk_serve _ e tt).1, n)
      end%string
  | OfImages _ e => ((Images.example_env [Images.example_image "image-1" "ubuntu" "available" 1] _ e tt).1, n)%string
  | OfSubnets e =>
      match e in Subnets.subnet_call R return R * nat with
      | Subnets.VPCGetSubnet id => (Ok (Subnets.example_subnet id "us-south-1" 256 100), n)
      | e => ((Subnets.example_env _ e tt).1, n)
      end%string
  | ZoneCacheGet _ => (None, n)
  | ZoneCacheSet _ _ _ => (tt, n)
  | RandFloat64 => (Float.zero, n)
  | Sleep _ => (None, n)
  | SNow => (5%Z, n)
  end.

Definition status_controller : controller :=
  {| has_apiReader := true; has_ibmClient := true; has_subnetProvider := true; has_manager := true |}.

Definition status_run (groupVPC : string) :=
  interp (status_serve groupVPC)
    (status_Reconcile status_controller (λ _, true) {| Subnets.s_client := true; Subnets.s_kubeClient := true |} "default") 0.

(** The conditions, the image and the groups that a run wrote, and the error. *)
Definition written (tr : history status_call) : list (list (string * string) * string * list string * string) :=
  omap (λ ev, match ev with
    | Did e _ => match e with
      | PatchStatus _ fresh =>
          let s := Status fresh in
          Some (map (λ cond, (cond_Type cond, cond_Status cond)) (Conditions s), ResolvedImageID s, ResolvedSecurityGroups s, ValidationError s)
      | _ => None
      end end) tr.

Lemma ready_is_validated_witness :
  written (status_run "r006-vpc-000001").1.1 = [([("Ready", "True")], "image-1", ["group-1"], "")]%string ∧
  written (status_run "r006-other").1.1 =
    [([("Ready", "False")], "image-1", [],
      "IBM Cloud resource validation failed: security group validation failed: security group group-1 belongs to VPC r006-other but NodeClass specifies VPC r006-vpc-000001. Security groups must be in the same VPC as instances")]%string ∧
  (∀ before R (e : status_call R) answer after, (status_run "r006-vpc-000001").1.1 = before ++ Did e answer :: after →
     status_guard status_controller (λ _, true) {| Subnets.s_client := true; Subnets.s_kubeClient := true |} "default" (reverse before) R e).
Proof.
  split; [vm_compute; reflexivity|]. split; [vm_compute; reflexivity|].
  exact (proj1 (ready_is_validated status_controller (λ _, true) {| Subnets.s_client := true; Subnets.s_kubeClient := true |}
    eq_refl eq_refl eq_refl "default" _ _
    (interp_runs (status_serve "r006-vpc-000001") (status_Reconcile status_controller (λ _, true)
       {| Subnets.s_client := true; Subnets.s_kubeClient := true |} "default") 0))).
Defined.
