(* ===== verification/AutoPlacement.v ===== *)
(** * AutoPlacement: the selection of instance types and subnets

    [pkg/controllers/nodeclass/autoplacement/controller.go]: what a NodeClass
    with instance requirements or a placement strategy selects, written to its
    status.  The selections are those of InstanceTypes and Subnets, whose
    programs are embedded in the calls here. *)
From stdpp Require Import prelude list strings gmap.
From S2P Require Import Prelude GoLib GoSort Errors NodeClass ProviderIDs Prog Kube GoWait VpcApi ControllerApi.
From S2P Require Import InstanceTypes.
From S2P Require Subnets NodeClassStatus InstanceTypesSpec.
Import Strings.

Open Scope string_scope.
Open Scope nat_scope.
Local Open Scope prog_scope.

Inductive placement_call : Type → Type :=
  | PGetClass (name : string) : placement_call (result GoErrors.error IBMNodeClass)
  (* under the optimistic lock; the class as the server answers *)
  | PPatchStatus (stored fresh : IBMNodeClass) : placement_call (result GoErrors.error IBMNodeClass)
  | OfTypes {R : Type} (e : it_call R) : placement_call R
  | OfSubnets {R : Type} (e : Subnets.subnet_call R) : placement_call R
  | PNow : placement_call Z.

Definition of_types (R : Type) (e : it_call R) : placement_call R := OfTypes e.
Definition of_subnets (R : Type) (e : Subnets.subnet_call R) : placement_call R := OfSubnets e.

(** ** The status *)
Definition ConditionTypeAutoPlacement : string := "AutoPlacement".

Definition with_status (nc : IBMNodeClass) (types subnets : list string) (conditions : list Condition) : IBMNodeClass :=
  let s := Status nc in
  NodeClassStatus.set_status nc
    {| LastValidationTime := LastValidationTime s; ValidationError := ValidationError s;
       SelectedInstanceTypes := types; SelectedSubnets := subnets;
       ResolvedSecurityGroups := ResolvedSecurityGroups s; ResolvedImageID := ResolvedImageID s; Conditions := conditions |}.

(** The first condition of the type is replaced when its status differs. *)
Fixpoint update_conditions (l : list Condition) (new : Condition) : list Condition :=
  match l with
  | [] => [new]
  | old :: l' =>
      if String.eqb (cond_Type old) (cond_Type new)
      then (if negb (String.eqb (cond_Status old) (cond_Status new)) then new else old) :: l'
      else old :: update_conditions l' new
  end.

Definition auto_placement (nc : IBMNodeClass) (status reason message : string) (now : Z) : Condition :=
  {| cond_Type := ConditionTypeAutoPlacement; cond_Status := status; LastTransitionTime := Some now; cond_Reason := reason;
     cond_Message := message; ObservedGeneration := Generation (nc_meta nc) |}.

Definition updateCondition (nc : IBMNodeClass) (status reason message : string) (now : Z) : IBMNodeClass :=
  with_status nc (SelectedInstanceTypes (Status nc)) (SelectedSubnets (Status nc))
    (update_conditions (Conditions (Status nc)) (auto_placement nc status reason message now)).

Section controller.
Context `{SliceSorter, MapRange, Karpenter, Quantities} `{!ExponentialBackoff it_call}.
Context (types : InstanceTypes.provider) (subnets : Subnets.provider).

(** A part of the handler: the class it goes on with, or what it returns. *)
Local Abbreviation stage := (prog placement_call (IBMNodeClass + result GoErrors.error Result)).

(** The patch, and how a failed one ends. *)
Definition patch_selection (stored fresh : IBMNodeClass) (what : string) (k : IBMNodeClass → stage) : stage :=
  answer ⟵ PPatchStatus stored fresh;
  match answer with
  | Ok nc => k nc
  | Err e =>
      if kube_IsConflict e then Ret (inr (Ok {| RequeueAfter := GoTime.Millisecond |}))
      else Ret (inr (Err (wrapped_ what e)))
  end.

Definition selection_failed (nc : IBMNodeClass) (reason : string) (e : GoErrors.error) : stage :=
  now ⟵ PNow;
  patch_selection nc (updateCondition nc "False" reason (GoErrors.Error e) now) "updating nodeclass status"
    (λ _, Ret (inr (Err e))).

Definition wants_types (nc : IBMNodeClass) : option InstanceTypeRequirements :=
  if empty (NodeClass.InstanceProfile (Spec nc)) then InstanceRequirements (Spec nc) else None.

Definition select_types (nc : IBMNodeClass) : stage :=
  match wants_types nc with
  | None => Ret (inl nc)
  | Some requirements =>
      bind (embed of_types (FilterInstanceTypes types (Some requirements) (Some nc))) (λ answer,
      match answer with
      | Err (Failed e) => selection_failed nc "InstanceTypeSelectionFailed" e
      | Err Panicked => Ret (inr (Err (GoErrors.New nil_dereference)))
      | Ok [] => selection_failed nc "InstanceTypeSelectionFailed" (GoErrors.New "no instance types found matching requirements")
      | Ok instanceTypes =>
          let selected := with_status nc (map it_Name instanceTypes) (SelectedSubnets (Status nc)) (Conditions (Status nc)) in
          now ⟵ PNow;
          patch_selection nc (updateCondition selected "True" "InstanceTypeSelectionSucceeded" "Instance type selection completed successfully" now)
            "updating nodeclass status" (λ nc, Ret (inl nc))
      end)
  end.

Definition zone_count (l : list SubnetInfo) : Z := Z.of_nat (size (list_to_set (map sub_Zone l) : gset string)).

Definition wants_subnets (nc : IBMNodeClass) : option PlacementStrategy :=
  if empty (Subnet (Spec nc)) then PlacementStrategy_ (Spec nc) else None.

Definition select_subnets (nc : IBMNodeClass) : stage :=
  match wants_subnets nc with
  | Some strategy =>
      bind (embed of_subnets (Subnets.SelectSubnets_ subnets (VPC (Spec nc)) strategy)) (λ answer,
      match answer with
      | Err e => selection_failed nc "SubnetSelectionFailed" e
      | Ok [] => selection_failed nc "SubnetSelectionFailed" (GoErrors.New "no subnets found matching placement strategy")
      | Ok selectedSubnets =>
          let selected := with_status nc (SelectedInstanceTypes (Status nc)) (map sub_ID selectedSubnets) (Conditions (Status nc)) in
          let message := "Selected " ++ Strconv.Itoa (Z.of_nat (length selectedSubnets)) ++ " subnets across " ++
                           Strconv.Itoa (zone_count selectedSubnets) ++ " zones" in
          now ⟵ PNow;
          patch_selection nc (updateCondition selected "True" "SubnetSelectionSucceeded" message now)
            "updating nodeclass status" (λ nc, Ret (inl nc))
      end)
  | None =>
      if negb (empty (Subnet (Spec nc))) && negb (bool_decide (SelectedSubnets (Status nc) = []))
      then patch_selection nc (with_status nc (SelectedInstanceTypes (Status nc)) [] (Conditions (Status nc)))
             "clearing selectedSubnets" (λ nc, Ret (inl nc))
      else Ret (inl nc)
  end.

(** The next part, unless the handler returns. *)
Definition and_then (q : stage) (k : IBMNodeClass → stage) : stage :=
  bind q (λ r, match r with inl nc => k nc | inr r => Ret (inr r) end).

Definition placement_Reconcile (name : string) : prog placement_call (result GoErrors.error Result) :=
  answer ⟵ PGetClass name;
  match answer with
  | Err e => if kube_IsNotFound e then Ret (Ok no_requeue) else fail_with (wrapped_ "getting nodeclass" e)
  | Ok nc =>
      bind (and_then (select_types nc) select_subnets) (λ r,
      match r with inl _ => Ret (Ok no_requeue) | inr r => Ret r end)
  end.
End controller.

(** ** Theorems *)
Local Open Scope list_scope.

Local Abbreviation condition_of := NodeClassStatus.condition_of.

Lemma condition_updated l new : ∃ cond, condition_of (update_conditions l new) (cond_Type new) = Some cond ∧
  cond_Status cond = cond_Status new.
Proof.
  induction l as [|old l (cond & Hc & Hs)]; cbn.
  { exists new. by rewrite String.eqb_refl. }
  destruct (String.eqb_spec (cond_Type old) (cond_Type new)) as [E|E]; cbn.
  - destruct (String.eqb_spec (cond_Status old) (cond_Status new)); cbn; [exists old|exists new]; split; try done;
      unfold condition_of; cbn; by rewrite ?E, String.eqb_refl.
  - exists cond. split; [|done]. unfold condition_of in *. cbn.
    destruct (String.eqb_spec (cond_Type old) (cond_Type new)); done.
Qed.

Section safety.
Context `{SliceSorter, MapRange, Karpenter, Quantities} `{!ExponentialBackoff it_call}.
Context (types : InstanceTypes.provider) (subnets : Subnets.provider).

Local Abbreviation pl_history := (history placement_call).

(** The condition of the class. *)
Definition places (fresh : IBMNodeClass) (status : string) : Prop :=
  ∃ cond, condition_of (Conditions (Status fresh)) ConditionTypeAutoPlacement = Some cond ∧ cond_Status cond = status.

(** Everything but the selections and the condition. *)
Definition other_conditions (nc : IBMNodeClass) : list Condition :=
  List.filter (λ c, negb (String.eqb (cond_Type c) ConditionTypeAutoPlacement)) (Conditions (Status nc)).
Definition same_others (stored fresh : IBMNodeClass) : Prop :=
  nc_meta fresh = nc_meta stored ∧ Spec fresh = Spec stored ∧
  LastValidationTime (Status fresh) = LastValidationTime (Status stored) ∧
  ValidationError (Status fresh) = ValidationError (Status stored) ∧
  ResolvedSecurityGroups (Status fresh) = ResolvedSecurityGroups (Status stored) ∧
  ResolvedImageID (Status fresh) = ResolvedImageID (Status stored) ∧
  other_conditions fresh = other_conditions stored.

(** The two selections of a class. *)
Definition selected (nc : IBMNodeClass) : list string * list string :=
  (SelectedInstanceTypes (Status nc), SelectedSubnets (Status nc)).

(** The listings the history has of the class. *)
Definition types_listed (h : pl_history) (nc : IBMNodeClass) (r : result failure (list InstanceType)) : Prop :=
  ∃ requirements, wants_types nc = Some requirements ∧
    ran of_types (FilterInstanceTypes types (Some requirements) (Some nc)) (reverse h) r.
Definition subnets_listed (h : pl_history) (nc : IBMNodeClass) (r : result GoErrors.error (list SubnetInfo)) : Prop :=
  ∃ strategy, wants_subnets nc = Some strategy ∧
    ran of_subnets (Subnets.SelectSubnets_ subnets (VPC (Spec nc)) strategy) (reverse h) r.

(** What a patch may change. *)
Inductive choice (h : pl_history) (stored fresh : IBMNodeClass) : Prop :=
  | chose_types l : types_listed h stored (Ok l) → l ≠ [] → places fresh "True" →
      selected fresh = (map it_Name l, SelectedSubnets (Status stored)) → choice h stored fresh
  | chose_subnets l : subnets_listed h stored (Ok l) → l ≠ [] → places fresh "True" →
      selected fresh = (SelectedInstanceTypes (Status stored), map sub_ID l) → choice h stored fresh
  | no_types r : types_listed h stored r → (∀ l, r = Ok l → l = []) → places fresh "False" →
      selected fresh = selected stored → choice h stored fresh
  | no_subnets r : subnets_listed h stored r → (∀ l, r = Ok l → l = []) → places fresh "False" →
      selected fresh = selected stored → choice h stored fresh
  | cleared : Subnet (Spec stored) ≠ ""%string → Conditions (Status fresh) = Conditions (Status stored) →
      selected fresh = (SelectedInstanceTypes (Status stored), []) → choice h stored fresh.

(** The class as read, or as the last patch left it. *)
Definition known (name : string) (h : pl_history) (nc : IBMNodeClass) : Prop :=
  asked h (PGetClass name) (Ok nc) ∨ ∃ stored fresh, asked h (PPatchStatus stored fresh) (Ok nc).

Definition placement_guard (name : string) : guard (E := placement_call) := λ h R e,
  match e with
  | PPatchStatus stored fresh => known name h stored ∧ same_others stored fresh ∧ choice h stored fresh
  | _ => True
  end.

Definition quiet (R : Type) (e : placement_call R) : bool := match e with PPatchStatus _ _ => false | _ => true end.

Lemma embedded_quiet {F : Type → Type} {A} (f : ∀ R, F R → placement_call R) (q : prog F A) :
  (∀ R e, quiet R (f R e) = true) → only quiet (embed f q).
Proof. intros Hf. induction q as [x|R e k IH]; cbn; [done|]. split; [apply Hf|done]. Qed.

(** A listing of another component, in the history. *)
Lemma embedded_wp {F : Type → Type} {A} (f : ∀ R, F R → placement_call R) (q : prog F A) name h :
  (∀ R e, quiet R (f R e) = true) →
  wp (placement_guard name) (embed f q) h (λ h' a, (∃ l, h' = l ++ h) ∧ ran f q (reverse h') a).
Proof.
  intros Hf. eapply wp_mono; [|apply (wp_runs quiet _ (embed f q)); [|by apply embedded_quiet]].
  - intros h' a (l & -> & (tr0 & Hl & Hr)%runs_embed). split; [by exists l|].
    exists (reverse h), tr0, []. split; [|done]. by rewrite reverse_app, Hl, (right_id_L [] (++)).
  - intros h' R [] Hq; done.
Qed.

Lemma ran_later {F : Type → Type} {A} (f : ∀ R, F R → placement_call R) (q : prog F A) l h a :
  ran f q (reverse h) a → ran f q (reverse (l ++ h)) a.
Proof.
  intros (tr1 & tr0 & tr2 & He & Hr). exists tr1, tr0, (tr2 ++ reverse l). split; [|done].
  by rewrite reverse_app, He, !(assoc_L (++)).
Qed.

Lemma known_later name l h nc : known name h nc → known name (l ++ h) nc.
Proof. intros [Hk|(s & f & Hk)]; [left|right; exists s, f]; by apply asked_app. Qed.

Lemma others_kept nc status reason message now :
  other_conditions (updateCondition nc status reason message now) = other_conditions nc.
Proof.
  unfold other_conditions. cbn. induction (Conditions (Status nc)) as [|old l IH]; [done|].
  cbn [update_conditions cond_Type auto_placement]. destruct (String.eqb_spec (cond_Type old) ConditionTypeAutoPlacement) as [E|E].
  - destruct (negb (String.eqb (cond_Status old) _)); cbn [List.filter cond_Type]; by rewrite ?E, String.eqb_refl.
  - cbn [List.filter]. by rewrite IH.
Qed.

Lemma update_places nc status reason message now :
  places (updateCondition nc status reason message now) status ∧ same_others nc (updateCondition nc status reason message now) ∧
  selected (updateCondition nc status reason message now) = selected nc.
Proof.
  split_and!; [|split_and!|]; try done; cbn.
  - apply (condition_updated _ (auto_placement nc status reason message now)).
  - apply others_kept.
Qed.

(** What a part leaves: it goes on with a class that is known, and a return is
    not the silent one. *)
Definition goes_on (name : string) (P : pl_history → IBMNodeClass → Prop) (h : pl_history)
    (r : IBMNodeClass + result GoErrors.error Result) : Prop :=
  match r with inl nc => known name h nc ∧ P h nc | inr r => r ≠ Ok no_requeue end.

Lemma patch_wp name stored fresh what k h Q :
  placement_guard name h _ (PPatchStatus stored fresh) →
  (∀ nc, wp (placement_guard name) (k nc) (Did (PPatchStatus stored fresh) (Ok nc) :: h) (goes_on name Q)) →
  wp (placement_guard name) (patch_selection stored fresh what k) h (goes_on name Q).
Proof. intros Hg Hk. split; [done|]. intros [nc|e]; [apply Hk|]. by destruct (kube_IsConflict e). Qed.

Lemma failed_wp name nc reason e h Q : known name h nc →
  (∀ l fresh, places fresh "False" → selected fresh = selected nc → choice (l ++ h) nc fresh) →
  wp (placement_guard name) (selection_failed nc reason e) h (goes_on name Q).
Proof.
  intros Hk Hc. split; [done|]. intros now.
  destruct (update_places nc "False" reason (GoErrors.Error e) now) as (Hp & Hs & Hsel).
  apply patch_wp; [|done]. split_and!; [by apply (known_later _ [_])|done|]. by apply (Hc [_]).
Qed.

(** The parts: from the class, what was selected and how it went on. *)
Definition types_done (h : pl_history) (nc nc' : IBMNodeClass) : Prop :=
  (wants_types nc = None ∧ nc' = nc) ∨
  ∃ fresh l, asked h (PPatchStatus nc fresh) (Ok nc') ∧ types_listed h nc (Ok l) ∧ l ≠ [] ∧
    selected fresh = (map it_Name l, SelectedSubnets (Status nc)).
Definition subnets_done (h : pl_history) (nc : IBMNodeClass) : Prop :=
  match wants_subnets nc with
  | None => Subnet (Spec nc) = ""%string ∨ SelectedSubnets (Status nc) = [] ∨
      ∃ fresh nc', asked h (PPatchStatus nc fresh) (Ok nc') ∧ selected fresh = (SelectedInstanceTypes (Status nc), [])
  | Some _ => ∃ fresh nc' l, asked h (PPatchStatus nc fresh) (Ok nc') ∧ subnets_listed h nc (Ok l) ∧ l ≠ [] ∧
      selected fresh = (SelectedInstanceTypes (Status nc), map sub_ID l)
  end.

Lemma select_types_wp name nc h : known name h nc →
  wp (placement_guard name) (select_types types nc) h (goes_on name (λ h' nc', (∃ l, h' = l ++ h) ∧ types_done h' nc nc')).
Proof.
  intros Hk. unfold select_types. destruct (wants_types nc) as [requirements|] eqn:Ew.
  2:{ split; [done|]. split; [by exists []|by left]. }
  apply wp_bind. eapply wp_mono; [|apply (embedded_wp of_types); done]. intros h' answer [[l0 ->] Hran].
  assert (Hlisted : ∀ l, types_listed (l ++ l0 ++ h) nc answer).
  { intros l. exists requirements. split; [done|]. by apply ran_later. }
  assert (Hfail : ∀ l fresh, (∀ l', answer = Ok l' → l' = []) → places fresh "False" → selected fresh = selected nc →
    choice (l ++ l0 ++ h) nc fresh).
  { intros l fresh Hnone Hp Hs. by apply (no_types _ _ _ answer). }
  destruct answer as [[|it its]|[e|]]; [| | |done].
  - apply failed_wp; [by apply known_later|]. intros l fresh Hp Hs. apply Hfail; [congruence|done..].
  - cbn zeta. split; [done|]. intros now.
    set (nc1 := with_status nc (map it_Name (it :: its)) (SelectedSubnets (Status nc)) (Conditions (Status nc))).
    destruct (update_places nc1 "True" "InstanceTypeSelectionSucceeded" "Instance type selection completed successfully" now) as (Hp & Hs & Hsel).
    set (fresh := updateCondition nc1 _ _ _ _) in *. apply patch_wp.
    + split_and!; [apply (known_later _ [_]), known_later, Hk|done|].
      apply (chose_types _ _ _ (it :: its)); [apply (Hlisted [_])|done..].
    + intros nc'. split; [right; exists nc, fresh; apply asked_here|]. split; [by exists (Did (PPatchStatus nc fresh) (Ok nc') :: Did PNow now :: l0)|].
      right. exists fresh, (it :: its). split_and!; [apply asked_here|apply (Hlisted [_; _])|done|done].
  - apply failed_wp; [by apply known_later|]. intros l fresh Hp Hs. apply Hfail; [congruence|done..].
Qed.

Lemma select_subnets_wp name nc h : known name h nc →
  wp (placement_guard name) (select_subnets subnets nc) h (goes_on name (λ h' _, (∃ l, h' = l ++ h) ∧ subnets_done h' nc)).
Proof.
  intros Hk. unfold select_subnets, subnets_done. destruct (wants_subnets nc) as [strategy|] eqn:Ew.
  - apply wp_bind. eapply wp_mono; [|apply (embedded_wp of_subnets); done]. intros h' answer [[l0 ->] Hran].
    assert (Hlisted : ∀ l, subnets_listed (l ++ l0 ++ h) nc answer).
    { intros l. exists strategy. split; [done|]. by apply ran_later. }
    assert (Hfail : ∀ l fresh, (∀ l', answer = Ok l' → l' = []) → places fresh "False" → selected fresh = selected nc →
      choice (l ++ l0 ++ h) nc fresh).
    { intros l fresh Hnone Hp Hs. by apply (no_subnets _ _ _ answer). }
    destruct answer as [[|s ss]|e].
    + apply failed_wp; [by apply known_later|]. intros l fresh Hp Hs. apply Hfail; [congruence|done..].
    + cbn zeta. split; [done|]. intros now.
      set (nc1 := with_status nc (SelectedInstanceTypes (Status nc)) (map sub_ID (s :: ss)) (Conditions (Status nc))).
      match goal with |- context [updateCondition _ "True" "SubnetSelectionSucceeded" ?m now] => set (message := m) end.
      destruct (update_places nc1 "True" "SubnetSelectionSucceeded" message now) as (Hp & Hs & Hsel).
      set (fresh := updateCondition nc1 _ _ _ _) in *. apply patch_wp.
      * split_and!; [apply (known_later _ [_]), known_later, Hk|done|].
        apply (chose_subnets _ _ _ (s :: ss)); [apply (Hlisted [_])|done..].
      * intros nc'. split; [right; exists nc, fresh; apply asked_here|]. split; [by exists (Did (PPatchStatus nc fresh) (Ok nc') :: Did PNow now :: l0)|].
        exists fresh, nc', (s :: ss). split_and!; [apply asked_here|apply (Hlisted [_; _])|done|done].
    + apply failed_wp; [by apply known_later|]. intros l fresh Hp Hs. apply Hfail; [congruence|done..].
  - destruct (empty (Subnet (Spec nc))) eqn:Ee; cbn [negb andb].
    { split; [done|]. split; [by exists []|]. left. by apply String.eqb_eq. }
    case_bool_decide as Hb; cbn [negb]; [by split; [done|]; split; [by exists []|]; right; left|].
    apply patch_wp.
    + split_and!; [done|split_and!; done|]. apply cleared; [by apply String.eqb_neq|done|done].
    + intros nc'. split; [right; eexists _, _; apply asked_here|]. split; [by eexists [_]|]. right; right.
      eexists _, nc'. split; [apply asked_here|done].
Qed.

(** A run that ends in silence: no class, or both selections are made. *)
Definition placed (name : string) (h : pl_history) : Prop :=
  (∃ e, h = [Did (PGetClass name) (Err e)] ∧ kube_IsNotFound e = true) ∨
  ∃ nc nc', asked h (PGetClass name) (Ok nc) ∧ types_done h nc nc' ∧ subnets_done h nc'.

Lemma types_done_later l h nc nc' : types_done h nc nc' → types_done (l ++ h) nc nc'.
Proof.
  intros [Hn|(fresh & its & Ha & (r & Hw & Hr) & Hne & Hs)]; [by left|right]. exists fresh, its.
  split_and!; [by apply asked_app| |done|done]. exists r. split; [done|]. by apply ran_later.
Qed.

Lemma placement_wp name :
  wp (placement_guard name) (placement_Reconcile types subnets name) [] (λ h r, r = Ok no_requeue → placed name h).
Proof.
  unfold placement_Reconcile. split; [done|]. intros [nc|e].
  2:{ destruct (kube_IsNotFound e) eqn:En; [|done]. intros _. left. by exists e. }
  assert (Hk : known name [Did (PGetClass name) (Ok nc)] nc) by (left; apply asked_here).
  apply wp_bind. unfold and_then. apply wp_bind. eapply wp_mono; [|by apply select_types_wp].
  intros h1 [nc1|r] H1'; [|cbn [wp]; intros ->; done]. destruct H1' as (Hk1 & [l1 ->] & Ht).
  eapply wp_mono; [|by apply select_subnets_wp]. intros h2 [nc2|r] H2'; [|cbn [wp]; intros ->; done].
  destruct H2' as (_ & [l2 ->] & Hs). cbn [wp]. intros _. right. exists nc, nc1.
  split_and!; [do 2 apply asked_app; apply asked_here|by apply types_done_later|done].
Qed.

(** C19. The auto-placement controller writes to a NodeClass only its two
    selections and its own condition, and leaves every other field and condition
    as it is, under the optimistic lock of the class as read or as its last patch
    left it.  The instance types it writes are those, at least one, that the
    filter returned in this run for the requirements of the class, in that order,
    and the subnets those that the placement strategy selects in its VPC; it
    clears the subnets only for a class with a subnet of its own, and then leaves
    the condition; and a selection that fails or is empty changes neither and
    leaves the condition false.  A run that ends without error or requeue found no
    class, or made both selections the class asks for. *)
Theorem selections_follow_spec name tr r (Hrun : runs (placement_Reconcile types subnets name) tr r) :
  (∀ before R (e : placement_call R) answer after,
     tr = before ++ Did e answer :: after → placement_guard name (reverse before) R e) ∧
  (r = Ok no_requeue → placed name (reverse tr)).
Proof. apply (guarded_run _ _ _ _ _ (placement_wp name) Hrun). Qed.
End safety.

(** ** The theorem at a concrete run *)
#[local] Existing Instance InstanceTypesSpec.catalog_karpenter.
#[local] Existing Instance InstanceTypesSpec.milli_quantities.

(** A class with requirements and a strategy, against the catalog and the
    subnets of the examples; the strategy is the given one. *)
Definition placed_class (zoneBalance : string) : IBMNodeClass :=
  {| nc_meta := {| Name := "default"; UID := "u"; ResourceVersion := "1"; Generation := 7; DeletionTimestamp := None;
       CreationTimestamp := 0; Labels := ∅; Annotations := ∅; Finalizers := [] |};
     Spec := {| Region := "us-south"; Zone := ""; NodeClass.InstanceProfile := "";
       InstanceRequirements := Some InstanceTypesSpec.example_requirements; Image := "ubuntu";
       ImageSelector_ := None; VPC := "vpc-1"; Subnet := "";
       PlacementStrategy_ := Some {| ZoneBalance := zoneBalance; SubnetSelection := None |};
       SecurityGroups := []; UserData := ""; UserDataAppend := ""; SSHKeys := []; ResourceGroup := "";
       PlacementTarget := ""; Tags := ∅; BootstrapMode := None; APIServerEndpoint := ""; IKSClusterID := ""; IKSWorkerPoolID := "";
       IKSDynamicPools := None; LoadBalancerIntegration_ := None; BlockDeviceMappings := []; Kubelet := None |};
     Status := empty_status |}%string.

Definition placement_serve (zoneBalance : string) (R : Type) (e : placement_call R) (n : nat) : R * nat :=
  match e in placement_call R return R * nat with
  | PGetClass _ => (Ok (placed_class zoneBalance), n)
  | PPatchStatus _ fresh => (Ok fresh, n)
  | OfTypes e => InstanceTypesSpec.catalog_env _ e n
  | OfSubnets e => ((Subnets.example_env _ e tt).1, n)
  | PNow => (0%Z, n)
  end.

Definition placement_run (zoneBalance : string) :=
  interp (placement_serve zoneBalance)
    (placement_Reconcile InstanceTypesSpec.example_region {| Subnets.s_client := true; Subnets.s_kubeClient := true |} "default") 0.

(** The selections and the condition that each patch wrote. *)
Definition selections (tr : history placement_call) : list (list string * list string * list (string * string)) :=
  omap (λ ev, match ev with
    | Did e _ => match e with
      | PPatchStatus _ fresh => Some (selected fresh, map (λ cond, (cond_Status cond, cond_Reason cond)) (Conditions (Status fresh)))
      | _ => None
      end end) tr.

Lemma selections_follow_spec_witness :
  selections (placement_run "Balanced").1.1 =
    [((["bx2-2x8"], []), [("True", "InstanceTypeSelectionSucceeded")]);
     ((["bx2-2x8"], ["a2"; "b1"; "c1"]), [("True", "InstanceTypeSelectionSucceeded")])]%string ∧
  selections (placement_run "Random").1.1 =
    [((["bx2-2x8"], []), [("True", "InstanceTypeSelectionSucceeded")]);
     ((["bx2-2x8"], []), [("False", "SubnetSelectionFailed")])]%string ∧
  placed InstanceTypesSpec.example_region {| Subnets.s_client := true; Subnets.s_kubeClient := true |} "default"
    (reverse (placement_run "Balanced").1.1).
Proof.
  split; [vm_compute; reflexivity|]. split; [vm_compute; reflexivity|].
  apply (selections_follow_spec InstanceTypesSpec.example_region {| Subnets.s_client := true; Subnets.s_kubeClient := true |} "default" _ _
    (interp_runs (placement_serve "Balanced") (placement_Reconcile InstanceTypesSpec.example_region
       {| Subnets.s_client := true; Subnets.s_kubeClient := true |} "default") 0)).
  vm_compute. reflexivity.
Defined.
