(* ===== verification/GoBase64.v ===== *)
(** * GoBase64: encoding/base64

    [StdEncoding] and [RawURLEncoding]: [EncodeToString] and [DecodeString], which
    ignores line ends and does not look at the bits that are left over.  What was
    encoded decodes to the same bytes. *)
From stdpp Require Import prelude list strings.
From Stdlib Require Import Ascii Lia ZifyNat.
From S2P Require Import Prelude GoLib.

Open Scope string_scope.
Open Scope nat_scope.

Module Base64.

(** An encoding: the characters of 62 and 63, and whether it pads. *)
Record encoding := {
  char62 : ascii;
  char63 : ascii;
  padded : bool;
}.
Definition StdEncoding : encoding := {| char62 := "+"; char63 := "/"; padded := true |}.
Definition RawURLEncoding : encoding := {| char62 := "-"; char63 := "_"; padded := false |}.

Definition pad : ascii := "=".

Section encoding.
Context (enc : encoding).

(** The alphabet, both ways. *)
Definition char_of (n : nat) : ascii :=
  if n <? 26 then ascii_of_nat (65 + n)
  else if n <? 52 then ascii_of_nat (71 + n)
  else if n <? 62 then ascii_of_nat (n - 4)
  else if n =? 62 then char62 enc
  else char63 enc.

Definition value_of (c : ascii) : option nat :=
  let n := nat_of_ascii c in
  if Ascii.eqb c (char62 enc) then Some 62
  else if Ascii.eqb c (char63 enc) then Some 63
  else if (65 <=? n) && (n <=? 90) then Some (n - 65)
  else if (97 <=? n) && (n <=? 122) then Some (n - 71)
  else if (48 <=? n) && (n <=? 57) then Some (n + 4)
  else None.

(** The four characters of three bytes. *)
Definition char1 (a : nat) : ascii := char_of (a / 4).
Definition char2 (a b : nat) : ascii := char_of (a mod 4 * 16 + b / 16).
Definition char3 (b c : nat) : ascii := char_of (b mod 16 * 4 + c / 64).
Definition char4 (c : nat) : ascii := char_of (c mod 64).
Definition padding (n : nat) : list ascii := if padded enc then replicate n pad else [].

Fixpoint encode (l : list ascii) : list ascii :=
  match l with
  | [] => []
  | [x] => let a := nat_of_ascii x in char1 a :: char2 a 0 :: padding 2
  | [x; y] =>
      let a := nat_of_ascii x in let b := nat_of_ascii y in
      char1 a :: char2 a b :: char3 b 0 :: padding 1
  | x :: y :: z :: l' =>
      let a := nat_of_ascii x in let b := nat_of_ascii y in let c := nat_of_ascii z in
      char1 a :: char2 a b :: char3 b c :: char4 c :: encode l'
  end.

(** The bytes of two, three or four characters. *)
Definition byte1 (p q : nat) : ascii := ascii_of_nat (p * 4 + q / 16).
Definition byte2 (q r : nat) : ascii := ascii_of_nat (q mod 16 * 16 + r / 4).
Definition byte3 (r s : nat) : ascii := ascii_of_nat (r mod 4 * 64 + s).

Definition tail2 (x y : ascii) : option (list ascii) :=
  p ← value_of x; q ← value_of y; Some [byte1 p q].
Definition tail3 (x y z : ascii) : option (list ascii) :=
  p ← value_of x; q ← value_of y; r ← value_of z; Some [byte1 p q; byte2 q r].

(** The last quantum is shorter: by its padding, or by the end. *)
Fixpoint decode (l : list ascii) : option (list ascii) :=
  match l with
  | [] => Some []
  | [x; y] => if padded enc then None else tail2 x y
  | [x; y; z] => if padded enc then None else tail3 x y z
  | x :: y :: z :: w :: l' =>
      if padded enc && Ascii.eqb w pad then
        match l' with
        | [] => if Ascii.eqb z pad then tail2 x y else tail3 x y z
        | _ => None
        end
      else
        p ← value_of x; q ← value_of y; r ← value_of z; s ← value_of w;
        rest ← decode l'; Some (byte1 p q :: byte2 q r :: byte3 r s :: rest)
  | _ => None
  end.
End encoding.

Definition line_end (c : ascii) : bool := Ascii.eqb c "010" || Ascii.eqb c "013".

Definition EncodeToString (enc : encoding) (s : string) : string :=
  String.string_of_list_ascii (encode enc (String.list_ascii_of_string s)).
Definition DecodeString (enc : encoding) (s : string) : option string :=
  String.string_of_list_ascii <$> decode enc (List.filter (λ c, negb (line_end c)) (String.list_ascii_of_string s)).

(** ** Round trip *)

(** An encoding whose alphabet is injective and has no line end or padding. *)
Definition proper (enc : encoding) : bool :=
  forallb (λ n, bool_decide (value_of enc (char_of enc n) = Some n) && negb (line_end (char_of enc n)) &&
    negb (Ascii.eqb (char_of enc n) pad)) (seq 0 64).

Lemma Std_proper : proper StdEncoding = true.
Proof. vm_compute. reflexivity. Qed.
Lemma RawURL_proper : proper RawURLEncoding = true.
Proof. vm_compute. reflexivity. Qed.

Section roundtrip.
Context (enc : encoding) (Henc : proper enc = true).

Lemma proper_at n : n < 64 → value_of enc (char_of enc n) = Some n ∧ line_end (char_of enc n) = false ∧
  Ascii.eqb (char_of enc n) pad = false.
Proof.
  intros Hn. unfold proper in Henc. rewrite forallb_forall in Henc.
  specialize (Henc n ltac:(apply in_seq; lia)). rewrite !andb_true_iff, !negb_true_iff in Henc.
  destruct Henc as [[H1%bool_decide_eq_true H2] H3]. done.
Qed.

Local Ltac Zify.zify_post_hook ::= Z.to_euclidean_division_equations.

Lemma byte_lt x : nat_of_ascii x < 256.
Proof. apply nat_ascii_bounded. Qed.

Lemma char1_at a : a < 256 → value_of enc (char1 enc a) = Some (a / 4) ∧ Ascii.eqb (char1 enc a) pad = false ∧
  line_end (char1 enc a) = false.
Proof. intros Ha. destruct (proper_at (a / 4)) as (? & ? & ?); [lia|done]. Qed.
Lemma char2_at a b : b < 256 → value_of enc (char2 enc a b) = Some (a mod 4 * 16 + b / 16) ∧
  Ascii.eqb (char2 enc a b) pad = false ∧ line_end (char2 enc a b) = false.
Proof. intros Hb. destruct (proper_at (a mod 4 * 16 + b / 16)) as (? & ? & ?); [lia|done]. Qed.
Lemma char3_at b c : c < 256 → value_of enc (char3 enc b c) = Some (b mod 16 * 4 + c / 64) ∧
  Ascii.eqb (char3 enc b c) pad = false ∧ line_end (char3 enc b c) = false.
Proof. intros Hc. destruct (proper_at (b mod 16 * 4 + c / 64)) as (? & ? & ?); [lia|done]. Qed.
Lemma char4_at c : value_of enc (char4 enc c) = Some (c mod 64) ∧ Ascii.eqb (char4 enc c) pad = false ∧
  line_end (char4 enc c) = false.
Proof. destruct (proper_at (c mod 64)) as (? & ? & ?); [lia|done]. Qed.

Lemma byte1_at x b : b < 256 → byte1 (nat_of_ascii x / 4) (nat_of_ascii x mod 4 * 16 + b / 16) = x.
Proof.
  intros Hb. pose proof (byte_lt x). unfold byte1. rewrite <-(ascii_nat_embedding x) at 3. f_equal. lia.
Qed.
Lemma byte2_at a y c : c < 256 → byte2 (a mod 4 * 16 + nat_of_ascii y / 16) (nat_of_ascii y mod 16 * 4 + c / 64) = y.
Proof.
  intros Hc. pose proof (byte_lt y). unfold byte2. rewrite <-(ascii_nat_embedding y) at 3. f_equal. lia.
Qed.
Lemma byte3_at b z : byte3 (b mod 16 * 4 + nat_of_ascii z / 64) (nat_of_ascii z mod 64) = z.
Proof.
  pose proof (byte_lt z). unfold byte3. rewrite <-(ascii_nat_embedding z) at 3. f_equal. lia.
Qed.

(** Lists by threes. *)
Lemma by_threes {A} (P : list A → Prop) :
  P [] → (∀ x, P [x]) → (∀ x y, P [x; y]) → (∀ x y z l, P l → P (x :: y :: z :: l)) → ∀ l, P l.
Proof.
  intros H0 H1 H2 H3. fix IH 1. intros [|x [|y [|z l]]]; [done|apply H1|apply H2|]. apply H3, IH.
Qed.

Lemma decode_encode l : decode enc (encode enc l) = Some l.
Proof.
  induction l as [|x|x y|x y z l IH] using by_threes; [done| | |];
    cbn [encode decode padding]; unfold padding.
  - pose proof (byte_lt x). destruct (char1_at (nat_of_ascii x)) as (E1 & _ & _); [done|].
    destruct (char2_at (nat_of_ascii x) 0) as (E2 & _ & _); [lia|].
    destruct (padded enc) eqn:Ep; cbn [replicate decode]; rewrite ?Ascii.eqb_refl; cbn [andb];
      unfold tail2; rewrite E1, E2; cbn [mbind option_bind]; rewrite byte1_at by lia; done.
  - pose proof (byte_lt x). pose proof (byte_lt y). destruct (char1_at (nat_of_ascii x)) as (E1 & _ & _); [done|].
    destruct (char2_at (nat_of_ascii x) (nat_of_ascii y)) as (E2 & _ & _); [done|].
    destruct (char3_at (nat_of_ascii y) 0) as (E3 & N3 & _); [lia|].
    destruct (padded enc) eqn:Ep; cbn [replicate decode]; rewrite ?Ascii.eqb_refl; cbn [andb]; rewrite ?N3;
      unfold tail3; rewrite E1, E2, E3; cbn [mbind option_bind]; rewrite byte1_at, byte2_at by lia; done.
  - pose proof (byte_lt x). pose proof (byte_lt y). pose proof (byte_lt z).
    destruct (char1_at (nat_of_ascii x)) as (E1 & _ & _); [done|].
    destruct (char2_at (nat_of_ascii x) (nat_of_ascii y)) as (E2 & _ & _); [done|].
    destruct (char3_at (nat_of_ascii y) (nat_of_ascii z)) as (E3 & _ & _); [done|].
    destruct (char4_at (nat_of_ascii z)) as (E4 & N4 & _).
    rewrite N4, andb_false_r, E1, E2, E3, E4, IH. cbn [mbind option_bind].
    rewrite byte1_at, byte2_at, byte3_at by done. done.
Qed.

Lemma encode_one_line l : List.filter (λ c, negb (line_end c)) (encode enc l) = encode enc l.
Proof.
  assert (Hpad : ∀ n, List.filter (λ c, negb (line_end c)) (padding enc n) = padding enc n).
  { intros n. unfold padding. destruct (padded enc); [|done]. induction n as [|n IH]; cbn; [done|]. by f_equal. }
  assert (Hkeep : ∀ c l, line_end c = false →
    List.filter (λ c, negb (line_end c)) (c :: l) = c :: List.filter (λ c, negb (line_end c)) l).
  { intros c l' Hc. cbn. by rewrite Hc. }
  induction l as [|x|x y|x y z l IH] using by_threes; [done| | |]; cbn [encode];
    repeat rewrite Hkeep; rewrite ?Hpad, ?IH; try done;
    first [apply char1_at|apply char2_at|apply char3_at|apply char4_at]; try apply byte_lt; lia.
Qed.

Theorem decode_string_encode s : DecodeString enc (EncodeToString enc s) = Some s.
Proof.
  unfold DecodeString, EncodeToString.
  by rewrite String.list_ascii_of_string_of_list_ascii, encode_one_line, decode_encode; cbn;
    rewrite String.string_of_list_ascii_of_string.
Qed.
End roundtrip.

Example decode_padded : DecodeString StdEncoding "aGVs
bG8=" = Some "hello".
Proof. reflexivity. Qed.
End Base64.
