(* ===== verification/Tokens.v ===== *)
(** * Tokens: bootstrap tokens

    [pkg/providers/common/types/token.go], the token a node registers with and
    the endpoint it registers at; [pkg/controllers/bootstrap/token_controller.go],
    which lets the nodes register and removes the tokens that expired.  The two
    meet in the Secrets of kube-system: the theorems say that what one hands out
    the other does not take away, and that what one creates the other removes. *)
From stdpp Require Import prelude list strings gmap vector.
From Stdlib Require Import Ascii.
From S2P Require Import Prelude GoLib GoRegexp Errors NodeClass ProviderIDs Prog Kube IksAllocation ControllerApi.
From S2P Require Bootstrap IksExample.
Import Strings.

Open Scope string_scope.
Open Scope nat_scope.
Local Open Scope prog_scope.

(** A Secret of kube-system; [StringData], which is only written, becomes part of
    the data. *)
Record Secret := {
  sec_Name : string;
  sec_Labels : gmap string string;
  sec_Type : string;
  sec_Data : gmap string string;
  StringData : gmap string string;
}.

Record Subject := {
  sub_Kind : string;
  sub_Name : string;
  sub_APIGroup : string;
}.
Record ClusterRoleBinding := {
  crb_Name : string;
  Subjects : list Subject;
  RoleRef : Subject;
}.

Inductive token_call : Type → Type :=
  (* [rand.Read] into a buffer *)
  | RandRead (n : nat) : token_call (result GoErrors.error (vec ascii n))
  | TNow : token_call Z
  | CreateSecret (s : Secret) : token_call err
  (* those of kube-system that are labelled as Karpenter's tokens *)
  | ListTokens : token_call (result GoErrors.error (list Secret))
  | DeleteSecret (name : string) : token_call err
  | CreateClusterRoleBinding (b : ClusterRoleBinding) : token_call err
  (* the data of a ConfigMap; the URL of the client, if it has one *)
  | TGetConfigMap (namespace name : string) : token_call (result GoErrors.error (gmap string string))
  | RestURL : token_call (option string).

Local Abbreviation tok A := (prog token_call (result GoErrors.error A)).
Local Abbreviation tok_err := (prog token_call err).

(** [apierrors.IsAlreadyExists] *)
Definition kube_IsAlreadyExists (e : GoErrors.error) : bool :=
  match GoErrors.As GoErrors.as_kube e with
  | Some reason => String.eqb reason "AlreadyExists"
  | None => false
  end.

(** [hex.EncodeToString] *)
Definition hex_byte (c : ascii) : string :=
  let n := nat_of_ascii c in String (Bootstrap.lower_hex (n / 16)) (String (Bootstrap.lower_hex (n mod 16)) "").
Fixpoint hex_encode (l : list ascii) : string :=
  match l with [] => "" | c :: l' => hex_byte c ++ hex_encode l' end.

(** ** The tokens *)
Section tokens.
Context `{Stdlib}.

Definition token_type : string := "bootstrap.kubernetes.io/token".
Definition token_label : string := "karpenter.sh/bootstrap-token".
Definition bootstrap_group : string := "system:bootstrappers:karpenter:ibm-cloud".

Definition generateRandomString (length : nat) : tok string :=
  answer ⟵ RandRead ((length + 1) / 2);
  match answer with
  | Err e => fail_with e
  | Ok bytes => Ret (Ok (take length (hex_encode (vec_to_list bytes))))
  end.

(** The identity and the secret of a new token. *)
Definition random_token (k : string → string → tok string) : tok string :=
  bind (generateRandomString 6) (λ answer,
  match answer with
  | Err e => fail_with (wrapped_ "generating token ID" e)
  | Ok tokenID =>
      bind (generateRandomString 16) (λ answer,
      match answer with
      | Err e => fail_with (wrapped_ "generating token secret" e)
      | Ok tokenSecret => k tokenID tokenSecret
      end)
  end).

Definition token_data (tokenID tokenSecret : string) : gmap string string :=
  <["token-id" := tokenID]> (<["token-secret" := tokenSecret]>
  (<["usage-bootstrap-authentication" := "true"]> (<["usage-bootstrap-signing" := "true"]>
  {["auth-extra-groups" := bootstrap_group]}))).

Definition token_secret (tokenID tokenSecret : string) (ttl now : Z) : Secret :=
  {| sec_Name := "bootstrap-token-" ++ tokenID; sec_Labels := {[token_label := "true"]}; sec_Type := token_type;
     sec_Data :=
       let data := token_data tokenID (drop 7 tokenSecret) in
       if (0 <? ttl)%Z then <["expiration" := FormatRFC3339 (GoTime.Add now ttl)]> data else data;
     StringData := ∅ |}.

Definition GenerateBootstrapToken (ttl : Z) : tok string :=
  random_token (λ tokenID tokenSecret,
    let tokenSecret := tokenID ++ "." ++ tokenSecret in
    now ⟵ TNow;
    e ⟵ CreateSecret (token_secret tokenID tokenSecret ttl now);
    match e with
    | Some e => fail_with (wrapped_ "creating bootstrap token secret" e)
    | None => Ret (Ok tokenSecret)
    end).

(** The expiration of a token, when there is one that can be read. *)
Definition expiration_of (s : Secret) : option Z :=
  if String.eqb (sec_Type s) token_type then sec_Data s !! "expiration" ≫= ParseRFC3339 else None.

Definition token_of (s : Secret) : string :=
  get (sec_Data s) "token-id" ++ "." ++ get (sec_Data s) "token-secret".

(** It lasts more than an hour. *)
Definition renewable (expiration now : Z) : bool := GoTime.Before now (GoTime.Add expiration (- GoTime.Hour)).

Fixpoint find_valid (secrets : list Secret) : prog token_call (option string) :=
  match secrets with
  | [] => Ret None
  | s :: secrets' =>
      match expiration_of s with
      | Some expiration =>
          now ⟵ TNow;
          if renewable expiration now then Ret (Some (token_of s)) else find_valid secrets'
      | None => find_valid secrets'
      end
  end.

Definition FindOrCreateBootstrapToken (ttl : Z) : tok string :=
  answer ⟵ ListTokens;
  match answer with
  | Err e => fail_with (wrapped_ "listing bootstrap tokens" e)
  | Ok secrets =>
      bind (find_valid secrets) (λ token,
      match token with
      | Some token => Ret (Ok token)
      | None => GenerateBootstrapToken ttl
      end)
  end.

(** ** The endpoint *)
Fixpoint first_endpoint (lines : list string) : option string :=
  match lines with
  | [] => None
  | line :: lines' =>
      if Contains line "controlPlaneEndpoint:" then
        match Split line ":"%char with
        | _ :: host :: port :: _ => Some ("https://" ++ TrimSpace host ++ ":" ++ TrimSpace port)
        | _ => first_endpoint lines'
        end
      else first_endpoint lines'
  end.

Definition parseKubeadmConfigEndpoint (clusterConfig : string) : result GoErrors.error string :=
  if empty clusterConfig then Err (GoErrors.New "empty ClusterConfiguration")
  else
    match first_endpoint (Split clusterConfig Bootstrap.newline) with
    | Some endpoint => Ok endpoint
    | None => Err (GoErrors.New "controlPlaneEndpoint not found in kubeadm-config")
    end.

Fixpoint first_server (lines : list string) : option string :=
  match lines with
  | [] => None
  | line :: lines' =>
      let line := TrimSpace line in
      if HasPrefix line "server:" then
        let endpoint := TrimSpace (TrimPrefix line "server:") in
        if negb (empty endpoint) then Some endpoint else first_server lines'
      else first_server lines'
  end.

Definition parseClusterInfoEndpoint (kubeconfig : string) : result GoErrors.error string :=
  if empty kubeconfig then Err (GoErrors.New "empty kubeconfig")
  else
    match first_server (Split kubeconfig Bootstrap.newline) with
    | Some endpoint => Ok endpoint
    | None => Err (GoErrors.New "server endpoint not found in cluster-info kubeconfig")
    end.

(** The endpoint in a key of a ConfigMap, or the next source. *)
Definition from_config_map (namespace name key : string) (parse : string → result GoErrors.error string) (k : tok string)
    : tok string :=
  answer ⟵ TGetConfigMap namespace name;
  match answer with
  | Ok data => match parse (get data key) with Ok endpoint => Ret (Ok endpoint) | Err _ => k end
  | Err _ => k
  end.

Definition GetInternalAPIServerEndpoint : tok string :=
  from_config_map "kube-system" "kubeadm-config" "ClusterConfiguration" parseKubeadmConfigEndpoint (
  from_config_map "kube-public" "cluster-info" "kubeconfig" parseClusterInfoEndpoint (
  url ⟵ RestURL;
  match url with
  | Some baseURL => Ret (Ok baseURL)
  | None => fail "unable to determine API server endpoint from kubeadm-config, cluster-info, or client configuration"
  end)).

(** ** The controller *)
Definition binding (name subject role : string) : ClusterRoleBinding :=
  {| crb_Name := name;
     Subjects := [{| sub_Kind := "Group"; sub_Name := subject; sub_APIGroup := "rbac.authorization.k8s.io" |}];
     RoleRef := {| sub_Kind := "ClusterRole"; sub_Name := role; sub_APIGroup := "rbac.authorization.k8s.io" |} |}.

(** The bindings, each with what its error says. *)
Definition bootstrap_bindings : list (ClusterRoleBinding * string) := [
  (binding "karpenter-ibm-bootstrap-nodes" bootstrap_group "system:node-bootstrapper",
     "creating bootstrap nodes ClusterRoleBinding");
  (binding "karpenter-ibm-auto-approve-csrs" bootstrap_group "system:certificates.k8s.io:certificatesigningrequests:nodeclient",
     "creating auto-approve CSRs ClusterRoleBinding");
  (binding "karpenter-ibm-auto-approve-renewals" "system:nodes" "system:certificates.k8s.io:certificatesigningrequests:selfnodeclient",
     "creating auto-approve renewals ClusterRoleBinding");
  (binding "karpenter-ibm-auto-approve-kubelet-serving-csrs" "system:nodes" "system:certificates.k8s.io:kubelet-serving-approver",
     "creating auto-approve kubelet serving CSRs ClusterRoleBinding")].

(** [err != nil && !errors.IsAlreadyExists(err)] *)
Definition fatal (e : err) : err :=
  match e with Some e => if kube_IsAlreadyExists e then None else Some e | None => None end.

Fixpoint ensure_bindings (l : list (ClusterRoleBinding * string)) : tok_err :=
  match l with
  | [] => Ret None
  | (b, what) :: l' =>
      e ⟵ CreateClusterRoleBinding b;
      match fatal e with
      | Some e => Ret (Some (wrapped_ what e))
      | None => ensure_bindings l'
      end
  end.

Definition ensureBootstrapRBAC : tok_err := ensure_bindings bootstrap_bindings.

(** A failed deletion is logged. *)
Fixpoint delete_expired (secrets : list Secret) : prog token_call unit :=
  match secrets with
  | [] => Ret tt
  | s :: secrets' =>
      match expiration_of s with
      | Some expiration =>
          now ⟵ TNow;
          if GoTime.After now expiration then
            _e ⟵ DeleteSecret (sec_Name s);
            delete_expired secrets'
          else delete_expired secrets'
      | None => delete_expired secrets'
      end
  end.

Definition cleanupExpiredTokens : tok_err :=
  answer ⟵ ListTokens;
  match answer with
  | Err e => Ret (Some (wrapped_ "listing bootstrap tokens" e))
  | Ok secrets => bind (delete_expired secrets) (λ _, Ret None)
  end.

Definition token_Reconcile : tok Result :=
  bind ensureBootstrapRBAC (λ e,
  match e with
  | Some e => fail_with e
  | None =>
      bind cleanupExpiredTokens (λ e,
      match e with
      | Some e => fail_with e
      | None => Ret (Ok {| RequeueAfter := (5 * GoTime.Minute)%Z |})
      end)
  end).

(** The controller's own way to make a token, with a generator that says where
    its error comes from. *)
Definition controller_generateRandomString (length : nat) : tok string :=
  answer ⟵ RandRead ((length + 1) / 2);
  match answer with
  | Err e => fail_with (wrapped_ "reading random bytes" e)
  | Ok bytes => Ret (Ok (take length (hex_encode (vec_to_list bytes))))
  end.

Definition CreateBootstrapToken (name : string) : tok string :=
  bind (controller_generateRandomString 6) (λ answer,
  match answer with
  | Err e => fail_with (wrapped_ "generating token ID" e)
  | Ok tokenID =>
      bind (controller_generateRandomString 16) (λ answer,
      match answer with
      | Err e => fail_with (wrapped_ "generating token secret" e)
      | Ok tokenSecret =>
          e ⟵ CreateSecret
            {| sec_Name := "bootstrap-token-" ++ tokenID; sec_Labels := {[token_label := "true"]}; sec_Type := token_type;
               sec_Data := ∅;
               StringData := <["description" := "Token for Karpenter node " ++ name]> (<["ttl" := "24h"]>
                 (token_data tokenID tokenSecret)) |};
          match e with
          | Some e => fail_with e
          | None => Ret (Ok (tokenID ++ "." ++ tokenSecret))
          end
      end)
  end).
End tokens.

(** ** Theorems *)
Local Open Scope list_scope.
Local Open Scope nat_scope.

Local Abbreviation tok_history := (history token_call).

(** The Secrets a run created, with the answers. *)
Definition created (tr : tok_history) : list (Secret * err) :=
  omap (λ ev, match ev with
    | Did e answer =>
        match e in token_call R return R → option (Secret * err) with
        | CreateSecret s => λ answer, Some (s, answer)
        | _ => λ _, None
        end answer
    end) tr.

Lemma created_app tr1 tr2 : created (tr1 ++ tr2) = created tr1 ++ created tr2.
Proof. apply omap_app. Qed.

(** *** Random strings *)
Definition random (n : nat) (s : string) : Prop := String.length s = n ∧ all_chars is_lower_digit s = true.

Lemma hex_byte_chars c : random 2 (hex_byte c).
Proof.
  split; [done|]. revert c. assert (Hall : ∀ n, n < 16 → is_lower_digit (Bootstrap.lower_hex n) = true).
  { intros n Hn. do 16 (destruct n as [|n]; [done|]). lia. }
  intros c. unfold hex_byte. cbn [all_chars]. pose proof (nat_ascii_bounded c).
  rewrite !Hall; [done|apply Nat.mod_upper_bound; done|]. apply Nat.Div0.div_lt_upper_bound. lia.
Qed.

Lemma all_chars_app cls s t : all_chars cls (s ++ t)%string = all_chars cls s && all_chars cls t.
Proof. induction s as [|c s IH]; cbn; [done|]. by rewrite IH, andb_assoc. Qed.

Lemma hex_encode_random l : random (2 * length l) (hex_encode l).
Proof.
  induction l as [|c l [IHl IHc]]; [done|]. cbn [hex_encode]. destruct (hex_byte_chars c) as [Hl Hc].
  split; [rewrite Strings.length_app, Hl, IHl; cbn; lia|]. by rewrite all_chars_app, Hc, IHc.
Qed.

Lemma take_random k n s : random n s → k ≤ n → random k (take k s).
Proof.
  intros [<- Hc] Hk. split.
  - clear Hc. revert k Hk. induction s as [|c s IH]; intros [|k] Hk; cbn in *; try done; [lia|]. rewrite IH; lia.
  - clear Hk. revert k. induction s as [|c s IH]; intros [|k]; cbn in *; try done.
    apply andb_true_iff in Hc as [-> Hc]. by apply IH.
Qed.

Lemma generate_random n (bytes : vec ascii ((n + 1) / 2)) : random n (take n (hex_encode (vec_to_list bytes))).
Proof.
  apply (take_random n (2 * length (vec_to_list bytes))); [apply hex_encode_random|].
  rewrite length_vec_to_list. pose proof (Nat.div_mod (n + 1) 2 ltac:(done)). pose proof (Nat.mod_upper_bound (n + 1) 2). lia.
Qed.

(** A run of [random_token] that goes on: two random strings, and nothing was
    created. *)
Lemma random_token_runs k tr r : runs (random_token k) tr r →
  (∃ e, r = Err e ∧ created tr = []) ∨
  ∃ id secret tr1 tr2, random 6 id ∧ random 16 secret ∧ tr = tr1 ++ tr2 ∧ created tr1 = [] ∧ runs (k id secret) tr2 r.
Proof.
  unfold random_token, generateRandomString. cbn [bind]. intros ([b1|e] & tr' & -> & Hr); cbn in Hr.
  2:{ left. destruct Hr as [-> <-]. by eexists. }
  destruct Hr as ([b2|e] & tr'' & -> & Hr); cbn in Hr.
  2:{ left. destruct Hr as [-> <-]. by eexists. }
  right. eexists _, _, [_; _], tr''. split_and!; [apply generate_random|apply generate_random|done|done|exact Hr].
Qed.

Section safety.
Context `{StdlibLaws}.

(** A token that can be handed out at [now], and one that can be removed. *)
Definition usable (now : Z) (s : Secret) : Prop :=
  ∃ expiration, expiration_of s = Some expiration ∧ (now < expiration - GoTime.Hour)%Z.
Definition expired (now : Z) (s : Secret) : Prop :=
  ∃ expiration, expiration_of s = Some expiration ∧ (expiration < now)%Z.

Lemma usable_not_expired now now' s : usable now s → (now' ≤ now + GoTime.Hour)%Z → ¬ expired now' s.
Proof. intros (e & He & Hn) Hle (e' & He' & Hn'). rewrite He in He'. injection He' as <-. lia. Qed.

(** What the API server asks of a token, and what Karpenter asks of its own. *)
Record new_token (ttl now : Z) (token : string) (s : Secret) : Prop := {
  new_format : ∃ id secret, random 6 id ∧ random 16 secret ∧ token = (id ++ "." ++ secret)%string ∧
    sec_Name s = ("bootstrap-token-" ++ id)%string;
  new_own : token_of s = token;
  new_type : sec_Type s = token_type ∧ sec_Labels s !! token_label = Some "true"%string;
  new_usage : get (sec_Data s) "usage-bootstrap-authentication" = "true"%string ∧
    get (sec_Data s) "auth-extra-groups" = bootstrap_group;
  new_expiration : expiration_of s = Some (now + ttl - (now + ttl) mod GoTime.Second)%Z;
}.

Lemma token_secret_new ttl now id secret : random 6 id → random 16 secret → (0 < ttl)%Z → (0 ≤ now + ttl < year_10000)%Z →
  new_token ttl now (id ++ "." ++ secret)%string (token_secret id (id ++ "." ++ secret)%string ttl now).
Proof.
  intros Hid Hsecret Httl Hrange.
  assert (Hdrop : drop 7 (id ++ "." ++ secret)%string = secret).
  { replace (id ++ "." ++ secret)%string with ((id ++ ".") ++ secret)%string by apply Strings.app_assoc.
    replace 7 with (String.length (id ++ ".")%string) by (rewrite Strings.length_app, (proj1 Hid); done).
    apply drop_app. }
  unfold token_secret. rewrite Hdrop, (proj2 (Z.ltb_lt 0 ttl) Httl).
  split; try done; [by exists id, secret|].
  unfold expiration_of. cbn [sec_Type sec_Data]. rewrite String.eqb_refl, lookup_insert_eq. cbn.
  unfold GoTime.Add. by rewrite parse_format.
Qed.

Lemma new_token_usable ttl now token s :
  new_token ttl now token s → (GoTime.Hour + GoTime.Second ≤ ttl)%Z → usable now s.
Proof.
  intros Hn Httl. eexists. split; [apply (new_expiration _ _ _ _ Hn)|].
  pose proof (Z.mod_pos_bound (now + ttl) GoTime.Second ltac:(done)). lia.
Qed.

(** The loop over the listed tokens. *)
Lemma find_valid_runs secrets tr token : runs (find_valid secrets) tr token →
  created tr = [] ∧
  match token with
  | Some token => ∃ s now, s ∈ secrets ∧ asked tr TNow now ∧ token = token_of s ∧ usable now s
  | None => ∀ s, s ∈ secrets → expiration_of s = None ∨ ∃ now, asked tr TNow now ∧ ¬ usable now s
  end.
Proof.
  revert tr. induction secrets as [|s secrets IH]; intros tr; cbn [find_valid].
  { intros [-> <-]. split; [done|]. intros s' Hin. by apply elem_of_nil in Hin. }
  destruct (expiration_of s) as [expiration|] eqn:Ee.
  - intros (now & tr' & -> & Hr). destruct (renewable expiration now) eqn:En.
    + destruct Hr as [-> <-]. split; [done|]. exists s, now. split_and!; [by left|apply asked_here|done|].
      exists expiration. split; [done|]. apply Z.ltb_lt in En. unfold GoTime.Add in En. lia.
    + apply IH in Hr as [Hc Hr]. split; [done|]. destruct token as [token|].
      * destruct Hr as (s' & now' & ? & ? & ?). exists s', now'. split; [by right|]. split; [by apply asked_later|done].
      * intros s' [->|Hin]%elem_of_cons.
        -- right. exists now. split; [apply asked_here|]. intros (e & He & Hn). rewrite Ee in He. injection He as <-.
           apply Z.ltb_ge in En. unfold GoTime.Add in En. lia.
        -- destruct (Hr s' Hin) as [?|(now' & ? & ?)]; [by left|]. right. exists now'. split; [by apply asked_later|done].
  - intros Hr. apply IH in Hr as [Hc Hr]. split; [done|]. destruct token as [token|].
    + destruct Hr as (s' & now' & ? & ?). exists s', now'. split; [by right|done].
    + intros s' [->|Hin]%elem_of_cons; [by left|]. by apply Hr.
Qed.

(** C23. [FindOrCreateBootstrapToken] returns the token of a Secret that was listed
    and expires more than an hour after a reading of the clock in this run, and
    then creates nothing; or a new token, when no listed one would do, in the
    format of bootstrap tokens, whose Secret is created once and carries the
    label, type, group and expiration by which it is found and removed again.  A
    new token expires its lifetime after a reading of the clock, to the second,
    so also more than an hour after it when it was asked for an hour and a second
    or more; the provider asks for a day.  An error leaves no Secret that was
    created. *)
Theorem bootstrap_token_usable ttl tr r (Hrun : runs (FindOrCreateBootstrapToken ttl) tr r) (Httl : (0 < ttl)%Z)
    (Hclock : ∀ now, asked tr TNow now → (0 ≤ now ∧ now + ttl < year_10000)%Z) :
  match r with
  | Ok token =>
      ∃ secrets, asked tr ListTokens (Ok secrets) ∧
        ((∃ s now, s ∈ secrets ∧ asked tr TNow now ∧ token = token_of s ∧ usable now s ∧ created tr = []) ∨
         (∃ s now, asked tr TNow now ∧ created tr = [(s, None)] ∧ new_token ttl now token s ∧
           ((GoTime.Hour + GoTime.Second ≤ ttl)%Z → usable now s) ∧
           ∀ s', s' ∈ secrets → expiration_of s' = None ∨ ∃ now', asked tr TNow now' ∧ ¬ usable now' s'))
  | Err _ => Forall (λ c, is_Some c.2) (created tr)
  end.
Proof.
  unfold FindOrCreateBootstrapToken in Hrun. destruct Hrun as ([secrets|e] & tr' & -> & Hr).
  2:{ destruct Hr as [-> <-]. constructor. }
  apply runs_bind in Hr as (tr1 & tr2 & [token|] & -> & Hf & Hr);
    pose proof (find_valid_runs _ _ _ Hf) as [Hc Hv].
  { destruct Hr as [-> <-]. destruct Hv as (s & now & Hin & Hnow & -> & Hu). exists secrets. split; [apply asked_here|].
    left. exists s, now. rewrite (right_id_L [] (++)). split_and!; try done. by apply asked_later. }
  change (created (Did ListTokens (Ok secrets) :: tr1 ++ tr2)) with (created (tr1 ++ tr2)).
  rewrite created_app, Hc. cbn [app].
  apply random_token_runs in Hr as [(e & -> & Hc2)|(id & secret & tr3 & tr4 & Hid & Hsecret & -> & Hc3 & Hr)].
  { rewrite Hc2. constructor. }
  rewrite created_app, Hc3. cbn [app].
  destruct Hr as (now & tr5 & -> & [e|] & tr6 & -> & Hr); destruct Hr as [-> <-].
  { by repeat constructor. }
  assert (Hnow : asked (Did ListTokens (Ok secrets) :: tr1 ++ tr3 ++ [Did TNow now; Did (CreateSecret
    (token_secret id (id ++ "." ++ secret)%string ttl now)) None]) TNow now).
  { apply asked_later, asked_app, asked_app, asked_here. }
  exists secrets. split; [apply asked_here|]. right. eexists _, now. split_and!; [exact Hnow|done| | |].
  - apply token_secret_new; try done. destruct (Hclock now Hnow). lia.
  - apply (new_token_usable ttl _ (id ++ "." ++ secret)). apply token_secret_new; try done. destruct (Hclock now Hnow). lia.
  - intros s' Hin. destruct (Hv s' Hin) as [?|(now' & Hn & ?)]; [by left|]. right. exists now'. split; [|done].
    unfold asked in *. set_solver.
Qed.

(** *** The controller *)

(** The binding is there. *)
Definition ensured (h : tok_history) : Prop :=
  ∀ b what, (b, what) ∈ bootstrap_bindings → ∃ e, asked h (CreateClusterRoleBinding b) e ∧ fatal e = None.

(** A deletion follows the reading of the clock at which the token, listed
    before, had expired; at that time it was not handed out for an hour. *)
Definition token_guard : guard (E := token_call) := λ h R e,
  match e with
  | DeleteSecret name =>
      ensured h ∧ ∃ secrets s now h', h = Did TNow now :: h' ∧ asked h' ListTokens (Ok secrets) ∧ s ∈ secrets ∧
        name = sec_Name s ∧ expired now s ∧ ∀ now', (now ≤ now' + GoTime.Hour)%Z → ¬ usable now' s
  | ListTokens => ensured h
  | CreateSecret _ => False
  | _ => True
  end.

(** What happened to a listed token. *)
Definition looked_after (h : tok_history) (s : Secret) : Prop :=
  ∀ expiration, expiration_of s = Some expiration →
    ∃ now, asked h TNow now ∧ ((now ≤ expiration)%Z ∨ ∃ answer, asked h (DeleteSecret (sec_Name s)) answer).

Lemma looked_after_app l h s : looked_after h s → looked_after (l ++ h) s.
Proof.
  intros Hl e He. destruct (Hl e He) as (now & Hn & Hd). exists now. split; [by apply asked_app|].
  destruct Hd as [?|[answer Hd]]; [by left|]. right. exists answer. by apply asked_app.
Qed.

Lemma ensured_app l h : ensured h → ensured (l ++ h).
Proof. intros He b what Hin. destruct (He b what Hin) as (e & Ha & Hf). exists e. split; [by apply asked_app|done]. Qed.

Lemma delete_expired_wp all secrets h : ensured h → asked h ListTokens (Ok all) → secrets ⊆ all →
  wp token_guard (delete_expired secrets) h (λ h' _, (∃ l, h' = l ++ h) ∧ ∀ s, s ∈ secrets → looked_after h' s).
Proof.
  revert h. induction secrets as [|s secrets IH]; intros h He Hl Hsub; cbn [delete_expired].
  { split; [by exists []|]. intros s Hin. by apply elem_of_nil in Hin. }
  assert (Hrest : ∀ l, (∀ l', looked_after (l' ++ l ++ h) s) →
    wp token_guard (delete_expired secrets) (l ++ h)
      (λ h' _, (∃ l, h' = l ++ h) ∧ ∀ s', s' ∈ s :: secrets → looked_after h' s')).
  { intros l Hs. eapply wp_mono; [|apply IH; [by apply ensured_app|by apply asked_app|set_solver]].
    intros h' _ [[l' ->] Hall]. split; [exists (l' ++ l); by rewrite (assoc_L (++))|].
    intros s' [->|Hin]%elem_of_cons; [apply Hs|by apply Hall]. }
  destruct (expiration_of s) as [expiration|] eqn:Ee.
  2:{ apply (Hrest []). intros l' e He'. by rewrite Ee in He'. }
  split; [done|]. intros now. destruct (GoTime.After now expiration) eqn:Ea.
  - assert (Hexp : expired now s) by (exists expiration; split; [done|]; by apply Z.ltb_lt).
    split.
    + split; [by apply (ensured_app [_])|]. exists all, s, now, h. split_and!; try done; [set_solver|].
      intros now' Hle Hu. by apply (usable_not_expired now' now s).
    + intros answer. apply (Hrest [_; _]). intros l' e' _. exists now.
      split; [apply asked_app, asked_later, asked_here|]. right. exists answer. apply asked_app, asked_here.
  - apply (Hrest [_]). intros l' e' He'. rewrite Ee in He'. injection He' as <-. exists now.
    split; [apply asked_app, asked_here|]. left. unfold GoTime.After in Ea. apply Z.ltb_ge in Ea. lia.
Qed.

Lemma ensure_bindings_wp l h :
  wp token_guard (ensure_bindings l) h (λ h' e, (∃ l', h' = l' ++ h) ∧
    (e = None → ∀ b what, (b, what) ∈ l → ∃ e, asked h' (CreateClusterRoleBinding b) e ∧ fatal e = None)).
Proof.
  revert h. induction l as [|[b what] l IH]; intros h; cbn [ensure_bindings].
  { split; [by exists []|]. intros _ b what Hin. by apply elem_of_nil in Hin. }
  split; [done|]. intros e. destruct (fatal e) as [f|] eqn:Ef.
  { split; [by exists [Did (CreateClusterRoleBinding b) e]|done]. }
  eapply wp_mono; [|apply IH]. intros h' r [[l' ->] Hall].
  split; [exists (l' ++ [Did (CreateClusterRoleBinding b) e]); by rewrite <-(assoc_L (++))|].
  intros Hr b' what' [[= -> ->]|Hin]%elem_of_cons; [|by eapply Hall].
  exists e. split; [apply asked_app, asked_here|done].
Qed.

(** A pass that ends without error. *)
Definition tokens_kept (h : tok_history) (result : Result) : Prop :=
  RequeueAfter result = (5 * GoTime.Minute)%Z ∧ ensured h ∧
  ∃ secrets, asked h ListTokens (Ok secrets) ∧ ∀ s, s ∈ secrets → looked_after h s.

Lemma token_wp : wp token_guard token_Reconcile [] (λ h r, match r with Ok result => tokens_kept h result | Err _ => True end).
Proof.
  unfold token_Reconcile, ensureBootstrapRBAC. apply wp_bind.
  eapply wp_mono; [|apply (ensure_bindings_wp bootstrap_bindings)]. intros h [e|] [[l ->] He]; [done|].
  rewrite (right_id_L [] (++)) in *. specialize (He eq_refl).
  unfold cleanupExpiredTokens. cbn [bind wp]. split; [exact He|]. intros [secrets|e]; [|done].
  apply wp_bind, wp_bind. eapply wp_mono; [|by apply (delete_expired_wp secrets); [apply (ensured_app [_])|apply asked_here|]].
  intros h' _ [[l' ->] Hall]. cbn [wp bind]. split; [done|]. split; [by apply ensured_app, (ensured_app [_])|].
  exists secrets. split; [apply asked_app, asked_here|done].
Qed.

(** C24. The token controller deletes a token only at a reading of the clock past
    its expiration, so never one that was handed out within the last hour, and
    lists the tokens only when all four bindings that nodes need to register
    exist; a pass without error has deleted, or tried to, every listed token
    that had expired. *)
Theorem token_cleanup_safe tr r (Hrun : runs token_Reconcile tr r) :
  (∀ before R (e : token_call R) answer after, tr = before ++ Did e answer :: after → token_guard (reverse before) R e) ∧
  match r with Ok result => tokens_kept (reverse tr) result | Err _ => True end.
Proof. apply (guarded_run _ _ _ _ _ token_wp Hrun). Qed.

(** The tokens of the controller itself have no expiration, in what is sent as
    data and as strings, so that they are neither handed out again nor ever
    removed. *)
Theorem controller_token_never_expires name tr token (Hrun : runs (CreateBootstrapToken name) tr (Ok token)) :
  ∃ s, created tr = [(s, None)] ∧ sec_Type s = token_type ∧
    sec_Data s !! "expiration"%string = None ∧ StringData s !! "expiration"%string = None.
Proof.
  unfold CreateBootstrapToken, controller_generateRandomString in Hrun. cbn [bind] in Hrun.
  destruct Hrun as ([b1|e] & tr1 & -> & Hr); cbn in Hr; [|by destruct Hr].
  destruct Hr as ([b2|e] & tr2 & -> & Hr); cbn in Hr; [|by destruct Hr].
  destruct Hr as ([e|] & tr3 & -> & Hr); [by destruct Hr|]. destruct Hr as [-> _]. cbn. eexists. split; [done|].
  by split_and!.
Qed.
End safety.

(** *** Endpoints *)
Lemma first_endpoint_skip before rest :
  Forall (λ line, Contains line "controlPlaneEndpoint:" = false) before → first_endpoint (before ++ rest) = first_endpoint rest.
Proof. induction 1 as [|line before Hl _ IH]; cbn [app first_endpoint]; [done|]. by rewrite Hl. Qed.

Lemma no_newline_Split line : free_of Bootstrap.newline line = true → Split line Bootstrap.newline = [line].
Proof. apply Split_free. Qed.

(** The endpoint of a cluster configuration, on the first line of the key: a
    host and a port, whatever surrounds the line. *)
Theorem kubeadm_endpoint_found before indent host port after
    (Hbefore : Forall (λ line, Contains line "controlPlaneEndpoint:" = false) (Split before Bootstrap.newline))
    (Hindent : free_of Bootstrap.newline indent = true ∧ free_of ":" indent = true)
    (Hhost : free_of Bootstrap.newline host = true ∧ free_of ":" host = true)
    (Hport : free_of Bootstrap.newline port = true ∧ free_of ":" port = true) :
  parseKubeadmConfigEndpoint (before ++ String Bootstrap.newline
    ((indent ++ "controlPlaneEndpoint" ++ String ":" (host ++ String ":" port)) ++ String Bootstrap.newline after))%string =
  Ok ("https://" ++ TrimSpace host ++ ":" ++ TrimSpace port)%string.
Proof.
  destruct Hindent as [Hi1 Hi2], Hhost as [Hh1 Hh2], Hport as [Hp1 Hp2].
  unfold parseKubeadmConfigEndpoint. rewrite !Split_app, first_endpoint_skip by done.
  set (line := (indent ++ _)%string).
  assert (Hfree : free_of Bootstrap.newline line = true).
  { unfold line. rewrite !free_of_app, Hi1. cbn. rewrite free_of_app, Hh1. cbn. by rewrite Hp1. }
  rewrite (Split_free line) by done. cbn [app first_endpoint].
  assert (Hc : Contains line "controlPlaneEndpoint:" = true).
  { apply Contains_true. exists indent, (host ++ String ":" port)%string. done. }
  assert (Hs : Split line ":"%char = [(indent ++ "controlPlaneEndpoint")%string; host; port]).
  { unfold line. rewrite <-(Strings.app_assoc indent "controlPlaneEndpoint").
    rewrite !Split_app, !Split_free; [done|done|done|]. rewrite free_of_app, Hi2. done. }
  rewrite Hc, Hs. destruct (empty _) eqn:Ee; [|done].
  exfalso. apply String.eqb_eq in Ee. by destruct before.
Qed.

(** An IPv6 endpoint is cut at its own colons. *)
Example ipv6_endpoint_cut :
  parseKubeadmConfigEndpoint "controlPlaneEndpoint: [fd00::1]:6443" = Ok "https://[fd00:"%string.
Proof. reflexivity. Qed.

(** ** The theorems at concrete runs *)
#[local] Existing Instance IksExample.toy_stdlib.
#[local] Existing Instance IksExample.toy_laws.

(** A cluster with some tokens, at a time; what is created is listed from then
    on. *)
Definition token_world (now : Z) (R : Type) (e : token_call R) (secrets : list Secret) : R * list Secret :=
  match e in token_call R return R * list Secret with
  | RandRead n => (Ok (vreplicate n "171"%char), secrets)
  | TNow => (now, secrets)
  | CreateSecret s => (None, secrets ++ [s])
  | ListTokens => (Ok secrets, secrets)
  | DeleteSecret name => (None, List.filter (λ s, negb (String.eqb (sec_Name s) name)) secrets)
  | CreateClusterRoleBinding b =>
      (if String.eqb (crb_Name b) "karpenter-ibm-bootstrap-nodes"
       then Some (GoErrors.foreignError (GoErrors.KubeStatus "AlreadyExists") "already exists" []) else None, secrets)
  | TGetConfigMap _ _ => (Err (GoErrors.New "not found"), secrets)
  | RestURL => (None, secrets)
  end.

Definition day : Z := (24 * GoTime.Hour)%Z.
Definition first_token := interp (token_world 0) (FindOrCreateBootstrapToken day) [].
Definition token_at (now : Z) := interp (token_world now) (FindOrCreateBootstrapToken day) (snd first_token).
Definition pass_at (now : Z) := interp (token_world now) token_Reconcile (snd first_token).

Definition reading (ev : event token_call) : option Z :=
  match ev with Did e answer =>
    match e in token_call R return R → option Z with TNow => Some | _ => λ _, None end answer end.

Lemma asked_reading tr now : asked tr TNow now → now ∈ omap reading tr.
Proof. intros Hin. apply list_elem_of_omap. by exists (Did TNow now). Qed.

(** The token of time zero is handed out again until an hour before its end, and
    a second one then. *)
Lemma bootstrap_token_usable_witness :
  first_token.1.2 = Ok "ababab.abababababababab"%string ∧ length (created first_token.1.1) = 1 ∧
  length (created (token_at (22 * GoTime.Hour)).1.1) = 0 ∧ length (created (token_at (23 * GoTime.Hour)).1.1) = 1 ∧
  ∃ s now, created first_token.1.1 = [(s, None)] ∧ new_token day now "ababab.abababababababab" s ∧ usable now s.
Proof.
  split; [vm_compute; reflexivity|]. split; [vm_compute; reflexivity|]. split; [vm_compute; reflexivity|].
  split; [vm_compute; reflexivity|].
  assert (Hclock : ∀ now, asked first_token.1.1 TNow now → (0 ≤ now ∧ now + day < year_10000)%Z).
  { intros now Hin. assert (Hz : now = 0%Z); [|subst; vm_compute; split; [intros [=]|done]].
    apply asked_reading in Hin. change (omap reading first_token.1.1) with [0%Z] in Hin.
    by apply list_elem_of_singleton in Hin. }
  assert (Hr : first_token.1.2 = Ok "ababab.abababababababab"%string) by (vm_compute; reflexivity).
  assert (Hd : (0 < day)%Z) by (vm_compute; reflexivity).
  pose proof (bootstrap_token_usable day first_token.1.1 first_token.1.2
    (interp_runs (token_world 0) (FindOrCreateBootstrapToken day) []) Hd Hclock) as Ht.
  rewrite Hr in Ht. destruct Ht as (secrets & _ & [(s & now & _ & _ & _ & _ & Hc)|(s & now & _ & Hc & Hn & Hu & _)]).
  - vm_compute in Hc. discriminate Hc.
  - exists s, now. split_and!; [exact Hc|exact Hn|apply Hu; vm_compute; intros [=]].
Defined.

(** It stays as long as it is valid, and is removed after. *)
Lemma token_cleanup_safe_witness :
  length (snd (pass_at (24 * GoTime.Hour))) = 1 ∧ length (snd (pass_at (25 * GoTime.Hour))) = 0 ∧
  tokens_kept (reverse (pass_at (25 * GoTime.Hour)).1.1) {| RequeueAfter := (5 * GoTime.Minute)%Z |}.
Proof.
  split; [vm_compute; reflexivity|]. split; [vm_compute; reflexivity|].
  pose proof (proj2 (token_cleanup_safe _ _ (interp_runs (token_world (25 * GoTime.Hour)) token_Reconcile (snd first_token)))) as Hk.
  assert (Hr : (pass_at (25 * GoTime.Hour)).1.2 = Ok {| RequeueAfter := (5 * GoTime.Minute)%Z |}) by (vm_compute; reflexivity).
  unfold pass_at in Hr. rewrite Hr in Hk. exact Hk.
Defined.
