(* ===== verification/Credentials.v ===== *)
(** * Credentials: API keys, IAM tokens and the account they belong to

    [pkg/cloudprovider/ibm/credentials.go]: the store that keeps the API keys
    encrypted for a time, and the providers it takes them from ([Keys]); [iam.go],
    the cached IAM token ([Iam]); [identity.go], the account that the token of a
    VPC credential names ([Identity]); and what [client.go] makes of them
    ([IbmClient]). *)
From stdpp Require Import prelude list strings gmap vector.
From Stdlib Require Import Ascii.
From S2P Require Import Prelude GoLib GoRegexp GoBase64 Errors NodeClass ProviderIDs Prog Kube.
Import Strings.

Open Scope string_scope.
Open Scope nat_scope.
Local Open Scope prog_scope.

(** What is not base64; the position of the fault is left out of the text. *)
Definition corrupt_input : GoErrors.error := GoErrors.New "illegal base64 data".
Definition decode_base64 (enc : Base64.encoding) (s : string) : result GoErrors.error string :=
  match Base64.DecodeString enc s with Some t => Ok t | None => Err corrupt_input end.

Module Keys.

Record Credentials := {
  VPCAPIKey : string;
  IBMAPIKey : string;
  cred_Region : string;
}.

Inductive cred_call : Type → Type :=
  (* the provider of the store, or the one that a provider wraps *)
  | GetCredentials : cred_call (result GoErrors.error Credentials)
  (* [io.ReadFull(rand.Reader, nonce)] *)
  | RandFull (n : nat) : cred_call (result GoErrors.error (vec ascii n))
  | CredNow : cred_call Z
  (* the data of a Secret *)
  | GetSecret (namespace name : string) : cred_call (result GoErrors.error (gmap string string)).

Local Abbreviation creds A := (prog cred_call (result GoErrors.error A)).

(** [crypto/aes] and [crypto/cipher]: the error of a key, the size of a nonce,
    [Seal] and [Open] of Galois counter mode.  What was sealed opens. *)
Class AEAD := {
  NewGCM : string → err;
  NonceSize : nat;
  Seal : string → string → string → string;
  Open : string → string → string → result GoErrors.error string;
}.
Class AEADLaws `{AEAD} : Prop := {
  NewGCM_key : ∀ key, String.length key = 32 → NewGCM key = None;
  Open_Seal : ∀ key nonce plaintext, NewGCM key = None → Open key nonce (Seal key nonce plaintext) = Ok plaintext;
}.

(** ** The store *)
Record encryptedCredentials := {
  vpcAPIKey : option string;
  ibmAPIKey : option string;
  enc_region : string;
}.

Record SecureCredentialStore := {
  encryptKey : string;
  credentials : option encryptedCredentials;
  lastRefresh : Z;
  ttl : Z;
}.

Section store.
Context `{AEAD}.

Definition encrypt (key plaintext : string) : creds string :=
  match NewGCM key with
  | Some e => fail_with e
  | None =>
      answer ⟵ RandFull NonceSize;
      match answer with
      | Err e => fail_with e
      | Ok bytes =>
          let nonce := String.string_of_list_ascii (vec_to_list bytes) in
          Ret (Ok (nonce ++ Seal key nonce plaintext))
      end
  end.

Definition decrypt (key ciphertext : string) : result GoErrors.error string :=
  match NewGCM key with
  | Some e => Err e
  | None =>
      if String.length ciphertext <? NonceSize then Err (GoErrors.New "ciphertext too short")
      else Open key (take NonceSize ciphertext) (drop NonceSize ciphertext)
  end.

Definition NewSecureCredentialStore (ttl : Z) : creds SecureCredentialStore :=
  answer ⟵ RandFull 32;
  match answer with
  | Err e => fail_with (wrapped_ "generating encryption key" e)
  | Ok bytes =>
      Ret (Ok {| encryptKey := String.string_of_list_ascii (vec_to_list bytes); credentials := None;
                 lastRefresh := GoTime.zero_time; ttl := ttl |})
  end.

(** The test before each lookup, under the read lock. *)
Definition needs_refresh (now : Z) (s : SecureCredentialStore) : bool :=
  match credentials s with None => true | Some _ => (ttl s <? GoTime.Sub now (lastRefresh s))%Z end.

(** The test again, under the write lock: no clock is read when it is forced or
    there is nothing. *)
Definition still_valid (s : SecureCredentialStore) (force : bool) : prog cred_call bool :=
  if force then Ret false
  else
    match credentials s with
    | None => Ret false
    | Some _ => now ⟵ CredNow; Ret (GoTime.Sub now (lastRefresh s) <=? ttl s)%Z
    end.

Definition stored (s : SecureCredentialStore) (encVPC encIBM region : string) (now : Z) : SecureCredentialStore :=
  {| encryptKey := encryptKey s;
     credentials := Some {| vpcAPIKey := Some encVPC; ibmAPIKey := Some encIBM; enc_region := region |};
     lastRefresh := now; ttl := ttl s |}.

(** The old ciphertexts are overwritten and dropped. *)
Definition refreshCredentials (s : SecureCredentialStore) (force : bool) : prog cred_call (SecureCredentialStore * err) :=
  bind (still_valid s force) (λ valid,
  if valid then Ret (s, None)
  else
    answer ⟵ GetCredentials;
    match answer with
    | Err e => Ret (s, Some (wrapped_ "getting credentials from provider" e))
    | Ok creds =>
        bind (encrypt (encryptKey s) (VPCAPIKey creds)) (λ answer,
        match answer with
        | Err e => Ret (s, Some (wrapped_ "encrypting VPC API key" e))
        | Ok encVPC =>
            bind (encrypt (encryptKey s) (IBMAPIKey creds)) (λ answer,
            match answer with
            | Err e => Ret (s, Some (wrapped_ "encrypting IBM API key" e))
            | Ok encIBM => now ⟵ CredNow; Ret (stored s encVPC encIBM (cred_Region creds) now, None)
            end)
        end)
    end).

Definition RotateCredentials (s : SecureCredentialStore) : prog cred_call (SecureCredentialStore * err) :=
  refreshCredentials s true.

Definition ClearCredentials (s : SecureCredentialStore) : SecureCredentialStore :=
  {| encryptKey := encryptKey s; credentials := None; lastRefresh := GoTime.zero_time; ttl := ttl s |}.

(** What each lookup reads at the end, under the read lock. *)
Definition read_key (field : encryptedCredentials → option string) (what : string) (s : SecureCredentialStore)
    : result GoErrors.error string :=
  match credentials s ≫= field with
  | None => Err (GoErrors.New (what ++ " API key not available"))
  | Some ciphertext =>
      match decrypt (encryptKey s) ciphertext with
      | Ok plaintext => Ok plaintext
      | Err e => Err (wrapped_ ("decrypting " ++ what ++ " API key") e)
      end
  end.
Definition read_vpc : SecureCredentialStore → result GoErrors.error string := read_key vpcAPIKey "VPC".
Definition read_ibm : SecureCredentialStore → result GoErrors.error string := read_key ibmAPIKey "IBM".
Definition read_region (s : SecureCredentialStore) : result GoErrors.error string :=
  match credentials s with
  | None => Err (GoErrors.New "credentials not available")
  | Some c => Ok (enc_region c)
  end.

(** A lookup with nothing in between its three parts. *)
Definition lookup_credential (read : SecureCredentialStore → result GoErrors.error string) (s : SecureCredentialStore)
    : prog cred_call (SecureCredentialStore * result GoErrors.error string) :=
  bind (match credentials s with None => Ret true | Some _ => now ⟵ CredNow; Ret (needs_refresh now s) end) (λ stale,
  if stale then
    bind (refreshCredentials s false) (λ '(s', e),
    match e with
    | Some e => Ret (s', Err (wrapped_ "refreshing credentials" e))
    | None => Ret (s', read s')
    end)
  else Ret (s, read s)).

Definition GetVPCAPIKey := lookup_credential read_vpc.
Definition GetIBMAPIKey := lookup_credential read_ibm.
Definition GetRegion := lookup_credential read_region.
End store.

(** ** The providers *)

(** The environment, where a variable that is not set is empty. *)
Definition EnvironmentCredentials (env : string → string) : result GoErrors.error Credentials :=
  if empty (env "VPC_API_KEY") then Err (GoErrors.New "VPC_API_KEY environment variable is required")
  else if empty (env "IBMCLOUD_API_KEY") then Err (GoErrors.New "IBMCLOUD_API_KEY environment variable is required")
  else if empty (env "IBMCLOUD_REGION") then Err (GoErrors.New "IBMCLOUD_REGION environment variable is required")
  else Ok {| VPCAPIKey := env "VPC_API_KEY"; IBMAPIKey := env "IBMCLOUD_API_KEY"; cred_Region := env "IBMCLOUD_REGION" |}.

Definition KubernetesSecretCredentials (namespace name : string) : creds Credentials :=
  answer ⟵ GetSecret namespace name;
  match answer with
  | Err e => fail_with (wrapped_ ("getting secret " ++ namespace ++ "/" ++ name) e)
  | Ok data =>
      match data !! "vpcApiKey", data !! "ibmApiKey", data !! "region" with
      | None, _, _ => fail "vpcApiKey not found in secret"
      | _, None, _ => fail "ibmApiKey not found in secret"
      | _, _, None => fail "region not found in secret"
      | Some vpc, Some ibm, Some region => Ret (Ok {| VPCAPIKey := vpc; IBMAPIKey := ibm; cred_Region := region |})
      end
  end.

Definition Base64Credentials : creds Credentials :=
  answer ⟵ GetCredentials;
  match answer with
  | Err e => fail_with e
  | Ok creds =>
      match decode_base64 Base64.StdEncoding (VPCAPIKey creds) with
      | Err e => fail_with (wrapped_ "decoding VPC API key" e)
      | Ok vpc =>
          match decode_base64 Base64.StdEncoding (IBMAPIKey creds) with
          | Err e => fail_with (wrapped_ "decoding IBM API key" e)
          | Ok ibm => Ret (Ok {| VPCAPIKey := vpc; IBMAPIKey := ibm; cred_Region := cred_Region creds |})
          end
      end
  end.
End Keys.

(** ** IAM tokens *)
Module Iam.

Record TokenResponse := {
  AccessToken : string;
  ExpiresIn : Z;
}.

Inductive iam_call : Type → Type :=
  | RequestToken : iam_call (result GoErrors.error TokenResponse)
  | IamNow : iam_call Z.

(** [expiry] is the zero time in a new client. *)
Record IAMClient := {
  token : string;
  expiry : Z;
}.
Definition NewIAMClient : IAMClient := {| token := ""; expiry := GoTime.zero_time |}.

Definition refreshMargin : Z := 300.
Definition minExpiry : Z := (60 * GoTime.Second)%Z.

(** Both the difference and the product are int64. *)
Definition lifetime (expiresIn : Z) : Z :=
  Z.max minExpiry (Retry.wrap64 (Retry.wrap64 (expiresIn - refreshMargin) * GoTime.Second)).

Definition request (c : IAMClient) : prog iam_call (IAMClient * result GoErrors.error string) :=
  answer ⟵ RequestToken;
  match answer with
  | Err e => Ret (c, Err (wrapped_ "getting IAM token" e))
  | Ok response =>
      now ⟵ IamNow;
      Ret ({| token := AccessToken response; expiry := GoTime.Add now (lifetime (ExpiresIn response)) |},
           Ok (AccessToken response))
  end.

Definition GetToken (c : IAMClient) : prog iam_call (IAMClient * result GoErrors.error string) :=
  if negb (empty (token c)) then
    now ⟵ IamNow;
    if GoTime.Before now (expiry c) then Ret (c, Ok (token c)) else request c
  else request c.
End Iam.

(** ** The account of a credential *)
Module Identity.

(** What the code uses of [encoding/json]: the algorithm of a token's header and
    the account of its payload. *)
Class TokenJSON := {
  Algorithm : string → option string;
  AccountOf : string → option string;
}.

Inductive identity_call : Type → Type :=
  (* the HTTP client of IAM; the request for an API key, with the status of the
     answer to one that failed; whether the context ended *)
  | NewIdentityService : identity_call err
  | BuildRequest (apiKey : string) : identity_call err
  | RequestIdentity : identity_call (result (option Z) string)
  | ContextErr : identity_call err.

Definition ibmAccountIDPattern : pattern := [Exactly is_hex_lower 32].

(** What [identity.go] keeps in the client: the service and the account. *)
Record identity := {
  identityService : bool;
  identityAccount : string;
}.

Section identity.
Context `{TokenJSON}.

Definition valid_header (header : string) : bool :=
  match Base64.DecodeString Base64.RawURLEncoding header ≫= Algorithm with
  | Some alg => negb (empty alg) && negb (String.eqb (ToLower alg) "none")
  | None => false
  end.

Definition accountFromIAMToken (token : string) : result GoErrors.error string :=
  match Split token "."%char with
  | [header; payload; signature] =>
      if empty header || empty payload || empty signature
      then Err (GoErrors.New "credential identity response has an invalid access token")
      else if negb (valid_header header) then Err (GoErrors.New "credential identity response has an invalid token header")
      else
        match Base64.DecodeString Base64.RawURLEncoding payload with
        | None => Err (GoErrors.New "credential identity response has an invalid token payload")
        | Some payload =>
            match Base64.DecodeString Base64.RawURLEncoding signature with
            | None => Err (GoErrors.New "credential identity response has an invalid token signature")
            | Some _ =>
                match AccountOf payload with
                | Some id =>
                    if MatchString ibmAccountIDPattern id then Ok id
                    else Err (GoErrors.New "credential identity response has no valid account ID")
                | None => Err (GoErrors.New "credential identity response has no valid account ID")
                end
            end
        end
  | _ => Err (GoErrors.New "credential identity response has an invalid access token")
  end.

Definition verifying : string := "verifying VPC credential account".

(** The request, when the service is there. *)
Definition request_account (apiKey : string) (s : identity) : prog identity_call (identity * result GoErrors.error string) :=
  e ⟵ BuildRequest apiKey;
  match e with
  | Some e => Ret (s, Err e)
  | None =>
      answer ⟵ RequestIdentity;
      match answer with
      | Err status =>
          ended ⟵ ContextErr;
          match ended, status with
          | Some e, _ => Ret (s, Err (wrapped_ verifying e))
          | None, Some code =>
              Ret (s, Err (GoErrors.New (verifying ++ ": IAM token request failed with HTTP status " ++ Strconv.Itoa code)))
          | None, None => Ret (s, Err (GoErrors.New (verifying ++ ": IAM token request failed")))
          end
      | Ok accessToken =>
          match accountFromIAMToken accessToken with
          | Err e => Ret (s, Err e)
          | Ok accountID => Ret ({| identityService := identityService s; identityAccount := accountID |}, Ok accountID)
          end
      end
  end.

Definition ResolveAccountID (apiKey : string) (s : identity) : prog identity_call (identity * result GoErrors.error string) :=
  if negb (empty (identityAccount s)) then Ret (s, Ok (identityAccount s))
  else if empty apiKey then
    Ret (s, Err (GoErrors.New "VPC credential account cannot be verified without an API key"))
  else if identityService s then request_account apiKey s
  else
    e ⟵ NewIdentityService;
    match e with
    | Some e => Ret (s, Err (wrapped_ "creating credential identity client" e))
    | None => request_account apiKey {| identityService := true; identityAccount := identityAccount s |}
    end.
End identity.
End Identity.

(** ** The IBM client *)
Module IbmClient.

(** [NewClient]: the store, and what it reads of it and of the environment. *)
Inductive client_call : Type → Type :=
  | OfKeys {R : Type} (e : Keys.cred_call R) : client_call R
  | OfIam {R : Type} (e : Iam.iam_call R) : client_call R
  (* a Resource Manager client with the token; its groups, by name and identity *)
  | NewResourceManager (token : string) : client_call err
  | ListResourceGroups : client_call (result GoErrors.error (list (option string * option string)))
  (* the VPC client and the instance it gets *)
  | ClVPCClient : client_call err
  | ClGetInstance (id : string) : client_call err.

Record Client := {
  vpcURL : string;
  vpcAuthType : string;
  cl_region : string;
  credStore : Keys.SecureCredentialStore;
  iamKey : string;
}.

Local Abbreviation cl A := (prog client_call (result GoErrors.error A)).

Section client.
Context `{Keys.AEAD}.

Definition of_keys {A} (q : prog Keys.cred_call A) : prog client_call A := embed (λ R e, OfKeys e) q.
Definition of_iam {A} (q : prog Iam.iam_call A) : prog client_call A := embed (λ R e, OfIam e) q.

Definition or_default (value default_ : string) : string := if empty value then default_ else value.

Definition NewClient (env : string → string) : cl Client :=
  bind (of_keys (Keys.NewSecureCredentialStore (12 * GoTime.Hour))) (λ answer,
  match answer with
  | Err e => fail_with (wrapped_ "creating secure credential store" e)
  | Ok store =>
      bind (of_keys (Keys.GetRegion store)) (λ '(store, answer),
      match answer with
      | Err e => fail_with (wrapped_ "getting region" e)
      | Ok region =>
          bind (of_keys (Keys.GetIBMAPIKey store)) (λ '(store, answer),
          match answer with
          | Err e => fail_with (wrapped_ "getting IBM API key" e)
          | Ok ibmAPIKey =>
              Ret (Ok {| vpcURL := or_default (env "VPC_URL") ("https://" ++ region ++ ".iaas.cloud.ibm.com/v1");
                         vpcAuthType := or_default (env "VPC_AUTH_TYPE") "iam";
                         cl_region := region; credStore := store; iamKey := ibmAPIKey |})
          end)
      end)
  end).
End client.

(** The first group of the name that has an identity. *)
Definition group_id (name : string) (groups : list (option string * option string)) : option string :=
  head (omap (λ g, if bool_decide (g.1 = Some name) then g.2 else None) groups).

Definition GetResourceGroupIDByName (c : Iam.IAMClient) (resourceGroupName : string)
    : prog client_call (Iam.IAMClient * result GoErrors.error string) :=
  bind (of_iam (Iam.GetToken c)) (λ '(c, answer),
  match answer with
  | Err e => Ret (c, Err (wrapped_ "getting IAM token" e))
  | Ok token =>
      e ⟵ NewResourceManager token;
      match e with
      | Some e => Ret (c, Err (wrapped_ "creating resource manager client" e))
      | None =>
          answer ⟵ ListResourceGroups;
          match answer with
          | Err e => Ret (c, Err (wrapped_ "listing resource groups" e))
          | Ok groups =>
              match group_id resourceGroupName groups with
              | Some id => Ret (c, Ok id)
              | None => Ret (c, Err (GoErrors.New ("resource group '" ++ resourceGroupName ++ "' not found")))
              end
          end
      end
  end).

Definition containsAnyString (s : string) (substrings : list string) : bool := existsb (Contains s) substrings.

Definition containsNotFoundError (e : err) : bool :=
  match e with
  | None => false
  | Some e => containsAnyString (GoErrors.Error e) ["not found"; "404"; "Not Found"; "does not exist"; "cannot be found"]
  end.

Definition VPCInstanceExists (instanceID : string) : cl bool :=
  e ⟵ ClVPCClient;
  match e with
  | Some e => fail_with (wrapped_ "getting VPC client" e)
  | None =>
      e ⟵ ClGetInstance instanceID;
      match e with
      | None => Ret (Ok true)
      | Some err =>
          if containsNotFoundError (Some err) then Ret (Ok false)
          else fail_with (wrapped_ "checking VPC instance existence" err)
      end
  end.
End IbmClient.

(** ** Theorems *)
Local Open Scope list_scope.
Local Open Scope nat_scope.

Module KeysSpec.
Import Keys.

Section spec.
Context `{AEADLaws}.

Local Abbreviation key_history := (history cred_call).

(** What the provider gave in a run, and the clock's readings, from one time to
    another. *)
Definition answered (ev : event cred_call) : option Credentials :=
  match ev with Did e answer =>
    match e in cred_call R return R → option Credentials with
    | GetCredentials => λ answer, match answer with Ok creds => Some creds | Err _ => None end
    | _ => λ _, None
    end answer end.

Definition clock_of (ev : event cred_call) : option Z :=
  match ev with Did e answer => match e in cred_call R return R → option Z with CredNow => Some | _ => λ _, None end answer end.

Fixpoint clocked (from : Z) (tr : key_history) (to : Z) : Prop :=
  match tr with
  | [] => (from ≤ to)%Z
  | ev :: tr' => match clock_of ev with Some now => (from ≤ now)%Z ∧ clocked now tr' to | None => clocked from tr' to end
  end.

(** The ciphertexts are those of the credentials. *)
Record holds (key : string) (c : encryptedCredentials) (creds : Credentials) : Prop := {
  holds_vpc : ∃ ciphertext, vpcAPIKey c = Some ciphertext ∧ decrypt key ciphertext = Ok (VPCAPIKey creds);
  holds_ibm : ∃ ciphertext, ibmAPIKey c = Some ciphertext ∧ decrypt key ciphertext = Ok (IBMAPIKey creds);
  holds_region : enc_region c = cred_Region creds;
}.

Lemma clocked_le from tr to : clocked from tr to → (from ≤ to)%Z.
Proof.
  revert from. induction tr as [|ev tr IH]; intros from; cbn; [done|]. destruct (clock_of ev) as [now|]; [|apply IH].
  intros [? ?%IH]. lia.
Qed.

Lemma decrypt_encrypted key (bytes : vec ascii NonceSize) plaintext : String.length key = 32 →
  let nonce := String.string_of_list_ascii (vec_to_list bytes) in
  decrypt key (nonce ++ Seal key nonce plaintext)%string = Ok plaintext.
Proof.
  intros Hkey nonce. unfold decrypt. rewrite NewGCM_key by done.
  assert (Hn : String.length nonce = NonceSize).
  { unfold nonce. clear. induction bytes as [|b n bytes IH]; cbn; [done|]. by rewrite IH. }
  rewrite Strings.length_app, <-Hn, take_app, drop_app.
  assert (E : (String.length nonce + String.length (Seal key nonce plaintext) <? String.length nonce) = false)
    by (apply Nat.ltb_ge; lia).
  rewrite E. by apply Open_Seal, NewGCM_key.
Qed.

(** An encryption adds neither a provider's answer nor a reading of the clock. *)
Lemma encrypt_runs key plaintext tr r from rest to : String.length key = 32 → runs (encrypt key plaintext) tr r →
  omap answered tr = [] ∧ (clocked from (tr ++ rest) to → clocked from rest to) ∧
  match r with Ok ciphertext => decrypt key ciphertext = Ok plaintext | Err _ => True end.
Proof.
  intros Hkey. unfold encrypt. rewrite NewGCM_key by done. intros ([bytes|e] & tr' & -> & -> & <-); [|done].
  split_and!; [done|done|]. by apply decrypt_encrypted.
Qed.

(** What a refresh does. *)
Lemma refresh_runs s force tr s' e from to : String.length (encryptKey s) = 32 →
  runs (refreshCredentials s force) tr (s', e) → clocked from tr to →
  (s' = s ∧ is_Some e) ∨
  (s' = s ∧ e = None ∧ omap answered tr = [] ∧ is_Some (credentials s) ∧
     ∃ now, (from ≤ now)%Z ∧ (GoTime.Sub now (lastRefresh s) ≤ ttl s)%Z) ∨
  (e = None ∧ ∃ c creds, omap answered tr = [creds] ∧ credentials s' = Some c ∧ encryptKey s' = encryptKey s ∧
     ttl s' = ttl s ∧ holds (encryptKey s) c creds ∧ (from ≤ lastRefresh s' ≤ to)%Z).
Proof.
  intros Hkey Hrun Hclock. unfold refreshCredentials in Hrun. apply runs_bind in Hrun as (tr1 & tr2 & valid & -> & Hv & Hr).
  assert (Hv' : (valid = true ∧ omap answered tr1 = [] ∧ is_Some (credentials s) ∧
      ∃ now, (from ≤ now)%Z ∧ (GoTime.Sub now (lastRefresh s) ≤ ttl s)%Z) ∨
    (valid = false ∧ omap answered tr1 = [] ∧ ∃ from', (from ≤ from')%Z ∧ clocked from' tr2 to)).
  { unfold still_valid in Hv. destruct force; [destruct Hv as [-> <-]; right; split_and!; try done; by exists from|].
    destruct (credentials s); [|destruct Hv as [-> <-]; right; split_and!; try done; by exists from].
    destruct Hv as (now & tr' & -> & -> & <-). cbn in Hclock. destruct Hclock as [Hle Hclock].
    destruct (Z.leb_spec (GoTime.Sub now (lastRefresh s)) (ttl s)); [left|right]; eauto 10. }
  destruct Hv' as [(-> & Ha & Hs & Hn)|(-> & Ha & from' & Hle & Hc)].
  { destruct Hr as [-> [= <- <-]]. right; left. by rewrite (right_id_L [] (++)). }
  rewrite omap_app, Ha. cbn [app]. clear Hv Ha Hclock tr1.
  destruct Hr as ([creds|err] & tr3 & -> & Hr); [|destruct Hr as [-> [= <- <-]]; left; by eauto].
  apply runs_bind in Hr as (tr4 & tr5 & [encVPC|err] & -> & He1 & Hr); [|destruct Hr as [-> [= <- <-]]; left; by eauto].
  apply runs_bind in Hr as (tr6 & tr7 & [encIBM|err] & -> & He2 & Hr); [|destruct Hr as [-> [= <- <-]]; left; by eauto].
  destruct Hr as (now & tr8 & -> & -> & [= <- <-]).
  destruct (encrypt_runs _ _ _ _ from' (tr6 ++ [Did CredNow now]) to Hkey He1) as (Ha1 & Hc1 & Hd1).
  destruct (encrypt_runs _ _ _ _ from' [Did CredNow now] to Hkey He2) as (Ha2 & Hc2 & Hd2).
  cbn in Hc. apply Hc1, Hc2 in Hc. cbn in Hc. right; right. split; [done|].
  eexists _, creds. cbn [omap list_omap answered]. rewrite !omap_app, Ha1, Ha2. cbn. split_and!; try done; try lia.
  split; cbn; [by exists encVPC|by exists encIBM|done].
Qed.

(** *** The store in use

    The sections that hold the lock, in any order, by any thread, as time goes on;
    [given] is what the provider gave and when it was stored. *)
Record sys := {
  store : SecureCredentialStore;
  time : Z;
  given : list (Z * Credentials);
}.

Inductive section_ : sys → err → sys → Prop :=
  | waits s now : (time s ≤ now)%Z → section_ s None {| store := store s; time := now; given := given s |}
  | refreshes s force tr s' e now :
      runs (refreshCredentials (store s) force) tr (s', e) → clocked (time s) tr now →
      section_ s e {| store := s'; time := now;
        given := match e with Some _ => [] | None => pair (lastRefresh s') <$> omap answered tr end ++ given s |}
  | clears s : section_ s None {| store := ClearCredentials (store s); time := time s; given := given s |}.

Definition step (s s' : sys) : Prop := ∃ e, section_ s e s'.

(** A lookup among them: its test, its refresh and its reading. *)
Inductive lookup_run {A} (read : SecureCredentialStore → result GoErrors.error A) : sys → result GoErrors.error A → sys → Prop :=
  | lookup_fresh s now s' : (time s ≤ now)%Z → needs_refresh now (store s) = false →
      rtc step {| store := store s; time := now; given := given s |} s' → lookup_run read s (read (store s')) s'
  | lookup_failed s now s1 tr st e s' : (time s ≤ now)%Z → needs_refresh now (store s) = true →
      rtc step {| store := store s; time := now; given := given s |} s1 →
      runs (refreshCredentials (store s1) false) tr (st, Some e) →
      lookup_run read s (Err (wrapped_ "refreshing credentials" e)) s'
  | lookup_refreshed s now s1 tr st now' s' : (time s ≤ now)%Z → needs_refresh now (store s) = true →
      rtc step {| store := store s; time := now; given := given s |} s1 →
      runs (refreshCredentials (store s1) false) tr (st, None) → clocked (time s1) tr now' →
      rtc step {| store := st; time := now';
        given := (pair (lastRefresh st) <$> omap answered tr) ++ given s1 |} s' →
      lookup_run read s (read (store s')) s'.

(** A lookup that runs alone is such a run: its parts are those of
    [lookup_credential]. *)
Lemma lookup_alone read s tr st r now :
  runs (lookup_credential read (store s)) tr (st, r) → clocked (time s) tr now →
  ∃ s', lookup_run read s r s' ∧ (is_ok r → store s' = st).
Proof.
  intros Hrun Hclock. unfold lookup_credential in Hrun. apply runs_bind in Hrun as (tr1 & tr2 & stale & -> & Ht & Hrun).
  assert (Hnow : ∃ now1, (time s ≤ now1)%Z ∧ needs_refresh now1 (store s) = stale ∧ clocked now1 tr2 now).
  { destruct (credentials (store s)) eqn:E.
    - destruct Ht as (now1 & tr' & -> & -> & <-). destruct Hclock as [Hle Hclock]. by exists now1.
    - destruct Ht as [-> <-]. exists (time s). unfold needs_refresh. by rewrite E. }
  clear Ht Hclock. destruct Hnow as (now1 & Hle & Hn & Hclock). set (s1 := {| store := store s; time := now1; given := given s |}).
  destruct stale.
  - apply runs_bind in Hrun as (tr3 & tr4 & [st' [e|]] & -> & Href & [-> Hret]);
      rewrite (right_id_L [] (++)) in Hclock; injection Hret as <- <-.
    + exists s1. split; [|done]. by eapply (lookup_failed read s now1 s1).
    + pose proof (lookup_refreshed read s now1 s1 _ _ now _ Hle Hn (rtc_refl _ _) Href Hclock (rtc_refl _ _)) as Hl.
      eexists. split; [exact Hl|done].
  - destruct Hrun as [-> [= <- <-]]. exists s1. split; [|done]. exact (lookup_fresh read s now1 s1 Hle Hn (rtc_refl _ _)).
Qed.

(** The invariant, and that nothing older than [since] is kept. *)
Record well_kept (since : Z) (s : sys) : Prop := {
  kept_key : String.length (encryptKey (store s)) = 32;
  kept_creds : ∀ c, credentials (store s) = Some c → ∃ creds, (lastRefresh (store s), creds) ∈ given s ∧
    holds (encryptKey (store s)) c creds ∧ (since ≤ lastRefresh (store s) ≤ time s)%Z;
  kept_time : (since ≤ time s)%Z;
}.

Lemma section_well_kept since s e s' : section_ s e s' → well_kept since s → well_kept since s' ∧ ttl (store s') = ttl (store s).
Proof.
  intros Hs [Hk Hc Ht]. destruct Hs as [s now Hle|s force tr st e now Hrun Hclock|s].
  - split; [|done]. split; cbn; [done| |lia]. intros c Hcr. destruct (Hc c Hcr) as (creds & ? & ? & ?).
    exists creds. split_and!; try done; lia.
  - pose proof (clocked_le _ _ _ Hclock) as Hle.
    destruct (refresh_runs _ _ _ _ _ _ _ Hk Hrun Hclock) as [[-> [e' ->]]|[(-> & -> & Ha & _)|(-> & c & creds & Ha & Hcr & Hek & Htt & Hh & Hl)]].
    + split; [|done]. split; cbn; [done| |lia]. intros c Hcr. destruct (Hc c Hcr) as (creds & ? & ? & ?).
      exists creds. split_and!; try done; lia.
    + split; [|done]. rewrite Ha. split; cbn; [done| |lia]. intros c Hcr. destruct (Hc c Hcr) as (creds & ? & ? & ?).
      exists creds. split_and!; try done; lia.
    + split; [|done]. rewrite Ha. split; cbn; [by rewrite Hek| |lia]. intros c' Hcr'. rewrite Hcr in Hcr'.
      injection Hcr' as <-. exists creds. rewrite Hek. split_and!; [by left|done|lia|lia].
  - split; [|done]. split; cbn; done.
Qed.

Lemma steps_well_kept since s s' : rtc step s s' → well_kept since s → well_kept since s' ∧ ttl (store s') = ttl (store s).
Proof.
  induction 1 as [s|s1 s2 s3 [e Hs] _ IH]; [done|]. intros Hw. destruct (section_well_kept _ _ _ _ Hs Hw) as [Hw2 <-]. by apply IH.
Qed.

Lemma steps_time s s' : rtc step s s' → (time s ≤ time s')%Z.
Proof.
  induction 1 as [s|s1 s2 s3 [e Hs] _ IH]; [done|]. etrans; [|exact IH].
  destruct Hs as [|? ? ? ? ? ? ? Hc|]; cbn; [done|by apply clocked_le in Hc|done].
Qed.

(** A new store is empty. *)
Lemma new_store_well_kept now ttl tr st :
  runs (NewSecureCredentialStore ttl) tr (Ok st) → well_kept now {| store := st; time := now; given := [] |}.
Proof.
  intros ([bytes|e] & tr' & -> & Hr); [|by destruct Hr]. destruct Hr as [_ [= <-]]. split; cbn; [|done|done].
  rewrite <-(length_vec_to_list bytes) at 2. generalize (vec_to_list bytes) as l. induction l as [|b l IH]; cbn; [done|]. by rewrite IH.
Qed.

(** The lookups, and what they are of. *)
Inductive looks_up : (SecureCredentialStore → result GoErrors.error string) → (Credentials → string) → Prop :=
  | looks_vpc : looks_up read_vpc VPCAPIKey
  | looks_ibm : looks_up read_ibm IBMAPIKey
  | looks_region : looks_up read_region cred_Region.

Lemma read_held read field since s a : looks_up read field → well_kept since s → read (store s) = Ok a →
  ∃ creds, (lastRefresh (store s), creds) ∈ given s ∧ a = field creds ∧ (since ≤ lastRefresh (store s))%Z.
Proof.
  intros Hl [_ Hc _] Hr.
  destruct (credentials (store s)) as [c|] eqn:Ec.
  2:{ destruct Hl; unfold read_vpc, read_ibm, read_key, read_region in Hr; by rewrite Ec in Hr. }
  destruct (Hc c eq_refl) as (creds & Hin & [(v & Ev & Dv) (i & Ei & Di) Hreg] & Hs). exists creds. split; [done|]. split; [|lia].
  destruct Hl; unfold read_vpc, read_ibm, read_key, read_region in Hr; rewrite Ec in Hr; cbn in Hr.
  - rewrite Ev, Dv in Hr. by injection Hr as <-.
  - rewrite Ei, Di in Hr. by injection Hr as <-.
  - by injection Hr as <-.
Qed.

Lemma Sub_le t u d : (d < GoTime.max_duration)%Z → (GoTime.Sub t u ≤ d)%Z → (t - d ≤ u)%Z.
Proof. unfold GoTime.Sub, GoTime.max_duration, GoTime.min_duration. lia. Qed.

(** Raising the bound: what is kept is already that recent. *)
Lemma well_kept_since since since' s : well_kept since s → (since' ≤ time s)%Z →
  (credentials (store s) = None ∨ (since' ≤ lastRefresh (store s))%Z) → well_kept since' s.
Proof.
  intros [Hk Hc Ht] Hle Hs. split; [done| |done]. intros c Hcr. destruct (Hc c Hcr) as (creds & ? & ? & ?).
  exists creds. split_and!; try done; [|lia]. destruct Hs as [Hs|]; [by rewrite Hs in Hcr|done].
Qed.

(** C25. Among any calls of any threads, a lookup that succeeds returns what the
    provider gave, unchanged by the encryption, and it was stored no longer than
    the time to live before the lookup began, or after; so a key that was
    withdrawn is not used longer than that, and one that was cleared is asked for
    again. *)
Theorem credentials_are_recent read field since s r s' (Hfield : looks_up read field)
    (Hkept : well_kept since s) (Httl : (0 ≤ ttl (store s) < GoTime.max_duration)%Z) (Hrun : lookup_run read s r s') :
  match r with
  | Ok a => ∃ stored_at creds, (stored_at, creds) ∈ given s' ∧ a = field creds ∧ (time s - ttl (store s) ≤ stored_at)%Z
  | Err _ => True
  end.
Proof.
  assert (Hwait : ∀ now, (time s ≤ now)%Z → well_kept since {| store := store s; time := now; given := given s |}).
  { intros now Hle. by apply (section_well_kept since s None); [constructor|]. }
  destruct Hrun as [s now s' Hle Hn Hsteps| |s now s1 tr st now' s' Hle Hn Hsteps Href Hclock Hsteps']; [|done|].
  - destruct (read (store s')) as [a|] eqn:Er; [|done].
    assert (Hw : well_kept (time s - ttl (store s)) {| store := store s; time := now; given := given s |}).
    { apply (well_kept_since since); [by apply Hwait|cbn; lia|]. cbn. unfold needs_refresh in Hn.
      destruct (credentials (store s)); [|by left]. right. apply Z.ltb_ge, Sub_le in Hn; lia. }
    destruct (steps_well_kept _ _ _ Hsteps Hw) as [Hw' _].
    destruct (read_held _ _ _ _ _ Hfield Hw' Er) as (creds & ? & ? & ?). by eexists _, creds.
  - destruct (read (store s')) as [a|] eqn:Er; [|done].
    destruct (steps_well_kept _ _ _ Hsteps (Hwait now Hle)) as [Hw1 Ht1]. cbn in Ht1.
    assert (Htime : (now ≤ time s1)%Z).
    { by apply steps_time in Hsteps. }
    assert (Hs1 : section_ s1 None {| store := st; time := now';
      given := (pair (lastRefresh st) <$> omap answered tr) ++ given s1 |}) by (by apply (refreshes s1 false tr st None)).
    destruct (section_well_kept _ _ _ _ Hs1 Hw1) as [Hw2 Ht2]. cbn in Ht2.
    assert (Hrec : (time s - ttl (store s) ≤ lastRefresh st)%Z).
    { destruct (refresh_runs _ _ _ _ _ _ _ (kept_key _ _ Hw1) Href Hclock) as [[_ [? ?]]|[(-> & _ & _ & _ & n & Hle' & Hsub)|(_ & c & creds & _ & _ & _ & _ & _ & Hl)]]; [done| |lia].
      apply Sub_le in Hsub; lia. }
    pose proof (clocked_le _ _ _ Hclock).
    assert (Hw3 : well_kept (time s - ttl (store s)) {| store := st; time := now';
      given := (pair (lastRefresh st) <$> omap answered tr) ++ given s1 |}).
    { apply (well_kept_since since); [done|cbn; lia|by right]. }
    destruct (steps_well_kept _ _ _ Hsteps' Hw3) as [Hw4 _].
    destruct (read_held _ _ _ _ _ Hfield Hw4 Er) as (creds & ? & ? & ?). by eexists _, creds.
Qed.
(** A provider of encoded keys, decoded. *)
Theorem base64_credentials_decoded vpc ibm region tr r
    (Hrun : runs Base64Credentials tr r)
    (Hanswer : tr = [Did GetCredentials (Ok {| VPCAPIKey := Base64.EncodeToString Base64.StdEncoding vpc;
       IBMAPIKey := Base64.EncodeToString Base64.StdEncoding ibm; cred_Region := region |})]) :
  r = Ok {| VPCAPIKey := vpc; IBMAPIKey := ibm; cred_Region := region |}.
Proof.
  unfold Base64Credentials in Hrun. destruct Hrun as ([creds|e] & tr' & -> & Hr).
  2:{ apply (f_equal (omap answered)) in Hanswer. cbn in Hanswer. destruct Hr as [-> _]. discriminate Hanswer. }
  assert (Hc : creds = {| VPCAPIKey := Base64.EncodeToString Base64.StdEncoding vpc;
    IBMAPIKey := Base64.EncodeToString Base64.StdEncoding ibm; cred_Region := region |}).
  { apply (f_equal (omap answered)) in Hanswer. cbn in Hanswer. by injection Hanswer. }
  rewrite Hc in Hr. unfold decode_base64 in Hr. cbn [VPCAPIKey IBMAPIKey cred_Region] in Hr.
  rewrite !(Base64.decode_string_encode _ Base64.Std_proper) in Hr. by destruct Hr as [_ <-].
Qed.
End spec.

(** A cipher that hides nothing, and a provider whose keys change. *)
#[local] Instance plain_aead : AEAD :=
  {| NewGCM key := if String.length key =? 32 then None else Some (GoErrors.New "invalid key size");
     NonceSize := 2; Seal _ _ p := p; Open _ _ c := Ok c |}.
#[local] Instance plain_laws : AEADLaws.
Proof. split; [intros key Hk; cbn; by rewrite Hk|done]. Qed.

Definition key_world (now : Z) (R : Type) (e : cred_call R) (n : nat) : R * nat :=
  match e in cred_call R return R * nat with
  | GetCredentials =>
      (Ok {| VPCAPIKey := String (ascii_of_nat (65 + n)) ""; IBMAPIKey := "ibm"; cred_Region := "us-south" |}%string, S n)
  | RandFull n' => (Ok (vreplicate n' "0"%char), n)
  | CredNow => (now, n)
  | GetSecret _ _ => (Err (GoErrors.New "not found"), n)
  end.

Definition new_store : SecureCredentialStore :=
  match (interp (key_world 0) (NewSecureCredentialStore (12 * GoTime.Hour)) 0).1.2 with
  | Ok s => s
  | Err _ => {| encryptKey := ""; credentials := None; lastRefresh := 0; ttl := 0 |}
  end.
Definition refresh0 := interp (key_world 0) (refreshCredentials new_store false) 0.
Definition after_half_day := interp (key_world (12 * GoTime.Hour)) (GetVPCAPIKey refresh0.1.2.1) 1.
Definition after_day := interp (key_world (13 * GoTime.Hour)) (GetVPCAPIKey refresh0.1.2.1) 1.

(** The key of the first refresh is used for twelve hours. *)
Lemma credentials_are_recent_witness :
  after_half_day.1.2.2 = Ok "A"%string ∧ after_day.1.2.2 = Ok "B"%string ∧
  ∃ stored_at creds, (stored_at, creds) ∈ (pair (lastRefresh refresh0.1.2.1) <$> omap answered refresh0.1.1) ++ [] ∧
    "A"%string = VPCAPIKey creds ∧ (0 - 12 * GoTime.Hour ≤ stored_at)%Z.
Proof.
  split; [vm_compute; reflexivity|]. split; [vm_compute; reflexivity|].
  assert (Hkept : well_kept 0 {| store := new_store; time := 0; given := [] |}).
  { assert (Hs : runs (NewSecureCredentialStore (12 * GoTime.Hour)) (interp (key_world 0) (NewSecureCredentialStore (12 * GoTime.Hour)) 0).1.1
      (Ok new_store)) by exact (interp_runs (key_world 0) (NewSecureCredentialStore (12 * GoTime.Hour)) 0).
    exact (new_store_well_kept 0 _ _ _ Hs). }
  assert (Href : runs (refreshCredentials new_store false) refresh0.1.1 (refresh0.1.2.1, None))
    by exact (interp_runs (key_world 0) (refreshCredentials new_store false) 0).
  assert (Hclock : clocked 0 refresh0.1.1 0) by (vm_compute; split; intros [=]).
  pose proof (lookup_refreshed read_vpc {| store := new_store; time := 0; given := [] |} 0
    {| store := new_store; time := 0; given := [] |} _ _ 0 _ (Z.le_refl 0) eq_refl (rtc_refl _ _) Href Hclock (rtc_refl _ _)) as Hl.
  assert (Httl : (0 ≤ ttl new_store < GoTime.max_duration)%Z) by (vm_compute; split; [intros [=]|reflexivity]).
  pose proof (credentials_are_recent read_vpc VPCAPIKey 0 _ _ _ looks_vpc Hkept Httl Hl) as Hr.
  assert (Hok : read_vpc refresh0.1.2.1 = Ok "A"%string) by (vm_compute; reflexivity).
  cbn [store] in Hr. rewrite Hok in Hr. destruct Hr as (stored_at & creds & Hin & Ha & Hle).
  exists stored_at, creds. split; [exact Hin|]. split; [exact Ha|]. exact Hle.
Defined.
End KeysSpec.

Module IamSpec.
Import Iam.

Local Abbreviation iam_history := (history iam_call).

Definition response_of (ev : event iam_call) : option TokenResponse :=
  match ev with Did e answer =>
    match e in iam_call R return R → option TokenResponse with
    | RequestToken => λ answer, match answer with Ok response => Some response | Err _ => None end
    | IamNow => λ _, None
    end answer end.
Definition reading (ev : event iam_call) : option Z :=
  match ev with Did e answer => match e in iam_call R return R → option Z with IamNow => Some | RequestToken => λ _, None end answer end.

(** The response of a run, with the last reading of the clock, which follows it. *)
Definition issues (tr : iam_history) : list (Z * TokenResponse) :=
  match omap response_of tr, last (omap reading tr) with [response], Some now => [(now, response)] | _, _ => [] end.

(** The clients that any sequence of calls leads to, with what IAM issued. *)
Inductive used : IAMClient → list (Z * TokenResponse) → Prop :=
  | unused : used NewIAMClient []
  | used_again c log tr c' r : used c log → runs (GetToken c) tr (c', r) → used c' (issues tr ++ log).

(** The token and its expiry are those of a response. *)
Definition cached (c : IAMClient) (log : list (Z * TokenResponse)) : Prop :=
  token c = ""%string ∨ ∃ at_ response, (at_, response) ∈ log ∧ token c = AccessToken response ∧
    expiry c = (at_ + lifetime (ExpiresIn response))%Z.

(** What a call returns: a token just issued, or one issued before with time
    left at a reading of the clock. *)
Definition lasting (log : list (Z * TokenResponse)) (tr : iam_history) (a : string) : Prop :=
  ∃ at_ response, (at_, response) ∈ issues tr ++ log ∧ a = AccessToken response ∧
    ((at_, response) ∈ issues tr ∨ ∃ now, asked tr IamNow now ∧ (now < at_ + lifetime (ExpiresIn response))%Z).

Lemma request_runs c before tr c' r log : runs (request c) tr (c', r) → omap response_of before = [] → cached c log →
  cached c' (issues (before ++ tr) ++ log) ∧
  match r with Ok a => lasting log (before ++ tr) a | Err _ => c' = c ∧ ∃ e, asked (before ++ tr) RequestToken (Err e) end.
Proof.
  intros Hrun Hb Hc. destruct Hrun as ([response|e] & tr' & -> & Hr).
  - destruct Hr as (now & tr'' & -> & -> & [= <- <-]).
    assert (Hi : issues (before ++ [Did RequestToken (Ok response); Did IamNow now]) = [(now, response)]).
    { unfold issues. rewrite !omap_app, Hb. cbn. by rewrite last_snoc. }
    rewrite Hi. split; [right; exists now, response; split_and!; [by left|done|done]|].
    exists now, response. rewrite Hi. split_and!; [by left|done|by left; left].
  - destruct Hr as [-> [= <- <-]].
    assert (Hi : issues (before ++ [Did RequestToken (Err e)]) = []).
    { unfold issues. by rewrite !omap_app, Hb. }
    rewrite Hi. split; [done|]. split; [done|]. exists e. apply elem_of_app. right. by left.
Qed.

Lemma get_token_runs c tr c' r log : runs (GetToken c) tr (c', r) → cached c log →
  cached c' (issues tr ++ log) ∧
  match r with Ok a => lasting log tr a | Err _ => c' = c ∧ ∃ e, asked tr RequestToken (Err e) end.
Proof.
  intros Hrun Hc. unfold GetToken, empty in Hrun. destruct (String.eqb_spec (token c) "") as [Ht|Ht]; cbn [negb] in Hrun.
  { by apply (request_runs c [] tr). }
  destruct Hrun as (now & tr' & -> & Hr). destruct (GoTime.Before now (expiry c)) eqn:Eb.
  - destruct Hr as [-> [= <- <-]]. split; [done|]. destruct Hc as [?|(at_ & response & Hin & Htok & Hexp)]; [done|].
    exists at_, response. split_and!; [done|done|]. right. exists now. split; [apply asked_here|].
    rewrite <-Hexp. by apply Z.ltb_lt.
  - by apply (request_runs c [Did IamNow now] tr').
Qed.

Lemma used_cached c log : used c log → cached c log.
Proof. induction 1 as [|c log tr c' r _ IH Hrun]; [by left|]. by apply (get_token_runs c tr c' r log). Qed.

(** Within int64, a token is kept until five minutes before its end, but for a
    minute at least. *)
Lemma lifetime_exact expiresIn : (0 ≤ expiresIn ≤ 9000000000)%Z →
  lifetime expiresIn = Z.max (60 * GoTime.Second) ((expiresIn - 300) * GoTime.Second)%Z.
Proof.
  intros Hr. unfold lifetime, minExpiry, refreshMargin.
  assert (Hw : ∀ z, (- 2 ^ 63 ≤ z < 2 ^ 63)%Z → Retry.wrap64 z = z).
  { intros z Hz. unfold Retry.wrap64. rewrite Z.mod_small; lia. }
  rewrite (Hw (expiresIn - 300)%Z) by lia. rewrite Hw; [done|]. unfold GoTime.Second, GoTime.Millisecond. lia.
Qed.

(** After any calls of [GetToken], a token it returns was issued in this call,
    or before, with more than five minutes left at a reading of the clock in
    this call when it was issued for six minutes or more; a call fails only when
    IAM refuses, and then changes nothing. *)
Theorem iam_token_lasts c log tr c' r (Hused : used c log) (Hrun : runs (GetToken c) tr (c', r)) :
  match r with
  | Ok a =>
      ∃ at_ response, (at_, response) ∈ issues tr ++ log ∧ a = AccessToken response ∧
        ((at_, response) ∈ issues tr ∨
         ∃ now, asked tr IamNow now ∧
           ((360 ≤ ExpiresIn response ≤ 9000000000)%Z → (now < at_ + (ExpiresIn response - 300) * GoTime.Second)%Z))
  | Err _ => c' = c ∧ ∃ e, asked tr RequestToken (Err e)
  end.
Proof.
  destruct (get_token_runs _ _ _ _ _ Hrun (used_cached _ _ Hused)) as [_ Hr]. destruct r as [a|e]; [|done].
  destruct Hr as (at_ & response & Hin & -> & Hl). exists at_, response. split_and!; [done|done|].
  destruct Hl as [?|(now & Hn & Hlt)]; [by left|right]. exists now. split; [done|]. intros Hr.
  rewrite lifetime_exact in Hlt by lia. unfold GoTime.Second, GoTime.Millisecond in *. lia.
Qed.

(** The minute at least is longer than a token issued for less lives. *)
Example short_token_outlives : lifetime 30 = (60 * GoTime.Second)%Z.
Proof. reflexivity. Qed.

(** IAM that issues tokens for an hour, at a time. *)
Definition iam_world (now : Z) (R : Type) (e : iam_call R) (issued : nat) : R * nat :=
  match e in iam_call R return R * nat with
  | RequestToken => (Ok {| AccessToken := String (ascii_of_nat (65 + issued)) ""; ExpiresIn := 3600 |}, S issued)
  | IamNow => (now, issued)
  end.
Definition first_call := interp (iam_world 0) (GetToken NewIAMClient) 0.
Definition second_call (now : Z) := interp (iam_world now) (GetToken first_call.1.2.1) 1.

Lemma iam_token_lasts_witness :
  (second_call (54 * GoTime.Minute)).1.2.2 = Ok "A"%string ∧ (second_call (55 * GoTime.Minute)).1.2.2 = Ok "B"%string ∧
  ∃ at_ response, (at_, response) ∈ issues (second_call (54 * GoTime.Minute)).1.1 ++ issues first_call.1.1 ++ [] ∧
    AccessToken response = "A"%string.
Proof.
  split; [vm_compute; reflexivity|]. split; [vm_compute; reflexivity|].
  assert (Hu : used first_call.1.2.1 (issues first_call.1.1 ++ [])).
  { apply (used_again NewIAMClient [] first_call.1.1 _ first_call.1.2.2); [constructor|].
    rewrite <-surjective_pairing. exact (interp_runs (iam_world 0) (GetToken NewIAMClient) 0). }
  pose proof (interp_runs (iam_world (54 * GoTime.Minute)) (GetToken first_call.1.2.1) 1) as Hr.
  rewrite (surjective_pairing (interp (iam_world (54 * GoTime.Minute)) (GetToken first_call.1.2.1) 1).1.2) in Hr.
  pose proof (iam_token_lasts _ _ _ _ _ Hu Hr) as Hl.
  assert (Hok : (interp (iam_world (54 * GoTime.Minute)) (GetToken first_call.1.2.1) 1).1.2.2 = Ok "A"%string) by (vm_compute; reflexivity).
  rewrite Hok in Hl. destruct Hl as (at_ & response & Hin & Ha & _). exists at_, response. split; [exact Hin|by symmetry].
Defined.
End IamSpec.

Module IdentitySpec.
Import Identity.

Section spec.
Context `{TokenJSON}.

(** A token that names the account: three parts, all of them base64, of which the
    first names an algorithm other than none. *)
Definition names_account (token id : string) : Prop :=
  ∃ header payload signature alg body, Split token "."%char = [header; payload; signature] ∧
    header ≠ ""%string ∧ payload ≠ ""%string ∧ signature ≠ ""%string ∧
    Base64.DecodeString Base64.RawURLEncoding header ≫= Algorithm = Some alg ∧ alg ≠ ""%string ∧ ToLower alg ≠ "none"%string ∧
    Base64.DecodeString Base64.RawURLEncoding payload = Some body ∧
    is_Some (Base64.DecodeString Base64.RawURLEncoding signature) ∧
    AccountOf body = Some id ∧ MatchString ibmAccountIDPattern id = true.

Lemma account_named token id : accountFromIAMToken token = Ok id ↔ names_account token id.
Proof.
  unfold accountFromIAMToken, names_account, valid_header, empty.
  destruct (Split token "."%char) as [|header [|payload [|signature [|]]]]; try (split; [done|naive_solver]).
  destruct (String.eqb_spec header ""), (String.eqb_spec payload ""), (String.eqb_spec signature ""); cbn [orb];
    try (split; [done|naive_solver]).
  destruct (Base64.DecodeString Base64.RawURLEncoding header ≫= Algorithm) as [alg|] eqn:Ea; cbn [negb];
    [|split; [done|naive_solver]].
  destruct (String.eqb_spec alg ""), (String.eqb_spec (ToLower alg) "none"); cbn [negb andb]; try (split; [done|naive_solver]).
  destruct (Base64.DecodeString Base64.RawURLEncoding payload) as [body|] eqn:Eb; [|split; [done|naive_solver]].
  destruct (Base64.DecodeString Base64.RawURLEncoding signature) as [sig|] eqn:Es; [|split; [done|]].
  2:{ intros (h' & p' & s' & a' & b' & [= <- <- <-] & _ & _ & _ & _ & _ & _ & _ & [x Hx] & _). congruence. }
  destruct (AccountOf body) as [id'|] eqn:Ei; [|split; [done|]].
  2:{ intros (h' & p' & s' & a' & b' & [= <- <- <-] & _ & _ & _ & _ & _ & _ & Hb & _ & Hi & _). congruence. }
  destruct (MatchString ibmAccountIDPattern id') eqn:Em.
  - split.
    + intros [= <-]. exists header, payload, signature, alg, body. by split_and!.
    + intros (h' & p' & s' & a' & b' & [= <- <- <-] & _ & _ & _ & _ & _ & _ & Hb & _ & Hi & _). congruence.
  - split; [done|]. intros (h' & p' & s' & a' & b' & [= <- <- <-] & _ & _ & _ & _ & _ & _ & Hb & _ & Hi & Hm). congruence.
Qed.

(** C26. An account that [ResolveAccountID] gives is 32 hexadecimal digits that a
    well-formed token names which IAM answered to a request with the client's own
    API key, in this call or in the one that stored it; it is the same for ever
    after, and an error stores none. *)
Theorem account_is_verified apiKey s tr s' r (Hrun : runs (ResolveAccountID apiKey s) tr (s', r)) :
  match r with
  | Ok id =>
      identityAccount s' = id ∧
      (tr = [] ∧ identityAccount s = id ∧ id ≠ ""%string ∨
       identityAccount s = ""%string ∧ apiKey ≠ ""%string ∧ MatchString ibmAccountIDPattern id = true ∧
       ∃ tr0 token, tr = tr0 ++ [Did (BuildRequest apiKey) None; Did RequestIdentity (Ok token)] ∧ names_account token id) ∧
      runs (ResolveAccountID apiKey s') [] (s', Ok id)
  | Err _ => identityAccount s' = identityAccount s
  end.
Proof.
  assert (Hreq : ∀ s0 tr0, runs (request_account apiKey s0) tr0 (s', r) →
    match r with
    | Ok id => identityAccount s' = id ∧ MatchString ibmAccountIDPattern id = true ∧ id ≠ ""%string ∧
        ∃ token, tr0 = [Did (BuildRequest apiKey) None; Did RequestIdentity (Ok token)] ∧ names_account token id
    | Err _ => identityAccount s' = identityAccount s0
    end).
  { intros s0 tr0 ([e|] & tr1 & -> & Hr); [by destruct Hr as [-> [= <- <-]]|].
    destruct Hr as ([token|status] & tr2 & -> & Hr).
    - destruct (accountFromIAMToken token) as [id|e] eqn:Ea; destruct Hr as [-> [= <- <-]]; [|done].
      apply account_named in Ea as Hn. assert (Hm : MatchString ibmAccountIDPattern id = true).
      { destruct Hn as (? & ? & ? & ? & ? & Hn). apply Hn. }
      split_and!; [done|done|by intros ->|by exists token].
    - destruct Hr as ([e|] & tr3 & -> & Hr); [by destruct Hr as [-> [= <- <-]]|].
      by destruct status; destruct Hr as [-> [= <- <-]]. }
  assert (Hagain : ∀ id, identityAccount s' = id → id ≠ ""%string → runs (ResolveAccountID apiKey s') [] (s', Ok id)).
  { intros id <- Hne. unfold ResolveAccountID, empty. by rewrite (proj2 (String.eqb_neq _ _) Hne). }
  unfold ResolveAccountID, empty in Hrun. destruct (String.eqb_spec (identityAccount s) "") as [Hs|Hs]; cbn [negb] in Hrun.
  2:{ destruct Hrun as [-> [= <- <-]]. split; [done|]. split; [by left|by apply Hagain]. }
  destruct (String.eqb_spec apiKey "") as [|Hk]; [by destruct Hrun as [-> [= <- <-]]|].
  destruct (identityService s) eqn:Esv.
  - apply Hreq in Hrun. destruct r as [id|]; [|done]. destruct Hrun as (Hi & Hm & Hne & token & -> & Hn).
    split; [done|]. split; [right; split_and!; try done; by exists [], token|by apply Hagain].
  - destruct Hrun as ([e|] & tr' & -> & Hr); [by destruct Hr as [-> [= <- <-]]|].
    apply Hreq in Hr. destruct r as [id|]; [|done]. destruct Hr as (Hi & Hm & Hne & token & -> & Hn).
    split; [done|]. split; [right; split_and!; try done; by exists [Did NewIdentityService None], token|by apply Hagain].
Qed.
End spec.

(** Headers and payloads that are the values themselves. *)
#[local] Instance plain_json : TokenJSON := {| Algorithm := Some; AccountOf := Some |}.

Definition example_account : string := "0123456789abcdef0123456789abcdef".
Definition example_token (alg : string) : string :=
  (Base64.EncodeToString Base64.RawURLEncoding alg ++ "." ++ Base64.EncodeToString Base64.RawURLEncoding example_account ++ "." ++
   Base64.EncodeToString Base64.RawURLEncoding "signature")%string.

Definition identity_world (alg : string) (R : Type) (e : identity_call R) (s : unit) : R * unit :=
  (match e in identity_call R return R with
   | NewIdentityService => None
   | BuildRequest _ => None
   | RequestIdentity => Ok (example_token alg)
   | ContextErr => None
   end, s).

Definition no_identity : identity := {| identityService := false; identityAccount := "" |}.
Definition resolved (alg : string) := interp (identity_world alg) (ResolveAccountID "key" no_identity) tt.

Lemma account_is_verified_witness :
  (resolved "RS256").1.2.2 = Ok example_account ∧ is_ok (resolved "NONE").1.2.2 = false ∧
  runs (ResolveAccountID "key" (resolved "RS256").1.2.1) [] ((resolved "RS256").1.2.1, Ok example_account).
Proof.
  split; [vm_compute; reflexivity|]. split; [vm_compute; reflexivity|].
  assert (Hrun : runs (ResolveAccountID "key" no_identity) (resolved "RS256").1.1 ((resolved "RS256").1.2.1, Ok example_account)).
  { pose proof (interp_runs (identity_world "RS256") (ResolveAccountID "key" no_identity) tt) as Hr.
    rewrite (surjective_pairing (interp (identity_world "RS256") (ResolveAccountID "key" no_identity) tt).1.2) in Hr.
    assert (Hok : (resolved "RS256").1.2.2 = Ok example_account) by (vm_compute; reflexivity).
    unfold resolved in Hok. rewrite Hok in Hr. exact Hr. }
  destruct (account_is_verified "key" no_identity _ _ _ Hrun) as (_ & _ & Hagain). exact Hagain.
Defined.
End IdentitySpec.
