(* ===== verification/VpcBootstrap.v ===== *)
(** * VpcBootstrap: the user data of a node

    [pkg/providers/vpc/bootstrap/provider.go]: what is detected of the cluster, and
    the options the bootstrap script is made from; the end of [cloudinit.go], which
    puts environment variables into it.  The text of the template itself is an
    argument.  Also the readers of a cluster in [pkg/providers/common/types]
    ([cluster.go], [bootstrap.go]) and [pkg/providers/iks/bootstrap], which returns
    a fixed script.  The endpoint and the token come from the programs of Tokens. *)
From stdpp Require Import prelude list strings gmap.
From Stdlib Require Import Ascii.
From S2P Require Import Prelude GoLib GoRegexp GoBase64 Errors NodeClass ProviderIDs Prog Kube IksAllocation ControllerApi VpcApi InstanceTypes Tokens.
From S2P Require Import Bootstrap.
From S2P Require Credentials VpcClient.
Import Strings.

Open Scope string_scope.
Open Scope nat_scope.
Local Open Scope prog_scope.

(** [corev1.Taint], and [MatchTaint]. *)
Record Taint := {
  taint_Key : string;
  taint_Value : string;
  taint_Effect : string;
}.
Definition MatchTaint (t u : Taint) : bool := String.eqb (taint_Key t) (taint_Key u) && String.eqb (taint_Effect t) (taint_Effect u).
Definition UnregisteredNoExecuteTaint : Taint :=
  {| taint_Key := "karpenter.sh/unregistered"; taint_Value := ""; taint_Effect := "NoExecute" |}.

(** What is read of a NodeClaim, a Service, a node and an instance. *)
Record BootstrapClaim := {
  bc_Labels : gmap string string;
  bc_Requirements : list Requirement;
  bc_Taints : list Taint;
  bc_StartupTaints : list Taint;
}.
Record Service := {
  svc_ClusterIP : string;
  svc_Ports : list Z;
}.
Record NodeInfo := {
  PodCIDR : string;
  ContainerRuntimeVersion : string;
}.

(** [types.Options]; a token is sensitive, a bundle is PEM text. *)
Record Options := {
  ClusterName : string;
  NodeName : string;
  opt_ProviderID : string;
  opt_InstanceID : string;
  ClusterEndpoint : string;
  CABundle : string;
  AdditionalCAs : list string;
  KubeletClientCAs : list string;
  BootstrapToken : string;
  KubeletConfig : option KubeletConfiguration;
  ContainerRuntime : string;
  CNIPlugin : string;
  CNIVersion : string;
  opt_Architecture : string;
  KubernetesVersion : string;
  DNSClusterIP : string;
  ClusterCIDR : string;
  CustomUserData : string;
  opt_Region : string;
  opt_Zone : string;
  Taints : list Taint;
  opt_Labels : gmap string string;
}.

(** [types.ClusterInfo] without the fields nothing sets. *)
Record ClusterInfo := {
  Endpoint : string;
  CAData : string;
  ci_ClusterName : string;
  IsIKSManaged : bool;
  ci_IKSClusterID : string;
}.

Local Abbreviation res A := (result GoErrors.error A).

Inductive boot_call : Type → Type :=
  | OfTokens {R : Type} (e : token_call R) : boot_call R
  (* the discovery client; services, nodes and daemon sets, these by the images of
     their containers; secrets *)
  | ServerVersion : boot_call (res string)
  | GetService (namespace name : string) : boot_call (res Service)
  | ListDNSServices : boot_call (res (list Service))
  | FirstNodes : boot_call (res (list NodeInfo))
  | GetDaemonSet (namespace name : string) : boot_call (res (list string))
  | ListConfigMaps : boot_call (res (list (string * gmap string string)))
  | BGetSecret (namespace name : string) : boot_call (res (gmap string string))
  | ListServiceAccountTokens : boot_call (res (list (gmap string string)))
  | BGetNodeClaim (key : NamespacedName) : boot_call (res BootstrapClaim)
  | UpdateConfigMap (name : string) (data : gmap string string) : boot_call err
  | CreateConfigMap (name : string) (data : gmap string string) : boot_call err
  (* a GET request: its error, or its status and its body *)
  | HttpGet (url : string) : boot_call (res (Z * res string))
  (* the VPC client, the profiles it lists and an instance's status *)
  | BVPCClient : boot_call err
  | BListProfiles : boot_call (res (list InstanceProfile))
  | BGetInstance (id : string) : boot_call (res (option string))
  (* IKS *)
  | BIKSClient : boot_call err
  | IKSClusterConfig (cluster : string) : boot_call (res string)
  | BIamToken : boot_call (res string)
  | PostWorker (token endpoint : string) (labels : gmap string string) (pool instance zone : string) : boot_call (res string)
  | BNow : boot_call Z.

Local Abbreviation boot A := (prog boot_call (res A)).

Definition of_tokens {A} (q : prog token_call A) : prog boot_call A := embed (λ R e, OfTokens e) q.

(** The release's tag in the JSON of GitHub, and the values of the In requirements
    by their keys, as Karpenter's scheduling package joins them: of a key with one
    such requirement, its own. *)
Class BootstrapJSON := {
  TagName : string → res string;
}.
Class SchedulingRequirements := {
  InValues : list Requirement → gmap string (list string);
  InValues_one : ∀ reqs r v, r ∈ reqs → Operator r = "In" → Values r = [v] →
    (∀ r', r' ∈ reqs → req_Key r' = req_Key r → r' = r) → InValues reqs !! req_Key r = Some [v];
  InValues_none : ∀ reqs key, (∀ r, r ∈ reqs → req_Key r ≠ key) → InValues reqs !! key = None;
}.

Section provider.
Context `{Stdlib} `{BootstrapJSON} `{SchedulingRequirements}.

(** The clients that may be nil; [version.Version]; the environment and its
    variable [ca_crt]; the template. *)
Record provider := {
  has_client : bool;
  has_k8s : bool;
  has_kube : bool;
  b_Version : string;
  b_Environ : list string;
  b_ca_crt : string;
}.
Context (p : provider) (template : Options → res string).

Definition out_of_range : string := "runtime error: index out of range".

(** ** Detection *)
Definition detectClusterKubernetesVersion : boot string :=
  answer ⟵ ServerVersion;
  match answer with
  | Err e => fail_with (wrapped_ "getting server version" e)
  | Ok version => Ret (Ok version)
  end.

Definition detectContainerRuntime : prog boot_call string :=
  answer ⟵ FirstNodes;
  match answer with
  | Ok (node :: _) =>
      if negb (empty (ContainerRuntimeVersion node))
      then Ret (match Cut (ContainerRuntimeVersion node) "://" with Some (runtime, _) => runtime | None => ContainerRuntimeVersion node end)
      else Ret "containerd"
  | _ => Ret "containerd"
  end.

(** The last part of the image after a colon. *)
Definition extractVersionFromImage (image : string) : string :=
  match Split image ":"%char with
  | _ :: (_ :: _) as parts =>
      let tag := default "" (last parts) in
      if negb (HasPrefix tag "v") && negb (String.eqb tag "latest") then "v" ++ tag else tag
  | _ => "latest"
  end.

Definition cni_repository (cniPlugin : string) : option string :=
  if String.eqb cniPlugin "calico" then Some "https://api.github.com/repos/projectcalico/cni-plugin/releases/latest"
  else if String.eqb cniPlugin "cilium" then Some "https://api.github.com/repos/cilium/cilium/releases/latest"
  else if String.eqb cniPlugin "flannel" then Some "https://api.github.com/repos/flannel-io/cni-plugin/releases/latest"
  else None.

Definition getLatestCNIVersion (cniPlugin : string) : boot string :=
  match cni_repository cniPlugin with
  | None => fail ("unsupported CNI plugin: " ++ cniPlugin)
  | Some repoURL =>
      answer ⟵ HttpGet repoURL;
      match answer with
      | Err e => fail_with (wrapped_ ("failed to fetch CNI version from " ++ repoURL) e)
      | Ok (status, body) =>
          if negb (status =? 200)%Z then fail ("unexpected status code " ++ Strconv.Itoa status ++ " from " ++ repoURL)
          else
            match body with
            | Err e => fail_with (wrapped_ "failed to read response body" e)
            | Ok body =>
                match TagName body with
                | Err e => fail_with (wrapped_ "failed to parse JSON response" e)
                | Ok tag => if empty tag then fail ("empty tag name in response from " ++ repoURL) else Ret (Ok tag)
                end
            end
      end
  end.

(** A daemon set that is there decides; one that cannot be read is passed over. *)
Definition probe {A} (namespace name : string) (found : list string → boot A) (k : boot A) : boot A :=
  answer ⟵ GetDaemonSet namespace name;
  match answer with Ok images => found images | Err _ => k end.

Definition latest_version (plugin Plugin : string) : boot (string * string) :=
  bind (getLatestCNIVersion plugin) (λ answer,
  match answer with
  | Err e => fail_with (wrapped_ ("failed to get " ++ Plugin ++ " CNI version") e)
  | Ok version => Ret (Ok (plugin, version))
  end).

Definition image_version (plugin : string) (images : list string) : boot (string * string) :=
  match images with
  | image :: _ => Ret (Ok (plugin, extractVersionFromImage image))
  | [] => fail out_of_range
  end.

(** [ConfigMaps(namespace).Get] *)
Definition config_map (namespace name : string) : boot (gmap string string) := call (OfTokens (TGetConfigMap namespace name)).

Definition detectCNIPluginAndVersion : boot (string * string) :=
  let calico := λ _, latest_version "calico" "Calico" in
  let flannel := λ _, latest_version "flannel" "Flannel" in
  probe "kube-system" "calico-node" calico (
  probe "calico-system" "calico-node" calico (
  probe "kube-system" "cilium" (image_version "cilium") (
  probe "kube-flannel" "kube-flannel-ds" flannel (
  probe "kube-system" "kube-flannel-ds" flannel (
  probe "kube-system" "weave-net" (image_version "weave") (
  bind (config_map "kube-system" "calico-config") (λ answer,
  match answer with
  | Ok data =>
      if bool_decide (is_Some (data !! "cni_network_config")) then latest_version "calico" "Calico"
      else fail "no CNI plugin detected in cluster"
  | Err _ => fail "no CNI plugin detected in cluster"
  end))))))).

(** The certificate of a Secret, that of the account or of the first listed. *)
Definition ca_of (data : gmap string string) : boot string :=
  match data !! "ca.crt" with
  | Some caCert => Ret (Ok caCert)
  | None => fail "ca.crt not found in service account token secret"
  end.

Definition secret_ca : boot string :=
  answer ⟵ BGetSecret "kube-system" "default-token";
  match answer with
  | Ok data => ca_of data
  | Err _ =>
      answer ⟵ ListServiceAccountTokens;
      match answer with
      | Ok (data :: _) => ca_of data
      | _ => fail "unable to find CA certificate in ConfigMap or service account tokens"
      end
  end.

Definition getClusterCA : boot string :=
  bind (config_map "kube-system" "kube-root-ca.crt") (λ answer,
  match answer with
  | Ok data => if negb (empty (get data "ca.crt")) then Ret (Ok (get data "ca.crt")) else secret_ca
  | Err _ => secret_ca
  end).

(** The entry on the line after a line with the key. *)
Fixpoint dns_entry (lines : list string) : option string :=
  match lines with
  | line :: lines' =>
      match lines' with
      | next :: _ =>
          let dnsLine := TrimSpace next in
          if Contains line "clusterDNS:" && HasPrefix dnsLine "- " then Some (TrimPrefix dnsLine "- ") else dns_entry lines'
      | [] => None
      end
  | [] => None
  end.

Fixpoint service_ip (names : list string) (k : boot string) : boot string :=
  match names with
  | [] => k
  | name :: names' =>
      answer ⟵ GetService "kube-system" name;
      match answer with
      | Ok svc => if negb (empty (svc_ClusterIP svc)) then Ret (Ok (svc_ClusterIP svc)) else service_ip names' k
      | Err _ => service_ip names' k
      end
  end.

Definition getClusterDNS : boot string :=
  service_ip ["kube-dns"; "coredns"] (
  bind (config_map "kube-system" "kubelet-config") (λ answer,
  match answer with
  | Ok data =>
      let kubelet := get data "kubelet" in
      match (if Contains kubelet "clusterDNS:" then dns_entry (Split kubelet newline) else None) with
      | Some dns => Ret (Ok dns)
      | None => fail "unable to determine cluster DNS IP"
      end
  | Err _ => fail "unable to determine cluster DNS IP"
  end)).

Definition getNodeClaim (key : NamespacedName) : boot BootstrapClaim :=
  if negb (has_kube p) then fail "kubeClient is nil, cannot retrieve NodeClaim" else call (BGetNodeClaim key).

(** The architecture of the first profile of the name that has one. *)
Definition architecture_of (instanceProfile : string) (profiles : list InstanceProfile) : option string :=
  head (omap (λ profile, if bool_decide (pr_Name profile = Some instanceProfile) then VcpuArchitecture profile ≫= id else None) profiles).

Definition detectArchitectureFromInstanceProfile (instanceProfile : string) : boot string :=
  if empty instanceProfile then fail "instance profile is empty"
  else if negb (has_client p) then fail "IBM Cloud client is not initialized"
  else
    e ⟵ BVPCClient;
    match e with
    | Some e => fail_with e
    | None =>
        answer ⟵ BListProfiles;
        match answer with
        | Err e => fail_with (wrapped_ "failed to list instance profiles" e)
        | Ok profiles =>
            match architecture_of instanceProfile profiles with
            | Some architecture => Ret (Ok architecture)
            | None => fail ("instance profile " ++ instanceProfile ++ " not found or has no architecture information")
            end
        end
    end.

(** The selected type, the label of the claim, the profile of the class: the first
    that gives an architecture; failures are logged. *)
Definition attempt (profile : string) : prog boot_call string :=
  if empty profile then Ret ""
  else bind (detectArchitectureFromInstanceProfile profile) (λ r, Ret (match r with Ok architecture => architecture | Err _ => "" end)).

Definition or_attempt (architecture profile : string) (k : string → boot string) : boot string :=
  if empty architecture then bind (attempt profile) k else k architecture.

Definition claim_type (claim : option BootstrapClaim) : string :=
  match claim with Some c => get (bc_Labels c) "node.kubernetes.io/instance-type" | None => "" end.

Definition detectArchitecture (selectedInstanceType : string) (claim : option BootstrapClaim) (nodeClass : IBMNodeClass) : boot string :=
  bind (attempt selectedInstanceType) (λ architecture,
  or_attempt architecture (claim_type claim) (λ architecture,
  or_attempt architecture (NodeClass.InstanceProfile (Spec nodeClass)) (λ architecture,
  if empty architecture
  then fail ("failed to detect architecture: no valid instance type found in selectedInstanceType=" ++ Quote selectedInstanceType ++
         ", NodeClaim labels, or NodeClass instanceProfile=" ++ Quote (NodeClass.InstanceProfile (Spec nodeClass)))
  else Ret (Ok architecture)))).

(** ** Labels and taints *)
Definition essential_labels : list string := ["karpenter.sh/nodepool"; "karpenter-ibm.sh/ibmnodeclass"].

Definition keep_label (claim_labels : gmap string string) (key : string) (labels : gmap string string) : gmap string string :=
  match claim_labels !! key with Some v => <[key := v]> labels | None => labels end.

(** The labels of the claim, those its requirements decide, and again the
    essential ones. *)
Definition requirement_labels (reqs : list Requirement) : gmap string string :=
  omap (λ values : list string, match values with [v] => Some v | _ => None end) (InValues reqs).

Definition node_labels (claim : BootstrapClaim) : gmap string string :=
  foldl (λ labels key, keep_label (bc_Labels claim) key labels)
    (requirement_labels (bc_Requirements claim) ∪ bc_Labels claim) essential_labels.

Definition node_taints (claim : BootstrapClaim) : list Taint :=
  let taints := (bc_Taints claim ++ bc_StartupTaints claim)%list in
  if existsb (λ t, MatchTaint t UnregisteredNoExecuteTaint) taints then taints else (taints ++ [UnregisteredNoExecuteTaint])%list.

(** ** Status *)
Definition status_name (instanceID : string) : string := "bootstrap-status-" ++ instanceID.

Definition ReportBootstrapStatus (instanceID nodeClaimName status phase : string) : prog boot_call err :=
  if empty instanceID then Ret (Some (GoErrors.New "instance ID is required for status reporting"))
  else if negb (has_k8s p) then Ret (Some (GoErrors.New "kubernetes client is required for status reporting"))
  else
    now ⟵ BNow;
    let statusData : gmap string string :=
      <["status" := status]> (<["phase" := phase]> (<["timestamp" := FormatRFC3339 now]>
      (<["nodeclaim" := nodeClaimName]> (<["version" := b_Version p]> {["instanceId" := instanceID]})))) in
    e ⟵ UpdateConfigMap (status_name instanceID) statusData;
    match e with
    | None => Ret None
    | Some _ =>
        e ⟵ CreateConfigMap (status_name instanceID) statusData;
        match e with
        | Some e => Ret (Some (wrapped_ "creating bootstrap status ConfigMap" e))
        | None => Ret None
        end
    end.

Definition GetBootstrapStatus (instanceID : string) : boot (gmap string string) :=
  if empty instanceID then fail "instance ID is required for status retrieval"
  else if negb (has_k8s p) then fail "kubernetes client is required for status retrieval"
  else
    bind (config_map "karpenter" (status_name instanceID)) (λ answer,
    match answer with
    | Err e => fail_with (wrapped_ "getting bootstrap status ConfigMap" e)
    | Ok data => Ret (Ok data)
    end).

Definition PollInstanceBootstrapStatus (instanceID : string) : boot (gmap string string) :=
  if empty instanceID then fail "instance ID is required for status polling"
  else if negb (has_client p) then fail "IBM Cloud client is not initialized"
  else
    e ⟵ BVPCClient;
    match e with
    | Some e => fail_with e
    | None =>
        answer ⟵ BGetInstance instanceID;
        match answer with
        | Err e => fail_with (wrapped_ "getting instance details for status polling" e)
        | Ok None => fail nil_dereference
        | Ok (Some instance_status) =>
            now ⟵ BNow;
            let status : gmap string string :=
              <["instance_status" := instance_status]> {["last_checked" := FormatRFC3339 now]} in
            bind (GetBootstrapStatus instanceID) (λ answer,
            Ret (Ok (match answer with Ok data => data ∪ status | Err _ => status end)))
        end
    end.

(** ** The script *)
Definition additional_ca (ca : string) : string :=
  "export KARPENTER_ADDITIONAL_CA=" ++ String dquote (ca ++ String dquote nl).

Definition generateCloudInitScript (options : Options) : res string :=
  match template options with
  | Err e => Err (wrapped_ "executing cloud-init template" e)
  | Ok script =>
      let script :=
        if negb (empty (b_ca_crt p))
        then VpcClient.Replace1 script strict_shebang (strict_shebang ++ nl ++ additional_ca (b_ca_crt p))
        else script in
      Ok (InjectBootstrapEnvVars (b_Environ p) script)
  end.

(** ** The user data *)
Definition endpoint_of (nodeClass : IBMNodeClass) : boot string :=
  if negb (empty (APIServerEndpoint (Spec nodeClass))) then Ret (Ok (APIServerEndpoint (Spec nodeClass)))
  else
    bind (of_tokens GetInternalAPIServerEndpoint) (λ answer,
    match answer with
    | Err e => fail_with (wrapped_ "getting internal API server endpoint" e)
    | Ok endpoint => Ret (Ok endpoint)
    end).

(** A step whose error is wrapped. *)
Definition step_ {A B} (q : boot A) (prefix : string) (k : A → boot B) : boot B :=
  bind q (λ answer, match answer with Err e => fail_with (wrapped_ prefix e) | Ok a => k a end).

Definition bootstrap_options (nodeClass : IBMNodeClass) (nodeName instanceID version endpoint token ca dns runtime : string)
    (cni : string * string) (architecture : string) (claim : option BootstrapClaim) : Options :=
  let spec := Spec nodeClass in
  {| ClusterName := ""; NodeName := nodeName; opt_ProviderID := ""; opt_InstanceID := instanceID; ClusterEndpoint := endpoint;
     CABundle := ca; AdditionalCAs := []; KubeletClientCAs := []; BootstrapToken := token; KubeletConfig := Kubelet spec;
     ContainerRuntime := runtime; CNIPlugin := cni.1; CNIVersion := cni.2; opt_Architecture := architecture;
     KubernetesVersion := version; DNSClusterIP := dns; ClusterCIDR := ""; CustomUserData := UserDataAppend spec;
     opt_Region := Region spec; opt_Zone := Zone spec;
     Taints := match claim with Some c => node_taints c | None => [UnregisteredNoExecuteTaint] end;
     opt_Labels := match claim with Some c => node_labels c | None => ∅ end |}.

(** What is read before the claim. *)
Definition GetUserDataWithInstanceIDAndType (nodeClass : option IBMNodeClass) (nodeClaim : NamespacedName)
    (instanceID selectedInstanceType : string) : boot string :=
  match nodeClass with
  | None => fail "nodeClass cannot be nil"
  | Some nodeClass =>
      step_ detectClusterKubernetesVersion "detecting cluster Kubernetes version" (λ version,
      endpoint ←! endpoint_of nodeClass;
      step_ (of_tokens (FindOrCreateBootstrapToken (24 * GoTime.Hour))) "generating bootstrap token" (λ token,
      step_ getClusterCA "getting cluster CA certificate" (λ ca,
      bind getClusterDNS (λ dns,
      bind detectContainerRuntime (λ runtime,
      step_ detectCNIPluginAndVersion "detecting CNI plugin and version" (λ cni,
      bind (getNodeClaim nodeClaim) (λ claim,
      let claim := match claim with Ok c => Some c | Err _ => None end in
      architecture ←! detectArchitecture selectedInstanceType claim nodeClass;
      let options := bootstrap_options nodeClass (key_Name nodeClaim) instanceID version endpoint token ca
        (match dns with Ok dns => dns | Err _ => "172.21.0.10" end) runtime cni architecture claim in
      if String.length token <? 10 then fail "runtime error: slice bounds out of range"
      else if negb (empty instanceID) then
        bind (ReportBootstrapStatus instanceID (key_Name nodeClaim) "generating" "user-data-creation") (λ _,
        Ret (generateCloudInitScript options))
      else Ret (generateCloudInitScript options))))))))
  end.

Definition GetUserDataWithInstanceID (nodeClass : option IBMNodeClass) (nodeClaim : NamespacedName) (instanceID : string) : boot string :=
  GetUserDataWithInstanceIDAndType nodeClass nodeClaim instanceID "".
Definition GetUserData (nodeClass : option IBMNodeClass) (nodeClaim : NamespacedName) : boot string :=
  GetUserDataWithInstanceID nodeClass nodeClaim "".

(** ** Cluster information *)

(** The endpoint and the certificates of a kubeconfig: the last of each. *)
Fixpoint kubeconfig_lines (lines : list string) (endpoint caData : string) : res (string * string) :=
  match lines with
  | [] => Ok (endpoint, caData)
  | line :: lines' =>
      let line := TrimSpace line in
      let endpoint := if HasPrefix line "server:" then TrimSpace (TrimPrefix line "server:") else endpoint in
      if HasPrefix line "certificate-authority-data:" then
        match Credentials.decode_base64 Base64.StdEncoding (TrimSpace (TrimPrefix line "certificate-authority-data:")) with
        | Err e => Err (wrapped_ "decoding CA data" e)
        | Ok caData => kubeconfig_lines lines' endpoint caData
        end
      else kubeconfig_lines lines' endpoint caData
  end.

Definition ParseKubeconfig (kubeconfig : string) : res (string * string) :=
  match kubeconfig_lines (Split kubeconfig newline) "" "" with
  | Err e => Err e
  | Ok (endpoint, caData) =>
      if empty endpoint then Err (GoErrors.New "endpoint not found in kubeconfig") else Ok (endpoint, caData)
  end.

Definition getClusterName : string := "karpenter-vpc-cluster".

Definition getClusterInfo : boot ClusterInfo :=
  bind (config_map "kube-system" "cluster-info") (λ config,
  match config with
  | Err _ =>
      answer ⟵ GetService "default" "kubernetes";
      match answer with
      | Err e => fail_with (wrapped_ "getting cluster endpoint" e)
      | Ok svc =>
          match svc_Ports svc with
          | port :: _ =>
              Ret (Ok {| Endpoint := "https://" ++ svc_ClusterIP svc ++ ":" ++ Strconv.Itoa port; CAData := "";
                         ci_ClusterName := getClusterName; IsIKSManaged := false; ci_IKSClusterID := "" |})
          | [] => fail out_of_range
          end
      end
  | Ok data =>
      match data !! "kubeconfig" with
      | None => fail "kubeconfig not found in cluster-info configmap"
      | Some kubeconfig =>
          match ParseKubeconfig kubeconfig with
          | Err e => fail_with (wrapped_ "parsing kubeconfig" e)
          | Ok (endpoint, caData) =>
              Ret (Ok {| Endpoint := endpoint; CAData := caData; ci_ClusterName := getClusterName; IsIKSManaged := false;
                         ci_IKSClusterID := "" |})
          end
      end
  end).
End provider.

(** ** Theorems *)
Local Open Scope list_scope.
Local Open Scope nat_scope.

Local Abbreviation boot_history := (history boot_call).

Section safety.
Context `{Stdlib} `{BootstrapJSON} `{SchedulingRequirements}.
Context (p : provider) (template : Options → res string).

Local Abbreviation tokens := (λ (R : Type) (e : token_call R), OfTokens e).

(** *** Labels and taints *)
Lemma node_labels_lookup claim key :
  node_labels claim !! key =
    if decide (key ∈ essential_labels ∧ is_Some (bc_Labels claim !! key)) then bc_Labels claim !! key
    else match requirement_labels (bc_Requirements claim) !! key with Some v => Some v | None => bc_Labels claim !! key end.
Proof.
  unfold node_labels, essential_labels. cbn [foldl].
  set (base := requirement_labels (bc_Requirements claim) ∪ bc_Labels claim).
  assert (Hkeep : ∀ k labels, keep_label (bc_Labels claim) k labels !! key =
    if decide (key = k ∧ is_Some (bc_Labels claim !! k)) then bc_Labels claim !! key else labels !! key).
  { intros k labels. unfold keep_label. destruct (bc_Labels claim !! k) as [v|] eqn:Ek.
    - destruct (decide (key = k ∧ is_Some (Some v))) as [[-> _]|Hn]; [by rewrite lookup_insert_eq|].
      apply lookup_insert_ne. intros ->. apply Hn. by split; [|eexists].
    - rewrite decide_False; [done|]. intros [_ [? ?]]; done. }
  assert (Hbase : base !! key = match requirement_labels (bc_Requirements claim) !! key with Some v => Some v | None => bc_Labels claim !! key end).
  { unfold base. rewrite lookup_union. by destruct (requirement_labels _ !! key), (bc_Labels claim !! key). }
  rewrite !Hkeep, Hbase.
  destruct (decide (key = "karpenter-ibm.sh/ibmnodeclass" ∧ _)) as [[E Hs]|H1'].
  { rewrite decide_True; [done|]. split; [set_solver|by rewrite E]. }
  destruct (decide (key = "karpenter.sh/nodepool" ∧ _)) as [[E Hs]|H2'].
  { rewrite decide_True; [done|]. split; [set_solver|by rewrite E]. }
  rewrite decide_False; [done|]. intros [Hin Hs]. rewrite !elem_of_cons, elem_of_nil in Hin.
  destruct Hin as [->|[->|[]]]; naive_solver.
Qed.

(** A label that the claim requires to have one value. *)
Lemma requirement_label_one claim r v : r ∈ bc_Requirements claim → Operator r = "In"%string → Values r = [v] →
  (∀ r', r' ∈ bc_Requirements claim → req_Key r' = req_Key r → r' = r) →
  requirement_labels (bc_Requirements claim) !! req_Key r = Some v.
Proof. intros Hin Ho Hv Hu. unfold requirement_labels. rewrite lookup_omap, (InValues_one _ r v) by done. done. Qed.

Lemma node_taints_all claim :
  (bc_Taints claim ++ bc_StartupTaints claim) `prefix_of` node_taints claim ∧
  ∃ t, t ∈ node_taints claim ∧ MatchTaint t UnregisteredNoExecuteTaint = true.
Proof.
  unfold node_taints. destruct (existsb _ _) eqn:Ee.
  - split; [done|]. apply existsb_exists in Ee as (t & Hin%list_elem_of_In & Ht). by exists t.
  - split; [by eexists|]. exists UnregisteredNoExecuteTaint. split; [apply elem_of_app; right; by left|done].
Qed.

(** *** What a run shows of the options it used *)

(** The claim, when it could be read. *)
Definition claim_read (tr : boot_history) (key : NamespacedName) (claim : option BootstrapClaim) : Prop :=
  match claim with
  | Some c => asked tr (BGetNodeClaim key) (Ok c)
  | None => has_kube p = false ∨ ∃ e, asked tr (BGetNodeClaim key) (Err e)
  end.

(** The architecture of a profile that a listing of this run gives for it. *)
Definition architecture_listed (tr : boot_history) (profile architecture : string) : Prop :=
  profile ≠ ""%string ∧ ∃ profiles, asked tr BListProfiles (Ok profiles) ∧ architecture_of profile profiles = Some architecture.

Definition endpoint_known (tr : boot_history) (nodeClass : IBMNodeClass) (endpoint : string) : Prop :=
  if negb (empty (APIServerEndpoint (Spec nodeClass))) then endpoint = APIServerEndpoint (Spec nodeClass)
  else ran tokens GetInternalAPIServerEndpoint tr (Ok endpoint).

(** The labels of a node are those of its claim, but where its requirements give
    one value, except the essential ones. *)
Definition labels_of (claim : option BootstrapClaim) (labels : gmap string string) : Prop :=
  match claim with
  | None => labels = ∅
  | Some c => ∀ key, labels !! key =
      if decide (key ∈ essential_labels ∧ is_Some (bc_Labels c !! key)) then bc_Labels c !! key
      else match requirement_labels (bc_Requirements c) !! key with Some v => Some v | None => bc_Labels c !! key end
  end.

Record registers (tr : boot_history) (nodeClass : IBMNodeClass) (key : NamespacedName) (instanceID selected : string)
    (o : Options) : Prop := {
  r_node : NodeName o = key_Name key ∧ opt_InstanceID o = instanceID;
  r_class : opt_Region o = Region (Spec nodeClass) ∧ opt_Zone o = Zone (Spec nodeClass) ∧
    KubeletConfig o = Kubelet (Spec nodeClass) ∧ CustomUserData o = UserDataAppend (Spec nodeClass);
  r_version : asked tr ServerVersion (Ok (KubernetesVersion o));
  r_endpoint : endpoint_known tr nodeClass (ClusterEndpoint o);
  r_token : ran tokens (FindOrCreateBootstrapToken (24 * GoTime.Hour)) tr (Ok (BootstrapToken o));
  r_claim : ∃ claim, claim_read tr key claim ∧ labels_of claim (opt_Labels o) ∧
    (∀ c, claim = Some c → (bc_Taints c ++ bc_StartupTaints c) `prefix_of` Taints o) ∧
    (∃ t, t ∈ Taints o ∧ MatchTaint t UnregisteredNoExecuteTaint = true) ∧
    opt_Architecture o ≠ ""%string ∧
    (architecture_listed tr selected (opt_Architecture o) ∨ architecture_listed tr (claim_type claim) (opt_Architecture o) ∨
     architecture_listed tr (NodeClass.InstanceProfile (Spec nodeClass)) (opt_Architecture o));
}.

Lemma attempt_ok profile (tr : boot_history) architecture : within (attempt p profile) tr architecture →
  architecture = ""%string ∨ architecture_listed tr profile architecture.
Proof.
  unfold attempt, empty, detectArchitectureFromInstanceProfile. intros Hr.
  destruct (String.eqb_spec profile "") as [|Hp]; [left; by apply within_ret in Hr|].
  unfold empty in Hr. rewrite (proj2 (String.eqb_neq _ _) Hp) in Hr. repeat step_within; try by left.
  right. split; [done|]. by eexists.
Qed.

Lemma architecture_known selected claim nodeClass (tr : boot_history) architecture :
  within (detectArchitecture p selected claim nodeClass) tr (Ok architecture) →
  architecture ≠ ""%string ∧
  (architecture_listed tr selected architecture ∨ architecture_listed tr (claim_type claim) architecture ∨
   architecture_listed tr (NodeClass.InstanceProfile (Spec nodeClass)) architecture).
Proof.
  unfold detectArchitecture, or_attempt, empty. intros (a1 & Ha1%attempt_ok & Hr)%within_bind.
  destruct (String.eqb_spec a1 "") as [->|N1].
  - apply within_bind in Hr as (a2 & Ha2%attempt_ok & Hr). destruct (String.eqb_spec a2 "") as [->|N2].
    + apply within_bind in Hr as (a3 & Ha3%attempt_ok & Hr).
      destruct (String.eqb_spec a3 "") as [->|N3]; apply within_ret in Hr; [done|]. injection Hr as <-. naive_solver.
    + apply within_ret in Hr. injection Hr as <-. naive_solver.
  - apply within_ret in Hr. injection Hr as <-. naive_solver.
Qed.

Lemma endpoint_ok nodeClass (tr : boot_history) endpoint :
  within (endpoint_of nodeClass) tr (Ok endpoint) → endpoint_known tr nodeClass endpoint.
Proof.
  unfold endpoint_of, endpoint_known. intros Hr. destruct (negb _); [by apply within_ret in Hr as [= <-]|].
  repeat step_within. match goal with Hi : Ok _ = Ok _ |- _ => injection Hi as <- end. by apply within_embed.
Qed.

Lemma step_ok {A B} (q : boot A) prefix (k : A → boot B) (tr : boot_history) b :
  within (step_ q prefix k) tr (Ok b) → ∃ a, within q tr (Ok a) ∧ within (k a) tr (Ok b).
Proof. unfold step_. intros ([a|e] & Hq & Hk)%within_bind; [by exists a|by apply within_ret in Hk]. Qed.

Lemma version_ok (tr : boot_history) version : within detectClusterKubernetesVersion tr (Ok version) → asked tr ServerVersion (Ok version).
Proof.
  unfold detectClusterKubernetesVersion. intros Hr. repeat step_within.
  match goal with Hi : Ok _ = Ok _ |- _ => by injection Hi as <- end.
Qed.

Lemma claim_ok key (tr : boot_history) answer : within (getNodeClaim p key) tr answer →
  claim_read tr key (match answer with Ok c => Some c | Err _ => None end).
Proof.
  unfold getNodeClaim. intros Hr. destruct (has_kube p) eqn:Ek; cbn [negb] in Hr; repeat step_within.
  - match goal with Ha : asked tr (BGetNodeClaim key) ?a |- _ => destruct a as [c|e]; cbn; [done|right; by exists e] end.
  - by left.
Qed.

Lemma user_data_ok nodeClass key instanceID selected (tr : boot_history) script :
  within (GetUserDataWithInstanceIDAndType p template (Some nodeClass) key instanceID selected) tr (Ok script) →
  ∃ options, generateCloudInitScript p template options = Ok script ∧ registers tr nodeClass key instanceID selected options.
Proof.
  unfold GetUserDataWithInstanceIDAndType. intros (version & Hv & Hr)%step_ok.
  apply within_bind in Hr as ([endpoint|e] & He & Hr); [apply endpoint_ok in He|by apply within_ret in Hr].
  apply step_ok in Hr as (token & Ht & Hr). apply step_ok in Hr as (ca & Hca & Hr).
  apply within_bind in Hr as (dns & Hdns & Hr). apply within_bind in Hr as (runtime & Hrt & Hr).
  apply step_ok in Hr as (cni & Hcni & Hr). apply within_bind in Hr as (answer & Hc%claim_ok & Hr).
  set (claim := match answer with Ok c => Some c | Err _ => None end) in *.
  apply within_bind in Hr as ([architecture|e] & Ha & Hr); [apply architecture_known in Ha|by apply within_ret in Hr].
  cbv zeta in Hr. set (options := bootstrap_options _ _ _ _ _ _ _ _ _ _ _ _) in Hr.
  assert (Hscript : generateCloudInitScript p template options = Ok script).
  { destruct (String.length token <? 10); [by apply within_ret in Hr|]. destruct (negb (empty instanceID)).
    - apply within_bind in Hr as (e & _ & Hr). by apply within_ret in Hr.
    - by apply within_ret in Hr. }
  exists options. split; [done|]. unfold options. split; cbn; try done.
  - by apply version_ok.
  - by apply within_embed.
  - exists claim. destruct Ha as [Hne Ha]. split_and!; try done.
    + destruct claim as [c|]; [|done]. intros k. apply node_labels_lookup.
    + intros c ->. apply node_taints_all.
    + destruct claim as [c|]; [apply node_taints_all|]. exists UnregisteredNoExecuteTaint. by split; [left|].
Qed.

(** *** What a run writes *)
Definition token_writes (R : Type) (e : token_call R) : bool :=
  match e with DeleteSecret _ | CreateClusterRoleBinding _ => false | _ => true end.
Definition boot_writes (instanceID : string) (R : Type) (e : boot_call R) : bool :=
  match e with
  | OfTokens e => token_writes _ e
  | UpdateConfigMap name _ | CreateConfigMap name _ => negb (empty instanceID) && String.eqb name (status_name instanceID)
  | PostWorker _ _ _ _ _ _ => false
  | _ => true
  end.

Lemma embed_only {A} (P : ∀ R, boot_call R → bool) (q : prog token_call A) :
  only (λ R e, P R (OfTokens e)) q → only P (of_tokens q).
Proof. induction q as [x|R e k IH]; cbn; [done|]. intros [He Hk]. split; [done|]. intros r. by apply IH. Qed.

Lemma find_valid_only secrets : only token_writes (find_valid secrets).
Proof. induction secrets as [|s secrets IH]; cbn [find_valid]; solve_quiet. Qed.

Lemma find_or_create_only ttl : only token_writes (FindOrCreateBootstrapToken ttl).
Proof.
  unfold FindOrCreateBootstrapToken, GenerateBootstrapToken, random_token, generateRandomString.
  split; [done|]. intros [secrets|e]; [|done]. apply only_bind; [apply find_valid_only|]. intros [token|]; solve_quiet.
Qed.

Lemma endpoint_only : only token_writes GetInternalAPIServerEndpoint.
Proof. unfold GetInternalAPIServerEndpoint, from_config_map. solve_quiet. Qed.

Lemma service_ip_only id names k : only (boot_writes id) k → only (boot_writes id) (service_ip names k).
Proof. intros Hk. induction names as [|n names IH]; cbn [service_ip]; solve_quiet. Qed.

Lemma attempt_only id profile : only (boot_writes id) (attempt p profile).
Proof. unfold attempt, detectArchitectureFromInstanceProfile. solve_quiet. Qed.

Lemma or_attempt_only id architecture profile k : (∀ a, only (boot_writes id) (k a)) →
  only (boot_writes id) (or_attempt p architecture profile k).
Proof.
  intros Hk. unfold or_attempt. destruct (empty architecture); [|done]. apply only_bind; [apply attempt_only|done].
Qed.

Lemma detection_only id : only (boot_writes id) detectCNIPluginAndVersion ∧ only (boot_writes id) getClusterCA ∧
  only (boot_writes id) getClusterDNS.
Proof.
  split_and!.
  - unfold detectCNIPluginAndVersion, probe, latest_version, image_version, getLatestCNIVersion, config_map. solve_quiet.
  - unfold getClusterCA, secret_ca, ca_of, config_map. solve_quiet.
  - apply service_ip_only. unfold config_map. solve_quiet.
Qed.

Lemma report_only id name status phase : only (boot_writes id) (ReportBootstrapStatus p id name status phase).
Proof.
  unfold ReportBootstrapStatus. destruct (empty id) eqn:Ee; [done|]. destruct (negb (has_k8s p)); [done|].
  split; [done|]. intros now. split; [cbn; by rewrite Ee, String.eqb_refl|]. intros [e|]; [|done].
  split; [cbn; by rewrite Ee, String.eqb_refl|]. intros [e'|]; done.
Qed.

Lemma step_only {A B} id (q : boot A) prefix (k : A → boot B) :
  only (boot_writes id) q → (∀ a, only (boot_writes id) (k a)) → only (boot_writes id) (step_ q prefix k).
Proof. intros Hq Hk. apply only_bind; [done|]. intros [a|e]; [apply Hk|done]. Qed.

Lemma user_data_only nodeClass key id selected :
  only (boot_writes id) (GetUserDataWithInstanceIDAndType p template (Some nodeClass) key id selected).
Proof.
  unfold GetUserDataWithInstanceIDAndType. destruct (detection_only id) as (Hcni & Hca & Hdns).
  apply step_only; [unfold detectClusterKubernetesVersion; solve_quiet|intros version].
  apply only_bind; [|intros [endpoint|e]; [|done]].
  { unfold endpoint_of. destruct (negb _); [done|]. apply only_bind; [apply embed_only, endpoint_only|intros ?]. solve_quiet. }
  apply step_only; [apply embed_only, find_or_create_only|intros token].
  apply step_only; [done|intros ca]. apply only_bind; [done|intros dns].
  apply only_bind; [unfold detectContainerRuntime; solve_quiet|intros runtime]. apply step_only; [done|intros cni].
  apply only_bind; [unfold getNodeClaim; solve_quiet|intros claim]. apply only_bind.
  - unfold detectArchitecture. apply only_bind; [apply attempt_only|intros a]. apply or_attempt_only; intros a'.
    apply or_attempt_only; intros a''. solve_quiet.
  - intros [architecture|e]; [|done]. cbv zeta. destruct (String.length token <? 10); [done|].
    destruct (negb (empty id)); [|done]. apply only_bind; [apply report_only|done].
Qed.

(** C22. The user data of a node is the script of options that let this node
    register: with the class's endpoint or the discovered one, a token of this
    run, the version of the cluster, a known architecture of the selected type,
    of the claim's or of the class's profile, and, as far as the claim could be
    read, its labels and all its taints, and always the taint that keeps pods
    off until Karpenter has registered the node.  Making it writes nothing but
    the token and the status of this instance. *)
Theorem user_data_registers_node nodeClass key instanceID selected tr r
    (Hrun : runs (GetUserDataWithInstanceIDAndType p template (Some nodeClass) key instanceID selected) tr r) :
  Forall (event_is (boot_writes instanceID)) tr ∧
  match r with
  | Ok script => ∃ options, generateCloudInitScript p template options = Ok script ∧
      registers tr nodeClass key instanceID selected options
  | Err _ => True
  end.
Proof.
  split; [by eapply runs_only; [apply user_data_only|]|]. destruct r as [script|e]; [|done].
  by apply user_data_ok, runs_within.
Qed.
End safety.

(** An image without a tag, at a registry with a port, has the port for its
    version. *)
Example version_of_untagged : extractVersionFromImage "registry.local:5000/cilium/cilium" = "v5000/cilium/cilium"%string.
Proof. reflexivity. Qed.

(** ** The theorem at a concrete run *)
#[local] Existing Instance IksExample.toy_stdlib.

#[local] Instance plain_release : BootstrapJSON := {| TagName := Ok |}.

(** The values of the last In requirement of each key, which are those of a key
    that has one requirement. *)
Fixpoint last_values (reqs : list Requirement) : gmap string (list string) :=
  match reqs with
  | [] => ∅
  | r :: reqs' =>
      let m := last_values reqs' in
      if String.eqb (Operator r) "In" && negb (bool_decide (is_Some (m !! req_Key r))) then <[req_Key r := Values r]> m else m
  end.

Lemma last_values_none reqs key : (∀ r, r ∈ reqs → req_Key r ≠ key) → last_values reqs !! key = None.
Proof.
  induction reqs as [|r reqs IH]; intros Hn; [done|]. cbn [last_values].
  assert (Hm : last_values reqs !! key = None) by (apply IH; intros r' Hin; apply Hn; by right).
  destruct (String.eqb (Operator r) "In" && _); [|done]. rewrite lookup_insert_ne; [done|]. apply Hn. by left.
Qed.

Lemma last_values_of reqs key v : last_values reqs !! key = Some v → ∃ r, r ∈ reqs ∧ req_Key r = key ∧ Values r = v.
Proof.
  induction reqs as [|r reqs IH]; [done|]. cbn [last_values].
  destruct (String.eqb (Operator r) "In" && _).
  - rewrite lookup_insert_Some. intros [[<- <-]|[_ (r' & ? & ?)%IH]]; [exists r; by split; [left|]|exists r'; by split; [right|]].
  - intros (r' & ? & ?)%IH. exists r'. by split; [right|].
Qed.

Lemma last_values_one reqs r v : r ∈ reqs → Operator r = "In"%string → Values r = [v] →
  (∀ r', r' ∈ reqs → req_Key r' = req_Key r → r' = r) → last_values reqs !! req_Key r = Some [v].
Proof.
  intros Hin Ho Hv Hu. induction reqs as [|r' reqs IH]; [by apply elem_of_nil in Hin|].
  cbn [last_values]. destruct (last_values reqs !! req_Key r) as [w|] eqn:Ew.
  - destruct (last_values_of _ _ _ Ew) as (r2 & Hin2 & Hk2 & Hw2).
    assert (E2 : r2 = r) by (apply Hu; [by right|done]). subst r2. rewrite Hv in Hw2. subst w.
    destruct (String.eqb (Operator r') "In" && _) eqn:Eb; [|done]. destruct (String.eqb_spec (req_Key r') (req_Key r)) as [Ek|Ek].
    + rewrite Ek, Ew, andb_false_r in Eb. done.
    + by rewrite lookup_insert_ne.
  - apply elem_of_cons in Hin as [<-|Hin].
    + rewrite Ho, Ew. cbn. by rewrite lookup_insert_eq, Hv.
    + specialize (IH Hin ltac:(intros r2 Hin2; apply Hu; by right)). discriminate IH.
Qed.

#[local] Instance plain_scheduling : SchedulingRequirements :=
  {| InValues := last_values; InValues_one := last_values_one; InValues_none := last_values_none |}.

Definition bootstrap_class : IBMNodeClass :=
  {| nc_meta := {| Name := "default"; UID := "u"; ResourceVersion := "1"; Generation := 1; DeletionTimestamp := None;
       CreationTimestamp := 0; Labels := ∅; Annotations := ∅; Finalizers := [] |};
     Spec := {| Region := "us-south"; Zone := "us-south-1"; NodeClass.InstanceProfile := ""; InstanceRequirements := None;
       Image := "ubuntu"; ImageSelector_ := None; VPC := "vpc-1"; Subnet := ""; PlacementStrategy_ := None; SecurityGroups := [];
       UserData := ""; UserDataAppend := ""; SSHKeys := []; ResourceGroup := ""; PlacementTarget := ""; Tags := ∅;
       BootstrapMode := None; APIServerEndpoint := "https://10.0.0.1:6443"; IKSClusterID := ""; IKSWorkerPoolID := "";
       IKSDynamicPools := None; LoadBalancerIntegration_ := None; BlockDeviceMappings := []; Kubelet := None |};
     Status := empty_status |}%string.

Definition bootstrap_claim : BootstrapClaim :=
  {| bc_Labels := <["team" := "a"]> {["karpenter.sh/nodepool" := "default"]};
     bc_Requirements := [{| req_Key := "team"; Operator := "In"; Values := ["b"] |}; {| req_Key := "zone"; Operator := "In"; Values := ["1"; "2"] |}];
     bc_Taints := [{| taint_Key := "dedicated"; taint_Value := "gpu"; taint_Effect := "NoSchedule" |}];
     bc_StartupTaints := [] |}%string.

(** A cluster with Cilium, a certificate in a Secret and the claim. *)
Definition boot_world (R : Type) (e : boot_call R) (secrets : list Secret) : R * list Secret :=
  match e in boot_call R return R * list Secret with
  | OfTokens e => token_world 0 _ e secrets
  | ServerVersion => (Ok "v1.31.0"%string, secrets)
  | GetService _ _ => (Ok {| svc_ClusterIP := "172.21.0.10"; svc_Ports := [] |}, secrets)
  | ListDNSServices => (Ok [], secrets)
  | FirstNodes => (Ok [{| PodCIDR := ""; ContainerRuntimeVersion := "containerd://1.7.0" |}], secrets)
  | GetDaemonSet _ name =>
      (if String.eqb name "cilium" then Ok ["quay.io/cilium/cilium:1.15.0"%string] else Err (GoErrors.New "not found"), secrets)
  | ListConfigMaps => (Ok [], secrets)
  | BGetSecret _ _ => (Ok {["ca.crt" := "pem"]}, secrets)
  | ListServiceAccountTokens => (Ok [], secrets)
  | BGetNodeClaim _ => (Ok bootstrap_claim, secrets)
  | UpdateConfigMap _ _ => (Some (GoErrors.New "not found"), secrets)
  | CreateConfigMap _ _ => (None, secrets)
  | HttpGet _ => (Err (GoErrors.New "no network"), secrets)
  | BVPCClient => (None, secrets)
  | BListProfiles =>
      (Ok [{| pr_Name := Some "bx2-2x8"; VcpuCount := None; pr_Memory := None; VcpuArchitecture := Some (Some "amd64");
              GpuCount := None; AvailabilityClass := None |}]%string, secrets)
  | BGetInstance _ => (Ok (Some "running"%string), secrets)
  | BIKSClient => (None, secrets)
  | IKSClusterConfig _ => (Err (GoErrors.New "not found"), secrets)
  | BIamToken => (Ok "token"%string, secrets)
  | PostWorker _ _ _ _ _ _ => (Err (GoErrors.New "not found"), secrets)
  | BNow => (0%Z, secrets)
  end.

Definition boot_provider : provider :=
  {| has_client := true; has_k8s := true; has_kube := true; b_Version := "dev"; b_Environ := ["BOOTSTRAP_DEBUG=1"]; b_ca_crt := "" |}%string.
Definition boot_template (o : Options) : res string :=
  Ok (shebang ++ NodeName o ++ " " ++ CNIPlugin o ++ " " ++ CNIVersion o ++ " " ++ get (opt_Labels o) "team")%string.
Definition boot_key : NamespacedName := {| key_Namespace := ""; key_Name := "node-1" |}%string.
Definition boot_run (profile : string) :=
  interp boot_world (GetUserDataWithInstanceIDAndType boot_provider boot_template (Some bootstrap_class) boot_key "i-1" profile) [].

Lemma user_data_registers_node_witness :
  (boot_run "bx2-2x8").1.2 =
    Ok (shebang ++ nl ++ "export BOOTSTRAP_DEBUG=" ++ Quote "1" ++ nl ++ "node-1 cilium v1.15.0 b")%string ∧
  is_ok (boot_run "unknown").1.2 = false ∧
  ∃ options, registers boot_provider (boot_run "bx2-2x8").1.1 bootstrap_class boot_key "i-1" "bx2-2x8" options.
Proof.
  assert (Hr : (boot_run "bx2-2x8").1.2 =
    Ok (shebang ++ nl ++ "export BOOTSTRAP_DEBUG=" ++ Quote "1" ++ nl ++ "node-1 cilium v1.15.0 b")%string) by (vm_compute; reflexivity).
  split; [exact Hr|]. split; [vm_compute; reflexivity|].
  pose proof (user_data_registers_node boot_provider boot_template bootstrap_class boot_key "i-1" "bx2-2x8" _ _
    (interp_runs boot_world (GetUserDataWithInstanceIDAndType boot_provider boot_template (Some bootstrap_class) boot_key "i-1" "bx2-2x8") []))
    as [_ Ht].
  unfold boot_run in Hr. rewrite Hr in Ht. destruct Ht as (options & _ & Hreg). exists options. exact Hreg.
Defined.
