(* ===== verification/ClusterDiscovery.v ===== *)
(** * ClusterDiscovery: the network of a cluster, and IKS

    [pkg/providers/common/types/cluster.go]: the DNS address, the address range and
    the CNI plugin of a cluster ([Cluster]); [pkg/providers/iks/bootstrap]: the user
    data of an IKS node, its cluster's configuration and the call that adds a worker
    ([IksBootstrap]).  They make the calls of VpcBootstrap. *)
From stdpp Require Import prelude list strings gmap.
From Stdlib Require Import Ascii.
From S2P Require Import Prelude GoLib Errors NodeClass ProviderIDs Prog Kube Tokens Bootstrap VpcBootstrap.
Import Strings.

Open Scope string_scope.
Open Scope nat_scope.
Local Open Scope prog_scope.

Local Abbreviation boot A := (prog boot_call (result GoErrors.error A)).

Module Cluster.

(** [net.ParseIP] and [To4]: the number of an IPv4 address, also of one that is
    written as IPv6.  Four decimal bytes are an IPv4 address. *)
Inductive IP := IPv4 (address : Z) | IPv6.
Class Net := {
  ParseIP : string → option IP;
  ParseIP_dotted : ∀ a b c d : Z, (0 ≤ a < 256 ∧ 0 ≤ b < 256 ∧ 0 ≤ c < 256 ∧ 0 ≤ d < 256)%Z →
    ParseIP (Strconv.Itoa a ++ "." ++ Strconv.Itoa b ++ "." ++ Strconv.Itoa c ++ "." ++ Strconv.Itoa d) =
      Some (IPv4 (((a * 256 + b) * 256 + c) * 256 + d));
}.

Record ClusterConfig := {
  cc_DNSClusterIP : string;
  cc_ClusterCIDR : string;
  cc_CNIPlugin : string;
  IPFamily : string;
}.

Section cluster.
Context `{Net}.

Definition discoverDNSClusterIP : boot string :=
  answer ⟵ GetService "kube-system" "kube-dns";
  match answer with
  | Ok svc => Ret (Ok (svc_ClusterIP svc))
  | Err _ =>
      answer ⟵ GetService "kube-system" "coredns";
      match answer with
      | Ok svc => Ret (Ok (svc_ClusterIP svc))
      | Err _ =>
          answer ⟵ ListDNSServices;
          match answer with
          | Err e => fail_with (wrapped_ "failed to list DNS services" e)
          | Ok [] => fail "no DNS service found in kube-system namespace"
          | Ok (svc :: _) => Ret (Ok (svc_ClusterIP svc))
          end
      end
  end.

(** [Contains] of 10.96.0.0/12 and 172.20.0.0/16. *)
Definition in_range (address network bits : Z) : bool := (Z.shiftr address (32 - bits) =? Z.shiftr network (32 - bits))%Z.

Definition service_cidr (ip : IP) : string :=
  match ip with
  | IPv4 address =>
      if in_range address (((10 * 256 + 96) * 256) * 256) 12 then "10.96.0.0/12"
      else if in_range address (((172 * 256 + 20) * 256) * 256) 16 then "172.20.0.0/16"
      else "10.96.0.0/12"
  | IPv6 => "fd00::/108"
  end.

Definition discoverServiceCIDR : boot string :=
  answer ⟵ GetService "default" "kubernetes";
  match answer with
  | Err e => fail_with (wrapped_ "failed to get kubernetes service" e)
  | Ok svc =>
      match ParseIP (svc_ClusterIP svc) with
      | None => fail ("invalid service IP: " ++ svc_ClusterIP svc)
      | Some ip => Ret (Ok (service_cidr ip))
      end
  end.

Definition discoverClusterCIDR : boot string :=
  answer ⟵ FirstNodes;
  match answer with
  | Err e => fail_with (wrapped_ "failed to list nodes" e)
  | Ok [] => fail "no nodes found in cluster"
  | Ok (node :: _) => if negb (empty (PodCIDR node)) then Ret (Ok (PodCIDR node)) else discoverServiceCIDR
  end.

(** [contains]: without regard to case. *)
Definition contains (s substr : string) : bool := Contains (ToLower s) (ToLower substr).

Definition named_plugin (data : string) : option string := List.find (contains data) ["calico"; "cilium"; "flannel"].

Fixpoint plugin_of_maps (maps : list (string * gmap string string)) : string :=
  match maps with
  | [] => "unknown"
  | (name, data) :: maps' =>
      if String.eqb name "cni-config" || String.eqb name "kube-proxy" then
        match data !! "config.conf" ≫= named_plugin with Some plugin => plugin | None => plugin_of_maps maps' end
      else plugin_of_maps maps'
  end.

(** The daemon sets that tell a plugin. *)
Definition plugin_sets : list (string * string * string) :=
  [("kube-system", "calico-node", "calico"); ("kube-system", "cilium", "cilium"); ("kube-flannel", "kube-flannel-ds", "flannel");
   ("kube-system", "kube-flannel-ds", "flannel"); ("kube-system", "weave-net", "weave")].

Fixpoint first_set (sets : list (string * string * string)) (k : boot string) : boot string :=
  match sets with
  | [] => k
  | (namespace, name, plugin) :: sets' =>
      answer ⟵ GetDaemonSet namespace name;
      match answer with Ok _ => Ret (Ok plugin) | Err _ => first_set sets' k end
  end.

Definition detectCNIPlugin : boot string :=
  first_set plugin_sets (
    answer ⟵ ListConfigMaps;
    match answer with Err _ => Ret (Ok "unknown") | Ok maps => Ret (Ok (plugin_of_maps maps)) end).

Definition DiscoverClusterConfig : boot ClusterConfig :=
  step_ discoverDNSClusterIP "failed to discover DNS cluster IP" (λ dnsIP,
  step_ discoverClusterCIDR "failed to discover cluster CIDR" (λ cidr,
  step_ detectCNIPlugin "failed to detect CNI plugin" (λ cniPlugin,
  match ParseIP dnsIP with
  | None => fail ("failed to parse DNS IP " ++ Quote dnsIP)
  | Some ip =>
      Ret (Ok {| cc_DNSClusterIP := dnsIP; cc_ClusterCIDR := cidr; cc_CNIPlugin := cniPlugin;
                 IPFamily := match ip with IPv4 _ => "ipv4" | IPv6 => "ipv6" end |})
  end))).

(** What is discovered is a cluster: the DNS address is one of the family, and the
    plugin a known one, or unknown. *)
Theorem discovered_config tr config (Hrun : runs DiscoverClusterConfig tr (Ok config)) :
  (∃ svc, svc_ClusterIP svc = cc_DNSClusterIP config ∧
     (asked tr (GetService "kube-system" "kube-dns") (Ok svc) ∨ asked tr (GetService "kube-system" "coredns") (Ok svc) ∨
      ∃ services, asked tr ListDNSServices (Ok services) ∧ head services = Some svc)) ∧
  (∃ ip, ParseIP (cc_DNSClusterIP config) = Some ip ∧
     IPFamily config = match ip with IPv4 _ => "ipv4" | IPv6 => "ipv6" end) ∧
  (cc_CNIPlugin config ∈ ["calico"; "cilium"; "flannel"; "weave"; "unknown"]).
Proof.
  apply runs_within in Hrun. unfold DiscoverClusterConfig in Hrun.
  apply step_ok in Hrun as (dnsIP & Hdns & Hrun). apply step_ok in Hrun as (cidr & _ & Hrun).
  apply step_ok in Hrun as (plugin & Hp & Hrun).
  destruct (ParseIP dnsIP) as [ip|] eqn:Ei; apply within_ret in Hrun; [|done]. injection Hrun as <-. cbn.
  split; [|split; [by exists ip|]].
  - unfold discoverDNSClusterIP in Hdns. repeat step_within;
      match goal with Hi : Ok _ = Ok _ |- _ => injection Hi as <- end; eexists; (split; [done|]); eauto 10.
  - assert (Hmaps : ∀ maps, plugin_of_maps maps ∈ ["calico"; "cilium"; "flannel"; "weave"; "unknown"]).
    { induction maps as [|[name data] maps IH]; cbn [plugin_of_maps]; [set_solver|].
      destruct (_ || _); [|done]. destruct (data !! "config.conf" ≫= named_plugin) as [plugin'|] eqn:En; [|done].
      apply bind_Some in En as (conf & _ & Hf). apply List.find_some in Hf as [Hin _]. apply list_elem_of_In in Hin. set_solver. }
    unfold detectCNIPlugin in Hp. cbn [first_set plugin_sets] in Hp. repeat step_within;
      match goal with Hi : Ok _ = Ok _ |- _ => injection Hi as <- end; (apply Hmaps || set_solver).
Qed.
End cluster.
End Cluster.

(** ** IKS *)
Module IksBootstrap.

Record IKSWorkerPoolOptions := {
  wo_ClusterID : string;
  wo_WorkerPoolID : string;
  VPCInstanceID : string;
  wo_Zone : string;
}.

(** IKS configures its nodes itself. *)
Definition iks_user_data : string :=
  "#!/bin/bash" ++ nl ++ "# IKS node provisioned by Karpenter IBM Cloud Provider" ++ nl ++
  "echo " ++ String dquote ("Node provisioned via IKS worker pool resize API" ++ String dquote nl) ++
  "# IKS handles the Kubernetes bootstrap process automatically" ++ nl.

Definition GetUserData (nodeClass : IBMNodeClass) : string :=
  if negb (empty (TrimSpace (UserData (Spec nodeClass)))) then UserData (Spec nodeClass) else iks_user_data.
Definition GetUserDataWithInstanceID (nodeClass : IBMNodeClass) (instanceID : string) : string := GetUserData nodeClass.

Definition getClusterName (env : string → string) : string :=
  if negb (empty (env "CLUSTER_NAME")) then env "CLUSTER_NAME"
  else if negb (empty (env "IKS_CLUSTER_ID")) then "iks-cluster-" ++ env "IKS_CLUSTER_ID"
  else "karpenter-iks-cluster".

Definition GetClusterConfig (has_client : bool) (env : string → string) (clusterID : string) : boot ClusterInfo :=
  if negb has_client then fail "IBM client not initialized"
  else
    e ⟵ BIKSClient;
    match e with
    | Some e => fail_with (wrapped_ "getting IKS client" e)
    | None =>
        answer ⟵ IKSClusterConfig clusterID;
        match answer with
        | Err e => fail_with (wrapped_ "getting cluster config from IKS API" e)
        | Ok kubeconfig =>
            match ParseKubeconfig kubeconfig with
            | Err e => fail_with (wrapped_ "parsing kubeconfig from IKS API" e)
            | Ok (endpoint, caData) =>
                Ret (Ok {| Endpoint := endpoint; CAData := caData; ci_ClusterName := getClusterName env; IsIKSManaged := true;
                           ci_IKSClusterID := clusterID |})
            end
        end
    end.

Definition worker_labels (options : IKSWorkerPoolOptions) : gmap string string :=
  <["karpenter.sh/managed" := "true"]> (<["karpenter-ibm.sh/zone" := wo_Zone options]>
  {["karpenter-ibm.sh/provisioner" := "karpenter-ibm"]}).

(** The request carries the options; the identity of the worker is returned. *)
Definition AddWorkerToIKSCluster (options : IKSWorkerPoolOptions) : boot string :=
  answer ⟵ BIamToken;
  match answer with
  | Err e => fail_with (wrapped_ "getting IAM token" e)
  | Ok token =>
      answer ⟵ PostWorker token ("/clusters/" ++ wo_ClusterID options ++ "/workers") (worker_labels options)
        (wo_WorkerPoolID options) (VPCInstanceID options) (wo_Zone options);
      match answer with
      | Err e => fail_with (wrapped_ "IKS API error" e)
      | Ok id => Ret (Ok id)
      end
  end.
End IksBootstrap.

(** ** Kubeconfigs *)
Local Open Scope list_scope.

Example kubeconfig_example :
  ParseKubeconfig "apiVersion: v1
clusters:
- cluster:
    certificate-authority-data: cGVt
    server: https://10.0.0.1:6443
  name: c" = Ok ("https://10.0.0.1:6443", "pem")%string.
Proof. reflexivity. Qed.
